(* ===== verification/_CoqProject ===== *)
-Q . S2P
Prelude.v
Keyset.v
PyStr.v
Base64.v
Datetime.v
Errors.v
PySort.v
Score.v
Odict.v
Relevance.v
RelevanceFacts.v
PageCache.v
BrowseCursor.v
Browse.v
Query.v
Utf8.v
Arms.v
Snippet.v
Rewrite.v
SearchPool.v
PoolFacts.v
PoolPaging.v
DateKeyset.v
Search.v
SearchCursor.v
SearchApi.v
SearchFacts.v
ComposeFacts.v
TextWindow.v
Json.v
Sanitize.v
Changes.v
ChangesFacts.v
HeaderBlock.v
MailStore.v
HttpBlob.v
HttpBlobFacts.v
Reads.v
ReadsFacts.v
ClientIp.v
ExtractQueue.v
ExtractFacts.v
FetchRetry.v
Sync.v
SyncFacts.v
BlobStore.v
BlobStoreFacts.v
Parser.v
Importer.v
ImporterFacts.v
Chunking.v
ChunkFacts.v
EmbedWorker.v
EmbedFacts.v
Credentials.v
OAuth.v
OAuthFacts.v
SessionFacts.v
OAuthRace.v
AdminAccounts.v
Admin.v
ApiKeys.v
AdminFacts.v
ApiKeyFacts.v
Daemon.v
DaemonFacts.v
DaemonRuns.v
Supervisor.v
JsonText.v
JsonTextFacts.v
Secrets.v
SecretsFacts.v
Workers.v
WorkersFacts.v
AdminWeb.v
OAuthConsent.v
AdminWebFacts.v
OAuthConsentFacts.v
Extractor.v
ExtractorFacts.v
