(* ===== verification/Prelude.v ===== *)
(** * localmail: a verification development

    localmail archives IMAP mail in PostgreSQL and serves it over an HTTP api, an
    MCP server with its own OAuth authorization server, admin pages and a search
    engine.  This library models the parts of [src/src/localmail] that carry the
    program's own state and decisions, and proves what makes them correct.  Paths
    below are relative to that directory.

    ** The parts, how they interact, and where they are modelled

    - The archive.  [Parser] makes a row of a message ([parser.py]).  A sync pass
      ([sync.py], file [Sync]) reads a mailbox over IMAP
      and writes the tables of [MailStore], which also has the UID rules of
      [uids.py]; bodies the server does not serve are held or given up in
      [FetchRetry] ([fetch_retry.py]).  [Importer] ([importer/]) brings in foreign
      archives.  [BlobStore] ([attachments.py], [blob_temps.py]) keeps the payloads
      on disk.
    - The threads that drive it.  [Workers] has the IDLE and the poll loop of one
      account ([idle.py], [poller.py], [imap_client.py]); [Daemon] starts and stops
      a pair of them for each row of the accounts table ([daemon.py],
      [daemon_reconcile.py], [api/admin/daemon.py]), [DaemonRuns] interleaves it with
      the admin service; [Supervisor] is the owner of the daemon process
      ([serve/daemon_supervisor.py]).  [Secrets] is the file their passwords are in.
    - The derived data.  [ExtractQueue] is the extraction worker over its queue
      ([search/extract_queue.py], [search/extract_worker.py]), [Extractor] what it runs
      ([search/extractor.py], [ocr_policy.py]); [Chunking] and [EmbedWorker] cut text
      into windows, embed them and detect languages
      ([search/chunking.py], [search/embed_worker.py], [search/lang_detect.py]).
    - Reading.  [Browse] with [BrowseCursor] lists messages; [Reads] is messages,
      attachments, accounts and folders ([api/messages.py], [api/attachments.py],
      [api/accounts.py]); [HeaderBlock], [TextWindow] and [Sanitize] prepare a message
      for the client, [HttpBlob] streams an attachment, [Changes] answers pollers
      ([serve/routes/changes.py]).
    - Searching.  [Query] parses ([search/query.py], [search/sort_axes.py],
      [search/keyset_walk.py]); [Rewrite] merges and caches query rewrites; [Arms]
      retrieves candidates; [Relevance] fuses and orders them; [SearchPool] with
      [PageCache] holds ranked results between pages; [DateKeyset] is the date-ordered
      search; [Search] chooses between the two; [SearchCursor] and [SearchApi] are the
      api in front of them; [Snippet] cuts the excerpts.
    - Who may do what.  [Credentials] has users, sessions, API keys, login and its
      limits ([api/auth.py]); [OAuth] codes and tokens ([mcp/oauth/]); [OAuthConsent]
      client registration and the consent form; [Admin] users, [ApiKeys] keys,
      [AdminAccounts] mail accounts; [AdminWeb] the sessions, form tokens and guards of
      the admin pages; [ClientIp] the address the limits are counted by.
      Revocation acts on the same tables all of these read, and the grants of [Admin]
      are the [allowed_account_ids] that bound every read and search.

    A file [XFacts] holds what is proved of [X].  Files of shared matter: this one
    (results and [let*], SQL's three-valued conditions [Sql], the tactics [zb],
    [case_ifs], [inv_ok], the hint database [zbool], list lemmas); [Keyset] (the
    nullable-date order, and the interface [KeysetSource] of a page query, which
    [Browse] and [DateKeyset] implement and against which the walk theorem is
    proved); [PyStr], [Base64], [Utf8], [Datetime], [Json], [JsonText], [PySort],
    [Score], [Odict] (the Python values the code computes with); [Errors] (the api's
    exceptions, and [api/ids.py]).

    ** What the theorems show

    - Mail is not lost: [SyncFacts.sync_no_silent_loss], [held_uid_is_refetched],
      nor one message taken for another: [Parser.parsed_mail_is_kept_apart];
      an import says what it did: [ImporterFacts.import_row_is_truthful]; payloads
      are what their names say: [BlobStoreFacts.blobs_are_content_addressed].
    - The threads are the right ones, behave and stop: [DaemonRuns]
      [daemon_follows_the_table], [one_current_pair_per_account] (a pair whose join
      ran out of its time may outstay the next one: [late_join_leaves_two_pairs]);
      [WorkersFacts] [workers_are_disciplined] (with every wanted folder synced on each
      poll pass), [workers_stop_promptly]; [Supervisor]
      [no_child_outlives_close].
    - Background work ends and is accounted for: [ExtractFacts] [sweep_accounts],
      [drain_terminates], [queue_counts_partition]; [EmbedFacts] [chunk_queue_drains];
      [ChunkFacts] on what chunking keeps.  [ExtractorFacts] composes the three:
      [stored_texts_are_indexable], [broken_docling_fails_no_pdf],
      [admitted_blobs_are_dispatched].
    - Paging is complete: [browse_walk_complete], [date_walk_complete],
      [PoolPaging.paging_serves_once]; pollers miss nothing: [ChangesFacts]
      [tail_delivers_once], [subscription_loses_nothing]; cursors survive the wire and
      bad ones are client errors: the theorems of [SearchCursor] and [BrowseCursor].
    - Ranking is what it is meant to be: [rrf_fuse_exact], [pool_is_reference_head];
      the cache of pages is an LRU store: [page_cache_refines_lru]; every search is
      answered: [run_search_terminates]; filters never change the free text:
      [build_query_string_is_free_text_neutral].
    - Nobody reads beyond their grants: [ReadsFacts.reads_see_only_grants] as
      non-interference, [SearchFacts.search_stays_in_grants], [Browse]'s bound.
    - Credentials: [code_exchange_single_use], [reuse_revokes_family],
      [rotation_single_winner] over interleaved statements, [guessing_is_bounded] over
      logins that overlap, [revoked_credential_stays_dead] for tokens, keys, codes and
      cookies alike, [last_admin_survives] over interleaved transactions, [schema_is_kept], [admin_requests_are_authorised],
      [consents_are_bound], [consent_codes_are_authorised], [registrations_are_bounded],
      and for stored passwords [secrets_refine_a_map], [migration_is_resumable].
    - What leaves the server is what it says: [blob_response_exact],
      [sanitized_urls_are_local], the addresses judged by a URL parser of its own.
    - Where the code does not do what it means to, a lemma shows it by a run, such as
      [uidvalidity_change_skips_mail], [zero_limit_skips_mail],
      [sweep_can_outrun_family], [unlogged_failure_spins],
      [surrogate_is_not_stripped], [nul_message_id_folds_mail], [nul_mime_type_is_kept],
      [split_data_link_passes] and [null_refresh_token_corrupts_the_store].

    ** Modelling choices

    - A Python call that may raise returns a [res]; a SQL statement is a function on
      the tables of its transaction; tables are finite maps by primary key, and a
      query's condition is a [Sql.cond], so that NULL behaves as in SQL.  A rollback is
      the table state before the savepoint.
    - Concurrency is explicit where the code must survive it: statements of several
      connections under READ COMMITTED, with the row locks or the advisory lock the
      code takes ([OAuthRace], [AdminFacts]); system calls of several writers
      ([BlobStore], [Secrets]); atomic lock-held bodies ([Supervisor]); turns of the
      daemon's loop among commits of the admin service ([DaemonRuns]).  Elsewhere
      what other sessions commit between two statements is an argument, and the
      statements of one read request see one state.
    - Clocks, sequences, fresh tokens, the IMAP server, the email package, the document
      parsers and the outcome of each statement that may fail are fields of an environment
      record, quantified over in every theorem.  A thread that calls out is a program
      over a list of scripted answers ([Workers]); the theorem on stopping counts
      calls, so that it holds of every answer.
    - Third-party code is an interface with the laws the code relies on: [Postgres]
      (its HNSW index an approximate scan that finds some of the rows),
      [PgRead], [Tokenizer], [EmailPolicy], [EmailPackage], [IpAddress], [Hmac], [Crypto], [Datetime],
      [PyUnicode], [PyFloatText], the parameters [nh3_clean] (with [nh3_contract]) and [sha256].  Where an
      HMAC must not be forged the hypothesis says that the client presents only
      signatures it was handed.
    - An exception is a value of [res]; where the code walks its cause and context it is
      a heap of linked objects ([Extractor]), walked with one turn more than objects.
    - Scores are IEEE binary64 numbers; [sorted] is a stable sort; a [dict] whose order
      matters is an association list.  Times are integers in the unit a file names.
    - Fuel: [follow] and [walk] need one step more than there are rows, and the
      theorems take any such fuel; [stream_slice] gives its loop one turn more than
      bytes; [drain] gets the sum of the retry budgets plus one; growing a pool gets
      [grow_fuel], one turn for each size up to [candidates_per_arm_max]; scans of text
      get its length.  Each is proved to be enough: no theorem speaks only of runs that
      happen to finish.

    ** Not modelled

    Python's email package and the document libraries (fed with bytes), the rewriter's
    HTTP backends and its prompt, the reranker, the MCP tools (which call the modelled api),
    the HTTP application and page templates, the loading of configuration files, the
    command line except two retry commands, version and build reports, the daemon's
    control socket and its signal handlers, the readers of mbox and Maildir files, the
    keyring backend, the OAuth client towards mail providers, and [touch_last_used] in
    the token exchanges: they are I/O, third-party code or glue over what is modelled. *)
From stdpp Require Export base gmap strings list sorting.
From Stdlib Require Export ZArith Lia.

#[global] Open Scope Z_scope.

(** ** Results of fallible code

    A Python function that returns or raises is a [res E A]: [Ok a] when it
    returns [a], [Err e] when it raises [e]. *)
Inductive res (E A : Type) : Type :=
  | Ok (a : A)
  | Err (e : E).
Arguments Ok {E A} a.
Arguments Err {E A} e.

#[global] Instance res_ret {E} : MRet (res E) := fun A a => Ok a.
#[global] Instance res_bind {E} : MBind (res E) := fun A B f m =>
  match m with Ok a => f a | Err e => Err e end.
#[global] Instance res_fmap {E} : FMap (res E) := fun A B f m =>
  match m with Ok a => Ok (f a) | Err e => Err e end.
#[global] Instance res_eq_dec {E A} `{EqDecision E, EqDecision A} :
  EqDecision (res E A).
Proof. solve_decision. Defined.

Declare Scope lm_scope.
Delimit Scope lm_scope with lm.
#[global] Open Scope lm_scope.

Notation "'let*' x ':=' m 'in' k" :=
  (match m with Ok x => k | Err e => Err e end)
  (at level 10, x pattern, m at level 100, k at level 200,
   format "'let*'  x  ':='  m  'in' '//' k") : lm_scope.
Notation "'guard!' b 'else' e 'in' k" :=
  (if b then k else Err e)
  (at level 10, b at level 100, e at level 100, k at level 200,
   format "'guard!'  b  'else'  e  'in' '//' k") : lm_scope.

Definition is_ok {E A} (r : res E A) : bool :=
  match r with Ok _ => true | Err _ => false end.

(** ** Booleans and integers *)

Create HintDb zbool.
Create Rewrite HintDb zbool.
#[export] Hint Rewrite Z.ltb_lt Z.leb_le Z.eqb_eq Z.gtb_lt Z.geb_le
  Z.ltb_ge Z.leb_gt Z.eqb_neq Bool.andb_true_iff Bool.orb_true_iff
  Bool.negb_true_iff Bool.negb_false_iff Bool.orb_false_iff
  bool_decide_eq_true bool_decide_eq_false : zbool.

(** [zb] turns every boolean comparison of the context into a proposition and
    calls [lia]. *)
Ltac zb_simpl :=
  repeat match goal with
    | H : _ && _ = false |- _ => apply Bool.andb_false_iff in H; destruct H
    | H : _ && _ = true |- _ => apply Bool.andb_true_iff in H; destruct H
    end;
  autorewrite with zbool in *.
Ltac zb := zb_simpl; lia.

(** [case_ifs] destructs the tests of every [if] of the goal. *)
Ltac case_ifs :=
  repeat match goal with
    | |- context [if ?b then _ else _] =>
        lazymatch b with
        | context [if _ then _ else _] => fail
        | _ => let E := fresh "E" in destruct b eqn:E
        end
    end.

(** [inv_ok] opens a hypothesis that says a monadic computation returned. *)
Ltac inv_ok H :=
  repeat match type of H with
    | (match ?m with Ok _ => _ | Err _ => _ end) = Ok _ =>
        let E := fresh "E" in destruct m eqn:E; [| discriminate H]
    | (if ?b then _ else Err _) = Ok _ =>
        let E := fresh "E" in destruct b eqn:E; [| discriminate H]
    end.

(** ** Lists *)

(** A test for the empty list whose branches do not use the list. *)
Lemma match_nil_ext {A B} (l : list B) (u v v' : A) :
  v = v' -> match l with [] => u | _ :: _ => v end = match l with [] => u | _ :: _ => v' end.
Proof. by intros ->. Qed.
Lemma match_cons {A B} (l : list B) (u v : A) : l <> [] -> match l with [] => u | _ :: _ => v end = v.
Proof. by destruct l. Qed.

Section lists.
Context {A : Type}.
Implicit Types (l : list A).

Fixpoint foldM {E S} (f : S -> A -> res E S) (s : S) (l : list A) : res E S :=
  match l with
  | [] => Ok s
  | x :: l' => match f s x with Ok s' => foldM f s' l' | Err e => Err e end
  end.

(** A property of the state and the elements already folded is an invariant
    of [foldM] when every successful step preserves it. *)
Lemma foldM_invariant {E S} (f : S -> A -> res E S) (P : list A -> S -> Prop) l s s' :
  P [] s ->
  (forall done x s0 s1, x ∈ l -> P done s0 -> f s0 x = Ok s1 -> P (done ++ [x]) s1) ->
  foldM f s l = Ok s' -> P l s'.
Proof.
  intros H0 Hstep.
  enough (G : forall todo done s0, done ++ todo = l -> P done s0 ->
            foldM f s0 todo = Ok s' -> P l s') by (intros; by apply (G l [] s)).
  induction todo as [| x todo IH]; intros done s0 Hl HP Hf; cbn in Hf.
  - rewrite app_nil_r in Hl. by simplify_eq.
  - destruct (f s0 x) as [s1 |] eqn:Ef; [| done].
    apply (IH (done ++ [x]) s1); [by rewrite <- app_assoc | | done].
    eapply Hstep; [| done..]. rewrite <- Hl. set_solver.
Qed.

Lemma filter_all (P : A -> Prop) `{!forall x, Decision (P x)} l :
  Forall P l -> filter P l = l.
Proof. induction 1 as [|x l Hx _ IH]; [done|]. by rewrite filter_cons_True, IH. Qed.

Lemma filter_none (P : A -> Prop) `{!forall x, Decision (P x)} l :
  Forall (fun x => ~ P x) l -> filter P l = [].
Proof. induction 1 as [|x l Hx _ IH]; [done|]. by rewrite filter_cons_False. Qed.

Lemma filter_filter_and (P Q : A -> Prop) `{!forall x, Decision (P x)}
    `{!forall x, Decision (Q x)} l :
  filter P (filter Q l) = filter (fun x => P x /\ Q x) l.
Proof.
  induction l as [| x l IH]; [done |].
  destruct (decide (Q x)) as [HQ | HQ].
  - rewrite (filter_cons_True Q) by done.
    destruct (decide (P x)) as [HP | HP].
    + rewrite !filter_cons_True by (done || split; done). by rewrite IH.
    + rewrite !filter_cons_False by naive_solver. done.
  - rewrite (filter_cons_False Q) by done.
    rewrite (filter_cons_False (fun x => P x /\ Q x)) by naive_solver. done.
Qed.

Lemma length_filter_mono (P Q : A -> Prop) `{!forall x, Decision (P x), !forall x, Decision (Q x)} l :
  (forall x, x ∈ l -> P x -> Q x) -> (length (filter P l) <= length (filter Q l))%nat.
Proof.
  induction l as [| x l IH]; intros Himp; [done |].
  assert (length (filter P l) <= length (filter Q l))%nat by (apply IH; set_solver).
  rewrite !filter_cons. repeat case_decide; cbn; try lia.
  exfalso. set_solver.
Qed.

Lemma omap_ext_in {B} (f g : A -> option B) l : (forall x, x ∈ l -> f x = g x) -> omap f l = omap g l.
Proof.
  induction l as [| x l IH]; intros Hfg; [done |]. cbn. rewrite (Hfg x) by left.
  rewrite IH; [done |]. intros y Hy. apply Hfg. by right.
Qed.
Lemma fmap_ext_in {B} (f g : A -> B) l : (forall x, x ∈ l -> f x = g x) -> f <$> l = g <$> l.
Proof.
  induction l as [| x l IH]; intros Hfg; [done |]. cbn [fmap list_fmap]. rewrite (Hfg x) by left.
  rewrite IH; [done |]. intros y Hy. apply Hfg. by right.
Qed.
End lists.

(** ** SQL's three-valued logic

    A SQL condition is [Some true], [Some false] or [None] (UNKNOWN); a
    [WHERE] keeps the rows whose condition is [Some true]. *)
Module Sql.
Definition cond := option bool.

Definition kept (c : cond) : bool :=
  match c with Some true => true | _ => false end.

Definition is_null {A} (x : option A) : cond :=
  Some (match x with None => true | Some _ => false end).
Definition is_not_null {A} (x : option A) : cond :=
  Some (match x with None => false | Some _ => true end).

Definition and (a b : cond) : cond :=
  match a, b with
  | Some false, _ | _, Some false => Some false
  | Some true, Some true => Some true
  | _, _ => None
  end.
Definition or (a b : cond) : cond :=
  match a, b with
  | Some true, _ | _, Some true => Some true
  | Some false, Some false => Some false
  | _, _ => None
  end.
Definition not (a : cond) : cond :=
  match a with Some b => Some (negb b) | None => None end.

Definition cmp (f : Z -> Z -> bool) (a b : option Z) : cond :=
  match a, b with Some x, Some y => Some (f x y) | _, _ => None end.
Definition lt := cmp Z.ltb.
Definition gt := cmp (fun x y => y <? x).
Definition ge := cmp (fun x y => y <=? x).

(** [ROW(a, b) < ROW(c, d)]: decided at the first pair that differs; a NULL
    met before that makes the comparison UNKNOWN. *)
Definition row_lt (a b c d : option Z) : cond :=
  match a, c with
  | Some x, Some y => if x =? y then lt b d else Some (x <? y)
  | _, _ => None
  end.
Definition row_gt (a b c d : option Z) : cond := row_lt c d a b.

Definition coalesce {A} (a b : option A) : option A :=
  match a with Some _ => a | None => b end.

Lemma kept_some b : kept (Some b) = b.
Proof. by destruct b. Qed.
Lemma kept_and a b : kept (and a b) = kept a && kept b.
Proof. by destruct a as [[]|], b as [[]|]. Qed.
Lemma kept_or a b : kept (or a b) = kept a || kept b.
Proof. by destruct a as [[]|], b as [[]|]. Qed.
End Sql.
#[export] Hint Rewrite Sql.kept_some Sql.kept_and Sql.kept_or : zbool.
