(* ===== verification/Keyset.v ===== *)
(** * Keyset pagination

    The date ordering both paginated listings share, and the walk a client
    makes when it asks for one page after another.  [Browse.v] and
    [DateKeyset.v] each run SQL of this shape over the [messages] table;
    both obtain their walk theorems from [Section walk] below by giving an
    instance of [KeysetSource]. *)
From S2P Require Import Prelude.

(** A row that can be placed on a date-ordered walk: the sort key
    [COALESCE(internal_date, date_sent)] in microseconds, and the primary
    key. *)
Class DatedRow (Row : Type) := {
  row_ts : Row -> option Z;
  row_id : Row -> Z;
}.

Section order.
Context `{DatedRow Row}.
Implicit Types (a b c r : Row) (l : list Row).

(** [COALESCE(internal_date, date_sent) DESC NULLS LAST, m.id DESC] *)
Definition desc_leb a b : bool :=
  match row_ts a, row_ts b with
  | Some x, Some y => (y <? x) || ((x =? y) && (row_id b <=? row_id a))
  | Some _, None => true
  | None, Some _ => false
  | None, None => row_id b <=? row_id a
  end.
Definition desc_le a b : Prop := desc_leb a b = true.
(** [... ASC NULLS FIRST, m.id ASC], the exact reverse. *)
Definition asc_le a b : Prop := desc_le b a.

#[global] Instance desc_le_dec : RelDecision desc_le.
Proof. intros a b. unfold desc_le. apply _. Defined.
#[global] Instance asc_le_dec : RelDecision asc_le.
Proof. intros a b. unfold asc_le. apply _. Defined.

#[global] Instance desc_le_trans : Transitive desc_le.
Proof.
  intros a b c. unfold desc_le, desc_leb.
  destruct (row_ts a), (row_ts b), (row_ts c); intros; zb_simpl;
    try done; try lia.
Qed.
#[global] Instance desc_le_total : Total desc_le.
Proof.
  intros a b. unfold desc_le, desc_leb.
  destruct (row_ts a), (row_ts b); zb_simpl; auto; lia.
Qed.
#[global] Instance asc_le_trans : Transitive asc_le.
Proof. intros a b c ??. unfold asc_le in *. by etrans. Qed.
#[global] Instance asc_le_total : Total asc_le.
Proof. intros a b. unfold asc_le. destruct (total desc_le b a); auto. Qed.

Lemma desc_le_antisym_id a b : desc_le a b -> desc_le b a -> row_id a = row_id b.
Proof.
  unfold desc_le, desc_leb.
  destruct (row_ts a), (row_ts b); intros; zb_simpl; try done; lia.
Qed.
Lemma asc_le_antisym_id a b : asc_le a b -> asc_le b a -> row_id a = row_id b.
Proof. unfold asc_le. intros. by apply desc_le_antisym_id. Qed.
End order.

(** ** Sorted selections *)
Section sorted.
Context `{DatedRow Row} (R : relation Row) `{!RelDecision R}
  `{!Transitive R, !Total R}
  (R_antisym : forall a b, R a b -> R b a -> row_id a = row_id b).
Implicit Types (l : list Row).

Definition unique_ids l : Prop := NoDup (row_id <$> l).

Lemma unique_ids_inj l a b :
  unique_ids l -> a ∈ l -> b ∈ l -> row_id a = row_id b -> a = b.
Proof.
  intros Hnd Ha Hb Hid.
  apply list_elem_of_lookup in Ha as [i Hi]. apply list_elem_of_lookup in Hb as [j Hj].
  assert (i = j) as ->; [| congruence].
  eapply (NoDup_lookup (row_id <$> l)); [done | |]; rewrite list_lookup_fmap.
  - by rewrite Hi.
  - rewrite Hj. cbn. by rewrite Hid.
Qed.

Lemma unique_ids_perm l1 l2 : l1 ≡ₚ l2 -> unique_ids l1 -> unique_ids l2.
Proof. unfold unique_ids. intros Hp. by rewrite Hp. Qed.

Lemma unique_ids_filter (P : Row -> Prop) `{!forall x, Decision (P x)} l :
  unique_ids l -> unique_ids (filter P l).
Proof.
  unfold unique_ids. induction l as [| x l IH]; [done |].
  rewrite fmap_cons, NoDup_cons. intros [Hx Hl].
  destruct (decide (P x)).
  - rewrite filter_cons_True, fmap_cons, NoDup_cons by done. split; [| auto].
    intros (y & Hxy & Hy)%list_elem_of_fmap. apply Hx.
    apply list_elem_of_fmap. exists y. split; [done |].
    by apply list_elem_of_filter in Hy as [_ ?].
  - rewrite filter_cons_False by done. auto.
Qed.

Lemma StronglySorted_filter' (P : Row -> Prop) `{!forall x, Decision (P x)} l :
  StronglySorted R l -> StronglySorted R (filter P l).
Proof.
  induction 1 as [| x l Hs IH Hx]; [constructor |].
  destruct (decide (P x)).
  - rewrite filter_cons_True by done. constructor; [done |].
    rewrite Forall_forall in *. intros y [_ Hy]%list_elem_of_filter. auto.
  - by rewrite filter_cons_False.
Qed.

(** Filtering before or after the sort gives the same rows in the same
    order. *)
Lemma sort_filter (P : Row -> Prop) `{!forall x, Decision (P x)} l :
  unique_ids l ->
  merge_sort R (filter P l) = filter P (merge_sort R l).
Proof.
  intros Hnd.
  apply (StronglySorted_unique_strong R).
  - intros a b Ha Hb Hab Hba.
    apply (unique_ids_inj l); [done | | | by apply R_antisym].
    + rewrite merge_sort_Permutation in Ha. by apply list_elem_of_filter in Ha as [_ ?].
    + apply list_elem_of_filter in Hb as [_ Hb].
      by rewrite merge_sort_Permutation in Hb.
  - by apply StronglySorted_merge_sort; try apply _.
  - by apply StronglySorted_filter', StronglySorted_merge_sort; try apply _.
  - by rewrite !merge_sort_Permutation.
Qed.

(** The rows strictly behind [c]. *)
Definition strictly_after (c r : Row) : Prop := R c r /\ ~ R r c.
#[global] Instance strictly_after_dec c r : Decision (strictly_after c r).
Proof. unfold strictly_after. apply _. Defined.

Lemma filter_strictly_after l pre c suf :
  StronglySorted R l -> unique_ids l -> l = pre ++ c :: suf ->
  filter (strictly_after c) l = suf.
Proof.
  intros Hs Hnd ->. unfold unique_ids in Hnd.
  rewrite fmap_app, fmap_cons in Hnd.
  apply NoDup_app in Hnd as (_ & Hdisj & [Hc Hsuf]%NoDup_cons).
  rewrite filter_app, filter_none, filter_cons_False; cbn.
  - apply filter_all, Forall_forall. intros r Hr.
    enough (R c r).
    { split; [done |]. intros Hrc. apply Hc. rewrite <- (R_antisym r c) by done.
      by apply list_elem_of_fmap_2. }
    clear Hdisj. induction pre as [| p pre IH]; cbn in Hs.
    + inversion_clear Hs as [| ?? Hs' Hf]. rewrite Forall_forall in Hf. auto.
    + inversion_clear Hs. auto.
  - intros [? ?]; done.
  - apply Forall_forall. intros p Hp [HR Hid]. apply Hid.
    clear -Hs Hp. induction pre as [| q pre IH]; [by apply not_elem_of_nil in Hp |].
    cbn in Hs. inversion_clear Hs as [| ?? Hs' Hf].
    rewrite Forall_forall in Hf.
    apply elem_of_cons in Hp as [-> | Hp]; [| auto].
    apply Hf. set_solver.
Qed.
End sorted.

(** ** The SQL the walks are written in *)

(** [SELECT ... WHERE where ORDER BY ... LIMIT limit] over a table. *)
Definition select {Row} (R : relation Row) `{!RelDecision R}
    (where_ : Row -> Sql.cond) (limit : nat) (rows : list Row) : list Row :=
  take limit (merge_sort R (filter (fun r => Sql.kept (where_ r) = true) rows)).

Section predicates.
Context `{DatedRow Row}.
Implicit Types (c r : Row).

(** [ROW(expr, m.id) < ROW(ts, id)] *)
Definition behind_dated_desc (ts i : Z) r : Sql.cond :=
  Sql.row_lt (row_ts r) (Some (row_id r)) (Some ts) (Some i).
(** [expr IS NULL AND m.id < id] *)
Definition behind_undated_desc (i : Z) r : Sql.cond :=
  Sql.and (Sql.is_null (row_ts r)) (Sql.lt (Some (row_id r)) (Some i)).
(** [expr IS NULL] *)
Definition undated_only r : Sql.cond := Sql.is_null (row_ts r).
(** [ROW(expr, m.id) > ROW(ts, id)] *)
Definition behind_dated_asc (ts i : Z) r : Sql.cond :=
  Sql.row_gt (row_ts r) (Some (row_id r)) (Some ts) (Some i).
(** [(expr IS NULL AND m.id > id) OR expr IS NOT NULL] *)
Definition behind_undated_asc (i : Z) r : Sql.cond :=
  Sql.or (Sql.and (Sql.is_null (row_ts r)) (Sql.gt (Some (row_id r)) (Some i)))
    (Sql.is_not_null (row_ts r)).

Lemma behind_dated_desc_after c r ts : row_ts c = Some ts ->
  Sql.kept (behind_dated_desc ts (row_id c) r) = true <->
  strictly_after desc_le c r /\ is_Some (row_ts r).
Proof.
  intros Hc. unfold is_Some. destruct (row_ts r) as [x |] eqn:Hr.
  2: { unfold behind_dated_desc. rewrite Hr. naive_solver. }
  transitivity (strictly_after desc_le c r); [| naive_solver].
  unfold strictly_after, desc_le, desc_leb, behind_dated_desc, Sql.row_lt, Sql.lt, Sql.cmp.
  rewrite Hc, Hr. destruct (Z.eqb_spec x ts); zb.
Qed.

Lemma behind_undated_desc_after c r : row_ts c = None ->
  Sql.kept (behind_undated_desc (row_id c) r) = true <-> strictly_after desc_le c r.
Proof.
  intros Hc. unfold strictly_after, desc_le, desc_leb, behind_undated_desc, Sql.lt, Sql.cmp.
  rewrite Hc. destruct (row_ts r); cbn [Sql.is_null]; zb_simpl; naive_solver lia.
Qed.

Lemma behind_dated_asc_after c r ts : row_ts c = Some ts ->
  Sql.kept (behind_dated_asc ts (row_id c) r) = true <-> strictly_after asc_le c r.
Proof.
  intros Hc. unfold strictly_after, asc_le, desc_le, desc_leb, behind_dated_asc,
    Sql.row_gt, Sql.row_lt, Sql.lt, Sql.cmp.
  rewrite Hc. destruct (row_ts r) as [x |]; [| naive_solver].
  destruct (Z.eqb_spec ts x); zb.
Qed.

Lemma behind_undated_asc_after c r : row_ts c = None ->
  Sql.kept (behind_undated_asc (row_id c) r) = true <-> strictly_after asc_le c r.
Proof.
  intros Hc. unfold strictly_after, asc_le, desc_le, desc_leb, behind_undated_asc,
    Sql.gt, Sql.cmp, is_Some.
  rewrite Hc. destruct (row_ts r); cbn [Sql.is_null Sql.is_not_null]; zb_simpl;
    naive_solver lia.
Qed.

(** On a descending walk the dated rows come first. *)
Lemma desc_sorted_split (l : list Row) :
  StronglySorted desc_le l ->
  l = filter (fun r => is_Some (row_ts r)) l ++ filter (fun r => row_ts r = None) l.
Proof.
  induction 1 as [| r l Hs IH Hr]; [done |].
  destruct (row_ts r) as [x |] eqn:E.
  - rewrite filter_cons_True by (rewrite E; eauto).
    rewrite (filter_cons_False (fun r => row_ts r = None)) by congruence.
    cbn. by f_equal.
  - rewrite filter_none.
    + rewrite app_nil_l. symmetry. apply filter_all. constructor; [done |].
      rewrite Forall_forall in *. intros b Hb. specialize (Hr b Hb).
      unfold desc_le, desc_leb in Hr. rewrite E in Hr. by destruct (row_ts b).
    + constructor; [rewrite E; by intros [? ?] |].
      rewrite Forall_forall in *. intros b Hb [y Hy]. specialize (Hr b Hb).
      unfold desc_le, desc_leb in Hr. by rewrite E, Hy in Hr.
Qed.
End predicates.

(** ** A listing and its seeks *)
Section listing.
Context `{DatedRow Row} (R : relation Row) `{!RelDecision R, !Transitive R, !Total R}
  (R_antisym : forall a b, R a b -> R b a -> row_id a = row_id b).
Context (base : Row -> Sql.cond) (rows : list Row) (Hids : unique_ids rows).

(** The whole listing: every row of the base condition, in order. *)
Definition listing : list Row :=
  merge_sort R (filter (fun r => Sql.kept (base r) = true) rows).

Lemma listing_sorted : StronglySorted R listing.
Proof. apply StronglySorted_merge_sort; apply _. Qed.

Lemma listing_unique : unique_ids listing.
Proof.
  eapply unique_ids_perm; [symmetry; apply merge_sort_Permutation |].
  by apply unique_ids_filter.
Qed.

Lemma select_head w n : (forall r, Sql.kept (w r) = Sql.kept (base r)) ->
  select R w n rows = take n listing.
Proof.
  intros Hw. unfold select, listing. f_equal. f_equal.
  apply list_filter_iff. intros r. by rewrite Hw.
Qed.

(** A statement whose condition adds [Q] to the base reads the [Q]-rows of
    the listing, in order. *)
Lemma select_refine w (Q : Row -> Prop) `{!forall r, Decision (Q r)} n :
  (forall r, Sql.kept (w r) = true <-> Sql.kept (base r) = true /\ Q r) ->
  select R w n rows = take n (filter Q listing).
Proof.
  intros Hw. unfold select, listing. f_equal.
  rewrite <- sort_filter by (try done; by apply unique_ids_filter).
  f_equal. rewrite filter_filter_and. apply list_filter_iff.
  intros r. rewrite Hw. tauto.
Qed.

(** Seeking behind [c], within the rows that also satisfy [Q]. *)
Lemma select_behind w (Q : Row -> Prop) `{!forall r, Decision (Q r)} n pre c suf :
  (forall r, Sql.kept (w r) = true <->
     Sql.kept (base r) = true /\ strictly_after R c r /\ Q r) ->
  listing = pre ++ c :: suf ->
  select R w n rows = take n (filter Q suf).
Proof.
  intros Hw Hl.
  rewrite (select_refine w (fun r => strictly_after R c r /\ Q r)) by done.
  f_equal.
  rewrite <- (filter_strictly_after R R_antisym listing pre c suf)
    by (apply listing_sorted || apply listing_unique || done).
  rewrite filter_filter_and. apply list_filter_iff. tauto.
Qed.
End listing.

(** A descending page that continues from a dated row: the dated rows behind
    it, topped up from the undated tail when they do not fill the page, are
    the next rows of the listing. *)
Lemma top_up_complete `{DatedRow Row} (base w1 w2 : Row -> Sql.cond) rows pre c suf ts n :
  unique_ids rows -> row_ts c = Some ts ->
  listing desc_le base rows = pre ++ c :: suf ->
  (forall r, Sql.kept (w1 r) = Sql.kept (base r) && Sql.kept (behind_dated_desc ts (row_id c) r)) ->
  (forall r, Sql.kept (w2 r) = Sql.kept (base r) && Sql.kept (undated_only r)) ->
  let rows1 := select desc_le w1 n rows in
  (if bool_decide (length rows1 < n)%nat
   then rows1 ++ select desc_le w2 (n - length rows1) rows else rows1) = take n suf.
Proof.
  intros Hids Hc Hl Hw1 Hw2.
  assert (Hsuf : StronglySorted desc_le suf).
  { pose proof (listing_sorted desc_le base rows) as Hs. rewrite Hl in Hs. clear -Hs.
    induction pre as [| p pre IH]; cbn in Hs; inversion Hs; auto. }
  cbv zeta.
  rewrite (select_behind desc_le desc_le_antisym_id base rows Hids w1
             (fun r => is_Some (row_ts r)) n pre c suf); [| | done].
  2: { intros r. rewrite Hw1, andb_true_iff, behind_dated_desc_after by done. tauto. }
  rewrite (select_behind desc_le desc_le_antisym_id base rows Hids w2
             (fun r => row_ts r = None) _ pre c suf); [| | done].
  2: { intros r. rewrite Hw2, andb_true_iff. unfold undated_only, Sql.is_null.
       rewrite Sql.kept_some. unfold strictly_after, desc_le, desc_leb.
       rewrite Hc. destruct (row_ts r); naive_solver. }
  replace (take n suf) with (take n (filter (fun r => is_Some (row_ts r)) suf ++
    filter (fun r => row_ts r = None) suf)) by (by rewrite <- desc_sorted_split).
  set (A := filter _ suf). set (B := filter (fun r => row_ts r = None) suf).
  rewrite length_take, take_app. case_bool_decide.
  - by replace (n - n `min` length A)%nat with (n - length A)%nat by lia.
  - replace (n - length A)%nat with 0%nat by lia. by rewrite take_0, app_nil_r.
Qed.

(** ** Walking a listing page by page *)

(** What a paginated listing promises: [ks_full] is the whole listing, and
    [ks_fetch] reads at most [n] rows of it from the head, or from just behind
    the row a cursor names. *)
Class KeysetSource (Row Cur : Type) := {
  ks_full : list Row;
  ks_cursor : Row -> Cur;
  ks_fetch : option Cur -> nat -> list Row;
  ks_head : forall n, ks_fetch None n = take n ks_full;
  ks_behind : forall pre c suf n, ks_full = pre ++ c :: suf ->
    ks_fetch (Some (ks_cursor c)) n = take n suf;
}.

Section walk.
Context `{KeysetSource Row Cur} (limit : nat).

(** One page: one row more than the page holds is fetched, and its presence
    is what mints the next cursor. *)
Definition page (cur : option Cur) : list Row * option Cur :=
  let rows := ks_fetch cur (S limit) in
  let page_rows := take limit rows in
  (page_rows,
   if bool_decide (limit < length rows)%nat
   then ks_cursor <$> last page_rows else None).

(** The client: follow [next_cursor] until there is none. *)
Fixpoint walk (fuel : nat) (cur : option Cur) : list (list Row) :=
  match fuel with
  | O => []
  | S fuel =>
      let '(rows, next) := page cur in
      rows :: match next with None => [] | Some _ => walk fuel next end
  end.

Lemma take_last_split (l : list Row) :
  (0 < limit < length l)%nat ->
  exists pre c, take limit l = pre ++ [c] /\ last (take limit l) = Some c.
Proof.
  intros Hl.
  destruct (take limit l) as [| x t] eqn:E using rev_ind.
  { apply (f_equal length) in E. rewrite length_take in E. cbn in E. lia. }
  exists t, x. by rewrite last_snoc.
Qed.

Lemma walk_from fuel cur pre suf :
  (0 < limit)%nat ->
  (forall n, ks_fetch cur n = take n suf) ->
  ks_full = pre ++ suf -> (length suf < fuel)%nat ->
  concat (walk fuel cur) = suf.
Proof.
  intros Hlim. revert cur pre suf.
  induction fuel as [| fuel IH]; intros cur pre suf Hf Hfull Hfuel; [lia |].
  cbn. rewrite Hf, take_take.
  replace (limit `min` S limit)%nat with limit by lia.
  rewrite length_take.
  case_bool_decide as Hmore.
  - assert (Hlen : (limit < length suf)%nat) by lia.
    destruct (take_last_split suf) as (p & c & Et & El); [lia |].
    rewrite El. cbn.
    assert (Hsuf : suf = p ++ c :: drop limit suf).
    { rewrite <- (take_drop limit suf) at 1. rewrite Et. by rewrite <- app_assoc. }
    rewrite (IH _ (pre ++ p ++ [c]) (drop limit suf)).
    + by apply take_drop.
    + intros n. apply (ks_behind (pre ++ p)). rewrite Hfull, Hsuf at 1.
      by rewrite <- app_assoc.
    + rewrite Hfull. rewrite Hsuf at 1. by rewrite <- !app_assoc.
    + rewrite length_drop. lia.
  - cbn. rewrite app_nil_r. apply take_ge. lia.
Qed.

(** Following the cursors returns every row of the listing exactly once, in
    order. *)
Lemma walk_complete fuel :
  (0 < limit)%nat -> (length ks_full < fuel)%nat ->
  concat (walk fuel None) = ks_full.
Proof. intros. by apply (walk_from _ _ []); [| apply ks_head | ..]. Qed.

End walk.
