(* ===== verification/PyStr.v ===== *)
(** * Python strings

    The part of Python's [str], [int] and [base64] that the modelled modules
    call.  A [str] is the list of its code points. *)
From S2P Require Import Prelude.

Notation pystr := (list Z).

(** A literal: [lit "abc"] is the Python string ["abc"]. *)
Definition lit (s : string) : pystr :=
  (fun a => Z.of_N (Ascii.N_of_ascii a)) <$> String.list_ascii_of_string s.

Definition str_eqb (a b : pystr) : bool := bool_decide (a = b).

(** ** Character classes *)

Definition is_ascii_char (c : Z) : bool := (0 <=? c) && (c <? 128).
Definition isascii (s : pystr) : bool := forallb is_ascii_char s.

(** [0]-[9].  On an ASCII string [str.isdigit] accepts exactly these. *)
Definition is_digit_char (c : Z) : bool := (48 <=? c) && (c <=? 57).
(** [s.isascii() and s.isdigit()]: the empty string is not a digit string. *)
Definition isascii_isdigit (s : pystr) : bool :=
  match s with [] => false | _ => forallb is_digit_char s end.

(** [str.isspace]: the Unicode White_Space code points with the four
    information separators, as CPython's [_PyUnicode_IsWhitespace]. *)
Definition is_space_char (c : Z) : bool :=
  ((9 <=? c) && (c <=? 13)) || ((28 <=? c) && (c <=? 32)) || (c =? 133) ||
  (c =? 160) || (c =? 5760) || ((8192 <=? c) && (c <=? 8202)) ||
  (c =? 8232) || (c =? 8233) || (c =? 8239) || (c =? 8287) || (c =? 12288).

(** [str.lower] of one ASCII character. *)
Definition lower_char (c : Z) : Z := if (65 <=? c) && (c <=? 90) then c + 32 else c.
Definition ascii_lower (s : pystr) : pystr := lower_char <$> s.

(** ** Cutting strings *)

Fixpoint drop_while (p : Z -> bool) (s : pystr) : pystr :=
  match s with c :: s' => if p c then drop_while p s' else s | [] => [] end.
Definition lstrip_p p (s : pystr) : pystr := drop_while p s.
Definition rstrip_p p (s : pystr) : pystr := reverse (drop_while p (reverse s)).
Definition strip_p p (s : pystr) : pystr := rstrip_p p (lstrip_p p s).
Definition strip : pystr -> pystr := strip_p is_space_char.

Fixpoint startswith (s p : pystr) {struct p} : bool :=
  match p, s with
  | [], _ => true
  | c :: p', d :: s' => (d =? c) && startswith s' p'
  | _ :: _, [] => false
  end.
Definition contains (c : Z) (s : pystr) : bool := existsb (Z.eqb c) s.

(** [s.find(sub)]: the first index at which [sub] occurs. *)
Fixpoint find_sub (sub s : pystr) : option nat :=
  if startswith s sub then Some O
  else match s with [] => None | _ :: s => S <$> find_sub sub s end.

(** [s.partition(c)] without the separator: the text before the first [c] and,
    when there is one, the text after it. *)
Fixpoint partition_at (c : Z) (s : pystr) : pystr * option pystr :=
  match s with
  | [] => ([], None)
  | x :: s' =>
      if x =? c then ([], Some s')
      else let '(a, b) := partition_at c s' in (x :: a, b)
  end.
(** [s.rpartition(c)]: the text before the last [c] (absent when there is
    none) and the text after it. *)
Definition rpartition_at (c : Z) (s : pystr) : option pystr * pystr :=
  let '(b, a) := partition_at c (reverse s) in (reverse <$> a, reverse b).
(** [s.split(c)] *)
Fixpoint split_on (c : Z) (s : pystr) : list pystr :=
  match s with
  | [] => [[]]
  | x :: s' =>
      if x =? c then [] :: split_on c s'
      else match split_on c s' with
           | w :: ws => (x :: w) :: ws
           | [] => [[x]]
           end
  end.

(** [str.split()]: the non-empty words between blanks. *)
Fixpoint split_words_from (s buf : pystr) : list pystr :=
  match s with
  | [] => match buf with [] => [] | _ => [buf] end
  | c :: s =>
      if is_space_char c then match buf with [] => split_words_from s [] | _ => buf :: split_words_from s [] end
      else split_words_from s (buf ++ [c])
  end.
Definition split_words (s : pystr) : list pystr := split_words_from s [].

(** [sep.join(ws)] *)
Fixpoint join (sep : pystr) (ws : list pystr) : pystr :=
  match ws with
  | [] => []
  | [w] => w
  | w :: ws' => w ++ sep ++ join sep ws'
  end.

(** [l[:limit]] of any list, a negative [limit] counting from the end. *)
Definition slice_to {A} (limit : Z) (l : list A) : list A :=
  if limit <? 0 then take (length l - Z.to_nat (- limit)) l else take (Z.to_nat limit) l.

Lemma startswith_app p s : startswith (p ++ s) p = true.
Proof. induction p as [| c p IH]; cbn; [done |]. by rewrite Z.eqb_refl. Qed.

Lemma startswith_true s p : startswith s p = true <-> exists r, s = p ++ r.
Proof.
  split; [| intros [r ->]; by apply startswith_app].
  revert s; induction p as [| c p IH]; intros s; cbn; [by exists s |].
  destruct s as [| d s]; [done |].
  intros [H [r ->]%IH]%andb_true_iff. apply Z.eqb_eq in H as ->. by exists r.
Qed.

Lemma contains_false c s : contains c s = false <-> c ∉ s.
Proof.
  unfold contains. induction s as [| x s IH]; cbn.
  - split; [intros _; apply not_elem_of_nil | done].
  - rewrite orb_false_iff, IH, not_elem_of_cons, Z.eqb_neq. tauto.
Qed.

Lemma partition_at_app c a b : c ∉ a -> partition_at c (a ++ c :: b) = (a, Some b).
Proof.
  induction a as [| x a IH]; cbn.
  - by rewrite Z.eqb_refl.
  - intros [Hx Ha]%not_elem_of_cons. destruct (Z.eqb_spec x c); [congruence |].
    by rewrite IH.
Qed.

Lemma partition_at_spec c s :
  match partition_at c s with
  | (a, Some b) => s = a ++ c :: b /\ c ∉ a
  | (a, None) => s = a /\ c ∉ s
  end.
Proof.
  induction s as [| x s IH]; cbn; [split; [done | apply not_elem_of_nil] |].
  destruct (Z.eqb_spec x c) as [-> | Hx]; [split; [done | apply not_elem_of_nil] |].
  destruct (partition_at c s) as [a [b |]]; cbn.
  - destruct IH as [-> IH]. split; [done |]. by apply not_elem_of_cons.
  - destruct IH as [-> IH]. split; [done |]. by apply not_elem_of_cons.
Qed.

Lemma rpartition_at_app c a b : c ∉ b -> rpartition_at c (a ++ c :: b) = (Some a, b).
Proof.
  intros Hb. unfold rpartition_at.
  rewrite reverse_app, reverse_cons, <- app_assoc. cbn [app].
  rewrite partition_at_app by by rewrite elem_of_reverse.
  cbn. by rewrite !reverse_involutive.
Qed.

Lemma rpartition_at_spec c s :
  match rpartition_at c s with
  | (Some a, b) => s = a ++ c :: b /\ c ∉ b
  | (None, b) => s = b /\ c ∉ s
  end.
Proof.
  unfold rpartition_at. pose proof (partition_at_spec c (reverse s)) as Hs.
  destruct (partition_at c (reverse s)) as [b [a |]]; cbn.
  - destruct Hs as [Hs Hb]. apply (f_equal reverse) in Hs.
    rewrite reverse_involutive, reverse_app, reverse_cons, <- app_assoc in Hs.
    split; [done |]. by rewrite elem_of_reverse.
  - destruct Hs as [Hs Hb]. split; [by rewrite <- Hs, reverse_involutive |].
    by rewrite elem_of_reverse in Hb.
Qed.

Lemma split_on_nosep c s : c ∉ s -> split_on c s = [s].
Proof.
  induction s as [| x s IH]; cbn; [done |].
  intros [Hx Hs]%not_elem_of_cons. destruct (Z.eqb_spec x c); [congruence |].
  by rewrite IH.
Qed.

Lemma split_on_app c a b : c ∉ a -> split_on c (a ++ c :: b) = a :: split_on c b.
Proof.
  induction a as [| x a IH]; cbn.
  - by rewrite Z.eqb_refl.
  - intros [Hx Ha]%not_elem_of_cons. destruct (Z.eqb_spec x c); [congruence |].
    by rewrite IH.
Qed.

Lemma drop_while_none (p : Z -> bool) s : Forall (fun c => p c = false) s -> drop_while p s = s.
Proof. destruct 1 as [| c s Hc]; cbn; [done | by rewrite Hc]. Qed.

Lemma strip_p_none (p : Z -> bool) s : Forall (fun c => p c = false) s -> strip_p p s = s.
Proof.
  intros Hs. unfold strip_p, lstrip_p, rstrip_p.
  rewrite (drop_while_none p s) by done. rewrite drop_while_none.
  - apply reverse_involutive.
  - by rewrite Forall_reverse.
Qed.

(** ** Decimal integers *)

Fixpoint dec_digits (fuel : nat) (n : Z) (acc : pystr) : pystr :=
  match fuel with
  | O => acc
  | S fuel =>
      let acc' := (48 + n mod 10) :: acc in
      if n <? 10 then acc' else dec_digits fuel (n / 10) acc'
  end.
Definition dec_fuel (n : Z) : nat := S (Z.to_nat (Z.log2 n)).
(** [str(n)] *)
Definition str_int (n : Z) : pystr :=
  if n <? 0 then 45 :: dec_digits (dec_fuel (- n)) (- n) []
  else dec_digits (dec_fuel n) n [].

Definition dec_value (s : pystr) : Z := fold_left (fun a c => a * 10 + (c - 48)) s 0.

(** [sys.get_int_max_str_digits()]: [int] refuses longer digit strings. *)
Definition INT_MAX_STR_DIGITS : nat := 4300.

(** The digits of an [int] literal with single underscores between them
    removed; [None] when the text is not of that shape. *)
Fixpoint int_digits (after_digit : bool) (s : pystr) : option pystr :=
  match s with
  | [] => if after_digit then Some [] else None
  | c :: s' =>
      if is_digit_char c then cons c <$> int_digits true s'
      else if (c =? 95) && after_digit then int_digits false s' else None
  end.

(** [int(s)]; [None] is a [ValueError].  Stated for text whose only decimal
    digits are ASCII ones (every Latin-1 string, hence every HTTP header). *)
Definition py_int (s : pystr) : option Z :=
  let t := strip s in
  let '(neg, body) :=
    match t with
    | c :: t' => if c =? 45 then (true, t') else if c =? 43 then (false, t') else (false, t)
    | [] => (false, t)
    end in
  match int_digits false body with
  | None => None
  | Some ds =>
      if (INT_MAX_STR_DIGITS <? length ds)%nat then None
      else Some (if neg then - dec_value ds else dec_value ds)
  end.

Lemma dec_value_app a b :
  dec_value (a ++ b) = fold_left (fun a c => a * 10 + (c - 48)) b (dec_value a).
Proof. apply fold_left_app. Qed.

Lemma dec_digits_spec fuel n acc :
  0 <= n -> n < 2 ^ Z.of_nat fuel -> (0 < fuel)%nat ->
  exists ds, dec_digits fuel n acc = ds ++ acc /\ dec_value ds = n /\
    forallb is_digit_char ds = true /\ (0 < length ds <= fuel)%nat.
Proof.
  revert n acc. induction fuel as [| fuel IH]; intros n acc Hn Hlt Hf; [lia |].
  cbn [dec_digits].
  pose proof (Z.mod_pos_bound n 10 ltac:(lia)) as Hm.
  assert (Hd : is_digit_char (48 + n mod 10) = true) by (unfold is_digit_char; zb).
  destruct (Z.ltb_spec n 10) as [Hs | Hs].
  - exists [48 + n mod 10]. cbn [app length forallb dec_value fold_left].
    rewrite Hd, Z.mod_small by lia. repeat split; lia.
  - replace (Z.of_nat (S fuel)) with (Z.of_nat fuel + 1) in Hlt by lia.
    rewrite Z.pow_add_r in Hlt by lia.
    pose proof (Z.div_mod n 10 ltac:(lia)) as Hdm.
    assert (0 < fuel)%nat.
    { destruct fuel; [|lia]. change (2 ^ Z.of_nat 0) with 1 in Hlt. lia. }
    destruct (IH (n / 10) ((48 + n mod 10) :: acc)) as (ds & -> & Hv & Hall & Hlen);
      [lia | lia | lia |].
    exists (ds ++ [48 + n mod 10]). rewrite <- app_assoc, dec_value_app, Hv.
    rewrite forallb_app, Hall, length_app. cbn [app length forallb fold_left].
    rewrite Hd. repeat split; lia.
Qed.

Lemma str_int_spec n : 0 <= n ->
  isascii_isdigit (str_int n) = true /\ dec_value (str_int n) = n /\
  (length (str_int n) <= dec_fuel n)%nat.
Proof.
  intros Hn. unfold str_int. rewrite (proj2 (Z.ltb_ge n 0)) by lia.
  destruct (dec_digits_spec (dec_fuel n) n []) as (ds & -> & Hv & Hall & Hlen);
    [done | | unfold dec_fuel; lia |].
  - unfold dec_fuel. pose proof (Z.log2_nonneg n).
    replace (Z.of_nat (S (Z.to_nat (Z.log2 n)))) with (Z.succ (Z.log2 n)) by lia.
    destruct (Z.eq_dec n 0) as [-> |]; [done |]. apply Z.log2_spec. lia.
  - rewrite app_nil_r. repeat split; [| done | lia].
    destruct ds; [cbn in Hlen; lia | done].
Qed.

Lemma str_int_digit n c : 0 <= n -> c ∈ str_int n -> 48 <= c <= 57.
Proof.
  intros Hn Hc. destruct (str_int_spec n Hn) as (H & _).
  destruct (str_int n) as [| d ds]; [by apply not_elem_of_nil in Hc |].
  unfold isascii_isdigit in H. rewrite forallb_forall in H.
  apply list_elem_of_In in Hc. specialize (H c Hc). unfold is_digit_char in H. zb.
Qed.

Lemma digits_are_ascii s : isascii_isdigit s = true -> isascii s = true.
Proof.
  intros H. unfold isascii. apply forallb_forall. intros c Hc.
  destruct s as [| d s]; [done |]. unfold isascii_isdigit in H.
  rewrite forallb_forall in H. specialize (H c Hc).
  unfold is_digit_char, is_ascii_char in *. zb.
Qed.

Lemma digit_not_space c : is_digit_char c = true -> is_space_char c = false.
Proof.
  unfold is_digit_char, is_space_char. intros H. zb_simpl.
  repeat apply orb_false_iff; repeat split; zb_simpl; lia.
Qed.

Lemma int_digits_all after s :
  forallb is_digit_char s = true -> s <> [] -> int_digits after s = Some s.
Proof.
  revert after; induction s as [| c s IH]; intros after H Hne; [done |].
  cbn in *. apply andb_true_iff in H as [Hc Hs]. rewrite Hc.
  destruct s as [| d s]; [done |]. by rewrite IH.
Qed.

(** A plain digit string reads as its value, up to the length limit. *)
Lemma py_int_digits s :
  isascii_isdigit s = true ->
  py_int s = if (INT_MAX_STR_DIGITS <? length s)%nat then None else Some (dec_value s).
Proof.
  intros H. assert (Hs : s <> [] /\ forallb is_digit_char s = true) by (by destruct s).
  destruct Hs as [Hne Hall]. unfold py_int. unfold strip.
  rewrite strip_p_none.
  - destruct s as [| c s]; [done |].
    assert (Hc : is_digit_char c = true) by (cbn in Hall; by apply andb_true_iff in Hall as []).
    rewrite (proj2 (Z.eqb_neq c 45)), (proj2 (Z.eqb_neq c 43))
      by (unfold is_digit_char in Hc; zb).
    by rewrite int_digits_all.
  - apply Forall_forall. intros c Hc%list_elem_of_In.
    rewrite forallb_forall in Hall. by apply digit_not_space, Hall.
Qed.

(** Database keys: [BIGSERIAL] values are non-negative 63-bit integers. *)
Definition is_bigserial (n : Z) : Prop := 0 <= n < 2 ^ 63.

Lemma bigserial_digits n : is_bigserial n -> (length (str_int n) <= INT_MAX_STR_DIGITS)%nat.
Proof.
  intros Hn. destruct (str_int_spec n) as (_ & _ & Hl); [apply Hn |].
  assert (Z.log2 n < 64).
  { destruct (Z.eq_dec n 0) as [-> |]; [cbn; lia |].
    apply Z.log2_lt_pow2; [| eapply Z.lt_trans; [apply Hn | done]].
    destruct Hn. lia. }
  pose proof (Z.log2_nonneg n).
  unfold INT_MAX_STR_DIGITS. unfold dec_fuel in Hl. lia.
Qed.

Lemma py_int_str_int n : is_bigserial n -> py_int (str_int n) = Some n.
Proof.
  intros Hn. destruct (str_int_spec n) as (Hd & Hv & _); [apply Hn |].
  rewrite py_int_digits by done.
  pose proof (bigserial_digits n Hn) as Hl.
  apply Nat.ltb_ge in Hl as ->. by rewrite Hv.
Qed.
