(* ===== verification/Base64.v ===== *)
(** * Python's [base64.urlsafe_b64encode] and [urlsafe_b64decode]

    The unpadded URL-safe base64 the cursors and the signed tokens travel in.
    The decoder is CPython's non-strict [binascii.a2b_base64]: characters
    outside the alphabet are skipped, and a complete pad sequence ends the
    input. *)
From S2P Require Import Prelude PyStr.

#[local] Ltac Zify.zify_post_hook ::= Z.to_euclidean_division_equations.

Notation bytes := (list Z).
Definition is_byte (b : Z) : Prop := 0 <= b < 256.

Definition PAD : Z := 61.

(** The URL-safe alphabet: [A-Z a-z 0-9 - _]. *)
Definition b64_char (i : Z) : Z :=
  if i <? 26 then 65 + i else if i <? 52 then 71 + i
  else if i <? 62 then i - 4 else if i =? 62 then 45 else 95.
(** The decoder's table, after [-_] have been translated to [+/]. *)
Definition b64_value (c : Z) : option Z :=
  if (65 <=? c) && (c <=? 90) then Some (c - 65)
  else if (97 <=? c) && (c <=? 122) then Some (c - 71)
  else if (48 <=? c) && (c <=? 57) then Some (c + 4)
  else if (c =? 45) || (c =? 43) then Some 62
  else if (c =? 95) || (c =? 47) then Some 63 else None.

Fixpoint b64encode (bs : bytes) : pystr :=
  match bs with
  | [] => []
  | [a] => [b64_char (a / 4); b64_char (a mod 4 * 16); PAD; PAD]
  | [a; b] => [b64_char (a / 4); b64_char (a mod 4 * 16 + b / 16);
               b64_char (b mod 16 * 4); PAD]
  | a :: b :: c :: rest =>
      b64_char (a / 4) :: b64_char (a mod 4 * 16 + b / 16) ::
      b64_char (b mod 16 * 4 + c / 64) :: b64_char (c mod 64) :: b64encode rest
  end.

(** [urlsafe_b64encode(bs).rstrip(b"=")] *)
Definition b64url_encode (bs : bytes) : pystr :=
  rstrip_p (fun c => c =? PAD) (b64encode bs).

Fixpoint a2b (s : pystr) (quad_pos leftchar pads : Z) : option bytes :=
  match s with
  | [] => if quad_pos =? 0 then Some [] else None
  | ch :: s =>
      if ch =? PAD then
        if quad_pos <? 2 then a2b s quad_pos leftchar pads
        else if 4 <=? quad_pos + (pads + 1) then Some []
        else a2b s quad_pos leftchar (pads + 1)
      else
        match b64_value ch with
        | None => a2b s quad_pos leftchar pads
        | Some v =>
            if quad_pos =? 0 then a2b s 1 v 0
            else if quad_pos =? 1 then cons (leftchar * 4 + v / 16) <$> a2b s 2 (v mod 16) 0
            else if quad_pos =? 2 then cons (leftchar * 16 + v / 4) <$> a2b s 3 (v mod 4) 0
            else cons (leftchar * 64 + v) <$> a2b s 0 0 0
        end
  end.

(** [s + "=" * (-len(s) % 4)] *)
Definition repad (s : pystr) : pystr := s ++ replicate (Z.to_nat ((- Z.of_nat (length s)) mod 4)) PAD.
(** [urlsafe_b64decode(s + pad)]; [None] is a [binascii.Error]. *)
Definition b64url_decode (s : pystr) : option bytes := a2b (repad s) 0 0 0.

Lemma b64_char_value i : 0 <= i < 64 -> b64_value (b64_char i) = Some i.
Proof.
  intros Hi. unfold b64_char, b64_value.
  case_ifs; zb_simpl; f_equal; lia.
Qed.

Lemma b64_char_not_pad i : 0 <= i < 64 -> (b64_char i =? PAD) = false.
Proof. intros Hi. unfold b64_char, PAD. case_ifs; zb. Qed.

Lemma b64_char_ascii i : 0 <= i < 64 -> is_ascii_char (b64_char i) = true.
Proof. intros Hi. unfold b64_char, is_ascii_char. case_ifs; zb. Qed.

(** The sextets of a byte string, without padding. *)
Fixpoint sextets (bs : bytes) : list Z :=
  match bs with
  | [] => []
  | [a] => [a / 4; a mod 4 * 16]
  | [a; b] => [a / 4; a mod 4 * 16 + b / 16; b mod 16 * 4]
  | a :: b :: c :: rest =>
      (a / 4) :: (a mod 4 * 16 + b / 16) :: (b mod 16 * 4 + c / 64) :: (c mod 64)
      :: sextets rest
  end.

(** The four sextets of three bytes are in range, and give the bytes back. *)
Lemma sextet_ranges a b c : is_byte a -> is_byte b -> is_byte c ->
  0 <= a / 4 < 64 /\ 0 <= a mod 4 * 16 + b / 16 < 64 /\
  0 <= b mod 16 * 4 + c / 64 < 64 /\ 0 <= c mod 64 < 64.
Proof. unfold is_byte. intros. repeat split; lia. Qed.

Lemma sextets_join a b c : is_byte a -> is_byte b -> is_byte c ->
  a / 4 * 4 + (a mod 4 * 16 + b / 16) / 16 = a /\
  (a mod 4 * 16 + b / 16) mod 16 * 16 + (b mod 16 * 4 + c / 64) / 4 = b /\
  (b mod 16 * 4 + c / 64) mod 4 * 64 + c mod 64 = c.
Proof. unfold is_byte. intros. repeat split; lia. Qed.

Lemma is_byte_0 : is_byte 0.
Proof. done. Qed.

(** Induction three bytes at a time. *)
Lemma bytes_ind3 (P : bytes -> Prop) :
  P [] -> (forall a, P [a]) -> (forall a b, P [a; b]) ->
  (forall a b c rest, P rest -> P (a :: b :: c :: rest)) ->
  forall bs, P bs.
Proof.
  intros H0 H1 H2 H3 bs.
  enough (G : forall n bs, (length bs <= n)%nat -> P bs) by by apply (G (length bs)).
  clear bs. induction n as [| n IH]; intros bs Hn.
  - destruct bs; [done | cbn in Hn; lia].
  - destruct bs as [| a [| b [| c rest]]]; [done | apply H1 | apply H2 |].
    apply H3, IH. cbn in Hn. lia.
Qed.

Lemma sextets_range bs : Forall is_byte bs -> Forall (fun v => 0 <= v < 64) (sextets bs).
Proof.
  induction bs as [| a | a b | a b c rest IH] using bytes_ind3; intros Hb; cbn [sextets].
  - constructor.
  - apply Forall_cons in Hb as [Ha _].
    destruct (sextet_ranges a 0 0 Ha is_byte_0 is_byte_0) as (? & ? & _).
    change (0 / 16) with 0 in *. rewrite Z.add_0_r in *. by repeat apply Forall_cons_2; try apply Forall_nil_2.
  - apply Forall_cons in Hb as [Ha [Hb _]%Forall_cons].
    destruct (sextet_ranges a b 0 Ha Hb is_byte_0) as (? & ? & ? & _).
    change (0 / 64) with 0 in *. rewrite Z.add_0_r in *. by repeat apply Forall_cons_2; try apply Forall_nil_2.
  - apply Forall_cons in Hb as [Ha [Hb [Hc Hr]%Forall_cons]%Forall_cons].
    destruct (sextet_ranges a b c Ha Hb Hc) as (? & ? & ? & ?).
    repeat (apply Forall_cons_2; [done |]). auto.
Qed.

Lemma b64encode_sextets bs :
  exists k, b64encode bs = (b64_char <$> sextets bs) ++ replicate k PAD /\
    Z.of_nat k = (- Z.of_nat (length (sextets bs))) mod 4.
Proof.
  induction bs as [| a | a b | a b c rest (k & IH & Hk)] using bytes_ind3.
  - by exists 0%nat.
  - by exists 2%nat.
  - by exists 1%nat.
  - exists k. cbn [b64encode sextets fmap list_fmap app length]. rewrite IH. split; [done |].
    rewrite Hk, !Nat2Z.inj_succ.
    replace (- Z.succ (Z.succ (Z.succ (Z.succ (Z.of_nat (length (sextets rest)))))))
      with (- Z.of_nat (length (sextets rest)) + (-1) * 4) by lia.
    by rewrite Z.mod_add.
Qed.

Lemma rstrip_pad s k :
  Forall (fun c => (c =? PAD) = false) s ->
  rstrip_p (fun c => c =? PAD) (s ++ replicate k PAD) = s.
Proof.
  intros Hs. unfold rstrip_p. rewrite reverse_app, reverse_replicate.
  induction k as [| k IH]; cbn.
  - rewrite drop_while_none by by rewrite Forall_reverse. apply reverse_involutive.
  - apply IH.
Qed.

Lemma b64url_encode_sextets bs :
  Forall is_byte bs -> b64url_encode bs = b64_char <$> sextets bs.
Proof.
  intros Hb. unfold b64url_encode.
  destruct (b64encode_sextets bs) as (k & -> & _). apply rstrip_pad.
  rewrite Forall_fmap. eapply Forall_impl; [by apply sextets_range |].
  intros v Hv. by apply b64_char_not_pad.
Qed.

Lemma b64url_encode_ascii bs : Forall is_byte bs -> isascii (b64url_encode bs) = true.
Proof.
  intros Hb. rewrite b64url_encode_sextets by done.
  apply forallb_forall. intros c (v & -> & Hv)%list_elem_of_In%list_elem_of_fmap.
  pose proof (sextets_range bs Hb) as Hr. rewrite Forall_forall in Hr.
  by apply b64_char_ascii, Hr.
Qed.

Lemma a2b_char v s q l p : 0 <= v < 64 ->
  a2b (b64_char v :: s) q l p =
    if q =? 0 then a2b s 1 v 0
    else if q =? 1 then cons (l * 4 + v / 16) <$> a2b s 2 (v mod 16) 0
    else if q =? 2 then cons (l * 16 + v / 4) <$> a2b s 3 (v mod 4) 0
    else cons (l * 64 + v) <$> a2b s 0 0 0.
Proof.
  intros Hv. cbn [a2b]. by rewrite b64_char_not_pad, b64_char_value.
Qed.

Lemma a2b_sextets bs k :
  Forall is_byte bs -> Z.of_nat k = (- Z.of_nat (length (sextets bs))) mod 4 ->
  a2b ((b64_char <$> sextets bs) ++ replicate k PAD) 0 0 0 = Some bs.
Proof.
  induction bs as [| a | a b | a b c rest IH] using bytes_ind3; intros Hb Hk;
    cbn [sextets fmap list_fmap app length] in *.
  - assert (k = 0)%nat as -> by (cbn in Hk; lia). done.
  - apply Forall_cons in Hb as [Ha _].
    destruct (sextet_ranges a 0 0 Ha is_byte_0 is_byte_0) as (? & ? & _).
    destruct (sextets_join a 0 0 Ha is_byte_0 is_byte_0) as (E & _).
    change (0 / 16) with 0 in *. rewrite Z.add_0_r in *.
    assert (k = 2)%nat as -> by (cbn in Hk; lia). rewrite !a2b_char by done.
    change (Some [a / 4 * 4 + a mod 4 * 16 / 16] = Some [a]). by rewrite E.
  - apply Forall_cons in Hb as [Ha [Hb _]%Forall_cons].
    destruct (sextet_ranges a b 0 Ha Hb is_byte_0) as (? & ? & ? & _).
    destruct (sextets_join a b 0 Ha Hb is_byte_0) as (E1 & E2 & _).
    change (0 / 64) with 0 in *. rewrite Z.add_0_r in *.
    assert (k = 1)%nat as -> by (cbn in Hk; lia). rewrite !a2b_char by done.
    change (Some [a / 4 * 4 + (a mod 4 * 16 + b / 16) / 16;
                  (a mod 4 * 16 + b / 16) mod 16 * 16 + b mod 16 * 4 / 4] = Some [a; b]).
    by rewrite E1, E2.
  - apply Forall_cons in Hb as [Ha [Hb [Hc Hr]%Forall_cons]%Forall_cons].
    destruct (sextet_ranges a b c Ha Hb Hc) as (? & ? & ? & ?).
    destruct (sextets_join a b c Ha Hb Hc) as (E1 & E2 & E3).
    rewrite !a2b_char by done. cbn [Z.eqb Pos.eqb]. rewrite IH; [| done |].
    + cbn [fmap option_fmap option_map]. by rewrite E1, E2, E3.
    + rewrite Hk, !Nat2Z.inj_succ.
      replace (- Z.succ (Z.succ (Z.succ (Z.succ (Z.of_nat (length (sextets rest)))))))
        with (- Z.of_nat (length (sextets rest)) + (-1) * 4) by lia.
      by rewrite Z.mod_add.
Qed.

(** Decoding an encoding gives the bytes back. *)
Lemma b64url_roundtrip bs : Forall is_byte bs -> b64url_decode (b64url_encode bs) = Some bs.
Proof.
  intros Hb. unfold b64url_decode, repad.
  rewrite b64url_encode_sextets, length_fmap by done.
  apply a2b_sextets; [done |]. rewrite Z2Nat.id; [done |]. lia.
Qed.
