(* ===== verification/Datetime.v ===== *)
(** * Timestamps

    [Class Datetime] is what the cursors rely on of Python's [datetime]: the
    instant a value names, and that [fromisoformat] inverts [isoformat].
    [Calendar] implements it by a concrete proleptic-Gregorian value with the
    extended format [isoformat] writes. *)
From S2P Require Import Prelude PyStr.

Class Datetime (T : Type) := {
  instant : T -> Z;                       (* microseconds since the epoch *)
  dt_valid : T -> bool;
  isoformat : T -> pystr;
  fromisoformat : pystr -> option T;
  isoformat_ascii t : dt_valid t = true -> isascii (isoformat t) = true;
  isoformat_no_bar t : dt_valid t = true -> 124 ∉ isoformat t;
  isoformat_roundtrip t : dt_valid t = true -> fromisoformat (isoformat t) = Some t;
}.

Module Calendar.
Record datetime := DT {
  year : Z; month : Z; day : Z; hour : Z; minute : Z; second : Z;
  microsecond : Z;
  utcoffset : option Z   (* whole minutes east of UTC; [None] is naive *)
}.
#[global] Instance datetime_eq_dec : EqDecision datetime.
Proof. solve_decision. Defined.

Definition is_leap (y : Z) : bool :=
  (y mod 4 =? 0) && (negb (y mod 100 =? 0) || (y mod 400 =? 0)).
Definition days_in_month (y m : Z) : Z :=
  if m =? 2 then (if is_leap y then 29 else 28)
  else if (m =? 4) || (m =? 6) || (m =? 9) || (m =? 11) then 30 else 31.

Definition offset_valid (o : option Z) : bool :=
  match o with None => true | Some o => (-1440 <? o) && (o <? 1440) end.
Definition valid (t : datetime) : bool :=
  (1 <=? year t) && (year t <=? 9999) && (1 <=? month t) && (month t <=? 12) &&
  (1 <=? day t) && (day t <=? days_in_month (year t) (month t)) &&
  (0 <=? hour t) && (hour t <? 24) && (0 <=? minute t) && (minute t <? 60) &&
  (0 <=? second t) && (second t <? 60) &&
  (0 <=? microsecond t) && (microsecond t <? 1000000) && offset_valid (utcoffset t).

(** Days since 1970-01-01 of a proleptic-Gregorian date. *)
Definition epoch_days (y m d : Z) : Z :=
  let y' := if m <=? 2 then y - 1 else y in
  let m' := if m <=? 2 then m + 9 else m - 3 in
  365 * y' + y' / 4 - y' / 100 + y' / 400 + (153 * m' + 2) / 5 + d - 719469.
Definition to_instant (t : datetime) : Z :=
  ((((epoch_days (year t) (month t) (day t) * 24 + hour t) * 60 + minute t)
    - default 0 (utcoffset t)) * 60 + second t) * 1000000 + microsecond t.

(** [%0nd] *)
Fixpoint padn (n : nat) (v : Z) : pystr :=
  match n with O => [] | S n => padn n (v / 10) ++ [48 + v mod 10] end.

Definition offset_str (o : option Z) : pystr :=
  match o with
  | None => []
  | Some o => (if o <? 0 then 45 else 43) :: padn 2 (Z.abs o / 60) ++ 58 :: padn 2 (Z.abs o mod 60)
  end.
Definition to_iso (t : datetime) : pystr :=
  padn 4 (year t) ++ 45 :: padn 2 (month t) ++ 45 :: padn 2 (day t) ++ 84 ::
  padn 2 (hour t) ++ 58 :: padn 2 (minute t) ++ 58 :: padn 2 (second t) ++
  (if microsecond t =? 0 then [] else 46 :: padn 6 (microsecond t)) ++
  offset_str (utcoffset t).

Definition p_digits (n : nat) (s : pystr) : option (Z * pystr) :=
  let d := take n s in
  if (length d =? n)%nat && forallb is_digit_char d
  then Some (dec_value d, drop n s) else None.
Definition p_char (c : Z) (s : pystr) : option pystr :=
  match s with x :: s => if x =? c then Some s else None | [] => None end.

Definition p_frac (s : pystr) : option (Z * pystr) :=
  match p_char 46 s with Some s => p_digits 6 s | None => Some (0, s) end.
Definition p_offset (s : pystr) : option (option Z) :=
  match s with
  | [] => Some None
  | c :: s =>
      if (c =? 43) || (c =? 45) then
        '(h, s) ← p_digits 2 s; s ← p_char 58 s; '(m, s) ← p_digits 2 s;
        match s with
        | [] => let o := h * 60 + m in Some (Some (if c =? 45 then - o else o))
        | _ => None
        end
      else None
  end.
Definition from_iso (s : pystr) : option datetime :=
  '(y, s) ← p_digits 4 s; s ← p_char 45 s; '(mo, s) ← p_digits 2 s; s ← p_char 45 s;
  '(d, s) ← p_digits 2 s; s ← p_char 84 s; '(h, s) ← p_digits 2 s; s ← p_char 58 s;
  '(mi, s) ← p_digits 2 s; s ← p_char 58 s; '(se, s) ← p_digits 2 s;
  '(us, s) ← p_frac s; o ← p_offset s;
  let t := DT y mo d h mi se us o in
  if valid t then Some t else None.

Lemma padn_length n v : length (padn n v) = n.
Proof. revert v; induction n; intros; cbn; [done |]. rewrite length_app, IHn. cbn. lia. Qed.

Lemma padn_digits n v : forallb is_digit_char (padn n v) = true.
Proof.
  revert v; induction n as [| n IH]; intros v; cbn; [done |].
  rewrite forallb_app, IH. cbn. pose proof (Z.mod_pos_bound v 10).
  rewrite andb_true_r. unfold is_digit_char. zb.
Qed.

Lemma padn_value n v : 0 <= v < 10 ^ Z.of_nat n -> dec_value (padn n v) = v.
Proof.
  revert v; induction n as [| n IH]; intros v Hv; cbn [padn].
  - change (10 ^ Z.of_nat 0) with 1 in Hv. cbn. lia.
  - rewrite dec_value_app, IH; cbn [fold_left].
    + pose proof (Z.div_mod v 10). lia.
    + rewrite Nat2Z.inj_succ, Z.pow_succ_r in Hv by lia.
      split; [apply Z.div_pos; lia | apply Z.div_lt_upper_bound; lia].
Qed.

Lemma p_digits_padn n v r : 0 <= v < 10 ^ Z.of_nat n ->
  p_digits n (padn n v ++ r) = Some (v, r).
Proof.
  intros Hv. unfold p_digits.
  rewrite take_app_length', drop_app_length' by (by rewrite padn_length).
  rewrite padn_length, Nat.eqb_refl, padn_digits, padn_value by done. done.
Qed.

Lemma p_char_eq c r : p_char c (c :: r) = Some r.
Proof. cbn. by rewrite Z.eqb_refl. Qed.

Lemma p_frac_offset o : p_frac (offset_str o) = Some (0, offset_str o).
Proof.
  unfold p_frac, offset_str. destruct o as [o |]; [| done].
  unfold p_char. by destruct (o <? 0).
Qed.

Lemma p_offset_str o : offset_valid o = true -> p_offset (offset_str o) = Some o.
Proof.
  destruct o as [o |]; [| done]. intros Ho.
  assert (Hb : -1440 < o < 1440) by (cbn in Ho; zb).
  unfold p_offset, offset_str.
  assert (0 <= Z.abs o / 60 < 24) by
    (split; [apply Z.div_pos | apply Z.div_lt_upper_bound]; lia).
  pose proof (Z.mod_pos_bound (Z.abs o) 60 ltac:(lia)).
  pose proof (Z.div_mod (Z.abs o) 60 ltac:(lia)) as Hdm.
  rewrite p_digits_padn by lia. cbn [mbind option_bind]. rewrite p_char_eq. cbn [mbind option_bind].
  rewrite <- (app_nil_r (padn 2 (Z.abs o mod 60))), p_digits_padn by lia.
  destruct (Z.ltb_spec o 0); cbn; do 2 f_equal; lia.
Qed.

Lemma valid_bounds t : valid t = true ->
  (0 <= year t < 10000 /\ 0 <= month t < 100 /\ 0 <= day t < 100) /\
  (0 <= hour t < 100 /\ 0 <= minute t < 100 /\ 0 <= second t < 100) /\
  0 <= microsecond t < 1000000 /\ offset_valid (utcoffset t) = true.
Proof.
  unfold valid. intros H. rewrite !andb_true_iff in H. destruct_and!.
  assert (days_in_month (year t) (month t) <= 31).
  { unfold days_in_month. case_ifs; lia. }
  zb_simpl. repeat split; lia || done.
Qed.

Lemma iso_roundtrip t : valid t = true -> from_iso (to_iso t) = Some t.
Proof.
  intros Hv. destruct (valid_bounds t Hv) as ((? & ? & ?) & (? & ? & ?) & ? & Ho).
  unfold from_iso, to_iso.
  rewrite p_digits_padn by lia; cbn [mbind option_bind].
  do 5 (rewrite p_char_eq; cbn [mbind option_bind]; rewrite p_digits_padn by lia;
        cbn [mbind option_bind]).
  assert (p_frac ((if microsecond t =? 0 then [] else 46 :: padn 6 (microsecond t))
                  ++ offset_str (utcoffset t))
          = Some (microsecond t, offset_str (utcoffset t))) as ->.
  { destruct (Z.eqb_spec (microsecond t) 0) as [E | E].
    - cbn [app]. rewrite E. apply p_frac_offset.
    - unfold p_frac. rewrite <- app_comm_cons, p_char_eq. by apply p_digits_padn. }
  cbn [mbind option_bind]. rewrite p_offset_str by done. cbn [mbind option_bind].
  destruct t; cbn in *. by rewrite Hv.
Qed.

(** Every character of an ISO timestamp is a digit or one of [-T:.+]. *)
Definition iso_char (c : Z) : bool :=
  is_digit_char c || (c =? 45) || (c =? 84) || (c =? 58) || (c =? 46) || (c =? 43).

Lemma padn_iso n v : forallb iso_char (padn n v) = true.
Proof.
  apply forallb_forall. intros c Hc. pose proof (padn_digits n v) as H.
  rewrite forallb_forall in H. unfold iso_char. by rewrite H.
Qed.

Lemma to_iso_chars t : forallb iso_char (to_iso t) = true.
Proof.
  unfold to_iso, offset_str.
  repeat first [rewrite forallb_app | rewrite padn_iso | progress cbn [forallb]].
  destruct (microsecond t =? 0), (utcoffset t) as [o |]; cbn [forallb andb iso_char];
    rewrite ?forallb_app; cbn [forallb]; rewrite ?padn_iso; try done;
    by destruct (o <? 0).
Qed.

#[global] Program Instance datetime_Datetime : Datetime datetime := {|
  instant := to_instant; dt_valid := valid; isoformat := to_iso; fromisoformat := from_iso;
|}.
Next Obligation.
  intros t _. pose proof (to_iso_chars t) as H. unfold isascii.
  rewrite forallb_forall in *. intros c Hc. specialize (H c Hc).
  unfold iso_char, is_digit_char, is_ascii_char in *. zb_simpl. lia.
Qed.
Next Obligation.
  intros t _ Hc%list_elem_of_In. pose proof (to_iso_chars t) as H.
  rewrite forallb_forall in H. by specialize (H _ Hc).
Qed.
Next Obligation. intros t Hv. by apply iso_roundtrip. Qed.
End Calendar.
