(* ===== verification/Errors.v ===== *)
(** * The exceptions of the api layer ([api/errors.py]) and path ids ([api/ids.py])

    Each [APIError] subclass is a constructor; the detail text is dropped.
    [ValueError], [TypeError], [KeyError], [AttributeError], [ZeroDivisionError], [RuntimeError]
    the page cache's two lookup errors and the search layer's two refusals are
    not [APIError]s: one that reaches a transport unhandled is a 500. *)
From S2P Require Import Prelude PyStr.

Inductive rate_cap := CapGlobal | CapIp | CapUser.
#[export] Instance rate_cap_eq_dec : EqDecision rate_cap.
Proof. solve_decision. Defined.

Inductive exn :=
  | AuthenticationFailed
  | InvalidToken
  | NotFound
  | RateLimited (cap : option rate_cap) (retry_after_s : option Z)
  | ValidationFailed
  | SessionCredentialRefused   (* a [ValidationFailed] subclass *)
  | FeatureUnavailable
  | SearchCursorExpired
  | ValueError
  | TypeError
  | KeyError
  | AttributeError
  | ZeroDivisionError
  | RuntimeError
  | CacheMissError             (* a [KeyError] subclass *)
  | PageOutOfPoolError         (* an [IndexError] subclass *)
  | SearchArgumentRefused      (* [search/argument_errors.py]; a [ValueError] subclass *)
  | QueryRefused.              (* [search.query.QueryParseError] *)
#[export] Instance exn_eq_dec : EqDecision exn.
Proof. solve_decision. Defined.

Definition http_status (e : exn) : Z :=
  match e with
  | AuthenticationFailed | InvalidToken => 401
  | NotFound => 404
  | RateLimited _ _ => 429
  | ValidationFailed | SessionCredentialRefused => 400
  | FeatureUnavailable => 503
  | SearchCursorExpired => 409
  | ValueError | TypeError | KeyError | AttributeError | ZeroDivisionError | RuntimeError
  | CacheMissError | PageOutOfPoolError | SearchArgumentRefused | QueryRefused => 500
  end.

Definition problem_type (e : exn) : pystr :=
  match e with
  | AuthenticationFailed => lit "/problems/authentication-failed"
  | InvalidToken => lit "/problems/invalid-token"
  | NotFound => lit "/problems/not-found"
  | RateLimited _ _ => lit "/problems/rate-limited"
  | ValidationFailed | SessionCredentialRefused => lit "/problems/validation-failed"
  | FeatureUnavailable => lit "/problems/feature-unavailable"
  | SearchCursorExpired => lit "/problems/search-cursor-expired"
  | ValueError | TypeError | KeyError | AttributeError | ZeroDivisionError | RuntimeError
  | CacheMissError | PageOutOfPoolError | SearchArgumentRefused | QueryRefused => lit "/problems/internal-error"
  end.

Record problem := Problem {
  p_type : pystr; p_status : Z; p_cap : option rate_cap; p_retry_after_s : option Z
}.
(** [to_problem]: the body, whose [cap] and [retry_after_s] keys are present
    exactly for a [RateLimited] that carries them. *)
Definition to_problem (e : exn) : problem :=
  match e with
  | RateLimited cap retry => Problem (problem_type e) (http_status e) cap retry
  | _ => Problem (problem_type e) (http_status e) None None
  end.

(** ** Wire-format identifiers ([api/ids.py]) *)

Module Ids.
(** [parse_int_id]: ASCII digits only; [int]'s digit-count refusal is
    mapped to the same [ValidationFailed]. *)
Definition parse_int_id (value : pystr) : res exn Z :=
  if negb (isascii_isdigit value) then Err ValidationFailed
  else match py_int value with
       | Some n => Ok n
       | None => Err ValidationFailed
       end.

(** [parse_int_id] accepts exactly the strings of ASCII digits that [int] can
    convert, and gives their value; everything else, the over-long digit
    strings included, is a [ValidationFailed] and never another error. *)
Lemma parse_int_id_boundary value :
  match parse_int_id value with
  | Ok n => isascii_isdigit value = true /\
      (length value <= INT_MAX_STR_DIGITS)%nat /\ n = dec_value value
  | Err e => e = ValidationFailed /\
      (isascii_isdigit value = false \/ (INT_MAX_STR_DIGITS < length value)%nat)
  end.
Proof.
  unfold parse_int_id. destruct (isascii_isdigit value) eqn:E; cbn [negb]; [| auto].
  rewrite py_int_digits by done.
  destruct (Nat.ltb_spec INT_MAX_STR_DIGITS (length value)); auto.
Qed.
End Ids.
