(* ===== verification/PySort.v ===== *)
(** * Python's [sorted], and lexicographic keys

    [sorted] with any key and direction is a stable sort by "comes strictly
    before".  Sort keys that are tuples of integers are compared through
    [lexc], which is a total order. *)
From S2P Require Import Prelude.

Section py_sorted.
Context {A : Type} (before : A -> A -> bool).
Implicit Types (l : list A).

Fixpoint py_insert (x : A) l : list A :=
  match l with
  | [] => [x]
  | y :: l' => if before y x then y :: py_insert x l' else x :: l
  end.
Definition py_sorted l : list A := foldr py_insert [] l.

Lemma py_insert_Permutation x l : py_insert x l ≡ₚ x :: l.
Proof.
  induction l as [| y l IH]; cbn; [done |]. destruct (before y x); [| done].
  rewrite IH. apply Permutation_swap.
Qed.
Lemma py_sorted_Permutation l : py_sorted l ≡ₚ l.
Proof. induction l as [| x l IH]; cbn; [done |]. by rewrite py_insert_Permutation, IH. Qed.
Lemma py_sorted_elem x l : x ∈ py_sorted l <-> x ∈ l.
Proof. by rewrite py_sorted_Permutation. Qed.
Lemma py_sorted_length l : length (py_sorted l) = length l.
Proof. by rewrite py_sorted_Permutation. Qed.

(** ** On a domain where [before] is a strict weak order *)
Context (D : A -> Prop).
Definition not_after (x y : A) : Prop := before y x = false.
Context (Hasym : forall x y, D x -> D y -> before x y = true -> before y x = false).
Context (Htrans : forall x y z, D x -> D y -> D z -> not_after x y -> not_after y z -> not_after x z).

Lemma py_insert_sorted x l :
  D x -> Forall D l -> StronglySorted not_after l -> StronglySorted not_after (py_insert x l).
Proof using Hasym Htrans.
  intros Hx Hd. induction 1 as [| y l Hs IH Hy]; cbn; [repeat constructor |].
  apply Forall_cons in Hd as [HDy Hd]. destruct (before y x) eqn:E.
  - constructor; [by apply IH |]. rewrite py_insert_Permutation. constructor; [by apply Hasym | done].
  - constructor; [by constructor |]. constructor; [done |].
    rewrite Forall_forall in *. intros z Hz. apply (Htrans x y z); auto.
Qed.
Lemma py_sorted_sorted l : Forall D l -> StronglySorted not_after (py_sorted l).
Proof using Hasym Htrans.
  induction 1 as [| x l Hx Hl IH]; [constructor |]. apply py_insert_sorted; [done | | done].
  by rewrite py_sorted_Permutation.
Qed.

(** Where no two elements tie, the order of the input does not matter. *)
Lemma sorted_unique l1 l2 :
  (forall x y, x ∈ l1 -> y ∈ l1 -> not_after x y -> not_after y x -> x = y) ->
  StronglySorted not_after l1 -> StronglySorted not_after l2 -> l1 ≡ₚ l2 -> l1 = l2.
Proof.
  intros Hanti H1. revert l2. induction H1 as [| x l1 H1 IH Hx]; intros l2 H2 Hp.
  - by apply Permutation_nil_l in Hp.
  - destruct H2 as [| y l2 H2 Hy]; [by apply Permutation_nil_r in Hp |].
    assert (x = y) as ->.
    { assert (Hxin : x ∈ y :: l2) by (rewrite <- Hp; left).
      assert (Hyin : y ∈ x :: l1) by (rewrite Hp; left).
      apply elem_of_cons in Hxin as [-> | Hxin]; [done |].
      apply elem_of_cons in Hyin as [-> | Hyin]; [done |].
      rewrite Forall_forall in Hx, Hy. apply Hanti; [left | by right | auto | auto]. }
    f_equal. apply IH; [| done | by apply Permutation_cons_inv in Hp].
    intros a b Ha Hb. apply Hanti; by right.
Qed.
Lemma py_sorted_order_free l1 l2 :
  (forall x y, x ∈ l1 -> y ∈ l1 -> not_after x y -> not_after y x -> x = y) ->
  Forall D l1 -> l1 ≡ₚ l2 -> py_sorted l1 = py_sorted l2.
Proof using Hasym Htrans.
  intros Hanti H1 Hp. apply sorted_unique.
  - intros x y. rewrite !py_sorted_elem. apply Hanti.
  - by apply py_sorted_sorted.
  - apply py_sorted_sorted. by rewrite <- Hp.
  - by rewrite !py_sorted_Permutation.
Qed.
End py_sorted.

(** Sorting only depends on how the elements present compare. *)
Lemma py_insert_map {A B} (b1 : A -> A -> bool) (b2 : B -> B -> bool) (f : A -> B) x l :
  (forall y, y ∈ l -> b1 y x = b2 (f y) (f x)) -> map f (py_insert b1 x l) = py_insert b2 (f x) (map f l).
Proof.
  induction l as [| y l IH]; intros Hb; cbn; [done |]. rewrite <- Hb by left.
  destruct (b1 y x); cbn; [| done]. rewrite IH; [done |]. intros z Hz. apply Hb. by right.
Qed.
Lemma py_sorted_map {A B} (b1 : A -> A -> bool) (b2 : B -> B -> bool) (f : A -> B) l :
  (forall x y, x ∈ l -> y ∈ l -> b1 x y = b2 (f x) (f y)) ->
  map f (py_sorted b1 l) = py_sorted b2 (map f l).
Proof.
  induction l as [| x l IH]; intros Hb; [done |].
  change (map f (py_insert b1 x (py_sorted b1 l)) = py_insert b2 (f x) (py_sorted b2 (map f l))).
  rewrite (py_insert_map b1 b2); [rewrite IH; [done |]; intros; apply Hb; by right |].
  intros y. rewrite py_sorted_elem. intros Hy. apply Hb; [by right | left].
Qed.
Lemma sorted_take {A} (R : A -> A -> Prop) n l : StronglySorted R l -> StronglySorted R (take n l).
Proof.
  intros Hs. rewrite <- (take_drop n l) in Hs. by apply StronglySorted_app_1_l in Hs.
Qed.

(** ** Lexicographic comparison *)
Fixpoint lexc (a b : list Z) : comparison :=
  match a, b with
  | [], [] => Eq
  | [], _ => Lt
  | _, [] => Gt
  | x :: a, y :: b => match x ?= y with Eq => lexc a b | c => c end
  end.

Lemma lexc_refl a : lexc a a = Eq.
Proof. induction a; cbn; [done |]. by rewrite Z.compare_refl. Qed.
Lemma lexc_eq a b : lexc a b = Eq -> a = b.
Proof.
  revert b. induction a as [| x a IH]; intros [| y b]; cbn; try done.
  destruct (Z.compare_spec x y) as [-> | |]; try done. intros ?%IH. by subst.
Qed.
Lemma lexc_antisym a b : lexc b a = CompOpp (lexc a b).
Proof.
  revert b. induction a as [| x a IH]; intros [| y b]; cbn; try done.
  rewrite (Z.compare_antisym x y). by destruct (x ?= y); cbn.
Qed.
Lemma lexc_app a a' b b' : length a = length a' ->
  lexc (a ++ b) (a' ++ b') = match lexc a a' with Eq => lexc b b' | c => c end.
Proof.
  revert a'. induction a as [| x a IH]; intros [| y a']; cbn; try done. intros [= Hl].
  destruct (x ?= y); [by apply IH | done..].
Qed.
(** [<=] is transitive. *)
Lemma lexc_trans a b c : lexc a b <> Gt -> lexc b c <> Gt -> lexc a c <> Gt.
Proof.
  revert b c. induction a as [| x a IH]; intros [| y b] [| z c]; cbn; try done.
  destruct (Z.compare_spec x y), (Z.compare_spec y z), (Z.compare_spec x z); try done; try lia; subst.
  apply IH.
Qed.

Section lex_sort.
Context {A : Type} (before : A -> A -> bool) (D : A -> Prop) (code : A -> list Z).
(** [before] is the strict descending order of [code] on [D]. *)
Context (Hcode : forall x y, D x -> D y -> before x y = bool_decide (lexc (code x) (code y) = Gt)).

Lemma desc_not_after x y : D x -> D y -> not_after before x y <-> lexc (code y) (code x) <> Gt.
Proof using Hcode. intros Hx Hy. unfold not_after. rewrite Hcode by done. apply bool_decide_eq_false. Qed.
Lemma desc_asym x y : D x -> D y -> before x y = true -> before y x = false.
Proof using Hcode.
  intros Hx Hy. rewrite !Hcode by done. rewrite bool_decide_eq_true, bool_decide_eq_false.
  rewrite (lexc_antisym (code x)). by intros ->.
Qed.
Lemma desc_trans x y z : D x -> D y -> D z ->
  not_after before x y -> not_after before y z -> not_after before x z.
Proof using Hcode.
  intros Hx Hy Hz. rewrite !desc_not_after by done. intros. by apply (lexc_trans _ (code y)).
Qed.
Lemma desc_sorted l : Forall D l -> StronglySorted (not_after before) (py_sorted before l).
Proof using Hcode. apply py_sorted_sorted; [apply desc_asym | apply desc_trans]. Qed.
Lemma desc_antisym x y : D x -> D y -> not_after before x y -> not_after before y x -> code x = code y.
Proof using Hcode.
  intros Hx Hy. rewrite !desc_not_after by done. intros H1 H2.
  rewrite (lexc_antisym (code y)) in H2. symmetry. apply lexc_eq.
  by destruct (lexc (code y) (code x)).
Qed.
(** Where no two elements have one code, the order is strict. *)
Lemma desc_strict l : (forall x y, x ∈ l -> y ∈ l -> code x = code y -> x = y) -> NoDup l -> Forall D l ->
  StronglySorted (fun x y => before x y = true) (py_sorted before l).
Proof using Hcode.
  intros Hinj Hn HD. pose proof (desc_sorted l HD) as Hs.
  assert (Hp : py_sorted before l ≡ₚ l) by apply py_sorted_Permutation.
  rewrite Forall_forall in HD.
  assert (Hn' : NoDup (py_sorted before l)) by by rewrite Hp.
  assert (Hin : forall x, x ∈ py_sorted before l -> x ∈ l) by (intros x; by rewrite Hp).
  clear Hp Hn. induction Hs as [| x s Hs IH Hx]; [constructor |].
  apply NoDup_cons in Hn' as [Hxs Hn']. constructor; [apply IH; [done | set_solver] |].
  rewrite Forall_forall in *. intros y Hy.
  assert (Hxl : x ∈ l) by set_solver. assert (Hyl : y ∈ l) by set_solver.
  destruct (before x y) eqn:E; [done |]. exfalso.
  assert (x = y) as -> by (apply Hinj; [done.. |]; apply desc_antisym; auto). done.
Qed.
Lemma desc_order_free l1 l2 :
  (forall x y, x ∈ l1 -> y ∈ l1 -> code x = code y -> x = y) ->
  Forall D l1 -> l1 ≡ₚ l2 -> py_sorted before l1 = py_sorted before l2.
Proof using Hcode.
  intros Hinj HD. apply (py_sorted_order_free before D); [apply desc_asym | apply desc_trans | | done].
  rewrite Forall_forall in HD. intros x y Hx Hy H1 H2. apply Hinj; [done.. |]. apply desc_antisym; auto.
Qed.
End lex_sort.
