(* ===== verification/Score.v ===== *)
(** * Scores: IEEE binary64 numbers

    A Python [float] is a [spec_float] of the Standard Library's executable
    IEEE 754 specification, at precision 53 and maximal exponent 1024. *)
From S2P Require Import Prelude PySort.
From Stdlib Require Export SpecFloat.

Definition PREC : Z := 53.
Definition EMAX : Z := 1024.
Notation float := spec_float.
#[export] Instance float_eq_dec : EqDecision float.
Proof. solve_decision. Defined.

(** [float(n)] of an integer in range, [a / b], [a + b], [a < b], [a == b]. *)
Definition float_of_int (n : Z) : float := binary_normalize PREC EMAX n 0 false.
Definition fdiv : float -> float -> float := SFdiv PREC EMAX.
Definition fadd : float -> float -> float := SFadd PREC EMAX.
Definition flt : float -> float -> bool := SFltb.
Definition feq : float -> float -> bool := SFeqb.
Definition fzero : float := S754_zero false.
Definition fone : float := float_of_int 1.

(** [math.isnan], [math.isfinite]. *)
Definition is_nan (f : float) : bool := match f with S754_nan => true | _ => false end.
Definition is_finite (f : float) : bool :=
  match f with S754_zero _ | S754_finite _ _ _ => true | _ => false end.
Definition is_double (f : float) : bool := valid_binary PREC EMAX f.

(** [math.nextafter(f, -math.inf)] of a double. *)
Definition MIN_EXP : Z := emin PREC EMAX.
Definition MAX_EXP : Z := EMAX - PREC.
Definition IMPLICIT_BIT : positive := 4503599627370496.   (* 2 ^ 52 *)
Definition MAX_MANTISSA : positive := 9007199254740991.   (* 2 ^ 53 - 1 *)
Definition next_down (f : float) : float :=
  match f with
  | S754_nan => S754_nan
  | S754_infinity true => S754_infinity true
  | S754_infinity false => S754_finite false MAX_MANTISSA MAX_EXP
  | S754_zero _ => S754_finite true 1 MIN_EXP
  | S754_finite true m e =>
      if Pos.eqb m MAX_MANTISSA then
        if e =? MAX_EXP then S754_infinity true else S754_finite true IMPLICIT_BIT (e + 1)
      else S754_finite true (m + 1) e
  | S754_finite false m e =>
      if Pos.eqb m 1 then S754_zero false
      else if Pos.eqb m IMPLICIT_BIT && (MIN_EXP <? e) then S754_finite false MAX_MANTISSA (e - 1)
      else S754_finite false (m - 1) e
  end.

(** Spot checks against the specification's own predecessor. *)
Example next_down_one : next_down fone = SFpred PREC EMAX fone.
Proof. by vm_compute. Qed.
Example next_down_zero : next_down fzero = SFpred PREC EMAX fzero.
Proof. by vm_compute. Qed.
Example next_down_third :
  let third := fdiv fone (float_of_int 3) in
  next_down third = SFpred PREC EMAX third /\
  next_down (SFopp third) = SFpred PREC EMAX (SFopp third).
Proof. by vm_compute. Qed.

(** ** The order of the numbers *)

(** Where a number that is not NaN stands on the line. *)
Definition fcode (f : float) : list Z :=
  match f with
  | S754_infinity true => [-2; 0; 0]
  | S754_finite true m e => [-1; - e; - Zpos m]
  | S754_zero _ => [0; 0; 0]
  | S754_finite false m e => [1; e; Zpos m]
  | S754_infinity false => [2; 0; 0]
  | S754_nan => [3; 0; 0]
  end.
Lemma fcode_length f : length (fcode f) = 3%nat.
Proof. by destruct f as [| [] | | []]. Qed.

Lemma SFcompare_code a b : is_nan a = false -> is_nan b = false ->
  SFcompare a b = Some (lexc (fcode a) (fcode b)).
Proof.
  intros Ha Hb.
  destruct a as [sa | [] | | [] ma ea], b as [sb | [] | | [] mb eb]; try done; cbn [SFcompare fcode lexc];
    rewrite ?Z.compare_refl; try done.
  - change (Pos.compare_cont Eq ma mb) with (Pos.compare ma mb).
    change (- Zpos ma ?= - Zpos mb) with (CompOpp (ma ?= mb)%positive).
    destruct (Z.compare_spec ea eb), (Z.compare_spec (- ea) (- eb)); try lia; try done.
    by destruct (ma ?= mb)%positive.
  - change (Pos.compare_cont Eq ma mb) with (Pos.compare ma mb).
    destruct (ea ?= eb); try done. cbn. by destruct (ma ?= mb)%positive.
Qed.
Lemma flt_code a b : is_nan a = false -> is_nan b = false ->
  flt a b = bool_decide (lexc (fcode a) (fcode b) = Lt).
Proof. intros Ha Hb. unfold flt, SFltb. rewrite SFcompare_code by done. by destruct (lexc _ _). Qed.
Lemma feq_code a b : is_nan a = false -> is_nan b = false ->
  feq a b = bool_decide (lexc (fcode a) (fcode b) = Eq).
Proof. intros Ha Hb. unfold feq, SFeqb. rewrite SFcompare_code by done. by destruct (lexc _ _). Qed.
Lemma finite_not_nan f : is_finite f = true -> is_nan f = false.
Proof. by destruct f. Qed.

Lemma next_down_lt f : is_finite (next_down f) = true -> is_nan f = false -> f <> S754_infinity false ->
  flt (next_down f) f = true.
Proof.
  intros Hf Hn Hi. rewrite flt_code by (done || by apply finite_not_nan). apply bool_decide_eq_true.
  destruct f as [s | [] | | [] m e]; try done; cbn [next_down] in *.
  - destruct (Pos.eqb_spec m MAX_MANTISSA).
    + destruct (e =? MAX_EXP); [done |]. cbn. by rewrite (proj2 (Z.compare_lt_iff _ _)) by lia.
    + cbn -[Z.opp]. rewrite Z.compare_refl.
      by rewrite (proj2 (Z.compare_lt_iff (- Zpos (m + 1)) (- Zpos m))) by lia.
  - destruct (Pos.eqb_spec m 1); [done |]. destruct (_ && _).
    + cbn. by rewrite (proj2 (Z.compare_lt_iff _ _)) by lia.
    + cbn [fcode lexc]. rewrite !Z.compare_refl.
      by rewrite (proj2 (Z.compare_lt_iff (Zpos (m - 1)) (Zpos m))) by lia.
Qed.

Lemma flt_le_trans a b c : is_nan a = false -> is_nan b = false -> is_nan c = false ->
  flt a b = true -> flt c b = false -> flt a c = true.
Proof.
  intros Ha Hb Hc. rewrite !flt_code by done.
  rewrite !bool_decide_eq_true, bool_decide_eq_false. intros H1 H2.
  pose proof (lexc_trans (fcode b) (fcode c) (fcode a)) as Ht.
  rewrite (lexc_antisym (fcode a) (fcode b)), H1 in Ht.
  rewrite (lexc_antisym (fcode a) (fcode c)) in Ht.
  rewrite (lexc_antisym (fcode c) (fcode b)) in Ht.
  destruct (lexc (fcode a) (fcode c)), (lexc (fcode c) (fcode b)); cbn in *; try done; exfalso;
    by apply Ht.
Qed.

Lemma flt_irrefl a : flt a a = false.
Proof.
  destruct (is_nan a) eqn:E; [by destruct a |]. rewrite flt_code by done. by rewrite lexc_refl.
Qed.
Lemma flt_asym a b : is_nan a = false -> is_nan b = false -> flt a b = true -> flt b a = false.
Proof.
  intros Ha Hb. rewrite !flt_code by done. rewrite bool_decide_eq_true, bool_decide_eq_false.
  rewrite (lexc_antisym (fcode a) (fcode b)). by intros ->.
Qed.
Lemma fle_trans a b c : is_nan a = false -> is_nan b = false -> is_nan c = false ->
  flt b a = false -> flt c b = false -> flt c a = false.
Proof.
  intros Ha Hb Hc H1 H2. destruct (flt c a) eqn:E; [| done].
  by rewrite (flt_le_trans c a b) in H2.
Qed.

(** ** Adding scores that are not negative *)
Definition nonneg (f : float) : bool :=
  match f with S754_zero _ | S754_infinity false | S754_finite false _ _ => true | _ => false end.
Lemma nonneg_not_nan f : nonneg f = true -> is_nan f = false.
Proof. by destruct f. Qed.
Lemma flt_zero_nonneg f : flt fzero f = true -> nonneg f = true.
Proof. by destruct f as [| [] | | []]. Qed.

Lemma shr_1_nonneg r : 0 <= shr_m r -> 0 <= shr_m (shr_1 r).
Proof. destruct r as [[| p | p] a b]; cbn; try lia; destruct p; cbn; lia. Qed.
Lemma iter_shr_nonneg n r : 0 <= shr_m r -> 0 <= shr_m (iter_pos shr_1 n r).
Proof. revert r. induction n; intros r Hr; cbn; auto using shr_1_nonneg. Qed.
Lemma shr_fexp_nonneg m e l : 0 <= m -> 0 <= shr_m (shr_fexp PREC EMAX m e l).1.
Proof.
  intros Hm. unfold shr_fexp. assert (Hr : 0 <= shr_m (shr_record_of_loc m l)) by by destruct l as [| []].
  unfold shr. destruct (_ - e); cbn; [done | by apply iter_shr_nonneg | done].
Qed.
Lemma round_nonneg m e l : 0 <= m -> nonneg (binary_round_aux PREC EMAX false m e l) = true.
Proof.
  intros Hm. unfold binary_round_aux. pose proof (shr_fexp_nonneg m e l Hm) as H1.
  destruct (shr_fexp PREC EMAX m e l) as [r1 e1]. cbn [fst] in H1.
  assert (H2 : 0 <= round_nearest_even (shr_m r1) (loc_of_shr_record r1)).
  { unfold round_nearest_even. destruct (loc_of_shr_record r1) as [| []]; try destruct (Z.even _); lia. }
  pose proof (shr_fexp_nonneg _ e1 loc_Exact H2) as H3.
  destruct (shr_fexp PREC EMAX _ e1 loc_Exact) as [r2 e2]. cbn [fst] in H3.
  destruct (shr_m r2); [done | by destruct (_ <=? _) | lia].
Qed.
Lemma fadd_nonneg a b : nonneg a = true -> nonneg b = true -> nonneg (fadd a b) = true.
Proof.
  intros Ha Hb. destruct a as [[] | [] | | [] ma ea], b as [[] | [] | | [] mb eb]; try done.
  unfold fadd, SFadd. cbn [cond_Zopp]. rewrite <- Pos2Z.inj_add.
  generalize (fst (shl_align ma ea (Z.min ea eb)) + fst (shl_align mb eb (Z.min ea eb)))%positive.
  intros p. cbn [binary_normalize]. unfold binary_round.
  destruct (shl_align p _ _) as [mz ez]. by apply round_nonneg.
Qed.
