(* ===== verification/Odict.v ===== *)
(** * Insertion-ordered dictionaries

    Python's [dict] and [OrderedDict]: an association list with distinct keys in
    the order they were (re)inserted, oldest first. *)
From S2P Require Import Prelude Errors.

Section odict.
Context {K X : Type} `{EqDecision K}.
Implicit Types (d : list (K * X)).

Fixpoint od_get (k : K) d : option X :=
  match d with
  | [] => None
  | (k', x) :: d => if decide (k' = k) then Some x else od_get k d
  end.
Definition od_del (k : K) d : list (K * X) := filter (fun e => e.1 <> k) d.
(** [d[k] = x]: in place when the key is there, at the end otherwise. *)
Fixpoint od_set (k : K) (x : X) d : list (K * X) :=
  match d with
  | [] => [(k, x)]
  | (k', x') :: d => if decide (k' = k) then (k, x) :: d else (k', x') :: od_set k x d
  end.
Definition od_move_to_end (k : K) d : list (K * X) :=
  match od_get k d with Some x => od_del k d ++ [(k, x)] | None => d end.

(** [while len(d) > maxsize: d.popitem(last=False)]; popping an empty dict is a
    [KeyError]. *)
Fixpoint od_shrink (maxsize : Z) d : list (K * X) * res exn () :=
  if Z.of_nat (length d) <=? maxsize then (d, Ok ())
  else match d with
       | [] => ([], Err KeyError)
       | _ :: d => od_shrink maxsize d
       end.

Lemma od_del_cons k e d : od_del k (e :: d) = if decide (e.1 = k) then od_del k d else e :: od_del k d.
Proof. unfold od_del. rewrite filter_cons. repeat case_decide; tauto || done. Qed.
Lemma od_del_absent k d : od_get k d = None -> od_del k d = d.
Proof.
  induction d as [| [k' x] d IH]; [done |]. rewrite od_del_cons. cbn [od_get fst].
  case_decide; [done |]. intros Hd. by rewrite IH.
Qed.
Lemma od_get_del k k' d : od_get k (od_del k' d) = if decide (k' = k) then None else od_get k d.
Proof.
  induction d as [| [k0 x] d IH]; [by case_decide |]. rewrite od_del_cons. cbn [od_get fst].
  repeat case_decide; subst; cbn [od_get]; rewrite ?decide_True, ?decide_False by done; try done;
    rewrite IH; by repeat case_decide.
Qed.
Lemma od_get_app k d e : od_get k (d ++ e) = Sql.coalesce (od_get k d) (od_get k e).
Proof. induction d as [| [k' x] d IH]; cbn; [done |]. by case_decide. Qed.
Lemma od_get_snoc k k' x d :
  od_get k (od_del k' d ++ [(k', x)]) = if decide (k' = k) then Some x else od_get k d.
Proof. rewrite od_get_app, od_get_del. cbn. case_decide; [done |]. by destruct (od_get k d). Qed.
Lemma od_set_absent k x d : od_get k d = None -> od_set k x d = d ++ [(k, x)].
Proof. induction d as [| [k' x'] d IH]; cbn; [done |]. case_decide; [done |]. intros. by rewrite IH. Qed.

(** [put]'s two statements leave the key last, with the new value. *)
Lemma od_put k x d :
  od_set k x (if od_get k d then od_move_to_end k d else d) = od_del k d ++ [(k, x)].
Proof.
  unfold od_move_to_end. destruct (od_get k d) as [y |] eqn:E.
  - assert (Hd : od_get k (od_del k d) = None) by (rewrite od_get_del; by case_decide).
    revert Hd. generalize (od_del k d). intros e. induction e as [| [k' x'] e IH]; cbn.
    + by rewrite decide_True.
    + case_decide; [done |]. intros. by rewrite IH.
  - rewrite od_set_absent, od_del_absent by done. done.
Qed.

Lemma od_get_elem k x d : od_get k d = Some x -> (k, x) ∈ d.
Proof. induction d as [| [k' x'] d IH]; cbn; [done |]. case_decide; [intros [= ->]; subst; left | right; auto]. Qed.
Lemma od_elem_get k x d : NoDup d.*1 -> (k, x) ∈ d -> od_get k d = Some x.
Proof.
  induction d as [| [k' x'] d IH]; cbn; [by intros _ ?%elem_of_nil |].
  intros [Hk Hd]%NoDup_cons [[= -> ->] | Hin]%elem_of_cons; [by rewrite decide_True |].
  rewrite decide_False; [by apply IH |]. intros ->. apply Hk.
  apply list_elem_of_fmap. by exists (k, x).
Qed.
Lemma od_del_nodup k d : NoDup d.*1 -> NoDup (od_del k d).*1.
Proof. intros Hd. eapply sublist_NoDup; [exact Hd |]. apply fmap_sublist, sublist_filter. Qed.
Lemma od_del_keys k d : k ∉ (od_del k d).*1.
Proof. intros ([k' x] & -> & [Hne _]%list_elem_of_filter)%list_elem_of_fmap. done. Qed.
Lemma od_snoc_nodup k x d : NoDup d.*1 -> NoDup (od_del k d ++ [(k, x)]).*1.
Proof.
  intros Hd. rewrite fmap_app. apply NoDup_app. split_and!; [by apply od_del_nodup | | apply NoDup_singleton].
  intros y Hy. cbn. intros ->%list_elem_of_singleton. by apply od_del_keys in Hy.
Qed.
Lemma od_shrink_suffix m d : (od_shrink m d).1 `suffix_of` d.
Proof.
  induction d as [| e d IH]; cbn [od_shrink]; (destruct (_ <=? m); [done |]); [done |].
  etransitivity; [exact IH |]. by apply suffix_cons_r.
Qed.
Lemma od_shrink_bound m d : Z.of_nat (length (od_shrink m d).1) <= Z.max 0 m.
Proof.
  induction d as [| e d IH]; cbn [od_shrink].
  - destruct (_ <=? m); cbn; lia.
  - destruct (Z.leb_spec (Z.of_nat (length (e :: d))) m); cbn [fst]; lia.
Qed.
Lemma od_del_length k d :
  NoDup d.*1 -> length d = (length (od_del k d) + if od_get k d then 1 else 0)%nat.
Proof.
  induction d as [| [k' x] d IH]; [done |]. rewrite od_del_cons. cbn [od_get fst fmap list_fmap].
  intros [Hk Hd]%NoDup_cons. case_decide as Hkk; [| cbn [length]; rewrite (IH Hd); lia].
  subst k'. destruct (od_get k d) as [y |] eqn:E.
  - exfalso. apply Hk, list_elem_of_fmap. apply od_get_elem in E. by exists (k, y).
  - rewrite od_del_absent by done. cbn [length]. lia.
Qed.
End odict.

Lemma od_get_fmap {K X Y} `{EqDecision K} (f : X -> Y) k (d : list (K * X)) :
  od_get k (prod_map id f <$> d) = f <$> od_get k d.
Proof. induction d as [| [k' x] d IH]; cbn; [done |]. by case_decide. Qed.
Lemma od_del_fmap {K X Y} `{EqDecision K} (f : X -> Y) k (d : list (K * X)) :
  od_del k (prod_map id f <$> d) = prod_map id f <$> od_del k d.
Proof.
  induction d as [| [k' x] d IH]; [done |]. cbn [fmap list_fmap prod_map]. rewrite !od_del_cons.
  cbn [fst prod_map id]. case_decide; [exact IH |]. cbn [fmap list_fmap]. f_equal. exact IH.
Qed.
Lemma od_to_map {K X} `{Countable K} (d : list (K * X)) k :
  (list_to_map d : gmap K X) !! k = od_get k d.
Proof.
  induction d as [| [k' x] d IH]; cbn; [done |]. case_decide; subst.
  - by rewrite lookup_insert_eq.
  - by rewrite lookup_insert_ne.
Qed.

(** Overwriting a key, or adding it, changes that lookup only. *)
Lemma od_get_set {K X} `{EqDecision K} (k k' : K) (x : X) d :
  od_get k (od_set k' x d) = if decide (k' = k) then Some x else od_get k d.
Proof.
  induction d as [| [k0 y] d IH]; cbn [od_set od_get]; [done |].
  destruct (decide (k0 = k')) as [-> | Hne]; cbn [od_get]; repeat case_decide; try congruence; done.
Qed.
Lemma od_set_keys {K X} `{EqDecision K} (k : K) (x : X) d :
  (od_set k x d).*1 = if od_get k d then d.*1 else d.*1 ++ [k].
Proof.
  induction d as [| [k0 y] d IH]; cbn [od_set od_get fmap list_fmap fst]; [done |].
  case_decide; [by subst |]. cbn [fmap list_fmap fst]. rewrite IH. by destruct (od_get k d).
Qed.
Lemma od_get_none_keys {K X} `{EqDecision K} k (d : list (K * X)) : od_get k d = None <-> k ∉ d.*1.
Proof.
  induction d as [| [k0 y] d IH]; cbn [od_get fmap list_fmap fst]; [set_solver |].
  case_decide; [set_solver |]. rewrite IH. set_solver.
Qed.
Lemma od_set_nodup {K X} `{EqDecision K} (k : K) (x : X) d : NoDup d.*1 -> NoDup (od_set k x d).*1.
Proof.
  intros Hd. rewrite od_set_keys. destruct (od_get k d) eqn:E; [done |].
  apply od_get_none_keys in E. apply NoDup_app. split_and!; [done | set_solver | apply NoDup_singleton].
Qed.
