(* ===== verification/Relevance.v ===== *)
(** * Fusion and the relevance order ([search/searcher.py] [rrf_fuse],
    [search/relevance_order.py], [_safe_rerank]) *)
From S2P Require Import Prelude PyStr Datetime Errors PySort Score Odict.

Inductive chunk_table := TMessage | TMessageChunks | TAttachmentChunks.
#[export] Instance chunk_table_eq_dec : EqDecision chunk_table.
Proof. solve_decision. Defined.

Record ArmHit := MkArmHit {
  ah_message_id : Z;
  ah_chunk_id : option Z;
  ah_chunk_table : chunk_table;
  ah_arm_score : float;
  ah_rank : Z;
}.
Record FusedHit := MkFused {
  fh_message_id : Z;
  fh_best_chunk_id : option Z;
  fh_best_chunk_table : chunk_table;
  fh_rrf_score : float;
  fh_contributing_arms : list nat;
}.

Module Relevance.
(** ** Reciprocal rank fusion *)

(** [1.0 / (k + hit.rank)] *)
Definition contribution (k : Z) (h : ArmHit) : float := fdiv fone (float_of_int (k + ah_rank h)).

(** The dict [rrf_fuse] keeps per message. *)
Record rrf_entry := RrfEntry {
  re_score : float;
  re_arms : list nat;
  re_chunks : list (option Z * chunk_table * float);
}.
Definition new_entry : rrf_entry := RrfEntry fzero [] [].
Definition chunk_key (h : ArmHit) : option Z * chunk_table := (ah_chunk_id h, ah_chunk_table h).

Definition add_to (k : Z) (e : rrf_entry) (hit : nat * ArmHit) : rrf_entry :=
  let '(arm, h) := hit in
  let c := contribution k h in
  let best := default fzero (od_get (chunk_key h) (re_chunks e)) in
  RrfEntry (fadd (re_score e) c)
    (if bool_decide (arm ∈ re_arms e) then re_arms e else re_arms e ++ [arm])
    (if flt best c then od_set (chunk_key h) c (re_chunks e) else re_chunks e).

Definition add_hit (k : Z) (agg : list (Z * rrf_entry)) (hit : nat * ArmHit) :
    res exn (list (Z * rrf_entry)) :=
  let mid := ah_message_id hit.2 in
  let e := default new_entry (od_get mid agg) in
  if k + ah_rank hit.2 =? 0 then Err ZeroDivisionError
  else Ok (od_set mid (add_to k e hit) agg).

(** [max(chunks.items(), key=...)]: the first of the greatest. *)
Definition best_chunk (chunks : list (option Z * chunk_table * float)) : res exn (option Z * chunk_table) :=
  match chunks with
  | [] => Err ValueError
  | c :: cs => Ok (fold_left (fun b c => if flt b.2 c.2 then c else b) cs c).1
  end.

Definition fused_of (me : Z * rrf_entry) : res exn FusedHit :=
  let '(mid, e) := me in
  let* (cid, table) := best_chunk (re_chunks e) in
  Ok (MkFused mid cid table (re_score e) (merge_sort Nat.le (re_arms e))).

(** The tuple [(rrf_score, message_id)] of [a] is greater than that of [b]. *)
Definition fused_before (a b : FusedHit) : bool :=
  if feq (fh_rrf_score b) (fh_rrf_score a) then fh_message_id b <? fh_message_id a
  else flt (fh_rrf_score b) (fh_rrf_score a).

(** [enumerate(arms)], flattened. *)
Definition arm_hits (arms : list (list ArmHit)) : list (nat * ArmHit) :=
  concat (imap (fun i arm => pair i <$> arm) arms).

Fixpoint map_res {E A B} (f : A -> res E B) (l : list A) : res E (list B) :=
  match l with
  | [] => Ok []
  | x :: l => let* y := f x in let* ys := map_res f l in Ok (y :: ys)
  end.

Definition rrf_fuse (arms : list (list ArmHit)) (k : Z) : res exn (list FusedHit) :=
  let* agg := foldM (add_hit k) [] (arm_hits arms) in
  let* out := map_res fused_of agg in
  Ok (py_sorted fused_before out).

(** ** The relevance key *)
Section dates.
Context `{Datetime T}.

(** [datetime.min] in UTC, as an instant. *)
Definition NULL_DATE_SENTINEL : Z := Calendar.to_instant (Calendar.DT 1 1 1 0 0 0 0 (Some 0)).

Definition date_key (when : option T) : Z * Z :=
  match when with Some t => (1, instant t) | None => (0, NULL_DATE_SENTINEL) end.

Definition relevance_key (score : float) (when : option T) (message_id : Z) : float * (Z * Z) * Z :=
  (score, date_key when, message_id).
End dates.

(** Tuple comparison [a < b]. *)
Definition date_lt (a b : Z * Z) : bool := if a.1 =? b.1 then a.2 <? b.2 else a.1 <? b.1.
Definition key_lt (a b : float * (Z * Z) * Z) : bool :=
  let '(sa, da, ia) := a in
  let '(sb, db, ib) := b in
  if feq sa sb then
    if bool_decide (da = db) then ia <? ib else date_lt da db
  else flt sa sb.

(** [sorted(..., key=relevance_key, reverse=True)]: [a] strictly before [b]. *)
Definition key_before {A} (key : A -> float * (Z * Z) * Z) (a b : A) : bool := key_lt (key b) (key a).

(** ** Scores of a reranker *)
Record FiniteScores := MkFinite { fs_scores : list float; fs_replaced : nat }.

(** [min(usable)]: the first of the least. *)
Definition py_min (x : float) (l : list float) : float :=
  fold_left (fun m y => if flt y m then y else m) l x.

Definition finite_scores (scores fallback : list float) : res exn FiniteScores :=
  if negb (length scores =? length fallback)%nat then Err ValueError
  else
    let usable := filter (fun s => is_finite s = true) scores in
    let unscored := match usable with
                    | [] => S754_infinity true
                    | u :: us => next_down (py_min u us)
                    end in
    if negb (is_finite unscored) then Ok (MkFinite fallback (length scores))
    else Ok (MkFinite (map (fun s => if is_finite s then s else unscored) scores)
               (length scores - length usable)).

(** [_safe_rerank]: [raw] is what the reranker returned, or [None] when it
    raised. *)
Definition safe_rerank (raw : option (list float)) (fallback : list float) : res exn (list float) :=
  match raw with
  | None => Ok fallback
  | Some raw => let* checked := finite_scores raw fallback in Ok (fs_scores checked)
  end.
End Relevance.
