(* ===== verification/RelevanceFacts.v ===== *)
(** * What fusion and the relevance order guarantee *)
From S2P Require Import Prelude PyStr Datetime Errors PySort Score Odict Relevance.
Import Relevance.

(** ** Fusion *)
Section fuse.
Context (k : Z).
Implicit Types (hs : list (nat * ArmHit)).

Definition hits_of (mid : Z) hs : list (nat * ArmHit) := filter (fun p => ah_message_id p.2 = mid) hs.
(** The score fusion promises: the contributions, added in the order of the arms. *)
Definition rrf_score_of hs : float := fold_left (fun s p => fadd s (contribution k p.2)) hs fzero.

Definition entry_of hs : option rrf_entry :=
  match hs with [] => None | _ => Some (fold_left (add_to k) hs new_entry) end.

Lemma hits_of_snoc mid hs p :
  hits_of mid (hs ++ [p]) = if decide (ah_message_id p.2 = mid) then hits_of mid hs ++ [p] else hits_of mid hs.
Proof.
  unfold hits_of. rewrite filter_app, filter_cons. case_decide; [done |]. cbn. apply app_nil_r.
Qed.
Lemma entry_of_snoc hs p : entry_of (hs ++ [p]) = Some (add_to k (default new_entry (entry_of hs)) p).
Proof.
  unfold entry_of. destruct hs as [| q hs]; [done |]. cbn [app default].
  f_equal. change (q :: hs ++ [p]) with ((q :: hs) ++ [p]). by rewrite fold_left_app.
Qed.

(** The dict maps each message to the fold of its own hits. *)
Lemma foldM_add_hit hs agg : foldM (add_hit k) [] hs = Ok agg ->
  NoDup agg.*1 /\ (forall mid, mid ∈ agg.*1 <-> exists p, p ∈ hs /\ ah_message_id p.2 = mid) /\
  (forall mid, od_get mid agg = entry_of (hits_of mid hs)).
Proof.
  apply (foldM_invariant (add_hit k) (fun done agg => NoDup agg.*1 /\
    (forall mid, mid ∈ agg.*1 <-> exists p, p ∈ done /\ ah_message_id p.2 = mid) /\
    (forall mid, od_get mid agg = entry_of (hits_of mid done)))).
  - split_and!; [constructor | set_solver | done].
  - intros done p s0 s1 _ (Hn & Hk & Hg). unfold add_hit. case_ifs; [discriminate |]. intros [= <-].
    split_and!; [by apply od_set_nodup | |].
    + intros mid. rewrite od_set_keys. pose proof (od_get_none_keys (ah_message_id p.2) s0) as Hx.
      destruct (od_get (ah_message_id p.2) s0) as [e |].
      * rewrite Hk. split; [intros (q & Hq & <-); exists q; set_solver |].
        intros (q & [Hq | ->%list_elem_of_singleton]%elem_of_app & <-); [by exists q |].
        apply Hk. destruct (decide (ah_message_id p.2 ∈ s0.*1)) as [Hin | Hin]; [done |].
        by apply Hx in Hin.
      * rewrite elem_of_app, Hk, list_elem_of_singleton. split.
        -- intros [(q & Hq & <-) | ->]; [exists q | exists p]; set_solver.
        -- intros (q & [Hq | ->%list_elem_of_singleton]%elem_of_app & <-); [left; by exists q | by right].
    + intros mid. rewrite od_get_set, hits_of_snoc. case_decide; [| done]. subst mid.
      rewrite Hg. symmetry. apply entry_of_snoc.
Qed.

Lemma foldM_add_hit_ok hs agg : (forall p, p ∈ hs -> k + ah_rank p.2 <> 0) ->
  exists agg', foldM (add_hit k) agg hs = Ok agg'.
Proof.
  revert agg. induction hs as [| p hs IH]; intros agg Hk; [by exists agg |]. cbn [foldM].
  unfold add_hit at 1. rewrite (proj2 (Z.eqb_neq _ _)) by (apply Hk; left). apply IH. set_solver.
Qed.

(** ** One message's entry *)
Definition positive (h : ArmHit) : Prop := flt fzero (contribution k h) = true.

Lemma fold_score hs e : re_score (fold_left (add_to k) hs e)
  = fold_left (fun s p => fadd s (contribution k p.2)) hs (re_score e).
Proof. revert e. induction hs as [| [i h] hs IH]; intros e; [done |]. cbn [fold_left]. by rewrite IH. Qed.
Lemma rrf_score_nonneg hs : (forall p, p ∈ hs -> positive p.2) -> nonneg (rrf_score_of hs) = true.
Proof.
  unfold rrf_score_of. enough (G : forall s, nonneg s = true -> (forall p, p ∈ hs -> positive p.2) ->
    nonneg (fold_left (fun s p => fadd s (contribution k p.2)) hs s) = true) by (by apply G).
  induction hs as [| p hs IH]; intros s Hs Hp; [done |]. cbn. apply IH; [| set_solver].
  apply fadd_nonneg; [done |]. apply flt_zero_nonneg, Hp. left.
Qed.

(** The chunks remember the best contribution of each key that was hit, and
    nothing else. *)
Definition chunks_ok hs (chunks : list (option Z * chunk_table * float)) : Prop :=
  (forall key c, (key, c) ∈ chunks -> exists p, p ∈ hs /\ chunk_key p.2 = key /\ contribution k p.2 = c) /\
  (forall p, p ∈ hs -> exists c, (chunk_key p.2, c) ∈ chunks /\ flt c (contribution k p.2) = false).

Lemma od_set_elem {K X} `{EqDecision K} (key : K) (x : X) d e :
  e ∈ od_set key x d -> e = (key, x) \/ e ∈ d.
Proof.
  induction d as [| [k0 y] d IH]; cbn [od_set]; [set_solver |]. case_decide; set_solver.
Qed.
Lemma od_set_elem_old {K X} `{EqDecision K} (key : K) (x : X) d k0 y :
  (k0, y) ∈ d -> k0 <> key -> (k0, y) ∈ od_set key x d.
Proof.
  induction d as [| [k1 z] d IH]; cbn [od_set]; [set_solver |]. case_decide; set_solver.
Qed.
Lemma od_set_elem_new {K X} `{EqDecision K} (key : K) (x : X) d : (key, x) ∈ od_set key x d.
Proof. apply od_get_elem. by rewrite od_get_set, decide_True. Qed.

Lemma chunks_ok_step hs e p :
  positive p.2 -> NoDup (re_chunks e).*1 -> (forall q, q ∈ hs -> positive q.2) ->
  chunks_ok hs (re_chunks e) ->
  NoDup (re_chunks (add_to k e p)).*1 /\ chunks_ok (hs ++ [p]) (re_chunks (add_to k e p)).
Proof.
  destruct p as [i h]. cbn [snd]. intros Hp Hn Hpos [Hin Hout]. unfold add_to. cbn [re_chunks].
  set (best := default fzero (od_get (chunk_key h) (re_chunks e))).
  destruct (flt best (contribution k h)) eqn:Ef; (split; [by try apply od_set_nodup | split]).
  - intros key c [[= -> ->] | Hc]%od_set_elem; [by exists (i, h); set_solver |].
    destruct (Hin _ _ Hc) as (q & ? & ? & ?). exists q. set_solver.
  - intros q [Hq | ->%list_elem_of_singleton]%elem_of_app.
    + destruct (Hout q Hq) as (c & Hc & Hle). destruct (decide (chunk_key q.2 = chunk_key h)) as [Hk | Hk].
      * exists (contribution k h). rewrite Hk. split; [apply od_set_elem_new |].
        apply (od_elem_get _ _ _ Hn) in Hc. rewrite Hk in Hc. unfold best in Ef. rewrite Hc in Ef. cbn in Ef.
        assert (Hnn : is_nan (contribution k h) = false) by by apply nonneg_not_nan, flt_zero_nonneg.
        assert (Hcn : is_nan c = false) by (by destruct c).
        assert (Hqn : is_nan (contribution k q.2) = false)
          by (apply nonneg_not_nan, flt_zero_nonneg; by apply Hpos).
        apply (fle_trans _ c); [done.. |]. by apply flt_asym.
      * exists c. split; [by apply od_set_elem_old | done].
    + exists (contribution k h). split; [apply od_set_elem_new | apply flt_irrefl].
  - intros key c Hc. destruct (Hin _ _ Hc) as (q & ? & ? & ?). exists q. set_solver.
  - intros q [Hq | ->%list_elem_of_singleton]%elem_of_app.
    + destruct (Hout q Hq) as (c & Hc & Hle). by exists c.
    + unfold best in Ef. destruct (od_get (chunk_key h) (re_chunks e)) as [c |] eqn:Eg.
      * exists c. split; [by apply od_get_elem | done].
      * cbn in Ef. unfold positive in Hp. congruence.
Qed.

Lemma fold_chunks_ok hs : (forall p, p ∈ hs -> positive p.2) ->
  NoDup (re_chunks (fold_left (add_to k) hs new_entry)).*1 /\
  chunks_ok hs (re_chunks (fold_left (add_to k) hs new_entry)).
Proof.
  induction hs as [| p hs IH] using rev_ind; intros Hp.
  - split; [constructor |]. split; set_solver.
  - rewrite fold_left_app. cbn [fold_left]. destruct IH as [Hn Hc]; [set_solver |].
    apply chunks_ok_step; [apply Hp; set_solver | done | set_solver | done].
Qed.

Lemma best_chunk_spec chunks :
  chunks <> [] -> (forall e, e ∈ chunks -> is_nan e.2 = false) ->
  exists key c, best_chunk chunks = Ok key /\ (key, c) ∈ chunks /\
    forall e, e ∈ chunks -> flt c e.2 = false.
Proof.
  destruct chunks as [| c0 cs]; [done |]. intros _ Hn. unfold best_chunk.
  set (r := fold_left _ cs c0).
  enough (Hr : r ∈ c0 :: cs /\ forall e, e ∈ c0 :: cs -> flt r.2 e.2 = false).
  { exists r.1, r.2. split; [done |]. by destruct r. }
  subst r. revert c0 Hn. induction cs as [| c1 cs IH]; intros c0 Hn; cbn [fold_left].
  - split; [left |]. intros e ->%list_elem_of_singleton. apply flt_irrefl.
  - destruct (flt c0.2 c1.2) eqn:E.
    + destruct (IH c1) as [Hin Hle]; [set_solver |]. split; [set_solver |].
      intros e [-> | He]%elem_of_cons; [| auto].
      apply (fle_trans _ c1.2); [apply Hn; set_solver | apply Hn; set_solver | | |].
      * apply Hn. by right.
      * apply flt_asym; [apply Hn; set_solver | apply Hn; set_solver | done].
      * apply Hle. left.
    + destruct (IH c0) as [Hin Hle]; [set_solver |]. split; [set_solver |].
      intros e [-> | [-> | He]%elem_of_cons]%elem_of_cons; [apply Hle; left | | apply Hle; set_solver].
      apply (fle_trans _ c0.2); [apply Hn; set_solver | apply Hn; set_solver | | done | apply Hle; left].
      apply Hn. apply elem_of_cons in Hin as [-> | Hin]; set_solver.
Qed.

Lemma fold_arms hs e i :
  i ∈ re_arms (fold_left (add_to k) hs e) <-> i ∈ re_arms e \/ exists h, (i, h) ∈ hs.
Proof.
  revert e. induction hs as [| [j h] hs IH]; intros e; cbn [fold_left]; [set_solver |].
  rewrite IH. cbn [add_to re_arms]. case_bool_decide as Hj; [split; [set_solver |] | set_solver].
  intros [? | (h' & [[= -> ->] | ?]%elem_of_cons)]; [by left | by left | right; by exists h'].
Qed.

(** What one message's entry becomes. *)
Definition fused_exact hs (f : FusedHit) : Prop :=
  fh_rrf_score f = rrf_score_of hs /\
  (exists p, p ∈ hs /\ chunk_key p.2 = (fh_best_chunk_id f, fh_best_chunk_table f) /\
     forall q, q ∈ hs -> flt (contribution k p.2) (contribution k q.2) = false) /\
  (forall i, i ∈ fh_contributing_arms f <-> exists h, (i, h) ∈ hs).

Lemma fused_of_exact mid hs : hs <> [] -> (forall p, p ∈ hs -> positive p.2) ->
  exists f, fused_of (mid, fold_left (add_to k) hs new_entry) = Ok f /\
    fh_message_id f = mid /\ fused_exact hs f.
Proof.
  intros Hne Hp. destruct (fold_chunks_ok hs Hp) as [Hn [Hin Hout]].
  pose proof (fun i => fold_arms hs new_entry i) as Ha. pose proof (fold_score hs new_entry) as Hs.
  set (e := fold_left (add_to k) hs new_entry) in *.
  assert (Hnan : forall c, c ∈ re_chunks e -> is_nan c.2 = false).
  { intros [key c] Hc. destruct (Hin _ _ Hc) as (q & Hq & _ & <-).
    by apply nonneg_not_nan, flt_zero_nonneg, Hp. }
  destruct (best_chunk_spec (re_chunks e)) as ([cid table] & c & Hb & Hc & Hle); [| done |].
  { destruct hs as [| p hs']; [done |]. destruct (Hout p) as (c & Hc & _); [left |]. intros E. rewrite E in Hc. by apply elem_of_nil in Hc. }
  unfold fused_of. rewrite Hb. eexists. split; [done |]. split; [done |]. split_and!; cbn.
  - exact Hs.
  - destruct (Hin _ _ Hc) as (p & Hpin & Hk & <-). exists p. split_and!; [done.. |].
    intros q Hq. destruct (Hout q Hq) as (c' & Hc' & Hle').
    apply (fle_trans _ c');
      [by apply nonneg_not_nan, flt_zero_nonneg, Hp | by apply (Hnan _ Hc')
      | by apply nonneg_not_nan, flt_zero_nonneg, Hp | done | by apply (Hle _ Hc')].
  - intros i. rewrite merge_sort_Permutation, Ha. set_solver.
Qed.
End fuse.

Lemma map_res_ok {E A B} (f : A -> res E B) l :
  (forall x, x ∈ l -> exists y, f x = Ok y) ->
  exists ys, map_res f l = Ok ys /\ Forall2 (fun x y => f x = Ok y) l ys.
Proof.
  induction l as [| x l IH]; intros Hf; [by exists [] |].
  destruct (Hf x) as [y Hy]; [left |]. destruct IH as (ys & Hys & HF); [set_solver |].
  exists (y :: ys). cbn. rewrite Hy, Hys. split; [done | by constructor].
Qed.

(** The fused order is the descending order of (score, id). *)
Definition fused_code (f : FusedHit) : list Z := fcode (fh_rrf_score f) ++ [fh_message_id f].
Lemma fused_before_code a b : is_nan (fh_rrf_score a) = false -> is_nan (fh_rrf_score b) = false ->
  fused_before a b = bool_decide (lexc (fused_code a) (fused_code b) = Gt).
Proof.
  intros Ha Hb. unfold fused_before, fused_code. rewrite feq_code, flt_code by done.
  rewrite lexc_app by by rewrite !fcode_length.
  rewrite (lexc_antisym (fcode (fh_rrf_score a))). destruct (lexc (fcode _) (fcode _)); cbn; try done.
  destruct (Z.ltb_spec (fh_message_id b) (fh_message_id a)),
    (Z.compare_spec (fh_message_id a) (fh_message_id b)); cbn; try lia; done.
Qed.

Lemma arm_hits_elem arms i h : (i, h) ∈ arm_hits arms -> exists arm, arm ∈ arms /\ h ∈ arm.
Proof.
  unfold arm_hits. intros Hin%list_elem_of_In%in_concat. destruct Hin as (l & Hl & Hh).
  apply list_elem_of_In in Hl, Hh. apply elem_of_lookup_imap in Hl as (j & arm & -> & Hj).
  apply list_elem_of_fmap in Hh as (h' & [= -> ->] & Hh'). exists arm.
  split; [by eapply list_elem_of_lookup_2 | done].
Qed.

(** C11: fusion is exact.  When every contribution is positive (as it is for the
    default [k] and real ranks), [rrf_fuse] returns one hit per message that any
    arm found; its score is the sum of that message's contributions, its chunk
    is one whose own contribution is greatest, its arms are those that found it;
    and the hits come in strictly descending order of (score, id). *)
Theorem rrf_fuse_exact (arms : list (list ArmHit)) (k : Z) :
  (forall arm h, arm ∈ arms -> h ∈ arm -> k + ah_rank h <> 0 /\ positive k h) ->
  exists out, rrf_fuse arms k = Ok out /\ NoDup (fh_message_id <$> out) /\
    (forall mid, mid ∈ fh_message_id <$> out <-> hits_of mid (arm_hits arms) <> []) /\
    (forall f, f ∈ out -> fused_exact k (hits_of (fh_message_id f) (arm_hits arms)) f) /\
    StronglySorted (fun a b => fused_before a b = true) out.
Proof.
  intros Hok. set (hs := arm_hits arms).
  assert (Hh : forall p, p ∈ hs -> k + ah_rank p.2 <> 0 /\ positive k p.2).
  { intros [i h] Hp. destruct (arm_hits_elem _ _ _ Hp) as (arm & Ha & Hin). by apply (Hok arm). }
  destruct (foldM_add_hit_ok k hs [] (fun p Hp => proj1 (Hh p Hp))) as [agg Hagg].
  destruct (foldM_add_hit k hs agg Hagg) as (Hn & Hk & Hg).
  assert (Hof : forall me, me ∈ agg -> exists f, fused_of me = Ok f /\ fh_message_id f = me.1 /\
                  fused_exact k (hits_of me.1 hs) f).
  { intros [mid e] Hme. pose proof (od_elem_get _ _ _ Hn Hme) as He. rewrite Hg in He.
    unfold entry_of in He. cbn [fst]. assert (hits_of mid hs <> []) by by intros El; rewrite El in He.
    destruct (fused_of_exact k mid (hits_of mid hs)) as (f & Hf & Hm & Hx); [done | |].
    - intros q [_ Hq]%list_elem_of_filter. by apply Hh.
    - exists f. destruct (hits_of mid hs); [done |]. by injection He as <-. }
  destruct (map_res_ok fused_of agg) as (fs & Hfs & HF).
  { intros me Hme. destruct (Hof me Hme) as (f & ? & _). by exists f. }
  assert (Hids : fh_message_id <$> fs = agg.*1).
  { assert (Hall : Forall (fun me => exists f, fused_of me = Ok f /\ fh_message_id f = me.1) agg)
      by (apply Forall_forall; intros me Hme; destruct (Hof me Hme) as (f & ? & ? & _); by exists f).
    clear -HF Hall. induction HF as [| me f l fs Hf _ IH]; [done |]. apply Forall_cons in Hall as [(g & Hg & Hm) Hall].
    cbn. rewrite IH by done. congruence. }
  assert (Hfin : forall f, f ∈ fs -> fused_exact k (hits_of (fh_message_id f) hs) f).
  { intros f Hf. apply list_elem_of_lookup in Hf as [i Hi].
    destruct (Forall2_lookup_r _ _ _ _ _ HF Hi) as (me & Hme & Hfm).
    destruct (Hof me) as (g & Hg' & Hm & He); [by eapply list_elem_of_lookup_2 |]. congruence. }
  exists (py_sorted fused_before fs). unfold rrf_fuse. fold hs. rewrite Hagg, Hfs.
  assert (Hp : py_sorted fused_before fs ≡ₚ fs) by apply py_sorted_Permutation.
  split_and!; [done | by rewrite Hp, Hids | | |].
  - intros mid. rewrite Hp, Hids, Hk. unfold hits_of. split.
    + intros (p & Hp' & <-) E. assert (p ∈ hits_of (ah_message_id p.2) hs) as Hin by by apply list_elem_of_filter.
      unfold hits_of in Hin. rewrite E in Hin. by apply elem_of_nil in Hin.
    + intros Hne. destruct (filter _ hs) as [| p l] eqn:E; [done |]. exists p.
      assert (Hin : p ∈ filter (fun p => ah_message_id p.2 = mid) hs) by (rewrite E; left).
      by apply list_elem_of_filter in Hin as [? ?].
  - intros f. rewrite Hp. apply Hfin.
  - apply (desc_strict fused_before (fun f => is_nan (fh_rrf_score f) = false) fused_code fused_before_code).
    + intros x y Hx Hy Hc. rewrite <- Hids in Hn. unfold fused_code in Hc.
      apply app_inj_2 in Hc as [_ [= Hid]]; [| done].
      apply list_elem_of_lookup in Hx as [i Hx], Hy as [j Hy].
      assert (i = j) as <-; [| congruence].
      eapply (NoDup_lookup _ i j (fh_message_id x) Hn); rewrite list_lookup_fmap, ?Hx, ?Hy; cbn; congruence.
    + apply (NoDup_fmap_1 fh_message_id). by rewrite Hids.
    + apply Forall_forall. intros f Hf. destruct (Hfin f Hf) as [-> _]. apply nonneg_not_nan, rrf_score_nonneg.
      intros p [_ Hp']%list_elem_of_filter. by apply Hh.
Qed.

(** The default [rrf_k] and every rank an arm can give. *)
Lemma default_ranks_positive h : 1 <= ah_rank h <= 800 -> 60 + ah_rank h <> 0 /\ positive 60 h.
Proof.
  intros Hr. split; [lia |].
  assert (Hall : forallb (fun r => flt fzero (fdiv fone (float_of_int (60 + Z.of_nat r)))) (seq 1 800) = true)
    by by vm_compute.
  rewrite forallb_forall in Hall. unfold positive, contribution.
  specialize (Hall (Z.to_nat (ah_rank h))). rewrite Z2Nat.id in Hall by lia.
  apply Hall, in_seq. lia.
Qed.
Definition sample_arms : list (list ArmHit) :=
  [ [MkArmHit 7 None TMessage fone 1; MkArmHit 4 None TMessage fone 2];
    [MkArmHit 4 (Some 40) TMessageChunks fone 1; MkArmHit 9 (Some 90) TMessageChunks fone 2] ].
Lemma rrf_fuse_exact_witness :
  (exists out, rrf_fuse sample_arms 60 = Ok out /\ NoDup (fh_message_id <$> out) /\
    (forall mid, mid ∈ fh_message_id <$> out <-> hits_of mid (arm_hits sample_arms) <> []) /\
    (forall f, f ∈ out -> fused_exact 60 (hits_of (fh_message_id f) (arm_hits sample_arms)) f) /\
    StronglySorted (fun a b => fused_before a b = true) out) /\
  (fun out : list FusedHit => map (fun f => (fh_message_id f, fh_best_chunk_id f)) out) <$> rrf_fuse sample_arms 60
    = Ok [(4, Some 40); (7, None); (9, Some 90)].
Proof.
  split; [| by vm_compute]. apply (rrf_fuse_exact sample_arms 60).
  intros arm h Ha Hh. apply default_ranks_positive.
  assert (Hall : Forall (Forall (fun h => 1 <= ah_rank h <= 800)) sample_arms)
    by (unfold sample_arms; repeat constructor; cbn; lia).
  rewrite Forall_forall in Hall. specialize (Hall arm Ha). rewrite Forall_forall in Hall. by apply Hall.
Defined.

(** ** The relevance order *)
Definition key_code (key : float * (Z * Z) * Z) : list Z :=
  let '(s, (hd, w), i) := key in fcode s ++ [hd; w; i].
Definition key_nan (key : float * (Z * Z) * Z) : bool := is_nan key.1.1.

Lemma key_lt_code a b : key_nan a = false -> key_nan b = false ->
  key_lt a b = bool_decide (lexc (key_code a) (key_code b) = Lt).
Proof.
  destruct a as [[sa [ha wa]] ia], b as [[sb [hb wb]] ib]. unfold key_nan. cbn [fst]. intros Ha Hb.
  unfold key_lt, key_code. rewrite feq_code, flt_code by done. rewrite lexc_app by by rewrite !fcode_length.
  destruct (lexc (fcode sa) (fcode sb)); cbn [lexc]; try done.
  rewrite (bool_decide_eq_true_2 (Eq = Eq)) by done. unfold date_lt. cbn [fst snd].
  case_bool_decide as Hd.
  - injection Hd as -> ->. rewrite !Z.compare_refl.
    destruct (Z.ltb_spec ia ib), (Z.compare_spec ia ib); try lia; done.
  - destruct (Z.eqb_spec ha hb) as [-> | Hh].
    + rewrite Z.compare_refl. destruct (Z.ltb_spec wa wb), (Z.compare_spec wa wb); subst; try lia; done.
    + destruct (Z.ltb_spec ha hb), (Z.compare_spec ha hb); try lia; done.
Qed.

Lemma key_before_code {A} (key : A -> float * (Z * Z) * Z) a b :
  key_nan (key a) = false -> key_nan (key b) = false ->
  key_before key a b = bool_decide (lexc (key_code (key a)) (key_code (key b)) = Gt).
Proof.
  intros Ha Hb. unfold key_before. rewrite key_lt_code by done.
  rewrite (lexc_antisym (key_code (key a))). by destruct (lexc _ _).
Qed.

(** ** Scores the reranker could not give *)

(** The one double nothing finite lies below. *)
Definition lowest_double : float := S754_finite true MAX_MANTISSA MAX_EXP.

Lemma py_min_spec u us : (forall x, x ∈ u :: us -> is_nan x = false) ->
  py_min u us ∈ u :: us /\ forall x, x ∈ u :: us -> flt x (py_min u us) = false.
Proof.
  unfold py_min. revert u. induction us as [| v us IH]; intros u Hn; cbn [fold_left].
  - split; [left |]. intros x ->%list_elem_of_singleton. apply flt_irrefl.
  - destruct (flt v u) eqn:E.
    + destruct (IH v) as [Hin Hle]; [set_solver |]. split; [set_solver |].
      intros x [-> | Hx]%elem_of_cons; [| auto].
      apply (fle_trans _ v); [apply Hn; by right | apply Hn; set_solver | apply Hn; left | apply Hle; left |].
      apply flt_asym; [apply Hn; set_solver | apply Hn; set_solver | done].
    + destruct (IH u) as [Hin Hle]; [set_solver |]. split; [set_solver |].
      intros x [-> | [-> | Hx]%elem_of_cons]%elem_of_cons; [apply Hle; left | | apply Hle; set_solver].
      apply (fle_trans _ u); [| apply Hn; set_solver | apply Hn; set_solver | apply Hle; left | done].
      apply Hn. apply elem_of_cons in Hin as [-> | Hin]; set_solver.
Qed.

Lemma next_down_stuck f : is_finite f = true -> is_finite (next_down f) = false -> f = lowest_double.
Proof.
  destruct f as [| | | [] m e]; try done; intros _; cbn [next_down].
  - destruct (Pos.eqb_spec m MAX_MANTISSA) as [-> |]; [| done].
    destruct (Z.eqb_spec e MAX_EXP) as [-> |]; done.
  - destruct (Pos.eqb m 1); [done |]. by destruct (_ && _).
Qed.

(** A row the reranker could not score ranks below every row it could.
    [finite_scores] keeps each finite score where it was and gives every other
    row one finite value strictly below all of them; only when no score is
    finite, or the lowest double is among them, does the whole batch fall back
    to the fused scores; the list keeps its length, and nothing non-finite
    enters the sort key unless the fallback itself brings it. *)
Lemma unusable_scores_rank_last (scores fallback : list float) :
  length scores = length fallback ->
  exists r, finite_scores scores fallback = Ok r /\ length (fs_scores r) = length scores /\
    ((fs_scores r = fallback /\
        (Forall (fun s => is_finite s = false) scores \/ lowest_double ∈ scores)) \/
     (Forall (fun s => is_finite s = true) (fs_scores r) /\
      (forall i s, scores !! i = Some s -> is_finite s = true -> fs_scores r !! i = Some s) /\
      (forall i j s t ri, scores !! i = Some s -> is_finite s = false ->
         scores !! j = Some t -> is_finite t = true ->
         fs_scores r !! i = Some ri -> flt ri t = true))).
Proof.
  intros Hl. unfold finite_scores. rewrite (proj2 (Nat.eqb_eq _ _) Hl). cbn [negb].
  set (usable := filter (fun s => is_finite s = true) scores).
  assert (Hu : forall x, x ∈ usable <-> is_finite x = true /\ x ∈ scores)
    by (intros x; unfold usable; by rewrite list_elem_of_filter).
  destruct usable as [| u us] eqn:Eu.
  { eexists. split; [done |]. split; [by symmetry |]. left. split; [done |]. left.
    apply Forall_forall. intros s Hs. apply not_true_is_false. intros Hf.
    by apply (elem_of_nil s), Hu. }
  assert (Hnan : forall x, x ∈ u :: us -> is_nan x = false)
    by (intros x Hx; apply finite_not_nan; by apply Hu).
  destruct (py_min_spec u us Hnan) as [Hin Hle]. set (m := py_min u us) in *.
  destruct (is_finite (next_down m)) eqn:Ef; cbn [negb].
  - eexists. split; [done |]. cbn [fs_scores]. split; [by rewrite length_map |]. right. split_and!.
    + apply Forall_fmap, Forall_forall. intros s _. cbn. by destruct (is_finite s) eqn:E.
    + intros i s Hi Hf. change (map ?f scores) with (f <$> scores). rewrite list_lookup_fmap, Hi. cbn. by rewrite Hf.
    + intros i j s t ri Hi Hf Hj Ht. change (map ?f scores) with (f <$> scores).
      rewrite list_lookup_fmap, Hi. cbn. rewrite Hf. intros [= <-].
      assert (Htu : t ∈ u :: us) by (apply Hu; split; [done | by eapply list_elem_of_lookup_2]).
      apply (flt_le_trans _ m); [by apply finite_not_nan | by apply Hnan | by apply Hnan | | by apply Hle].
      apply next_down_lt; [done | by apply Hnan |]. intros E. rewrite E in Hin.
      by apply Hu in Hin as [? _].
  - eexists. split; [done |]. split; [by symmetry |]. left. split; [done |]. right.
    apply Hu in Hin as [Hmf Hms]. by rewrite <- (next_down_stuck m).
Qed.
