(* ===== verification/PageCache.v ===== *)
(** * The page cache and the rewrite cache ([search/page_cache.py],
    [search/rewrite_cache.py])

    Both keep an [OrderedDict] of stamped values, oldest use first, bounded in
    size and in age.  [lru_spec] is what such a cache promises; the theorem at
    the end of [Page_cache] says the code implements it. *)
From S2P Require Import Prelude PyStr Errors Odict.

(** ** [PageCache] *)
Module Page_cache.
Section cache.
Context {V : Type}.

(** [_maxsize] and [_ttl]; the clock is an argument of each call. *)
Record cache_config := CacheConfig { maxsize : Z; ttl : Z }.
Definition cache := list (pystr * (Z * V)).

(** What a caller hands to [put]: a value of [value_type], or anything else. *)
Inductive pyvalue := Instance_ (v : V) | Foreign.

Definition put (cfg : cache_config) (now : Z) (key : pystr) (value : pyvalue) (d : cache) :
    cache * res exn () :=
  match value with
  | Foreign => (d, Err TypeError)
  | Instance_ v =>
      let d := if od_get key d then od_move_to_end key d else d in
      od_shrink (maxsize cfg) (od_set key (now, v) d)
  end.

Definition get (cfg : cache_config) (now : Z) (key : pystr) (d : cache) : cache * res exn V :=
  match od_get key d with
  | None => (d, Err CacheMissError)
  | Some (stamp, v) =>
      if ttl cfg <? now - stamp then (od_del key d, Err CacheMissError)
      else (od_move_to_end key d, Ok v)
  end.

Definition invalidate (key : pystr) (d : cache) : cache := od_del key d.

(** *** The contract: a bounded map that forgets by age and by least recent use *)
Record slot := Slot { sl_stamp : Z; sl_value : V; sl_used : nat }.
Record lru_spec := LruSpec { sp_tick : nat; sp_slots : gmap pystr slot }.

Inductive op := Put (now : Z) (key : pystr) (v : V) | Get (now : Z) (key : pystr) | Invalidate (key : pystr).
Inductive outcome := Done | Found (v : V) | Missed.

Definition least_recent (m : gmap pystr slot) (victim : pystr) : Prop :=
  exists sl, m !! victim = Some sl /\ forall k sl', m !! k = Some sl' -> (sl_used sl <= sl_used sl')%nat.

Inductive spec_step (cfg : cache_config) (s : lru_spec) : op -> outcome -> lru_spec -> Prop :=
  | put_fits now k v m :
      m = <[k := Slot now v (sp_tick s)]> (sp_slots s) -> Z.of_nat (size m) <= maxsize cfg ->
      spec_step cfg s (Put now k v) Done (LruSpec (S (sp_tick s)) m)
  | put_evicts now k v m victim :
      m = <[k := Slot now v (sp_tick s)]> (sp_slots s) -> maxsize cfg < Z.of_nat (size m) ->
      least_recent m victim ->
      spec_step cfg s (Put now k v) Done (LruSpec (S (sp_tick s)) (delete victim m))
  | get_hit now k sl :
      sp_slots s !! k = Some sl -> now - sl_stamp sl <= ttl cfg ->
      spec_step cfg s (Get now k) (Found (sl_value sl))
        (LruSpec (S (sp_tick s)) (<[k := Slot (sl_stamp sl) (sl_value sl) (sp_tick s)]> (sp_slots s)))
  | get_expired now k sl :
      sp_slots s !! k = Some sl -> ttl cfg < now - sl_stamp sl ->
      spec_step cfg s (Get now k) Missed (LruSpec (sp_tick s) (delete k (sp_slots s)))
  | get_absent now k :
      sp_slots s !! k = None -> spec_step cfg s (Get now k) Missed s
  | do_invalidate k :
      spec_step cfg s (Invalidate k) Done (LruSpec (sp_tick s) (delete k (sp_slots s))).

Inductive spec_run (cfg : cache_config) : lru_spec -> list op -> list outcome -> lru_spec -> Prop :=
  | run_nil s : spec_run cfg s [] [] s
  | run_cons s o out s1 ops outs s2 :
      spec_step cfg s o out s1 -> spec_run cfg s1 ops outs s2 ->
      spec_run cfg s (o :: ops) (out :: outs) s2.

(** The code, called by the same operations. *)
Definition exec (cfg : cache_config) (o : op) (d : cache) : cache * res exn outcome :=
  match o with
  | Put now k v => let '(d, r) := put cfg now k (Instance_ v) d in (d, let* _ := r in Ok Done)
  | Get now k => let '(d, r) := get cfg now k d in
      (d, match r with Ok v => Ok (Found v) | Err CacheMissError => Ok Missed | Err e => Err e end)
  | Invalidate k => (invalidate k d, Ok Done)
  end.
Fixpoint exec_all (cfg : cache_config) (ops : list op) (d : cache) : cache * res exn (list outcome) :=
  match ops with
  | [] => (d, Ok [])
  | o :: ops =>
      let '(d, r) := exec cfg o d in
      match r with
      | Err e => (d, Err e)
      | Ok out => let '(d, rs) := exec_all cfg ops d in (d, let* outs := rs in Ok (out :: outs))
      end
  end.

(** *** The simulation: the code's list is the map, by last use *)
Definition erase (e : pystr * slot) : pystr * (Z * V) := prod_map id (fun sl => (sl_stamp sl, sl_value sl)) e.
Definition slot_lt (a b : pystr * slot) : Prop := (sl_used a.2 < sl_used b.2)%nat.

Record ghost (al : list (pystr * slot)) (m : gmap pystr slot) (tick : nat) : Prop := {
  gh_map : m = list_to_map al;
  gh_keys : NoDup al.*1;
  gh_order : StronglySorted slot_lt al;
  gh_fresh : Forall (fun e => (sl_used e.2 < tick)%nat) al;
}.
Definition represents (cfg : cache_config) (d : cache) (s : lru_spec) : Prop :=
  exists al, d = erase <$> al /\ ghost al (sp_slots s) (sp_tick s) /\ Z.of_nat (length al) <= maxsize cfg.

Lemma ghost_get al m tick k : ghost al m tick -> m !! k = od_get k al.
Proof. intros G. rewrite (gh_map _ _ _ G). apply od_to_map. Qed.
Lemma ghost_size al m tick : ghost al m tick -> size m = length al.
Proof. intros G. rewrite (gh_map _ _ _ G). by rewrite map_size_list_to_map by apply G. Qed.

Lemma sorted_del k (al : list (pystr * slot)) : StronglySorted slot_lt al -> StronglySorted slot_lt (od_del k al).
Proof.
  induction 1 as [| e al Hs IH He]; [constructor |]. rewrite od_del_cons. case_decide; [done |].
  constructor; [done |]. rewrite Forall_forall in *. intros x [_ Hx]%list_elem_of_filter. auto.
Qed.
Lemma ghost_del al m tick k : ghost al m tick -> ghost (od_del k al) (delete k m) tick.
Proof.
  intros G. split.
  - apply map_eq. intros k'. rewrite od_to_map, od_get_del. case_decide; subst.
    + by rewrite lookup_delete_eq.
    + rewrite lookup_delete_ne by done. by apply (ghost_get al m tick).
  - apply od_del_nodup, G.
  - apply sorted_del, G.
  - destruct G as [_ _ _ Gf]. rewrite Forall_forall in *. intros x [_ Hx]%list_elem_of_filter. auto.
Qed.
Lemma ghost_touch al m tick k sl :
  ghost al m tick -> sl_used sl = tick ->
  ghost (od_del k al ++ [(k, sl)]) (<[k := sl]> m) (S tick).
Proof.
  intros G Hsl. destruct (ghost_del al m tick k G) as [_ Dk Ds Df]. split.
  - apply map_eq. intros k'. rewrite od_to_map, od_get_snoc. case_decide; subst.
    + by rewrite lookup_insert_eq.
    + rewrite lookup_insert_ne by done. by apply (ghost_get al m (sl_used sl)).
  - apply od_snoc_nodup, G.
  - apply StronglySorted_app_2; [| done | repeat constructor].
    rewrite Forall_forall in Df. intros x y Hx ->%list_elem_of_singleton. unfold slot_lt. cbn.
    rewrite Hsl. auto.
  - rewrite Forall_app, Forall_singleton. split; [| cbn; lia].
    eapply Forall_impl; [exact Df |]. cbn. lia.
Qed.
Lemma ghost_pop e al m tick :
  ghost (e :: al) m tick -> least_recent m e.1 /\ ghost al (delete e.1 m) tick.
Proof.
  intros G. pose proof (ghost_del _ _ _ e.1 G) as D. split.
  - exists e.2. rewrite (ghost_get _ _ _ _ G). destruct e as [k sl]. cbn [od_get fst snd].
    rewrite decide_True by done. split; [done |]. intros k' sl'. rewrite (ghost_get _ _ _ _ G). cbn [od_get].
    case_decide; [by intros [= ->] |]. intros Hk%od_get_elem.
    pose proof (gh_order _ _ _ G) as [_ Ho]%StronglySorted_inv.
    rewrite Forall_forall in Ho. specialize (Ho _ Hk). unfold slot_lt in Ho. cbn in Ho. lia.
  - replace al with (od_del e.1 (e :: al)); [exact D |]. rewrite od_del_cons, decide_True by done.
    apply od_del_absent. destruct (od_get e.1 al) as [x |] eqn:E; [| done].
    apply od_get_elem in E. pose proof (gh_keys _ _ _ G) as [Hn _]%NoDup_cons. exfalso. apply Hn.
    apply list_elem_of_fmap. by exists (e.1, x).
Qed.

Lemma erase_get k al : od_get k (erase <$> al) = (fun sl => (sl_stamp sl, sl_value sl)) <$> od_get k al.
Proof. apply od_get_fmap. Qed.
Lemma erase_del k al : od_del k (erase <$> al) = erase <$> od_del k al.
Proof. apply od_del_fmap. Qed.
Lemma erase_snoc k al now v u :
  od_del k (erase <$> al) ++ [(k, (now, v))] = erase <$> (od_del k al ++ [(k, Slot now v u)]).
Proof. by rewrite fmap_app, erase_del. Qed.

Lemma bound_touch cfg k sl (al : list (pystr * slot)) :
  NoDup al.*1 -> is_Some (od_get k al) -> Z.of_nat (length al) <= maxsize cfg ->
  Z.of_nat (length (od_del k al ++ [(k, sl)])) <= maxsize cfg.
Proof.
  intros Hk [x Hx]. rewrite (od_del_length k al Hk), Hx, length_app. cbn. lia.
Qed.
Lemma bound_del cfg k (al : list (pystr * slot)) :
  NoDup al.*1 -> Z.of_nat (length al) <= maxsize cfg ->
  Z.of_nat (length (od_del k al)) <= maxsize cfg.
Proof. intros Hk. rewrite (od_del_length k al Hk). lia. Qed.

Lemma exec_put cfg now k v d s : 0 <= maxsize cfg -> represents cfg d s ->
  exists d' s', exec cfg (Put now k v) d = (d', Ok Done) /\
    spec_step cfg s (Put now k v) Done s' /\ represents cfg d' s'.
Proof.
  intros Hm (al & -> & G & Hb). cbn [exec put]. rewrite od_put, (erase_snoc _ _ _ _ (sp_tick s)).
  pose proof (ghost_touch al _ _ k (Slot now v (sp_tick s)) G eq_refl) as G'.
  pose proof (ghost_size _ _ _ G') as Hsz. pose proof (od_del_length k al (gh_keys _ _ _ G)) as Hl.
  set (al' := od_del k al ++ _) in *.
  assert (Hl' : length al' = S (length (od_del k al))) by (unfold al'; rewrite length_app; cbn; lia).
  destruct (Z.leb_spec (Z.of_nat (length al')) (maxsize cfg)) as [Hle | Hgt].
  - exists (erase <$> al'). eexists. split; [| split; [eapply put_fits; [done | lia] | by exists al']].
    destruct al' as [| e al']; cbn [od_shrink fmap list_fmap];
      rewrite (proj2 (Z.leb_le _ _)) by (cbn [length] in *; rewrite ?length_fmap; lia); done.
  - destruct al' as [| e al''] eqn:Ea; [done |]. rewrite <- Ea in *.
    rewrite Ea in G'. destruct (ghost_pop e al'' _ _ G') as [Hv Gp].
    exists (erase <$> al''). eexists. split; [| split; [eapply put_evicts; [done | | exact Hv] |]].
    + rewrite Ea. cbn [fmap list_fmap od_shrink length].
      rewrite Ea in Hgt, Hl'. cbn [length] in Hgt, Hl'.
      rewrite (proj2 (Z.leb_gt _ _)) by (rewrite length_fmap; lia).
      assert (Z.of_nat (length (erase <$> al'')) <= maxsize cfg)
        by (rewrite length_fmap; destruct (od_get k al); lia).
      destruct (erase <$> al''); cbn [od_shrink]; by rewrite (proj2 (Z.leb_le _ _)).
    + lia.
    + exists al''. split_and!; [done | exact Gp |].
      rewrite Ea in Hl'. cbn [length] in Hl'. destruct (od_get k al); lia.
Qed.

Lemma exec_get cfg now k d s : represents cfg d s ->
  exists d' out s', exec cfg (Get now k) d = (d', Ok out) /\
    spec_step cfg s (Get now k) out s' /\ represents cfg d' s'.
Proof.
  intros (al & -> & G & Hb). cbn [exec]. unfold get, od_move_to_end. rewrite erase_get.
  pose proof (ghost_get al _ _ k G) as Hk.
  destruct (od_get k al) as [[st v u] |] eqn:E; cbn [fmap option_fmap option_map sl_stamp sl_value] in *.
  - destruct (Z.ltb_spec (ttl cfg) (now - st)).
    + do 3 eexists. split; [done |]. split; [by eapply get_expired; [exact Hk | cbn] |].
      exists (od_del k al). split_and!; [apply erase_del | by apply ghost_del |].
      apply bound_del; [apply G | done].
    + do 3 eexists. split; [done |]. split; [by eapply (get_hit _ _ _ _ _ Hk); cbn; lia |].
      exists (od_del k al ++ [(k, Slot st v (sp_tick s))]). split_and!;
        [apply erase_snoc | by apply ghost_touch |].
      apply bound_touch; [apply G | by rewrite E | done].
  - do 3 eexists. split; [done |]. split; [by apply get_absent | by exists al].
Qed.

Lemma exec_invalidate cfg k d s : represents cfg d s ->
  represents cfg (invalidate k d) (LruSpec (sp_tick s) (delete k (sp_slots s))).
Proof.
  intros (al & -> & G & Hb). exists (od_del k al). split_and!; [apply erase_del | by apply ghost_del |].
  apply bound_del; [apply G | done].
Qed.

Lemma exec_simulates cfg o d s : 0 <= maxsize cfg -> represents cfg d s ->
  exists d' out s', exec cfg o d = (d', Ok out) /\ spec_step cfg s o out s' /\ represents cfg d' s'.
Proof.
  intros Hm R. destruct o as [now k v | now k | k].
  - destruct (exec_put cfg now k v d s Hm R) as (d' & s' & H). by exists d', Done, s'.
  - by apply exec_get.
  - do 3 eexists. split; [done |]. split; [apply do_invalidate | by apply exec_invalidate].
Qed.
Lemma exec_all_simulates cfg ops : 0 <= maxsize cfg -> forall d s, represents cfg d s ->
  exists d' outs s', exec_all cfg ops d = (d', Ok outs) /\ spec_run cfg s ops outs s' /\ represents cfg d' s'.
Proof.
  intros Hm. induction ops as [| o ops IH]; intros d s R.
  - exists d, [], s. repeat split; [constructor | done].
  - destruct (exec_simulates cfg o d s Hm R) as (d1 & out & s1 & E1 & S1 & R1).
    destruct (IH d1 s1 R1) as (d2 & outs & s2 & E2 & S2 & R2).
    exists d2, (out :: outs), s2. cbn [exec_all]. rewrite E1. cbn. rewrite E2.
    split_and!; [done | by econstructor | done].
Qed.

(** C10: the page cache implements a bounded LRU map with expiry.  Whatever
    sequence of calls it serves, no call raises, every answer is one the
    abstract map gives (a hit is the last value put under that key and no
    older than the time to live; a full map gives up its least recently used
    key and nothing else), and it never holds more than [maxsize] values. *)
Theorem page_cache_refines_lru (cfg : cache_config) (ops : list op) :
  0 <= maxsize cfg ->
  exists d outs s, exec_all cfg ops [] = (d, Ok outs) /\
    spec_run cfg (LruSpec 0 empty) ops outs s /\
    (forall k, snd <$> od_get k d = sl_value <$> sp_slots s !! k) /\
    Z.of_nat (length d) <= maxsize cfg.
Proof.
  intros Hm. destruct (exec_all_simulates cfg ops Hm [] (LruSpec 0 empty)) as (d & outs & s & E & S & R).
  { exists []. split_and!; [done | | cbn; lia]. split; try done; constructor. }
  exists d, outs, s. destruct R as (al & -> & G & Hb). split_and!; [done | done | | by rewrite length_fmap].
  intros k. rewrite erase_get, (ghost_get _ _ _ k G). by destruct (od_get k al).
Qed.
End cache.

(** Two slots, ten ticks to live: the second [get] refreshes [k1], so the third
    key displaces [k2]. *)
Definition sample_ops : list (op (V := Z)) :=
  [Put 0 (lit "k1") 1; Put 1 (lit "k2") 2; Get 2 (lit "k1"); Put 3 (lit "k3") 3;
   Get 4 (lit "k2"); Get 5 (lit "k1"); Get 11 (lit "k1")].
Lemma page_cache_refines_lru_witness :
  exists d outs s, exec_all (CacheConfig 2 10) sample_ops [] = (d, Ok outs) /\
    spec_run (CacheConfig 2 10) (LruSpec 0 empty) sample_ops outs s /\
    (forall k, snd <$> od_get k d = sl_value <$> sp_slots s !! k) /\ Z.of_nat (length d) <= 2.
Proof. apply (page_cache_refines_lru (CacheConfig 2 10) sample_ops). cbn. lia. Defined.
Example sample_run :
  (exec_all (CacheConfig 2 10) sample_ops []).2
    = Ok [Done; Done; Found 1; Done; Missed; Found 1; Missed].
Proof. by vm_compute. Qed.
End Page_cache.
