(* ===== verification/BrowseCursor.v ===== *)
(** * The browse cursor codec ([api/browse_cursor.py]) *)
From S2P Require Import Prelude PyStr Base64 Datetime Errors.

(** [BrowseCursor]: [bc_ts = None] is the NULLS-LAST tail. *)
Record browse_cursor (T : Type) := BrowseCursor { bc_ts : option T; bc_id : Z }.
Arguments BrowseCursor {T} bc_ts bc_id.
Arguments bc_ts {T} b.
Arguments bc_id {T} b.

Module Browse_cursor.
Section codec.
Context `{Datetime T}.

Definition BAR : Z := 124.

Definition cursor_payload (cur : browse_cursor T) : pystr :=
  match bc_ts cur with
  | None => lit "n|" ++ str_int (bc_id cur)
  | Some ts => lit "d|" ++ isoformat ts ++ BAR :: str_int (bc_id cur)
  end.
Definition encode_browse_cursor (cur : browse_cursor T) : pystr :=
  b64url_encode (cursor_payload cur).

(** [_parse_nonneg_int]: [int] is called outside any handler, so its
    digit-count refusal escapes as a [ValueError]. *)
Definition parse_nonneg_int (s : pystr) : res exn Z :=
  if negb (isascii_isdigit s) then Err ValidationFailed
  else match py_int s with Some n => Ok n | None => Err ValueError end.

(** The base64 stage: [raw.encode("ascii")], [urlsafe_b64decode] and
    [.decode("ascii")], whose failures are one [ValidationFailed]. *)
Definition decode_body (raw : pystr) : res exn pystr :=
  if negb (isascii raw) then Err ValidationFailed
  else match b64url_decode raw with
       | Some body => if isascii body then Ok body else Err ValidationFailed
       | None => Err ValidationFailed
       end.

Definition decode_browse_cursor (raw : pystr) : res exn (browse_cursor T) :=
  match raw with
  | [] => Err ValidationFailed
  | _ =>
    let* body := decode_body raw in
    match split_on BAR body with
    | [kind; i] =>
        if str_eqb kind (lit "n")
        then let* n := parse_nonneg_int i in Ok (BrowseCursor None n)
        else Err ValidationFailed
    | [kind; t; i] =>
        if str_eqb kind (lit "d") then
          match fromisoformat t with
          | None => Err ValidationFailed
          | Some ts => let* n := parse_nonneg_int i in Ok (BrowseCursor (Some ts) n)
          end
        else Err ValidationFailed
    | _ => Err ValidationFailed
    end
  end.

Definition cursor_valid (cur : browse_cursor T) : Prop :=
  is_bigserial (bc_id cur) /\ (forall ts, bc_ts cur = Some ts -> dt_valid ts = true).

Lemma str_int_no_bar n : 0 <= n -> BAR ∉ str_int n.
Proof. intros Hn Hc. pose proof (str_int_digit n _ Hn Hc). unfold BAR in *. lia. Qed.

Lemma isascii_app a b : isascii (a ++ b) = isascii a && isascii b.
Proof. apply forallb_app. Qed.

Lemma str_int_ascii n : 0 <= n -> isascii (str_int n) = true.
Proof. intros Hn. apply digits_are_ascii. by destruct (str_int_spec n). Qed.

Lemma payload_ascii cur : cursor_valid cur -> isascii (cursor_payload cur) = true.
Proof.
  intros [[Hid _] Hts]. unfold cursor_payload. destruct (bc_ts cur) as [ts |] eqn:E.
  - rewrite !isascii_app. cbn [isascii forallb].
    rewrite (isoformat_ascii ts) by auto. cbn. by apply str_int_ascii.
  - rewrite isascii_app. cbn. by apply str_int_ascii.
Qed.

Lemma ascii_bytes s : isascii s = true -> Forall is_byte s.
Proof.
  intros Hs. apply Forall_forall. intros c Hc%list_elem_of_In.
  unfold isascii in Hs. rewrite forallb_forall in Hs. specialize (Hs c Hc).
  unfold is_ascii_char in Hs. unfold is_byte. zb.
Qed.

Lemma decode_body_encode s : isascii s = true -> decode_body (b64url_encode s) = Ok s.
Proof.
  intros Hs. unfold decode_body.
  rewrite b64url_encode_ascii, b64url_roundtrip by by apply ascii_bytes.
  cbn. by rewrite Hs.
Qed.

Lemma parse_nonneg_int_str n : is_bigserial n -> parse_nonneg_int (str_int n) = Ok n.
Proof.
  intros Hn. unfold parse_nonneg_int.
  destruct (str_int_spec n) as (-> & _); [apply Hn |]. by rewrite py_int_str_int.
Qed.

Lemma b64encode_nonempty bs : Forall is_byte bs -> bs <> [] -> b64url_encode bs <> [].
Proof.
  intros Hb Hne. rewrite b64url_encode_sextets by done.
  by destruct bs as [| a [| b [| c rest]]].
Qed.

Lemma browse_cursor_codec cur :
  cursor_valid cur -> decode_browse_cursor (encode_browse_cursor cur) = Ok cur.
Proof.
  intros Hv. pose proof (payload_ascii cur Hv) as Ha.
  unfold decode_browse_cursor, encode_browse_cursor.
  destruct (b64url_encode (cursor_payload cur)) as [| c r] eqn:E.
  { exfalso. eapply b64encode_nonempty; [by apply ascii_bytes | | exact E].
    unfold cursor_payload. by destruct (bc_ts cur). }
  rewrite <- E, decode_body_encode by done. destruct Hv as [Hid Hts].
  unfold cursor_payload. destruct cur as [[ts |] i]; cbn [bc_ts bc_id] in *.
  - change (lit "d|" ++ isoformat ts ++ BAR :: str_int i)
      with (lit "d" ++ BAR :: isoformat ts ++ BAR :: str_int i).
    rewrite !split_on_app, split_on_nosep; cbn [str_eqb].
    + rewrite isoformat_roundtrip by auto. by rewrite parse_nonneg_int_str.
    + apply str_int_no_bar, Hid.
    + apply isoformat_no_bar. auto.
    + by apply contains_false.
  - change (lit "n|" ++ str_int i) with (lit "n" ++ BAR :: str_int i).
    rewrite split_on_app, split_on_nosep; cbn [str_eqb].
    + by rewrite parse_nonneg_int_str.
    + apply str_int_no_bar, Hid.
    + by apply contains_false.
Qed.
End codec.

(** A wire cursor is refused with the client's error except in one case:
    an id of more than 4300 ASCII digits passes the digit test and then makes
    [int] raise a [ValueError], which no handler maps. *)
Lemma decode_browse_cursor_errors `{Datetime T} (raw : pystr) (e : exn) :
  decode_browse_cursor (T := T) raw = Err e ->
  e = ValidationFailed \/
  (e = ValueError /\ exists b i, decode_body raw = Ok b /\
     last (split_on BAR b) = Some i /\
     isascii_isdigit i = true /\ (INT_MAX_STR_DIGITS < length i)%nat).
Proof.
  assert (Hint : forall i, parse_nonneg_int i = Err e -> e = ValidationFailed \/
            e = ValueError /\ isascii_isdigit i = true /\ (INT_MAX_STR_DIGITS < length i)%nat).
  { intros i. unfold parse_nonneg_int. destruct (isascii_isdigit i) eqn:Ed; cbn.
    - rewrite py_int_digits by done.
      destruct (Nat.ltb_spec INT_MAX_STR_DIGITS (length i)); naive_solver.
    - naive_solver. }
  unfold decode_browse_cursor. destruct raw as [| c r]; [naive_solver |].
  destruct (decode_body (c :: r)) as [b | e'] eqn:Eb.
  2: { unfold decode_body in Eb. repeat case_match; naive_solver. }
  destruct (split_on BAR b) as [| k [| i [| t [|]]]] eqn:Es; try naive_solver.
  - destruct (str_eqb k (lit "n")); [| naive_solver].
    destruct (parse_nonneg_int i) eqn:Ei; intros [= <-].
    destruct (Hint i Ei) as [-> | (-> & ? & ?)]; [by left | right].
    split; [done |]. exists b, i. by rewrite Es.
  - destruct (str_eqb k (lit "d")); [| naive_solver].
    destruct (fromisoformat i); [| naive_solver].
    destruct (parse_nonneg_int t) eqn:Ei; intros [= <-].
    destruct (Hint t Ei) as [-> | (-> & ? & ?)]; [by left | right].
    split; [done |]. exists b, t. by rewrite Es.
Qed.
End Browse_cursor.
