(* ===== verification/Browse.v ===== *)
(** * Message browse ([api/browse.py])

    [GET /v1/messages]: one keyset page of the caller's messages, newest
    first, with the undated tail reached by a second statement. *)
From S2P Require Import Prelude Keyset PyStr Base64 Datetime Errors BrowseCursor.

Record message (T : Type) := Message {
  m_id : Z;
  m_subject : option pystr;
  m_from_addr : option pystr;
  m_from_name : option pystr;
  m_date_sent : option T;
  m_internal_date : option T;
  m_account_id : Z;
}.
Arguments Message {T}. Arguments m_id {T}. Arguments m_subject {T}.
Arguments m_from_addr {T}. Arguments m_from_name {T}. Arguments m_date_sent {T}.
Arguments m_internal_date {T}. Arguments m_account_id {T}.

(** [COALESCE(m.internal_date, m.date_sent)] *)
Definition sort_ts {T} (m : message T) : option T :=
  Sql.coalesce (m_internal_date m) (m_date_sent m).

#[global] Instance message_dated `{Datetime T} : DatedRow (message T) := {
  row_ts m := instant <$> sort_ts m;
  row_id := m_id;
}.

Module Browse.
Import Browse_cursor.
Section browse.
Context `{Datetime T}.

(** The two tables the query reads, and the account names it joins. *)
Record archive := Archive {
  messages : list (message T);
  message_labels : list (Z * Z);   (* message_id, mailbox_id *)
  account_name : Z -> pystr;
}.

Record wire_message := WireMessage {
  w_message_id : pystr;
  w_subject : option pystr;
  w_from : option pystr * option pystr;
  w_date : option pystr;
  w_account : pystr * pystr;
}.
Record browse_page := BrowsePage {
  bp_messages : list wire_message;
  bp_next_cursor : option pystr;
}.

Definition in_folders (ar : archive) (folder_ids : list Z) (m : message T) : bool :=
  existsb (fun '(mid, mbid) => (mid =? m_id m) && bool_decide (mbid ∈ folder_ids))
    (message_labels ar).

(** The account and folder clauses every mode carries. *)
Definition scope_where (ar : archive) (account_ids : list Z)
    (folder_ids : option (list Z)) (m : message T) : Sql.cond :=
  Sql.and (Some (bool_decide (m_account_id m ∈ account_ids)))
    (match folder_ids with
     | Some ((_ :: _) as f) => Some (in_folders ar f m)
     | _ => Some true
     end).

Definition build_where (ar : archive) (account_ids : list Z)
    (folder_ids : option (list Z)) (cursor : option (browse_cursor T))
    (null_tail_only : bool) : res exn (message T -> Sql.cond) :=
  let scope := scope_where ar account_ids folder_ids in
  if null_tail_only then
    match cursor with
    | Some _ => Err ValueError
    | None => Ok (fun m => Sql.and (scope m) (undated_only m))
    end
  else
    match cursor with
    | None => Ok scope
    | Some c =>
        match bc_ts c with
        | None => Ok (fun m => Sql.and (scope m) (behind_undated_desc (bc_id c) m))
        | Some ts =>
            Ok (fun m => Sql.and (scope m) (behind_dated_desc (instant ts) (bc_id c) m))
        end
    end.

Definition fetch_rows (ar : archive) (account_ids : list Z)
    (folder_ids : option (list Z)) (cursor : option (browse_cursor T))
    (limit : nat) (null_tail_only : bool) : res exn (list (message T)) :=
  let* w := build_where ar account_ids folder_ids cursor null_tail_only in
  Ok (select desc_le w limit (messages ar)).

(** [sorted(set(xs))] *)
Definition sorted_set (xs : list Z) : list Z := merge_sort Z.le (remove_dups xs).
Definition intersect_account_ids (allowed : list Z) (requested : option (list Z)) : list Z :=
  match requested with
  | Some ((_ :: _) as r) => sorted_set (filter (fun a => a ∈ r) allowed)
  | _ => allowed
  end.

Definition to_wire (ar : archive) (m : message T) : wire_message :=
  WireMessage (str_int (m_id m)) (m_subject m) (m_from_addr m, m_from_name m)
    (isoformat <$> sort_ts m)
    (str_int (m_account_id m), account_name ar (m_account_id m)).

Definition cursor_of (m : message T) : browse_cursor T :=
  BrowseCursor (sort_ts m) (m_id m).

(** The rows of one page: the keyset query, topped up from the NULL tail
    when a dated cursor comes back short. *)
Definition page_rows (ar : archive) (account_ids : list Z)
    (folder_ids : option (list Z)) (cursor : option (browse_cursor T))
    (fetch_limit : nat) : res exn (list (message T)) :=
  let* rows := fetch_rows ar account_ids folder_ids cursor fetch_limit false in
  let dated := match cursor with
               | Some c => match bc_ts c with Some _ => true | None => false end
               | None => false end in
  if dated && bool_decide (length rows < fetch_limit)%nat then
    let* tail := fetch_rows ar account_ids folder_ids None
                   (fetch_limit - length rows) true in
    Ok (rows ++ tail)
  else Ok rows.

Definition list_messages (ar : archive) (allowed : list Z)
    (account_ids folder_ids : option (list Z)) (limit : nat)
    (cursor : option pystr) : res exn browse_page :=
  match allowed with
  | [] => Ok (BrowsePage [] None)
  | _ =>
    match intersect_account_ids allowed account_ids with
    | [] => Ok (BrowsePage [] None)
    | effective =>
      let* parsed := match cursor with
                     | None => Ok None
                     | Some raw => Some <$> decode_browse_cursor raw
                     end in
      let* rows := page_rows ar effective folder_ids parsed (S limit) in
      let has_more := bool_decide (limit < length rows)%nat in
      let page := take limit rows in
      Ok (BrowsePage (to_wire ar <$> page)
            (if has_more
             then (fun m => encode_browse_cursor (cursor_of m)) <$> last page
             else None))
    end
  end.

(** A client following [next_cursor]. *)
Fixpoint follow (fuel : nat) (fetch : option pystr -> res exn browse_page)
    (cursor : option pystr) : res exn (list (list wire_message)) :=
  match fuel with
  | O => Ok []
  | S fuel =>
      let* p := fetch cursor in
      match bp_next_cursor p with
      | None => Ok [bp_messages p]
      | next => let* rest := follow fuel fetch next in Ok (bp_messages p :: rest)
      end
  end.

(** What the database guarantees of the table. *)
Definition archive_ok (ar : archive) : Prop :=
  unique_ids (messages ar) /\ Forall (fun m => cursor_valid (cursor_of m)) (messages ar).

(** The listing a caller may see: allowed, requested, in the folders. *)
Definition visible (ar : archive) (allowed : list Z)
    (account_ids folder_ids : option (list Z)) : list (message T) :=
  listing desc_le (scope_where ar (intersect_account_ids allowed account_ids) folder_ids)
    (messages ar).

Lemma scope_kept ar ids folders m :
  Sql.kept (scope_where ar ids folders m) =
  bool_decide (m_account_id m ∈ ids) &&
    match folders with Some ((_ :: _) as f) => in_folders ar f m | _ => true end.
Proof. unfold scope_where. rewrite Sql.kept_and. destruct folders as [[]|]; by rewrite !Sql.kept_some. Qed.

Lemma elem_sorted_set x xs : x ∈ sorted_set xs <-> x ∈ xs.
Proof. unfold sorted_set. by rewrite merge_sort_Permutation, elem_of_remove_dups. Qed.

Lemma elem_intersect x allowed requested :
  x ∈ intersect_account_ids allowed requested ->
  x ∈ allowed /\ forall r, requested = Some r -> r <> [] -> x ∈ r.
Proof.
  unfold intersect_account_ids. destruct requested as [[| a r] |].
  - intros Hx. split; [done |]. intros r Hr Hne. congruence.
  - intros [Hr Hx]%elem_sorted_set%list_elem_of_filter. split; [done |].
    by intros ? [= <-] _.
  - intros Hx. by split.
Qed.

Section source.
Context (ar : archive) (ids : list Z) (folders : option (list Z)).
Context (Har : archive_ok ar).

Definition source_fetch (cur : option (browse_cursor T)) (n : nat) : list (message T) :=
  match page_rows ar ids folders cur n with Ok rows => rows | Err _ => [] end.

Lemma page_rows_ok cur n : page_rows ar ids folders cur n = Ok (source_fetch cur n).
Proof.
  unfold source_fetch, page_rows, fetch_rows, build_where.
  destruct cur as [[[ts |] i] |]; cbn; by repeat case_match.
Qed.

Lemma source_behind pre c suf n :
  listing desc_le (scope_where ar ids folders) (messages ar) = pre ++ c :: suf ->
  source_fetch (Some (cursor_of c)) n = take n suf.
Proof.
  intros Hl. destruct Har as [Hids _].
  unfold source_fetch, page_rows, fetch_rows, build_where, cursor_of.
  destruct (sort_ts c) as [ts |] eqn:Hc; cbn [bc_ts bc_id andb].
  - rewrite <- (top_up_complete (scope_where ar ids folders)
       (fun m => Sql.and (scope_where ar ids folders m) (behind_dated_desc (instant ts) (m_id c) m))
       (fun m => Sql.and (scope_where ar ids folders m) (undated_only m))
       (messages ar) pre c suf (instant ts) n);
      [| done | cbn; by rewrite Hc | done | intros; by rewrite Sql.kept_and..].
    cbv zeta. by destruct (bool_decide _).
  - rewrite (select_behind desc_le desc_le_antisym_id (scope_where ar ids folders)
       (messages ar) Hids _ (fun _ => True) n pre c suf); [| | done].
    + by rewrite (filter_all (fun _ => True)) by (by apply Forall_true).
    + intros r. rewrite Sql.kept_and, andb_true_iff.
      change (m_id c) with (row_id c).
      rewrite behind_undated_desc_after by (cbn; by rewrite Hc). tauto.
Qed.

#[global] Program Instance browse_source : KeysetSource (message T) (browse_cursor T) := {|
  ks_full := listing desc_le (scope_where ar ids folders) (messages ar);
  ks_cursor := cursor_of;
  ks_fetch := source_fetch;
|}.
Next Obligation.
  intros n. unfold source_fetch, page_rows, fetch_rows, build_where. cbn.
  by apply select_head.
Qed.
Next Obligation. intros. by eapply source_behind. Qed.

Lemma select_subset (R : relation (message T)) `{!RelDecision R} w n rows :
  select R w n rows ⊆ rows.
Proof.
  intros m Hm. unfold select in Hm.
  apply (subseteq_take n) in Hm. rewrite merge_sort_Permutation in Hm.
  by apply list_elem_of_filter in Hm as [_ ?].
Qed.

Lemma source_fetch_subset cur n : source_fetch cur n ⊆ messages ar.
Proof.
  intros m. unfold source_fetch, page_rows, fetch_rows, build_where.
  destruct cur as [[[ts |] i] |]; cbn.
  2, 3: by intros ?%(select_subset desc_le).
  destruct (bool_decide _); [| by intros ?%(select_subset desc_le)].
  by intros [?%(select_subset desc_le) | ?%(select_subset desc_le)]%elem_of_app.
Qed.

(** Every row a page is built from satisfies the scope, whatever the
    cursor says. *)
Lemma source_fetch_scope cur n m :
  m ∈ source_fetch cur n -> Sql.kept (scope_where ar ids folders m) = true.
Proof.
  assert (Hsel : forall w k, m ∈ select desc_le w k (messages ar) -> Sql.kept (w m) = true).
  { intros w k Hm. unfold select in Hm. apply (subseteq_take k) in Hm.
    rewrite merge_sort_Permutation in Hm. by apply list_elem_of_filter in Hm as [? _]. }
  unfold source_fetch, page_rows, fetch_rows, build_where.
  destruct cur as [[[ts |] i] |]; cbn.
  - destruct (bool_decide _).
    + intros [Hm%Hsel | Hm%Hsel]%elem_of_app; rewrite Sql.kept_and in Hm; by zb_simpl.
    + intros Hm%Hsel. rewrite Sql.kept_and in Hm. by zb_simpl.
  - intros Hm%Hsel. rewrite Sql.kept_and in Hm. by zb_simpl.
  - by intros Hm%Hsel.
Qed.

End source.

(** [list_messages] on a well-formed cursor is the generic keyset page. *)
Lemma list_messages_page ar allowed account_ids folder_ids limit cur :
  archive_ok ar -> intersect_account_ids allowed account_ids <> [] ->
  (forall c, cur = Some c -> cursor_valid c) ->
  let ids := intersect_account_ids allowed account_ids in
  forall Har : archive_ok ar,
  list_messages ar allowed account_ids folder_ids limit (encode_browse_cursor (T := T) <$> cur) =
  Ok (BrowsePage (to_wire ar <$> (page (H := browse_source ar ids folder_ids Har) limit cur).1)
        (encode_browse_cursor (T := T) <$> (page (H := browse_source ar ids folder_ids Har) limit cur).2)).
Proof.
  intros _ Hne Hcur ids Har. unfold list_messages. fold ids in Hne |- *.
  destruct allowed as [| a0 allowed']; [exfalso; by apply Hne; unfold ids; destruct account_ids as [[]|] |].
  destruct ids as [| i0 ids'] eqn:Eids; [done |]. rewrite <- Eids.
  assert ((match encode_browse_cursor (T := T) <$> cur with
           | None => Ok None | Some raw => Some <$> decode_browse_cursor raw end)
          = Ok cur) as ->.
  { destruct cur as [c |]; [| done]. cbn [fmap option_fmap option_map].
    by rewrite browse_cursor_codec by auto. }
  rewrite page_rows_ok. unfold page. cbn [ks_fetch browse_source fst snd].
  destruct (bool_decide _); [| done]. by rewrite <- option_fmap_compose.
Qed.

Lemma next_cursor_valid ar ids folders (Har : archive_ok ar) limit cur c :
  (page (H := browse_source ar ids folders Har) limit cur).2 = Some c -> cursor_valid c.
Proof.
  unfold page. cbn [ks_fetch ks_cursor browse_source snd].
  destruct (bool_decide _); [| done]. intros (m & Hm & ->)%fmap_Some.
  apply last_Some_elem_of, subseteq_take, source_fetch_subset in Hm.
  destruct Har as [_ Hall]. rewrite Forall_forall in Hall. auto.
Qed.

Lemma follow_walk ar allowed account_ids folder_ids limit fuel cur (Har : archive_ok ar) :
  intersect_account_ids allowed account_ids <> [] ->
  (forall c, cur = Some c -> cursor_valid c) ->
  follow fuel (list_messages ar allowed account_ids folder_ids limit)
    (encode_browse_cursor (T := T) <$> cur) =
  Ok (map (map (to_wire ar))
      (walk (H := browse_source ar (intersect_account_ids allowed account_ids) folder_ids Har)
        limit fuel cur)).
Proof.
  intros Hne. revert cur. induction fuel as [| fuel IH]; intros cur Hcur; [done |].
  cbn [follow walk].
  rewrite (list_messages_page _ _ _ _ _ _ Har Hne Hcur Har).
  destruct (page limit cur) as [rows next] eqn:Ep. cbn [fst snd bp_next_cursor bp_messages].
  destruct next as [c |]; cbn [fmap option_fmap option_map]; [| done].
  change (Some (encode_browse_cursor c)) with (encode_browse_cursor (T := T) <$> Some c).
  rewrite IH; [done |]. intros c' [= <-].
  eapply (next_cursor_valid _ _ _ Har limit cur). by rewrite Ep.
Qed.
End browse.

(** C8: a client that follows [next_cursor] from the first page gets every
    message it may see exactly once, in [COALESCE(internal_date, date_sent)
    DESC NULLS LAST, id DESC] order: no row is repeated or skipped at a page
    boundary, nor where the dated block meets the undated one. *)
Theorem browse_walk_complete `{Datetime T} (ar : archive (T := T))
    allowed account_ids folder_ids limit fuel :
  archive_ok ar -> (0 < limit)%nat ->
  intersect_account_ids allowed account_ids <> [] ->
  (length (messages ar) < fuel)%nat ->
  exists pages,
    follow fuel (list_messages ar allowed account_ids folder_ids limit) None = Ok pages /\
    concat pages = to_wire ar <$> visible ar allowed account_ids folder_ids.
Proof.
  intros Har Hlim Hne Hfuel.
  pose proof (follow_walk ar allowed account_ids folder_ids limit fuel None Har Hne) as Hf.
  cbn [fmap option_fmap option_map] in Hf. rewrite Hf by done. eexists. split; [done |].
  transitivity (to_wire ar <$> concat (walk (H :=
    browse_source ar (intersect_account_ids allowed account_ids) folder_ids Har) limit fuel None));
    [symmetry; apply List.concat_map |].
  f_equal. apply (walk_complete (H := browse_source _ _ _ Har)); [done |].
  cbn. unfold listing. rewrite merge_sort_Permutation.
  eapply Nat.le_lt_trans; [apply length_filter | done].
Qed.

(** Two accounts, one of them granted; dated and undated mail in both. *)
Definition sample_dt (d : Z) : Calendar.datetime := Calendar.DT 2026 9 d 12 0 0 0 (Some 600).
Definition sample_archive : archive (T := Calendar.datetime) := Archive
  [Message 1 None None None (Some (sample_dt 4)) None 7;
   Message 2 None None None (Some (sample_dt 9)) (Some (sample_dt 5)) 7;
   Message 3 None None None None None 7;
   Message 4 None None None None (Some (sample_dt 5)) 8;
   Message 5 None None None None None 7;
   Message 6 None None None (Some (sample_dt 5)) None 7]
  [(1, 40); (3, 41)] (fun _ => lit "work").

Lemma sample_archive_ok : archive_ok sample_archive.
Proof.
  split.
  - apply (bool_decide_unpack _). by vm_compute.
  - repeat constructor; cbn; try done; by intros ts [= <-].
Qed.

Lemma browse_walk_complete_witness :
  (exists pages,
    follow 9 (list_messages sample_archive [7] None None 2) None = Ok pages /\
    concat pages = to_wire sample_archive <$> visible sample_archive [7] None None) /\
  (m_id <$> visible sample_archive [7] None None) = [6; 2; 1; 5; 3].
Proof.
  split; [| vm_compute; reflexivity].
  apply (browse_walk_complete sample_archive [7] None None 2 9 sample_archive_ok);
    cbn; [lia | discriminate | lia].
Defined.

(** The account ACL is a hard bound: whatever cursor is presented, forged
    ones included, every message of an answered page belongs to an allowed
    account, to the requested accounts and folders when those are stated,
    and the page holds at most [limit] messages. *)
Lemma browse_acl_bound `{Datetime T} (ar : archive (T := T))
    allowed account_ids folder_ids limit cursor p w :
  list_messages ar allowed account_ids folder_ids limit cursor = Ok p ->
  w ∈ bp_messages p ->
  (length (bp_messages p) <= limit)%nat /\
  exists m, m ∈ messages ar /\ w = to_wire ar m /\ m_account_id m ∈ allowed /\
    (forall r, account_ids = Some r -> r <> [] -> m_account_id m ∈ r) /\
    (forall f, folder_ids = Some f -> f <> [] -> in_folders ar f m = true).
Proof.
  unfold list_messages. destruct allowed as [| a0 al] eqn:Eal.
  { intros [= <-] Hw. by apply elem_of_nil in Hw. }
  rewrite <- Eal. set (ids := intersect_account_ids allowed account_ids).
  destruct ids as [| i0 ids'] eqn:Eids; [intros [= <-] Hw; by apply elem_of_nil in Hw |].
  rewrite <- Eids.
  destruct (match cursor with None => _ | Some raw => _ end) as [cur |]; [| done].
  rewrite page_rows_ok. intros [= <-] Hw. cbn [bp_messages] in *. split.
  { rewrite length_fmap, length_take. lia. }
  apply list_elem_of_fmap in Hw as (m & -> & Hm%subseteq_take). exists m.
  pose proof (source_fetch_scope ar ids folder_ids cur _ m Hm) as Hs.
  rewrite scope_kept, andb_true_iff, bool_decide_eq_true in Hs. destruct Hs as [Hacc Hf].
  apply elem_intersect in Hacc as [Hal Hreq].
  repeat split; [by eapply source_fetch_subset | done | done |].
  intros f -> Hne. by destruct f.
Qed.
End Browse.
