(* ===== verification/Query.v ===== *)
(** * The search query language ([search/query.py]), the ways a result is ordered
    ([search/sort_axes.py]) and the walks a cursor continues ([search/keyset_walk.py])

    The tokenizer, the operators and the two projections of the free text.
    Python's full-Unicode [str.lower], [str.isalnum] and decimal digits are an
    interface ([PyUnicode]) with the laws that fix them on ASCII. *)
From S2P Require Import Prelude PyStr Datetime.

Class PyUnicode := {
  lower : pystr -> pystr;
  isalnum_char : Z -> bool;
  digit_value : Z -> option Z;             (* \d of [re], and its value *)
  lower_ascii : forall s, isascii s = true -> lower s = ascii_lower s;
  lower_ascii_prefix : forall a s, isascii a = true -> exists t, lower (a ++ s) = ascii_lower a ++ t;
  digit_value_ascii : forall c, is_ascii_char c = true ->
    digit_value c = if is_digit_char c then Some (c - 48) else None;
}.

Inductive query_error := QueryParseError.

(** [SearchFilters]; a date is its year, month and day. *)
Record SearchFilters := MkFilters {
  account_names : list pystr;
  accounts : option (list Z);
  account_ids : option (list Z);
  folders : option (list pystr);
  folder_ids : option (list Z);
  from_substr : option pystr;
  to_substr : option pystr;
  subject_substr : option pystr;
  after : option (Z * Z * Z);
  before : option (Z * Z * Z);
  has_attachment : option bool;
  label : option pystr;
  languages : option (list pystr);
  attachment_name_substr : option pystr;
}.
Record ParsedQuery := MkParsed {
  free_text : pystr;
  rewritten_text : option pystr;
  expansion_terms : list pystr;
  filters : SearchFilters;
}.

Module Query.
Definition QUOTE : Z := 34.
Definition COLON : Z := 58.
Definition DASH : Z := 45.

(** [_tokenize]: [buf] and [raw] are the token being read, without and with
    its quotes. *)
Definition flush (buf raw : pystr) (rest : list (pystr * pystr)) : list (pystr * pystr) :=
  match buf with [] => rest | _ => (buf, raw) :: rest end.
Fixpoint tokenize_from (s : pystr) (buf raw : pystr) (quoted : bool) : list (pystr * pystr) :=
  match s with
  | [] => flush buf raw []
  | ch :: s =>
      if quoted then
        if ch =? QUOTE then tokenize_from s buf (raw ++ [ch]) false
        else tokenize_from s (buf ++ [ch]) (raw ++ [ch]) true
      else if ch =? QUOTE then tokenize_from s buf (raw ++ [ch]) true
      else if is_space_char ch then flush buf raw (tokenize_from s [] [] false)
      else tokenize_from s (buf ++ [ch]) (raw ++ [ch]) false
  end.
Definition tokenize (s : pystr) : list (pystr * pystr) := tokenize_from s [] [] false.

(** [quoted_filter_value] *)
Definition clean_value (v : pystr) : pystr :=
  map (fun c => if (c =? 10) || (c =? 13) then 32 else c) (filter (fun c => c <> QUOTE) v).
Definition quoted_filter_value (v : pystr) : option pystr :=
  match clean_value v with
  | [] => None
  | s => Some (QUOTE :: s ++ [QUOTE])
  end.

Section parse.
Context `{PyUnicode}.

Definition is_or (raw : pystr) : bool := str_eqb (lower raw) (lit "or").
Definition is_exclusion (raw : pystr) : bool :=
  startswith raw (lit "-") && negb (startswith raw (lit "--")).

Definition semantic_text (free : pystr) : pystr :=
  join (lit " ") (omap (fun '(text, raw) =>
    if negb (str_eqb text []) && negb (is_or raw) && negb (is_exclusion raw)
    then Some text else None) (tokenize free)).

Definition nth_is_or (raws : list pystr) (i : nat) : bool :=
  match raws !! i with Some r => is_or r | None => false end.
Definition excluded_text (free : pystr) : pystr :=
  let tokens := tokenize free in
  let raws := map snd tokens in
  join (lit " ") (omap (fun '(i, (text, raw)) =>
    if is_exclusion raw && existsb isalnum_char text &&
       negb ((0 <? i)%nat && nth_is_or raws (i - 1)) && negb (nth_is_or raws (i + 1))
    then Some raw else None) (imap pair tokens)).

Definition OPERATORS : list pystr :=
  [lit "from"; lit "to"; lit "subject"; lit "after"; lit "before"; lit "has"; lit "label";
   lit "account"; lit "folder"; lit "account_id"; lit "folder_id"; lit "lang";
   lit "attachment_name"].
Definition FIXED_SHAPE_OPERATORS : list pystr :=
  [lit "after"; lit "before"; lit "has"; lit "account_id"; lit "folder_id"].

Definition parse_id (value : pystr) : res query_error Z :=
  if isascii_isdigit value then
    match py_int value with Some n => Ok n | None => Err QueryParseError end
  else Err QueryParseError.

(** [datetime.strptime(value, "%Y-%m-%d")]: four decimal digits, then the
    month [1[0-2]|0[1-9]|[1-9]] and the day
    [3[0-1]|[1-2]\d|0[1-9]|[1-9]| [1-9]], nothing left over, and a day the
    month has. *)
Definition nonzero (c : Z) : bool := (49 <=? c) && (c <=? 57).
Definition read_month (s : pystr) : option (Z * pystr) :=
  match s with
  | 49 :: c :: r => if (48 <=? c) && (c <=? 50) then Some (10 + (c - 48), r) else Some (1, c :: r)
  | 48 :: c :: r => if nonzero c then Some (c - 48, r) else None
  | c :: r => if nonzero c then Some (c - 48, r) else None
  | [] => None
  end.
Definition read_day (s : pystr) : option (Z * pystr) :=
  match s with
  | 51 :: c :: r => if (48 <=? c) && (c <=? 49) then Some (30 + (c - 48), r) else Some (3, c :: r)
  | 48 :: c :: r => if nonzero c then Some (c - 48, r) else None
  | 32 :: c :: r => if nonzero c then Some (c - 48, r) else None
  | d :: r =>
      if (d =? 49) || (d =? 50) then
        match r with
        | c :: r' => match digit_value c with
                     | Some v => Some ((d - 48) * 10 + v, r')
                     | None => Some (d - 48, r)
                     end
        | [] => Some (d - 48, [])
        end
      else if nonzero d then Some (d - 48, r) else None
  | [] => None
  end.
Definition read_year (s : pystr) : option (Z * pystr) :=
  match s with
  | a :: b :: c :: d :: r =>
      match digit_value a, digit_value b, digit_value c, digit_value d with
      | Some a, Some b, Some c, Some d => Some (((a * 10 + b) * 10 + c) * 10 + d, r)
      | _, _, _, _ => None
      end
  | _ => None
  end.
Definition read_dash (s : pystr) : option pystr :=
  match s with 45 :: r => Some r | _ => None end.
Definition strptime_ymd (s : pystr) : option (Z * Z * Z) :=
  '(y, s) ← read_year s; s ← read_dash s;
  '(m, s) ← read_month s; s ← read_dash s;
  '(d, s) ← read_day s;
  match s with
  | [] => if (1 <=? y) && (d <=? Calendar.days_in_month y m) then Some (y, m, d) else None
  | _ => None
  end.
Definition parse_date (value : pystr) : res query_error (Z * Z * Z) :=
  match strptime_ymd value with Some d => Ok d | None => Err QueryParseError end.

Definition parse_has (value : pystr) (current : option bool) : res query_error bool :=
  let key := lower value in
  let wanted := if str_eqb key (lit "attachment") then Some true
                else if str_eqb key (lit "no-attachment") then Some false else None in
  match wanted with
  | None => Err QueryParseError
  | Some w => if match current with Some c => negb (Bool.eqb c w) | None => false end
              then Err QueryParseError else Ok w
  end.

Definition is_surrogate (c : Z) : bool := (55296 <=? c) && (c <=? 57343).
Definition reject_unstorable (tok : pystr) : res query_error () :=
  if contains 0 tok then Err QueryParseError
  else if existsb is_surrogate tok then Err QueryParseError else Ok ().

(** The accumulators of the loop. *)
Record acc := Acc {
  a_free : list pystr; a_account_names : list pystr; a_folders : list pystr;
  a_account_ids : list Z; a_folder_ids : list Z;
  a_from : option pystr; a_to : option pystr; a_subject : option pystr; a_label : option pystr;
  a_attachment_name : option pystr;
  a_after : option (Z * Z * Z); a_before : option (Z * Z * Z);
  a_has : option bool; a_languages : list pystr;
}.
Definition acc0 : acc := Acc [] [] [] [] [] None None None None None None None None [].

Definition add_free (raw : pystr) (a : acc) : acc :=
  match strip_p (Z.eqb DASH) raw with
  | [] => a
  | _ => Acc (a_free a ++ [raw]) (a_account_names a) (a_folders a) (a_account_ids a)
           (a_folder_ids a) (a_from a) (a_to a) (a_subject a) (a_label a) (a_attachment_name a)
           (a_after a) (a_before a) (a_has a) (a_languages a)
  end.

(** The body of the [op_l in _OPERATORS and value] branch. *)
Definition set_operator (op_l value : pystr) (a : acc) : res query_error acc :=
  let '(Acc fr an fo ai fi from to su la at_ af be ha lg) := a in
  if str_eqb op_l (lit "from") then Ok (Acc fr an fo ai fi (Some value) to su la at_ af be ha lg)
  else if str_eqb op_l (lit "to") then Ok (Acc fr an fo ai fi from (Some value) su la at_ af be ha lg)
  else if str_eqb op_l (lit "subject") then Ok (Acc fr an fo ai fi from to (Some value) la at_ af be ha lg)
  else if str_eqb op_l (lit "label") then Ok (Acc fr an fo ai fi from to su (Some value) at_ af be ha lg)
  else if str_eqb op_l (lit "attachment_name") then Ok (Acc fr an fo ai fi from to su la (Some value) af be ha lg)
  else if str_eqb op_l (lit "account") then Ok (Acc fr (an ++ [value]) fo ai fi from to su la at_ af be ha lg)
  else if str_eqb op_l (lit "folder") then Ok (Acc fr an (fo ++ [value]) ai fi from to su la at_ af be ha lg)
  else if str_eqb op_l (lit "account_id") then
    let* n := parse_id value in Ok (Acc fr an fo (ai ++ [n]) fi from to su la at_ af be ha lg)
  else if str_eqb op_l (lit "folder_id") then
    let* n := parse_id value in Ok (Acc fr an fo ai (fi ++ [n]) from to su la at_ af be ha lg)
  else if str_eqb op_l (lit "after") then
    let* x := parse_date value in Ok (Acc fr an fo ai fi from to su la at_ (Some x) be ha lg)
  else if str_eqb op_l (lit "before") then
    let* x := parse_date value in Ok (Acc fr an fo ai fi from to su la at_ af (Some x) ha lg)
  else if str_eqb op_l (lit "has") then
    let* h := parse_has value ha in Ok (Acc fr an fo ai fi from to su la at_ af be (Some h) lg)
  else Ok a.

Definition add_language (l : pystr) (a : acc) : acc :=
  Acc (a_free a) (a_account_names a) (a_folders a) (a_account_ids a)
    (a_folder_ids a) (a_from a) (a_to a) (a_subject a) (a_label a) (a_attachment_name a)
    (a_after a) (a_before a) (a_has a) (a_languages a ++ [l]).

(** One turn of the loop. *)
Definition read_token (a : acc) (t : pystr * pystr) : res query_error acc :=
  let '(tok, raw) := t in
  let* _ := reject_unstorable tok in
  match partition_at COLON tok with
  | (_, None) => Ok (add_free raw a)
  | (op, Some value) =>
      let op_l := lower op in
      if str_eqb op_l (lit "lang") then
        match lower (strip value) with
        | [] => Err QueryParseError
        | normalized => Ok (add_language normalized a)
        end
      else if bool_decide (op_l ∈ FIXED_SHAPE_OPERATORS) && str_eqb value [] then Err QueryParseError
      else if bool_decide (op_l ∈ OPERATORS) && negb (str_eqb value []) then set_operator op_l value a
      else Ok (add_free raw a)
  end.

Definition or_none {A} (l : list A) : option (list A) := match l with [] => None | _ => Some l end.
Definition finish (a : acc) : ParsedQuery :=
  MkParsed (join (lit " ") (a_free a)) None []
    (MkFilters (a_account_names a) None (or_none (a_account_ids a)) (or_none (a_folders a))
       (or_none (a_folder_ids a)) (a_from a) (a_to a) (a_subject a) (a_after a) (a_before a)
       (a_has a) (a_label a) (or_none (a_languages a)) (a_attachment_name a)).
Definition parse_query (query : pystr) : res query_error ParsedQuery :=
  let* a := foldM read_token acc0 (tokenize query) in Ok (finish a).
End parse.

(** ** The tokenizer *)

Definition plain (c : Z) : Prop := c <> QUOTE /\ is_space_char c = false.

Lemma tokenize_plain k s buf raw : Forall plain k ->
  tokenize_from (k ++ s) buf raw false = tokenize_from s (buf ++ k) (raw ++ k) false.
Proof.
  intros Hk. revert buf raw. induction Hk as [| c k [Hq Hs] _ IH]; intros buf raw.
  - by rewrite !app_nil_r.
  - cbn. rewrite (proj2 (Z.eqb_neq _ _) Hq), Hs, IH. by rewrite <- !app_assoc.
Qed.

Lemma tokenize_quoted v s buf raw : Forall (fun c => c <> QUOTE) v ->
  tokenize_from (v ++ QUOTE :: s) buf raw true =
  tokenize_from s (buf ++ v) (raw ++ v ++ [QUOTE]) false.
Proof.
  intros Hv. revert buf raw. induction Hv as [| c v Hq _ IH]; intros buf raw.
  - cbn. by rewrite !app_nil_r.
  - cbn [app tokenize_from]. rewrite (proj2 (Z.eqb_neq _ _) Hq), IH. by rewrite <- !app_assoc.
Qed.

Lemma clean_value_no_quote v : Forall (fun c => c <> QUOTE) (clean_value v).
Proof.
  apply Forall_forall. intros c Hc. apply list_elem_of_fmap in Hc as (x & -> & Hx).
  apply list_elem_of_filter in Hx as [Hx _]. unfold QUOTE in *. case_ifs; [lia | done].
Qed.

(** A quoted value behind a prefix is one token, whatever it contains and
    whatever follows. *)
Lemma quoted_one_token key v q rest :
  Forall plain key -> quoted_filter_value v = Some q ->
  tokenize (key ++ q ++ 32 :: rest) = (key ++ clean_value v, key ++ q) :: tokenize rest.
Proof.
  intros Hk Hq. unfold quoted_filter_value in Hq.
  destruct (clean_value v) as [| c s] eqn:Ec; [done |]. rewrite <- Ec in *.
  injection Hq as <-. unfold tokenize. rewrite tokenize_plain by done. cbn [app].
  cbn [tokenize_from]. rewrite Z.eqb_refl.
  change ((clean_value v ++ [QUOTE]) ++ 32 :: rest) with
    ((clean_value v ++ [QUOTE]) ++ (32 :: rest)).
  rewrite <- app_assoc. cbn [app].
  rewrite tokenize_quoted by apply clean_value_no_quote.
  cbn [tokenize_from]. change (32 =? QUOTE) with false. change (is_space_char 32) with true.
  cbn iota. unfold flush. rewrite ?app_nil_l.
  destruct (key ++ clean_value v) eqn:E.
  { apply app_nil in E as [_ E]. congruence. }
  f_equal. f_equal. by rewrite <- app_assoc.
Qed.

(** The characters a token keeps: everything but quotes and separators. *)
Definition kept_chars (s : pystr) : pystr :=
  filter (fun c => c <> QUOTE /\ is_space_char c = false) s.

Lemma flush_chars buf raw l :
  kept_chars (concat (map fst (flush buf raw l))) = kept_chars buf ++ kept_chars (concat (map fst l)).
Proof. destruct buf; [done |]. unfold kept_chars. cbn [flush map concat fst]. by rewrite filter_app. Qed.

Lemma tokenize_from_chars s buf raw quoted :
  kept_chars (concat (map fst (tokenize_from s buf raw quoted))) = kept_chars buf ++ kept_chars s.
Proof.
  revert buf raw quoted. induction s as [| c s IH]; intros buf raw quoted; cbn [tokenize_from].
  - by rewrite flush_chars.
  - unfold kept_chars in *.
    assert (Happ : filter (fun c => c <> QUOTE /\ is_space_char c = false) buf ++
        filter (fun c => c <> QUOTE /\ is_space_char c = false) (c :: s) =
      filter (fun c => c <> QUOTE /\ is_space_char c = false) (buf ++ [c]) ++
        filter (fun c => c <> QUOTE /\ is_space_char c = false) s)
      by (by rewrite <- filter_app, <- (filter_app _ (buf ++ [c])), <- app_assoc).
    destruct quoted; destruct (Z.eqb_spec c QUOTE) as [-> | Hq].
    + rewrite IH, (filter_cons_False _ QUOTE) by naive_solver. done.
    + by rewrite IH, <- Happ.
    + rewrite IH, (filter_cons_False _ QUOTE) by naive_solver. done.
    + destruct (is_space_char c) eqn:Es.
      * pose proof (flush_chars buf raw (tokenize_from s [] [] false)) as F.
        unfold kept_chars in F. rewrite F, IH, (filter_cons_False _ c) by (rewrite Es; naive_solver). done.
      * by rewrite IH, <- Happ.
Qed.

Section parse_facts.
Context `{PyUnicode}.

Lemma fold_read_storable l a a' :
  foldM read_token a l = Ok a' -> Forall (fun t => reject_unstorable t.1 = Ok ()) l.
Proof.
  intros Hf. apply (foldM_invariant read_token (fun done _ => Forall (fun t => reject_unstorable t.1 = Ok ()) done)
    l a a'); [constructor | | exact Hf].
  intros done [tok raw] s0 s1 _ Hd Hr. apply Forall_app. split; [done |]. constructor; [| constructor].
  cbn in *. by destruct (reject_unstorable tok) as [[] |].
Qed.

(** A query holding a NUL or a lone surrogate anywhere, in a filter, in a
    phrase or in plain text, is refused; what [parse_query] accepts can be
    stored as UTF-8 text. *)
Lemma accepted_query_is_storable query p :
  parse_query query = Ok p ->
  forall c, c ∈ query -> c <> 0 /\ is_surrogate c = false.
Proof.
  unfold parse_query. destruct (foldM read_token acc0 (tokenize query)) as [a |] eqn:Ef; [| done].
  intros _ c Hc. apply fold_read_storable in Ef. rewrite Forall_forall in Ef.
  destruct (decide (c = QUOTE \/ is_space_char c = true)) as [[-> | Hsp] | Hno]; [done | |].
  { split; [by intros -> |]. unfold is_surrogate. unfold is_space_char in Hsp.
    destruct (55296 <=? c) eqn:E1; [| done]. destruct (c <=? 57343) eqn:E2; [| done]. exfalso.
    zb_simpl. repeat (destruct Hsp as [Hsp | Hsp]; zb_simpl); lia. }
  assert (Hk : c ∈ kept_chars query).
  { apply list_elem_of_filter. split; [| done]. destruct (is_space_char c); naive_solver. }
  pose proof (tokenize_from_chars query [] [] false) as Hchars. cbn [app kept_chars] in Hchars.
  change (kept_chars []) with (@nil Z) in Hchars. rewrite app_nil_l in Hchars.
  rewrite <- Hchars in Hk. apply list_elem_of_filter in Hk as [_ Hk].
  apply list_elem_of_In, in_concat in Hk as (tok & Htok & Hctok).
  apply list_elem_of_In in Htok, Hctok.
  apply list_elem_of_fmap in Htok as ([t raw] & -> & Ht). specialize (Ef _ Ht). cbn in Ef, Hctok.
  unfold reject_unstorable in Ef. destruct (contains 0 t) eqn:E0; [done |].
  destruct (existsb is_surrogate t) eqn:Es; [done |]. split.
  - intros ->. by apply contains_false in E0.
  - destruct (is_surrogate c) eqn:Esc; [| done].
    assert (existsb is_surrogate t = true); [| congruence].
    apply existsb_exists. exists c. by rewrite <- list_elem_of_In.
Qed.

(** ** Composed filters *)

(** The operators whose value is text and of which the last one counts. *)
Inductive text_op := TFrom | TTo | TSubject | TLabel | TAttachmentName.
Definition op_name (o : text_op) : pystr :=
  match o with
  | TFrom => lit "from" | TTo => lit "to" | TSubject => lit "subject" | TLabel => lit "label"
  | TAttachmentName => lit "attachment_name"
  end.
Definition unless_set (x : option pystr) (v : pystr) : option pystr :=
  match x with Some _ => x | None => Some v end.

Definition over (o : text_op) (v : pystr) (a : acc) : acc :=
  let '(Acc fr an fo ai fi from to su la at_ af be ha lg) := a in
  match o with
  | TFrom => Acc fr an fo ai fi (unless_set from v) to su la at_ af be ha lg
  | TTo => Acc fr an fo ai fi from (unless_set to v) su la at_ af be ha lg
  | TSubject => Acc fr an fo ai fi from to (unless_set su v) la at_ af be ha lg
  | TLabel => Acc fr an fo ai fi from to su (unless_set la v) at_ af be ha lg
  | TAttachmentName => Acc fr an fo ai fi from to su la (unless_set at_ v) af be ha lg
  end.
(** The query with the filter [o:v] in front of it. *)
Definition with_text (o : text_op) (v : pystr) (p : ParsedQuery) : ParsedQuery :=
  let '(MkParsed free rw ex (MkFilters an ac ai fo fi from to su af be ha la lg at_)) := p in
  MkParsed free rw ex match o with
  | TFrom => MkFilters an ac ai fo fi (unless_set from v) to su af be ha la lg at_
  | TTo => MkFilters an ac ai fo fi from (unless_set to v) su af be ha la lg at_
  | TSubject => MkFilters an ac ai fo fi from to (unless_set su v) af be ha la lg at_
  | TLabel => MkFilters an ac ai fo fi from to su af be ha (unless_set la v) lg at_
  | TAttachmentName => MkFilters an ac ai fo fi from to su af be ha la lg (unless_set at_ v)
  end.

Lemma finish_over o v a : finish (over o v a) = with_text o v (finish a).
Proof. by destruct a, o. Qed.

Lemma set_operator_over o v op value a :
  set_operator op value (over o v a) = over o v <$> set_operator op value a.
Proof.
  destruct a as [fr an fo ai fi from to su la at_ af be ha lg].
  destruct o; cbn [over set_operator]; unfold set_operator;
    repeat (match goal with
            | |- context [str_eqb op ?l] => destruct (str_eqb op l); [try done |]
            end; try (by destruct (parse_id value)); try (by destruct (parse_date value));
            try (by destruct (parse_has value ha))); done.
Qed.

Lemma read_token_over o v a t :
  read_token (over o v a) t = over o v <$> read_token a t.
Proof.
  destruct t as [tok raw]. unfold read_token.
  assert (Hfree : Ok (add_free raw (over o v a)) = over o v <$> (Ok (add_free raw a) : res query_error acc)).
  { cbn. f_equal. unfold add_free. destruct (strip_p _ raw); [done |]. by destruct a, o. }
  destruct (reject_unstorable tok); [| done].
  destruct (partition_at COLON tok) as [op [value |]]; [| exact Hfree].
  destruct (str_eqb (lower op) (lit "lang")).
  { destruct (lower (strip value)); [done |]. cbn. f_equal. by destruct a, o. }
  destruct (bool_decide _ && str_eqb value []); [done |].
  destruct (bool_decide _ && negb _); [apply set_operator_over | exact Hfree].
Qed.

Lemma foldM_over o v l a :
  foldM read_token (over o v a) l = over o v <$> foldM read_token a l.
Proof.
  revert a. induction l as [| t l IH]; intros a; [done |]. cbn. rewrite read_token_over.
  destruct (read_token a t); cbn; [apply IH | done].
Qed.

Lemma op_name_plain o : Forall plain (op_name o ++ [COLON]).
Proof. destruct o; cbn; repeat constructor; by vm_compute. Qed.

Definition storable (v : pystr) : bool := negb (contains 0 v) && negb (existsb is_surrogate v).

Lemma read_composed o v : storable (op_name o ++ COLON :: v) = true -> v <> [] ->
  forall raw, read_token acc0 (op_name o ++ COLON :: v, raw) = Ok (over o v acc0).
Proof.
  intros Hst Hv raw. unfold read_token, reject_unstorable. unfold storable in Hst.
  apply andb_true_iff in Hst as [H0%negb_true_iff Hs%negb_true_iff]. rewrite H0, Hs.
  rewrite partition_at_app by (destruct o; vm_compute; set_solver).
  assert (Hl : lower (op_name o) = op_name o) by (destruct o; by rewrite lower_ascii).
  rewrite Hl. destruct v as [| c v]; [done |].
  destruct o; reflexivity.
Qed.

(** Composed filters are exact and free-text neutral.  Putting
    [op:"value"] in front of any query adds that filter and nothing else:
    the value reaches the filter whole (less its double quotes, its newlines
    as spaces), it cannot smuggle in an operator or swallow what follows, and
    the rest of the query is read as if it stood alone. *)
Lemma composed_filter_exact o v q rest :
  quoted_filter_value v = Some q -> storable (clean_value v) = true ->
  parse_query (op_name o ++ [COLON] ++ q ++ 32 :: rest) =
    with_text o (clean_value v) <$> parse_query rest.
Proof.
  intros Hq Hst. unfold parse_query.
  rewrite app_assoc, (quoted_one_token (op_name o ++ [COLON]) v q rest) by (done || apply op_name_plain).
  cbn [foldM]. rewrite <- app_assoc. cbn [app].
  rewrite read_composed.
  - rewrite foldM_over. destruct (foldM read_token acc0 (tokenize rest)); cbn; [| done].
    by rewrite finish_over.
  - unfold storable in *. unfold contains in *. rewrite !existsb_app. cbn [existsb].
    apply andb_true_iff in Hst as [H0%negb_true_iff Hs%negb_true_iff].
    rewrite H0, Hs. destruct o; by vm_compute.
  - intros Hc. unfold quoted_filter_value in Hq. by rewrite Hc in Hq.
Qed.
End parse_facts.

(** An instance: ASCII case mapping, ASCII digits. *)
#[local] Instance ascii_unicode : PyUnicode.
Proof.
  refine {| lower := ascii_lower;
            isalnum_char := fun c => is_digit_char c || ((97 <=? lower_char c) && (lower_char c <=? 122));
            digit_value := fun c => if is_digit_char c then Some (c - 48) else None |}; [done | | done].
  intros a s _. exists (ascii_lower s). apply fmap_app.
Defined.

Definition tricky : pystr := lit "x to:eve".
End Query.

(** ** The ordering axes of a search ([search/sort_axes.py], [search/keyset_walk.py])

    [sort] and [sort_order], how an unstated value resolves against the query,
    and which pairs are refused. *)

Inductive sort_mode := SortRank | SortDate.
#[export] Instance sort_mode_eq_dec : EqDecision sort_mode.
Proof. solve_decision. Defined.

(** A [SortOrder] literal, or the string a caller wrongly passes for one. *)
Inductive sort_order := Asc | Desc | OtherOrder (s : pystr).
#[export] Instance sort_order_eq_dec : EqDecision sort_order.
Proof. solve_decision. Defined.

Inductive keyset_walk := WalkText | WalkArchive.
#[export] Instance keyset_walk_eq_dec : EqDecision keyset_walk.
Proof. solve_decision. Defined.

Module Sort_axes.
Definition DEFAULT_SORT : sort_mode := SortRank.
Definition TEXTLESS_SORT : sort_mode := SortDate.
Definition DEFAULT_SORT_ORDER : sort_order := Desc.

Definition walk_for_text (free_text : pystr) : keyset_walk :=
  match strip free_text with [] => WalkArchive | _ => WalkText end.

(** [true] when the cursor cannot continue under this query. *)
Definition keyset_walk_error (cursor_walk : keyset_walk) (free_text : pystr) : bool :=
  bool_decide (cursor_walk = WalkText) && bool_decide (walk_for_text free_text = WalkArchive).

Section sort.
Context `{PyUnicode}.

Definition is_rankable (free_text : pystr) : bool :=
  negb (str_eqb (Query.semantic_text free_text) []).

Definition resolve_sort (requested : option sort_mode) (free_text : pystr) : sort_mode :=
  if negb (is_rankable free_text) then TEXTLESS_SORT else default DEFAULT_SORT requested.

Definition sort_applicability_error (requested : option sort_mode) (free_text : pystr) : bool :=
  match requested with
  | None => false
  | Some s =>
      if is_rankable free_text then false
      else negb (bool_decide (s = TEXTLESS_SORT))
  end.

Definition sort_order_applicability_error (s : sort_mode) (o : sort_order) : bool :=
  bool_decide (s = SortRank) && bool_decide (o = Asc).

Definition ordering_pair_error (s : sort_mode) (rankable : bool) : bool :=
  bool_decide (s = SortRank) && negb rankable.

(** [sort_membership_error], over the raw strings of the request. *)
Definition sort_membership_error (sort order : option pystr) : bool :=
  match sort with
  | Some s => negb (bool_decide (s ∈ [lit "rank"; lit "date"]))
  | None => false
  end ||
  match order with
  | Some o => negb (bool_decide (o ∈ [lit "asc"; lit "desc"]))
  | None => false
  end.

Lemma stated_sort_runs s free_text :
  sort_applicability_error (Some s) free_text = false -> resolve_sort (Some s) free_text = s.
Proof.
  unfold sort_applicability_error, resolve_sort. destruct (is_rankable free_text); cbn; [done |].
  intros Hs%negb_false_iff%bool_decide_eq_true. done.
Qed.
End sort.
End Sort_axes.
