(* ===== verification/Utf8.v ===== *)
(** * UTF-8 ([str.encode] and [bytes.decode])

    Encoding one code point, and the decoder of [errors="replace"]: an ill-formed
    sequence becomes one U+FFFD per maximal prefix of a well-formed one, as
    CPython and the Unicode standard have it. *)
From S2P Require Import Prelude PyStr Base64 Errors Query.

(** The bytes of one code point; a surrogate is a [UnicodeEncodeError], a
    subclass of [ValueError]. *)
Definition utf8_char (c : Z) : res exn bytes :=
  if Query.is_surrogate c then Err ValueError
  else Ok (if c <? 128 then [c]
    else if c <? 2048 then [192 + c / 64; 128 + c mod 64]
    else if c <? 65536 then [224 + c / 4096; 128 + c / 64 mod 64; 128 + c mod 64]
    else [240 + c / 262144; 128 + c / 4096 mod 64; 128 + c / 64 mod 64; 128 + c mod 64]).

Definition in_range (lo hi b : Z) : bool := (lo <=? b) && (b <=? hi).
Definition continuation (b : Z) : bool := in_range 128 191 b.
Definition REPLACEMENT : Z := 65533.

(** The second byte of a sequence of three, and of four, given the first. *)
Definition second_of_three (b0 b1 : Z) : bool :=
  if b0 =? 224 then in_range 160 191 b1 else if b0 =? 237 then in_range 128 159 b1 else continuation b1.
Definition second_of_four (b0 b1 : Z) : bool :=
  if b0 =? 240 then in_range 144 191 b1 else if b0 =? 244 then in_range 128 143 b1 else continuation b1.

(** [bs.decode("utf-8", "replace")] *)
Fixpoint utf8_replace (bs : bytes) : pystr :=
  match bs with
  | [] => []
  | b0 :: r0 =>
      if b0 <? 128 then b0 :: utf8_replace r0
      else if in_range 194 223 b0 then
        match r0 with
        | b1 :: r1 =>
            if continuation b1 then (b0 - 192) * 64 + (b1 - 128) :: utf8_replace r1
            else REPLACEMENT :: utf8_replace r0
        | [] => [REPLACEMENT]
        end
      else if in_range 224 239 b0 then
        match r0 with
        | b1 :: r1 =>
            if second_of_three b0 b1 then
              match r1 with
              | b2 :: r2 =>
                  if continuation b2
                  then (b0 - 224) * 4096 + (b1 - 128) * 64 + (b2 - 128) :: utf8_replace r2
                  else REPLACEMENT :: utf8_replace r1
              | [] => [REPLACEMENT]
              end
            else REPLACEMENT :: utf8_replace r0
        | [] => [REPLACEMENT]
        end
      else if in_range 240 244 b0 then
        match r0 with
        | b1 :: r1 =>
            if second_of_four b0 b1 then
              match r1 with
              | b2 :: r2 =>
                  if continuation b2 then
                    match r2 with
                    | b3 :: r3 =>
                        if continuation b3
                        then (b0 - 240) * 262144 + (b1 - 128) * 4096 + (b2 - 128) * 64 + (b3 - 128)
                               :: utf8_replace r3
                        else REPLACEMENT :: utf8_replace r2
                    | [] => [REPLACEMENT]
                    end
                  else REPLACEMENT :: utf8_replace r1
              | [] => [REPLACEMENT]
              end
            else REPLACEMENT :: utf8_replace r0
        | [] => [REPLACEMENT]
        end
      else REPLACEMENT :: utf8_replace r0
  end.

Definition code_point (c : Z) : Prop := 0 <= c < 1114112.

Example replace_ill_formed :
  utf8_replace [65; 195; 169; 255; 226; 130; 66; 240; 159; 152; 128; 237; 160; 128; 226; 130] =
  [65; 233; 65533; 65533; 66; 128512; 65533; 65533; 65533; 65533].
Proof. reflexivity. Qed.

Lemma utf8_bytes c bs : code_point c -> utf8_char c = Ok bs -> Forall (fun b => 0 <= b < 256) bs.
Proof.
  intros [Hc Hmax]. unfold utf8_char. destruct (Query.is_surrogate c); [done |]. intros [= <-].
  repeat case_match; zb_simpl; rewrite !Forall_cons; split_and!; try apply Forall_nil_2;
    Z.div_mod_to_equations; lia.
Qed.

Lemma in_range_true lo hi b : lo <= b <= hi -> in_range lo hi b = true.
Proof. unfold in_range. rewrite andb_true_iff, !Z.leb_le. done. Qed.
Lemma in_range_false lo hi b : b < lo \/ hi < b -> in_range lo hi b = false.
Proof. unfold in_range. rewrite andb_false_iff, !Z.leb_gt. lia. Qed.
Lemma surrogate_false c : Query.is_surrogate c = false -> c < 55296 \/ 57343 < c.
Proof. unfold Query.is_surrogate. rewrite andb_false_iff, !Z.leb_gt. lia. Qed.

(** Decoding inverts encoding, one code point at a time. *)
Lemma utf8_replace_char c bs r :
  code_point c -> utf8_char c = Ok bs -> utf8_replace (bs ++ r) = c :: utf8_replace r.
Proof.
  intros [Hc Hmax]. unfold utf8_char. destruct (Query.is_surrogate c) eqn:Es; [done |].
  apply surrogate_false in Es. intros [= <-].
  destruct (Z.ltb_spec c 128); [cbn; destruct (Z.ltb_spec c 128); [done | lia] |].
  assert (Hm : 0 <= c mod 64 < 64 /\ 0 <= c / 64 mod 64 < 64 /\ 0 <= c / 4096 mod 64 < 64)
    by (Z.div_mod_to_equations; lia).
  destruct (Z.ltb_spec c 2048); [| destruct (Z.ltb_spec c 65536)]; cbn [app utf8_replace].
  - rewrite (proj2 (Z.ltb_ge _ _)), in_range_true by (Z.div_mod_to_equations; lia).
    unfold continuation. rewrite in_range_true by lia. f_equal. Z.div_mod_to_equations; lia.
  - rewrite (proj2 (Z.ltb_ge _ _)), in_range_false, in_range_true by (Z.div_mod_to_equations; lia).
    assert (second_of_three (224 + c / 4096) (128 + c / 64 mod 64) = true) as ->.
    { unfold second_of_three, continuation.
      repeat case_match; zb_simpl; apply in_range_true; Z.div_mod_to_equations; lia. }
    unfold continuation. rewrite in_range_true by lia. f_equal. Z.div_mod_to_equations; lia.
  - rewrite (proj2 (Z.ltb_ge _ _)), (in_range_false 194), (in_range_false 224), in_range_true
      by (Z.div_mod_to_equations; lia).
    assert (second_of_four (240 + c / 262144) (128 + c / 4096 mod 64) = true) as ->.
    { unfold second_of_four, continuation.
      repeat case_match; zb_simpl; apply in_range_true; Z.div_mod_to_equations; lia. }
    unfold continuation. rewrite !in_range_true by lia. f_equal. Z.div_mod_to_equations; lia.
Qed.
