(* ===== verification/Arms.v ===== *)
(** * The retrieval arms ([search/arms.py], [search/attachment_names.py],
    [search/attachment_presence.py])

    Each arm is a [SELECT]: a condition on message rows, an order, a limit and a
    rank.  PostgreSQL's text search, its [ILIKE] and [lower], pgvector's distance and
    its index are the interface [Postgres]: the index is approximate, so a scan
    returns some of the rows, not always the nearest. *)
From S2P Require Import Prelude Keyset PyStr Datetime Errors PySort Score Odict Browse Query Relevance.

(** An entry of [messages.attachments]; a name or hash that is not a JSON string
    is [None]. *)
Record att_entry := AttEntry { at_filename : option pystr; at_sha256 : option pystr }.

(** The columns of [messages] the arms read; [attachments] is [None] when the
    column is not a JSON array. *)
Record mail_row (T : Type) := MailRow {
  mr_message : message T;
  mr_to_addrs : list pystr;
  mr_body_text : option pystr;
  mr_attachments : option (list att_entry);
  mr_body_lang : option pystr;
  mr_labels : list (Z * pystr);          (* mailbox id and name, by message_labels *)
}.
Arguments MailRow {T}. Arguments mr_message {T}. Arguments mr_to_addrs {T}.
Arguments mr_body_text {T}. Arguments mr_attachments {T}. Arguments mr_body_lang {T}.
Arguments mr_labels {T}.
Definition mr_id {T} (m : mail_row T) : Z := m_id (mr_message m).
Definition mr_account {T} (m : mail_row T) : Z := m_account_id (mr_message m).

Record msg_chunk (E : Type) := MsgChunk {
  mc_id : Z; mc_message_id : Z; mc_text : pystr; mc_kind : pystr; mc_embedding : option E }.
Record att_chunk (E : Type) := AttChunk {
  ac_id : Z; ac_sha256 : pystr; ac_text : pystr; ac_embedding : option E }.
Arguments MsgChunk {E}. Arguments mc_id {E}. Arguments mc_message_id {E}. Arguments mc_text {E}.
Arguments mc_kind {E}. Arguments mc_embedding {E}.
Arguments AttChunk {E}. Arguments ac_id {E}. Arguments ac_sha256 {E}. Arguments ac_text {E}.
Arguments ac_embedding {E}.

(** [websearch_to_tsquery] and [plainto_tsquery], joined by [||]. *)
Inductive ts_part := Websearch (s : pystr) | Plainto (s : pystr).
Notation tsquery := (list ts_part).

Class Postgres (T E : Type) := {
  ilike : pystr -> pystr -> bool;                   (* value, pattern *)
  pg_lower : pystr -> pystr;
  date_midnight : Z * Z * Z -> Z;                   (* a date compared to a timestamptz *)
  msg_fts : tsquery -> mail_row T -> bool;          (* fts_v2 @@ q *)
  names_fts : tsquery -> list pystr -> bool;        (* the names tsvector @@ q *)
  empty_fts : tsquery -> bool;                      (* ''::tsvector @@ q *)
  chunk_fts : tsquery -> pystr -> bool;             (* message_chunks.fts @@ q *)
  rank_msg : list float -> tsquery -> mail_row T -> float;
  rank_names : list float -> tsquery -> list pystr -> float;
  rank_chunk : tsquery -> pystr -> float;
  distance : E -> E -> float;                       (* <=> *)
  (* ORDER BY <=> over the rows of a condition, through the HNSW index: with
     [hnsw.ef_search], each row's distance and the rows, what the scan finds. *)
  hnsw_scan : forall A : Type, Z -> (A -> float) -> list A -> list A;
  hnsw_scan_sub : forall A ef dist (l : list A), hnsw_scan A ef dist l ⊆+ l;
}.

Module Arms.
Section arms.
Context `{Datetime T} {E : Type} `{!Postgres T E} `{PyUnicode}.
Notation row := (mail_row T).

(** ** Conditions *)

(** [HAS_ATTACHMENT_SQL] *)
Definition HAS_ATTACHMENT (m : row) : bool :=
  match mr_attachments m with Some (_ :: _) => true | _ => false end.
(** [NAMES_JSONPATH] *)
Definition attachment_names (m : row) : list pystr :=
  match mr_attachments m with Some l => omap at_filename l | None => [] end.
(** [strpos(lower(name), lower(value)) > 0] *)
Definition NAME_CONTAINS (value : pystr) (m : row) : bool :=
  existsb (fun n => bool_decide (is_Some (find_sub (pg_lower value) (pg_lower n)))) (attachment_names m).
Definition names_match (q : tsquery) (m : row) : bool :=
  names_fts q (attachment_names m) && negb (empty_fts q).

Definition substring_pattern (s : pystr) : pystr := lit "%" ++ s ++ lit "%".
Definition ilike_cond (x : option pystr) (pattern : pystr) : Sql.cond := (fun v => ilike v pattern) <$> x.

(** A clause is emitted when its filter is truthy. *)
Definition when_list {A} (l : option (list A)) (c : list A -> Sql.cond) : Sql.cond :=
  match l with Some ((_ :: _) as l) => c l | _ => Some true end.
Definition when_str (s : option pystr) (c : pystr -> Sql.cond) : Sql.cond :=
  match s with Some ((_ :: _) as s) => c s | _ => Some true end.
Definition when_some {A} (x : option A) (c : A -> Sql.cond) : Sql.cond :=
  match x with Some x => c x | None => Some true end.

(** [_filter_sql] *)
Definition filter_where (f : SearchFilters) (m : row) : Sql.cond :=
  let ts := instant <$> m_date_sent (mr_message m) in
  foldr Sql.and (Some true)
    [ when_list (accounts f) (fun ids => Some (bool_decide (mr_account m ∈ ids)));
      when_list (account_ids f) (fun ids => Some (bool_decide (mr_account m ∈ ids)));
      when_str (from_substr f) (fun s =>
        Sql.or (ilike_cond (m_from_addr (mr_message m)) (substring_pattern s))
               (ilike_cond (m_from_name (mr_message m)) (substring_pattern s)));
      when_str (to_substr f) (fun s => Some (existsb (fun t => ilike t (substring_pattern s)) (mr_to_addrs m)));
      when_str (subject_substr f) (fun s => ilike_cond (m_subject (mr_message m)) (substring_pattern s));
      when_str (attachment_name_substr f) (fun s => Some (NAME_CONTAINS s m));
      when_some (after f) (fun d => Sql.ge ts (Some (date_midnight d)));
      when_some (before f) (fun d => Sql.lt ts (Some (date_midnight d)));
      when_some (has_attachment f) (fun b => Some (Bool.eqb (HAS_ATTACHMENT m) b));
      when_list (folders f) (fun names => Some (existsb (fun l => bool_decide (l.2 ∈ names)) (mr_labels m)));
      when_list (folder_ids f) (fun ids => Some (existsb (fun l => bool_decide (l.1 ∈ ids)) (mr_labels m)));
      when_str (label f) (fun s => Some (existsb (fun l => ilike l.2 s) (mr_labels m)));
      when_list (languages f) (fun ls =>
        Sql.and (Sql.is_not_null (mr_body_lang m)) ((fun l => bool_decide (l ∈ ls)) <$> mr_body_lang m)) ].

(** [_message_where] *)
Definition message_where (p : ParsedQuery) (m : row) : Sql.cond :=
  Sql.and (filter_where (filters p) m)
    match Query.excluded_text (free_text p) with
    | [] => Some true
    | ex => Sql.and (Some (msg_fts [Websearch ex] m)) (Some (names_fts [Websearch ex] (attachment_names m)))
    end.

Definition build_lexical_tsquery (p : ParsedQuery) : tsquery :=
  Websearch (free_text p) :: map Plainto (expansion_terms p).

(** ** Ranking *)
Record config := ArmConfig {
  boost_to : float; boost_body : float; boost_from : float; boost_subject : float;
  arm4_fanout_cap : Z; arm4_chunk_prefetch_multiplier : Z; hnsw_ef_search : Z;
}.
(** The [float4] weights, each divided by the greatest; all ones when none is
    positive. *)
Definition py_max (x : float) (l : list float) : float :=
  fold_left (fun m y => if flt m y then y else m) l x.
Definition bm25_weights (c : config) : list float :=
  let raw := [boost_to c; boost_body c; boost_from c; boost_subject c] in
  let max_w := py_max (boost_to c) raw in
  if flt fzero max_w then map (fun w => fdiv w max_w) raw else map (fun _ => fone) raw.

(** PostgreSQL's order of floats: NaN is above everything. *)
Definition pg_lt (a b : float) : bool := if is_nan b then negb (is_nan a) else flt a b.
Definition limit_rows {A} (limit : Z) (l : list A) : list A := take (Z.to_nat limit) l.
Definition desc {A} (score : A -> float) : list A -> list A := py_sorted (fun a b => pg_lt (score b) (score a)).
Definition asc {A} (dist : A -> float) : list A -> list A := py_sorted (fun a b => pg_lt (dist a) (dist b)).
(** [ROW_NUMBER() OVER (ORDER BY score DESC)] of the limited rows. *)
Definition numbered {A} (to_hit : A -> Z -> ArmHit) (rows : list A) : list ArmHit :=
  imap (fun i r => to_hit r (Z.of_nat i + 1)) rows.

Definition arm_bm25_messages (c : config) (rows : list row) (p : ParsedQuery) (limit : Z) : list ArmHit :=
  match strip (free_text p) with
  | [] => []
  | _ =>
      let q := build_lexical_tsquery p in
      let w := bm25_weights c in
      let score m := fadd (rank_msg w q m) (rank_names w q (attachment_names m)) in
      let hit m := (msg_fts q m || names_match q m) && Sql.kept (message_where p m) in
      numbered (fun m n => MkArmHit (mr_id m) None TMessage (score m) n)
        (limit_rows limit (desc score (filter (fun m => hit m = true) rows)))
  end.

(** [message_chunks mc JOIN messages m ON m.id = mc.message_id] *)
Definition join_chunks (rows : list row) (chunks : list (msg_chunk E)) : list (row * msg_chunk E) :=
  flat_map (fun m => map (pair m) (filter (fun mc => mc_message_id mc = mr_id m) chunks)) rows.

Definition arm_bm25_chunks (rows : list row) (chunks : list (msg_chunk E)) (p : ParsedQuery) (limit : Z) :
    list ArmHit :=
  match strip (free_text p) with
  | [] => []
  | _ =>
      let q := build_lexical_tsquery p in
      let score (j : row * msg_chunk E) := rank_chunk q (mc_text j.2) in
      let hit (j : row * msg_chunk E) := chunk_fts q (mc_text j.2) && Sql.kept (message_where p j.1) in
      numbered (fun j n => MkArmHit (mc_message_id j.2) (Some (mc_id j.2)) TMessageChunks (score j) n)
        (limit_rows limit (desc score (filter (fun j => hit j = true) (join_chunks rows chunks))))
  end.

(** [1.0 - dist] *)
Definition similarity (d : float) : float := SFsub PREC EMAX fone d.
Definition dist_of (qvec : E) (e : option E) : float :=
  match e with Some e => distance e qvec | None => S754_nan end.

Definition HNSW_EF_SEARCH_MAX : Z := 1000.
Definition ef_search (c : config) (wanted : Z) : Z := Z.min (Z.max (hnsw_ef_search c) wanted) HNSW_EF_SEARCH_MAX.
Definition arm_vector_chunks (c : config) (rows : list row) (chunks : list (msg_chunk E)) (p : ParsedQuery)
    (qvec : E) (limit : Z) : list ArmHit :=
  let dist (j : row * msg_chunk E) := dist_of qvec (mc_embedding j.2) in
  let hit (j : row * msg_chunk E) := bool_decide (is_Some (mc_embedding j.2)) && Sql.kept (message_where p j.1) in
  numbered (fun j n => MkArmHit (mc_message_id j.2) (Some (mc_id j.2)) TMessageChunks (similarity (dist j)) n)
    (desc (fun j => similarity (dist j))
      (limit_rows limit (hnsw_scan _ (ef_search c limit) dist (filter (fun j => hit j = true) (join_chunks rows chunks))))).

(** [m.attachments @> [{"sha256": hex}]] *)
Definition carries (sha : pystr) (m : row) : bool :=
  match mr_attachments m with
  | Some l => existsb (fun a => bool_decide (at_sha256 a = Some sha)) l
  | None => false
  end.
(** [m.date_sent DESC NULLS LAST] *)
Definition sent_later (a b : row) : bool :=
  match instant <$> m_date_sent (mr_message a), instant <$> m_date_sent (mr_message b) with
  | Some x, Some y => y <? x
  | Some _, None => true
  | None, _ => false
  end.
Definition arm_vector_attachment_chunks (c : config) (rows : list row) (chunks : list (att_chunk E))
    (p : ParsedQuery) (qvec : E) (limit : Z) : list ArmHit :=
  let chunk_limit := Z.max limit 1 * arm4_chunk_prefetch_multiplier c in
  let dist (ac : att_chunk E) := dist_of qvec (ac_embedding ac) in
  let ranked := limit_rows chunk_limit
    (hnsw_scan _ (ef_search c chunk_limit) dist (filter (fun ac => is_Some (ac_embedding ac)) chunks)) in
  let fanned := flat_map (fun ac =>
    map (pair ac) (limit_rows (arm4_fanout_cap c)
      (py_sorted sent_later
        (filter (fun m => carries (ac_sha256 ac) m && Sql.kept (message_where p m) = true) rows)))) ranked in
  numbered (fun j n => MkArmHit (mr_id j.2) (Some (ac_id j.1)) TAttachmentChunks (similarity (dist j.1)) n)
    (limit_rows limit (asc (fun j => dist j.1) fanned)).

(** [_retrieve_pool]'s four arms, over the tables they read. *)
Record corpus := Corpus {
  co_messages : list row;
  co_chunks : list (msg_chunk E);
  co_att_chunks : list (att_chunk E);
}.
Definition all_arms (c : config) (co : corpus) (p : ParsedQuery) (qvec : E) (limit : Z) : list (list ArmHit) :=
  [ arm_bm25_messages c (co_messages co) p limit;
    arm_bm25_chunks (co_messages co) (co_chunks co) p limit;
    arm_vector_chunks c (co_messages co) (co_chunks co) p qvec limit;
    arm_vector_attachment_chunks c (co_messages co) (co_att_chunks co) p qvec limit ].
End arms.
End Arms.
