(* ===== verification/Snippet.v ===== *)
(** * Snippets ([search/searcher.py] [make_snippet], [search/snippet_width.py]) *)
From S2P Require Import Prelude PyStr Query.

Module Snippet.
Definition MIN_WIDTH : Z := 1.

(** A value handed in for [snippet_chars]: an [int], or anything else ([bool]
    included). *)
Inductive width_value := IntWidth (n : Z) | NotAnInt.
(** [snippet_width_error]: [true] when the width is refused. *)
Definition snippet_width_error (value : width_value) (max_chars : option Z) : bool :=
  match value with
  | NotAnInt => true
  | IntWidth n =>
      match max_chars with
      | None => n <? MIN_WIDTH
      | Some m => negb ((MIN_WIDTH <=? n) && (n <=? m))
      end
  end.

Section snippet.
Context `{PyUnicode}.

(** [\w] of [re]. *)
Definition is_word (c : Z) : bool := isalnum_char c || (c =? 95).

(** The least index at which a term occurs, looking through the terms in order. *)
Definition best_position (lowered : pystr) (terms : list pystr) : option nat :=
  fold_left (fun best term =>
    match term with
    | [] => best
    | _ =>
        match find_sub (lower term) lowered, best with
        | None, _ => best
        | Some i, None => Some i
        | Some i, Some b => if (i <? b)%nat then Some i else Some b
        end
    end) terms None.

(** The window cut after its last word, when it has one. *)
Definition leading_window (text : pystr) (width : nat) : pystr :=
  let cut := take width text in
  match rstrip_p (fun c => negb (is_word c)) cut with
  | [] => cut
  | trimmed => trimmed
  end.

Definition ELLIPSIS : Z := 8230.
Definition make_snippet (text : pystr) (terms : list pystr) (width : nat) : pystr :=
  match text with
  | [] => []
  | _ =>
      if (length text <=? width)%nat then text
      else match best_position (lower text) terms with
           | None => leading_window text width
           | Some pos =>
               let half := (width / 2)%nat in
               let start := (pos - half)%nat in
               let end_ := Nat.min (length text) (start + width) in
               let prefix := if (0 <? start)%nat then [ELLIPSIS] else [] in
               let suffix := if (end_ <? length text)%nat then [ELLIPSIS] else [] in
               strip (prefix ++ take (end_ - start) (drop start text) ++ suffix)
           end
  end.

(** ** Facts *)
Lemma drop_while_length p s : (length (drop_while p s) <= length s)%nat.
Proof. induction s as [| c s IH]; cbn; [done |]. destruct (p c); cbn; lia. Qed.
Lemma strip_length s : (length (strip s) <= length s)%nat.
Proof.
  unfold strip, strip_p, rstrip_p, lstrip_p. rewrite length_reverse.
  etransitivity; [apply drop_while_length |]. rewrite length_reverse. apply drop_while_length.
Qed.
Lemma drop_while_suffix p s : exists pre, s = pre ++ drop_while p s.
Proof.
  induction s as [| c s (pre & IH)]; cbn; [by exists [] |]. destruct (p c); [| by exists []].
  exists (c :: pre). cbn. by rewrite <- IH.
Qed.
Lemma rstrip_prefix p s : rstrip_p p s = take (length (rstrip_p p s)) s.
Proof.
  unfold rstrip_p. destruct (drop_while_suffix p (reverse s)) as [pre Hp].
  set (d := drop_while p (reverse s)) in *. clearbody d.
  assert (s = reverse d ++ reverse pre) as -> by (by rewrite <- reverse_app, <- Hp, reverse_involutive).
  by rewrite take_app_length.
Qed.

Lemma leading_window_prefix text width :
  exists len, (len <= width)%nat /\ leading_window text width = take len text.
Proof.
  unfold leading_window. pose proof (rstrip_prefix (fun c => negb (is_word c)) (take width text)) as Hp.
  destruct (rstrip_p _ (take width text)) as [| c r] eqn:E; [by exists width |].
  exists (Nat.min (length (c :: r)) width). split; [lia |]. by rewrite Hp at 1; rewrite take_take.
Qed.

(** A snippet is a bounded window on its text.  A text that fits is
    returned whole.  Of a longer one the snippet shows one contiguous piece of
    at most [width] characters, between at most two ellipses; without a match
    that piece starts the text, and with one it holds the first match's
    position. *)
Lemma snippet_is_window (text : pystr) (terms : list pystr) (width : nat) :
  (length (make_snippet text terms width) <= width + 2)%nat /\
  ((length text <= width)%nat -> make_snippet text terms width = text) /\
  ((width < length text)%nat -> exists start len, (len <= width)%nat /\
     let core := take len (drop start text) in
     match best_position (lower text) terms with
     | None => make_snippet text terms width = core /\ start = 0%nat
     | Some pos =>
         (exists l r, make_snippet text terms width = strip (l ++ core ++ r) /\
            (l = [] \/ l = [ELLIPSIS]) /\ (r = [] \/ r = [ELLIPSIS])) /\
         ((pos < length text)%nat -> (0 < width)%nat ->
            (start <= pos < start + length core)%nat)
     end).
Proof.
  assert (Hlong : (width < length text)%nat -> exists start len, (len <= width)%nat /\
     let core := take len (drop start text) in
     match best_position (lower text) terms with
     | None => make_snippet text terms width = core /\ start = 0%nat
     | Some pos =>
         (exists l r, make_snippet text terms width = strip (l ++ core ++ r) /\
            (l = [] \/ l = [ELLIPSIS]) /\ (r = [] \/ r = [ELLIPSIS])) /\
         ((pos < length text)%nat -> (0 < width)%nat ->
            (start <= pos < start + length core)%nat)
     end).
  { intros Hw. unfold make_snippet. destruct text as [| c0 text]; [cbn in Hw; lia |].
    set (t := c0 :: text) in *. rewrite (proj2 (Nat.leb_gt _ _)) by done.
    destruct (best_position (lower t) terms) as [pos |].
    - set (start := (pos - width / 2)%nat). set (e := Nat.min (length t) (start + width)).
      exists start, (e - start)%nat. split; [lia |]. cbv zeta. split.
      + eexists _, _. split; [done |]. split; case_ifs; auto.
      + intros Hpos Hw0. rewrite length_take, length_drop.
        pose proof (Nat.div_lt width 2). lia.
    - destruct (leading_window_prefix t width) as (len & Hlen & ->). exists 0%nat, len. by rewrite drop_0. }
  split_and!; [| | done].
  - destruct (Nat.le_gt_cases (length text) width) as [Hle | Hgt].
    + unfold make_snippet. destruct text; [cbn; lia |]. rewrite (proj2 (Nat.leb_le _ _)) by done. lia.
    + destruct (Hlong Hgt) as (start & len & Hlen & Hc). cbv zeta in Hc.
      destruct (best_position (lower text) terms) as [pos |].
      * destruct Hc as [(l & r & -> & Hl & Hr) _]. etransitivity; [apply strip_length |].
        rewrite !length_app, length_take. destruct Hl as [-> | ->], Hr as [-> | ->]; cbn; lia.
      * destruct Hc as [-> _]. rewrite length_take. lia.
  - intros Hle. unfold make_snippet. destruct text; [done |]. by rewrite (proj2 (Nat.leb_le _ _)).
Qed.
End snippet.

#[local] Existing Instance Query.ascii_unicode.
Example snippet_around_match :
  make_snippet (lit "please find the attached Invoice for May") [lit "invoice"] 12
    = ELLIPSIS :: lit "ached Invoic" ++ [ELLIPSIS].
Proof. by vm_compute. Qed.
Example snippet_without_match : make_snippet (lit "alpha beta, gamma") [lit "zzz"] 11 = lit "alpha beta".
Proof. by vm_compute. Qed.
End Snippet.
