(* ===== verification/Rewrite.v ===== *)
(** * Query rewriting ([search/rewriter.py], [search/rewrite_cache.py],
    [search/rewrite_status.py])

    The merge of a rewrite into a parsed query, the cache of rewrites and the
    outcome reported for a page.  The language model is the argument [inner]. *)
From S2P Require Import Prelude PyStr Datetime Errors Odict Query PageCache.

Record RewriteResult := MkRewrite {
  rr_rewritten_text : pystr;
  rr_expansion_terms : list pystr;
  rr_filters : SearchFilters;
}.

Module Rewrite.
(** ** [apply_rewrite] *)

(** [_fill] *)
Definition fill {A} (user_value llm_value : option A) : option A :=
  match user_value with Some _ => user_value | None => llm_value end.

(** [x or None] *)
Definition str_or_none (s : pystr) : option pystr := match s with [] => None | _ => Some s end.

Definition apply_rewrite (p : ParsedQuery) (r : RewriteResult) (max_expansion_terms : nat) : ParsedQuery :=
  let uf := filters p in
  let lf := rr_filters r in
  let merged := MkFilters (account_names uf) (accounts uf) (account_ids uf) (folders uf) (folder_ids uf)
    (fill (from_substr uf) (from_substr lf)) (fill (to_substr uf) (to_substr lf))
    (fill (subject_substr uf) (subject_substr lf)) (fill (after uf) (after lf))
    (fill (before uf) (before lf)) (fill (has_attachment uf) (has_attachment lf))
    (label uf) (languages uf) (attachment_name_substr uf) in
  MkParsed (free_text p) (str_or_none (rr_rewritten_text r))
    (take max_expansion_terms (filter (fun t => strip t <> []) (rr_expansion_terms r))) merged.

(** ** The outcome of a rewrite *)
Inductive rewrite_status := Applied | Unavailable | Failed | NotAttempted | NotRequested.
Inductive note_code := MissingModel | Unreachable | Unparseable | NotConfigured | ContinuationPage.
#[export] Instance rewrite_status_eq_dec : EqDecision rewrite_status.
Proof. solve_decision. Defined.

(** What [Searcher.search] catches: an HTTP status, a response that does not
    parse, any other transport or URL error; anything else propagates. *)
Inductive rewrite_failure := HttpStatusError (code : Z) | RewriteParseError | OtherHttpError | Uncaught.

Definition classify_rewrite_failure (f : rewrite_failure) : note_code :=
  match f with
  | HttpStatusError code => if code =? 404 then MissingModel else Unreachable
  | RewriteParseError => Unparseable
  | _ => Unreachable
  end.
Definition rewrite_skipped_for_status (s : rewrite_status) : bool :=
  bool_decide (s = Unavailable) || bool_decide (s = Failed).

(** The rewrite step of [Searcher.search]: the query that goes on, the status
    and the note code. *)
Definition rewrite_step (smart : bool) (max_expansion_terms : nat)
    (rewriter : pystr -> res rewrite_failure RewriteResult) (p : ParsedQuery) :
    res exn (ParsedQuery * rewrite_status * option note_code) :=
  if smart && negb (str_eqb (strip (free_text p)) []) then
    match rewriter (free_text p) with
    | Ok r => Ok (apply_rewrite p r max_expansion_terms, Applied, None)
    | Err Uncaught => Err RuntimeError
    | Err f => Ok (p, Failed, Some (classify_rewrite_failure f))
    end
  else Ok (p, NotRequested, None).

(** A rewrite never loses what the caller wrote: the free text, and with it the
    lexical search, stays; a filter the caller set keeps its value; account,
    folder, label, language and attachment-name filters are the caller's. *)
Lemma apply_rewrite_keeps p r n :
  let q := apply_rewrite p r n in
  free_text q = free_text p /\ account_ids (filters q) = account_ids (filters p) /\
  account_names (filters q) = account_names (filters p) /\ accounts (filters q) = accounts (filters p) /\
  folders (filters q) = folders (filters p) /\ folder_ids (filters q) = folder_ids (filters p) /\
  label (filters q) = label (filters p) /\ languages (filters q) = languages (filters p) /\
  (forall d, after (filters p) = Some d -> after (filters q) = Some d) /\
  (forall d, before (filters p) = Some d -> before (filters q) = Some d) /\
  (forall s, from_substr (filters p) = Some s -> from_substr (filters q) = Some s) /\
  (forall s, to_substr (filters p) = Some s -> to_substr (filters q) = Some s) /\
  (forall s, subject_substr (filters p) = Some s -> subject_substr (filters q) = Some s) /\
  (forall b, has_attachment (filters p) = Some b -> has_attachment (filters q) = Some b).
Proof. cbn. split_and!; try done; by intros ? ->. Qed.

Lemma rewrite_step_keeps smart n rw p q st nc :
  rewrite_step smart n rw p = Ok (q, st, nc) ->
  free_text q = free_text p /\ account_ids (filters q) = account_ids (filters p).
Proof.
  unfold rewrite_step. destruct (smart && _); [| by intros [= <- _ _]].
  destruct (rw (free_text p)) as [r | f]; [intros [= <- _ _]; split; reflexivity |].
  destruct f; try done; by intros [= <- _ _].
Qed.

(** ** [CachingRewriter] *)
Section caching.
Context {R E : Type}.
Import Page_cache.
Notation entries := (list (pystr * (Z * R))).

(** [date.isoformat()] *)
Definition date_iso (d : Z * Z * Z) : pystr :=
  let '(y, m, d) := d in
  Calendar.padn 4 y ++ lit "-" ++ Calendar.padn 2 m ++ lit "-" ++ Calendar.padn 2 d.
Definition valid_date (d : Z * Z * Z) : Prop :=
  let '(y, m, d) := d in 1 <= y <= 9999 /\ 1 <= m <= 12 /\ 1 <= d <= 31.
(** [_key] *)
Definition cache_key (today : Z * Z * Z) (text : pystr) : pystr := date_iso today ++ 0 :: text.

(** [_get] and [_put], each one critical section of the lock. *)
Definition rc_get (cfg : cache_config) (now : Z) (key : pystr) (d : entries) : entries * option R :=
  match od_get key d with
  | None => (d, None)
  | Some (stamp, v) =>
      if ttl cfg <? now - stamp then (od_del key d, None) else (od_move_to_end key d, Some v)
  end.
Definition rc_put (cfg : cache_config) (now : Z) (key : pystr) (v : R) (d : entries) : entries :=
  let d := if od_get key d then od_move_to_end key d else d in
  (od_shrink (maxsize cfg) (od_set key (now, v) d)).1.

(** [rewrite], alone on the cache; the clock is read twice. *)
Definition rewrite (cfg : cache_config) (today : Z * Z * Z) (t_get t_put : Z)
    (inner : pystr -> res E R) (text : pystr) (d : entries) : entries * res E R :=
  if maxsize cfg <=? 0 then (d, inner text)
  else
    let key := cache_key today text in
    match rc_get cfg t_get key d with
    | (d, Some v) => (d, Ok v)
    | (d, None) =>
        match inner text with
        | Err e => (d, Err e)
        | Ok v => (rc_put cfg t_put key v d, Ok v)
        end
    end.

(** *** Interleaved callers

    Any number of threads rewrite at once.  A thread holds the lock for [_get]
    and for [_put] but not in between, where it waits for the model. *)
Inductive caller :=
  | Waiting (today : Z * Z * Z) (text : pystr)           (* missed, calling the model *)
  | Answered (today : Z * Z * Z) (text : pystr) (v : R)  (* answered, not yet stored *)
  | Returned (today : Z * Z * Z) (text : pystr) (r : res E R) (served_at : Z).

(** What the model answered, newest first: the day of the request, the text and
    the value; and when each value was stored. *)
Record rworld := RWorld {
  rw_cache : entries;
  rw_callers : gmap nat caller;
  rw_answers : list (Z * Z * Z * pystr * R);
}.

Inductive rstep (cfg : cache_config) : rworld -> rworld -> Prop :=
  | call_hit w i today text now d v :
      0 < maxsize cfg -> valid_date today -> rw_callers w !! i = None ->
      rc_get cfg now (cache_key today text) (rw_cache w) = (d, Some v) ->
      rstep cfg w (RWorld d (<[i := Returned today text (Ok v) now]> (rw_callers w)) (rw_answers w))
  | call_miss w i today text now d :
      0 < maxsize cfg -> valid_date today -> rw_callers w !! i = None ->
      rc_get cfg now (cache_key today text) (rw_cache w) = (d, None) ->
      rstep cfg w (RWorld d (<[i := Waiting today text]> (rw_callers w)) (rw_answers w))
  | call_uncached w i today text :
      maxsize cfg <= 0 -> rw_callers w !! i = None ->
      rstep cfg w (RWorld (rw_cache w) (<[i := Waiting today text]> (rw_callers w)) (rw_answers w))
  | model_answers w i today text v :
      0 < maxsize cfg -> rw_callers w !! i = Some (Waiting today text) ->
      rstep cfg w (RWorld (rw_cache w) (<[i := Answered today text v]> (rw_callers w))
                     ((today, text, v) :: rw_answers w))
  | model_answers_uncached w i today text v now :
      maxsize cfg <= 0 -> rw_callers w !! i = Some (Waiting today text) ->
      rstep cfg w (RWorld (rw_cache w) (<[i := Returned today text (Ok v) now]> (rw_callers w))
                     ((today, text, v) :: rw_answers w))
  | model_fails w i today text e now :
      rw_callers w !! i = Some (Waiting today text) ->
      rstep cfg w (RWorld (rw_cache w) (<[i := Returned today text (Err e) now]> (rw_callers w)) (rw_answers w))
  | store w i today text v now :
      rw_callers w !! i = Some (Answered today text v) ->
      rstep cfg w (RWorld (rc_put cfg now (cache_key today text) v (rw_cache w))
                     (<[i := Returned today text (Ok v) now]> (rw_callers w)) (rw_answers w)).

Lemma cache_key_inj d1 t1 d2 t2 :
  valid_date d1 -> valid_date d2 -> cache_key d1 t1 = cache_key d2 t2 -> d1 = d2 /\ t1 = t2.
Proof.
  destruct d1 as [[y1 m1] d1], d2 as [[y2 m2] d2]. intros (?&?&?) (?&?&?) Hk.
  unfold cache_key, date_iso in Hk. rewrite <- !app_assoc in Hk.
  apply app_inj_1 in Hk as [Hy Hk]; [| by rewrite !Calendar.padn_length].
  apply app_inv_head, app_inj_1 in Hk as [Hm Hk]; [| by rewrite !Calendar.padn_length].
  apply app_inv_head, app_inj_1 in Hk as [Hd Hk]; [| by rewrite !Calendar.padn_length].
  injection Hk as ->. apply (f_equal dec_value) in Hy, Hm, Hd.
  rewrite !Calendar.padn_value in Hy, Hm, Hd by (cbn; lia). by subst.
Qed.

Lemma rc_get_spec cfg now k d d' r :
  rc_get cfg now k d = (d', r) -> NoDup d.*1 ->
  d' ⊆ d /\ NoDup d'.*1 /\ (length d' <= length d)%nat /\
  (forall v, r = Some v -> exists st, (k, (st, v)) ∈ d).
Proof.
  unfold rc_get, od_move_to_end. intros Hg Hn. pose proof (od_del_length k d Hn) as Hl.
  destruct (od_get k d) as [[st v] |] eqn:Eg; [| injection Hg as <- <-; done].
  pose proof (od_get_elem _ _ _ Eg) as Hin.
  assert (Hi : od_del k d ⊆ d) by (intros x [_ Hx]%list_elem_of_filter; done).
  destruct (ttl cfg <? now - st); injection Hg as <- <-; split_and!.
  - done.
  - by apply od_del_nodup.
  - lia.
  - done.
  - set_solver.
  - by apply od_snoc_nodup.
  - rewrite length_app. cbn. lia.
  - intros w [= <-]. by exists st.
Qed.
Lemma rc_put_spec cfg now k v d :
  NoDup d.*1 ->
  (forall x, x ∈ rc_put cfg now k v d -> x = (k, (now, v)) \/ x ∈ d) /\
  NoDup (rc_put cfg now k v d).*1 /\ Z.of_nat (length (rc_put cfg now k v d)) <= Z.max 0 (maxsize cfg).
Proof.
  intros Hn. unfold rc_put. rewrite od_put. set (e := od_del k d ++ [(k, (now, v))]).
  assert (He : forall x, x ∈ e -> x = (k, (now, v)) \/ x ∈ d).
  { unfold e. intros x [[_ Hx]%list_elem_of_filter | ->%list_elem_of_singleton]%elem_of_app; auto. }
  destruct (od_shrink_suffix (maxsize cfg) e) as [pre Hpre]. split_and!.
  - intros x Hx. apply He. rewrite Hpre. set_solver.
  - assert (Hne : NoDup e.*1) by by apply od_snoc_nodup.
    rewrite Hpre, fmap_app in Hne. by apply NoDup_app in Hne as (_ & _ & ?).
  - apply od_shrink_bound.
Qed.

(** Everything the cache holds, a caller was handed or a caller returned is an
    answer of the model to that text on that day. *)
Notation answers := (list (Z * Z * Z * pystr * R)).
Definition caller_ok (cfg : cache_config) (l : answers) (c : caller) : Prop :=
  match c with
  | Waiting today _ => 0 < maxsize cfg -> valid_date today
  | Answered today text v => valid_date today /\ (today, text, v) ∈ l
  | Returned today text (Ok v) _ => (today, text, v) ∈ l
  | Returned _ _ (Err _) _ => True
  end.
Definition entry_ok (l : answers) (e : pystr * (Z * R)) : Prop :=
  exists today text, e.1 = cache_key today text /\ valid_date today /\ (today, text, e.2.2) ∈ l.

Record rinv (cfg : cache_config) (w : rworld) : Prop := {
  ri_keys : NoDup (rw_cache w).*1;
  ri_bound : Z.of_nat (length (rw_cache w)) <= Z.max 0 (maxsize cfg);
  ri_cache : forall e, e ∈ rw_cache w -> entry_ok (rw_answers w) e;
  ri_callers : map_Forall (fun _ => caller_ok cfg (rw_answers w)) (rw_callers w);
}.

Lemma caller_ok_cons cfg l a c : caller_ok cfg l c -> caller_ok cfg (a :: l) c.
Proof. destruct c as [| | ? ? []]; cbn; try done; [intros []; split; [done | by right] | by right]. Qed.
Lemma entry_ok_cons l a e : entry_ok l e -> entry_ok (a :: l) e.
Proof. intros (t & x & ? & ? & ?). exists t, x. split_and!; [done.. | by right]. Qed.
(** What a hit returns is an answer to that very request. *)
Lemma entry_ok_key l today text st v :
  valid_date today -> entry_ok l (cache_key today text, (st, v)) -> (today, text, v) ∈ l.
Proof. intros Hv (t & x & Hk & Hv' & Ha). by destruct (cache_key_inj _ _ _ _ Hv Hv' Hk) as [-> ->]. Qed.

Lemma rinv_step cfg w w' : rinv cfg w -> rstep cfg w w' -> rinv cfg w'.
Proof.
  intros [In Ib Ic Iw] Hs. destruct Hs as
    [w i today text now d v Hm Hv Hn Hg | w i today text now d Hm Hv Hn Hg | w i today text Hm Hn
    | w i today text v Hm Hi | w i today text v now Hm Hi | w i today text e now Hi | w i today text v now Hi];
    try (destruct (rc_get_spec _ _ _ _ _ _ Hg In) as (Hsub & Hk & Hl & Hhit));
    try pose proof (Iw _ _ Hi) as Hc; cbn in Hc || idtac;
    split; cbn [rw_cache rw_callers rw_answers]; try done; try lia; try (by intros e ?%Hsub%Ic).
  - apply map_Forall_insert_2; [| done]. destruct (Hhit _ eq_refl) as [st Hin]. by eapply entry_ok_key, Ic.
  - apply map_Forall_insert_2; [by intros _ | done].
  - apply map_Forall_insert_2; [cbn; lia | done].
  - intros e He. by apply entry_ok_cons, Ic.
  - apply map_Forall_insert_2; [cbn; split; [auto | left] |].
    eapply map_Forall_impl; [exact Iw |]. intros j c. apply caller_ok_cons.
  - intros e He. by apply entry_ok_cons, Ic.
  - apply map_Forall_insert_2; [left |].
    eapply map_Forall_impl; [exact Iw |]. intros j c. apply caller_ok_cons.
  - by apply map_Forall_insert_2.
  - by apply rc_put_spec.
  - by apply rc_put_spec.
  - intros e He. apply rc_put_spec in He as [-> | He]; [| auto | done]. exists today, text. tauto.
  - apply map_Forall_insert_2; [by apply Hc | done].
Qed.

(** The rewrite cache is transparent.  However many callers rewrite
    concurrently, every rewrite a caller gets, from the cache or not, is one the
    model gave for the same text and the same day; a failure is never cached;
    and the cache stays within its configured size. *)
Lemma rewrite_cache_transparent (cfg : cache_config) w :
  rtc (rstep cfg) (RWorld [] empty []) w ->
  (forall i today text v t, rw_callers w !! i = Some (Returned today text (Ok v) t) ->
     (today, text, v) ∈ rw_answers w) /\
  (forall k st v, (k, (st, v)) ∈ rw_cache w ->
     exists today text, k = cache_key today text /\ (today, text, v) ∈ rw_answers w) /\
  Z.of_nat (length (rw_cache w)) <= Z.max 0 (maxsize cfg).
Proof.
  intros Hr. assert (I : rinv cfg w).
  { revert Hr. apply (rtc_ind_r (fun w => rinv cfg w)).
    - split; cbn; [constructor | lia | by intros e ?%elem_of_nil | apply map_Forall_empty].
    - intros w1 w2 _ Hs I. by eapply rinv_step. }
  destruct I as [_ Hb Ic Ir]. split_and!; [| | done].
  - intros i today text v t Hi. exact (Ir _ _ Hi).
  - intros k st v (t & x & ? & _ & ?)%Ic. eauto.
Qed.
End caching.

(** Two callers miss together and both ask the model; the second to store
    displaces nothing, and a third hits. *)
Definition one_day : Z * Z * Z := (2026, 5, 1).
Definition last_world : rworld (R := Z) (E := ()) :=
  let key := cache_key one_day (lit "tax") in
  RWorld [(key, (6, 11))]
    {[ 0%nat := Returned one_day (lit "tax") (Ok 10) 5; 1%nat := Returned one_day (lit "tax") (Ok 11) 6;
       2%nat := Returned one_day (lit "tax") (Ok 11) 7 ]}
    [(one_day, lit "tax", 11); (one_day, lit "tax", 10)].
Lemma last_world_reached : rtc (rstep (Page_cache.CacheConfig 2 60)) (RWorld [] empty []) last_world.
Proof.
  assert (Hv : valid_date one_day) by (cbn; lia).
  eapply rtc_l; [by eapply (call_miss _ _ 0%nat one_day (lit "tax") 0) |].
  eapply rtc_l; [by eapply (call_miss _ _ 1%nat one_day (lit "tax") 1) |].
  eapply rtc_l; [by eapply (model_answers _ _ 0%nat one_day (lit "tax") 10) |].
  eapply rtc_l; [by eapply (model_answers _ _ 1%nat one_day (lit "tax") 11) |].
  eapply rtc_l; [by eapply (store _ _ 0%nat one_day (lit "tax") 10 5) |].
  eapply rtc_l; [by eapply (store _ _ 1%nat one_day (lit "tax") 11 6) |].
  eapply rtc_l; [by eapply (call_hit _ _ 2%nat one_day (lit "tax") 7) |].
  apply rtc_refl.
Qed.
End Rewrite.
