(* ===== verification/SearchPool.v ===== *)
(** * The relevance pool ([search/searcher.py], [search/pool_entry.py])

    A ranked search retrieves a pool of messages once, caches it under an opaque
    token and serves its pages from the cache; a caller who pages past its end
    has it grown.  The searcher's state is its page cache; every database
    snapshot, the reranker's answer and the clock are fields of [retrieval]. *)
From S2P Require Import Prelude Keyset PyStr Datetime Errors PySort Score Odict Relevance RelevanceFacts.
From S2P Require Import PageCache BrowseCursor Browse Query Arms Snippet.
Import Relevance Sort_axes.

(** A row of [_hydrate]'s result. *)
Record item (T : Type) := Item {
  it_fused : FusedHit;
  it_msg : mail_row T;
  it_snippet_text : pystr;
  it_chunk_kind : option pystr;
  it_sha256 : option pystr;
}.
Arguments Item {T}. Arguments it_fused {T}. Arguments it_msg {T}. Arguments it_snippet_text {T}.
Arguments it_chunk_kind {T}. Arguments it_sha256 {T}.

Inductive snippet_source := SrcHeader | SrcBody | SrcAttachment.
#[export] Instance snippet_source_eq_dec : EqDecision snippet_source.
Proof. solve_decision. Defined.

(** [SearchResult] *)
Record SearchResult (T : Type) := MkResult {
  sr_message_id : Z;
  sr_account_id : Z;
  sr_rank : Z;
  sr_score : float;
  sr_rrf_score : float;
  sr_subject : option pystr;
  sr_from_addr : option pystr;
  sr_from_name : option pystr;
  sr_date_sent : option T;
  sr_internal_date : option T;
  sr_snippet : pystr;
  sr_snippet_source : snippet_source;
  sr_attachment_filename : option pystr;
  sr_has_attachments : bool;
  sr_matched_chunk_id : option Z;
  sr_matched_chunk_table : chunk_table;
}.
Arguments MkResult {T}. Arguments sr_message_id {T}. Arguments sr_account_id {T}. Arguments sr_rank {T}.
Arguments sr_score {T}. Arguments sr_rrf_score {T}. Arguments sr_subject {T}. Arguments sr_from_addr {T}.
Arguments sr_from_name {T}. Arguments sr_date_sent {T}. Arguments sr_internal_date {T}.
Arguments sr_snippet {T}. Arguments sr_snippet_source {T}. Arguments sr_attachment_filename {T}.
Arguments sr_has_attachments {T}. Arguments sr_matched_chunk_id {T}. Arguments sr_matched_chunk_table {T}.

(** [PoolEntry] *)
Record PoolEntry (T : Type) := MkPool {
  pe_parsed : ParsedQuery;
  pe_hydrated : list (item T);
  pe_scores : list float;
  pe_candidates_per_arm : Z;
  pe_rerank_pool_size : Z;
  pe_page_size : Z;
  pe_user_id : option Z;
  pe_sort : sort_mode;
  pe_sort_order : sort_order;
  pe_first_page : Z;
  pe_excluded_ids : list Z;
}.
Arguments MkPool {T}. Arguments pe_parsed {T}. Arguments pe_hydrated {T}. Arguments pe_scores {T}.
Arguments pe_candidates_per_arm {T}. Arguments pe_rerank_pool_size {T}. Arguments pe_page_size {T}.
Arguments pe_user_id {T}. Arguments pe_sort {T}. Arguments pe_sort_order {T}.
Arguments pe_first_page {T}. Arguments pe_excluded_ids {T}.

(** The columns of [SearchPage] a pool page carries; timings and the rewrite
    outcome are added by the caller that has them. *)
Record pool_page (T : Type) := PoolPage {
  pp_results : list (SearchResult T);
  pp_page : Z;
  pp_page_size : Z;
  pp_pool_size : Z;
  pp_candidates_per_arm : Z;
  pp_has_more_in_pool : bool;
  pp_can_grow_pool : bool;
  pp_search_token : option pystr;
  pp_query : ParsedQuery;
  pp_sort_applied : sort_mode;
  pp_rankable : bool;
}.
Arguments PoolPage {T}. Arguments pp_results {T}. Arguments pp_page {T}. Arguments pp_page_size {T}.
Arguments pp_pool_size {T}. Arguments pp_candidates_per_arm {T}. Arguments pp_has_more_in_pool {T}.
Arguments pp_can_grow_pool {T}. Arguments pp_search_token {T}. Arguments pp_query {T}.
Arguments pp_sort_applied {T}. Arguments pp_rankable {T}.

(** [PoolMetadata] *)
Record PoolMetadata := MkMeta {
  pm_candidates_per_arm : Z;
  pm_page_size : Z;
  pm_rerank_pool_size : Z;
  pm_pool_size : Z;
  pm_sort : sort_mode;
  pm_sort_order : sort_order;
  pm_rankable : bool;
}.

(** [SearchConfig], as far as the pool reads it. *)
Record search_config := SearchConfig {
  sc_arms : Arms.config;
  sc_rrf_k : Z;
  sc_candidates_per_arm : Z;
  sc_rerank_pool_size : Z;
  sc_candidates_per_arm_max : Z;
  sc_page_size_default : Z;
  sc_page_size_max : Z;
  sc_rerank_max_chars : nat;
  sc_snippet_width_chars : Z;
  sc_snippet_max_chars : Z;
  sc_rewriter_max_expansion_terms : nat;
  sc_page_cache : Page_cache.cache_config;
}.

Module Pool.
Section pool.
Context `{Datetime T} {E : Type} `{!Postgres T E} `{PyUnicode}.
Context (cfg : search_config).
Notation row := (mail_row T).
Notation cache := (Page_cache.cache (V := PoolEntry T)).

(** What the outside world answers while one pool is built: a snapshot per
    statement, the embedding model, the reranker ([None] when it raised) and the
    clock at the cache's [put]. *)
Record retrieval := Retrieval {
  rv_account_names : list (pystr * Z);
  rv_arm1 : Arms.corpus (T := T) (E := E);
  rv_arm2 : Arms.corpus (T := T) (E := E);
  rv_arm3 : Arms.corpus (T := T) (E := E);
  rv_arm4 : Arms.corpus (T := T) (E := E);
  rv_embed : pystr -> E;
  rv_dates : list row;
  rv_hydrate : list row;
  rv_msg_chunks : list (msg_chunk E);
  rv_att_chunks : list (att_chunk E);
  rv_rerank : pystr -> list pystr -> option (list float);
  rv_put_time : Z;
}.

Definition NO_ACCOUNT_SENTINEL : Z := -1.

(** [_resolve_account_names] *)
Definition set_accounts (p : ParsedQuery) (ids : list Z) : ParsedQuery :=
  let f := filters p in
  MkParsed (free_text p) (rewritten_text p) (expansion_terms p)
    (MkFilters (account_names f) (Some ids) (account_ids f) (folders f) (folder_ids f) (from_substr f)
       (to_substr f) (subject_substr f) (after f) (before f) (has_attachment f) (label f) (languages f)
       (attachment_name_substr f)).
Definition resolve_account_names (table : list (pystr * Z)) (p : ParsedQuery) : ParsedQuery :=
  match account_names (filters p) with
  | [] => p
  | names =>
      let found := map snd (filter (fun r => r.1 ∈ names) table) in
      set_accounts p (match found with [] => [NO_ACCOUNT_SENTINEL] | _ => found end)
  end.

(** [_clamp_account_ids_to_acl] *)
Definition set_account_ids (p : ParsedQuery) (ids : list Z) : ParsedQuery :=
  let f := filters p in
  MkParsed (free_text p) (rewritten_text p) (expansion_terms p)
    (MkFilters (account_names f) (accounts f) (Some ids) (folders f) (folder_ids f) (from_substr f)
       (to_substr f) (subject_substr f) (after f) (before f) (has_attachment f) (label f) (languages f)
       (attachment_name_substr f)).
Definition clamp_account_ids_to_acl (p : ParsedQuery) (allowed_account_ids : option (list Z)) : ParsedQuery :=
  match allowed_account_ids with
  | None => p
  | Some allowed =>
      let clamped := match account_ids (filters p) with
                     | Some ((_ :: _) as current) =>
                         Browse.sorted_set (filter (fun a => a ∈ allowed) current)
                     | _ => Browse.sorted_set allowed
                     end in
      set_account_ids p (match clamped with [] => [NO_ACCOUNT_SENTINEL] | _ => clamped end)
  end.

(** ** Retrieval *)

(** [rewritten_text or semantic_text] *)
Definition model_text (p : ParsedQuery) : pystr :=
  match rewritten_text p with Some ((_ :: _) as s) => s | _ => Query.semantic_text (free_text p) end.

Definition row_of (rows : list row) (id : Z) : option row := snd <$> list_find (fun m => mr_id m = id) rows.
(** [COALESCE(internal_date, date_sent)] of a message, absent when it is gone. *)
Definition sort_date_in (rows : list row) (id : Z) : option T :=
  m ← row_of rows id; sort_ts (mr_message m).
(** [_fetch_sort_dates] *)
Definition fetch_sort_dates (rows : list row) (ids : list Z) : gmap Z (option T) :=
  list_to_map (map (fun id => (id, sort_date_in rows id)) ids).

(** [_cut_pool] *)
Definition fused_key (dates : gmap Z (option T)) (h : FusedHit) : float * (Z * Z) * Z :=
  relevance_key (fh_rrf_score h) (default None (dates !! fh_message_id h)) (fh_message_id h).
Definition cut_pool (rows : list row) (fused : list FusedHit) (limit : Z) : list FusedHit :=
  if Z.of_nat (length fused) <=? limit then fused
  else
    let dates := fetch_sort_dates rows (map fh_message_id fused) in
    slice_to limit (py_sorted (key_before (fused_key dates)) fused).

(** [_retrieve_pool] *)
Definition retrieve_pool (env : retrieval) (p : ParsedQuery) (candidates_per_arm rerank_pool_size : Z)
    (exclude : list Z) : res exn (list FusedHit) :=
  let c := sc_arms cfg in
  let a1 := Arms.arm_bm25_messages c (Arms.co_messages (rv_arm1 env)) p candidates_per_arm in
  let a2 := Arms.arm_bm25_chunks (Arms.co_messages (rv_arm2 env)) (Arms.co_chunks (rv_arm2 env)) p
              candidates_per_arm in
  let qvec := rv_embed env (model_text p) in
  let a3 := Arms.arm_vector_chunks c (Arms.co_messages (rv_arm3 env)) (Arms.co_chunks (rv_arm3 env)) p qvec
              candidates_per_arm in
  let a4 := Arms.arm_vector_attachment_chunks c (Arms.co_messages (rv_arm4 env))
              (Arms.co_att_chunks (rv_arm4 env)) p qvec candidates_per_arm in
  let* fused := rrf_fuse [a1; a2; a3; a4] (sc_rrf_k cfg) in
  Ok (cut_pool (rv_dates env) (filter (fun h => fh_message_id h ∉ exclude) fused) rerank_pool_size).

(** [_hydrate]: an id of [0] is as good as none, and a hit whose message is gone
    is dropped. *)
Definition truthy_id (i : option Z) : option Z :=
  match i with Some i => if i =? 0 then None else Some i | None => None end.
Definition hydrate_hit (env : retrieval) (h : FusedHit) : option (item T) :=
  m ← row_of (rv_hydrate env) (fh_message_id h);
  let body := default [] (mr_body_text m) in
  let chunk := truthy_id (fh_best_chunk_id h) in
  Some match fh_best_chunk_table h with
       | TAttachmentChunks =>
           match i ← chunk; snd <$> list_find (fun c => ac_id c = i) (rv_att_chunks env) with
           | Some c => Item h m (ac_text c) None (Some (ac_sha256 c))
           | None => Item h m body None None
           end
       | _ =>
           match i ← chunk; snd <$> list_find (fun c => mc_id c = i) (rv_msg_chunks env) with
           | Some c => Item h m (mc_text c) (Some (mc_kind c)) None
           | None => Item h m body None None
           end
       end.
Definition hydrate (env : retrieval) (fused : list FusedHit) : list (item T) :=
  omap (hydrate_hit env) fused.

Definition fused_scores (hydrated : list (item T)) : list float :=
  map (fun i => fh_rrf_score (it_fused i)) hydrated.
(** The scores of a pool: the reranker's, made finite, or the fused ones. *)
Definition pool_scores (reranker : bool) (env : retrieval) (p : ParsedQuery) (hydrated : list (item T)) :
    res exn (list float) :=
  match hydrated with
  | [] => Ok []
  | _ =>
      if reranker then
        safe_rerank (rv_rerank env (model_text p)
                       (map (fun i => take (sc_rerank_max_chars cfg) (it_snippet_text i)) hydrated))
          (fused_scores hydrated)
      else Ok (fused_scores hydrated)
  end.

(** ** Serving *)

(** [_msg_date] *)
Definition msg_date (i : item T) : option T := sort_ts (mr_message (it_msg i)).
Definition item_id (x : item T * float) : Z := fh_message_id (it_fused x.1).
Definition served_key (x : item T * float) : float * (Z * Z) * Z :=
  relevance_key x.2 (msg_date x.1) (item_id x).
(** [_date_sort_key], reversed. *)
Definition date_before (a b : item T * float) : bool := date_lt (date_key (msg_date b.1)) (date_key (msg_date a.1)).

(** [_ordered_pool]: the strict [zip] refuses lists of different lengths. *)
Definition ordered_pool (hydrated : list (item T)) (scores : list float) (sort : sort_mode) :
    res exn (list (item T * float)) :=
  if negb (length hydrated =? length scores)%nat then Err ValueError
  else
    let rows := zip hydrated scores in
    Ok (match sort with
        | SortDate => py_sorted date_before rows
        | SortRank => py_sorted (key_before served_key) rows
        end).

(** [l[start:end]] of a non-negative start. *)
Definition slice {A} (start end_ : Z) (l : list A) : list A :=
  take (Z.to_nat end_ - Z.to_nat start) (drop (Z.to_nat start) l).

(** The SELECT of an attachment's file name by its hash. *)
Definition filename_of (rows : list row) (message_id : Z) (sha : pystr) : option pystr :=
  m ← row_of rows message_id;
  atts ← mr_attachments m;
  a ← snd <$> list_find (fun a => at_sha256 a = Some sha) atts;
  match at_filename a with Some ((_ :: _) as n) => Some n | _ => None end.

Definition build_result (names : list row) (terms : list pystr) (width : nat) (i : nat) (x : item T * float) :
    SearchResult T :=
  let it := x.1 in
  let h := it_fused it in
  let m := mr_message (it_msg it) in
  let source := match fh_best_chunk_table h with
                | TAttachmentChunks => SrcAttachment
                | _ => if bool_decide (it_chunk_kind it = Some (lit "body")) then SrcBody else SrcHeader
                end in
  let filename := match source, it_sha256 it with
                  | SrcAttachment, Some ((_ :: _) as sha) => filename_of names (fh_message_id h) sha
                  | _, _ => None
                  end in
  MkResult (fh_message_id h) (m_account_id m) (Z.of_nat i + 1) x.2 (fh_rrf_score h) (m_subject m)
    (m_from_addr m) (m_from_name m) (m_date_sent m) (m_internal_date m)
    (Snippet.make_snippet (it_snippet_text it) terms width) source filename
    (Arms.HAS_ATTACHMENT (it_msg it)) (fh_best_chunk_id h) (fh_best_chunk_table h).

(** [_build_results] *)
Definition build_results (names : list row) (hydrated : list (item T)) (p : ParsedQuery) (scores : list float)
    (page page_size : Z) (sort : sort_mode) (width : Z) : res exn (list (SearchResult T)) :=
  let terms := split_words (Query.semantic_text (free_text p)) in
  let* ordered := ordered_pool hydrated scores sort in
  let start := (page - 1) * page_size in
  Ok (imap (build_result names terms (Z.to_nat width)) (slice start (start + page_size) ordered)).

(** [_snippet_width] *)
Definition resolve_width (snippet_chars : option Snippet.width_value) : res exn Z :=
  match snippet_chars with
  | None => Ok (sc_snippet_width_chars cfg)
  | Some v => if Snippet.snippet_width_error v None then Err ValueError
              else match v with Snippet.IntWidth n => Ok n | Snippet.NotAnInt => Err ValueError end
  end.

(** [PoolEntry.__post_init__] *)
Definition make_pool (e : PoolEntry T) : res exn (PoolEntry T) :=
  if negb (length (pe_scores e) =? length (pe_hydrated e))%nat then Err ValueError
  else if ordering_pair_error (pe_sort e) (is_rankable (free_text (pe_parsed e))) then Err ValueError
  else Ok e.
(** [SearchPage.__post_init__] *)
Definition make_page (p : pool_page T) : res exn (pool_page T) :=
  if ordering_pair_error (pp_sort_applied p) (pp_rankable p) then Err ValueError else Ok p.

(** The owner check of every reader. *)
Definition foreign (user_id : option Z) (e : PoolEntry T) : bool :=
  match user_id with None => false | Some _ => negb (bool_decide (pe_user_id e = user_id)) end.

(** [math.ceil(a / b)] *)
Definition ceil_div (a b : Z) : Z := - (- a / b).

(** [continue_page]; [now] is the clock at the cache lookup. *)
Definition continue_page (now : Z) (names : list row) (token : pystr) (page : Z) (user_id : option Z)
    (snippet_chars : option Snippet.width_value) (d : cache) : cache * res exn (pool_page T) :=
  match resolve_width snippet_chars with
  | Err e => (d, Err e)
  | Ok width =>
      let '(d, got) := Page_cache.get (sc_page_cache cfg) now token d in
      (d,
       let* entry := got in
       if foreign user_id entry then Err CacheMissError
       else
         let page_size := pe_page_size entry in
         let pool_size := Z.of_nat (length (pe_hydrated entry)) in
         let first_page := pe_first_page entry in
         if (1 <=? page) && (page <? first_page) then Err CacheMissError
         else
           let local_page := page - first_page + 1 in
           if page_size =? 0 then Err ZeroDivisionError
           else
             let max_page := Z.max 1 (ceil_div pool_size page_size) in
             if (page <? 1) || (max_page <? local_page) then Err PageOutOfPoolError
             else
               let* results := build_results names (pe_hydrated entry) (pe_parsed entry) (pe_scores entry)
                                 local_page page_size (pe_sort entry) width in
               make_page (PoolPage results page page_size pool_size (pe_candidates_per_arm entry)
                 (local_page * page_size <? pool_size) true (Some token) (pe_parsed entry)
                 (pe_sort entry) (is_rankable (free_text (pe_parsed entry)))))
  end.

(** [get_pool_metadata] *)
Definition get_pool_metadata (now : Z) (token : pystr) (user_id : option Z) (d : cache) :
    cache * res exn (option PoolMetadata) :=
  let '(d, got) := Page_cache.get (sc_page_cache cfg) now token d in
  (d, match got with
      | Err CacheMissError => Ok None
      | Err e => Err e
      | Ok e =>
          if foreign user_id e then Ok None
          else
            let rankable := is_rankable (free_text (pe_parsed e)) in
            if ordering_pair_error (pe_sort e) rankable then Err ValueError
            else Ok (Some (MkMeta (pe_candidates_per_arm e) (pe_page_size e) (pe_rerank_pool_size e)
                             (Z.of_nat (length (pe_hydrated e))) (pe_sort e) (pe_sort_order e) rankable))
      end).

(** ** Building and growing *)

(** The rows of a pool: retrieved, cut, hydrated and scored. *)
Definition fill_pool (reranker : bool) (env : retrieval) (p : ParsedQuery)
    (candidates_per_arm rerank_pool_size : Z) (exclude : list Z) : res exn (list (item T) * list float) :=
  let* fused := retrieve_pool env p candidates_per_arm rerank_pool_size exclude in
  let hydrated := hydrate env fused in
  let* scores := pool_scores reranker env p hydrated in
  Ok (hydrated, scores).

Definition put_pool (now : Z) (token : pystr) (e : PoolEntry T) (d : cache) : cache * res exn () :=
  match make_pool e with
  | Err x => (d, Err x)
  | Ok e => Page_cache.put (sc_page_cache cfg) now token (Page_cache.Instance_ e) d
  end.

(** [grow_pool]; the clock is read at the first lookup, at the [put] and at the
    lookup of the page it returns. *)
Definition grow_pool (reranker : bool) (env : retrieval) (now later : Z) (names : list row) (token : pystr)
    (candidates_per_arm page : Z) (user_id : option Z) (snippet_chars : option Snippet.width_value) (d : cache) :
    cache * res exn (pool_page T) :=
  match resolve_width snippet_chars with
  | Err e => (d, Err e)
  | Ok width =>
      let '(d, got) := Page_cache.get (sc_page_cache cfg) now token d in
      match got with
      | Err e => (d, Err e)
      | Ok entry =>
          if foreign user_id entry then (d, Err CacheMissError)
          else if page <? pe_first_page entry then (d, Err CacheMissError)
          else
            match ordered_pool (pe_hydrated entry) (pe_scores entry) (pe_sort entry) with
            | Err e => (d, Err e)
            | Ok served =>
                let n := (page - pe_first_page entry) * pe_page_size entry in
                let excluded := pe_excluded_ids entry ++ map item_id (slice_to n served) in
                let rps := Z.max candidates_per_arm (pe_rerank_pool_size entry) in
                let parsed := resolve_account_names (rv_account_names env) (pe_parsed entry) in
                match fill_pool reranker env parsed candidates_per_arm rps excluded with
                | Err e => (d, Err e)
                | Ok (hydrated, scores) =>
                    let '(d, r) := put_pool (rv_put_time env) token
                      (MkPool parsed hydrated scores candidates_per_arm rps (pe_page_size entry)
                         (pe_user_id entry) (pe_sort entry) (pe_sort_order entry) page excluded) d in
                    match r with
                    | Err e => (d, Err e)
                    | Ok _ => continue_page later names token page user_id
                                (Some (Snippet.IntWidth width)) d
                    end
                end
            end
      end
  end.

(** The pool branch of [search]: page 1 of a new pool, cached under [token] when
    one is given. *)
Definition search_pool (reranker : bool) (env : retrieval) (names : list row) (token : option pystr)
    (p : ParsedQuery) (candidates_per_arm rerank_pool_size page_size : Z) (user_id : option Z)
    (sort : sort_mode) (order : sort_order) (width : Z) (d : cache) : cache * res exn (pool_page T) :=
  let parsed := resolve_account_names (rv_account_names env) p in
  match fill_pool reranker env parsed candidates_per_arm rerank_pool_size [] with
  | Err e => (d, Err e)
  | Ok (hydrated, scores) =>
      match build_results names hydrated parsed scores 1 page_size sort width with
      | Err e => (d, Err e)
      | Ok results =>
          let '(d, stored) :=
            match token with
            | None => (d, Ok ())
            | Some t => put_pool (rv_put_time env) t
                (MkPool parsed hydrated scores candidates_per_arm rerank_pool_size page_size user_id
                   sort order 1 []) d
            end in
          (d, let* _ := stored in
              make_page (PoolPage results 1 page_size (Z.of_nat (length hydrated)) candidates_per_arm
                (page_size <? Z.of_nat (length hydrated)) true token parsed sort
                (is_rankable (free_text parsed))))
      end
  end.
End pool.
End Pool.
