(* ===== verification/PoolFacts.v ===== *)
(** * What the relevance pool guarantees *)
From S2P Require Import Prelude Keyset PyStr Datetime Errors PySort Score Odict Relevance RelevanceFacts.
From S2P Require Import PageCache BrowseCursor Browse Query Arms Snippet SearchPool.
Import Relevance Sort_axes Pool.

(** ** The arms stay within the filters *)
Section arms.
Context `{Datetime T} {E : Type} `{!Postgres T E} `{PyUnicode}.
Notation row := (mail_row T).

(** Every hit of an arm stands for a row its [WHERE] admitted. *)
Definition from_rows (rows : list row) (p : ParsedQuery) (hits : list ArmHit) : Prop :=
  forall h, h ∈ hits -> exists m, m ∈ rows /\ mr_id m = ah_message_id h /\
    Sql.kept (Arms.message_where p m) = true.

Lemma numbered_elem {A} (to_hit : A -> Z -> ArmHit) l h :
  h ∈ Arms.numbered to_hit l -> exists r n, r ∈ l /\ h = to_hit r n.
Proof.
  intros (i & r & -> & Hi)%elem_of_lookup_imap. exists r, (Z.of_nat i + 1).
  split; [by eapply list_elem_of_lookup_2 | done].
Qed.
Lemma limit_elem {A} (n : Z) (l : list A) x : x ∈ Arms.limit_rows n l -> x ∈ l.
Proof. unfold Arms.limit_rows. intros (i & Hi & _)%elem_of_take. by eapply list_elem_of_lookup_2. Qed.

Lemma arm1_rows c rows p limit : from_rows rows p (Arms.arm_bm25_messages c rows p limit).
Proof.
  unfold Arms.arm_bm25_messages. destruct (strip (free_text p)); [by intros h ?%elem_of_nil |].
  intros h (m & n & Hm & ->)%numbered_elem. apply limit_elem in Hm. unfold Arms.desc in Hm.
  rewrite py_sorted_elem, list_elem_of_filter in Hm. destruct Hm as [Hk Hm].
  apply andb_true_iff in Hk as [_ Hk]. by exists m.
Qed.
Lemma join_elem rows chunks (j : row * msg_chunk E) :
  j ∈ Arms.join_chunks rows chunks -> j.1 ∈ rows /\ mc_message_id j.2 = mr_id j.1.
Proof.
  unfold Arms.join_chunks. intros (m & Hm & Hj)%list_elem_of_In%in_flat_map.
  apply list_elem_of_In in Hm, Hj. apply list_elem_of_fmap in Hj as (c & -> & [Hc _]%list_elem_of_filter). done.
Qed.
Lemma arm2_rows rows chunks p limit : from_rows rows p (Arms.arm_bm25_chunks rows chunks p limit).
Proof.
  unfold Arms.arm_bm25_chunks. destruct (strip (free_text p)); [by intros h ?%elem_of_nil |].
  intros h (j & n & Hj & ->)%numbered_elem. apply limit_elem in Hj. unfold Arms.desc in Hj.
  rewrite py_sorted_elem, list_elem_of_filter in Hj. destruct Hj as [Hk [Hr Hi]%join_elem].
  apply andb_true_iff in Hk as [_ Hk]. by exists j.1.
Qed.
Lemma arm3_rows c rows chunks p q limit : from_rows rows p (Arms.arm_vector_chunks c rows chunks p q limit).
Proof.
  unfold Arms.arm_vector_chunks. intros h (j & n & Hj & ->)%numbered_elem. unfold Arms.desc in Hj.
  rewrite py_sorted_elem in Hj. apply limit_elem in Hj.
  pose proof (elem_of_submseteq _ _ _ Hj (hnsw_scan_sub _ _ _ _)) as [Hk [Hr Hi]%join_elem]%list_elem_of_filter.
  apply andb_true_iff in Hk as [_ Hk]. by exists j.1.
Qed.
Lemma arm4_rows c rows chunks p q limit :
  from_rows rows p (Arms.arm_vector_attachment_chunks c rows chunks p q limit).
Proof.
  unfold Arms.arm_vector_attachment_chunks. intros h (j & n & Hj & ->)%numbered_elem.
  apply limit_elem in Hj. unfold Arms.asc at 1 in Hj. rewrite py_sorted_elem in Hj.
  apply list_elem_of_In, in_flat_map in Hj as (ac & _ & Hj). apply list_elem_of_In in Hj.
  apply list_elem_of_fmap in Hj as (m & -> & Hm). apply limit_elem in Hm.
  rewrite py_sorted_elem, list_elem_of_filter in Hm. destruct Hm as [Hk Hm].
  apply andb_true_iff in Hk as [_ Hk]. by exists m.
Qed.

(** A row the [WHERE] admits is in the accounts the query is limited to. *)
Lemma kept_account p m ids a :
  account_ids (filters p) = Some (a :: ids) -> Sql.kept (Arms.message_where p m) = true ->
  mr_account m ∈ a :: ids.
Proof.
  intros Hids. unfold Arms.message_where, Arms.filter_where. rewrite !Sql.kept_and.
  intros [Hf _]%andb_true_iff. cbn [foldr] in Hf. rewrite !Sql.kept_and in Hf. rewrite Hids in Hf.
  cbn [Arms.when_list] in Hf. apply andb_true_iff in Hf as [_ Hf]. apply andb_true_iff in Hf as [Hf _].
  rewrite Sql.kept_some in Hf. by apply bool_decide_eq_true in Hf.
Qed.
End arms.

(** ** The rows of a pool *)
Section rows.
Context `{Datetime T} {E : Type} `{!Postgres T E} `{PyUnicode}.
Context (cfg : search_config).
Implicit Types (env : retrieval (T := T) (E := E)).

Lemma cut_pool_sub rows (fused : list FusedHit) limit :
  exists rest, cut_pool (T := T) rows fused limit ++ rest ≡ₚ fused.
Proof.
  unfold cut_pool. destruct (_ <=? limit); [exists []; by rewrite app_nil_r |].
  unfold slice_to. set (s := py_sorted _ fused).
  assert (Hs : s ≡ₚ fused) by apply py_sorted_Permutation.
  destruct (limit <? 0); eexists; rewrite <- Hs; by rewrite take_drop.
Qed.
Lemma map_res_ids {A B} (f : A -> res exn B) (ia : A -> Z) (ib : B -> Z) l ys :
  (forall x y, f x = Ok y -> ib y = ia x) -> map_res f l = Ok ys -> ib <$> ys = ia <$> l.
Proof.
  intros Hf. revert ys. induction l as [| x l IH]; intros ys; cbn [map_res]; [by intros [= <-] |].
  destruct (f x) as [y |] eqn:Ef; [| done]. destruct (map_res f l) as [ys' |]; [| done].
  intros [= <-]. cbn. by rewrite (IH ys'), (Hf _ _ Ef).
Qed.
Lemma fused_of_id me f : fused_of me = Ok f -> fh_message_id f = me.1.
Proof. destruct me as [mid e]. unfold fused_of. destruct (best_chunk _) as [[cid t] |]; [| done]. by intros [= <-]. Qed.

(** Fusion never lists a message twice, and lists only what an arm found. *)
Lemma rrf_fuse_ids arms k out : rrf_fuse arms k = Ok out ->
  NoDup (fh_message_id <$> out) /\
  forall f, f ∈ out -> exists p, p ∈ arm_hits arms /\ ah_message_id p.2 = fh_message_id f.
Proof.
  unfold rrf_fuse. destruct (foldM _ _ _) as [agg |] eqn:Ea; [| done].
  destruct (map_res fused_of agg) as [fs |] eqn:Ef; [| done]. intros [= <-].
  destruct (foldM_add_hit k _ _ Ea) as (Hn & Hk & _).
  pose proof (map_res_ids fused_of fst fh_message_id agg fs fused_of_id Ef) as Hids.
  assert (Hp : py_sorted fused_before fs ≡ₚ fs) by apply py_sorted_Permutation.
  split; [by rewrite Hp, Hids |]. intros f. rewrite Hp. intros Hf. apply Hk. rewrite <- Hids.
  by apply list_elem_of_fmap_2.
Qed.

(** What retrieval returns: distinct, none excluded, each admitted by the
    [WHERE] of the arm that found it. *)
Definition arm_rows env : list (mail_row T) :=
  Arms.co_messages (rv_arm1 env) ++ Arms.co_messages (rv_arm2 env) ++
  Arms.co_messages (rv_arm3 env) ++ Arms.co_messages (rv_arm4 env).
Lemma retrieve_pool_spec env p cpa rps exclude fused :
  retrieve_pool cfg env p cpa rps exclude = Ok fused ->
  NoDup (fh_message_id <$> fused) /\
  forall f, f ∈ fused -> fh_message_id f ∉ exclude /\
    exists m, m ∈ arm_rows env /\ mr_id m = fh_message_id f /\ Sql.kept (Arms.message_where p m) = true.
Proof.
  unfold retrieve_pool. destruct (rrf_fuse _ _) as [all |] eqn:Ef; [| done]. intros [= <-].
  destruct (rrf_fuse_ids _ _ _ Ef) as [Hn Hin].
  set (kept := filter (fun h => fh_message_id h ∉ exclude) all).
  destruct (cut_pool_sub (rv_dates env) kept rps) as [rest Hp]. split.
  - assert (Hk : NoDup (fh_message_id <$> kept))
      by (eapply sublist_NoDup; [exact Hn | apply fmap_sublist, sublist_filter]).
    rewrite <- Hp, fmap_app in Hk. by apply NoDup_app in Hk as [? _].
  - intros f Hf. assert (f ∈ kept) as [Hx Ha]%list_elem_of_filter by (rewrite <- Hp; set_solver).
    split; [done |]. destruct (Hin f Ha) as ([i h] & Hh & Hid). cbn in Hid. rewrite <- Hid.
    destruct (arm_hits_elem _ _ _ Hh) as (arm & Harm & Hah). unfold arm_rows.
    rewrite !elem_of_cons in Harm. destruct Harm as [-> | [-> | [-> | [-> | []%elem_of_nil]]]];
      [apply arm1_rows in Hah | apply arm2_rows in Hah | apply arm3_rows in Hah | apply arm4_rows in Hah];
      destruct Hah as (m & ? & ? & ?); exists m; rewrite !elem_of_app; tauto.
Qed.

Lemma hydrate_hit_fused env h i : hydrate_hit env h = Some i ->
  it_fused i = h /\ row_of (rv_hydrate env) (fh_message_id h) = Some (it_msg i).
Proof.
  unfold hydrate_hit. destruct (row_of _ _) as [m |]; [| done]. cbn [mbind option_bind].
  intros [= <-]. destruct (fh_best_chunk_table h); by repeat case_match.
Qed.
Lemma row_of_some (rows : list (mail_row T)) id m : row_of rows id = Some m -> m ∈ rows /\ mr_id m = id.
Proof.
  unfold row_of. intros ([j m'] & (Hj & Hm & _)%list_find_Some & ->)%fmap_Some. cbn.
  split; [by eapply list_elem_of_lookup_2 | done].
Qed.
Lemma hydrate_fused env fused : (it_fused <$> hydrate env fused) `sublist_of` fused.
Proof.
  induction fused as [| h l IH]; [done |]. unfold hydrate in *. cbn [omap list_omap].
  destruct (hydrate_hit env h) as [i |] eqn:Ei; [| by constructor].
  cbn [fmap list_fmap]. apply hydrate_hit_fused in Ei as [-> _]. by constructor.
Qed.
Lemma pool_scores_length reranker env p hydrated scores :
  pool_scores cfg reranker env p hydrated = Ok scores -> length scores = length hydrated.
Proof.
  unfold pool_scores. destruct hydrated as [| i l] eqn:El; [by intros [= <-] |]. rewrite <- El. clear El.
  assert (Hf : length (fused_scores hydrated) = length hydrated) by apply length_map.
  destruct reranker; [| by intros [= <-]]. unfold safe_rerank.
  destruct (rv_rerank _ _ _) as [raw |]; [| by intros [= <-]].
  unfold finite_scores. destruct (Nat.eqb_spec (length raw) (length (fused_scores hydrated))); cbn [negb]; [| done].
  destruct (negb _); intros [= <-]; cbn; [done | by rewrite length_map; lia].
Qed.
End rows.
