(* ===== verification/PoolPaging.v ===== *)
(** * Paging through a relevance pool, growing it on the way, and its order *)
From S2P Require Import Prelude Keyset PyStr Datetime Errors PySort Score Odict Relevance RelevanceFacts.
From S2P Require Import PageCache BrowseCursor Browse Query Arms Snippet SearchPool PoolFacts.
Import Relevance Sort_axes Pool.

(** ** The cache, read by value *)
Section cache.
Context {V : Type}.
Implicit Types (d : Page_cache.cache (V := V)).

Definition entry_at d (k : pystr) : option V := snd <$> od_get k d.
(** [k]'s entry is the same as before, or gone. *)
Definition keeps d d' (k : pystr) : Prop := entry_at d' k = entry_at d k \/ entry_at d' k = None.

Lemma get_keys c now k d d' r : Page_cache.get c now k d = (d', r) -> NoDup d.*1 -> NoDup d'.*1.
Proof.
  unfold Page_cache.get, od_move_to_end. intros Hg Hn.
  destruct (od_get k d) as [[st v] |]; [| by injection Hg as <- <-].
  destruct (_ <? _); injection Hg as <- <-; [by apply od_del_nodup | by apply od_snoc_nodup].
Qed.
Lemma get_ok c now k d d' v : Page_cache.get c now k d = (d', Ok v) ->
  entry_at d k = Some v /\ forall k', entry_at d' k' = entry_at d k'.
Proof.
  unfold Page_cache.get, od_move_to_end, entry_at. destruct (od_get k d) as [[st w] |] eqn:Ek; [| done].
  destruct (_ <? _); [done |]. intros [= <- <-]. split; [done |]. intros k'. rewrite od_get_snoc.
  case_decide; [subst; by rewrite Ek | done].
Qed.
Lemma get_keeps c now k d d' r k' : Page_cache.get c now k d = (d', r) -> keeps d d' k'.
Proof.
  unfold keeps, Page_cache.get, od_move_to_end, entry_at. destruct (od_get k d) as [[st w] |] eqn:Ek;
    [| by intros [= <- <-]; left].
  destruct (_ <? _); intros [= <- <-]; rewrite ?od_get_del, ?od_get_snoc; case_decide; subst; auto.
  left. by rewrite Ek.
Qed.
Lemma suffix_get (e d : Page_cache.cache (V := V)) k : e `suffix_of` d -> NoDup d.*1 -> keeps d e k.
Proof.
  intros [pre ->] Hn. unfold keeps, entry_at. rewrite od_get_app, fmap_app in *.
  destruct (od_get k e) as [x |] eqn:Ee; [| by right]. left.
  assert (od_get k pre = None) as ->; [| done]. apply od_get_none_keys. intros Hk.
  apply NoDup_app in Hn as (_ & Hd & _). apply (Hd k Hk). apply od_get_elem in Ee.
  by apply list_elem_of_fmap_2 with (f := fst) in Ee.
Qed.
Lemma put_spec c now k v d d' r : Page_cache.put c now k (Page_cache.Instance_ v) d = (d', r) -> NoDup d.*1 ->
  NoDup d'.*1 /\ (entry_at d' k = Some v \/ entry_at d' k = None) /\
  forall k', k' <> k -> keeps d d' k'.
Proof.
  unfold Page_cache.put. rewrite od_put. intros Hp Hn.
  pose proof (od_shrink_suffix (Page_cache.maxsize c) (od_del k d ++ [(k, (now, v))])) as Hs.
  rewrite Hp in Hs. cbn [fst] in Hs.
  pose proof (od_snoc_nodup k (now, v) d Hn) as Hk.
  assert (HG : forall k', entry_at (od_del k d ++ [(k, (now, v))]) k' = if decide (k = k') then Some v else entry_at d k').
  { intros k'. unfold entry_at. rewrite od_get_snoc. by case_decide. }
  split_and!.
  - destruct Hs as [pre Hs]. rewrite Hs, fmap_app in Hk. by apply NoDup_app in Hk as (_ & _ & ?).
  - destruct (suffix_get _ _ k Hs Hk) as [E | E]; [left | by right]. rewrite E, HG. by rewrite decide_True.
  - intros k' Hne. destruct (suffix_get _ _ k' Hs Hk) as [E | E]; [left | by right].
    rewrite E, HG. by rewrite decide_False.
Qed.
End cache.

Section paging.
Context `{Datetime T} {E : Type} `{!Postgres T E} `{PyUnicode}.
Context (cfg : search_config).
Notation cache := (Page_cache.cache (V := PoolEntry T)).
Implicit Types (env : retrieval (T := T) (E := E)) (e : PoolEntry T) (d : cache).

Definition item_ids (l : list (item T)) : list Z := (fun i => fh_message_id (it_fused i)) <$> l.

(** ** The pool *)
Lemma fill_pool_spec reranker env p cpa rps exclude hydrated scores :
  fill_pool cfg reranker env p cpa rps exclude = Ok (hydrated, scores) ->
  length hydrated = length scores /\ NoDup (item_ids hydrated) /\
  forall i, i ∈ hydrated -> fh_message_id (it_fused i) ∉ exclude /\
    row_of (rv_hydrate env) (fh_message_id (it_fused i)) = Some (it_msg i) /\
    exists m, m ∈ arm_rows env /\ mr_id m = fh_message_id (it_fused i) /\
      Sql.kept (Arms.message_where p m) = true.
Proof.
  unfold fill_pool. destruct (retrieve_pool _ _ _ _ _ _) as [fused |] eqn:Er; [| done].
  destruct (pool_scores _ _ _ _ _) as [sc |] eqn:Es; [| done]. intros [= <- <-].
  destruct (retrieve_pool_spec cfg _ _ _ _ _ _ Er) as [Hn Hin]. split_and!.
  - symmetry. by eapply pool_scores_length.
  - eapply sublist_NoDup; [exact Hn |]. unfold item_ids.
    change (fun i => fh_message_id (it_fused i)) with (fh_message_id ∘ it_fused (T := T)).
    rewrite list_fmap_compose. apply fmap_sublist, hydrate_fused.
  - intros i Hi. unfold hydrate in Hi. apply list_elem_of_omap in Hi as (h & Hh & Hhi).
    destruct (hydrate_hit_fused _ _ _ Hhi) as [-> Hrow]. destruct (Hin h Hh) as [? ?]. done.
Qed.

Record pool_wf e : Prop := {
  wf_parallel : length (pe_hydrated e) = length (pe_scores e);
  wf_distinct : NoDup (item_ids (pe_hydrated e));
  wf_excluded : forall i, i ∈ item_ids (pe_hydrated e) -> i ∉ pe_excluded_ids e;
  wf_exclusions : NoDup (pe_excluded_ids e);
  wf_page_size : 0 < pe_page_size e;
  wf_first_page : 1 <= pe_first_page e;
}.
(** The rows of the pool in the order they are served. *)
Definition served_order e : list (item T * float) :=
  match ordered_pool (pe_hydrated e) (pe_scores e) (pe_sort e) with Ok l => l | Err _ => [] end.
Definition page_rows e (page : Z) : list (item T * float) :=
  let start := (page - pe_first_page e) * pe_page_size e in
  slice start (start + pe_page_size e) (served_order e).
(** Every message the pages before [page] have served, of this pool or of the
    ones it grew from. *)
Definition served_before e (page : Z) : list Z :=
  pe_excluded_ids e ++ map item_id (take (Z.to_nat ((page - pe_first_page e) * pe_page_size e)) (served_order e)).

Lemma zip_items (l : list (item T)) (s : list float) : length l = length s ->
  map item_id (zip l s) = item_ids l.
Proof.
  revert s. induction l as [| i l IH]; intros [| x s]; cbn; try done. intros [= Hl].
  f_equal. by apply IH.
Qed.
Lemma ordered_pool_ok e : pool_wf e ->
  ordered_pool (pe_hydrated e) (pe_scores e) (pe_sort e) = Ok (served_order e) /\
  served_order e ≡ₚ zip (pe_hydrated e) (pe_scores e).
Proof.
  intros W. unfold served_order, ordered_pool. rewrite (proj2 (Nat.eqb_eq _ _) (wf_parallel e W)). cbn [negb].
  split; [done |]. destruct (pe_sort e); apply py_sorted_Permutation.
Qed.
Lemma served_order_ids e : pool_wf e -> map item_id (served_order e) ≡ₚ item_ids (pe_hydrated e).
Proof.
  intros W. destruct (ordered_pool_ok e W) as [_ Hp].
  change (map item_id ?l) with (item_id <$> l). rewrite Hp.
  change (item_id <$> ?l) with (map item_id l). by rewrite zip_items by apply W.
Qed.

Lemma slice_split {A} (n k : nat) (l : list A) : take (n + k) l = take n l ++ take k (drop n l).
Proof. by rewrite take_take_drop. Qed.
Lemma served_before_next e page : pool_wf e -> pe_first_page e <= page ->
  served_before e (page + 1) = served_before e page ++ map item_id (page_rows e page).
Proof.
  intros W Hp. pose proof (wf_page_size e W). unfold served_before, page_rows, slice. cbv zeta.
  rewrite <- app_assoc. f_equal. rewrite <- map_app, <- slice_split. do 2 f_equal. nia.
Qed.
Lemma served_before_nodup e page : pool_wf e -> pe_first_page e <= page ->
  NoDup (served_before e page).
Proof.
  intros W Hp. apply NoDup_app. split_and!; [apply W | |].
  - intros i Hi Hin. apply (wf_excluded e W i); [| done]. rewrite <- (served_order_ids e W).
    apply list_elem_of_In, in_map_iff in Hin as (x & <- & Hin). apply list_elem_of_In in Hin.
    apply elem_of_take in Hin as (j & Hj & _). apply (list_elem_of_fmap_2 item_id).
    by eapply list_elem_of_lookup_2.
  - rewrite <- firstn_map. eapply sublist_NoDup; [| apply sublist_take].
    rewrite served_order_ids by done. apply W.
Qed.

Definition page_ids (p : pool_page T) : list Z := sr_message_id <$> pp_results p.

Lemma build_results_ids names hydrated p scores page ps sort width results :
  build_results names hydrated p scores page ps sort width = Ok results ->
  exists ordered, ordered_pool hydrated scores sort = Ok ordered /\
    sr_message_id <$> results = map item_id (slice ((page - 1) * ps) ((page - 1) * ps + ps) ordered).
Proof.
  unfold build_results. destruct (ordered_pool _ _ _) as [ordered |]; [| done]. intros [= <-].
  exists ordered. split; [done |]. rewrite fmap_imap. generalize (slice ((page - 1) * ps) ((page - 1) * ps + ps) ordered).
  intros l. apply list_eq. intros i. rewrite list_lookup_imap, list_lookup_fmap. by destruct (l !! i).
Qed.

(** A page that is served is the next slice of its pool, which stays cached. *)
Lemma continue_page_ok now names token page user sc d d' pg :
  continue_page cfg now names token page user sc d = (d', Ok pg) ->
  exists e, entry_at d token = Some e /\ (forall k, entry_at d' k = entry_at d k) /\
    (pool_wf e -> pe_first_page e <= page /\ page_ids pg = map item_id (page_rows e page)).
Proof.
  unfold continue_page. destruct (resolve_width cfg sc) as [w |]; [| done].
  destruct (Page_cache.get _ _ _ _) as [d1 got] eqn:Eg. intros [= <- Hr].
  destruct got as [e |]; [| done]. destruct (get_ok _ _ _ _ _ _ Eg) as [He Hk].
  exists e. split; [done |]. split; [done |]. intros W. pose proof (wf_first_page e W).
  destruct (foreign user e); [done |].
  destruct ((1 <=? page) && (page <? pe_first_page e)) eqn:E1; [done |].
  destruct (pe_page_size e =? 0); [done |].
  destruct (page <? 1) eqn:E2; cbn [orb] in Hr; [done |].
  assert (Hp : pe_first_page e <= page) by zb. split; [done |].
  destruct (Z.max 1 _ <? _); [done |].
  destruct (build_results _ _ _ _ _ _ _ _) as [results |] eqn:Eb; [| done].
  destruct (build_results_ids _ _ _ _ _ _ _ _ _ Eb) as (ordered & Ho & Hids).
  unfold make_page in Hr. destruct (ordering_pair_error _ _); [done |]. injection Hr as <-.
  unfold page_ids. cbn [pp_results]. rewrite Hids. unfold page_rows, served_order. rewrite Ho.
  cbv zeta. do 2 f_equal; lia.
Qed.
Lemma continue_page_keeps now names token page user sc d d' r k :
  continue_page cfg now names token page user sc d = (d', r) -> keeps d d' k.
Proof.
  unfold continue_page. destruct (resolve_width cfg sc); [| intros [= <- _]; by left].
  destruct (Page_cache.get _ _ _ _) as [d1 got] eqn:Eg. intros [= <- _]. by eapply get_keeps.
Qed.
Lemma continue_page_keys now names token page user sc d d' r :
  continue_page cfg now names token page user sc d = (d', r) -> NoDup d.*1 -> NoDup d'.*1.
Proof.
  unfold continue_page. destruct (resolve_width cfg sc); [| by intros [= <- _]].
  destruct (Page_cache.get _ _ _ _) as [d1 got] eqn:Eg. intros [= <- _]. by eapply get_keys.
Qed.

Lemma put_pool_spec now token e d d' r : put_pool cfg now token e d = (d', r) -> NoDup d.*1 ->
  NoDup d'.*1 /\ (forall k, k <> token -> keeps d d' k) /\
  ((d' = d /\ exists x, r = Err x) \/ entry_at d' token = Some e \/ entry_at d' token = None).
Proof.
  unfold put_pool. destruct (make_pool e) as [e' |] eqn:Em.
  - assert (e' = e) as -> by (unfold make_pool in Em; repeat case_match; congruence).
    intros Hp Hn. destruct (put_spec _ _ _ _ _ _ _ Hp Hn) as (? & ? & ?). split_and!; [done.. | by right].
  - intros [= <- <-] Hn. split_and!; [done | by intros k _; left | left; split; [done | by eexists]].
Qed.

(** What a grow leaves under its token: the old pool, nothing, or a pool that
    starts at the page asked for and leaves out everything served before it. *)
Definition grown_from e page e' : Prop :=
  pool_wf e' /\ pe_first_page e' = page /\ pe_excluded_ids e' = served_before e page.
Lemma grow_pool_step reranker env now later names token cpa page user sc d d' r :
  grow_pool cfg reranker env now later names token cpa page user sc d = (d', r) -> NoDup d.*1 ->
  (forall e, entry_at d token = Some e -> pool_wf e) ->
  NoDup d'.*1 /\
  (keeps d d' token \/ exists e e', entry_at d token = Some e /\ pe_first_page e <= page /\
     grown_from e page e' /\ (entry_at d' token = Some e' \/ entry_at d' token = None)) /\
  (forall pg, r = Ok pg -> exists e e', entry_at d token = Some e /\ pe_first_page e <= page /\
     grown_from e page e' /\ entry_at d' token = Some e' /\ page_ids pg = map item_id (page_rows e' page)).
Proof.
  intros Hg Hn Hwf. unfold grow_pool in Hg. destruct (resolve_width cfg sc) as [w |];
    [| injection Hg as <- <-; split_and!; [done | by left; left | done]].
  destruct (Page_cache.get _ _ _ _) as [d1 got] eqn:Eg.
  pose proof (get_keys _ _ _ _ _ _ Eg Hn) as Hn1. pose proof (get_keeps _ _ _ _ _ _ token Eg) as Hk1.
  destruct got as [e | x]; [| injection Hg as <- <-; split_and!; [done | by left | done]].
  destruct (get_ok _ _ _ _ _ _ Eg) as [He Hsame]. pose proof (Hwf e He) as W.
  destruct (foreign user e); [injection Hg as <- <-; split_and!; [done | by left | done] |].
  destruct (Z.ltb_spec page (pe_first_page e)); [injection Hg as <- <-; split_and!; [done | by left | done] |].
  destruct (ordered_pool_ok e W) as [Ho _]. rewrite Ho in Hg.
  destruct (fill_pool _ _ _ _ _ _ _) as [[hyd sco] |] eqn:Ef;
    [| injection Hg as <- <-; split_and!; [done | by left | done]].
  destruct (fill_pool_spec _ _ _ _ _ _ _ _ Ef) as (Hpar & Hdis & Hex).
  pose proof (wf_page_size e W) as Hps. pose proof (wf_first_page e W) as Hf1.
  assert (Hxs : pe_excluded_ids e ++ map item_id (slice_to ((page - pe_first_page e) * pe_page_size e)
            (served_order e)) = served_before e page).
  { unfold slice_to. rewrite (proj2 (Z.ltb_ge _ _)) by nia. done. }
  rewrite Hxs in Hg, Hex. clear Hxs. set (e' := MkPool _ hyd sco _ _ _ _ _ _ _ _) in Hg.
  assert (Hgr : grown_from e page e').
  { split; [| done]. split; cbn; [done | done | | by apply served_before_nodup | done | lia].
    intros i (it & -> & Hit)%list_elem_of_fmap. by apply (Hex it Hit). }
  destruct (put_pool _ _ _ _ _) as [d2 rp] eqn:Ep.
  destruct (put_pool_spec _ _ _ _ _ _ Ep Hn1) as (Hn2 & _ & Hput).
  destruct rp as [[] | x].
  - assert (Hput' : entry_at d2 token = Some e' \/ entry_at d2 token = None)
      by (destruct Hput as [[_ [x Hx]] | ?]; done).
    pose proof (continue_page_keys _ _ _ _ _ _ _ _ _ Hg Hn2) as Hn3.
    pose proof (continue_page_keeps _ _ _ _ _ _ _ _ _ token Hg) as Hk3. split_and!; [done | |].
    + right. exists e, e'. split_and!; [done.. |]. unfold keeps in Hk3.
      destruct Hk3 as [-> | ->]; [done | by right].
    + intros pg ->. destruct (continue_page_ok _ _ _ _ _ _ _ _ _ Hg) as (e2 & He2 & Hs2 & Hids).
      exists e, e'. destruct Hput' as [Hp | Hp]; [| congruence].
      assert (e2 = e') as -> by congruence. rewrite Hs2. split_and!; [done.. |]. apply Hids, Hgr.
  - injection Hg as <- <-. split_and!; [done | | done].
    destruct Hput as [[-> _] | Hput]; [by left |]. right. exists e, e'. done.
Qed.

(** Whatever a grow leaves cached was retrieved with the arm size asked for. *)
Lemma grow_pool_cpa reranker env now later names token cpa page user sc d d' pg :
  grow_pool cfg reranker env now later names token cpa page user sc d = (d', Ok pg) -> NoDup d.*1 ->
  NoDup d'.*1 /\ forall e, entry_at d' token = Some e -> pe_candidates_per_arm e = cpa.
Proof.
  intros Hg Hn. unfold grow_pool in Hg. destruct (resolve_width cfg sc) as [w |]; [| done].
  destruct (Page_cache.get _ _ _ _) as [d1 got] eqn:Eg. pose proof (get_keys _ _ _ _ _ _ Eg Hn) as Hn1.
  destruct got as [e |]; [| done]. destruct (foreign user e); [done |]. destruct (_ <? _); [done |].
  destruct (ordered_pool _ _ _); [| done]. destruct (fill_pool _ _ _ _ _ _ _) as [[hyd sco] |]; [| done].
  destruct (put_pool _ _ _ _ _) as [d2 rp] eqn:Ep. destruct (put_pool_spec _ _ _ _ _ _ Ep Hn1) as (Hn2 & _ & Hput).
  destruct rp; [| done]. split; [by eapply continue_page_keys |].
  intros e0 He0. destruct (continue_page_keeps _ _ _ _ _ _ _ _ _ token Hg) as [Hk | Hk]; [| congruence].
  rewrite Hk in He0. destruct Hput as [[_ [x Hx]] | [Hp | Hp]]; [done | | congruence].
  assert (He : e0 = MkPool (resolve_account_names (rv_account_names env) (pe_parsed e)) hyd sco cpa
    (Z.max cpa (pe_rerank_pool_size e)) (pe_page_size e) (pe_user_id e) (pe_sort e) (pe_sort_order e) page
    (pe_excluded_ids e ++ map item_id (slice_to ((page - pe_first_page e) * pe_page_size e) a)))
    by congruence. by rewrite He.
Qed.

(** ** A client's walk

    [paging token d n served]: the ids of the pages handed to a client that took
    page 1 and then the following pages in order, page [n] being next.  Between
    two of its requests anything may happen to the cache that leaves the pool's
    entry alone or drops it; a request may fail, or its answer be lost, and be
    made again. *)
Inductive paging (token : pystr) : cache -> Z -> list Z -> Prop :=
  | first_page reranker env names p cpa rps ps user sort order width d d' pg :
      NoDup d.*1 -> 0 < ps ->
      search_pool cfg reranker env names (Some token) p cpa rps ps user sort order width d = (d', Ok pg) ->
      paging token d' 2 (page_ids pg)
  | next_page d n served now names user sc d' pg :
      paging token d n served ->
      continue_page cfg now names token n user sc d = (d', Ok pg) ->
      paging token d' (n + 1) (served ++ page_ids pg)
  | grown_page d n served reranker env now later names cpa user sc d' pg :
      paging token d n served ->
      grow_pool cfg reranker env now later names token cpa n user sc d = (d', Ok pg) ->
      paging token d' (n + 1) (served ++ page_ids pg)
  | page_lost d n served now names page user sc d' r :
      paging token d n served ->
      continue_page cfg now names token page user sc d = (d', r) ->
      paging token d' n served
  | grow_lost d n served reranker env now later names cpa user sc d' r :
      paging token d n served ->
      grow_pool cfg reranker env now later names token cpa n user sc d = (d', r) ->
      paging token d' n served
  | elsewhere d n served d' :
      paging token d n served -> NoDup d'.*1 -> keeps d d' token ->
      paging token d' n served.

Definition walk_inv (token : pystr) d (n : Z) (served : list Z) : Prop :=
  NoDup d.*1 /\ NoDup served /\
  forall e, entry_at d token = Some e ->
    pool_wf e /\ pe_first_page e <= n /\ served ⊆ served_before e n.

Lemma walk_inv_keeps token d d' n served :
  walk_inv token d n served -> NoDup d'.*1 -> keeps d d' token -> walk_inv token d' n served.
Proof.
  intros (Hn & Hs & He) Hn' Hk. split_and!; [done.. |]. intros e Hd'. apply He.
  unfold keeps in Hk. destruct Hk as [Hk | Hk]; congruence.
Qed.
(** Serving page [n] of a pool extends what was served by new messages. *)
Lemma serve_page e n served :
  pool_wf e -> pe_first_page e <= n -> NoDup served -> served ⊆ served_before e n ->
  NoDup (served ++ map item_id (page_rows e n)) /\
  served ++ map item_id (page_rows e n) ⊆ served_before e (n + 1).
Proof.
  intros W Hp Hs Hsub. pose proof (served_before_nodup e (n + 1) W) as Hnd.
  rewrite served_before_next in * by done.
  destruct (proj1 (NoDup_app _ _) (Hnd ltac:(lia))) as (_ & Hdis & Hnew). split.
  - apply NoDup_app. split_and!; [done | | done]. intros i Hi. apply Hdis. by apply Hsub.
  - intros i. rewrite !elem_of_app. intros [Hi | Hi]; [left; by apply Hsub | by right].
Qed.

Lemma grow_walk_inv token d d' n served e e' :
  walk_inv token d n served -> entry_at d token = Some e -> pe_first_page e <= n -> grown_from e n e' ->
  served ⊆ served_before e' n.
Proof.
  intros (_ & _ & He) Hd Hp (W' & Hf & Hx). destruct (He e Hd) as (_ & _ & Hsub).
  unfold served_before at 1. rewrite Hx. set_solver.
Qed.

Lemma paging_inv token d n served : paging token d n served -> walk_inv token d n served.
Proof.
  induction 1 as [reranker env names p cpa rps ps user sort order width d d' pg Hn Hps Hs
    | d n served now names user sc d' pg _ IH Hc | d n served reranker env now later names cpa user sc d' pg _ IH Hg
    | d n served now names page user sc d' r _ IH Hc | d n served reranker env now later names cpa user sc d' r _ IH Hg
    | d n served d' _ IH Hn Hk].
  - unfold search_pool in Hs. destruct (fill_pool _ _ _ _ _ _ _) as [[hyd sco] |] eqn:Ef; [| done].
    destruct (build_results _ _ _ _ _ _ _ _) as [results |] eqn:Eb; [| done].
    destruct (fill_pool_spec _ _ _ _ _ _ _ _ Ef) as (Hpar & Hdis & _).
    destruct (put_pool _ _ _ _ _) as [d1 stored] eqn:Ep. injection Hs as <- Hpg.
    destruct stored as [[] | x]; [| done]. unfold make_page in Hpg.
    destruct (ordering_pair_error _ _); [done |]. injection Hpg as <-. cbn [page_ids pp_results].
    set (e := MkPool _ hyd sco _ _ _ _ _ _ _ _) in Ep.
    assert (W : pool_wf e) by (split; cbn; [done | done | set_solver | constructor | done | lia]).
    destruct (build_results_ids _ _ _ _ _ _ _ _ _ Eb) as (ordered & Ho & Hids).
    assert (Hpage : page_ids (PoolPage results 1 ps (Z.of_nat (length hyd)) cpa (ps <? Z.of_nat (length hyd))
              true (Some token) (resolve_account_names (rv_account_names env) p) sort
              (is_rankable (free_text (resolve_account_names (rv_account_names env) p)))) = map item_id (page_rows e 1)).
    { unfold page_ids. cbn [pp_results]. rewrite Hids. unfold page_rows, served_order. cbn. by rewrite Ho. }
    rewrite Hpage. destruct (serve_page e 1 []) as [Hnd Hsub]; [done | cbn; lia | constructor | set_solver |].
    destruct (put_pool_spec _ _ _ _ _ _ Ep Hn) as (Hn1 & _ & Hput). split_and!; [done | done |].
    intros e0 He0. destruct Hput as [[_ [x Hx]] | [He | He]]; [done | | congruence].
    assert (e0 = e) as -> by congruence. split_and!; [done | cbn; lia | done].
  - destruct (continue_page_ok _ _ _ _ _ _ _ _ _ Hc) as (e & He & Hsame & Hids).
    destruct IH as (Hn & Hs & Hinv). destruct (Hinv e He) as (W & Hp & Hsub).
    destruct (Hids W) as [_ ->]. destruct (serve_page e n served W Hp Hs Hsub) as [Hnd Hsub'].
    split_and!; [by eapply continue_page_keys | done |]. intros e0 He0. rewrite Hsame in He0.
    assert (e0 = e) as -> by congruence. split_and!; [done | lia | done].
  - destruct (grow_pool_step _ _ _ _ _ _ _ _ _ _ _ _ _ Hg) as (Hn' & _ & Hok); [apply IH | |].
    { intros e He. by apply IH in He as [? _]. }
    destruct (Hok pg eq_refl) as (e & e' & He & Hp & Hgr & He' & ->).
    pose proof (grow_walk_inv token d d' n served e e' IH He Hp Hgr) as Hsub.
    destruct Hgr as (W' & Hf & Hx). destruct IH as (_ & Hs & _).
    destruct (serve_page e' n served W' ltac:(lia) Hs Hsub) as [Hnd Hsub'].
    split_and!; [done.. |]. intros e0 He0. assert (e0 = e') as -> by congruence. split_and!; [done | lia | done].
  - eapply walk_inv_keeps; [done | | by eapply continue_page_keeps].
    eapply continue_page_keys; [done | apply IH].
  - destruct (grow_pool_step _ _ _ _ _ _ _ _ _ _ _ _ _ Hg) as (Hn' & Hk & _); [apply IH | |].
    { intros e He. by apply IH in He as [? _]. }
    destruct Hk as [Hk | (e & e' & He & Hp & Hgr & Hd')]; [by eapply walk_inv_keeps |].
    pose proof (grow_walk_inv token d d' n served e e' IH He Hp Hgr) as Hsub.
    destruct Hgr as (W' & Hf & Hx). destruct IH as (_ & Hs & _). split_and!; [done.. |].
    intros e0 He0. destruct Hd' as [Hd' | Hd']; [| congruence].
    assert (e0 = e') as -> by congruence. split_and!; [done | lia | done].
  - by eapply walk_inv_keeps.
Qed.

(** C3: paging a ranked search serves each message once.  A client that takes
    page 1 and then the pages after it in order is never handed a message
    twice, however often the pool is grown on the way, whatever the grown
    retrieval, the reranker and the database return, whatever other callers do
    to the cache, and although requests fail or are repeated. *)
Theorem paging_serves_once (token : pystr) (d : cache) (n : Z) (served : list Z) :
  paging token d n served -> NoDup served.
Proof. intros Hp. by apply paging_inv in Hp as (_ & Hs & _). Qed.
End paging.

(** ** A run: one message per page, the second page needs a grow *)
Module Example_pool.
#[local] Existing Instance Query.ascii_unicode.
#[local] Instance sample_postgres : Postgres Calendar.datetime () := {|
  ilike _ _ := false; pg_lower s := s; date_midnight _ := 0; msg_fts _ _ := true;
  names_fts _ _ := false; empty_fts _ := false; chunk_fts _ _ := false;
  rank_msg _ _ m := float_of_int (mr_id m); rank_names _ _ _ := fzero; rank_chunk _ _ := fzero;
  distance _ _ := fzero; hnsw_scan _ ef _ l := take (Z.to_nat ef) l;
  hnsw_scan_sub _ ef _ l := sublist_submseteq _ _ (sublist_take l (Z.to_nat ef));
|}.
Definition no_filters : SearchFilters :=
  MkFilters [] None None None None None None None None None None None None None.
Definition sample_query : ParsedQuery := MkParsed (lit "tax") None [] no_filters.
Definition sample_row (id account : Z) : mail_row Calendar.datetime :=
  MailRow (Message id (Some (lit "Tax")) None None (Some (Browse.sample_dt 1)) None account) []
    (Some (lit "tax return")) (Some []) None [].
Definition sample_rows : list (mail_row Calendar.datetime) := [sample_row 4 1; sample_row 7 1; sample_row 9 2].
Definition sample_corpus : Arms.corpus (T := Calendar.datetime) (E := ()) := Arms.Corpus sample_rows [] [].
Definition sample_env : retrieval (T := Calendar.datetime) (E := ()) :=
  Retrieval [] sample_corpus sample_corpus sample_corpus sample_corpus (fun _ => tt) sample_rows sample_rows
    [] [] (fun _ _ => None) 0.
Definition sample_config : search_config :=
  SearchConfig (Arms.ArmConfig fone fone fone fone 10 3 64) 60 50 100 800 20 200 1500 200 1000 8
    (Page_cache.CacheConfig 16 1200).
Definition token : pystr := lit "tok".

Definition page_one := search_pool sample_config false sample_env sample_rows (Some token) sample_query
  1 1 1 (Some 5) SortRank Desc 200 [].
Definition page_two := grow_pool sample_config false sample_env 1 1 sample_rows token 4 2 (Some 5) None page_one.1.
Definition page_three := continue_page sample_config 2 sample_rows token 3 (Some 5) None page_two.1.
Definition ids_of (r : res exn (pool_page Calendar.datetime)) : list Z :=
  match r with Ok p => page_ids p | Err _ => [] end.
Example sample_pages : map (fun r => ids_of r) [page_one.2; page_two.2; page_three.2] = [[9]; [7]; [4]].
Proof. by vm_compute. Qed.

Lemma page_of (r : Page_cache.cache (V := PoolEntry Calendar.datetime) * res exn (pool_page Calendar.datetime)) :
  is_ok r.2 = true -> exists pg, r = (r.1, Ok pg) /\ page_ids pg = ids_of r.2.
Proof. destruct r as [d [pg | e]]; [| done]. intros _. by exists pg. Qed.
Lemma sample_walk : paging (T := Calendar.datetime) (E := ()) sample_config token page_three.1 4
  (([9] ++ [7]) ++ [4]).
Proof.
  destruct (page_of page_one) as (p1 & E1 & I1); [by vm_compute |].
  destruct (page_of page_two) as (p2 & E2 & I2); [by vm_compute |].
  destruct (page_of page_three) as (p3 & E3 & I3); [by vm_compute |].
  replace [9] with (page_ids p1) by (rewrite I1; by vm_compute).
  replace [7] with (page_ids p2) by (rewrite I2; by vm_compute).
  replace [4] with (page_ids p3) by (rewrite I3; by vm_compute).
  eapply (next_page _ _ _ 3); [| exact E3]. eapply (grown_page _ _ _ 2); [| exact E2].
  eapply first_page; [| | exact E1]; [apply NoDup_nil_2 | done].
Qed.
Lemma paging_serves_once_witness : ids_of page_two.2 = [7] /\ NoDup (([9] ++ [7]) ++ [4]).
Proof.
  split; [by vm_compute |].
  exact (paging_serves_once sample_config token page_three.1 4 (([9] ++ [7]) ++ [4]) sample_walk).
Defined.
End Example_pool.

(** ** The order of a pool *)
Section order.
Context `{Datetime T} {E : Type} `{!Postgres T E} `{PyUnicode}.
Context (cfg : search_config).
Implicit Types (env : retrieval (T := T) (E := E)) (rows : list (mail_row T)).

(** The reference: every candidate by (score, date, id). *)
Definition candidate_key rows (h : FusedHit) : float * (Z * Z) * Z :=
  relevance_key (fh_rrf_score h) (sort_date_in rows (fh_message_id h)) (fh_message_id h).
Definition by_relevance rows (fused : list FusedHit) : list FusedHit :=
  py_sorted (key_before (candidate_key rows)) fused.

Definition ordinary (h : FusedHit) : Prop := is_nan (fh_rrf_score h) = false.
Lemma candidate_before_code rows a b : ordinary a -> ordinary b ->
  key_before (candidate_key rows) a b
  = bool_decide (lexc (key_code (candidate_key rows a)) (key_code (candidate_key rows b)) = Gt).
Proof. intros Ha Hb. by apply key_before_code. Qed.
Lemma candidate_code_id rows a b :
  key_code (candidate_key rows a) = key_code (candidate_key rows b) -> fh_message_id a = fh_message_id b.
Proof.
  unfold candidate_key, relevance_key, key_code.
  destruct (date_key (sort_date_in rows (fh_message_id a))), (date_key (sort_date_in rows (fh_message_id b))).
  intros Hc. apply app_inj_2 in Hc as [_ Hc]; [by injection Hc | done].
Qed.
Lemma distinct_codes rows (fused : list FusedHit) : NoDup (fh_message_id <$> fused) ->
  forall a b, a ∈ fused -> b ∈ fused ->
    key_code (candidate_key rows a) = key_code (candidate_key rows b) -> a = b.
Proof.
  intros Hn a b Ha Hb Hc%candidate_code_id.
  apply list_elem_of_lookup in Ha as [i Ha], Hb as [j Hb].
  assert (i = j) as <-; [| congruence].
  eapply (NoDup_lookup _ i j (fh_message_id a) Hn); rewrite list_lookup_fmap, ?Ha, ?Hb; cbn; congruence.
Qed.

Lemma fetched_date rows ids id : id ∈ ids -> default None (fetch_sort_dates rows ids !! id) = sort_date_in rows id.
Proof.
  intros Hid. unfold fetch_sort_dates. destruct (list_to_map _ !! id) as [x |] eqn:El.
  - apply elem_of_list_to_map_2 in El. apply list_elem_of_In, in_map_iff in El as (i & [= -> <-] & _). done.
  - apply not_elem_of_list_to_map in El. exfalso. apply El.
    rewrite <- list_fmap_compose. apply (list_elem_of_fmap_2 (fst ∘ (fun id => (id, sort_date_in rows id)))) in Hid.
    done.
Qed.

(** The cut is the head of the reference order. *)
Lemma cut_pool_reference rows fused limit : 0 <= limit ->
  cut_pool rows fused limit ≡ₚ take (Z.to_nat limit) (by_relevance rows fused).
Proof.
  intros Hl. unfold cut_pool. destruct (Z.leb_spec (Z.of_nat (length fused)) limit).
  - unfold by_relevance. rewrite take_ge; [by rewrite py_sorted_Permutation |].
    rewrite py_sorted_length. lia.
  - unfold slice_to. rewrite (proj2 (Z.ltb_ge _ _)) by done. cbv zeta.
    assert (py_sorted (key_before (fused_key (fetch_sort_dates rows (map fh_message_id fused)))) fused
            = by_relevance rows fused) as ->; [| done].
    unfold by_relevance. rewrite <- (map_id (py_sorted _ fused)) at 1.
    rewrite (py_sorted_map _ (key_before (candidate_key rows)) (fun h => h)); [by rewrite map_id |].
    intros x y Hx Hy. unfold key_before, fused_key, candidate_key.
    rewrite !fetched_date by by apply list_elem_of_fmap_2. done.
Qed.

Lemma hydrate_all env fused :
  (forall h, h ∈ fused -> is_Some (row_of (rv_hydrate env) (fh_message_id h))) ->
  map it_fused (hydrate env fused) = fused.
Proof.
  unfold hydrate. induction fused as [| h l IH]; intros Hr; [done |]. cbn [omap list_omap].
  destruct (hydrate_hit env h) as [i |] eqn:Ei.
  - pose proof (hydrate_hit_fused _ _ _ Ei) as [Hf _]. cbn. rewrite Hf, IH; [done |]. intros; apply Hr; by right.
  - exfalso. destruct (Hr h) as [m Hm]; [left |]. unfold hydrate_hit in Ei. by rewrite Hm in Ei.
Qed.

(** Served order and reference order are one, row by row. *)
Lemma served_is_reference env (hydrated : list (item T)) :
  (forall i, i ∈ hydrated -> row_of (rv_hydrate env) (fh_message_id (it_fused i)) = Some (it_msg i)) ->
  map (fun x => it_fused x.1) (py_sorted (key_before served_key) (zip hydrated (fused_scores hydrated)))
  = by_relevance (rv_hydrate env) (map it_fused hydrated).
Proof.
  intros Hrow. unfold by_relevance.
  rewrite (py_sorted_map _ (key_before (candidate_key (rv_hydrate env))) (fun x : item T * float => it_fused x.1)).
  - f_equal. unfold fused_scores. clear Hrow. induction hydrated as [| i l IH]; [done |]. cbn. by rewrite IH.
  - assert (Hz : forall x, x ∈ zip hydrated (fused_scores hydrated) ->
              served_key x = candidate_key (rv_hydrate env) (it_fused x.1)).
    { intros [i s] Hx. unfold served_key, candidate_key, item_id, sort_date_in, msg_date. cbn [fst snd].
      assert (Hi : i ∈ hydrated /\ s = fh_rrf_score (it_fused i)).
      { clear -Hx. unfold fused_scores in Hx. induction hydrated as [| j l IH]; cbn in Hx; [by apply elem_of_nil in Hx |].
        apply elem_of_cons in Hx as [[= -> ->] | Hx]; [split; [left | done] |].
        destruct (IH Hx). split; [by right | done]. }
      destruct Hi as [Hi ->]. by rewrite (Hrow i Hi). }
    intros x y Hx Hy. unfold key_before. by rewrite !Hz.
Qed.

(** C12: without a reranker the cut, the hydration and the page sort compute the
    head of one order.  When the database does not change between the
    statements, the pool in served order is exactly the first
    [rerank_pool_size] candidates by (score, newest date first, id), however
    the arms, the fusion and the cut happened to list them; so no page shows a
    row while a better one was dropped. *)
Theorem pool_is_reference_head (env : retrieval (T := T) (E := E)) p cpa rps exclude fused hydrated scores :
  0 <= rps -> rv_dates env = rv_hydrate env ->
  rrf_fuse [ Arms.arm_bm25_messages (sc_arms cfg) (Arms.co_messages (rv_arm1 env)) p cpa;
             Arms.arm_bm25_chunks (Arms.co_messages (rv_arm2 env)) (Arms.co_chunks (rv_arm2 env)) p cpa;
             Arms.arm_vector_chunks (sc_arms cfg) (Arms.co_messages (rv_arm3 env)) (Arms.co_chunks (rv_arm3 env)) p
               (rv_embed env (model_text p)) cpa;
             Arms.arm_vector_attachment_chunks (sc_arms cfg) (Arms.co_messages (rv_arm4 env))
               (Arms.co_att_chunks (rv_arm4 env)) p (rv_embed env (model_text p)) cpa ] (sc_rrf_k cfg) = Ok fused ->
  (forall h, h ∈ fused -> ordinary h) ->
  (forall h, h ∈ fused -> is_Some (row_of (rv_hydrate env) (fh_message_id h))) ->
  fill_pool cfg false env p cpa rps exclude = Ok (hydrated, scores) ->
  exists ordered, ordered_pool hydrated scores SortRank = Ok ordered /\
    map (fun x => it_fused x.1) ordered =
      take (Z.to_nat rps) (by_relevance (rv_hydrate env) (filter (fun h => fh_message_id h ∉ exclude) fused)).
Proof.
  intros Hrps Hdb Hf Hord Hrow Hfill.
  destruct (rrf_fuse_ids _ _ _ Hf) as [Hn _].
  unfold fill_pool, retrieve_pool in Hfill. rewrite Hf, Hdb in Hfill.
  set (kept := filter (fun h => fh_message_id h ∉ exclude) fused) in *.
  set (cut := cut_pool (rv_hydrate env) kept rps) in *.
  assert (Hkin : forall h, h ∈ kept -> h ∈ fused) by (intros h; unfold kept; rewrite list_elem_of_filter; tauto).
  pose proof (cut_pool_reference (rv_hydrate env) kept rps Hrps) as Hcut. fold cut in Hcut.
  assert (Hcin : forall h, h ∈ cut -> h ∈ kept).
  { intros h. rewrite Hcut. intros (j & Hj & _)%elem_of_take. apply list_elem_of_lookup_2 in Hj.
    by apply py_sorted_elem in Hj. }
  assert (Hhyd : map it_fused (hydrate env cut) = cut) by (apply hydrate_all; auto).
  assert (Hsc : pool_scores cfg false env p (hydrate env cut) = Ok (fused_scores (hydrate env cut)))
    by (unfold pool_scores; by destruct (hydrate env cut)).
  rewrite Hsc in Hfill. injection Hfill as <- <-.
  eexists. split.
  { unfold ordered_pool. rewrite (proj2 (Nat.eqb_eq _ _)) by (unfold fused_scores; by rewrite length_map). done. }
  rewrite (served_is_reference env), Hhyd.
  - assert (Hkn : NoDup (fh_message_id <$> kept))
      by (eapply sublist_NoDup; [exact Hn | apply fmap_sublist, sublist_filter]).
    set (before := key_before (candidate_key (rv_hydrate env))).
    set (code := fun h => key_code (candidate_key (rv_hydrate env) h)).
    apply (sorted_unique before).
    + intros x y Hx Hy. unfold by_relevance in Hx, Hy. rewrite py_sorted_elem in Hx, Hy. intros H1 H2.
      apply (distinct_codes (rv_hydrate env) kept Hkn); [auto.. |].
      apply (desc_antisym before ordinary code (candidate_before_code _)); auto.
    + apply (desc_sorted before ordinary code (candidate_before_code _)), Forall_forall. auto.
    + apply sorted_take, (desc_sorted before ordinary code (candidate_before_code _)), Forall_forall. auto.
    + unfold by_relevance at 1. by rewrite py_sorted_Permutation.
  - intros i Hi. unfold hydrate in Hi. apply list_elem_of_omap in Hi as (h & _ & Hh).
    destruct (hydrate_hit_fused _ _ _ Hh) as [-> ->]. done.
Qed.
End order.

(** Three candidates, room for two. *)
Module Example_order.
Import Example_pool.
#[local] Existing Instance Query.ascii_unicode.
#[local] Existing Instance sample_postgres.
Definition sample_fused : list FusedHit :=
  [ MkFused 9 None TMessage (fdiv fone (float_of_int 61)) [0%nat];
    MkFused 7 None TMessage (fdiv fone (float_of_int 62)) [0%nat];
    MkFused 4 None TMessage (fdiv fone (float_of_int 63)) [0%nat] ].
Definition sample_hydrated : list (item Calendar.datetime) :=
  map (fun h => Item h (sample_row (fh_message_id h) (if fh_message_id h =? 9 then 2 else 1)) (lit "tax return") None None)
    (take 2 sample_fused).
Lemma pool_is_reference_head_witness :
  exists ordered, ordered_pool sample_hydrated (fused_scores sample_hydrated) SortRank = Ok ordered /\
    map (fun x => it_fused x.1) ordered =
      take 2 (by_relevance sample_rows (filter (fun h => fh_message_id h ∉ []) sample_fused)).
Proof.
  apply (pool_is_reference_head sample_config sample_env sample_query 3 2 [] sample_fused).
  - lia.
  - reflexivity.
  - vm_compute. reflexivity.
  - apply Forall_forall. repeat constructor.
  - apply Forall_forall. unfold sample_fused. repeat constructor; vm_compute; eauto.
  - vm_compute. reflexivity.
Defined.
End Example_order.
