(* ===== verification/DateKeyset.v ===== *)
(** * The date-ordered search walk ([search/date_keyset.py] and
    [Searcher._date_keyset_search])

    One keyset query in either direction, with the undated block topped up on
    a descending continuation. *)
From S2P Require Import Prelude Keyset PyStr Datetime Errors BrowseCursor Browse Query.
Import Sort_axes.

(** [searcher.KeysetCursor] *)
Record KeysetCursor (T : Type) := MkKeyset {
  ks_ts : option T;
  ks_id : Z;
  ks_order : sort_order;
  ks_walk : keyset_walk;
}.
Arguments MkKeyset {T}. Arguments ks_ts {T}. Arguments ks_id {T}.
Arguments ks_order {T}. Arguments ks_walk {T}.

(** The columns of [searcher.SearchResult] this walk fills; the rest are
    constants. *)
Record search_hit (T : Type) := SearchHit {
  sh_message_id : Z;
  sh_account_id : Z;
  sh_rank : nat;
  sh_subject : option pystr;
  sh_from_addr : option pystr;
  sh_from_name : option pystr;
  sh_date_sent : option T;
  sh_internal_date : option T;
}.
Arguments SearchHit {T}. Arguments sh_message_id {T}. Arguments sh_account_id {T}.
Arguments sh_rank {T}. Arguments sh_subject {T}. Arguments sh_from_addr {T}. Arguments sh_from_name {T}.
Arguments sh_date_sent {T}. Arguments sh_internal_date {T}.

Module Date_keyset.
Section keyset.
Context `{Datetime T}.

(** [compose_date_keyset_sql] and the execution of what it composes. *)
Definition compose_date_keyset_sql (where_ : message T -> Sql.cond) (order : sort_order) :
    res exn (nat -> list (message T) -> list (message T)) :=
  match order with
  | Desc => Ok (fun limit rows => select desc_le where_ limit rows)
  | Asc => Ok (fun limit rows => select asc_le where_ limit rows)
  | OtherOrder _ => Err ValueError
  end.

Definition keyset_clause (k : KeysetCursor T) : res exn (message T -> Sql.cond) :=
  match ks_order k with
  | OtherOrder _ => Err ValueError
  | Desc => match ks_ts k with
            | None => Ok (behind_undated_desc (ks_id k))
            | Some ts => Ok (behind_dated_desc (instant ts) (ks_id k))
            end
  | Asc => match ks_ts k with
           | None => Ok (behind_undated_asc (ks_id k))
           | Some ts => Ok (behind_dated_asc (instant ts) (ks_id k))
           end
  end.

Definition needs_undated_top_up (k : option (KeysetCursor T)) (rows_returned fetch_limit : nat) : bool :=
  match k with
  | None => false
  | Some k => bool_decide (ks_order k = Desc) && bool_decide (is_Some (ks_ts k)) &&
              bool_decide (rows_returned < fetch_limit)%nat
  end.

Definition to_hit (i : nat) (m : message T) : search_hit T :=
  SearchHit (m_id m) (m_account_id m) (S i) (m_subject m) (m_from_addr m) (m_from_name m)
    (m_date_sent m) (m_internal_date m).

(** The rows of one page; [match_clause] is the FTS predicate (or TRUE) and
    [where_extra] the structured filters. *)
Definition keyset_rows (match_clause where_extra : message T -> Sql.cond) (rows : list (message T))
    (k : option (KeysetCursor T)) (order : sort_order) (fetch_limit : nat) :
    res exn (list (message T)) :=
  let fetch cursor_cond limit :=
    let* q := compose_date_keyset_sql
                (fun m => Sql.and (match_clause m) (Sql.and (cursor_cond m) (where_extra m))) order in
    Ok (q limit rows) in
  let* cursor_cond := match k with None => Ok (fun _ => Some true) | Some k => keyset_clause k end in
  let* page := fetch cursor_cond fetch_limit in
  if needs_undated_top_up k (length page) fetch_limit then
    let* tail := fetch undated_only (fetch_limit - length page)%nat in
    Ok (page ++ tail)
  else Ok page.

Definition next_keyset (order : sort_order) (walk : keyset_walk) (m : message T) : KeysetCursor T :=
  MkKeyset (sort_ts m) (m_id m) order walk.

Definition date_keyset_search (match_clause where_extra : message T -> Sql.cond)
    (rows : list (message T)) (free_text : pystr) (page_size : nat)
    (k : option (KeysetCursor T)) (order : sort_order) :
    res exn (list (search_hit T) * option (KeysetCursor T)) :=
  let walk := walk_for_text free_text in
  let* rows := keyset_rows match_clause where_extra rows k order (S page_size) in
  let has_more := bool_decide (page_size < length rows)%nat in
  let page := take page_size rows in
  Ok (imap to_hit page,
      if has_more then next_keyset order walk <$> last page else None).

(** A client paging by [next_cursor]. *)
Fixpoint follow (fuel : nat)
    (fetch : option (KeysetCursor T) -> res exn (list (search_hit T) * option (KeysetCursor T)))
    (k : option (KeysetCursor T)) : res exn (list (list (search_hit T))) :=
  match fuel with
  | O => Ok []
  | S fuel =>
      let* (hits, next) := fetch k in
      match next with
      | None => Ok [hits]
      | _ => let* rest := follow fuel fetch next in Ok (hits :: rest)
      end
  end.

Definition order_le (order : sort_order) : relation (message T) :=
  match order with Asc => asc_le | _ => desc_le end.
#[global] Instance order_le_dec order : RelDecision (order_le order).
Proof. destruct order; apply _. Defined.

(** Every matching message, in the walk's order. *)
Definition matching (match_clause where_extra : message T -> Sql.cond) (order : sort_order)
    (rows : list (message T)) : list (message T) :=
  listing (order_le order) (fun m => Sql.and (match_clause m) (where_extra m)) rows.

(** ** The walk *)
Section source.
Context (mc we : message T -> Sql.cond) (rows : list (message T)) (order : sort_order)
  (walk : keyset_walk).
Context (Hids : unique_ids rows) (Horder : order = Asc \/ order = Desc).

Definition base (m : message T) : Sql.cond := Sql.and (mc m) (we m).
Definition source_rows (k : option (KeysetCursor T)) (n : nat) : list (message T) :=
  match keyset_rows mc we rows k order n with Ok r => r | Err _ => [] end.

Lemma kept_cond cc m :
  Sql.kept (Sql.and (mc m) (Sql.and (cc m) (we m))) = Sql.kept (base m) && Sql.kept (cc m).
Proof.
  unfold base. rewrite !Sql.kept_and. destruct (Sql.kept (mc m)), (Sql.kept (cc m)), (Sql.kept (we m)); done.
Qed.

Lemma keyset_rows_ok k n :
  (forall c, k = Some c -> ks_order c = order) ->
  keyset_rows mc we rows k order n = Ok (source_rows k n).
Proof using Horder.
  intros Hk. unfold source_rows, keyset_rows, compose_date_keyset_sql, keyset_clause.
  destruct Horder as [-> | ->]; (destruct k as [c |]; [rewrite (Hk c eq_refl); destruct (ks_ts c) |]);
    by destruct (needs_undated_top_up _ _ _).
Qed.

Lemma source_head n : source_rows None n = take n (matching mc we order rows).
Proof using Horder.
  unfold source_rows, keyset_rows, compose_date_keyset_sql, matching.
  destruct Horder as [-> | ->]; cbn;
    (apply select_head; intros r; rewrite (kept_cond (fun _ => Some true)); by rewrite andb_true_r).
Qed.

Lemma source_continues pre c suf n :
  matching mc we order rows = pre ++ c :: suf ->
  source_rows (Some (next_keyset order walk c)) n = take n suf.
Proof using Hids Horder.
  intros Hl. unfold source_rows, keyset_rows, compose_date_keyset_sql, keyset_clause,
    next_keyset, needs_undated_top_up. cbn [ks_order ks_ts ks_id].
  destruct Horder as [-> | ->]; cbn [order_le] in Hl.
  - (* ascending: one statement *)
    rewrite bool_decide_eq_false_2 by done. cbn [andb].
    destruct (sort_ts c) as [ts |] eqn:Hc;
      (rewrite (select_behind asc_le asc_le_antisym_id base rows Hids _ (fun _ => True) n pre c suf);
       [by rewrite (filter_all (fun _ => True)) by (by apply Forall_true) | | done]);
      intros r; rewrite kept_cond, andb_true_iff; change (m_id c) with (row_id c).
    + rewrite behind_dated_asc_after by (cbn; by rewrite Hc). tauto.
    + rewrite behind_undated_asc_after by (cbn; by rewrite Hc). tauto.
  - (* descending *)
    rewrite (bool_decide_eq_true_2 (Desc = Desc)) by done. cbn [andb].
    destruct (sort_ts c) as [ts |] eqn:Hc; cbn [andb].
    + rewrite (bool_decide_eq_true_2 (is_Some (Some ts))) by eauto. cbn [andb].
      rewrite <- (top_up_complete base
         (fun m => Sql.and (mc m) (Sql.and (behind_dated_desc (instant ts) (m_id c) m) (we m)))
         (fun m => Sql.and (mc m) (Sql.and (undated_only m) (we m))) rows pre c suf (instant ts) n);
        [| done | cbn; by rewrite Hc | done | intros r; apply kept_cond | intros r; apply kept_cond].
      cbv zeta. by destruct (bool_decide _).
    + rewrite (bool_decide_eq_false_2 (is_Some None)) by by intros [? ?]. cbn [andb].
      rewrite (select_behind desc_le desc_le_antisym_id base rows Hids _ (fun _ => True) n pre c suf);
        [by rewrite (filter_all (fun _ => True)) by (by apply Forall_true) | | done].
      intros r. rewrite kept_cond, andb_true_iff. change (m_id c) with (row_id c).
      rewrite behind_undated_desc_after by (cbn; by rewrite Hc). tauto.
Qed.

#[global] Program Instance keyset_source : KeysetSource (message T) (KeysetCursor T) := {|
  ks_full := matching mc we order rows;
  ks_cursor := next_keyset order walk;
  ks_fetch := source_rows;
|}.
Next Obligation. apply source_head. Qed.
Next Obligation. intros. by eapply source_continues. Qed.
End source.

Lemma search_is_page mc we rows ft n k order (Hids : unique_ids rows)
    (Ho : order = Asc \/ order = Desc) :
  (forall c, k = Some c -> ks_order c = order) ->
  date_keyset_search mc we rows ft n k order =
    Ok (imap to_hit (page (H := keyset_source mc we rows order (walk_for_text ft) Hids Ho) n k).1,
        (page (H := keyset_source mc we rows order (walk_for_text ft) Hids Ho) n k).2).
Proof.
  intros Hk. unfold date_keyset_search. rewrite (keyset_rows_ok _ _ _ _ Ho) by done.
  unfold page. cbn [ks_fetch ks_cursor keyset_source fst snd]. by destruct (bool_decide _).
Qed.

Lemma next_order mc we rows ft n k order (Hids : unique_ids rows) (Ho : order = Asc \/ order = Desc) c :
  (page (H := keyset_source mc we rows order (walk_for_text ft) Hids Ho) n k).2 = Some c ->
  ks_order c = order /\ ks_walk c = walk_for_text ft.
Proof.
  unfold page. cbn [ks_fetch ks_cursor keyset_source snd]. destruct (bool_decide _); [| done].
  by intros (m & _ & ->)%fmap_Some.
Qed.

Lemma follow_is_walk mc we rows ft n order (Hids : unique_ids rows) (Ho : order = Asc \/ order = Desc)
    fuel : forall k, (forall c, k = Some c -> ks_order c = order) ->
  follow fuel (fun k => date_keyset_search mc we rows ft n k order) k =
    Ok (map (imap to_hit)
          (walk (H := keyset_source mc we rows order (walk_for_text ft) Hids Ho) n fuel k)).
Proof.
  induction fuel as [| fuel IH]; intros k Hk; [done |]. cbn [follow walk].
  rewrite (search_is_page _ _ _ _ _ _ _ Hids Ho) by done.
  destruct (page n k) as [rs next] eqn:Ep. cbn [fst snd].
  destruct next as [c |]; [| done].
  rewrite IH; [done |]. intros c' [= <-].
  eapply (next_order mc we rows ft n k order Hids Ho). by rewrite Ep.
Qed.
Lemma hit_ranks (l : list (message T)) :
  sh_rank <$> imap to_hit l = seq 1 (length (imap to_hit l)).
Proof.
  rewrite length_imap, fmap_imap. apply list_eq. intros i. rewrite list_lookup_imap.
  destruct (l !! i) as [m |] eqn:E; cbn.
  - apply lookup_lt_Some in E. by rewrite lookup_seq_lt.
  - apply lookup_ge_None in E. by rewrite lookup_seq_ge.
Qed.
End keyset.

(** A date-ordered search, in either direction, paged by its own cursors,
    returns every matching message exactly once and in order, the undated
    block included, and each hit carries its rank on its page. *)
Lemma date_walk_complete `{Datetime T} match_clause where_extra (rows : list (message T))
    free_text page_size order fuel :
  unique_ids rows -> order = Asc \/ order = Desc -> (0 < page_size)%nat ->
  (length rows < fuel)%nat ->
  exists pages,
    follow fuel (fun k => date_keyset_search match_clause where_extra rows free_text page_size k order) None
      = Ok pages /\
    sh_message_id <$> concat pages = m_id <$> matching match_clause where_extra order rows /\
    Forall (fun hits => sh_rank <$> hits = seq 1 (length hits)) pages.
Proof.
  intros Hids Ho Hps Hfuel. eexists. split; [by apply (follow_is_walk _ _ _ _ _ _ Hids Ho) |]. split.
  - assert (Hid : forall l : list (message T), sh_message_id <$> imap to_hit l = m_id <$> l).
    { intros l. rewrite fmap_imap. unfold compose. cbn.
      rewrite <- (imap_const m_id l). done. }
    transitivity (m_id <$> concat (walk (H := keyset_source match_clause where_extra rows order
      (walk_for_text free_text) Hids Ho) page_size fuel None)).
    + induction (walk page_size fuel None) as [| l ls IH]; [done |].
      cbn [map concat]. rewrite !fmap_app. by rewrite Hid, IH.
    + f_equal. apply (walk_complete (H := keyset_source _ _ _ _ (walk_for_text free_text) Hids Ho)); [done |].
      cbn. unfold matching, listing.
      rewrite merge_sort_Permutation. eapply Nat.le_lt_trans; [apply length_filter | done].
  - apply Forall_fmap, Forall_true. intros l. cbn. apply hit_ranks.
Qed.

(** Both accounts of the sample archive, newest and oldest first. *)
Definition all_rows : list (message Calendar.datetime) := Browse.messages Browse.sample_archive.
End Date_keyset.
