(* ===== verification/Search.v ===== *)
(** * The searcher's entry point ([search/searcher.py] [Searcher.search])

    The guards over what the caller stated, the rewrite, the clamp to the
    caller's accounts and the choice between the date walk and the pool. *)
From S2P Require Import Prelude Keyset PyStr Datetime Errors PySort Score Odict Relevance PageCache.
From S2P Require Import BrowseCursor Browse Query Arms Rewrite Snippet SearchPool DateKeyset.
Import Relevance Sort_axes Pool.

(** What [search] is called with. *)
Record search_args (T : Type) := SearchArgs {
  sa_query : pystr;
  sa_allowed_account_ids : option (list Z);
  sa_page_size : option Z;
  sa_candidates_per_arm : option Z;
  sa_rerank_pool_size : option Z;
  sa_use_cache : bool;
  sa_smart : bool;
  sa_disable_rerank : bool;
  sa_user_id : option Z;
  sa_sort : option sort_mode;
  sa_sort_order : option sort_order;
  sa_keyset_cursor : option (KeysetCursor T);
  sa_snippet_chars : option Snippet.width_value;
}.
Arguments SearchArgs {T}. Arguments sa_query {T}. Arguments sa_allowed_account_ids {T}.
Arguments sa_page_size {T}. Arguments sa_candidates_per_arm {T}. Arguments sa_rerank_pool_size {T}.
Arguments sa_use_cache {T}. Arguments sa_smart {T}. Arguments sa_disable_rerank {T}.
Arguments sa_user_id {T}. Arguments sa_sort {T}. Arguments sa_sort_order {T}.
Arguments sa_keyset_cursor {T}. Arguments sa_snippet_chars {T}.

(** The page the date walk answers with. *)
Record dated_page (T : Type) := DatedPage {
  dp_hits : list (search_hit T);
  dp_page_size : Z;
  dp_candidates_per_arm : Z;
  dp_next_keyset : option (KeysetCursor T);
  dp_query : ParsedQuery;
  dp_rankable : bool;
}.
Arguments DatedPage {T}. Arguments dp_hits {T}. Arguments dp_page_size {T}.
Arguments dp_candidates_per_arm {T}. Arguments dp_next_keyset {T}. Arguments dp_query {T}.
Arguments dp_rankable {T}.

(** [SearchPage], by the branch that produced it, with the rewrite outcome. *)
Inductive page_body (T : Type) := Ranked (p : pool_page T) | Dated (p : dated_page T).
Arguments Ranked {T}. Arguments Dated {T}.
Record search_page (T : Type) := SearchPage {
  sp_body : page_body T;
  sp_rewrite_status : Rewrite.rewrite_status;
  sp_rewrite_note_code : option Rewrite.note_code;
}.
Arguments SearchPage {T}. Arguments sp_body {T}. Arguments sp_rewrite_status {T}.
Arguments sp_rewrite_note_code {T}.

Module Search.
Section search.
Context `{Datetime T} {E : Type} `{!Postgres T E} `{PyUnicode}.
Context (cfg : search_config).
Notation cache := (Page_cache.cache (V := PoolEntry T)).

(** A [Searcher] and what answers it during one call: whether it has a reranker,
    its rewriter if one is wired, the retrieval, the snapshot the date walk
    reads, the snapshot file names are looked up in, and the fresh token. *)
Record search_env := SearchEnv {
  se_reranker : bool;
  se_rewriter : option (pystr -> res Rewrite.rewrite_failure RewriteResult);
  se_retrieval : retrieval (T := T) (E := E);
  se_walk_rows : list (mail_row T);
  se_names : list (mail_row T);
  se_token : pystr;
}.

(** [a or b] of an optional [int]. *)
Definition int_or (x : option Z) (d : Z) : Z :=
  match x with Some n => if n =? 0 then d else n | None => d end.

Definition unknown_order (o : sort_order) : bool := match o with OtherOrder _ => true | _ => false end.

(** The direction of the walk: the cursor's, or the stated one, or the default. *)
Definition effective_order (stated : option sort_order) (k : option (KeysetCursor T)) : res exn sort_order :=
  if default false (unknown_order <$> stated) then Err ValueError
  else match k with
       | Some k =>
           if unknown_order (ks_order k) then Err ValueError
           else match stated with
                | Some o => if bool_decide (o = ks_order k) then Ok (ks_order k) else Err SearchArgumentRefused
                | None => Ok (ks_order k)
                end
       | None => Ok (default DEFAULT_SORT_ORDER stated)
       end.

(** The guards that read the query, and the ordering they settle on. *)
Definition effective_sort (stated : option sort_mode) (order : sort_order) (k : option (KeysetCursor T))
    (free_text : pystr) : res exn sort_mode :=
  if default false ((fun k => keyset_walk_error (ks_walk k) free_text) <$> k) then Err SearchArgumentRefused
  else if sort_applicability_error stated free_text then Err SearchArgumentRefused
  else
    let s := resolve_sort stated free_text in
    if sort_order_applicability_error s order then Err SearchArgumentRefused
    else if bool_decide (s <> SortDate) && bool_decide (is_Some k) then Err SearchArgumentRefused
    else Ok s.

(** The conditions of the date walk, on the message rows of a snapshot. *)
Definition on_row (rows : list (mail_row T)) (c : mail_row T -> Sql.cond) (m : message T) : Sql.cond :=
  match row_of rows (m_id m) with Some r => c r | None => Some false end.
Definition match_clause (p : ParsedQuery) (m : mail_row T) : Sql.cond :=
  match walk_for_text (free_text p) with
  | WalkText => let q := Arms.build_lexical_tsquery p in Some (msg_fts q m || Arms.names_match q m)
  | WalkArchive => Some true
  end.
Definition date_walk (rows : list (mail_row T)) (p : ParsedQuery) (page_size : Z)
    (k : option (KeysetCursor T)) (order : sort_order) :
    res exn (list (search_hit T) * option (KeysetCursor T)) :=
  Date_keyset.date_keyset_search (on_row rows (match_clause p)) (on_row rows (Arms.message_where p))
    (map mr_message rows) (free_text p) (Z.to_nat page_size) k order.

Definition search (env : search_env) (a : search_args T) (d : cache) : cache * res exn (search_page T) :=
  let prepared :=
    let* _ := effective_order (sa_sort_order a) None in
    let* width := resolve_width cfg (sa_snippet_chars a) in
    let* order := effective_order (sa_sort_order a) (sa_keyset_cursor a) in
    guard! negb (sa_smart a && bool_decide (se_rewriter env = None)) else RuntimeError in
    match Query.parse_query (sa_query a) with
    | Err _ => Err QueryRefused
    | Ok parsed =>
        let* sort := effective_sort (sa_sort a) order (sa_keyset_cursor a) (free_text parsed) in
        let rewriter := default (fun _ => Err Rewrite.Uncaught) (se_rewriter env) in
        let* rw := Rewrite.rewrite_step (sa_smart a) (sc_rewriter_max_expansion_terms cfg) rewriter parsed in
        Ok (width, order, sort, rw)
    end in
  match prepared with
  | Err e => (d, Err e)
  | Ok (width, order, sort, (rewritten, status, note)) =>
      let rankable := is_rankable (free_text rewritten) in
      let page_size := Z.min (int_or (sa_page_size a) (sc_page_size_default cfg)) (sc_page_size_max cfg) in
      let cpa := int_or (sa_candidates_per_arm a) (sc_candidates_per_arm cfg) in
      let rps := int_or (sa_rerank_pool_size a) (sc_rerank_pool_size cfg) in
      let parsed := clamp_account_ids_to_acl rewritten (sa_allowed_account_ids a) in
      match sort with
      | SortDate =>
          let parsed := resolve_account_names (rv_account_names (se_retrieval env)) parsed in
          (d, let* (hits, next) := date_walk (se_walk_rows env) parsed page_size (sa_keyset_cursor a) order in
              Ok (SearchPage (Dated (DatedPage hits page_size cpa next parsed rankable)) status note))
      | SortRank =>
          let '(d, r) := search_pool cfg (se_reranker env && negb (sa_disable_rerank a)) (se_retrieval env)
                           (se_names env) (if sa_use_cache a then Some (se_token env) else None) parsed cpa rps
                           page_size (sa_user_id a) sort order width d in
          (d, let* p := r in Ok (SearchPage (Ranked p) status note))
      end
  end.
End search.
End Search.
