(* ===== verification/SearchCursor.v ===== *)
(** * Search cursors and the plan they continue ([api/search_cursor.py]) *)
From S2P Require Import Prelude Keyset PyStr Base64 Datetime Errors BrowseCursor Browse Query DateKeyset.
Import Browse_cursor Sort_axes.

Record SearchCursor := MkSearchCursor { sc_token : pystr; sc_page : Z }.

Inductive CursorPlan (T : Type) :=
  | FreshPlan (sort : sort_mode) (order : sort_order)
  | KeysetPlan (cursor : KeysetCursor T)
  | PoolPlan (cursor : SearchCursor) (stated_sort : option sort_mode) (stated_order : option sort_order).
Arguments FreshPlan {T}. Arguments KeysetPlan {T}. Arguments PoolPlan {T}.

Module Search_cursor.
Definition KEYSET_SORT : sort_mode := TEXTLESS_SORT.
Definition KEYSET_PREFIXES : list (pystr * sort_order * keyset_walk) :=
  [(lit "KAT|", Asc, WalkText); (lit "KA|", Asc, WalkArchive);
   (lit "KT|", Desc, WalkText); (lit "K|", Desc, WalkArchive)].

(** ** Pool cursors *)
Definition encode_search_cursor (c : SearchCursor) : pystr :=
  sc_token c ++ lit ":" ++ str_int (sc_page c).

Definition decode_search_cursor (raw : pystr) : res exn SearchCursor :=
  if negb (contains 58 raw) then Err ValidationFailed
  else match rpartition_at 58 raw with
       | (None, _) | (Some [], _) => Err ValidationFailed
       | (Some token, page_str) =>
           if negb (isascii_isdigit page_str) then Err ValidationFailed
           else match py_int page_str with
                | None => Err ValueError
                | Some page => if page <? 1 then Err ValidationFailed
                               else Ok (MkSearchCursor token page)
                end
       end.

Section codec.
Context `{Datetime T}.

(** ** Keyset cursors *)
Fixpoint prefix_for (order : sort_order) (walk : keyset_walk)
    (table : list (pystr * sort_order * keyset_walk)) : option pystr :=
  match table with
  | [] => None
  | (p, o, w) :: table =>
      if bool_decide (o = order) && bool_decide (w = walk) then Some p else prefix_for order walk table
  end.
Definition encode_keyset_cursor (k : KeysetCursor T) : res exn pystr :=
  let payload := encode_browse_cursor (BrowseCursor (ks_ts k) (ks_id k)) in
  match prefix_for (ks_order k) (ks_walk k) KEYSET_PREFIXES with
  | Some p => Ok (p ++ payload)
  | None => Err ValueError
  end.

Definition is_keyset_cursor (raw : pystr) : bool :=
  existsb (fun '(p, _, _) => startswith raw p) KEYSET_PREFIXES.

Fixpoint keyset_order_in (raw : pystr) (table : list (pystr * sort_order * keyset_walk)) : res exn sort_order :=
  match table with
  | [] => Err ValidationFailed
  | (p, o, _) :: table => if startswith raw p then Ok o else keyset_order_in raw table
  end.
Definition keyset_order (raw : pystr) : res exn sort_order := keyset_order_in raw KEYSET_PREFIXES.

Fixpoint decode_keyset_in (raw : pystr) (table : list (pystr * sort_order * keyset_walk)) :
    res exn (KeysetCursor T) :=
  match table with
  | [] => Err ValidationFailed
  | (p, o, w) :: table =>
      if startswith raw p then
        let* bc := decode_browse_cursor (drop (length p) raw) in
        Ok (MkKeyset (bc_ts bc) (bc_id bc) o w)
      else decode_keyset_in raw table
  end.
Definition decode_keyset_cursor (raw : pystr) : res exn (KeysetCursor T) :=
  decode_keyset_in raw KEYSET_PREFIXES.

(** ** The plan *)
Definition reject_sort_mismatch (requested : option sort_mode) (cursor_sort : sort_mode) : res exn () :=
  match requested with
  | Some s => if bool_decide (s = cursor_sort) then Ok () else Err ValidationFailed
  | None => Ok ()
  end.
Definition reject_order_mismatch (requested : option sort_order) (cursor_order : sort_order) : res exn () :=
  match requested with
  | Some o => if bool_decide (o = cursor_order) then Ok () else Err ValidationFailed
  | None => Ok ()
  end.
Definition reject_pool_sort_mismatch (requested_sort : option sort_mode)
    (requested_order : option sort_order) (pool_sort : sort_mode) (pool_order : sort_order) : res exn () :=
  let* _ := reject_sort_mismatch requested_sort pool_sort in
  reject_order_mismatch requested_order pool_order.

Definition resolve_cursor_plan `{PyUnicode} (cursor : option pystr) (requested_sort : option sort_mode)
    (requested_order : option sort_order) (free_text : pystr) : res exn (CursorPlan T) :=
  match cursor with
  | None =>
      if sort_applicability_error requested_sort free_text then Err ValidationFailed
      else
        let s := resolve_sort requested_sort free_text in
        let o := default DEFAULT_SORT_ORDER requested_order in
        if sort_order_applicability_error s o then Err ValidationFailed else Ok (FreshPlan s o)
  | Some raw =>
      if is_keyset_cursor raw then
        let* ks := decode_keyset_cursor raw in
        let* _ := reject_sort_mismatch requested_sort KEYSET_SORT in
        let* _ := reject_order_mismatch requested_order (ks_order ks) in
        if keyset_walk_error (ks_walk ks) free_text then Err ValidationFailed
        else Ok (KeysetPlan ks)
      else
        let* pool := decode_search_cursor raw in
        match requested_sort, requested_order with
        | Some s, Some o =>
            if sort_order_applicability_error s o then Err ValidationFailed
            else Ok (PoolPlan pool requested_sort requested_order)
        | _, _ => Ok (PoolPlan pool requested_sort requested_order)
        end
  end.
End codec.

(** ** Round trips *)

(** A pool cursor the server minted decodes to the token and page it was
    minted with, and is never read as a keyset cursor. *)
Lemma pool_cursor_roundtrip c :
  sc_token c <> [] -> head (sc_token c) <> Some 75 ->
  1 <= sc_page c -> is_bigserial (sc_page c) ->
  decode_search_cursor (encode_search_cursor c) = Ok c /\
  is_keyset_cursor (encode_search_cursor c) = false.
Proof.
  destruct c as [token page]. cbn [sc_token sc_page]. intros Ht Hk Hp Hb. split.
  - unfold decode_search_cursor, encode_search_cursor. cbn [sc_token sc_page].
    assert (token ++ lit ":" ++ str_int page = token ++ 58 :: str_int page) as -> by done.
    assert (Hno : 58 ∉ str_int page).
    { intros Hin. apply str_int_digit in Hin; lia. }
    assert (contains 58 (token ++ 58 :: str_int page) = true) as ->.
    { unfold contains. apply existsb_exists. exists 58. split; [| done].
      apply list_elem_of_In. set_solver. }
    rewrite rpartition_at_app by done. cbn [negb]. destruct token as [| t0 ts]; [done |].
    destruct (str_int_spec page) as (-> & _); [lia |]. cbn [negb].
    rewrite py_int_str_int by done. rewrite (proj2 (Z.ltb_ge page 1)) by lia. done.
  - destruct token as [| t0 ts]; [done |]. cbn in Hk.
    unfold is_keyset_cursor. apply not_true_is_false.
    intros ([[p o] w] & Hin & (r & Hr)%startswith_true)%existsb_exists.
    unfold encode_search_cursor in Hr. cbn [sc_token app] in Hr.
    assert (Hh : head p = Some 75) by (repeat destruct Hin as [[= <- <- <-] | Hin]; done).
    destruct p as [| p0 p]; [done |]. cbn in Hh, Hr. congruence.
Qed.

(** C40: a keyset cursor carries its position, its direction and its walk
    through the wire: minting then reading gives the same cursor, whichever of
    the four prefixes it took, and minting never fails on a real direction. *)
Theorem keyset_cursor_roundtrip `{Datetime T} (k : KeysetCursor T) :
  cursor_valid (BrowseCursor (ks_ts k) (ks_id k)) -> ks_order k = Asc \/ ks_order k = Desc ->
  exists raw, encode_keyset_cursor k = Ok raw /\ is_keyset_cursor raw = true /\
    keyset_order raw = Ok (ks_order k) /\ decode_keyset_cursor (T := T) raw = Ok k.
Proof.
  destruct k as [ts i o w]. cbn. intros Hv Ho. unfold encode_keyset_cursor. cbn [ks_ts ks_id ks_order ks_walk].
  pose proof (browse_cursor_codec (T := T) _ Hv) as Hc.
  set (payload := encode_browse_cursor (BrowseCursor ts i)) in *. clearbody payload.
  destruct Ho as [-> | ->]; destruct w; cbn [prefix_for KEYSET_PREFIXES];
    (eexists; split; [reflexivity |]); (split; [reflexivity |]); (split; [reflexivity |]);
    (etransitivity; [exact (eq_refl (let* bc := decode_browse_cursor payload in
                                     Ok (MkKeyset (bc_ts bc) (bc_id bc) _ _))) | by rewrite Hc]).
Qed.

Lemma keyset_cursor_roundtrip_witness :
  exists raw, encode_keyset_cursor (MkKeyset (Some (Browse.sample_dt 3)) 41 Asc WalkText) = Ok raw /\
    is_keyset_cursor raw = true /\ keyset_order raw = Ok Asc /\
    decode_keyset_cursor raw = Ok (MkKeyset (Some (Browse.sample_dt 3)) 41 Asc WalkText).
Proof.
  apply (keyset_cursor_roundtrip (MkKeyset (Some (Browse.sample_dt 3)) 41 Asc WalkText)); [| by left].
  repeat constructor; cbn; try done; by intros ts [= <-].
Defined.

(** The plan honours what was stated.  Whatever plan a request gets, a
    stated [sort] or [sort_order] is the one the plan runs or continues (a
    pool's is passed on to be checked against the pool); a fresh plan is never
    relevance-ordered oldest-first, nor relevance-ordered with nothing to
    rank; and a text cursor is never continued without free text. *)
Lemma plan_honours_request `{Datetime T} `{PyUnicode} cursor rs ro free_text (p : CursorPlan T) :
  resolve_cursor_plan cursor rs ro free_text = Ok p ->
  match p with
  | FreshPlan s o =>
      cursor = None /\ (forall x, rs = Some x -> s = x) /\ (forall x, ro = Some x -> o = x) /\
      ~ (s = SortRank /\ o = Asc) /\ (s = SortRank -> is_rankable free_text = true)
  | KeysetPlan k =>
      (forall x, rs = Some x -> x = SortDate) /\ (forall x, ro = Some x -> x = ks_order k) /\
      (ks_walk k = WalkText -> walk_for_text free_text = WalkText)
  | PoolPlan _ s o => s = rs /\ o = ro /\ ~ (rs = Some SortRank /\ ro = Some Asc)
  end.
Proof.
  unfold resolve_cursor_plan. destruct cursor as [raw |].
  - destruct (is_keyset_cursor raw).
    + intros Hp. destruct (decode_keyset_cursor raw) as [ks |]; [| done].
      destruct (reject_sort_mismatch rs KEYSET_SORT) as [[] |] eqn:E1; [| done].
      destruct (reject_order_mismatch ro (ks_order ks)) as [[] |] eqn:E2; [| done].
      destruct (keyset_walk_error (ks_walk ks) free_text) eqn:E3; [done |].
      injection Hp as <-. split_and!.
      * intros x ->. cbn in E1. by case_bool_decide.
      * intros x ->. cbn in E2. by case_bool_decide.
      * intros Hw. unfold keyset_walk_error in E3. rewrite Hw in E3.
        rewrite bool_decide_eq_true_2 in E3 by done. cbn in E3.
        apply bool_decide_eq_false in E3. by destruct (walk_for_text free_text).
    + intros Hp. destruct (decode_search_cursor raw); [| done].
      destruct rs as [s |]; [destruct ro as [o |] |].
      * destruct (sort_order_applicability_error s o) eqn:E; [done |]. injection Hp as <-.
        split_and!; [done | done |]. intros [[= ->] [= ->]]. done.
      * injection Hp as <-. split_and!; [done | done |]. by intros [? ?].
      * injection Hp as <-. split_and!; [done | done |]. by intros [? ?].
  - destruct (sort_applicability_error rs free_text) eqn:E1; [done |].
    destruct (sort_order_applicability_error _ _) eqn:E2; [done |]. intros [= <-]. split_and!.
    + done.
    + intros x ->. by apply stated_sort_runs.
    + by intros x ->.
    + intros [Hs Ho]. unfold sort_order_applicability_error in E2. rewrite Hs, Ho in E2. done.
    + unfold resolve_sort. by destruct (is_rankable free_text).
Qed.

#[local] Existing Instance Query.ascii_unicode.

(** Reading a pool cursor fails only as a client error, except that a
    page of more than 4300 digits, which passes the digit check, is an
    unhandled [ValueError]. *)
Lemma decode_search_cursor_errors raw :
  match decode_search_cursor raw with
  | Ok c => 1 <= sc_page c /\ sc_token c <> []
  | Err e => e = ValidationFailed \/
      (e = ValueError /\ exists token digits, raw = token ++ 58 :: digits /\
         isascii_isdigit digits = true /\ (INT_MAX_STR_DIGITS < length digits)%nat)
  end.
Proof.
  unfold decode_search_cursor. destruct (contains 58 raw); cbn [negb]; [| by left].
  pose proof (rpartition_at_spec 58 raw) as Hs.
  destruct (rpartition_at 58 raw) as [[[| t ts] |] page]; [by left | | by left].
  destruct (isascii_isdigit page) eqn:Ed; cbn [negb]; [| by left].
  rewrite py_int_digits by done.
  destruct (Nat.ltb_spec INT_MAX_STR_DIGITS (length page)).
  - right. split; [done |]. exists (t :: ts), page. naive_solver.
  - destruct (Z.ltb_spec (dec_value page) 1); [by left |]. cbn. split; [lia | done].
Qed.

Lemma decode_keyset_in_errors `{Datetime T} raw table e : decode_keyset_in (T := T) raw table = Err e ->
  e = ValidationFailed \/ exists n, decode_browse_cursor (T := T) (drop n raw) = Err e.
Proof.
  induction table as [| [[p o] w] table IH]; cbn [decode_keyset_in]; [intros [= <-]; by left |].
  destruct (startswith raw p); [| exact IH]. destruct (decode_browse_cursor _) eqn:Ed; [done |].
  intros [= <-]. right. by exists (length p).
Qed.

(** A malformed cursor is the client's error, with one exception.  Of the
    three decoders, whatever string they are given, the only failure that is
    not a [ValidationFailed] is a [ValueError], for a number of more than 4300
    decimal digits where a page or an id belongs. *)
Lemma malformed_cursors_are_refused `{Datetime T} raw e :
  decode_browse_cursor (T := T) raw = Err e \/ decode_search_cursor raw = Err e \/
    decode_keyset_cursor (T := T) raw = Err e ->
  e = ValidationFailed \/
  (e = ValueError /\ exists digits, isascii_isdigit digits = true /\ (INT_MAX_STR_DIGITS < length digits)%nat /\
    ((exists token, raw = token ++ 58 :: digits) \/
     exists n body, decode_body (drop n raw) = Ok body /\ last (split_on BAR body) = Some digits)).
Proof.
  assert (Hb : forall n, decode_browse_cursor (T := T) (drop n raw) = Err e ->
    e = ValidationFailed \/
    (e = ValueError /\ exists digits, isascii_isdigit digits = true /\ (INT_MAX_STR_DIGITS < length digits)%nat /\
      ((exists token, raw = token ++ 58 :: digits) \/
       exists n body, decode_body (drop n raw) = Ok body /\ last (split_on BAR body) = Some digits))).
  { intros n He. destruct (decode_browse_cursor_errors _ _ He) as [? | (-> & b & i & Hb & Hl & Hd & Hlen)]; [by left |].
    right. split; [done |]. exists i. split_and!; [done.. |]. right. by exists n, b. }
  intros [He | [He | He]]; [by apply (Hb O) | | by apply decode_keyset_in_errors in He as [? | [n He]]; [left | apply (Hb n)]].
  pose proof (decode_search_cursor_errors raw) as Hs. rewrite He in Hs.
  destruct Hs as [? | (-> & token & digits & Hraw & Hd & Hlen)]; [by left |].
  right. split; [done |]. exists digits. split_and!; [done.. |]. left. by exists token.
Qed.

(** The keyset cursor of a position whose id has 4301 digits. *)
Definition huge_cursor : pystr := lit "K|" ++ b64url_encode (lit "n|" ++ replicate 4301 57).
End Search_cursor.
