(* ===== verification/SearchApi.v ===== *)
(** * The search api ([api/search.py], [api/search_response.py],
    [api/search_projection.py])

    Filters become query tokens, the caller's accounts bound the request, a
    cursor continues a walk or a pool, and the page becomes the response.  The
    values of a filter dict are typed as the route's [SearchFiltersModel] types
    them; the searcher is [Search] and [SearchPool]. *)
From S2P Require Import Prelude Keyset PyStr Base64 Datetime Errors PySort Score Odict Relevance PageCache.
From S2P Require Import BrowseCursor Browse Query Arms Rewrite Snippet SearchPool DateKeyset Errors.
From S2P Require Import Search SearchCursor.
Import Relevance Sort_axes Pool Search.

Inductive lang_value := LangOne (s : pystr) | LangMany (l : list pystr).

(** The filters of a request; [fd_unknown] are the keys that are not filters. *)
Record filter_dict := FilterDict {
  fd_account_ids : option (list pystr);
  fd_folder_ids : option (list pystr);
  fd_from : option pystr;
  fd_to : option pystr;
  fd_subject : option pystr;
  fd_attachment_name : option pystr;
  fd_after : option pystr;
  fd_before : option pystr;
  fd_date_from : option pystr;
  fd_date_to : option pystr;
  fd_lang : option lang_value;
  fd_has_attachment : option bool;
  fd_unknown : list pystr;
}.

(** One hit of the response. *)
Record api_hit := ApiHit {
  ah_id : pystr;
  ah_account : pystr;
  ah_subject : option pystr;
  ah_from : option pystr * option pystr;
  ah_date : option pystr;
  ah_snippet_html : pystr;
  ah_has_attachments : bool;
  ah_score : float;
  ah_matched_arm : chunk_table;
}.
Record search_response := SearchResponse {
  rs_results : list api_hit;
  rs_next_cursor : option pystr;
  rs_sort_applied : sort_mode;
  rs_rankable : bool;
  rs_rewrite_skipped : bool;
  rs_rewrite_status : Rewrite.rewrite_status;
  rs_rewrite_note_code : option Rewrite.note_code;
}.

Module Search_api.
Section compose.
Context `{PyUnicode}.

(** ** Composing the query *)

(** [parse_int_id(...)], written back as a decimal. *)
Definition id_token (op : pystr) (raw : pystr) : res exn pystr :=
  let* n := Ids.parse_int_id raw in Ok (op ++ Query.COLON :: str_int n).
(** [_quote_value] *)
Definition quote_value (v : pystr) : res exn pystr :=
  match Query.quoted_filter_value v with Some q => Ok q | None => Err ValidationFailed end.
Definition quoted_token (op : pystr) (v : pystr) : res exn pystr :=
  let* q := quote_value v in Ok (op ++ Query.COLON :: q).

(** [_DATE_SHAPE], four digits, then one or two, then one or two. *)
Definition one_or_two_digits (s : pystr) : bool :=
  match s with [a] => is_digit_char a | [a; b] => is_digit_char a && is_digit_char b | _ => false end.
Definition date_shape (s : pystr) : bool :=
  match s with
  | a :: b :: c :: e :: 45 :: r =>
      forallb is_digit_char [a; b; c; e] &&
      match partition_at 45 r with
      | (m, Some dd) => one_or_two_digits m && one_or_two_digits dd
      | _ => false
      end
  | _ => false
  end.
(** [_validate_date] *)
Definition validate_date (s : pystr) : res exn () :=
  if date_shape s then match Query.strptime_ymd s with Some _ => Ok () | None => Err ValidationFailed end
  else Err ValidationFailed.
Definition date_token (op : pystr) (v : pystr) : res exn pystr :=
  let* _ := validate_date v in Ok (op ++ Query.COLON :: v).

Definition lang_token (one : pystr) : res exn pystr :=
  let s := lower (strip one) in
  match s with
  | [] => Err ValidationFailed
  | _ => if existsb (fun ch => is_space_char ch || (ch =? 34) || (ch =? 39)) s then Err ValidationFailed
         else Ok (lit "lang:" ++ s)
  end.

(** The clause of a filter whose falsy values mean "absent". *)
Definition str_clause (v : option pystr) (f : pystr -> res exn pystr) : res exn (list pystr) :=
  match v with Some ((_ :: _) as v) => let* t := f v in Ok [t] | _ => Ok [] end.
Definition ids_clause (v : option (list pystr)) (op : pystr) : res exn (list pystr) :=
  match v with Some l => map_res (id_token op) l | None => Ok [] end.
Definition lang_clause (v : option lang_value) : res exn (list pystr) :=
  match v with
  | None => Ok []
  | Some (LangOne s) => map_res lang_token [s]
  | Some (LangMany []) => Err ValidationFailed
  | Some (LangMany l) => map_res lang_token l
  end.
Definition has_clause (v : option bool) : list pystr :=
  match v with
  | Some true => [lit "has:attachment"]
  | Some false => [lit "has:no-attachment"]
  | None => []
  end.

(** [_filter_tokens] *)
Definition filter_tokens (f : filter_dict) : res exn (list pystr) :=
  let* t1 := ids_clause (fd_account_ids f) (lit "account_id") in
  let* t2 := ids_clause (fd_folder_ids f) (lit "folder_id") in
  let* t3 := str_clause (fd_from f) (quoted_token (lit "from")) in
  let* t4 := str_clause (fd_to f) (quoted_token (lit "to")) in
  let* t5 := str_clause (fd_subject f) (quoted_token (lit "subject")) in
  let* t6 := str_clause (fd_attachment_name f) (quoted_token (lit "attachment_name")) in
  let* t7 := str_clause (fd_after f) (date_token (lit "after")) in
  let* t8 := str_clause (fd_before f) (date_token (lit "before")) in
  let* t9 := str_clause (fd_date_from f) (date_token (lit "after")) in
  let* t10 := str_clause (fd_date_to f) (date_token (lit "before")) in
  let* t11 := lang_clause (fd_lang f) in
  Ok (t1 ++ t2 ++ t3 ++ t4 ++ t5 ++ t6 ++ t7 ++ t8 ++ t9 ++ t10 ++ t11 ++ has_clause (fd_has_attachment f)).

(** [build_query_string] *)
Definition build_query_string (free_text : pystr) (f : filter_dict) : res exn pystr :=
  match fd_unknown f with
  | _ :: _ => Err ValidationFailed
  | [] =>
      let* parts := filter_tokens f in
      Ok (join (lit " ") (parts ++ match free_text with [] => [] | _ => [free_text] end))
  end.

(** [_gate_query] *)
Definition gate_query (query : pystr) : res exn ParsedQuery :=
  match Query.parse_query query with Ok p => Ok p | Err _ => Err ValidationFailed end.

(** [_scope_filters_by_acl]: [None] when nothing is left to search. *)
Definition with_account_ids (f : filter_dict) (ids : list Z) : filter_dict :=
  FilterDict (Some (map str_int ids)) (fd_folder_ids f) (fd_from f) (fd_to f) (fd_subject f)
    (fd_attachment_name f) (fd_after f) (fd_before f) (fd_date_from f) (fd_date_to f) (fd_lang f)
    (fd_has_attachment f) (fd_unknown f).
Definition scope_filters_by_acl (f : filter_dict) (allowed : list Z) : res exn (option filter_dict) :=
  match allowed with
  | [] => Ok None
  | _ =>
      match fd_account_ids f with
      | Some ((_ :: _) as caller_ids) =>
          let* caller := map_res Ids.parse_int_id caller_ids in
          match Browse.sorted_set (filter (fun a => a ∈ allowed) caller) with
          | [] => Ok None
          | ids => Ok (Some (with_account_ids f ids))
          end
      | _ => Ok (Some (with_account_ids f (Browse.sorted_set allowed)))
      end
  end.
End compose.

(** ** The projection *)
Definition HIT_FIELDS : list pystr :=
  map lit ["message_id"; "account"; "folder"; "subject"; "from"; "to"; "date"; "snippet_html";
           "has_attachments"; "score"; "matched_arms"; "snippet"; "attachment_filename"; "attachments";
           "date_local"]%string.
Definition MAX_FIELDS : nat := 48.
Definition fields_error (fields : list pystr) : bool :=
  match fields with
  | [] => true
  | _ => (MAX_FIELDS <? length fields)%nat || negb (forallb (fun n => bool_decide (n ∈ HIT_FIELDS)) fields)
  end.
(** [project_hit], over a hit of any value type. *)
Definition project_hit {V} (hit : list (pystr * V)) (fields : list pystr) : res exn (list (pystr * V)) :=
  if fields_error fields then Err ValueError
  else
    let source := match od_get (lit "snippet_html") hit with
                  | Some s => od_set (lit "snippet") s hit
                  | None => hit
                  end in
    map_res (fun name => match od_get name source with Some v => Ok (name, v) | None => Err KeyError end)
      (filter (fun n => n ∈ fields) HIT_FIELDS).

Section api.
Context `{Datetime T} {E : Type} `{!Postgres T E} `{PyUnicode}.
Context (cfg : search_config).
Notation cache := (Page_cache.cache (V := PoolEntry T)).

(** ** Continuing a pool *)

(** What answers the turns of one continuation: the clock and the snapshots of
    the first lookup, and of each grow. *)
Record turn := Turn {
  tn_retrieval : retrieval (T := T) (E := E);
  tn_probe : Z;       (* the clock at the metadata lookup *)
  tn_now : Z;         (* at the grow's lookup *)
  tn_later : Z;       (* at the grow's own page *)
  tn_names : list (mail_row T);
}.

Definition expired {A} (r : res exn A) : res exn A :=
  match r with Err CacheMissError => Err SearchCursorExpired | _ => r end.

(** [_empty_grown_page] *)
Definition empty_grown_page (token : pystr) (m : PoolMetadata) : res exn (pool_page T) :=
  let* q := match Query.parse_query [] with Ok q => Ok q | Err _ => Err QueryRefused end in
  make_page (PoolPage [] 1 (pm_page_size m) 0 0 false false (Some token) q (pm_sort m) (pm_rankable m)).

(** The loop of [_continue_or_grow]; [None] when [fuel] runs out, which
    [grow_loop_terminates] excludes. *)
Fixpoint grow_loop (fuel : nat) (reranker : bool) (turns : nat -> turn) (c : SearchCursor) (user_id : option Z)
    (snippet_chars : option Snippet.width_value) (d : cache) : option (cache * res exn (pool_page T)) :=
  match fuel with
  | O => None
  | S fuel =>
      let t := turns O in
      let '(d, got) := get_pool_metadata cfg (tn_probe t) (sc_token c) user_id d in
      match got with
      | Err e => Some (d, Err e)
      | Ok None => Some (d, Err SearchCursorExpired)
      | Ok (Some m) =>
          if sc_candidates_per_arm_max cfg <=? pm_candidates_per_arm m then
            Some (d, empty_grown_page (sc_token c) m)
          else
            let new_cpa := Z.min (pm_candidates_per_arm m * 2) (sc_candidates_per_arm_max cfg) in
            let '(d, r) := grow_pool cfg reranker (tn_retrieval t) (tn_now t) (tn_later t) (tn_names t)
                             (sc_token c) new_cpa (sc_page c) user_id snippet_chars d in
            match r with
            | Err e => Some (d, expired (Err e))
            | Ok grown =>
                if negb (bool_decide (pp_results grown = [])) || (sc_candidates_per_arm_max cfg <=? new_cpa)
                   || (new_cpa <=? pm_candidates_per_arm m)
                then Some (d, Ok grown)
                else grow_loop fuel reranker (fun i => turns (S i)) c user_id snippet_chars d
            end
      end
  end.

(** Turns enough for any pool: each grow at least adds one candidate per arm. *)
Definition grow_fuel : nat := S (Z.to_nat (sc_candidates_per_arm_max cfg)).

Definition continue_or_grow (reranker : bool) (now : Z) (names : list (mail_row T)) (turns : nat -> turn)
    (c : SearchCursor) (user_id : option Z) (snippet_chars : option Snippet.width_value) (d : cache) :
    option (cache * res exn (pool_page T)) :=
  match continue_page cfg now names (sc_token c) (sc_page c) user_id snippet_chars d with
  | (d, Err PageOutOfPoolError) => grow_loop grow_fuel reranker turns c user_id snippet_chars d
  | (d, r) => Some (d, expired r)
  end.

(** [_check_pool_sort] *)
Definition check_pool_sort (now : Z) (c : SearchCursor) (sort : option sort_mode) (order : option sort_order)
    (user_id : option Z) (d : cache) : cache * res exn () :=
  match sort, order with
  | None, None => (d, Ok ())
  | _, _ =>
      let '(d, got) := get_pool_metadata cfg now (sc_token c) user_id d in
      (d, let* m := got in
          match m with
          | None => Err SearchCursorExpired
          | Some m => Search_cursor.reject_pool_sort_mismatch sort order (pm_sort m) (pm_sort_order m)
          end)
  end.

(** ** The response *)

(** [_next_cursor] *)
Definition next_cursor (p : page_body T) : res exn (option pystr) :=
  match p with
  | Dated p =>
      match dp_next_keyset p with
      | Some k => Some <$> Search_cursor.encode_keyset_cursor k
      | None => Ok None
      end
  | Ranked p =>
      Ok match pp_search_token p with
         | None => None
         | Some token =>
             let next := Search_cursor.encode_search_cursor (MkSearchCursor token (pp_page p + 1)) in
             if pp_has_more_in_pool p then Some next
             else if pp_can_grow_pool p && (pp_candidates_per_arm p <? sc_candidates_per_arm_max cfg)
                  then Some next else None
         end
  end.

(** [_to_api_result]; a dated hit has no snippet and the score [1.0 / rank]. *)
Definition to_api_result (r : SearchResult T) : api_hit :=
  ApiHit (str_int (sr_message_id r)) (str_int (sr_account_id r)) (sr_subject r)
    (sr_from_addr r, sr_from_name r)
    (isoformat <$> Sql.coalesce (sr_internal_date r) (sr_date_sent r))
    (sr_snippet r) (sr_has_attachments r) (sr_score r) (sr_matched_chunk_table r).
Definition dated_result (rows : list (mail_row T)) (h : search_hit T) : SearchResult T :=
  MkResult (sh_message_id h) (sh_account_id h) (Z.of_nat (sh_rank h))
    (fdiv fone (float_of_int (Z.of_nat (sh_rank h)))) fzero (sh_subject h) (sh_from_addr h) (sh_from_name h)
    (sh_date_sent h) (sh_internal_date h) [] SrcHeader None
    (default false (Arms.HAS_ATTACHMENT <$> row_of rows (sh_message_id h))) None TMessage.
Definition page_results (rows : list (mail_row T)) (p : page_body T) : list (SearchResult T) :=
  match p with Ranked p => pp_results p | Dated p => map (dated_result rows) (dp_hits p) end.
Definition page_sort (p : page_body T) : sort_mode :=
  match p with Ranked p => pp_sort_applied p | Dated _ => SortDate end.
Definition page_rankable (p : page_body T) : bool :=
  match p with Ranked p => pp_rankable p | Dated p => dp_rankable p end.

(** [search_response] *)
Definition make_response (results : list api_hit) (cursor : option pystr) (sort : sort_mode) (rankable : bool)
    (status : Rewrite.rewrite_status) (note : option Rewrite.note_code) : res exn search_response :=
  if ordering_pair_error sort rankable then Err ValueError
  else Ok (SearchResponse results cursor sort rankable (Rewrite.rewrite_skipped_for_status status) status note).

(** ** [run_search] *)

(** A request, as the transport typed it; [rq_sort] and [rq_sort_order] are the
    strings it stated. *)
Record request := Request {
  rq_free_text : pystr;
  rq_filters : filter_dict;
  rq_limit : Z;
  rq_allowed : list Z;
  rq_user : Z;
  rq_sort : option pystr;
  rq_sort_order : option pystr;
  rq_cursor : option pystr;
  rq_smart : bool;
  rq_fields : option (list pystr);
  rq_snippet_chars : option Snippet.width_value;
}.
Definition sort_of (s : pystr) : sort_mode := if str_eqb s (lit "rank") then SortRank else SortDate.
Definition order_of (s : pystr) : sort_order :=
  if str_eqb s (lit "asc") then Asc else if str_eqb s (lit "desc") then Desc else OtherOrder s.

(** What answers one request beside the cache. *)
Record api_env := ApiEnv {
  ae_search : search_env (T := T) (E := E);
  ae_now : Z;            (* the clock at the pool sort check *)
  ae_continue : Z;       (* at the continuation's first lookup *)
  ae_turns : nat -> turn;
}.

(** The gates ahead of any work: the query's free text and the plan. *)
Definition gate_request (r : request) : res exn (pystr * CursorPlan T) :=
  if sort_membership_error (rq_sort r) (rq_sort_order r) then Err ValidationFailed
  else if default false (fields_error <$> rq_fields r) then Err ValidationFailed
  else if default false ((fun v => Snippet.snippet_width_error v (Some (sc_snippet_max_chars cfg)))
                           <$> rq_snippet_chars r) then Err ValidationFailed
  else
    let* query := build_query_string (rq_free_text r) (rq_filters r) in
    let* gated := gate_query query in
    let* plan := Search_cursor.resolve_cursor_plan (rq_cursor r) (sort_of <$> rq_sort r)
                   (order_of <$> rq_sort_order r) (free_text gated) in
    Ok (free_text gated, plan).

(** The searcher's refusals, as the client sees them. *)
Definition refused {A} (r : res exn A) : res exn A :=
  match r with Err SearchArgumentRefused | Err QueryRefused => Err ValidationFailed | _ => r end.

Definition stated_sort (p : CursorPlan T) : option sort_mode :=
  match p with FreshPlan s _ => Some s | KeysetPlan _ => Some Search_cursor.KEYSET_SORT | PoolPlan _ s _ => s end.

Definition smart_available (env : api_env) : bool := bool_decide (se_rewriter (ae_search env) <> None).

(** The page the plan runs or continues. *)
Definition run_plan (env : api_env) (r : request) (scoped : filter_dict) (plan : CursorPlan T) (d : cache) :
    option (cache * res exn (search_page T)) :=
  let smart := rq_smart r && smart_available env in
  let args query sort order keyset smart :=
    SearchArgs query (Some (rq_allowed r)) (Some (rq_limit r)) None None true smart false (Some (rq_user r))
      sort order keyset (rq_snippet_chars r) in
  match plan with
  | FreshPlan _ _ =>
      Some match build_query_string (rq_free_text r) scoped with
           | Err e => (d, Err e)
           | Ok query =>
               let '(d, p) := search cfg (ae_search env)
                 (args query (sort_of <$> rq_sort r) (order_of <$> rq_sort_order r) None smart) d in
               (d, refused p)
           end
  | KeysetPlan k =>
      Some match build_query_string (rq_free_text r) scoped with
           | Err e => (d, Err e)
           | Ok query =>
               let '(d, p) := search cfg (ae_search env)
                 (args query (Some Search_cursor.KEYSET_SORT) (Some (ks_order k)) (Some k) false) d in
               (d, refused p)
           end
  | PoolPlan c sort order =>
      let '(d, checked) := check_pool_sort (ae_now env) c sort order (Some (rq_user r)) d in
      match checked with
      | Err e => Some (d, Err e)
      | Ok _ =>
          '(d, p) ← continue_or_grow (se_reranker (ae_search env)) (ae_continue env) (se_names (ae_search env))
                      (ae_turns env) c (Some (rq_user r)) (rq_snippet_chars r) d;
          Some (d, let* p := p in Ok (SearchPage (Ranked p) Rewrite.NotRequested None))
      end
  end.

(** The rewrite outcome the response reports. *)
Definition reported (env : api_env) (r : request) (p : search_page T) :
    Rewrite.rewrite_status * option Rewrite.note_code :=
  match rq_cursor r with
  | None =>
      if rq_smart r && negb (smart_available env) then (Rewrite.Unavailable, Some Rewrite.NotConfigured)
      else (sp_rewrite_status p, sp_rewrite_note_code p)
  | Some _ =>
      if rq_smart r then (Rewrite.NotAttempted, Some Rewrite.ContinuationPage)
      else (Rewrite.NotRequested, None)
  end.

Definition run_search (env : api_env) (r : request) (d : cache) : option (cache * res exn search_response) :=
  match gate_request r with
  | Err e => Some (d, Err e)
  | Ok (text, plan) =>
      match scope_filters_by_acl (rq_filters r) (rq_allowed r) with
      | Err e => Some (d, Err e)
      | Ok None =>
          Some (d, make_response [] None (resolve_sort (stated_sort plan) text) (is_rankable text)
                     Rewrite.NotRequested None)
      | Ok (Some scoped) =>
          '(d, p) ← run_plan env r scoped plan d;
          Some (d, let* p := p in
                   let* cursor := next_cursor (sp_body p) in
                   let '(status, note) := reported env r p in
                   make_response (map to_api_result (page_results (se_walk_rows (ae_search env)) (sp_body p)))
                     cursor (page_sort (sp_body p)) (page_rankable (sp_body p)) status note)
      end
  end.
End api.
End Search_api.
