(* ===== verification/SearchFacts.v ===== *)
(** * What the search api guarantees

    Every request is answered, and every hit belongs to an account the caller was
    granted. *)
From S2P Require Import Prelude Keyset PyStr Base64 Datetime Errors PySort Score Odict Relevance PageCache.
From S2P Require Import BrowseCursor Browse Query Arms Rewrite Snippet SearchPool PoolFacts Errors RelevanceFacts.
From S2P Require Import PoolPaging DateKeyset Search SearchCursor SearchApi.
Import Relevance Sort_axes Pool Search Search_api.

(** ** Continuing terminates *)
Section loop.
Context `{Datetime T} {E : Type} `{!Postgres T E} `{PyUnicode}.
Context (cfg : search_config).
Notation cache := (Page_cache.cache (V := PoolEntry T)).
Implicit Types (d : cache).

Lemma metadata_keys now token user d d' r :
  get_pool_metadata cfg now token user d = (d', r) -> NoDup d.*1 -> NoDup d'.*1 /\ keeps d d' token.
Proof.
  unfold get_pool_metadata. destruct (Page_cache.get _ _ _ _) as [d1 got] eqn:Eg. intros [= <- _] Hn.
  split; [by eapply get_keys | by eapply get_keeps].
Qed.
Lemma metadata_some now token user d d' m :
  get_pool_metadata cfg now token user d = (d', Ok (Some m)) ->
  exists e, entry_at d token = Some e /\ entry_at d' token = Some e /\
    foreign user e = false /\ pm_candidates_per_arm m = pe_candidates_per_arm e.
Proof.
  unfold get_pool_metadata. destruct (Page_cache.get _ _ _ _) as [d1 got] eqn:Eg. intros [= <- Hm].
  destruct got as [e | []]; try done. destruct (get_ok _ _ _ _ _ _ Eg) as [He Hs].
  exists e. rewrite Hs. destruct (foreign user e); [done |].
  destruct (ordering_pair_error _ _); [done |]. by injection Hm as <-.
Qed.

(** The turns a pool of that size can still take. *)
Definition enough (fuel : nat) d (token : pystr) : Prop :=
  forall e, entry_at d token = Some e ->
    pe_candidates_per_arm e <= 0 \/ sc_candidates_per_arm_max cfg - pe_candidates_per_arm e < Z.of_nat fuel.

Lemma grow_loop_enough fuel : forall (reranker : bool) (turns : nat -> turn (T := T) (E := E)) c user sc d,
  NoDup d.*1 -> (0 < fuel)%nat -> enough fuel d (sc_token c) ->
  is_Some (grow_loop cfg fuel reranker turns c user sc d).
Proof.
  induction fuel as [| fuel IH]; intros reranker turns c user sc d Hn Hpos Hen; [lia |].
  cbn [grow_loop]. destruct (get_pool_metadata _ _ _ _ _) as [d1 got] eqn:Em.
  destruct (metadata_keys _ _ _ _ _ _ Em Hn) as [Hn1 Hk1].
  destruct got as [[m |] |]; [| by eexists | by eexists].
  destruct (metadata_some _ _ _ _ _ _ Em) as (e & He & He1 & _ & Hm).
  pose proof (Hen e He) as Hfu. rewrite <- Hm in Hfu.
  destruct (Z.leb_spec (sc_candidates_per_arm_max cfg) (pm_candidates_per_arm m)); [by eexists |].
  set (new_cpa := Z.min _ _).
  destruct (grow_pool _ _ _ _ _ _ _ _ _ _ _ _) as [d2 r] eqn:Eg. destruct r as [grown | x]; [| by eexists].
  destruct (negb _ || _ || _) eqn:Eb; [by eexists |].
  apply orb_false_iff in Eb as [[_ Hlt]%orb_false_iff Hinc]. apply Z.leb_gt in Hlt, Hinc.
  destruct (grow_pool_cpa cfg _ _ _ _ _ _ _ _ _ _ _ _ _ Eg Hn1) as [Hn2 Hcpa].
  apply IH; [done | lia |]. intros e2 He2. right. rewrite (Hcpa e2 He2). lia.
Qed.

Lemma continue_or_grow_total reranker now names (turns : nat -> turn (T := T) (E := E)) c user sc d :
  NoDup d.*1 -> is_Some (continue_or_grow cfg reranker now names turns c user sc d).
Proof.
  intros Hn. unfold continue_or_grow. destruct (continue_page _ _ _ _ _ _ _ _) as [d1 r] eqn:Ec.
  destruct r as [p | []]; try by eexists. apply grow_loop_enough.
  - by eapply continue_page_keys.
  - unfold grow_fuel. lia.
  - intros e _. destruct (Z.le_gt_cases (pe_candidates_per_arm e) 0); [by left | right].
    unfold grow_fuel. lia.
Qed.

(** C14: continuing a search always answers.  A request that pages past its pool
    grows it at most until [candidates_per_arm_max], so [run_search] returns
    whatever the retrievals find; [None], the model's "still looping", is never
    its result. *)
Theorem run_search_terminates (env : api_env (T := T) (E := E)) (r : request) (d : cache) :
  NoDup d.*1 -> is_Some (run_search cfg env r d).
Proof.
  intros Hn. unfold run_search. destruct (gate_request cfg r) as [[text plan] | x]; [| by eexists].
  destruct (scope_filters_by_acl _ _) as [[scoped |] | x]; [| by eexists | by eexists].
  assert (Hp : is_Some (run_plan cfg env r scoped plan d)).
  { unfold run_plan. destruct plan as [s o | k | c so oo]; [by eexists | by eexists |].
    destruct (check_pool_sort cfg _ _ _ _ _ _) as [d1 chk] eqn:Ec. destruct chk; [| by eexists].
    assert (Hn1 : NoDup d1.*1).
    { unfold check_pool_sort in Ec. destruct so, oo; try (by injection Ec as <- _);
        (destruct (get_pool_metadata _ _ _ _ _) as [d2 got] eqn:Em; injection Ec as <- _;
         by destruct (metadata_keys _ _ _ _ _ _ Em Hn)). }
    destruct (continue_or_grow_total (se_reranker (ae_search env)) (ae_continue env) (se_names (ae_search env))
      (ae_turns env) c (Some (rq_user r)) (rq_snippet_chars r) d1 Hn1) as [[d2 p] Hcg].
    rewrite Hcg. cbn. by eexists. }
  destruct Hp as [[d1 p] Hp]. rewrite Hp. cbn. by eexists.
Qed.
End loop.

(** ** A run: a search and its second page *)
Module Example_api.
Import PoolPaging.Example_pool.
#[local] Existing Instance Query.ascii_unicode.
#[local] Existing Instance PoolPaging.Example_pool.sample_postgres.

(** One candidate per arm, so that the second page needs a grow. *)
Definition small_config : search_config :=
  SearchConfig (Arms.ArmConfig fone fone fone fone 10 3 64) 60 1 1 800 20 200 1500 200 1000 8
    (Page_cache.CacheConfig 16 1200).
Definition sample_search_env : search_env (T := Calendar.datetime) (E := ()) :=
  SearchEnv false None sample_env sample_rows sample_rows token.
Definition sample_api_env : api_env (T := Calendar.datetime) (E := ()) :=
  ApiEnv sample_search_env 1 1 (fun _ => Turn sample_env 1 1 1 sample_rows).
Definition no_filter : filter_dict := FilterDict None None None None None None None None None None None None [].
Definition ask (allowed : list Z) (cursor : option pystr) : request :=
  Request (lit "tax") no_filter 1 allowed 5 None None cursor false None None.

Definition after_first := run_search small_config sample_api_env (ask [1; 2] None) [].
Definition cache_of (x : option (Page_cache.cache (V := PoolEntry Calendar.datetime) * res exn search_response)) :=
  match x with Some (d, _) => d | None => [] end.
Definition hits (x : option (Page_cache.cache (V := PoolEntry Calendar.datetime) * res exn search_response)) :
    list (pystr * pystr) * option pystr :=
  match x with
  | Some (_, Ok r) => (map (fun h => (ah_id h, ah_account h)) (rs_results r), rs_next_cursor r)
  | _ => ([], None)
  end.
Definition after_second := run_search small_config sample_api_env (ask [2] (Some (lit "tok:2"))) (cache_of after_first).

Example first_answer : hits after_first = ([(lit "9", lit "2")], Some (lit "tok:2")).
Proof. by vm_compute. Qed.
Example second_answer : hits after_second = ([(lit "7", lit "1")], Some (lit "tok:3")).
Proof. by vm_compute. Qed.

Lemma run_search_terminates_witness :
  is_Some (run_search small_config sample_api_env (ask [2] (Some (lit "tok:2"))) (cache_of after_first)).
Proof.
  apply (run_search_terminates small_config sample_api_env (ask [2] (Some (lit "tok:2"))) (cache_of after_first)).
  apply (bool_decide_unpack _). by vm_compute.
Defined.
End Example_api.

(** ** Whose mail a search returns *)
Section acl.
Context `{Datetime T} {E : Type} `{!Postgres T E} `{PyUnicode}.
Context (cfg : search_config).
Notation cache := (Page_cache.cache (V := PoolEntry T)).
Implicit Types (d : cache) (e : PoolEntry T).

(** ** Stable ownership
    [messages.account_id] is written once, at insert; what varies between the
    snapshots a request reads is which messages exist. *)
Context (owner : Z -> Z).
Definition owned (rows : list (mail_row T)) : Prop :=
  forall m, m ∈ rows -> mr_account m = owner (mr_id m) /\ 0 < mr_account m.
Definition owned_retrieval (rv : retrieval (T := T) (E := E)) : Prop :=
  owned (arm_rows rv) /\ owned (rv_hydrate rv).
Record owned_env (env : api_env (T := T) (E := E)) : Prop := {
  oe_fresh : owned_retrieval (se_retrieval (ae_search env));
  oe_turns : forall i, owned_retrieval (tn_retrieval (ae_turns env i));
  oe_walk : owned (se_walk_rows (ae_search env));
}.

(** ** Pools hold what their owner may see *)
Section pools.
Context (may : Z -> Z -> Prop).

(** The query is limited to accounts [user] may see, or to none. *)
Definition limited (user : Z) (p : ParsedQuery) : Prop :=
  exists a l, account_ids (filters p) = Some (a :: l) /\ forall x, x ∈ a :: l -> x = NO_ACCOUNT_SENTINEL \/ may user x.
Definition entry_ok e : Prop := forall u, pe_user_id e = Some u ->
  limited u (pe_parsed e) /\ forall i, i ∈ pe_hydrated e -> may u (mr_account (it_msg i)).
Definition cache_ok d : Prop := NoDup d.*1 /\ forall k e, entry_at d k = Some e -> entry_ok e.
Definition page_ok (user : Z) (p : pool_page T) : Prop :=
  forall r, r ∈ pp_results p -> may user (sr_account_id r).

Lemma cache_ok_keeps d d' : cache_ok d -> NoDup d'.*1 -> (forall k, keeps d d' k) -> cache_ok d'.
Proof.
  intros [Hn He] Hn' Hk. split; [done |]. intros k e Hd'. apply (He k). destruct (Hk k) as [Hk' | Hk']; congruence.
Qed.

Lemma resolve_limited u table p : limited u p -> limited u (resolve_account_names table p).
Proof. unfold resolve_account_names. intros Hl. by destruct (account_names (filters p)). Qed.
Lemma clamp_limited u p allowed : (forall a, a ∈ allowed -> may u a) ->
  limited u (clamp_account_ids_to_acl p (Some allowed)).
Proof.
  intros Hm. unfold clamp_account_ids_to_acl, limited.
  set (ids := match account_ids (filters p) with Some (_ :: _ as c) => _ | _ => _ end).
  assert (Hids : forall x, x ∈ ids -> x ∈ allowed).
  { intros x. unfold ids. destruct (account_ids (filters p)) as [[| a l] |]; rewrite Browse.elem_sorted_set; [done | | done].
    by intros [? _]%list_elem_of_filter. }
  clearbody ids. destruct ids as [| a l]; eexists _, _; (split; [done |]); intros x Hx.
  - left. by apply list_elem_of_singleton in Hx.
  - right. by apply Hm, Hids.
Qed.

Lemma fill_pool_owned reranker env p cpa rps exclude hyd sco u :
  owned_retrieval env -> limited u p -> fill_pool cfg reranker env p cpa rps exclude = Ok (hyd, sco) ->
  forall i, i ∈ hyd -> may u (mr_account (it_msg i)).
Proof.
  intros [Ha Hh] (a & l & Hids & Hl) Hf i Hi.
  destruct (fill_pool_spec _ _ _ _ _ _ _ _ _ Hf) as (_ & _ & Hin).
  destruct (Hin i Hi) as (_ & Hrow & m & Hm & Hid & Hk).
  destruct (row_of_some _ _ _ Hrow) as [Hr Hri]. destruct (Hh _ Hr) as [-> _]. rewrite Hri, <- Hid.
  destruct (Ha _ Hm) as [<- Hpos]. destruct (Hl _ (kept_account _ _ _ _ Hids Hk)) as [E0 | ?]; [| done].
  unfold NO_ACCOUNT_SENTINEL in E0. lia.
Qed.

Lemma build_results_accounts names hyd p scores page ps sort width results r :
  build_results names hyd p scores page ps sort width = Ok results -> r ∈ results ->
  exists i, i ∈ hyd /\ sr_account_id r = mr_account (it_msg i).
Proof.
  unfold build_results. destruct (ordered_pool _ _ _) as [ordered |] eqn:Eo; [| done]. intros [= <-] Hr.
  apply elem_of_lookup_imap in Hr as (i & x & -> & Hx). exists x.1. split; [| done].
  assert (Hin : x ∈ ordered).
  { apply list_elem_of_lookup_2 in Hx. unfold slice in Hx. apply elem_of_take in Hx as (j & Hx & _).
    rewrite lookup_drop in Hx. by eapply list_elem_of_lookup_2. }
  unfold ordered_pool in Eo. destruct (negb _); [done |].
  assert (Hz : x ∈ zip hyd scores) by (injection Eo as <-; destruct sort; by rewrite py_sorted_elem in Hin).
  destruct x as [it s]. by apply elem_of_zip_l in Hz.
Qed.

Lemma continue_page_acl now names token page u sc d d' r :
  continue_page cfg now names token page (Some u) sc d = (d', r) -> cache_ok d ->
  cache_ok d' /\ forall pg, r = Ok pg -> page_ok u pg.
Proof.
  intros Hc Hd. split.
  - eapply cache_ok_keeps; [done | eapply continue_page_keys; [done | apply Hd] |].
    intros k. by eapply continue_page_keeps.
  - intros pg ->. unfold continue_page in Hc. destruct (resolve_width cfg sc) as [w |]; [| done].
    destruct (Page_cache.get _ _ _ _) as [d1 got] eqn:Eg. injection Hc as <- Hr.
    destruct got as [e |]; [| done]. destruct (get_ok _ _ _ _ _ _ Eg) as [He _].
    destruct (decide (pe_user_id e = Some u)) as [Ef | Ef]; [| by rewrite bool_decide_eq_false_2 in Hr].
    destruct (proj2 Hd _ _ He u Ef) as [_ Hhyd]. repeat (case_match; try done).
    unfold make_page in Hr. destruct (ordering_pair_error _ _); [done |]. injection Hr as <-.
    intros x Hx. cbn [pp_results] in Hx. edestruct build_results_accounts as (i & Hi & ->); [eassumption.. |].
    by apply Hhyd.
Qed.

Lemma put_pool_acl now token e d d' r :
  put_pool cfg now token e d = (d', r) -> entry_ok e -> cache_ok d -> cache_ok d'.
Proof.
  intros Hp Hok [Hn Hd]. destruct (put_pool_spec _ _ _ _ _ _ _ Hp Hn) as (Hn' & Hk & Ht).
  split; [done |]. intros k e0 He0. destruct (decide (k = token)) as [-> | Hne].
  - destruct Ht as [[-> _] | [Ht | Ht]]; [by eapply Hd | | congruence].
    by assert (e0 = e) as -> by congruence.
  - destruct (Hk k Hne) as [Hk' | Hk']; [| congruence]. apply (Hd k). congruence.
Qed.

Lemma grow_pool_acl reranker env now later names token cpa page u sc d d' r :
  grow_pool cfg reranker env now later names token cpa page (Some u) sc d = (d', r) ->
  owned_retrieval env -> cache_ok d -> cache_ok d' /\ forall pg, r = Ok pg -> page_ok u pg.
Proof.
  intros Hg Ho Hd. unfold grow_pool in Hg.
  destruct (resolve_width cfg sc) as [w |]; [| by injection Hg as <- <-].
  destruct (Page_cache.get _ _ _ _) as [d1 got] eqn:Eg.
  assert (Hd1 : cache_ok d1).
  { eapply cache_ok_keeps; [done | eapply get_keys; [done | apply Hd] |]. intros k. by eapply get_keeps. }
  destruct got as [e |]; [| by injection Hg as <- <-]. destruct (get_ok _ _ _ _ _ _ Eg) as [He _].
  destruct (foreign (Some u) e) eqn:Ef; [by injection Hg as <- <- |].
  cbn in Ef. apply negb_false_iff, bool_decide_eq_true in Ef.
  destruct (_ <? _); [by injection Hg as <- <- |].
  destruct (ordered_pool _ _ _); [| by injection Hg as <- <-].
  destruct (fill_pool _ _ _ _ _ _ _) as [[hyd sco] |] eqn:Efp; [| by injection Hg as <- <-].
  destruct (put_pool _ _ _ _ _) as [d2 rp] eqn:Ep.
  assert (Hd2 : cache_ok d2).
  { eapply put_pool_acl; [exact Ep | | done]. intros u' Hu'. cbn in Hu' |- *.
    destruct (proj2 Hd _ _ He u' Hu') as [Hlim _]. split; [by apply resolve_limited |].
    eapply fill_pool_owned; [done | by apply resolve_limited | exact Efp]. }
  destruct rp; [by eapply continue_page_acl | by injection Hg as <- <-].
Qed.

Lemma grow_loop_acl fuel : forall reranker (turns : nat -> turn (T := T) (E := E)) c u sc d d' r,
  grow_loop cfg fuel reranker turns c (Some u) sc d = Some (d', r) ->
  (forall i, owned_retrieval (tn_retrieval (turns i))) -> cache_ok d ->
  cache_ok d' /\ forall pg, r = Ok pg -> page_ok u pg.
Proof.
  induction fuel as [| fuel IH]; intros reranker turns c u sc d d' r Hg Ho Hd; [done |].
  cbn [grow_loop] in Hg. destruct (get_pool_metadata _ _ _ _ _) as [d1 got] eqn:Em.
  assert (Hd1 : cache_ok d1).
  { eapply cache_ok_keeps; [done | eapply metadata_keys; [done | apply Hd] |]. intros k.
    unfold get_pool_metadata in Em. destruct (Page_cache.get _ _ _ _) as [d2 g] eqn:Eg. injection Em as <- _.
    by eapply get_keeps. }
  destruct got as [[m |] |]; [| by injection Hg as <- <- | by injection Hg as <- <-].
  destruct (_ <=? pm_candidates_per_arm m).
  { injection Hg as <- <-. split; [done |]. intros pg Hpg x Hx. exfalso. unfold empty_grown_page in Hpg.
    destruct (Query.parse_query []); [| done]. cbn in Hpg. unfold make_page in Hpg.
    destruct (ordering_pair_error _ _); [done |]. injection Hpg as <-. by apply elem_of_nil in Hx. }
  destruct (grow_pool _ _ _ _ _ _ _ _ _ _ _ _) as [d2 g] eqn:Eg.
  destruct (grow_pool_acl _ _ _ _ _ _ _ _ _ _ _ _ _ Eg (Ho O) Hd1) as [Hd2 Hpg].
  destruct g as [grown | x].
  - destruct (_ || _ || _).
    + injection Hg as <- <-. split; [done |]. intros pg [= <-]. by apply Hpg.
    + eapply IH; [exact Hg | intros i; apply Ho | done].
  - injection Hg as <- <-. split; [done |]. intros pg. by destruct x.
Qed.

Lemma search_pool_page reranker env names token p cpa rps ps user u sort order width d d' pg :
  search_pool cfg reranker env names token p cpa rps ps user sort order width d = (d', Ok pg) ->
  owned_retrieval env -> limited u p -> page_ok u pg.
Proof.
  intros Hs Ho Hl. unfold search_pool in Hs.
  destruct (fill_pool _ _ _ _ _ _ _) as [[hyd sco] |] eqn:Ef; [| done].
  pose proof (fill_pool_owned _ _ _ _ _ _ _ _ _ Ho (resolve_limited u _ p Hl) Ef) as Hhyd.
  destruct (build_results _ _ _ _ _ _ _ _) as [results |] eqn:Eb; [| done].
  destruct (match token with None => _ | Some t => _ end) as [d1 stored]. injection Hs as <- Hpg.
  destruct stored; [| done]. unfold make_page in Hpg. destruct (ordering_pair_error _ _); [done |].
  injection Hpg as <-. intros x Hx. cbn [pp_results] in Hx.
  edestruct build_results_accounts as (i & Hi & ->); [eassumption.. |]. by apply Hhyd.
Qed.
Lemma search_pool_cache reranker env names token p cpa rps ps u sort order width d d' r :
  search_pool cfg reranker env names token p cpa rps ps (Some u) sort order width d = (d', r) ->
  owned_retrieval env -> limited u p -> cache_ok d -> cache_ok d'.
Proof.
  intros Hs Ho Hl Hd. unfold search_pool in Hs.
  pose proof (resolve_limited u (rv_account_names env) p Hl) as Hl'.
  destruct (fill_pool _ _ _ _ _ _ _) as [[hyd sco] |] eqn:Ef; [| by injection Hs as <- _].
  destruct (build_results _ _ _ _ _ _ _ _) as [results |] eqn:Eb; [| by injection Hs as <- _].
  destruct token as [t |]; [| by injection Hs as <- _].
  destruct (put_pool _ _ _ _ _) as [d1 rp] eqn:Ep. injection Hs as <- _.
  eapply put_pool_acl; [exact Ep | | done]. intros u' [= ->]. cbn. split; [done |].
  by eapply fill_pool_owned.
Qed.

(** The date walk reads the same filters. *)
Lemma keyset_rows_kept (mc we : message T -> Sql.cond) rows k order n page m :
  Date_keyset.keyset_rows mc we rows k order n = Ok page -> m ∈ page -> m ∈ rows /\ Sql.kept (we m) = true.
Proof.
  unfold Date_keyset.keyset_rows.
  destruct (match k with None => _ | Some k => _ end) as [cc |]; [| done].
  assert (Hsel : forall cond (le : relation (message T)) `{!RelDecision le} limit,
    m ∈ select le (fun m => Sql.and (mc m) (Sql.and (cond m) (we m))) limit rows -> m ∈ rows /\ Sql.kept (we m) = true).
  { intros cond le Hdec limit. unfold select. intros (j & Hm & _)%elem_of_take.
    apply list_elem_of_lookup_2 in Hm. rewrite merge_sort_Permutation in Hm.
    apply list_elem_of_filter in Hm as [Hk Hm]. rewrite !Sql.kept_and in Hk.
    apply andb_true_iff in Hk as [_ Hk]. by apply andb_true_iff in Hk as [_ Hk]. }
  unfold Date_keyset.compose_date_keyset_sql. destruct order; try done; cbv beta iota;
    (destruct (Date_keyset.needs_undated_top_up _ _ _); intros [= <-];
      [intros [Hm | Hm]%elem_of_app | intros Hm]; first [exact (Hsel cc _ _ _ Hm) | exact (Hsel undated_only _ _ _ Hm)]).
Qed.
Lemma date_walk_accounts u rows p n k order hits next h :
  owned rows -> limited u p -> date_walk rows p n k order = Ok (hits, next) -> h ∈ hits ->
  may u (sh_account_id h).
Proof.
  intros Ho (a & l & Hids & Hl). unfold date_walk, Date_keyset.date_keyset_search.
  destruct (Date_keyset.keyset_rows _ _ _ _ _ _) as [page |] eqn:Ek; [| done]. intros [= <- _] Hh.
  apply elem_of_lookup_imap in Hh as (i & m & -> & Hm). cbn [Date_keyset.to_hit sh_account_id].
  apply lookup_take_Some in Hm as [Hm _]. apply list_elem_of_lookup_2 in Hm.
  destruct (keyset_rows_kept _ _ _ _ _ _ _ _ Ek Hm) as [Hin Hk].
  change (map mr_message rows) with (mr_message <$> rows) in Hin. apply list_elem_of_fmap in Hin as (r & -> & Hr).
  unfold on_row in Hk. destruct (row_of rows (m_id (mr_message r))) as [r' |] eqn:Er; [| done].
  destruct (row_of_some _ _ _ Er) as [Hr' Hid].
  change (m_account_id (mr_message r)) with (mr_account r). destruct (Ho _ Hr) as [-> _].
  change (m_id (mr_message r)) with (mr_id r) in Hid. rewrite <- Hid. destruct (Ho _ Hr') as [<- Hpos].
  destruct (Hl _ (kept_account _ _ _ _ Hids Hk)) as [E0 | ?]; [| done]. unfold NO_ACCOUNT_SENTINEL in E0. lia.
Qed.
End pools.

(** ** One request *)
Definition hits_of (env : search_env (T := T) (E := E)) (p : search_page T) : list (SearchResult T) :=
  page_results (se_walk_rows env) (sp_body p).

Lemma search_accounts may u allowed (env : search_env (T := T) (E := E)) (a : search_args T) d d' r :
  search cfg env a d = (d', r) -> sa_user_id a = Some u -> sa_allowed_account_ids a = Some allowed ->
  (forall x, x ∈ allowed -> may u x) -> owned_retrieval (se_retrieval env) -> owned (se_walk_rows env) ->
  (cache_ok may d -> cache_ok may d') /\
  forall p, r = Ok p -> forall h, h ∈ hits_of env p -> may u (sr_account_id h).
Proof.
  intros Hs Hu Hal Hm Hr Hw. unfold search in Hs.
  destruct (let* _ := _ in _) as [[[[width order] sort] [[rw status] note]] | x]; [| by injection Hs as <- <-].
  pose proof (clamp_limited may u rw allowed Hm) as Hl. rewrite <- Hal in Hl.
  destruct sort.
  - destruct (search_pool _ _ _ _ _ _ _ _ _ _ _ _ _ _) as [d1 r1] eqn:Ep. injection Hs as <- <-.
    rewrite Hu in Ep. split; [intros Hd; by eapply search_pool_cache |].
    intros p. destruct r1 as [pg |]; [| done]. intros [= <-]. by eapply search_pool_page.
  - injection Hs as <- <-. split; [done |]. intros p.
    destruct (date_walk _ _ _ _ _) as [[hits next] |] eqn:Ew; [| done]. intros [= <-] h.
    unfold hits_of. cbn [sp_body page_results dp_hits].
    intros (sh & -> & Hsh)%list_elem_of_fmap. cbn [dated_result sr_account_id].
    eapply (date_walk_accounts may); [exact Hw | | exact Ew | exact Hsh]. by apply resolve_limited.
Qed.

(** The plan of a request continues a cached pool. *)
Definition continues_pool (r : request) : Prop :=
  exists text c so oo, gate_request (T := T) cfg r = Ok (text, PoolPlan c so oo).

Lemma check_pool_sort_keeps now c so oo user d d' r :
  check_pool_sort cfg now c so oo user d = (d', r) -> NoDup d.*1 -> NoDup d'.*1 /\ forall k, keeps d d' k.
Proof.
  unfold check_pool_sort. intros Hc Hn.
  assert (Hsame : (d, Ok (E := exn) ()) = (d', r) -> NoDup d'.*1 /\ forall k, keeps d d' k)
    by (intros [= <- _]; split; [done | by left]).
  assert (Hget : forall x, (let '(d1, got) := get_pool_metadata cfg now (sc_token c) user d in (d1, x got)) = (d', r) ->
    NoDup d'.*1 /\ forall k, keeps d d' k).
  { intros x. unfold get_pool_metadata. destruct (Page_cache.get _ _ _ _) as [d1 got] eqn:Eg. intros [= <- _].
    split; [by eapply get_keys | intros k; by eapply get_keeps]. }
  destruct so; [by eapply Hget in Hc |]. destruct oo; [by eapply Hget in Hc | by apply Hsame].
Qed.

Lemma run_plan_accounts may (env : api_env (T := T) (E := E)) r scoped plan d d' p :
  run_plan cfg env r scoped plan d = Some (d', p) -> owned_env env ->
  (forall x, x ∈ rq_allowed r -> may (rq_user r) x) ->
  (cache_ok may d -> cache_ok may d') /\
  forall pg, p = Ok pg ->
    cache_ok may d \/ (forall c so oo, plan <> PoolPlan c so oo) ->
    forall h, h ∈ hits_of (ae_search env) pg -> may (rq_user r) (sr_account_id h).
Proof.
  intros Hp [Hr Ht Hw] Hm. unfold run_plan in Hp.
  destruct plan as [so oo | k | c so oo].
  - destruct (build_query_string _ _) as [q |]; [| by injection Hp as <- <-].
    destruct (search _ _ _ _) as [d1 p1] eqn:Es. injection Hp as <- <-.
    edestruct search_accounts as [Hc Hh]; [exact Es | done.. |]. split; [done |].
    intros pg Hpg _. apply Hh. by destruct p1 as [| []].
  - destruct (build_query_string _ _) as [q |]; [| by injection Hp as <- <-].
    destruct (search _ _ _ _) as [d1 p1] eqn:Es. injection Hp as <- <-.
    edestruct search_accounts as [Hc Hh]; [exact Es | done.. |]. split; [done |].
    intros pg Hpg _. apply Hh. by destruct p1 as [| []].
  - destruct (check_pool_sort _ _ _ _ _ _ _) as [d1 chk] eqn:Ec.
    assert (Hd1 : cache_ok may d -> cache_ok may d1).
    { intros Hd. destruct (check_pool_sort_keeps _ _ _ _ _ _ _ _ Ec (proj1 Hd)). by eapply cache_ok_keeps. }
    destruct chk; [| by injection Hp as <- <-].
    destruct (continue_or_grow _ _ _ _ _ _ _ _ _) as [[d2 p2] |] eqn:Eg; [| done]. injection Hp as <- <-.
    assert (HG : cache_ok may d -> cache_ok may d2 /\ forall pg, p2 = Ok pg -> page_ok may (rq_user r) pg).
    { intros Hd%Hd1. unfold continue_or_grow in Eg.
      destruct (continue_page _ _ _ _ _ _ _ _) as [d3 p3] eqn:Ecp.
      destruct (continue_page_acl may _ _ _ _ _ _ _ _ _ Ecp Hd) as [Hd3 Hp3].
      destruct p3 as [pg | []]; try (injection Eg as <- <-; split; [done |]; by try (intros ? [= <-]; apply Hp3)).
      by eapply grow_loop_acl. }
    split; [by intros []%HG |]. intros pg Hpg [Hd | Hno]; [| by destruct (Hno c so oo)].
    destruct (HG Hd) as [_ Hpage]. destruct p2 as [pg2 |]; [| done]. injection Hpg as <-. by apply Hpage.
Qed.

(** ** The api, request after request

    [api_run d log]: the cache is [d] after the requests of [log], each with its
    user and the accounts that user was granted at the time. *)
Inductive api_run : cache -> list (Z * list Z) -> Prop :=
  | api_start : api_run [] []
  | api_request d log env r d' p :
      api_run d log -> owned_env env -> run_search cfg env r d = Some (d', p) ->
      api_run d' ((rq_user r, rq_allowed r) :: log).

Definition granted (log : list (Z * list Z)) (u a : Z) : Prop := exists allowed, (u, allowed) ∈ log /\ a ∈ allowed.

Lemma run_search_accounts may (env : api_env (T := T) (E := E)) r d d' p :
  run_search cfg env r d = Some (d', p) -> owned_env env ->
  (forall x, x ∈ rq_allowed r -> may (rq_user r) x) ->
  (cache_ok may d -> cache_ok may d') /\
  forall resp, p = Ok resp -> cache_ok may d \/ ~ continues_pool r ->
    forall h, h ∈ rs_results resp -> exists a, ah_account h = str_int a /\ may (rq_user r) a.
Proof.
  intros Hp Ho Hm. unfold run_search in Hp. destruct (gate_request cfg r) as [[text plan] | x] eqn:Ea;
    [| by injection Hp as <- <-].
  destruct (scope_filters_by_acl _ _) as [[scoped |] | x]; [| | by injection Hp as <- <-].
  - destruct (run_plan _ _ _ _ _ _) as [[d1 p1] |] eqn:Er; [| done]. injection Hp as <- <-.
    destruct (run_plan_accounts may _ _ _ _ _ _ _ Er Ho Hm) as [Hd Hh]. split; [done |].
    intros resp Hresp Hor h Hin. destruct p1 as [pg |]; [| done].
    destruct (next_cursor _ _) as [cur |]; [| done]. destruct (reported _ _ _) as [status note].
    unfold make_response in Hresp. destruct (ordering_pair_error _ _); [done |]. injection Hresp as <-.
    cbn [rs_results] in Hin. apply list_elem_of_In, in_map_iff in Hin as (sr & <- & Hsr). apply list_elem_of_In in Hsr.
    exists (sr_account_id sr). split; [done |]. apply (Hh pg eq_refl); [| done].
    destruct Hor as [? | Hno]; [by left | right]. intros c so oo ->. apply Hno. by exists text, c, so, oo.
  - injection Hp as <- <-. split; [done |]. intros resp Hresp _ h Hin.
    unfold make_response in Hresp. destruct (ordering_pair_error _ _); [done |]. injection Hresp as <-.
    by apply elem_of_nil in Hin.
Qed.

Lemma cache_ok_mono (may may' : Z -> Z -> Prop) d :
  (forall u a, may u a -> may' u a) -> cache_ok may d -> cache_ok may' d.
Proof.
  intros Hm [Hn He]. split; [done |]. intros k e Hk u Hu. destruct (He k e Hk u Hu) as [(a & l & Hids & Hl) Hh].
  split; [| by intros i Hi; apply Hm, Hh]. exists a, l. split; [done |]. intros x Hx.
  destruct (Hl x Hx); [by left | by right; apply Hm].
Qed.
Lemma api_run_ok d log : api_run d log -> cache_ok (granted log) d.
Proof.
  induction 1 as [| d log env r d' p _ IH Ho Hr].
  - split; [constructor | done].
  - destruct (run_search_accounts (granted ((rq_user r, rq_allowed r) :: log)) env r d d' p Hr Ho) as [Hd _].
    + intros x Hx. exists (rq_allowed r). split; [by left | done].
    + apply Hd. eapply cache_ok_mono; [| exact IH]. intros u a (l & Hl & Ha). exists l. split; [by right | done].
Qed.

(** C4: a search never shows mail its caller was not granted.  Every hit of
    every response belongs to an account the caller holds a grant for; only a
    request that continues a cached pool may also show an account the caller
    was granted at an earlier request of theirs, and never one that only other
    users' requests were granted. *)
Theorem search_stays_in_grants d log env r d' resp h :
  api_run d log -> owned_env env -> run_search cfg env r d = Some (d', Ok resp) -> h ∈ rs_results resp ->
  (exists a, ah_account h = str_int a /\ granted ((rq_user r, rq_allowed r) :: log) (rq_user r) a) /\
  (continues_pool r \/ exists a, ah_account h = str_int a /\ a ∈ rq_allowed r).
Proof.
  intros Hrun Ho Hr Hh. split.
  - destruct (run_search_accounts (granted ((rq_user r, rq_allowed r) :: log)) env r d d' _ Hr Ho) as [_ HG].
    + intros x Hx. exists (rq_allowed r). split; [by left | done].
    + apply (HG resp eq_refl); [left | done]. eapply cache_ok_mono; [| by apply api_run_ok].
      intros u a (l & Hl & Ha). exists l. split; [by right | done].
  - assert (Hdec : continues_pool r \/ ~ continues_pool r).
    { unfold continues_pool. destruct (gate_request cfg r) as [[text [so oo | k | c so oo]] | x];
        try (right; by intros (? & ? & ? & ? & [=])). left. by exists text, c, so, oo. }
    destruct Hdec as [? | Hno]; [by left | right].
    destruct (run_search_accounts (fun _ a => a ∈ rq_allowed r) env r d d' _ Hr Ho) as [_ HG]; [done |].
    apply (HG resp eq_refl); [by right | done].
Qed.
End acl.

(** ** A run: the grants shrink between two pages *)
Module Example_acl.
Import PoolPaging.Example_pool Example_api.
#[local] Existing Instance Query.ascii_unicode.
#[local] Existing Instance PoolPaging.Example_pool.sample_postgres.

Definition sample_owner (id : Z) : Z := if id =? 9 then 2 else 1.
Lemma sample_rows_owned : owned sample_owner sample_rows.
Proof.
  intros m Hm. unfold sample_rows in Hm. rewrite !elem_of_cons in Hm.
  by destruct Hm as [-> | [-> | [-> | []%elem_of_nil]]].
Qed.
Lemma sample_env_owned : owned_env sample_owner sample_api_env.
Proof.
  assert (Hr : owned_retrieval sample_owner sample_env).
  { split; [| exact sample_rows_owned]. intros m. unfold arm_rows. rewrite !elem_of_app.
    intros [Hm | [Hm | [Hm | Hm]]]; by apply sample_rows_owned. }
  split; [done | done | exact sample_rows_owned].
Qed.
Lemma first_page_run : api_run small_config sample_owner (cache_of after_first) [(5, [1; 2])].
Proof.
  assert (Hr : exists p, after_first = Some (cache_of after_first, p)).
  { destruct after_first as [[d p] |] eqn:E; [by exists p | by vm_compute in E]. }
  destruct Hr as [p Hp]. by eapply (api_request small_config sample_owner [] [] sample_api_env (ask [1; 2] None));
    [apply api_start | exact sample_env_owned |].
Qed.
Lemma search_stays_in_grants_witness :
  exists d' resp, run_search small_config sample_api_env (ask [1; 2] (Some (lit "tok:2"))) (cache_of after_first)
      = Some (d', Ok resp) /\
    forall h, h ∈ rs_results resp ->
      exists a, ah_account h = str_int a /\ granted [(5, [1; 2]); (5, [1; 2])] 5 a.
Proof.
  destruct (run_search small_config sample_api_env (ask [1; 2] (Some (lit "tok:2"))) (cache_of after_first))
    as [[d' [resp |]] |] eqn:Er; [| by vm_compute in Er..].
  exists d', resp. split; [done |]. intros h Hh.
  exact (proj1 (search_stays_in_grants small_config sample_owner (cache_of after_first) [(5, [1; 2])] sample_api_env
    (ask [1; 2] (Some (lit "tok:2"))) d' resp h first_page_run sample_env_owned Er Hh)).
Defined.

(** Withdrawing a grant does not stop the paging.  A caller granted two
    accounts takes page 1, loses one of the grants, asks for page 2 with the
    grants they have left, and is shown a message of the account they lost:
    freshly retrieved, since the page needed the pool to grow. *)
Lemma revoked_grant_still_paged :
  exists cfg owner log (d : Page_cache.cache (V := PoolEntry Calendar.datetime)) (env : api_env (E := ())) r d' resp h a,
    api_run cfg owner d log /\ owned_env owner env /\
    run_search cfg env r d = Some (d', Ok resp) /\ h ∈ rs_results resp /\
    ah_account h = str_int a /\ a ∉ rq_allowed r /\ rq_allowed r <> [] /\
    forall e, entry_at d token = Some e -> forall i, i ∈ pe_hydrated e -> mr_account (it_msg i) <> a.
Proof.
  destruct after_second as [[d' [resp |]] |] eqn:Er; [| by vm_compute in Er..].
  assert (Hh : map (fun h => (ah_id h, ah_account h)) (rs_results resp) = [(lit "7", lit "1")]).
  { pose proof second_answer as Hs. rewrite Er in Hs. cbn [hits] in Hs. congruence. }
  destruct (rs_results resp) as [| h l] eqn:El; [done |]. cbn [map] in Hh.
  eexists small_config, sample_owner, _, _, sample_api_env, (ask [2] (Some (lit "tok:2"))), d', resp, h, 1.
  split; [exact first_page_run |]. split; [exact sample_env_owned |]. split; [exact Er |].
  rewrite El. split; [by left |]. split; [by injection Hh as _ -> _ |].
  split; [intros ?%list_elem_of_singleton; done |]. split; [done |].
  assert (Hfirst : (fun e => map (fun i => mr_account (it_msg i)) (pe_hydrated e)) <$> entry_at (cache_of after_first) token
    = Some [2]) by by vm_compute.
  intros e He i Hi. rewrite He in Hfirst. injection Hfirst as Hfirst.
  assert (Hin : mr_account (it_msg i) ∈ [2]).
  { rewrite <- Hfirst. apply list_elem_of_In, (in_map (fun i => mr_account (it_msg i))). by apply list_elem_of_In. }
  apply list_elem_of_singleton in Hin. by rewrite Hin.
Qed.
End Example_acl.
