(* ===== verification/ComposeFacts.v ===== *)
(** * The composed query reads as the free text with the filters added *)
From S2P Require Import Prelude PyStr Datetime Errors Relevance Query Browse SearchApi.
Import Relevance Query Search_api.

Section compose.
Context `{PyUnicode}.

(** ** Tokens that stand by themselves *)

(** [t] is read as the one token [pr] wherever a composer puts it, and that
    token adds nothing to the free text. *)
Record stands_alone (t : pystr) (pr : pystr * pystr) : Prop := {
  sa_followed : forall rest, tokenize (t ++ 32 :: rest) = pr :: tokenize rest;
  sa_last : tokenize t = [pr];
  sa_neutral : forall a a', read_token a pr = Ok a' -> a_free a' = a_free a;
}.

Lemma plain_token t : Forall plain t -> t <> [] ->
  (forall rest, tokenize (t ++ 32 :: rest) = (t, t) :: tokenize rest) /\ tokenize t = [(t, t)].
Proof.
  intros Hp Hne. split.
  - intros rest. unfold tokenize. rewrite tokenize_plain by done. cbn [app tokenize_from].
    change (32 =? QUOTE) with false. change (is_space_char 32) with true. cbn iota. by destruct t.
  - unfold tokenize. rewrite <- (app_nil_r t) at 1. rewrite tokenize_plain by done. cbn [tokenize_from app].
    by destruct t.
Qed.
Lemma quoted_token_last key v q : Forall plain key -> quoted_filter_value v = Some q ->
  tokenize (key ++ q) = [(key ++ clean_value v, key ++ q)].
Proof.
  intros Hk Hq. unfold quoted_filter_value in Hq.
  destruct (clean_value v) as [| c s] eqn:Ec; [done |]. rewrite <- Ec in *.
  injection Hq as <-. unfold tokenize. rewrite tokenize_plain by done. cbn [app tokenize_from].
  rewrite Z.eqb_refl, tokenize_quoted by apply clean_value_no_quote. cbn [tokenize_from].
  destruct (key ++ clean_value v) eqn:E; [apply app_nil in E as [_ E]; congruence |].
  unfold flush. f_equal. by rewrite <- app_assoc.
Qed.

(** An operator with a value is no free text, whatever it does to the filters. *)
Definition filter_ops : list pystr := lit "lang" :: OPERATORS.
Lemma filter_op_lower op : op ∈ filter_ops -> lower op = op /\ COLON ∉ op.
Proof.
  intros Hop. assert (Hall : Forall (fun op => isascii op = true /\ ascii_lower op = op /\ COLON ∉ op) filter_ops).
  { apply (bool_decide_unpack _). by vm_compute. }
  rewrite Forall_forall in Hall. destruct (Hall op Hop) as (Ha & Hl & Hc). by rewrite lower_ascii.
Qed.
Lemma set_operator_free op v a a' : set_operator op v a = Ok a' -> a_free a' = a_free a.
Proof.
  destruct a as [fr an fo ai fi from to su la at_ af be ha lg]. unfold set_operator.
  repeat (match goal with |- context [str_eqb op ?l] => destruct (str_eqb op l) end;
          [try (by intros [= <-]);
           try (destruct (parse_id v)); try (destruct (parse_date v)); try (destruct (parse_has v ha));
           try done; by intros [= <-] |]).
  by intros [= <-].
Qed.
Lemma op_neutral op v raw a a' : op ∈ filter_ops -> v <> [] ->
  read_token a (op ++ COLON :: v, raw) = Ok a' -> a_free a' = a_free a.
Proof.
  intros Hop Hv. destruct (filter_op_lower op Hop) as [Hl Hc]. unfold read_token.
  destruct (reject_unstorable _); [| done]. rewrite partition_at_app by done. rewrite Hl.
  destruct (str_eqb op (lit "lang")) eqn:El.
  - destruct (lower (strip v)); [done |]. by intros [= <-].
  - destruct v as [| c v]; [done |]. rewrite andb_false_r.
    assert (Hin : op ∈ OPERATORS).
    { apply elem_of_cons in Hop as [-> | Hop]; [by vm_compute in El | done]. }
    rewrite bool_decide_eq_true_2 by done. apply set_operator_free.
Qed.

Lemma ops_plain op : op ∈ filter_ops -> Forall plain (op ++ [COLON]).
Proof.
  intros Hop. assert (Hall : forallb (forallb (fun c => negb (c =? QUOTE) && negb (is_space_char c)))
    (map (fun op => op ++ [COLON]) filter_ops) = true) by by vm_compute.
  rewrite forallb_forall in Hall. apply list_elem_of_In in Hop.
  specialize (Hall _ (in_map (fun op => op ++ [COLON]) _ _ Hop)). rewrite forallb_forall in Hall.
  apply Forall_forall. intros c Hc%list_elem_of_In. specialize (Hall c Hc).
  apply andb_true_iff in Hall as [H1%negb_true_iff H2%negb_true_iff]. split; [by apply Z.eqb_neq | done].
Qed.
Lemma plain_op_stands op v : op ∈ filter_ops -> Forall plain v -> v <> [] ->
  stands_alone (op ++ COLON :: v) (op ++ COLON :: v, op ++ COLON :: v).
Proof.
  intros Hop Hp Hv. destruct (plain_token (op ++ COLON :: v)) as [H1 H2].
  - change (op ++ COLON :: v) with (op ++ [COLON] ++ v). rewrite app_assoc. apply Forall_app.
    split; [by apply ops_plain | done].
  - by destruct op.
  - split; [done | done |]. intros a a'. by apply op_neutral.
Qed.

(** ** Every token of a filter dict stands alone *)
Definition fine (t : pystr) : Prop := exists pr, stands_alone t pr.

Lemma digits_plain v : Forall (fun c => is_digit_char c = true) v -> Forall plain v.
Proof.
  intros Hv. eapply Forall_impl; [exact Hv |]. intros c Hc. split; [| by apply digit_not_space].
  unfold is_digit_char, QUOTE in *. zb.
Qed.
Lemma id_token_fine op raw t : op ∈ filter_ops -> id_token op raw = Ok t -> fine t.
Proof.
  intros Hop. unfold id_token. pose proof (Ids.parse_int_id_boundary raw) as Hb.
  destruct (Ids.parse_int_id raw) as [n |]; [| done]. intros [= <-]. destruct Hb as (Hd & _ & ->).
  assert (Hn : 0 <= dec_value raw).
  { destruct raw as [| c0 raw]; [done |]. unfold isascii_isdigit in Hd. revert Hd. generalize (c0 :: raw).
    intros l. unfold dec_value. enough (G : forall acc, 0 <= acc -> forallb is_digit_char l = true ->
      0 <= fold_left (fun a c => a * 10 + (c - 48)) l acc) by (apply G; lia).
    induction l as [| c l IH]; intros acc Ha Hl; [done |]. cbn in *. apply andb_true_iff in Hl as [Hc Hl].
    apply IH; [| done]. unfold is_digit_char in Hc. zb. }
  destruct (str_int_spec _ Hn) as (Hsd & _). eexists. apply plain_op_stands; [done | |].
  - apply digits_plain, Forall_forall. intros c Hc. pose proof (str_int_digit _ _ Hn Hc). unfold is_digit_char. zb.
  - by intros E; rewrite E in Hsd.
Qed.
Lemma quoted_token_fine op v t : op ∈ filter_ops -> quoted_token op v = Ok t -> fine t.
Proof.
  intros Hop. unfold quoted_token, quote_value. destruct (quoted_filter_value v) as [q |] eqn:Eq; [| done].
  intros [= <-]. exists (op ++ COLON :: clean_value v, op ++ COLON :: q).
  pose proof (ops_plain op Hop) as Hp.
  assert (Hx : forall x : pystr, op ++ COLON :: x = (op ++ [COLON]) ++ x) by (intros; by rewrite <- app_assoc).
  rewrite (Hx q), (Hx (clean_value v)). split.
  - intros rest. rewrite <- app_assoc. by apply quoted_one_token.
  - by apply quoted_token_last.
  - intros a a'. rewrite <- Hx. apply op_neutral; [done |]. unfold quoted_filter_value in Eq. by destruct (clean_value v).
Qed.
Lemma date_shape_plain s : date_shape s = true -> Forall plain s /\ s <> [].
Proof.
  destruct s as [| a [| b [| c [| e [| x r]]]]]; try done. cbn [date_shape].
  destruct (decide (x = 45)) as [-> | Hx]; [| by repeat (destruct x as [| x | x]; try done)].
  intros [Hd Hr]%andb_true_iff. split; [| done]. cbn in Hd.
  pose proof (partition_at_spec 45 r) as Hsp. destruct (partition_at 45 r) as [m [dd |]]; [| done].
  apply andb_true_iff in Hr as [Hm Hdd]. destruct Hsp as [-> _].
  assert (Hone : forall s, one_or_two_digits s = true -> Forall plain s).
  { intros s Hs. apply digits_plain. destruct s as [| c1 [| c2 [| ]]]; cbn in Hs; try done.
    - by repeat constructor.
    - apply andb_true_iff in Hs as [? ?]. by repeat constructor. }
  assert (Hdash : plain 45) by (by split).
  apply andb_true_iff in Hd as [Ha Hd]. apply andb_true_iff in Hd as [Hb Hd].
  apply andb_true_iff in Hd as [Hc Hd]. apply andb_true_iff in Hd as [He _].
  change (a :: b :: c :: e :: 45 :: m ++ 45 :: dd) with ([a; b; c; e] ++ 45 :: m ++ 45 :: dd).
  apply Forall_app. split; [apply digits_plain; by repeat constructor |].
  constructor; [done |]. apply Forall_app. split; [by apply Hone | constructor; [done | by apply Hone]].
Qed.
Lemma date_token_fine op v t : op ∈ filter_ops -> date_token op v = Ok t -> fine t.
Proof.
  intros Hop. unfold date_token, validate_date. destruct (date_shape v) eqn:Ed; [| done].
  destruct (date_shape_plain v Ed). destruct (strptime_ymd v); [| done]. intros [= <-].
  eexists. by apply plain_op_stands.
Qed.
Lemma lang_token_fine v t : lang_token v = Ok t -> fine t.
Proof.
  unfold lang_token. set (s := lower (strip v)). clearbody s. destruct (decide (s = [])) as [-> | Es]; [done |].
  replace (match s with [] => _ | _ :: _ => _ end)
    with (if existsb (fun ch => is_space_char ch || (ch =? 34) || (ch =? 39)) s
          then Err ValidationFailed else Ok (lit "lang:" ++ s)) by by destruct s.
  destruct (existsb _ s) eqn:Ex; [done |]. intros [= <-].
  eexists. apply (plain_op_stands (lit "lang") s); [by left | | done].
  apply Forall_forall. intros ch Hch%list_elem_of_In.
  assert (Hf : is_space_char ch || (ch =? 34) || (ch =? 39) = false).
  { apply not_true_is_false. intros Ht. apply not_true_iff_false in Ex. apply Ex, existsb_exists. eauto. }
  apply orb_false_iff in Hf as [[Hsp Hq]%orb_false_iff _]. split; [by apply Z.eqb_neq | done].
Qed.
Lemma has_clause_fine v : Forall fine (has_clause v).
Proof.
  assert (Hone : forall w, w ∈ [lit "attachment"; lit "no-attachment"] -> fine (lit "has:" ++ w)).
  { intros w Hw. eexists. apply (plain_op_stands (lit "has") w); [apply (bool_decide_unpack _); by vm_compute | |];
      rewrite !elem_of_cons in Hw; destruct Hw as [-> | [-> | []%elem_of_nil]]; try done;
      repeat (constructor; [by split |]); constructor. }
  destruct v as [[] |]; cbn [has_clause]; repeat constructor.
  - apply (Hone (lit "attachment")). by left.
  - apply (Hone (lit "no-attachment")). by right; left.
Qed.

Lemma map_res_fine {A} (f : A -> res exn pystr) l ts :
  (forall x t, f x = Ok t -> fine t) -> map_res f l = Ok ts -> Forall fine ts.
Proof.
  intros Hf. revert ts. induction l as [| x l IH]; intros ts; cbn [map_res]; [intros [= <-]; constructor |].
  destruct (f x) eqn:Ef; [| done]. destruct (map_res f l); [| done]. intros [= <-].
  constructor; [by eapply Hf | by apply IH].
Qed.
Lemma str_clause_fine v f ts : (forall x t, f x = Ok t -> fine t) -> str_clause v f = Ok ts -> Forall fine ts.
Proof.
  intros Hf. destruct v as [[| c v] |]; cbn [str_clause]; try (intros [= <-]; constructor).
  destruct (f (c :: v)) eqn:Ef; [| done]. intros [= <-]. repeat constructor. by eapply Hf.
Qed.
Lemma ids_clause_fine v op ts : op ∈ filter_ops -> ids_clause v op = Ok ts -> Forall fine ts.
Proof.
  intros Hop. destruct v as [l |]; cbn [ids_clause]; [| intros [= <-]; constructor].
  apply map_res_fine. intros x t. by apply id_token_fine.
Qed.
Lemma lang_clause_fine v ts : lang_clause v = Ok ts -> Forall fine ts.
Proof.
  destruct v as [[s | [| s l]] |]; cbn [lang_clause]; try done; try (intros [= <-]; constructor);
    apply map_res_fine, lang_token_fine.
Qed.
Lemma filter_tokens_fine f ts : filter_tokens f = Ok ts -> Forall fine ts.
Proof.
  assert (Hin : forall op, bool_decide (op ∈ filter_ops) = true -> op ∈ filter_ops)
    by (intros op; apply bool_decide_eq_true).
  unfold filter_tokens. intros Ht. inv_ok Ht. injection Ht as <-.
  repeat (apply Forall_app; split); try apply has_clause_fine; try (by eapply lang_clause_fine);
    try (eapply ids_clause_fine; [| eassumption]; apply Hin; by vm_compute);
    (eapply str_clause_fine; [| eassumption]; intros x t;
      (apply quoted_token_fine || apply date_token_fine); apply Hin; by vm_compute).
Qed.

(** ** Reading the composition *)
Lemma tokenize_parts ts free : Forall fine ts ->
  exists prs, Forall2 stands_alone ts prs /\
    tokenize (join (lit " ") (ts ++ match free with [] => [] | _ => [free] end)) = prs ++ tokenize free.
Proof.
  induction 1 as [| t ts (pr & Hpr) Hts (prs & HF & IH)].
  - exists []. split; [constructor |]. by destruct free.
  - exists (pr :: prs). split; [by constructor |]. cbn [app].
    destruct (ts ++ match free with [] => [] | _ => [free] end) as [| w ws] eqn:Ew.
    + apply app_nil in Ew as [-> Ew]. inversion HF. subst. cbn [join app].
      destruct free; [| done]. apply Hpr.
    + change (join (lit " ") (t :: w :: ws)) with (t ++ 32 :: join (lit " ") (w :: ws)).
      rewrite (sa_followed _ _ Hpr). by rewrite IH.
Qed.

(** A run with more filters already read is matched by one without. *)
Definition shadows (a b : acc) : Prop := a_free a = a_free b /\ (a_has b = None \/ a_has b = a_has a).
Lemma parse_has_shadow v cur cur' w : cur' = None \/ cur' = cur ->
  parse_has v cur = Ok w -> parse_has v cur' = Ok w.
Proof.
  intros [-> | ->]; [| done]. unfold parse_has. destruct (if str_eqb _ _ then _ else _); [| done].
  by destruct (match cur with Some c => negb (Bool.eqb c b) | None => false end).
Qed.
Ltac shadow_case v :=
  lazymatch goal with
  | |- context [parse_has] => idtac
  | |- context [parse_id v] => destruct (parse_id v); [shadow_case v | done]
  | |- context [parse_date v] => destruct (parse_date v); [shadow_case v | done]
  | |- _ => intros [= <-]; eexists; split; [done | by split]
  end.
Lemma set_operator_shadow op v a b a' : shadows a b -> set_operator op v a = Ok a' ->
  exists b', set_operator op v b = Ok b' /\ shadows a' b'.
Proof.
  destruct a as [fr an fo ai fi from to su la at_ af be ha lg],
    b as [fr2 an2 fo2 ai2 fi2 from2 to2 su2 la2 at2 af2 be2 ha2 lg2].
  unfold shadows. cbn [a_free a_has]. intros [<- Hh]. unfold set_operator.
  repeat (match goal with |- context [str_eqb op ?l] => destruct (str_eqb op l) end; [shadow_case v |]).
  - destruct (parse_has v ha) as [w |] eqn:Ew; [| done]. intros [= <-].
    rewrite (parse_has_shadow v ha ha2 w Hh Ew). eexists. split; [done |]. split; [done | by right].
  - shadow_case v.
Qed.
Lemma read_token_shadow a b t a' : shadows a b -> read_token a t = Ok a' ->
  exists b', read_token b t = Ok b' /\ shadows a' b'.
Proof.
  intros HR. destruct t as [tok raw]. unfold read_token. destruct (reject_unstorable tok); [| done].
  assert (Hadd : Ok (E := query_error) (add_free raw a) = Ok a' ->
    exists b', Ok (E := query_error) (add_free raw b) = Ok b' /\ shadows a' b').
  { intros [= <-]. eexists. split; [done |]. destruct HR as [Hf Hh]. unfold add_free.
    destruct (strip_p _ raw); [done |]. split; cbn; [by rewrite Hf | done]. }
  destruct (partition_at COLON tok) as [op [v |]]; [| exact Hadd].
  destruct (str_eqb (lower op) (lit "lang")).
  { destruct (lower (strip v)); [done |]. intros [= <-]. eexists. split; [done |].
    destruct HR as [Hf Hh]. by split. }
  destruct (bool_decide _ && str_eqb v []); [done |].
  destruct (bool_decide _ && negb _); [by apply set_operator_shadow | exact Hadd].
Qed.
Lemma fold_shadow l a b a' : shadows a b -> foldM read_token a l = Ok a' ->
  exists b', foldM read_token b l = Ok b' /\ shadows a' b'.
Proof.
  revert a b. induction l as [| t l IH]; intros a b HR; cbn [foldM]; [intros [= <-]; by exists b |].
  destruct (read_token a t) as [a1 |] eqn:Ea; [| done].
  destruct (read_token_shadow a b t a1 HR Ea) as (b1 & -> & HR1). by apply IH.
Qed.
Lemma fold_neutral ts prs a a' : Forall2 stands_alone ts prs -> foldM read_token a prs = Ok a' ->
  a_free a' = a_free a.
Proof.
  intros HF. revert a. induction HF as [| t pr ts prs Hpr _ IH]; intros a; cbn [foldM]; [by intros [= <-] |].
  destruct (read_token a pr) as [a1 |] eqn:Ea; [| done]. intros Hf. rewrite (IH a1 Hf).
  by apply (sa_neutral _ _ Hpr).
Qed.
Lemma foldM_app_ok {E S A} (f : S -> A -> res E S) l1 l2 s s' : foldM f s (l1 ++ l2) = Ok s' ->
  exists s1, foldM f s l1 = Ok s1 /\ foldM f s1 l2 = Ok s'.
Proof.
  revert s. induction l1 as [| x l1 IH]; intros s; cbn; [by exists s |].
  destruct (f s x); [apply IH | done].
Qed.

(** C13: composing filters never touches the free text.  Whenever the filters
    compose and the composed query parses, the raw free text parses by itself,
    and to the same free text: no filter value swallows or adds a word, and no
    quote left open in the free text reaches a filter. *)
Theorem build_query_string_is_free_text_neutral free f q p :
  build_query_string free f = Ok q -> parse_query q = Ok p ->
  exists p0, parse_query free = Ok p0 /\ free_text p = free_text p0.
Proof.
  unfold build_query_string. destruct (fd_unknown f); [| done].
  destruct (filter_tokens f) as [ts |] eqn:Et; [| done]. intros [= <-] Hp.
  destruct (tokenize_parts ts free (filter_tokens_fine f ts Et)) as (prs & HF & Htok).
  unfold parse_query in *. rewrite Htok in Hp. destruct (foldM _ acc0 _) as [a |] eqn:Ef; [| done].
  injection Hp as <-. apply foldM_app_ok in Ef as (a1 & E1 & E2).
  destruct (fold_shadow (tokenize free) a1 acc0 a) as (b & Hb & Hfree & _); [| done |].
  { split; [by apply (fold_neutral _ _ _ _ HF E1) | by left]. }
  rewrite Hb. eexists. split; [done |]. unfold finish. cbn [free_text]. by rewrite Hfree.
Qed.
End compose.

#[local] Existing Instance Query.ascii_unicode.
(** An open quote and a smuggled operator in the free text. *)
Definition sample_filters : filter_dict :=
  FilterDict (Some [lit "3"]) None (Some (lit "Bob " ++ QUOTE :: lit "B" ++ QUOTE :: lit " to:eve")) None None None (Some (lit "2020-01-02")) None
    None None (Some (LangMany [lit " EN "])) (Some true) [].
Definition sample_free : pystr := lit "O'Brien account_id:9 " ++ QUOTE :: lit "unclosed has:".
Lemma build_query_string_is_free_text_neutral_witness :
  exists q p, build_query_string sample_free sample_filters = Ok q /\ parse_query q = Ok p /\
    (account_ids (filters p), from_substr (filters p)) = (Some [3; 9], Some (lit "Bob B to:eve")) /\
    exists p0, parse_query sample_free = Ok p0 /\ free_text p = free_text p0.
Proof.
  destruct (build_query_string sample_free sample_filters) as [q |] eqn:Eq; [| by vm_compute in Eq].
  destruct (parse_query q) as [p |] eqn:Ep; [| revert Ep; injection Eq as <-; by vm_compute].
  exists q, p. split; [done |]. split; [done |]. split.
  - revert Ep. injection Eq as <-. vm_compute. by intros [= <-].
  - by apply (build_query_string_is_free_text_neutral sample_free sample_filters q p).
Defined.
