(* ===== verification/TextWindow.v ===== *)
(** * Paging a stored text by characters ([text_window.py])

    A window, the page it cuts, and the page's own consistency checks.  Walking
    [next_offset] from the start reads the whole text. *)
From S2P Require Import Prelude PyStr Errors.

Module Text_window.
Definition MAX_TEXT_CHARS : Z := 2 ^ 30.

(** [text_window_error]: whether there is a problem; its wording is dropped. *)
Definition text_window_error (offset : Z) (limit : option Z) : bool :=
  (offset <? 0) || match limit with Some n => n <? 1 | None => false end.

Record TextPage := MkPage {
  tp_text : pystr; tp_offset : Z; tp_limit : option Z; tp_total : Z; tp_next_offset : option Z }.
Definition text_len (s : pystr) : Z := Z.of_nat (length s).
(** [TextPage(...)], with [__post_init__]'s three refusals. *)
Definition new_page (text : pystr) (offset : Z) (limit : option Z) (total : Z) (next_offset : option Z) : res exn TextPage :=
  guard! negb (match limit with Some n => n <? text_len text | None => false end) else ValueError in
  let end_ := offset + text_len text in
  let expected := if end_ <? total then Some end_ else None in
  guard! bool_decide (next_offset = expected) else ValueError in
  guard! negb (match next_offset with Some n => n <=? offset | None => false end) else ValueError in
  Ok (MkPage text offset limit total next_offset).

Record TextWindow := MkWindow { tw_offset : Z; tw_limit : option Z }.
Definition new_window (offset : Z) (limit : option Z) : res exn TextWindow :=
  guard! negb (text_window_error offset limit) else ValueError in Ok (MkWindow offset limit).
Definition sql_from (w : TextWindow) : Z := Z.min (tw_offset w) MAX_TEXT_CHARS + 1.
Definition sql_for (w : TextWindow) : option Z := (fun n => Z.min n MAX_TEXT_CHARS) <$> tw_limit w.
Definition page (w : TextWindow) (text : pystr) (total : Z) : res exn TextPage :=
  let end_ := tw_offset w + text_len text in
  new_page text (tw_offset w) (tw_limit w) total (if end_ <? total then Some end_ else None).

(** [api.attachments.text_window_from_query] *)
Definition text_window_from_query (offset limit : option pystr) : res exn TextWindow :=
  let* off := match offset with None => Ok 0 | Some v => Ids.parse_int_id v end in
  let* lim := match limit with None => Ok None | Some v => Some <$> Ids.parse_int_id v end in
  guard! negb (text_window_error off lim) else ValidationFailed in
  new_window off lim.

(** Postgres' [substring(t from f)] and [substring(t from f for n)], for [1 <= f]. *)
Definition substring (t : pystr) (f : Z) (n : option Z) : pystr :=
  let s := drop (Z.to_nat (f - 1)) t in
  match n with Some n => take (Z.to_nat n) s | None => s end.
(** The two statements of [get_attachment_text_page] on a stored text. *)
Definition window_of (w : TextWindow) (t : pystr) : res exn TextPage :=
  page w (substring t (sql_from w) (sql_for w)) (text_len t).

(** A client that reads pages of [limit] characters and follows [next_offset]. *)
Fixpoint read_pages (fuel : nat) (t : pystr) (limit offset : Z) : option (list TextPage) :=
  match fuel with
  | O => None
  | S fuel =>
      match (let* w := new_window offset (Some limit) in window_of w t) with
      | Ok p =>
          match tp_next_offset p with
          | None => Some [p]
          | Some next => cons p <$> read_pages fuel t limit next
          end
      | Err _ => None
      end
  end.

(** Every valid window of a text Postgres can hold is answered with exactly its
    characters: the clamps change nothing and none of the page's checks fires. *)
Lemma window_of_exact t offset limit :
  text_len t <= MAX_TEXT_CHARS -> text_window_error offset limit = false ->
  let text := match limit with Some n => take (Z.to_nat n) | None => id end (drop (Z.to_nat offset) t) in
  window_of (MkWindow offset limit) t =
    Ok (MkPage text offset limit (text_len t)
          (if offset + text_len text <? text_len t then Some (offset + text_len text) else None)).
Proof.
  intros Ht [Ho Hl]%orb_false_iff. apply Z.ltb_ge in Ho. cbn zeta.
  set (text := match limit with Some n => take (Z.to_nat n) | None => id end _).
  assert (Hs : substring t (sql_from (MkWindow offset limit)) (sql_for (MkWindow offset limit)) = text).
  { unfold substring, sql_from, sql_for, text, text_len, MAX_TEXT_CHARS in *. cbn [tw_offset tw_limit].
    assert (Hd : drop (Z.to_nat (Z.min offset (2 ^ 30) + 1 - 1)) t = drop (Z.to_nat offset) t).
    { destruct (Z.leb_spec offset (2 ^ 30)); [f_equal; lia |]. rewrite !drop_ge by lia. done. }
    rewrite Hd. destruct limit as [n |]; [| done]. apply Z.ltb_ge in Hl. cbn [fmap option_fmap option_map].
    destruct (Z.leb_spec n (2 ^ 30)); [f_equal; lia |]. rewrite !take_ge by (rewrite length_drop; lia). done. }
  unfold window_of. rewrite Hs. unfold page, new_page. cbn [tw_offset tw_limit].
  assert (match limit with Some n => n <? text_len text | None => false end = false) as ->.
  { destruct limit as [n |]; [| done]. unfold text, text_len. rewrite length_take. apply Z.ltb_ge in Hl. apply Z.ltb_ge. lia. }
  cbn [negb]. rewrite bool_decide_eq_true_2 by done.
  destruct (Z.ltb_spec (offset + text_len text) (text_len t)) as [Hlt |]; [| done].
  rewrite (proj2 (Z.leb_gt _ _)); [done |].
  assert (0 < text_len text); [| lia]. unfold text, text_len in *.
  destruct limit as [n |]; [apply Z.ltb_ge in Hl; rewrite length_take | cbn]; rewrite length_drop; unfold text_len in *; lia.
Qed.

(** Reading a stored text page by page, following [next_offset] from the
    start, ends and reassembles the text: every page but one of an empty text
    advances, and there are as many pages as the limit needs. *)
Lemma text_pages_reassemble t limit :
  text_len t <= MAX_TEXT_CHARS -> 1 <= limit ->
  exists pages, read_pages (S (length t)) t limit 0 = Some pages /\
    concat (tp_text <$> pages) = t /\
    Z.of_nat (length pages) = Z.max 1 ((text_len t + limit - 1) / limit) /\
    (t <> [] -> Forall (fun p => tp_text p <> []) pages).
Proof.
  intros Ht Hl.
  enough (G : forall fuel off, (length t - off < fuel)%nat -> (off <= length t)%nat ->
    exists pages, read_pages fuel t limit (Z.of_nat off) = Some pages /\
      concat (tp_text <$> pages) = drop off t /\
      Z.of_nat (length pages) = Z.max 1 ((text_len t - Z.of_nat off + limit - 1) / limit) /\
      (drop off t <> [] -> Forall (fun p => tp_text p <> []) pages)).
  { destruct (G (S (length t)) 0%nat) as (pages & H1 & H2 & H3 & H4); [lia | lia |].
    exists pages. rewrite Z.sub_0_r in H3. done. }
  induction fuel as [| fuel IH]; intros off Hf Ho; [lia |]. cbn [read_pages].
  assert (He : text_window_error (Z.of_nat off) (Some limit) = false).
  { unfold text_window_error. rewrite orb_false_iff, !Z.ltb_ge. lia. }
  unfold new_window. rewrite He. cbn [negb]. rewrite (window_of_exact t _ _ Ht He).
  cbn [tp_next_offset]. rewrite Nat2Z.id.
  set (text := take (Z.to_nat limit) (drop off t)).
  assert (Hlen : length text = Nat.min (Z.to_nat limit) (length t - off)).
  { unfold text. by rewrite length_take, length_drop. }
  destruct (Z.ltb_spec (Z.of_nat off + text_len text) (text_len t)) as [Hlt | Hge].
  - assert (Hn : length text = Z.to_nat limit) by (unfold text_len in *; lia).
    destruct (IH (off + length text)%nat) as (pages & Hr & Hc & Hp & Hne); [lia.. |].
    replace (Z.of_nat off + text_len text) with (Z.of_nat (off + length text)) by (unfold text_len; lia).
    rewrite Hr. eexists. split; [done |]. cbn [fmap list_fmap tp_text concat length].
    assert (Hd : drop (off + length text) t <> []).
    { intros Hd%(f_equal length). rewrite length_drop in Hd. cbn in Hd. unfold text_len in *. lia. }
    split_and!.
    + rewrite Hc, <- drop_drop, Hn. apply take_drop.
    + rewrite Nat2Z.inj_succ, Hp.
      replace (text_len t - Z.of_nat off + limit - 1)
        with (text_len t - Z.of_nat (off + length text) + limit - 1 + 1 * limit) by lia.
      rewrite Z.div_add by lia.
      assert (1 <= (text_len t - Z.of_nat (off + length text) + limit - 1) / limit); [| lia].
      apply Z.div_le_lower_bound; [lia |]. unfold text_len in *. lia.
    + intros _. constructor; [| by apply Hne]. cbn. intros Hnil. rewrite Hnil in Hn. cbn in Hn. lia.
  - assert (Ha : text = drop off t).
    { unfold text. apply take_ge. rewrite length_drop. unfold text_len in *. lia. }
    eexists. split; [done |]. cbn [fmap list_fmap tp_text concat length]. split_and!.
    + by rewrite app_nil_r.
    + assert ((text_len t - Z.of_nat off + limit - 1) / limit < 2); [| lia].
      apply Z.div_lt_upper_bound; [lia |]. unfold text_len in *. lia.
    + intros Hd. constructor; [| constructor]. cbn. by rewrite Ha.
Qed.
End Text_window.
