(* ===== verification/Json.v ===== *)
(** * JSON values ([messages.attachments])

    A decoded JSONB value as Python sees it, what Python's [.get], truth test and
    iteration do with one that is not the list of objects the code expects, and
    the JSONB operators of the attachment queries. *)
From S2P Require Import Prelude PyStr Base64 Errors Score Odict.

Inductive json :=
  | JNull
  | JBool (b : bool)
  | JInt (n : Z)
  | JFloat (x : float)
  | JStr (s : pystr)
  | JArr (l : list json)
  | JObj (o : list (pystr * json)).

Module Json.
(** [bool(j)] *)
Definition truthy (j : json) : bool :=
  match j with
  | JNull => false
  | JBool b => b
  | JInt n => negb (n =? 0)
  | JFloat x => match x with S754_zero _ => false | _ => true end
  | JStr s => match s with [] => false | _ => true end
  | JArr l => match l with [] => false | _ => true end
  | JObj o => match o with [] => false | _ => true end
  end.
Definition as_str (j : json) : option pystr := match j with JStr s => Some s | _ => None end.
(** [j.get(k)], [None] and a missing key alike. *)
Definition get (k : pystr) (j : json) : res exn json :=
  match j with JObj o => Ok (default JNull (od_get k o)) | _ => Err AttributeError end.
(** [for x in j] *)
Definition iter (j : json) : res exn (list json) :=
  match j with
  | JArr l => Ok l
  | JObj o => Ok (JStr <$> o.*1)
  | JStr s => Ok ((fun c => JStr [c]) <$> s)
  | JNull | JBool _ | JInt _ | JFloat _ => Err TypeError
  end.
(** [for x in j or []] *)
Definition or_empty (j : json) : res exn (list json) := if truthy j then iter j else Ok [].
(** A value in a set display must be hashable. *)
Definition hashable (j : json) : bool := match j with JArr _ | JObj _ => false | _ => true end.

(** ** Postgres *)

(** [j @> [{key: s}]]: an array that holds an object with this member. *)
Definition contains_member (key s : pystr) (j : json) : bool :=
  match j with
  | JArr l => existsb (fun e =>
      match e with
      | JObj o => match od_get key o with Some (JStr s') => bool_decide (s' = s) | _ => false end
      | _ => false
      end) l
  | _ => false
  end.
End Json.

(** ** [bytes.fromhex] and [bytes.hex] *)
Module Hex.
Definition ascii_space (c : Z) : bool := ((9 <=? c) && (c <=? 13)) || (c =? 32).
Definition nibble (c : Z) : option Z :=
  if is_digit_char c then Some (c - 48)
  else if (97 <=? c) && (c <=? 102) then Some (c - 87)
  else if (65 <=? c) && (c <=? 70) then Some (c - 55) else None.
(** ASCII space is skipped before a pair, not inside one. *)
Fixpoint fromhex (s : pystr) : option bytes :=
  match s with
  | [] => Some []
  | c :: r =>
      if ascii_space c then fromhex r
      else match nibble c, r with
           | Some h, d :: r' =>
               match nibble d, fromhex r' with Some l, Some bs => Some (h * 16 + l :: bs) | _, _ => None end
           | _, _ => None
           end
  end.
Definition digit (n : Z) : Z := if n <? 10 then 48 + n else 87 + n.
Definition hex (bs : bytes) : pystr := flat_map (fun b => [digit (b / 16); digit (b mod 16)]) bs.

Lemma nibble_digit n : 0 <= n < 16 -> nibble (digit n) = Some n.
Proof.
  intros Hn. unfold nibble, digit, is_digit_char.
  repeat case_match; zb_simpl; try (f_equal; lia); exfalso; lia.
Qed.
Lemma hex_not_space n : 0 <= n < 16 -> ascii_space (digit n) = false.
Proof. intros Hn. unfold ascii_space, digit. rewrite orb_false_iff, andb_false_iff, !Z.leb_gt, Z.eqb_neq. case_match; zb. Qed.
Lemma fromhex_hex bs : Forall (fun b => 0 <= b < 256) bs -> fromhex (hex bs) = Some bs.
Proof.
  induction 1 as [| b bs Hb _ IH]; [done |]. cbn [hex flat_map app fromhex].
  assert (0 <= b / 16 < 16 /\ 0 <= b mod 16 < 16) as [Hh Hl] by (Z.div_mod_to_equations; lia).
  rewrite hex_not_space, !nibble_digit by done. change (flat_map _ bs) with (hex bs). rewrite IH.
  do 2 f_equal. Z.div_mod_to_equations; lia.
Qed.
Lemma hex_length bs : length (hex bs) = (2 * length bs)%nat.
Proof. induction bs as [| b bs IH]; [done |]. cbn [hex flat_map app length]. change (flat_map _ bs) with (hex bs). lia. Qed.
Lemma nibble_bound c n : nibble c = Some n -> 0 <= n < 16.
Proof.
  unfold nibble, is_digit_char. intros Hn. repeat case_match; simplify_eq; zb_simpl; lia.
Qed.
Lemma fromhex_bytes s bs : fromhex s = Some bs -> Forall (fun b => 0 <= b < 256) bs.
Proof.
  assert (G : forall m s bs, (length s <= m)%nat -> fromhex s = Some bs -> Forall (fun b => 0 <= b < 256) bs);
    [| by eapply G].
  clear. induction m as [| m IH]; intros [| c r] bs Hl; cbn [fromhex length] in *.
  - intros [= <-]. constructor.
  - lia.
  - intros [= <-]. constructor.
  - destruct (ascii_space c); [apply IH; lia |].
    destruct (nibble c) as [h |] eqn:Eh; [| done]. destruct r as [| d r]; [done |].
    destruct (nibble d) as [l |] eqn:El; [| done]. destruct (fromhex r) as [bs' |] eqn:Er; [| done].
    intros [= <-]. apply nibble_bound in Eh, El. constructor; [lia |].
    eapply IH; [| exact Er]. cbn in Hl. lia.
Qed.
End Hex.
