(* ===== verification/Sanitize.v ===== *)
(** * The HTML sanitizer ([api/sanitize.py])

    The allow-lists and the attribute filter handed to [nh3], which parses the
    HTML and is the parameter [nh3_clean]; [nh3_contract] is what its
    documentation promises of the attributes it lets through.  The two regular
    expressions are spelled out, [re.IGNORECASE] on text and [$] before a final
    newline included.  What an address means is judged by [url_scheme], a reading
    of the URL standard that shares nothing with the filter. *)
From S2P Require Import Prelude PyStr Errors Query Odict.

Module Sanitize.
Definition ALLOWED_TAGS : list pystr :=
  [
    lit "a"; lit "abbr"; lit "b"; lit "blockquote"; lit "br"; lit "cite"; lit "code"; lit "div"; lit "em";
    lit "h1"; lit "h2"; lit "h3"; lit "h4"; lit "h5"; lit "h6"; lit "hr"; lit "i"; lit "img"; lit "li";
    lit "ol"; lit "p"; lit "pre"; lit "q"; lit "small"; lit "span"; lit "strong"; lit "sub"; lit "sup";
    lit "table"; lit "tbody"; lit "td"; lit "th"; lit "thead"; lit "tr"; lit "u"; lit "ul" ].
Definition ALLOWED_ATTRS : list (pystr * list pystr) :=
  [ (lit "*", [lit "class"; lit "style"; lit "title"]); (lit "a", [lit "href"]);
    (lit "img", [lit "src"; lit "alt"; lit "width"; lit "height"]);
    (lit "td", [lit "colspan"; lit "rowspan"; lit "align"]);
    (lit "th", [lit "colspan"; lit "rowspan"; lit "align"]) ].
Definition ALLOWED_URL_SCHEMES : list pystr :=
  [
    lit "mailto"; lit "http"; lit "https"; lit "data"; lit "cid" ].
Definition CLEAN_CONTENT_TAGS : list pystr :=
  [
    lit "script"; lit "style"; lit "noscript"; lit "iframe"; lit "object"; lit "embed"; lit "applet";
    lit "form" ].
Definition ALLOWED_STYLE_PROPERTIES : list pystr :=
  [
    lit "azimuth"; lit "background-color"; lit "border"; lit "border-bottom"; lit "border-bottom-color";
    lit "border-bottom-style"; lit "border-bottom-width"; lit "border-collapse"; lit "border-color";
    lit "border-left"; lit "border-left-color"; lit "border-left-style"; lit "border-left-width";
    lit "border-right"; lit "border-right-color"; lit "border-right-style"; lit "border-right-width";
    lit "border-spacing"; lit "border-style"; lit "border-top"; lit "border-top-color";
    lit "border-top-style"; lit "border-top-width"; lit "border-width"; lit "clear"; lit "color";
    lit "direction"; lit "display"; lit "elevation"; lit "float"; lit "font"; lit "font-family";
    lit "font-size"; lit "font-style"; lit "font-variant"; lit "font-weight"; lit "height";
    lit "letter-spacing"; lit "line-height"; lit "margin"; lit "margin-bottom"; lit "margin-left";
    lit "margin-right"; lit "margin-top"; lit "max-height"; lit "max-width"; lit "min-height";
    lit "min-width"; lit "overflow"; lit "padding"; lit "padding-bottom"; lit "padding-left";
    lit "padding-right"; lit "padding-top"; lit "pause"; lit "pause-after"; lit "pause-before"; lit "pitch";
    lit "pitch-range"; lit "richness"; lit "speak"; lit "speak-header"; lit "speak-numeral";
    lit "speak-punctuation"; lit "speech-rate"; lit "stress"; lit "table-layout"; lit "text-align";
    lit "text-decoration"; lit "text-indent"; lit "unicode-bidi"; lit "vertical-align"; lit "voice-family";
    lit "volume"; lit "white-space"; lit "width" ].
Definition HREF_DENY_SCHEMES : list pystr := [lit "cid:"; lit "data:"].

(** ** The regular expressions *)

(** [_LEADING_URL_TRIM_RE.sub("", value)] *)
Definition leading_url_trim : pystr -> pystr := drop_while (fun c => (0 <=? c) && (c <=? 32)).

(** Whether [re.IGNORECASE] lets [c] stand for the ASCII literal [p] (lower
    case): its case variants, the dotted capital and the dotless small i, the
    long s and the Kelvin sign. *)
Definition ci_char (p c : Z) : bool :=
  (lower_char c =? p) || ((p =? 105) && contains c [304; 305]) || ((p =? 115) && (c =? 383)) ||
  ((p =? 107) && (c =? 8490)).
(** The text after the literal [p] at the start of [s]. *)
Fixpoint ci_prefix (p s : pystr) : option pystr :=
  match p, s with
  | [], _ => Some s
  | x :: p, c :: s => if ci_char x c then ci_prefix p s else None
  | _ :: _, [] => None
  end.
(** Where [$] may match: at the end, or before a final newline. *)
Definition chomp (s : pystr) : pystr :=
  match reverse s with c :: r => if c =? 10 then reverse r else s | [] => [] end.

(** [_CID_RE.match(s)], its group. *)
Definition cid_re (s : pystr) : option pystr :=
  match ci_prefix (lit "cid:") s with
  | Some rest => match chomp rest with [] => None | g => if contains 10 g then None else Some g end
  | None => None
  end.
(** [[A-Za-z0-9+/=]] under [re.IGNORECASE] *)
Definition base64_char (c : Z) : bool :=
  is_digit_char c || ((97 <=? lower_char c) && (lower_char c <=? 122)) || contains c (lit "+/=") ||
  contains c [304; 305; 383; 8490].
Definition IMAGE_TYPES : list pystr := [lit "png"; lit "jpeg"; lit "gif"; lit "webp"].
(** [_DATA_IMAGE_RE.match(s)] *)
Definition data_image_re (s : pystr) : bool :=
  existsb (fun t =>
    match ci_prefix (lit "data:image/" ++ t ++ lit ";base64,") s with
    | Some rest => forallb base64_char (chomp rest)
    | None => false
    end) IMAGE_TYPES.

(** ** The filter *)

Definition strip_angles : pystr -> pystr := strip_p (fun c => contains c (lit "<>")).
Definition attachment_url (sha : pystr) : pystr := lit "/v1/attachments/" ++ sha.

Section filter.
Context `{PyUnicode} {V : Type} (str : V -> pystr).
Implicit Types (cid_to_sha : list (pystr * V)).

Definition rewrite_img_src (value : pystr) cid_to_sha (allow_external_images : bool) : option pystr :=
  match cid_re (strip_angles value) with
  | Some group => (fun sha => attachment_url (str sha)) <$> od_get (strip_angles group) cid_to_sha
  | None =>
      if data_image_re value then Some value
      else if allow_external_images then
        let normalised := leading_url_trim value in
        let lowered := lower normalised in
        if existsb (startswith lowered) [lit "https://"; lit "http://"] then Some normalised else None
      else None
  end.

(** [_make_attribute_filter]: [None] drops the attribute. *)
Definition attribute_filter cid_to_sha (allow_external_images : bool) (tag attr value : pystr) : option pystr :=
  if str_eqb tag (lit "img") && str_eqb attr (lit "src")
  then rewrite_img_src value cid_to_sha allow_external_images
  else if str_eqb attr (lit "href") && existsb (startswith (lower (leading_url_trim value))) HREF_DENY_SCHEMES
  then None
  else Some value.

Record clean_options := CleanOptions {
  co_tags : list pystr; co_attributes : list (pystr * list pystr);
  co_attribute_filter : pystr -> pystr -> pystr -> option pystr;
  co_url_schemes : list pystr; co_clean_content_tags : list pystr;
  co_filter_style_properties : list pystr; co_strip_comments : bool }.
Definition sanitize_html (nh3_clean : pystr -> clean_options -> pystr) (html : pystr) cid_to_sha
    (allow_external_images : bool) : pystr :=
  nh3_clean html
    (CleanOptions ALLOWED_TAGS ALLOWED_ATTRS (attribute_filter cid_to_sha allow_external_images)
       ALLOWED_URL_SCHEMES CLEAN_CONTENT_TAGS ALLOWED_STYLE_PROPERTIES true).
End filter.

Example cid_examples :
  cid_re (lit "CID:img1@x") = Some (lit "img1@x") /\ cid_re (lit "cid:") = None /\
  cid_re (lit "cid:a" ++ [10]) = Some (lit "a") /\ cid_re ([99; 304] ++ lit "d:a") = Some (lit "a").
Proof. repeat split. Qed.

(** ** What the filter lets through *)

(** HTML's attributes that hold a URL. *)
Definition URL_ATTRIBUTES : list pystr :=
  [ lit "action"; lit "background"; lit "cite"; lit "data"; lit "formaction"; lit "href"; lit "icon";
    lit "longdesc"; lit "manifest"; lit "ping"; lit "poster"; lit "profile"; lit "src"; lit "srcset"; lit "usemap";
    lit "xlink:href" ].
Definition allowed_on (tag attr : pystr) : bool :=
  bool_decide (tag ∈ ALLOWED_TAGS) &&
  existsb (fun t => match od_get t ALLOWED_ATTRS with Some l => bool_decide (attr ∈ l) | None => false end)
    [lit "*"; tag].
(** A character that ends an attribute value or opens a tag. *)
Definition breaking (c : Z) : bool := contains c [32; 34; 38; 39; 60; 62; 96].
(** A [data:] URI of an image, without a character that could leave its attribute. *)
Definition inline_image (v : pystr) : Prop :=
  Forall (fun c => breaking c = false) v /\ exists rest, ci_prefix (lit "data:image/") v = Some rest.

Lemma url_attributes_allowed tag attr : attr ∈ URL_ATTRIBUTES -> allowed_on tag attr = true ->
  (tag, attr) = (lit "img", lit "src") \/ (tag, attr) = (lit "a", lit "href").
Proof.
  intros Ha [Ht Hok]%andb_true_iff. apply bool_decide_eq_true in Ht.
  assert (G : forallb (fun t => forallb (fun a => negb (allowed_on t a) ||
    bool_decide ((t, a) = (lit "img", lit "src") \/ (t, a) = (lit "a", lit "href"))) URL_ATTRIBUTES) ALLOWED_TAGS = true)
    by by vm_compute.
  rewrite forallb_forall in G. apply list_elem_of_In in Ht, Ha. specialize (G tag Ht).
  rewrite forallb_forall in G. specialize (G attr Ha). apply orb_true_iff in G as [G | G].
  - apply negb_true_iff in G. unfold allowed_on in G. rewrite Hok, andb_true_r in G.
    apply bool_decide_eq_false in G. by apply list_elem_of_In in Ht.
  - by apply bool_decide_eq_true in G.
Qed.

Lemma breaking_ci p c : ci_char p c = true -> breaking c = true -> p = c.
Proof.
  unfold breaking, ci_char, lower_char, contains. cbn [existsb]. intros Hci Hb.
  rewrite !orb_true_iff, !Z.eqb_eq in Hb. rewrite !orb_true_iff, !andb_true_iff, !orb_true_iff, !Z.eqb_eq in Hci.
  destruct (Z.leb_spec 65 c), (Z.leb_spec c 90); cbn [andb] in Hci; lia.
Qed.
Lemma breaking_prefix p s rest : forallb (fun x => negb (breaking x)) p = true -> ci_prefix p s = Some rest ->
  exists q, s = q ++ rest /\ Forall (fun c => breaking c = false) q.
Proof.
  revert s. induction p as [| x p IH]; intros s; cbn [ci_prefix forallb]; [intros _ [= ->]; by exists [] |].
  intros [Hx Hp]%andb_true_iff. destruct s as [| c s]; [done |]. destruct (ci_char x c) eqn:E; [| done].
  intros (q & -> & Hq)%IH; [| done]. exists (c :: q). split; [done |]. constructor; [| done].
  destruct (breaking c) eqn:Eb; [| done]. rewrite (breaking_ci _ _ E Eb), Eb in Hx. done.
Qed.
Lemma breaking_base64 c : base64_char c = true -> breaking c = false.
Proof.
  intros Hc. destruct (breaking c) eqn:Hb; [| done]. revert Hc. unfold breaking, contains in Hb. cbn [existsb] in Hb.
  repeat (apply orb_true_iff in Hb as [Hb | Hb]; [apply Z.eqb_eq in Hb; by subst c |]). done.
Qed.
Lemma chomp_spec s : s = chomp s \/ s = chomp s ++ [10].
Proof.
  unfold chomp. destruct (reverse s) as [| c r] eqn:E.
  - left. apply (f_equal reverse) in E. by rewrite reverse_involutive in E.
  - destruct (Z.eqb_spec c 10) as [-> |]; [right | by left].
    apply (f_equal reverse) in E. by rewrite reverse_involutive, reverse_cons in E.
Qed.
Lemma ci_prefix_app p q s rest : ci_prefix (p ++ q) s = Some rest -> exists r, ci_prefix p s = Some r.
Proof.
  revert s. induction p as [| x p IH]; intros s; cbn; [by exists s |].
  destruct s as [| c s]; [done |]. destruct (ci_char x c); [apply IH | done].
Qed.
Lemma data_image_inline v : data_image_re v = true -> inline_image v.
Proof.
  unfold data_image_re. rewrite existsb_exists. intros (t & Ht & Hv).
  destruct (ci_prefix (lit "data:image/" ++ t ++ lit ";base64,") v) as [rest |] eqn:E; [| done].
  split; [| by apply ci_prefix_app in E].
  assert (Hp : forallb (fun x => negb (breaking x)) (lit "data:image/" ++ t ++ lit ";base64,") = true).
  { by repeat (destruct Ht as [<- | Ht]; [done |]). }
  destruct (breaking_prefix _ _ _ Hp E) as (q & -> & Hq). apply Forall_app. split; [done |].
  assert (Hc : Forall (fun c => breaking c = false) (chomp rest)).
  { rewrite forallb_forall in Hv. apply Forall_forall. intros c Hc.
    apply breaking_base64, Hv. by apply list_elem_of_In. }
  destruct (chomp_spec rest) as [-> | ->]; [done |]. apply Forall_app. split; [done |]. by repeat constructor.
Qed.

(** ** What a URL is

    The scheme a browser reads, by the URL Standard's parser: leading controls
    and spaces are dropped, tabs and newlines are dropped wherever they stand,
    and a letter followed by letters, digits, [+], [-] or [.] up to a colon is the
    scheme, in lower case. *)
Definition URL_REMOVED : pystr := [9; 10; 13].
Definition is_letter (c : Z) : bool := (97 <=? lower_char c) && (lower_char c <=? 122).
Definition scheme_char (c : Z) : bool := is_letter c || is_digit_char c || contains c (lit "+-.").
Fixpoint scheme_of (s : pystr) : option pystr :=
  match s with
  | [] => None
  | c :: s => if c =? 58 then Some [] else if scheme_char c then cons (lower_char c) <$> scheme_of s else None
  end.
Definition url_scheme (v : pystr) : option pystr :=
  match filter (fun c => contains c URL_REMOVED = false) (leading_url_trim v) with
  | c :: s => if is_letter c then scheme_of (c :: s) else None
  | [] => None
  end.
(** Whether a tab or a newline stands before the first colon, leading ones aside. *)
Fixpoint before_colon (s : pystr) : pystr :=
  match s with c :: s => if c =? 58 then [] else c :: before_colon s | [] => [] end.
Definition split_scheme (v : pystr) : bool :=
  existsb (fun c => contains c URL_REMOVED) (before_colon (leading_url_trim v)).

Lemma scheme_char_ascii c : scheme_char c = true -> is_ascii_char c = true.
Proof.
  unfold scheme_char, is_letter, is_digit_char, is_ascii_char, lower_char.
  assert (G : contains c (lit "+-.") = true -> c = 43 \/ c = 45 \/ c = 46).
  { unfold contains. rewrite existsb_exists. intros (x & Hx & ->%Z.eqb_eq).
    repeat (destruct Hx as [<- | Hx]; [by auto |]). done. }
  rewrite andb_true_iff, Z.leb_le, Z.ltb_lt, !orb_true_iff, !andb_true_iff, !Z.leb_le.
  destruct (Z.leb_spec 65 c), (Z.leb_spec c 90); cbn [andb]; naive_solver lia.
Qed.
Lemma scheme_of_spec s w : scheme_of s = Some w ->
  exists p rest, s = p ++ 58 :: rest /\ w = ascii_lower p /\ isascii p = true /\ Forall (fun c => c <> 58) p.
Proof.
  revert w. induction s as [| c s IH]; intros w; cbn [scheme_of]; [done |].
  destruct (Z.eqb_spec c 58) as [-> | Hc]; [intros [= <-]; by exists [], s |].
  destruct (scheme_char c) eqn:E; [| done]. intros (w' & (p & rest & -> & -> & Ha & Hp)%IH & ->)%fmap_Some.
  exists (c :: p), rest. split_and!; [done | done | | by constructor].
  unfold isascii in *. cbn [forallb]. by rewrite (scheme_char_ascii _ E), Ha.
Qed.
Lemma unsplit_scheme t p rest :
  filter (fun c => contains c URL_REMOVED = false) t = p ++ 58 :: rest -> Forall (fun c => c <> 58) p ->
  existsb (fun c => contains c URL_REMOVED) (before_colon t) = false -> exists rest', t = p ++ 58 :: rest'.
Proof.
  revert p. induction t as [| c t IH]; intros p Hf Hp Hb; [by destruct p |]. cbn [before_colon] in Hb.
  destruct (Z.eqb_spec c 58) as [-> | Hc].
  - rewrite filter_cons_True in Hf by done. destruct p as [| x p]; [by exists t |].
    injection Hf as <- _. by apply Forall_cons_1 in Hp as [].
  - cbn [existsb] in Hb. apply orb_false_iff in Hb as [Hc' Hb]. rewrite filter_cons_True in Hf by done.
    destruct p as [| x p]; [by injection Hf |]. injection Hf as <- Hf. apply Forall_cons_1 in Hp as [_ Hp].
    destruct (IH p Hf Hp Hb) as (rest' & ->). by exists rest'.
Qed.

(** ** What the sanitizer relies on

    The contract of [nh3.clean] for an attribute that holds a URL, as the
    comments of the source give it; [attributes_of] is the reader of the cleaned
    HTML.  The tag and the attribute are among those passed in, the value is the
    filter's answer for some raw value, and the scheme of the value, before or
    after the filter (the source says the one and the other), is among those
    passed in. *)
Definition nh3_contract (nh3_clean : pystr -> clean_options -> pystr)
    (attributes_of : pystr -> list (pystr * pystr * pystr)) : Prop :=
  forall html o tag attr v, (tag, attr, v) ∈ attributes_of (nh3_clean html o) -> attr ∈ URL_ATTRIBUTES ->
  tag ∈ co_tags o /\
  Exists (fun t => exists l, od_get t (co_attributes o) = Some l /\ attr ∈ l) [lit "*"; tag] /\
  exists raw, co_attribute_filter o tag attr raw = Some v /\
    ((forall s, url_scheme raw = Some s -> s ∈ co_url_schemes o) \/
     (forall s, url_scheme v = Some s -> s ∈ co_url_schemes o)).

Lemma allowed_on_listed tag attr : tag ∈ ALLOWED_TAGS ->
  Exists (fun t => exists l, od_get t ALLOWED_ATTRS = Some l /\ attr ∈ l) [lit "*"; tag] ->
  allowed_on tag attr = true.
Proof.
  intros Ht He. unfold allowed_on. rewrite bool_decide_eq_true_2 by done. cbn [andb].
  apply existsb_exists. apply Exists_exists in He as (t & Hin & l & Hl & Ha).
  exists t. split; [by apply list_elem_of_In |]. rewrite Hl. by apply bool_decide_eq_true.
Qed.

Section facts.
Context `{PyUnicode} {V : Type} (str : V -> pystr).
Implicit Types (cid_to_sha : list (pystr * V)).

Lemma img_src_kept cid_to_sha value v :
  attribute_filter str cid_to_sha false (lit "img") (lit "src") value = Some v ->
  (exists cid sha, (cid, sha) ∈ cid_to_sha /\ v = attachment_url (str sha)) \/ inline_image v.
Proof.
  unfold attribute_filter, rewrite_img_src.
  change (str_eqb (lit "img") (lit "img") && str_eqb (lit "src") (lit "src")) with true. cbn match.
  destruct (cid_re (strip_angles value)) as [g |].
  - intros (sha & Hsha & ->)%fmap_Some. left. eexists _, sha. split; [by apply od_get_elem | done].
  - destruct (data_image_re value) eqn:E; [| done]. intros [= <-]. right. by apply data_image_inline.
Qed.
Lemma href_kept cid_to_sha external value v :
  attribute_filter str cid_to_sha external (lit "a") (lit "href") value = Some v ->
  v = value /\ startswith (lower (leading_url_trim v)) (lit "cid:") = false /\
  startswith (lower (leading_url_trim v)) (lit "data:") = false.
Proof.
  unfold attribute_filter. change (str_eqb (lit "a") (lit "img")) with false.
  change (str_eqb (lit "href") (lit "href")) with true. cbn [andb].
  destruct (existsb (startswith (lower (leading_url_trim value))) HREF_DENY_SCHEMES) eqn:E; [done |]. intros [= <-].
  cbn [existsb HREF_DENY_SCHEMES] in E. by apply orb_false_iff in E as [? [? _]%orb_false_iff].
Qed.
(** A link whose scheme is written in one piece has the scheme the prefix test reads. *)
Lemma scheme_prefix v s : url_scheme v = Some s -> split_scheme v = false ->
  startswith (lower (leading_url_trim v)) (s ++ lit ":") = true.
Proof.
  unfold url_scheme, split_scheme. intros Hs Hb.
  destruct (filter _ _) as [| c u] eqn:Ef; [done |]. destruct (is_letter c); [| done].
  destruct (scheme_of_spec _ _ Hs) as (p & rest & Hu & -> & Ha & Hp). rewrite Hu in Ef.
  destruct (unsplit_scheme _ _ _ Ef Hp Hb) as (rest' & ->).
  replace (p ++ 58 :: rest') with ((p ++ lit ":") ++ rest') by by rewrite <- app_assoc.
  destruct (lower_ascii_prefix (p ++ lit ":") rest') as (t & ->).
  { unfold isascii in *. by rewrite forallb_app, Ha. }
  unfold ascii_lower. rewrite fmap_app. apply startswith_app.
Qed.

(** C39: Whatever the message, a URL left in the HTML that [sanitize_html]
    returns without external images stands in the [src] of an [img] or the
    [href] of an [a], and no other attribute that may hold one is left.  The [src]
    is an attachment of that message, or an inline image that cannot leave its
    attribute.  The scheme a browser reads off the [href] is [http], [https] or
    [mailto], or there is none; a [data:] or [cid:] link passes only when a tab or a
    newline splits its scheme, which the filter does not see through
    ([split_data_link_passes]).  [nh3] is taken at its documented contract. *)
Theorem sanitized_urls_are_local nh3_clean attributes_of html cid_to_sha tag attr v :
  nh3_contract nh3_clean attributes_of ->
  (tag, attr, v) ∈ attributes_of (sanitize_html str nh3_clean html cid_to_sha false) -> attr ∈ URL_ATTRIBUTES ->
  (tag = lit "img" /\ attr = lit "src" /\
     ((exists cid sha, (cid, sha) ∈ cid_to_sha /\ v = lit "/v1/attachments/" ++ str sha) \/ inline_image v)) \/
  (tag = lit "a" /\ attr = lit "href" /\
     forall s, url_scheme v = Some s ->
       s = lit "http" \/ s = lit "https" \/ s = lit "mailto" \/
       ((s = lit "data" \/ s = lit "cid") /\ split_scheme v = true)).
Proof.
  intros Hnh3 Hin Ha. destruct (Hnh3 _ _ _ _ _ Hin Ha) as (Ht & Hl & raw & Hf & Hs). cbn [co_tags co_attributes co_attribute_filter co_url_schemes] in *.
  destruct (url_attributes_allowed tag attr Ha) as [[= -> ->] | [= -> ->]]; [by apply allowed_on_listed | left | right].
  - do 2 (split; [done |]). by apply img_src_kept in Hf.
  - do 2 (split; [done |]). apply href_kept in Hf as (-> & Hcid & Hdata). intros s Hv.
    assert (Hin' : s ∈ ALLOWED_URL_SCHEMES) by (destruct Hs as [Hs | Hs]; by apply Hs).
    destruct (split_scheme raw) eqn:Eb; [set_solver |].
    pose proof (scheme_prefix _ _ Hv Eb) as Hp. unfold ALLOWED_URL_SCHEMES in Hin'.
    rewrite !elem_of_cons in Hin'.
    destruct Hin' as [-> | [-> | [-> | [-> | [-> | []%not_elem_of_nil]]]]]; [tauto | tauto | tauto | |].
    + change (lit "data" ++ lit ":") with (lit "data:") in Hp. by rewrite Hdata in Hp.
    + change (lit "cid" ++ lit ":") with (lit "cid:") in Hp. by rewrite Hcid in Hp.
Qed.
End facts.

(** The comment says the whole value must be of the base64 alphabet; the Kelvin
    sign and a final newline pass. *)
Lemma data_image_re_is_wider :
  data_image_re (lit "data:image/png;base64," ++ [8490; 10]) = true.
Proof. reflexivity. Qed.

Module Example_sanitize.
#[local] Existing Instance Query.ascii_unicode.
(** A document of one element: [i] and the [src] of an image, or [l] and the
    [href] of a link. *)
Definition toy_attributes (doc : pystr) : list (pystr * pystr * pystr) :=
  match doc with
  | 105 :: v => [(lit "img", lit "src", v)]
  | 108 :: v => [(lit "a", lit "href", v)]
  | _ => []
  end.
Definition toy_scheme_ok (o : clean_options) (v : pystr) : bool :=
  match url_scheme v with Some s => bool_decide (s ∈ co_url_schemes o) | None => true end.
Definition toy_listed (o : clean_options) (tag attr : pystr) : bool :=
  bool_decide (tag ∈ co_tags o) &&
  match od_get tag (co_attributes o) with Some l => bool_decide (attr ∈ l) | None => false end.
Definition toy_nh3 (doc : pystr) (o : clean_options) : pystr :=
  match toy_attributes doc, doc with
  | [(tag, attr, v)], kind :: _ =>
      if toy_listed o tag attr && toy_scheme_ok o v
      then match co_attribute_filter o tag attr v with Some v => kind :: v | None => [] end
      else []
  | _, _ => []
  end.
Lemma toy_nh3_kept html o tag attr v : (tag, attr, v) ∈ toy_attributes (toy_nh3 html o) ->
  exists raw, (tag, attr, raw) ∈ toy_attributes html /\ toy_listed o tag attr = true /\
    toy_scheme_ok o raw = true /\ co_attribute_filter o tag attr raw = Some v.
Proof.
  unfold toy_nh3. destruct html as [| k raw]; [by intros ?%not_elem_of_nil |].
  assert (G : forall t a, toy_attributes (k :: raw) = [(t, a, raw)] ->
    (forall w, toy_attributes (k :: w) = [(t, a, w)]) ->
    (tag, attr, v) ∈ toy_attributes (if toy_listed o t a && toy_scheme_ok o raw
      then match co_attribute_filter o t a raw with Some v => k :: v | None => [] end else []) ->
    exists raw', (tag, attr, raw') ∈ [(t, a, raw)] /\ toy_listed o tag attr = true /\
      toy_scheme_ok o raw' = true /\ co_attribute_filter o tag attr raw' = Some v).
  { intros t a Hd Hw. destruct (toy_listed o t a) eqn:El; [| by intros ?%not_elem_of_nil].
    destruct (toy_scheme_ok o raw) eqn:Es; [| by intros ?%not_elem_of_nil]. cbn [andb].
    destruct (co_attribute_filter o t a raw) as [w |] eqn:Ef; [| by intros ?%not_elem_of_nil].
    rewrite Hw, list_elem_of_singleton. intros [= -> -> ->]. exists raw. split_and!; [by apply list_elem_of_singleton | done ..]. }
  destruct (decide (k = 105)) as [-> |]; [by apply (G (lit "img") (lit "src")) |].
  destruct (decide (k = 108)) as [-> |]; [by apply (G (lit "a") (lit "href")) |].
  assert (E : toy_attributes (k :: raw) = []).
  { unfold toy_attributes. repeat (case_match; try done); lia. }
  rewrite E. by intros ?%not_elem_of_nil.
Qed.
Lemma toy_contract : nh3_contract toy_nh3 toy_attributes.
Proof.
  intros html o tag attr v (raw & _ & [Ht Hl]%andb_true_iff & Hs & Hf)%toy_nh3_kept _.
  apply bool_decide_eq_true in Ht. split; [done |]. split.
  - right. left. destruct (od_get tag (co_attributes o)) as [l |]; [| done]. exists l. split; [done |].
    by apply bool_decide_eq_true in Hl.
  - exists raw. split; [done |]. left. intros s E. unfold toy_scheme_ok in Hs. rewrite E in Hs.
    by apply bool_decide_eq_true in Hs.
Qed.

Lemma sanitized_urls_are_local_witness :
  let out := sanitize_html id toy_nh3 (lit "i" ++ lit "cid:img1") [(lit "img1", lit "ab12")] false in
  out = lit "i/v1/attachments/ab12" /\
  ((lit "img" = lit "img" /\ lit "src" = lit "src" /\
     ((exists cid sha, (cid, sha) ∈ [(lit "img1", lit "ab12")] /\ lit "/v1/attachments/ab12" = lit "/v1/attachments/" ++ sha) \/
      inline_image (lit "/v1/attachments/ab12"))) \/
   (lit "img" = lit "a" /\ lit "src" = lit "href" /\
     forall s, url_scheme (lit "/v1/attachments/ab12") = Some s ->
       s = lit "http" \/ s = lit "https" \/ s = lit "mailto" \/
       ((s = lit "data" \/ s = lit "cid") /\ split_scheme (lit "/v1/attachments/ab12") = true))).
Proof.
  split; [by vm_compute |].
  apply (sanitized_urls_are_local id toy_nh3 toy_attributes (lit "i" ++ lit "cid:img1") [(lit "img1", lit "ab12")] (lit "img") (lit "src"));
    [apply toy_contract | by apply (bool_decide_unpack _); vm_compute ..].
Defined.

(** A [data:] link with a leading space is dropped, but one whose scheme holds a
    tab is kept, and a browser drops the tab. *)
Lemma split_data_link_passes :
  let spaced := lit "l data:text/html,x" in
  let split := lit "lda" ++ [9] ++ lit "ta:text/html,x" in
  sanitize_html id toy_nh3 spaced [] false = [] /\ sanitize_html id toy_nh3 split [] false = split /\
  url_scheme (lit "da" ++ [9] ++ lit "ta:text/html,x") = Some (lit "data").
Proof. by vm_compute. Qed.
End Example_sanitize.
End Sanitize.
