(* ===== verification/Changes.v ===== *)
(** * Polling for new mail ([serve/routes/changes.py])

    [GET /v1/changes] over the client's own cursor or a named server-side
    subscription, and [POST /v1/changes/ack].  A poll reads the committed rows;
    what other polls of the same subscription commit between two of its
    statements is the argument [meanwhile]. *)
From S2P Require Import Prelude Keyset PyStr Datetime Errors BrowseCursor Browse Sanitize.

(** A row of [messages]: what the api shows, and [date_received], the start of
    the transaction that inserted it, in microseconds. *)
Record stored (T : Type) := Stored { st_message : message T; st_received : Z }.
Arguments Stored {T}. Arguments st_message {T}. Arguments st_received {T}.
Notation subscriptions := (gmap (Z * pystr) Z).        (* user, name |-> cursor *)

Module Changes.
Section changes.
Context `{Datetime T}.
Implicit Types (rows : list (stored T)) (subs : subscriptions) (allowed : list Z).

Definition DEFAULT_LIMIT : nat := 200.
Definition MAX_SUBSCRIPTION_NAME : nat := 64.
Definition name_char (c : Z) : bool :=
  is_digit_char c || ((97 <=? lower_char c) && (lower_char c <=? 122)) || (c =? 95) || (c =? 45).
(** [_SUBSCRIPTION_NAME_RE.match(name)]; [$] also matches before a final newline. *)
Definition subscription_name_re (name : pystr) : bool :=
  match Sanitize.chomp name with [] => false | s => forallb name_char s end.
Definition validate_subscription_name (name : pystr) : res exn pystr :=
  guard! negb (bool_decide (name = []) || (MAX_SUBSCRIPTION_NAME <? length name)%nat ||
               negb (subscription_name_re name)) else ValidationFailed in
  Ok name.

Definition subscription_cursor subs (user_id : Z) (name : pystr) : option Z := subs !! (user_id, name).

Definition granted allowed (r : stored T) : bool := bool_decide (m_account_id (st_message r) ∈ allowed).
(** [date_received < now() - make_interval(secs => horizon)] *)
Definition past_horizon (now horizon_s : Z) (r : stored T) : bool := st_received r <? now - horizon_s * 1000000.
(** [COALESCE(MAX(id), 0)] *)
Definition max_id (l : list (stored T)) : Z := foldr (fun r => Z.max (m_id (st_message r))) 0 l.
Definition current_tip rows allowed (now horizon_s : Z) : Z :=
  max_id (filter (fun r => granted allowed r && past_horizon now horizon_s r = true) rows).
Definition max_message_id rows : Z := max_id rows.

Definition claim_subscription subs (user_id : Z) (name : pystr) (cursor : Z) : bool * subscriptions :=
  match subs !! (user_id, name) with
  | Some _ => (false, subs)
  | None => (true, <[(user_id, name) := cursor]> subs)
  end.
Definition enforce_subscription_cap subs (user_id cap : Z) : res exn () :=
  guard! Z.of_nat (size (filter (fun r : (Z * pystr) * Z => r.1.1 = user_id) subs)) <? cap else ValidationFailed in
  Ok ().

(** [ORDER BY m.id ASC] *)
Definition id_le (a b : stored T) : Prop := m_id (st_message a) <= m_id (st_message b).
#[local] Instance id_le_dec : RelDecision id_le.
Proof. intros a b. unfold id_le. apply _. Defined.
Definition recent_le (a b : stored T) : Prop := desc_le (st_message a) (st_message b).
#[local] Instance recent_le_dec : RelDecision recent_le.
Proof. intros a b. unfold recent_le. apply _. Defined.

Definition fetch_rows rows allowed (now horizon_s : Z) (since_id : option Z) : list (stored T) :=
  take DEFAULT_LIMIT
    match since_id with
    | None => merge_sort recent_le (filter (fun r => past_horizon now horizon_s r && granted allowed r = true) rows)
    | Some since_id =>
        merge_sort id_le (filter (fun r => (since_id <? m_id (st_message r)) &&
          past_horizon now horizon_s r && granted allowed r = true) rows)
    end.

Record change := Change {
  ch_message_id : pystr; ch_subject : option pystr; ch_from : option pystr * option pystr; ch_date : option pystr;
  ch_account : pystr * pystr }.
Record changes_response := ChangesResponse { cr_new_messages : list change; cr_next_cursor : pystr }.
Context (account_name : Z -> pystr).
Definition to_change (m : message T) : change :=
  Change (str_int (m_id m)) (m_subject m) (m_from_addr m, m_from_name m) (isoformat <$> sort_ts m)
    (str_int (m_account_id m), account_name (m_account_id m)).
Definition page_of (page : list (stored T)) (fallback_cursor : pystr) : changes_response :=
  let top := max_id page in
  ChangesResponse (to_change ∘ st_message <$> page) (if top =? 0 then fallback_cursor else str_int top).

Record serve_config := ServeConfig { changes_safe_horizon_s : Z; max_subscriptions_per_user : Z }.

(** [s or "0"] *)
Definition or_zero (s : option pystr) : pystr := match s with None | Some [] => lit "0" | Some s => s end.

(** [changes] *)
Definition changes (cfg : serve_config) rows subs (meanwhile : subscriptions -> subscriptions) (now : Z)
    (user_id : Z) allowed (since subscription : option pystr) : res exn (changes_response * subscriptions) :=
  guard! negb (bool_decide (is_Some subscription) && bool_decide (is_Some since)) else ValidationFailed in
  let* sub_name := match subscription with None => Ok None | Some n => Some <$> validate_subscription_name n end in
  let* since_id := match since with None => Ok None | Some s => Some <$> Ids.parse_int_id s end in
  let horizon_s := changes_safe_horizon_s cfg in
  match allowed with
  | [] => Ok (ChangesResponse [] (or_zero since), subs)
  | _ =>
      let poll since_id subs :=
        let fallback := match since_id with Some n => str_int n | None => or_zero since end in
        Ok (page_of (fetch_rows rows allowed now horizon_s since_id) fallback, subs) in
      match sub_name with
      | None => poll since_id subs
      | Some name =>
          match subscription_cursor subs user_id name with
          | Some stored_cursor => poll (Some stored_cursor) subs
          | None =>
              let* _ := enforce_subscription_cap subs user_id (max_subscriptions_per_user cfg) in
              let tip := current_tip rows allowed now horizon_s in
              let '(created, subs) := claim_subscription (meanwhile subs) user_id name tip in
              if created then Ok (ChangesResponse [] (str_int tip), subs)
              else poll (Some (default tip (subscription_cursor subs user_id name))) subs
          end
      end
  end.

(** [ack] *)
Definition ack (cfg : serve_config) rows subs (user_id : Z) (subscription cursor : pystr)
    : res exn subscriptions :=
  let* name := validate_subscription_name subscription in
  let* cursor := Ids.parse_int_id cursor in
  guard! cursor <=? max_message_id rows else ValidationFailed in
  let* _ := match subscription_cursor subs user_id name with
            | None => enforce_subscription_cap subs user_id (max_subscriptions_per_user cfg)
            | Some _ => Ok ()
            end in
  Ok (<[(user_id, name) := match subs !! (user_id, name) with Some c => Z.max c cursor | None => cursor end]> subs).
End changes.

(** The pattern's [$] lets a name end in a newline, which the docstring excludes. *)
Lemma newline_name_is_accepted : validate_subscription_name (lit "inbox" ++ [10]) = Ok (lit "inbox" ++ [10]).
Proof. reflexivity. Qed.
End Changes.
