(* ===== verification/ChangesFacts.v ===== *)
(** * A polling client misses nothing

    [hist] is every message ever inserted, with the moment its transaction
    commits; a poll at [now] reads the rows committed by then.  Under [ordered],
    the safe horizon does what it is for. *)
From S2P Require Import Prelude Keyset PyStr Datetime Errors BrowseCursor Browse Sanitize Changes.
Import Changes.
#[local] Existing Instances id_le_dec recent_le_dec.

Section facts.
Context `{Datetime T} (account_name : Z -> pystr) (cfg : serve_config) (user : Z) (allowed : list Z).

Record posted := Posted { po_row : stored T; po_commit : Z }.
Definition po_id (a : posted) : Z := m_id (st_message (po_row a)).
Context (hist : list posted).
Definition horizon : Z := changes_safe_horizon_s cfg * 1000000.
Definition committed (now : Z) : list (stored T) := po_row <$> filter (fun a => po_commit a <= now) hist.
Definition readable (a : posted) : Prop := a ∈ hist /\ granted allowed (po_row a) = true.
Definition visible (now : Z) (a : posted) : Prop := po_commit a <= now /\ st_received (po_row a) < now - horizon.

(** Keys are distinct and positive. *)
Definition keys_ok : Prop := NoDup (po_id <$> hist) /\ forall a, a ∈ hist -> 0 < po_id a < 2 ^ 63.
(** Among the messages a caller may read, a lower id was received no later, and
    was committed within the horizon of the higher one's receipt. *)
Definition ordered : Prop := forall a b, readable a -> readable b -> po_id a < po_id b ->
  st_received (po_row a) <= st_received (po_row b) /\ po_commit a <= st_received (po_row b) + horizon.

(** ** One page *)

Definition page (now c : Z) : list (stored T) :=
  fetch_rows (committed now) allowed now (changes_safe_horizon_s cfg) (Some c).
Notation rid r := (m_id (st_message r)).

#[local] Instance id_le_trans : Transitive (id_le (T := T)).
Proof. intros a b c. unfold id_le. lia. Qed.
#[local] Instance id_le_total : Total (id_le (T := T)).
Proof. intros a b. unfold id_le. lia. Qed.

Lemma max_id_cons x (l : list (stored T)) : max_id (x :: l) = Z.max (rid x) (max_id l).
Proof. done. Qed.
Lemma max_id_le (l : list (stored T)) r : r ∈ l -> rid r <= max_id l.
Proof.
  induction l as [| x l IH]; [by intros ?%elem_of_nil |]. rewrite max_id_cons.
  intros [-> | Hr]%elem_of_cons; [lia |]. specialize (IH Hr). lia.
Qed.
Lemma max_id_in (l : list (stored T)) : 0 < max_id l -> exists r, r ∈ l /\ rid r = max_id l.
Proof.
  induction l as [| x l IH]; [done |]. rewrite max_id_cons. intros Hm.
  destruct (Z.max_spec (rid x) (max_id l)) as [[Hlt Heq] | [Hle Heq]].
  - destruct IH as (r & Hr & He); [lia |]. exists r. split; [by right | lia].
  - exists x. split; [left | lia].
Qed.
Lemma max_id_nonneg (l : list (stored T)) : 0 <= max_id l.
Proof. induction l as [| x l IH]; [done |]. rewrite max_id_cons. lia. Qed.

Lemma page_source now c : exists L, page now c = take DEFAULT_LIMIT L /\ StronglySorted id_le L /\
  forall r, r ∈ L <-> exists a, r = po_row a /\ readable a /\ visible now a /\ c < po_id a.
Proof.
  eexists. split; [reflexivity |]. split; [apply StronglySorted_merge_sort; apply _ |].
  intros r. rewrite merge_sort_Permutation, list_elem_of_filter. unfold committed. rewrite list_elem_of_fmap.
  rewrite !andb_true_iff, Z.ltb_lt. unfold past_horizon. rewrite Z.ltb_lt. fold horizon. split.
  - intros [[[Hc Hh] Hg] (a & -> & [Hp Ha]%list_elem_of_filter)]. exists a. done.
  - intros (a & -> & [Ha Hg] & [Hp Hv] & Hc). split; [done |]. exists a. split; [done |]. by apply list_elem_of_filter.
Qed.
Lemma page_elem now c r : r ∈ page now c -> exists a, r = po_row a /\ readable a /\ visible now a /\ c < po_id a.
Proof.
  destruct (page_source now c) as (L & -> & _ & HL). intros Hr. apply HL. by eapply elem_of_take in Hr as (? & ? & _); [eapply list_elem_of_lookup_2].
Qed.
Lemma same_id a b : keys_ok -> a ∈ hist -> b ∈ hist -> po_id a = po_id b -> a = b.
Proof.
  intros [Hn _] Ha Hb Hid. apply list_elem_of_lookup in Ha as [i Hi], Hb as [j Hj].
  assert (i = j) as ->; [| congruence].
  eapply (NoDup_lookup _ _ _ (po_id a)); [exact Hn | |]; rewrite list_lookup_fmap, ?Hi, ?Hj; cbn; congruence.
Qed.

(** A page leaves no gap below its highest id, and is short only when it holds
    everything visible. *)
Lemma page_covers now c a : keys_ok -> ordered -> readable a -> c < po_id a <= max_id (page now c) -> po_row a ∈ page now c.
Proof.
  intros Hk Ho Ha [Hc Hle]. destruct (max_id_in (page now c)) as (r & Hr & Hid).
  { destruct Hk as [_ Hk]. specialize (Hk a (proj1 Ha)). lia. }
  destruct (page_elem _ _ _ Hr) as (b & -> & Hb & [Hbc Hbv] & Hcb). fold (po_id b) in Hid.
  destruct (decide (po_id a = po_id b)) as [Heq | Hne].
  { by rewrite (same_id a b Hk (proj1 Ha) (proj1 Hb) Heq). }
  destruct (Ho a b Ha Hb ltac:(lia)) as [Hrec Hcom].
  destruct (page_source now c) as (L & HL & Hs & Hin). rewrite HL in Hr |- *.
  assert (HaL : po_row a ∈ L). { apply Hin. exists a. split_and!; [done | done | split; lia | done]. }
  rewrite <- (take_drop DEFAULT_LIMIT L) in HaL, Hs. apply elem_of_app in HaL as [? | Hd]; [done |]. exfalso.
  assert (Hab : id_le (po_row b) (po_row a)).
  { by eapply StronglySorted_app_1_elem_of. }
  unfold id_le in Hab. fold (po_id a) (po_id b) in Hab. lia.
Qed.
Lemma page_full now c a : readable a -> visible now a -> c < po_id a -> (length (page now c) < DEFAULT_LIMIT)%nat ->
  po_row a ∈ page now c.
Proof.
  destruct (page_source now c) as (L & -> & _ & HL). intros Ha Hv Hc Hlen. rewrite length_take in Hlen.
  rewrite take_ge by lia. apply HL. by exists a.
Qed.

(** ** Following [next_cursor] *)

(** A client that polls at [times], each time from the cursor it was given. *)
Fixpoint tail (times : list Z) (cursor : pystr) : res exn (list change * pystr) :=
  match times with
  | [] => Ok ([], cursor)
  | now :: times =>
      let* r := changes account_name cfg (committed now) ∅ id now user allowed (Some cursor) None in
      let* rest := tail times (cr_next_cursor r.1) in
      Ok (cr_new_messages r.1 ++ rest.1, rest.2)
  end.
Definition next (now c : Z) : Z := let top := max_id (page now c) in if top =? 0 then c else top.
Fixpoint tail_rows (times : list Z) (c : Z) : list (stored T) * Z :=
  match times with
  | [] => ([], c)
  | now :: times => let rest := tail_rows times (next now c) in (page now c ++ rest.1, rest.2)
  end.

Lemma parse_str_int n : is_bigserial n -> Ids.parse_int_id (str_int n) = Ok n.
Proof.
  intros Hn. unfold Ids.parse_int_id. destruct (str_int_spec n) as (-> & _); [apply Hn |]. by rewrite py_int_str_int.
Qed.
Lemma next_spec now c : keys_ok -> is_bigserial c -> c <= next now c /\ is_bigserial (next now c) /\
  forall r, r ∈ page now c -> c < rid r <= next now c.
Proof.
  intros [_ Hk] Hc. unfold next. cbn zeta.
  assert (Hin : forall r, r ∈ page now c -> c < rid r <= max_id (page now c) /\ rid r < 2 ^ 63).
  { intros r Hr. destruct (page_elem _ _ _ Hr) as (a & -> & [Ha _] & _ & Hca).
    pose proof (max_id_le _ _ Hr). specialize (Hk a Ha). unfold po_id in *. lia. }
  destruct (Z.eqb_spec (max_id (page now c)) 0) as [Hz | Hnz].
  - split; [lia |]. split; [done |]. intros r Hr. destruct (Hin r Hr). unfold is_bigserial in Hc. lia.
  - pose proof (max_id_nonneg (page now c)). destruct (max_id_in (page now c)) as (r & Hr & Hid); [lia |].
    destruct (Hin r Hr). unfold is_bigserial in *. split; [lia |]. split; [lia |]. intros r' Hr'. by apply Hin.
Qed.
Lemma tail_exact times c : keys_ok -> allowed <> [] -> is_bigserial c ->
  tail times (str_int c) =
    Ok (to_change account_name ∘ st_message <$> (tail_rows times c).1, str_int (tail_rows times c).2).
Proof.
  intros Hk Hal. revert c. induction times as [| now times IH]; intros c Hc; [done |]. cbn [tail tail_rows].
  assert (changes account_name cfg (committed now) ∅ id now user allowed (Some (str_int c)) None =
    Ok (page_of account_name (page now c) (str_int c), ∅)) as ->.
  { unfold changes. change (bool_decide (is_Some (@None pystr))) with false. cbn [andb negb]. cbn zeta.
    rewrite parse_str_int by done. cbn [fmap res_fmap]. by rewrite match_cons. }
  cbn [fst page_of cr_new_messages cr_next_cursor].
  assert ((if max_id (page now c) =? 0 then str_int c else str_int (max_id (page now c))) = str_int (next now c)) as ->.
  { unfold next. cbn zeta. by case_match. }
  destruct (next_spec now c Hk Hc) as (_ & Hn & _). rewrite IH by done. cbn [fst snd]. by rewrite fmap_app.
Qed.

Lemma tail_rows_range times c : keys_ok -> is_bigserial c -> c <= (tail_rows times c).2 /\
  forall r, r ∈ (tail_rows times c).1 -> c < rid r <= (tail_rows times c).2 /\ exists a, r = po_row a /\ readable a.
Proof.
  intros Hk. revert c. induction times as [| now times IH]; intros c Hc; [split; [done |]; by intros r ?%elem_of_nil |].
  cbn [tail_rows fst snd]. destruct (next_spec now c Hk Hc) as (Hle & Hb & Hp). destruct (IH _ Hb) as [Hle' Hr].
  split; [lia |]. intros r [Hin | Hin]%elem_of_app.
  - specialize (Hp r Hin). split; [lia |]. destruct (page_elem _ _ _ Hin) as (a & -> & Ha & _). by exists a.
  - destruct (Hr r Hin). split; [lia | done].
Qed.
Lemma page_nodup now c : keys_ok -> NoDup ((fun r => rid r) <$> page now c).
Proof.
  intros [Hn _]. unfold page, fetch_rows. eapply sublist_NoDup; [| apply fmap_sublist, sublist_take].
  rewrite merge_sort_Permutation. eapply sublist_NoDup; [| apply fmap_sublist, sublist_filter].
  unfold committed. rewrite <- list_fmap_compose. eapply sublist_NoDup; [exact Hn |]. apply fmap_sublist, sublist_filter.
Qed.
Lemma tail_rows_nodup times c : keys_ok -> is_bigserial c -> NoDup ((fun r => rid r) <$> (tail_rows times c).1).
Proof.
  intros Hk. revert c. induction times as [| now times IH]; intros c Hc; [constructor |]. cbn [tail_rows fst].
  destruct (next_spec now c Hk Hc) as (Hle & Hb & Hp). rewrite fmap_app. apply NoDup_app. split_and!.
  - by apply page_nodup.
  - intros x (r & -> & Hr)%list_elem_of_fmap (r' & Heq & Hr')%list_elem_of_fmap.
    destruct (tail_rows_range times _ Hk Hb) as [_ Hrange]. destruct (Hrange r' Hr'). specialize (Hp r Hr). lia.
  - by apply IH.
Qed.
Lemma tail_rows_covers times c a : keys_ok -> ordered -> is_bigserial c -> readable a ->
  c < po_id a <= (tail_rows times c).2 -> po_row a ∈ (tail_rows times c).1.
Proof.
  intros Hk Ho Hc Ha. revert c Hc. induction times as [| now times IH]; intros c Hc; cbn [tail_rows fst snd]; [lia |].
  intros Hid. destruct (next_spec now c Hk Hc) as (Hle & Hb & _). rewrite elem_of_app.
  destruct (Z.leb_spec (po_id a) (next now c)) as [Hn | Hn]; [left | right; apply IH; [done | lia]].
  apply page_covers; [done.. |]. split; [lia |]. unfold next in Hn. cbn zeta in Hn. case_match; lia.
Qed.

(** Messages a client at [c] has still to read before [a]. *)
Definition pending (c : Z) (a : posted) : list posted :=
  filter (fun b => granted allowed (po_row b) = true /\ c < po_id b <= po_id a) hist.
Lemma tail_rows_progress times c a : keys_ok -> ordered -> is_bigserial c -> readable a ->
  Forall (fun now => visible now a) times ->
  (length (pending c a) <= DEFAULT_LIMIT * length times)%nat -> c < po_id a -> po_row a ∈ (tail_rows times c).1.
Proof.
  intros Hk Ho Hc Ha Hv. revert c Hc. induction Hv as [| now times Hv _ IH]; intros c Hc Hlen Hca.
  - exfalso. cbn in Hlen. assert (Hin : a ∈ pending c a).
    { unfold pending. apply list_elem_of_filter. destruct Ha. split; [split; [done | lia] | done]. }
    destruct (pending c a); [by apply elem_of_nil in Hin | cbn in Hlen; lia].
  - cbn [tail_rows fst]. rewrite elem_of_app. destruct (next_spec now c Hk Hc) as (Hle & Hb & Hp).
    destruct (Z.leb_spec (po_id a) (next now c)) as [Hn | Hn].
    { left. apply page_covers; [done.. |]. split; [lia |]. unfold next in Hn. cbn zeta in Hn. case_match; lia. }
    destruct (Nat.ltb_spec (length (page now c)) DEFAULT_LIMIT) as [Hs | Hfull]; [left; by apply page_full |].
    right. apply IH; [done | | done]. cbn [length] in Hlen.
    enough (length (page now c) + length (pending (next now c) a) <= length (pending c a))%nat by lia.
    rewrite <- (length_fmap (fun r => rid r) (page now c)), <- (length_fmap po_id (pending (next now c) a)),
      <- length_app, <- (length_fmap po_id (pending c a)).
    apply submseteq_length, NoDup_submseteq.
    + apply NoDup_app. split_and!; [by apply page_nodup | |].
      * intros x (r & -> & Hr)%list_elem_of_fmap (b & Heq & [[_ Hb'] _]%list_elem_of_filter)%list_elem_of_fmap.
        specialize (Hp r Hr). lia.
      * eapply sublist_NoDup; [apply Hk |]. apply fmap_sublist, sublist_filter.
    + intros x [(r & -> & Hr)%list_elem_of_fmap | (b & -> & [[Hg Hb'] Hin]%list_elem_of_filter)%list_elem_of_fmap]%elem_of_app.
      * destruct (page_elem _ _ _ Hr) as (b & -> & [Hbin Hg] & _ & Hcb). apply list_elem_of_fmap. exists b. split; [done |].
        apply list_elem_of_filter. specialize (Hp _ Hr). fold (po_id b) in Hp. split; [split; [done | lia] | done].
      * apply list_elem_of_fmap. exists b. split; [done |]. apply list_elem_of_filter. split; [split; [done | lia] | done].
Qed.

(** C6: A client that polls with the cursor it was last given receives every
    message once and loses none, provided ids are handed out in the order of
    [date_received] and each insert commits within the horizon: all messages up
    to the cursor it ends at were delivered, committed late or not, no id twice,
    and a message visible to all its polls arrives after as many polls as the
    messages before it fill. *)
Theorem tail_delivers_once times c :
  keys_ok -> ordered -> allowed <> [] -> is_bigserial c ->
  exists rows c', tail times (str_int c) = Ok (to_change account_name ∘ st_message <$> rows, str_int c') /\
    c <= c' /\ NoDup ((fun r => rid r) <$> rows) /\
    (forall r, r ∈ rows -> c < rid r <= c' /\ exists a, r = po_row a /\ readable a) /\
    (forall a, readable a -> c < po_id a <= c' -> po_row a ∈ rows) /\
    (forall a, readable a -> c < po_id a -> Forall (fun now => visible now a) times ->
       (length (pending c a) <= DEFAULT_LIMIT * length times)%nat -> po_row a ∈ rows).
Proof.
  intros Hk Ho Hal Hc. exists (tail_rows times c).1, (tail_rows times c).2.
  destruct (tail_rows_range times c Hk Hc) as [Hle Hr]. split_and!; [by apply tail_exact | done | by apply tail_rows_nodup | done | |].
  - intros a Ha Hid. by apply tail_rows_covers.
  - intros a Ha Hca Hv Hlen. by apply tail_rows_progress.
Qed.

(** ** A named subscription *)
Section subscription.
Context (name : pystr).
Notation key := (user, name).

(** What one subscription has been through: the table, the changes its polls
    returned, the cursors they offered, and where and when it was created. *)
Record world := World {
  w_subs : subscriptions; w_delivered : list change; w_offered : list pystr; w_start : option (Z * Z) }.
Definition tip_at (now : Z) : Z := current_tip (committed now) allowed now (changes_safe_horizon_s cfg).
(** The claim of another first poll of the same name, at [now]. *)
Definition rival (now : option Z) (subs : subscriptions) : subscriptions :=
  match now with Some now => (claim_subscription subs user name (tip_at now)).2 | None => subs end.
Definition created (subs : subscriptions) (now : Z) (other : option Z) : (Z * Z) :=
  match other with Some now' => (tip_at now', now') | None => (tip_at now, now) end.

(** Polls, in any number and racing or not, acks of cursors that were offered,
    and whatever happens to other subscriptions. *)
Inductive step : world -> world -> Prop :=
  | step_poll w now other r subs' :
      changes account_name cfg (committed now) (w_subs w) (rival other) now user allowed None (Some name) = Ok (r, subs') ->
      step w (World subs' (w_delivered w ++ cr_new_messages r) (cr_next_cursor r :: w_offered w)
        (match w_start w with Some s => Some s | None => Some (created (w_subs w) now other) end))
  | step_ack w now cursor subs' :
      cursor ∈ w_offered w -> ack cfg (committed now) (w_subs w) user name cursor = Ok subs' ->
      step w (World subs' (w_delivered w) (w_offered w) (w_start w))
  | step_other w subs' :
      subs' !! key = w_subs w !! key -> step w (World subs' (w_delivered w) (w_offered w) (w_start w)).
Inductive reach (w0 : world) : world -> Prop :=
  | reach_here : reach w0 w0
  | reach_step w w' : reach w0 w -> step w w' -> reach w0 w'.

Definition delivered_to (start : Z) (delivered : list change) (c : Z) : Prop :=
  is_bigserial c /\ start <= c /\
  forall a, readable a -> start < po_id a <= c -> to_change account_name (st_message (po_row a)) ∈ delivered.
Definition sub_inv (w : world) : Prop :=
  match w_start w with
  | None => w_subs w !! key = None /\ w_offered w = []
  | Some (start, now0) =>
      (exists c, w_subs w !! key = Some c /\ delivered_to start (w_delivered w) c) /\
      (forall o, o ∈ w_offered w -> exists n, o = str_int n /\ delivered_to start (w_delivered w) n) /\
      (forall a, readable a -> po_id a <= start -> visible now0 a)
  end.

Lemma tip_spec now : keys_ok -> ordered -> is_bigserial (tip_at now) /\ forall a, readable a -> po_id a <= tip_at now -> visible now a.
Proof.
  intros Hk Ho. unfold tip_at, current_tip. set (l := filter _ _).
  assert (Hl : forall r, r ∈ l -> exists b, r = po_row b /\ readable b /\ visible now b).
  { intros r [[Hg Hv]%andb_true_iff Hr]%list_elem_of_filter. unfold committed in Hr.
    apply list_elem_of_fmap in Hr as (b & -> & [Hc Hb]%list_elem_of_filter). exists b.
    unfold past_horizon in Hv. apply Z.ltb_lt in Hv. done. }
  pose proof (max_id_nonneg l) as Hnn. destruct Hk as [Hnd Hpos]. destruct (Z.eqb_spec (max_id l) 0) as [Hz | Hnz].
  - rewrite Hz. split; [done |]. intros a [Ha _] Hle. specialize (Hpos a Ha). lia.
  - destruct (max_id_in l) as (r & Hr & Hid); [lia |]. destruct (Hl r Hr) as (b & -> & Hb & Hv). fold (po_id b) in Hid.
    pose proof (Hpos b (proj1 Hb)). split; [unfold is_bigserial; lia |]. intros a Ha Hle.
    destruct (decide (po_id a = po_id b)) as [Heq | Hne]; [by rewrite (same_id a b (conj Hnd Hpos) (proj1 Ha) (proj1 Hb) Heq) |].
    destruct (Ho a b Ha Hb ltac:(lia)). destruct Hv. split; lia.
Qed.

Lemma validate_same n : validate_subscription_name name = Ok n -> n = name.
Proof. unfold validate_subscription_name. case_match; congruence. Qed.
Lemma changes_sub_inv subs other now r subs' :
  allowed <> [] ->
  changes account_name cfg (committed now) subs (rival other) now user allowed None (Some name) = Ok (r, subs') ->
  match Sql.coalesce (subs !! key) (rival other subs !! key) with
  | Some c => r = page_of account_name (page now c) (str_int c) /\
              subs' !! key = Some c
  | None => r = ChangesResponse [] (str_int (tip_at now)) /\ subs' !! key = Some (tip_at now)
  end.
Proof.
  intros Hal. unfold changes. change (bool_decide (is_Some (@None pystr))) with false.
  rewrite andb_false_r. cbn [negb fmap res_fmap]. destruct (validate_subscription_name name) as [n |] eqn:En; [| done].
  assert (n = name) as -> by by apply validate_same.
  change (Some <$> @Ok exn _ name) with (@Ok exn _ (Some name)). cbn match. rewrite match_cons by done. unfold subscription_cursor. destruct (subs !! key) as [c |] eqn:Es; cbn [Sql.coalesce].
  { intros [= <- <-]. done. }
  destruct (enforce_subscription_cap _ _ _); [| done]. fold (tip_at now). unfold claim_subscription.
  destruct (rival other subs !! key) as [c |] eqn:Er.
  - cbn. rewrite Er. intros [= <- <-]. done.
  - intros [= <- <-]. split; [done |]. by rewrite lookup_insert_eq.
Qed.

(** A page extends what has been delivered up to its own next cursor. *)
Lemma delivered_page start delivered now c : keys_ok -> ordered -> delivered_to start delivered c ->
  let r := page_of account_name (page now c) (str_int c) in
  cr_next_cursor r = str_int (next now c) /\
  delivered_to start (delivered ++ cr_new_messages r) (next now c) /\
  delivered_to start (delivered ++ cr_new_messages r) c.
Proof.
  intros Hk Ho (Hc & Hsc & Hcov). cbn zeta. cbn [page_of cr_next_cursor cr_new_messages].
  destruct (next_spec now c Hk Hc) as (Hle & Hb & _). split; [unfold next; cbn zeta; by case_match |].
  split; (split; [done |]; split; [lia |]); intros a Ha Hid; apply elem_of_app.
  - destruct (Z.leb_spec (po_id a) c) as [Hac | Hca]; [left; apply Hcov; [done | lia] | right].
    apply list_elem_of_fmap. exists (po_row a). split; [done |]. apply page_covers; [done.. |].
    split; [done |]. unfold next in Hid. cbn zeta in Hid. case_match; lia.
  - left. by apply Hcov.
Qed.
Lemma delivered_more start d d' c : delivered_to start d c -> delivered_to start (d ++ d') c.
Proof. intros (? & ? & Hcov). split_and!; [done.. |]. intros a Ha Hid. apply elem_of_app. left. by apply Hcov. Qed.

Lemma sub_step w w' : keys_ok -> ordered -> allowed <> [] -> sub_inv w -> step w w' -> sub_inv w'.
Proof.
  intros Hk Ho Hal Hinv Hs. destruct Hs as [w now other r subs' Hr | w now cursor subs' Hin Hack | w subs' Hsame].
  - apply changes_sub_inv in Hr; [| done]. unfold sub_inv in *. cbn [w_start w_subs w_delivered w_offered].
    destruct (w_start w) as [[start now0] |].
    + destruct Hinv as ((c & Hc & Hd) & Hoff & Hback). rewrite Hc in Hr. cbn [Sql.coalesce] in Hr. destruct Hr as [-> Hs'].
      destruct (delivered_page start (w_delivered w) now c Hk Ho Hd) as (Hn & Hdn & Hdc).
      split_and!; [by exists c | | done]. intros o [-> | Hino]%elem_of_cons; [by exists (next now c) |].
      destruct (Hoff o Hino) as (n & -> & Hdo). exists n. split; [done | by apply delivered_more].
    + destruct Hinv as [Hnone Hoff]. rewrite Hnone, Hoff in *. cbn [Sql.coalesce] in Hr.
      assert (Hzero : forall now' d, delivered_to (tip_at now') d (tip_at now')).
      { intros now' d. split_and!; [by apply tip_spec | done | intros a _ ?; lia]. }
      destruct other as [now' |]; cbn [rival created] in *.
      * unfold claim_subscription in Hr. rewrite Hnone in Hr. cbn [snd] in Hr. rewrite lookup_insert_eq in Hr.
        destruct Hr as [-> Hs']. destruct (delivered_page _ (w_delivered w) now _ Hk Ho (Hzero now' _)) as (Hn & Hdn & Hdc).
        split_and!; [by eexists | | by apply tip_spec]. intros o ->%list_elem_of_singleton. by eexists.
      * rewrite Hnone in Hr. destruct Hr as [-> Hs']. cbn [cr_new_messages cr_next_cursor].
        split_and!; [by eexists | | by apply tip_spec]. intros o ->%list_elem_of_singleton. by eexists.
  - unfold sub_inv in *. cbn [w_start w_subs w_delivered w_offered]. destruct (w_start w) as [[start now0] |].
    + destruct Hinv as ((c & Hc & Hd) & Hoff & Hback). destruct (Hoff cursor Hin) as (n & -> & Hdn).
      unfold ack in Hack. destruct (validate_subscription_name name) as [n' |] eqn:En; [| done].
      assert (n' = name) as -> by by apply validate_same.
      rewrite parse_str_int in Hack by apply Hdn. case_match; [| done]. unfold subscription_cursor in Hack. rewrite Hc in Hack.
      injection Hack as <-. split_and!; [| done | done]. exists (Z.max c n). rewrite lookup_insert_eq. split; [done |].
      by destruct (Z.max_spec c n) as [[_ ->] | [_ ->]].
    + destruct Hinv as [_ Hoff]. rewrite Hoff in Hin. by apply elem_of_nil in Hin.
  - unfold sub_inv in *. cbn [w_start w_subs w_delivered w_offered]. by rewrite Hsame.
Qed.

(** C7: Provided ids are handed out in the order of [date_received] and each
    insert commits within the horizon ([ordered]; without it the horizon loses
    mail, [interleaved_insert_is_skipped]), and for a caller whose grants are
    fixed and not empty, a subscription loses nothing, whatever number of polls
    race, crash before their ack or replay old acks: once it exists, every message
    above its starting point and up to its stored cursor was in some response, and
    what lies at or below the starting point was already visible when it was made. *)
Theorem subscription_loses_nothing subs0 w c :
  keys_ok -> ordered -> allowed <> [] -> subs0 !! key = None ->
  reach (World subs0 [] [] None) w -> w_subs w !! key = Some c ->
  exists start now0, w_start w = Some (start, now0) /\ start <= c /\
    (forall a, readable a -> po_id a <= start -> visible now0 a) /\
    (forall a, readable a -> start < po_id a <= c ->
       to_change account_name (st_message (po_row a)) ∈ w_delivered w).
Proof.
  intros Hk Ho Hal H0 Hr Hc. assert (Hinv : sub_inv w).
  { clear c Hc. induction Hr as [| w w' _ IH Hs]; [done |]. by eapply sub_step. }
  unfold sub_inv in Hinv. destruct (w_start w) as [[start now0] |]; [| destruct Hinv; congruence].
  destruct Hinv as ((c' & Hc' & (_ & Hle & Hcov)) & _ & Hback). simplify_eq. by exists start, now0.
Qed.
End subscription.
End facts.

(** ** Concrete histories *)
Module Example_changes.
Notation dt := Calendar.datetime.
Definition row (i received : Z) : stored dt :=
  Stored (Message i None None None None (Some (Browse.sample_dt i)) 10) received.
Definition posted_at (i received commit : Z) : posted := Posted (row i received) commit.
Definition cfg5 : serve_config := ServeConfig 5 32.
Definition names (_ : Z) : pystr := lit "mine".

(** Message 2 commits after message 3, within the horizon. *)
Definition late_commit : list posted :=
  [posted_at 1 0 100000; posted_at 2 200000 900000; posted_at 3 300000 400000].
Lemma late_keys : keys_ok late_commit.
Proof.
  split; [by apply (bool_decide_unpack _); vm_compute |]. intros a Ha.
  repeat (apply elem_of_cons in Ha as [-> | Ha]; [by vm_compute |]). by apply elem_of_nil in Ha.
Qed.
Lemma late_ordered : ordered cfg5 [10] late_commit.
Proof.
  intros a b [Ha _] [Hb _].
  repeat (apply elem_of_cons in Ha as [-> | Ha]; [| try by apply elem_of_nil in Ha]);
    repeat (apply elem_of_cons in Hb as [-> | Hb]; [by vm_compute | try by apply elem_of_nil in Hb]).
Qed.
Lemma tail_delivers_once_witness : exists rows c',
  tail names cfg5 1 [10] late_commit [500000; 6000000] (lit "0") = Ok (to_change names ∘ st_message <$> rows, str_int c') /\
  (forall a, readable [10] late_commit a -> 0 < po_id a <= c' -> po_row a ∈ rows).
Proof.
  destruct (tail_delivers_once names cfg5 1 [10] late_commit [500000; 6000000] 0 late_keys late_ordered)
    as (rows & c' & Ht & _ & _ & _ & Hc & _); [done | done |]. by exists rows, c'.
Defined.

Definition start_world : world := World ∅ [] [] None.
Lemma first_poll : exists w, reach names cfg5 1 [10] late_commit (lit "inbox") start_world w /\ w_subs w !! (1, lit "inbox") = Some 1.
Proof.
  eexists. split; [eapply reach_step; [apply reach_here |]; apply (step_poll _ _ _ _ _ _ _ 5100000 None); by vm_compute |].
  by vm_compute.
Qed.
Lemma subscription_loses_nothing_witness : exists w start now0, w_start w = Some (start, now0) /\
  reach names cfg5 1 [10] late_commit (lit "inbox") start_world w.
Proof.
  destruct first_poll as (w & Hr & Hc).
  destruct (subscription_loses_nothing names cfg5 1 [10] late_commit (lit "inbox") ∅ w 1 late_keys late_ordered)
    as (start & now0 & Hs & _); [done | done | exact Hr | exact Hc |]. by exists w, start, now0.
Defined.

(** Two syncs of the caller's accounts: one transaction inserts messages 1 and 3,
    another, begun half a second later, inserts message 2 between them. *)
Definition interleaved : list posted :=
  [posted_at 1 0 1000000; posted_at 2 500000 700000; posted_at 3 0 1000000].

(** The horizon compares [date_received], the start of a transaction, not the
    order of ids: with every transaction shorter than a fifth of the horizon, a
    client polling when the older of two interleaved transactions has passed it
    and the younger has not is moved past the younger's message and is never
    given it, though a client that polled a moment later is. *)
Lemma interleaved_insert_is_skipped :
  (forall a, a ∈ interleaved -> po_commit a <= st_received (po_row a) + 1000000) /\
  (forall times out, tail names cfg5 1 [10] interleaved (5200000 :: times) (lit "0") = Ok out ->
     lit "2" ∉ ch_message_id <$> out.1) /\
  (exists out, tail names cfg5 1 [10] interleaved [5600000] (lit "0") = Ok out /\ lit "2" ∈ ch_message_id <$> out.1).
Proof.
  assert (Hk : keys_ok interleaved).
  { split; [by apply (bool_decide_unpack _); vm_compute |]. intros a Ha.
    repeat (apply elem_of_cons in Ha as [-> | Ha]; [by vm_compute |]). by apply elem_of_nil in Ha. }
  split_and!.
  - intros a Ha. repeat (apply elem_of_cons in Ha as [-> | Ha]; [by vm_compute |]). by apply elem_of_nil in Ha.
  - intros times out. change (lit "0") with (str_int 0). rewrite tail_exact by done. intros Hout.
    assert (out.1 = to_change names ∘ st_message <$> (page cfg5 [10] interleaved 5200000 0 ++
      (tail_rows cfg5 [10] interleaved times (next cfg5 [10] interleaved 5200000 0)).1)) as -> by by injection Hout as <-.
    assert (Hp : page cfg5 [10] interleaved 5200000 0 = [row 1 0; row 3 0]) by by vm_compute.
    assert (Hn : next cfg5 [10] interleaved 5200000 0 = 3) by by vm_compute.
    rewrite Hp, Hn, fmap_app, fmap_app. intros [Hin | Hin]%elem_of_app.
    + revert Hin. by apply (bool_decide_unpack _); vm_compute.
    + rewrite <- list_fmap_compose in Hin. apply list_elem_of_fmap in Hin as (r & Heq & Hr).
      destruct (tail_rows_range cfg5 [10] interleaved times 3 Hk ltac:(done)) as [_ Hrange].
      destruct (Hrange r Hr) as [Hid (a & -> & [Ha _])]. destruct Hk as [_ Hpos]. specialize (Hpos a Ha).
      cbn [compose to_change ch_message_id] in Heq. apply (f_equal py_int) in Heq.
      rewrite py_int_str_int in Heq by (unfold is_bigserial; unfold po_id in Hpos; lia).
      change (py_int (lit "2")) with (Some 2) in Heq. injection Heq as Heq. lia.
  - eexists. split; [by vm_compute |]. by apply (bool_decide_unpack _); vm_compute.
Qed.
End Example_changes.
