(* ===== verification/HeaderBlock.v ===== *)
(** * One message's header block ([header_block.py], [pgtext.py])

    Finding the block in a bounded prefix, reading its occurrences, and the two
    shapes the api serves.  Python's email parser is the interface [EmailPolicy]:
    what [raw_items] holds, and what parsing one header value answers or raises. *)
From S2P Require Import Prelude PyStr Base64 Errors Query Utf8 Odict.

Module Pgtext.
Definition strip_nuls (s : pystr) : pystr := filter (fun c => c <> 0) s.
Definition replace_surrogates (s : pystr) : pystr :=
  (fun c => if Query.is_surrogate c then REPLACEMENT else c) <$> s.
End Pgtext.
Import Pgtext.

Class EmailPolicy := {
  raw_items : bytes -> list (pystr * pystr);                     (* message_from_bytes(block).raw_items() *)
  header_fetch_parse : pystr -> pystr -> option pystr;           (* [None]: it raises *)
}.

Module Header_block.
Inductive header_mode := HCompact | HFull | HList.
Definition HEADER_MODES : list (pystr * header_mode) :=
  [(lit "compact", HCompact); (lit "full", HFull); (lit "list", HList)].
(** [header_mode_error]: a mode, or the refusal of anything else. *)
Definition parse_header_mode (value : pystr) : res exn header_mode :=
  match od_get value HEADER_MODES with Some m => Ok m | None => Err ValidationFailed end.

Definition HEADER_BLOCK_READ_BYTES : Z := 64 * 1024.
Definition PREFIX_READ_BYTES : Z := HEADER_BLOCK_READ_BYTES + 1.
Definition prefix_is_truncated (prefix : bytes) : bool :=
  HEADER_BLOCK_READ_BYTES <? Z.of_nat (length prefix).

(** [_SEPARATORS]: the pattern, and how much of it ends the last header line. *)
Definition SEPARATORS : list (bytes * nat) := [([13; 10; 13; 10], 2%nat); ([10; 10], 1%nat)].

(** [min] of pairs of integers. *)
Definition pair_min (a b : nat * nat) : nat * nat :=
  if (b.1 <? a.1)%nat || ((b.1 =? a.1)%nat && (b.2 <? a.2)%nat) then b else a.

Definition up_to_separator (data : bytes) : option bytes :=
  match omap (fun s => (fun idx => (idx, s.2)) <$> find_sub s.1 data) SEPARATORS with
  | [] => None
  | m :: ms => let '(min_idx, ending_len) := foldl pair_min m ms in Some (take (min_idx + ending_len) data)
  end.

Definition header_block (data : bytes) (truncated : bool) : option bytes :=
  match up_to_separator data with
  | Some found => Some found
  | None => if truncated then None else Some data
  end.
Definition header_block_of_whole (data : bytes) : bytes := default data (up_to_separator data).

Record HeaderEntry := MkHeader { he_name : pystr; he_value : pystr }.

(** [encode("utf-8", "surrogateescape")]: U+DC80 to U+DCFF stand for the bytes
    0x80 to 0xFF; another surrogate raises. *)
Definition surrogateescape_char (c : Z) : res exn bytes :=
  if in_range 56448 56575 c then Ok [c - 56320] else utf8_char c.
Fixpoint utf8_surrogateescape (s : pystr) : res exn bytes :=
  match s with
  | [] => Ok []
  | c :: s =>
      let* b := surrogateescape_char c in
      let* bs := utf8_surrogateescape s in
      Ok (b ++ bs)
  end.
Definition decode_raw (raw_value : pystr) : pystr :=
  match utf8_surrogateescape raw_value with Ok bs => utf8_replace bs | Err _ => raw_value end.

Section entries.
Context `{EmailPolicy}.
Definition header_entry (item : pystr * pystr) : HeaderEntry :=
  let value := default (decode_raw item.2) (header_fetch_parse item.1 item.2) in
  MkHeader item.1 (strip_nuls (replace_surrogates value)).
Definition entries_from_message (items : list (pystr * pystr)) : list HeaderEntry := header_entry <$> items.
Definition parse_header_block (block : bytes) : list HeaderEntry := entries_from_message (raw_items block).
End entries.

Definition group_entries (entries : list HeaderEntry) : list (pystr * list pystr) :=
  foldl (fun out e => od_set (he_name e) (default [] (od_get (he_name e) out) ++ [he_value e]) out) [] entries.

(** ** The block of a prefix *)

Lemma find_sub_prefix sub s n i :
  find_sub sub (take n s) = Some i -> find_sub sub s = Some i /\ (i + length sub <= n)%nat.
Proof.
  revert s i. induction n as [| n IH]; intros s i; cbn [take].
  { destruct sub; cbn; [intros [= <-]; by destruct s | done]. }
  destruct s as [| c s]; cbn [take find_sub].
  { destruct sub; cbn; [intros [= <-]; split; [done | lia] | done]. }
  assert (Hst : startswith (c :: take n s) sub = true ->
    startswith (c :: s) sub = true /\ (length sub <= S n)%nat).
  { intros [r Hr]%startswith_true. change (c :: take n s) with (take (S n) (c :: s)) in Hr.
    pose proof (f_equal length Hr) as Hl. rewrite length_app, length_take in Hl. split; [| lia].
    apply startswith_true. exists (r ++ drop (S n) (c :: s)).
    by rewrite app_assoc, <- Hr, take_drop. }
  destruct (startswith (c :: take n s) sub) eqn:E.
  - intros [= <-]. destruct (Hst eq_refl) as [-> ?]. split; [done | lia].
  - destruct (find_sub sub (take n s)) as [j |] eqn:Ej; [| done]. intros [= <-].
    destruct (IH _ _ Ej) as [Hj ?]. rewrite Hj. split; [| lia].
    destruct (startswith (c :: s) sub) eqn:E'; [| done]. exfalso.
    apply startswith_true in E' as [r Hr].
    assert (startswith (c :: take n s) sub = true); [| congruence].
    apply startswith_true. exists (take (S n - length sub) r).
    change (c :: take n s) with (take (S n) (c :: s)). rewrite Hr, take_app.
    f_equal. apply take_ge. lia.
Qed.

Lemma find_sub_at sub s i : find_sub sub s = Some i -> exists a b, s = a ++ sub ++ b /\ length a = i.
Proof.
  revert i. induction s as [| c s IH]; intros i; cbn [find_sub].
  - destruct (startswith [] sub) eqn:E; [| done]. intros [= <-].
    apply startswith_true in E as [r ->]. by exists [], r.
  - destruct (startswith (c :: s) sub) eqn:E.
    + intros [= <-]. apply startswith_true in E as [r ->]. by exists [], r.
    + destruct (find_sub sub s) as [j |]; [| done]. intros [= <-].
      destruct (IH j eq_refl) as (a & b & -> & <-). by exists (c :: a), b.
Qed.
Lemma find_sub_first sub s i a b : find_sub sub s = Some i -> s = a ++ sub ++ b -> (i <= length a)%nat.
Proof.
  revert i a. induction s as [| c s IH]; intros i a; cbn [find_sub].
  - destruct (startswith [] sub); [intros [= <-]; lia | done].
  - destruct (startswith (c :: s) sub) eqn:E; [intros [= <-]; lia |].
    destruct (find_sub sub s) as [j |]; [| done]. intros [= <-] Hs.
    destruct a as [| x a]; cbn in Hs |- *.
    + exfalso. assert (startswith (c :: s) sub = true); [| congruence].
      apply startswith_true. by exists b.
    + injection Hs as _ Hs. specialize (IH j a eq_refl Hs). lia.
Qed.
Lemma find_sub_none sub s a b : find_sub sub s = None -> s <> a ++ sub ++ b.
Proof.
  revert a. induction s as [| c s IH]; intros a; cbn [find_sub].
  - destruct (startswith [] sub) eqn:E; [done |]. intros _ Hs. destruct a; [| done].
    assert (startswith [] sub = true); [| congruence]. apply startswith_true. by exists b.
  - destruct (startswith (c :: s) sub) eqn:E; [done |]. destruct (find_sub sub s); [done |].
    intros _ Hs. destruct a as [| x a].
    + assert (startswith (c :: s) sub = true); [| congruence]. apply startswith_true. by exists b.
    + injection Hs as _ Hs. by eapply IH.
Qed.

Lemma find_sub_take sub s n i :
  find_sub sub s = Some i -> (i + length sub <= n)%nat -> find_sub sub (take n s) = Some i.
Proof.
  intros Hi Hn. pose proof (find_sub_at _ _ _ Hi) as (a & b & -> & <-).
  assert (Hs : take n (a ++ sub ++ b) = a ++ sub ++ take (n - length a - length sub) b).
  { rewrite !take_app. rewrite (take_ge a), (take_ge sub) by lia. done. }
  destruct (find_sub sub (take n (a ++ sub ++ b))) as [j |] eqn:Ej.
  - destruct (find_sub_prefix _ _ _ _ Ej) as [Hj _]. congruence.
  - exfalso. by eapply find_sub_none.
Qed.

Lemma up_to_separator_cases data :
  up_to_separator data =
  match find_sub [13; 10; 13; 10] data, find_sub [10; 10] data with
  | Some i, Some j => Some (take (if (j <=? i)%nat then j + 1 else i + 2) data)
  | Some i, None => Some (take (i + 2) data)
  | None, Some j => Some (take (j + 1) data)
  | None, None => None
  end.
Proof.
  unfold up_to_separator, SEPARATORS. cbn [omap list_omap fst snd].
  destruct (find_sub [13; 10; 13; 10] data) as [i |], (find_sub [10; 10] data) as [j |]; cbn; try done.
  unfold pair_min. cbn [fst snd]. rewrite andb_true_r.
  destruct (Nat.leb_spec j i), (Nat.ltb_spec j i), (Nat.eqb_spec j i); cbn; done || lia.
Qed.

(** A blank line of one spelling does not start inside the first byte of the
    other, so the earliest one in a prefix is the earliest one of all. *)
Lemma separators_apart data i j :
  find_sub [13; 10; 13; 10] data = Some i -> find_sub [10; 10] data = Some j -> j <> i /\ j <> S i.
Proof.
  intros (a & b & -> & <-)%find_sub_at (c & d & Hs & <-)%find_sub_at.
  assert (Hl : forall k x, [10; 10] !! k = Some x ->
    (a ++ [13; 10; 13; 10] ++ b) !! (length c + k)%nat = Some x).
  { intros k x Hk. rewrite Hs, lookup_app_r by lia. rewrite Nat.add_comm, Nat.add_sub.
    by apply lookup_app_l_Some. }
  split; intros Hc.
  - specialize (Hl 0%nat 10 eq_refl). rewrite Hc, lookup_app_r, Nat.add_comm, Nat.add_sub in Hl by lia. done.
  - specialize (Hl 1%nat 10 eq_refl). rewrite Hc, lookup_app_r in Hl by lia.
    by replace (S (length a) + 1 - length a)%nat with 2%nat in Hl by lia.
Qed.

Lemma up_to_separator_prefix n data b : up_to_separator (take n data) = Some b -> up_to_separator data = Some b.
Proof.
  rewrite !up_to_separator_cases.
  destruct (find_sub [13; 10; 13; 10] (take n data)) as [i |] eqn:Ei,
           (find_sub [10; 10] (take n data)) as [j |] eqn:Ej; [| | | done].
  - apply find_sub_prefix in Ei as [-> Hi], Ej as [-> Hj]. cbn in Hi, Hj. rewrite take_take.
    intros [= <-]. do 2 f_equal. case_match; lia.
  - apply find_sub_prefix in Ei as [-> Hi]. cbn in Hi. rewrite take_take, Nat.min_l by lia.
    intros [= <-]. destruct (find_sub [10; 10] data) as [j |] eqn:Hj; [| done].
    destruct (Nat.leb_spec j i); [| done].
    rewrite (find_sub_take _ _ n _ Hj) in Ej by (cbn; lia). done.
  - apply find_sub_prefix in Ej as [Hj Hn]. cbn in Hn. rewrite Hj, take_take, Nat.min_l by lia.
    intros [= <-]. destruct (find_sub [13; 10; 13; 10] data) as [i |] eqn:Hi; [| done].
    destruct (Nat.leb_spec j i); [done |]. destruct (separators_apart _ _ _ Hi Hj).
    rewrite (find_sub_take _ _ n _ Hi) in Ei by (cbn; lia). done.
Qed.

(** What a bounded read finds is what the whole message has. *)
Lemma header_block_prefix raw b :
  let prefix := take (Z.to_nat PREFIX_READ_BYTES) raw in
  header_block prefix (prefix_is_truncated prefix) = Some b -> b = header_block_of_whole raw.
Proof.
  cbn zeta. unfold header_block, header_block_of_whole.
  set (n := Z.to_nat PREFIX_READ_BYTES).
  destruct (up_to_separator (take n raw)) as [x |] eqn:E.
  - intros [= <-]. by rewrite (up_to_separator_prefix _ _ _ E).
  - destruct (prefix_is_truncated _) eqn:Et; [done |]. intros [= <-].
    unfold prefix_is_truncated in Et. apply Z.ltb_ge in Et. rewrite length_take in Et.
    assert (take n raw = raw) as Hr.
    { apply take_ge. unfold n, PREFIX_READ_BYTES, HEADER_BLOCK_READ_BYTES in *. lia. }
    rewrite Hr in E |- *. by rewrite E.
Qed.

(** ** The values *)

Lemma strip_replace_storable v : Query.storable (strip_nuls (replace_surrogates v)) = true.
Proof.
  unfold Query.storable. apply andb_true_iff. rewrite !negb_true_iff. split.
  - apply contains_false. unfold strip_nuls. intros [Hc _]%list_elem_of_filter. done.
  - apply not_true_iff_false. rewrite existsb_exists. intros (c & Hc & Hs).
    apply list_elem_of_In in Hc. unfold strip_nuls in Hc. apply list_elem_of_filter in Hc as [_ Hc].
    apply list_elem_of_fmap in Hc as (x & -> & _).
    destruct (Query.is_surrogate x) eqn:E; [done | congruence].
Qed.

(** The escaped bytes of well-formed UTF-8 come back as the text. *)
Definition escape_byte (b : Z) : Z := if b <? 128 then b else 56320 + b.
Lemma surrogateescape_bytes bs : Forall (fun b => 0 <= b < 256) bs -> utf8_surrogateescape (escape_byte <$> bs) = Ok bs.
Proof.
  induction 1 as [| b bs Hb _ IH]; [done |]. cbn [fmap list_fmap utf8_surrogateescape].
  rewrite IH. unfold surrogateescape_char, escape_byte. destruct (Z.ltb_spec b 128).
  - rewrite in_range_false by lia. unfold utf8_char.
    assert (Query.is_surrogate b = false) as ->.
    { unfold Query.is_surrogate. rewrite andb_false_iff, !Z.leb_gt. lia. }
    by rewrite (proj2 (Z.ltb_lt _ _)) by done.
  - rewrite in_range_true by lia. by replace (56320 + b - 56320) with b by lia.
Qed.
Lemma decode_raw_utf8 s bss :
  Forall code_point s -> mapM (fun c => match utf8_char c with Ok b => Some b | Err _ => None end) s = Some bss ->
  decode_raw (escape_byte <$> concat bss) = s.
Proof.
  intros Hs Hm. unfold decode_raw. rewrite surrogateescape_bytes.
  - apply mapM_Some in Hm. revert Hs. induction Hm as [| c b s bss Hc Hm IH]; [done |].
    intros [Hcp Hs]%Forall_cons. cbn [concat]. destruct (utf8_char c) as [b' |] eqn:E; [| done].
    injection Hc as ->. by rewrite (utf8_replace_char c b), IH.
  - apply Forall_concat. apply mapM_Some in Hm. apply Forall_forall. intros b Hb.
    apply list_elem_of_lookup in Hb as [k Hk].
    destruct (Forall2_lookup_r _ _ _ _ _ Hm Hk) as (c & Hck & Hc).
    destruct (utf8_char c) as [b' |] eqn:E; [| done]. injection Hc as ->.
    eapply utf8_bytes; [| exact E]. rewrite Forall_lookup in Hs. by eapply Hs.
Qed.

(** [headers=full] is the grouping of [headers=list]: under each name, its
    values in order; no name twice, and no name without an occurrence. *)
Lemma group_entries_exact entries name :
  NoDup (group_entries entries).*1 /\
  od_get name (group_entries entries) =
    match he_value <$> filter (fun e => he_name e = name) entries with [] => None | vs => Some vs end.
Proof.
  unfold group_entries. induction entries as [| e es [Hn IH]] using rev_ind; [by split; [constructor |] |].
  rewrite foldl_snoc, filter_app, fmap_app. split; [by apply od_set_nodup |].
  rewrite od_get_set. destruct (decide (he_name e = name)) as [Heq | Hne].
  - rewrite filter_cons_True by done. rewrite Heq, IH. by destruct (he_value <$> filter _ es).
  - rewrite filter_cons_False by done. cbn. by rewrite app_nil_r.
Qed.
End Header_block.
