(* ===== verification/MailStore.v ===== *)
(** * The archive's tables

    The rows of [accounts], [mailboxes], [messages], [message_labels],
    [failed_messages] and [transient_fetches] that the sync engine reads and
    writes, with the unique indexes of [migrations/0001_init.sql],
    [0003_failed_messages.sql] and [0033_transient_fetches.sql].  Timestamps
    are microseconds. *)
From S2P Require Import Prelude PyStr.

Definition bytes := list Z.

(** An exception a statement or the server can raise: the classes of
    [db.DB_CONTENTION_ERRORS] on one side, everything else on the other. *)
Inductive fault :=
  | Contention
  | OtherError (error_class : pystr).
#[export] Instance fault_eq_dec : EqDecision fault.
Proof. solve_decision. Defined.

(** [parser.Attachment] and [parser.ParsedMessage]. *)
Record attachment := Attachment {
  att_filename : pystr;
  att_content_type : pystr;
  att_payload : bytes;
  att_content_id : option pystr;
}.
Record ParsedMessage := PM {
  pm_message_id : option pystr;
  pm_raw_sha256 : bytes;
  pm_in_reply_to : option pystr;
  pm_refs : list pystr;
  pm_subject : option pystr;
  pm_from_addr : option pystr;
  pm_from_name : option pystr;
  pm_to_addrs : list pystr;
  pm_cc_addrs : list pystr;
  pm_bcc_addrs : list pystr;
  pm_date_sent : option Z;
  pm_headers : list (pystr * list pystr);
  pm_body_text : option pystr;
  pm_body_html : option pystr;
  pm_raw_bytes : bytes;
  pm_size_bytes : Z;
  pm_attachments : list attachment;
}.

Record account_row := AccountRow { ac_name : pystr; ac_auth_method : pystr }.

Record mailbox_row := MailboxDbRow {
  mb_account : Z;
  mb_name : pystr;
  mb_delimiter : option pystr;
  mb_flags : list pystr;
  mb_uidvalidity : option Z;
  mb_uidnext : option Z;
  mb_last_sync_at : option Z;
}.

(** A [messages] row: the columns the INSERT copies from the parsed message
    are kept together, and the [attachments] JSON index beside them. *)
Record message_row := MessageRow {
  mr_account : Z;
  mr_parsed : ParsedMessage;
  mr_internal_date : option Z;
  mr_attachments : list pystr;
}.
Definition mr_message_id (r : message_row) : option pystr := pm_message_id (mr_parsed r).
Definition mr_raw_sha256 (r : message_row) : bytes := pm_raw_sha256 (mr_parsed r).

Record label_row := LabelRow { l_uid : Z; l_flags : list pystr }.

Record failed_row := FailedRow {
  f_id : Z;
  f_raw_bytes : bytes;
  f_raw_sha256 : bytes;
  f_error_class : pystr;
  f_failed_at : Z;
  f_retry_count : Z;
  f_last_retry_at : option Z;
}.

Record hold_row := HoldRow {
  h_attempt_count : Z;
  h_first_seen_at : Z;
  h_last_seen_at : Z;
  h_gave_up_at : option Z;
}.

(** [failed_messages] is keyed by its unique index [(account_id, mailbox_id,
    uid)], [message_labels] and [transient_fetches] by their primary keys
    [(message_id, mailbox_id)] and [(mailbox_id, uid)]. *)
Record store := Store {
  accounts : gmap Z account_row;
  mailboxes : gmap Z mailbox_row;
  messages : gmap Z message_row;
  message_labels : gmap (Z * Z) label_row;
  failed_messages : gmap (Z * Z * Z) failed_row;
  transient_fetches : gmap (Z * Z) hold_row;
}.

Definition set_mailboxes (f : gmap Z mailbox_row -> gmap Z mailbox_row) (d : store) : store :=
  Store (accounts d) (f (mailboxes d)) (messages d) (message_labels d)
    (failed_messages d) (transient_fetches d).
Definition set_messages (m : gmap Z message_row) (d : store) : store :=
  Store (accounts d) (mailboxes d) m (message_labels d) (failed_messages d)
    (transient_fetches d).
Definition set_labels (l : gmap (Z * Z) label_row) (d : store) : store :=
  Store (accounts d) (mailboxes d) (messages d) l (failed_messages d)
    (transient_fetches d).
Definition set_failed (f : gmap (Z * Z * Z) failed_row) (d : store) : store :=
  Store (accounts d) (mailboxes d) (messages d) (message_labels d) f
    (transient_fetches d).
Definition set_holds (t : gmap (Z * Z) hold_row) (d : store) : store :=
  Store (accounts d) (mailboxes d) (messages d) (message_labels d)
    (failed_messages d) t.

(** ** The dedup key of [messages]

    [messages_acct_msgid_uniq] on [(account_id, message_id)] where the
    Message-Id is present, [messages_acct_rawsha_uniq] on [(account_id,
    raw_sha256)] where it is absent. *)
Definition dedup_match (account_id : Z) (message_id : option pystr) (raw_sha256 : bytes)
    (r : message_row) : Prop :=
  mr_account r = account_id /\
  match message_id with
  | Some m => mr_message_id r = Some m
  | None => mr_message_id r = None /\ mr_raw_sha256 r = raw_sha256
  end.
#[global] Instance dedup_match_dec a m s r : Decision (dedup_match a m s r).
Proof. unfold dedup_match. destruct m; apply _. Defined.

Definition same_key (r1 r2 : message_row) : Prop :=
  dedup_match (mr_account r1) (mr_message_id r1) (mr_raw_sha256 r1) r2.

Definition messages_unique (ms : gmap Z message_row) : Prop :=
  forall i j r1 r2, ms !! i = Some r1 -> ms !! j = Some r2 -> same_key r1 r2 -> i = j.

(** [message_labels]'s [UNIQUE (mailbox_id, uid)]. *)
Definition labels_unique (ls : gmap (Z * Z) label_row) : Prop :=
  forall m1 m2 mb l1 l2, ls !! (m1, mb) = Some l1 -> ls !! (m2, mb) = Some l2 ->
    l_uid l1 = l_uid l2 -> m1 = m2.

(** ** The first key whose row satisfies a decidable condition *)
Section find_key.
Context `{Countable K} {V : Type} (P : K -> V -> Prop) `{!forall k v, Decision (P k v)}.

Definition find_key (m : gmap K V) : option K :=
  match filter (fun kv => P kv.1 kv.2) (map_to_list m) with
  | kv :: _ => Some kv.1
  | [] => None
  end.

Lemma find_key_some m k : find_key m = Some k -> exists v, m !! k = Some v /\ P k v.
Proof.
  unfold find_key. destruct (filter _ _) as [| [k' v] l] eqn:E; [done |].
  intros [= <-]. exists v.
  assert (Hin : (k', v) ∈ filter (fun kv => P kv.1 kv.2) (map_to_list m)) by (rewrite E; set_solver).
  apply list_elem_of_filter in Hin as [HP Hin]. by apply elem_of_map_to_list in Hin.
Qed.

Lemma find_key_none m : find_key m = None <-> forall k v, m !! k = Some v -> ~ P k v.
Proof.
  unfold find_key. split.
  - destruct (filter _ _) eqn:E; [| done]. intros _ k v Hkv HP.
    assert (Hin : (k, v) ∈ filter (fun kv => P kv.1 kv.2) (map_to_list m)).
    { apply list_elem_of_filter. split; [done |]. by apply elem_of_map_to_list. }
    rewrite E in Hin. by apply not_elem_of_nil in Hin.
  - intros HP. rewrite filter_none; [done |]. apply Forall_forall.
    intros [k v] Hin%elem_of_map_to_list. by apply HP.
Qed.

End find_key.

(** ** UID numbering ([uids.py]) *)

(** Python's [x or d] on an [int | None]: [None] and [0] are both falsy. *)
Definition py_or (x : option Z) (d : Z) : Z :=
  match x with Some n => if n =? 0 then d else n | None => d end.

Module Uids.
Definition ARCHIVE_AUTH_METHOD : pystr := lit "archive".

Definition next_uid_after (max_uid : option Z) : Z := py_or max_uid 0 + 1.

Definition should_reallocate_uid (auth_method : pystr) : bool :=
  bool_decide (auth_method = ARCHIVE_AUTH_METHOD).

Definition checkpoint_uidnext (highest_seen : Z) (hold_at : option Z) : Z :=
  let resume := highest_seen + 1 in
  match hold_at with None => resume | Some h => Z.min resume h end.

(** [COALESCE(MAX(uid), 0)] over a list of UIDs. *)
Definition coalesce_max (uids : list Z) : Z :=
  match uids with [] => 0 | u :: us => foldr Z.max u us end.

Definition label_uids (d : store) (mailbox_id : Z) : list Z :=
  omap (fun '((_, mb), l) => if mb =? mailbox_id then Some (l_uid l) else None)
    (map_to_list (message_labels d)).
Definition failed_uids (d : store) (account_id mailbox_id : Z) : list Z :=
  omap (fun '((a, mb, uid), _) =>
      if (a =? account_id) && (mb =? mailbox_id) then Some uid else None)
    (map_to_list (failed_messages d)).

Definition max_label_uid (d : store) (mailbox_id : Z) : Z :=
  coalesce_max (label_uids d mailbox_id).
Definition max_reserved_uid (d : store) (account_id mailbox_id : Z) : Z :=
  Z.max (max_label_uid d mailbox_id) (coalesce_max (failed_uids d account_id mailbox_id)).

Lemma coalesce_max_ge uids u : u ∈ uids -> u <= coalesce_max uids.
Proof.
  destruct uids as [| v uids]; [by intros ?%not_elem_of_nil |]. cbn.
  induction uids as [| w uids IH]; cbn.
  - intros ?%list_elem_of_singleton. lia.
  - intros [-> | [-> | Hu]%elem_of_cons]%elem_of_cons; [| lia |].
    + pose proof (IH ltac:(set_solver)). lia.
    + pose proof (IH ltac:(set_solver)). lia.
Qed.

Lemma label_uid_le_max d mid mb l :
  message_labels d !! (mid, mb) = Some l -> l_uid l <= max_label_uid d mb.
Proof.
  intros Hl. apply coalesce_max_ge. unfold label_uids. apply list_elem_of_omap.
  exists ((mid, mb), l). split; [by apply elem_of_map_to_list |].
  by rewrite Z.eqb_refl.
Qed.

Lemma failed_uid_le_max d acct mb uid f :
  failed_messages d !! (acct, mb, uid) = Some f -> uid <= max_reserved_uid d acct mb.
Proof.
  intros Hf. unfold max_reserved_uid. etrans; [| apply Z.le_max_r].
  apply coalesce_max_ge. unfold failed_uids. apply list_elem_of_omap.
  exists ((acct, mb, uid), f). split; [by apply elem_of_map_to_list |].
  by rewrite !Z.eqb_refl.
Qed.

Lemma checkpoint_le highest hold :
  checkpoint_uidnext highest hold <= highest + 1 /\
  (forall h, hold = Some h -> checkpoint_uidnext highest hold <= h).
Proof. unfold checkpoint_uidnext. destruct hold; split; intros; simplify_eq; lia. Qed.

(** A UID the importer allocates, one past [max_reserved_uid], is held by
    no label of the mailbox and by no poison-pill row of the account, so
    neither [UNIQUE (mailbox_id, uid)] nor the pill upsert can collide. *)
Lemma allocated_uid_fresh d account_id mailbox_id :
  let uid := next_uid_after (Some (max_reserved_uid d account_id mailbox_id)) in
  (forall mid l, message_labels d !! (mid, mailbox_id) = Some l -> l_uid l < uid) /\
  (forall u f, failed_messages d !! (account_id, mailbox_id, u) = Some f -> u < uid).
Proof.
  cbv zeta. unfold next_uid_after, py_or. split.
  - intros mid l Hl%label_uid_le_max. unfold max_reserved_uid in *.
    case_ifs; zb.
  - intros u f Hf%failed_uid_le_max. case_ifs; zb.
Qed.
End Uids.
