(* ===== verification/HttpBlob.v ===== *)
(** * Serving attachment blobs ([api/range_requests.py], [api/conditional.py],
    [serve/routes/blob_response.py])

    Byte ranges, conditional requests and the streamed response.  A file is its
    bytes and the position, if any, from which reading it raises [OSError]; a
    generator is the list of chunks it yields and how it ended. *)
From S2P Require Import Prelude PyStr MailStore Errors Query Utf8.

Definition DASH : Z := 45.
Definition COMMA : Z := 44.
Definition DQUOTE : Z := 34.

Module Range_requests.
Definition RANGE_PREFIX : pystr := lit "bytes=".

Record ByteRange := MkRange { br_start : Z; br_end : Z }.
Definition br_length (r : ByteRange) : Z := br_end r - br_start r + 1.

(** What a parser below raises. *)
Inductive range_error := UnsatisfiableRange | RangeValueError.

Definition int_ (s : pystr) : res range_error Z :=
  match py_int s with Some n => Ok n | None => Err RangeValueError end.

Definition suffix_range (end_str : pystr) (total_size : Z) : res range_error ByteRange :=
  let* suffix := int_ end_str in
  if suffix <=? 0 then Err UnsatisfiableRange
  else Ok (MkRange (Z.max 0 (total_size - suffix)) (total_size - 1)).

Definition open_ended_range (start_str : pystr) (total_size : Z) : res range_error ByteRange :=
  let* start := int_ start_str in
  if start <? 0 then Err RangeValueError
  else if total_size <=? start then Err UnsatisfiableRange
  else Ok (MkRange start (total_size - 1)).

Definition closed_range (start_str end_str : pystr) (total_size : Z) : res range_error ByteRange :=
  let* start := int_ start_str in
  let* stop := int_ end_str in
  if (start <? 0) || (stop <? 0) || (stop <? start) then Err RangeValueError
  else if total_size <=? start then Err UnsatisfiableRange
  else Ok (MkRange start (Z.min stop (total_size - 1))).

(** [try: ... except ValueError: return None] *)
Definition ignore_value_error (r : res range_error ByteRange) : res range_error (option ByteRange) :=
  match r with
  | Ok br => Ok (Some br)
  | Err RangeValueError => Ok None
  | Err UnsatisfiableRange => Err UnsatisfiableRange
  end.

Definition parse_byte_range (header : option pystr) (total_size : Z) :
    res range_error (option ByteRange) :=
  match header with
  | None => Ok None
  | Some header =>
      if negb (startswith header RANGE_PREFIX) then Ok None
      else
        let spec := strip (drop (length RANGE_PREFIX) header) in
        match spec with
        | [] => Ok None
        | _ =>
            if contains COMMA spec || negb (contains DASH spec) then Ok None
            else
              let '(a, b) := partition_at DASH spec in
              let start_str := strip a in
              let end_str := strip (default [] b) in
              match start_str, end_str with
              | [], [] => Ok None
              | _, _ =>
                  if total_size <=? 0 then Err UnsatisfiableRange
                  else ignore_value_error
                    match start_str, end_str with
                    | [], _ => suffix_range end_str total_size
                    | _, [] => open_ended_range start_str total_size
                    | _, _ => closed_range start_str end_str total_size
                    end
              end
        end
  end.

Definition content_range_header (r : ByteRange) (total_size : Z) : pystr :=
  lit "bytes " ++ str_int (br_start r) ++ lit "-" ++ str_int (br_end r) ++ lit "/" ++ str_int total_size.
Definition unsatisfiable_content_range (total_size : Z) : pystr :=
  lit "bytes */" ++ str_int total_size.
End Range_requests.
Import Range_requests.

Module Conditional.
Definition WEAK_PREFIX : pystr := lit "W/".
Definition etag_for_sha256 (sha256_hex : pystr) : pystr := [DQUOTE] ++ sha256_hex ++ [DQUOTE].
Definition strip_weak (token : pystr) : pystr :=
  if startswith token WEAK_PREFIX then drop (length WEAK_PREFIX) token else token.
Definition split_etag_list (header : pystr) : list pystr :=
  filter (fun t => t <> []) (strip <$> split_on COMMA header).
Definition if_none_match_satisfies (header : option pystr) (etag : pystr) : bool :=
  match header with
  | None | Some [] => false
  | Some h => existsb (fun t => str_eqb t (lit "*") || str_eqb (strip_weak t) (strip_weak etag))
                (split_etag_list h)
  end.
Definition if_range_allows_partial (header : option pystr) (etag : pystr) : bool :=
  match header with
  | None => true
  | Some h =>
      let candidate := strip h in
      if negb (startswith candidate [DQUOTE]) then false else str_eqb candidate etag
  end.
End Conditional.
Import Conditional.

Module Blob_response.
Section blob.
Context `{PyUnicode}.

(** ** Header values *)

Definition QUOTED_STRING_UNSAFE : pystr := [34; 92; 13; 10; 59; 44].
Definition ascii_fallback_char (c : Z) : Z :=
  if (c <? 32) || (126 <? c) || contains c QUOTED_STRING_UNSAFE then 95 else c.
Definition ascii_fallback_name (name : pystr) : pystr :=
  match strip (ascii_fallback_char <$> name) with [] => lit "attachment" | s => s end.

(** [urllib.parse.quote(name, safe='')]: the UTF-8 bytes, percent-encoded
    unless unreserved; a lone surrogate is a [UnicodeEncodeError]. *)
Definition unreserved (b : Z) : bool :=
  is_digit_char b || ((65 <=? b) && (b <=? 90)) || ((97 <=? b) && (b <=? 122)) || contains b (lit "_.-~").
Definition hex_digit (n : Z) : Z := if n <? 10 then 48 + n else 55 + n.
Definition quote_byte (b : Z) : pystr :=
  if unreserved b then [b] else [37; hex_digit (b / 16); hex_digit (b mod 16)].
Fixpoint quote (name : pystr) : res exn pystr :=
  match name with
  | [] => Ok []
  | c :: name =>
      let* bs := utf8_char c in
      let* rest := quote name in
      Ok (concat (quote_byte <$> bs) ++ rest)
  end.

Definition content_disposition (name : pystr) : res exn pystr :=
  let* encoded := quote name in
  Ok (lit "attachment; filename=" ++ [34] ++ ascii_fallback_name name ++ [34] ++
      lit "; filename*=UTF-8''" ++ encoded).

Definition INLINE_RISKY_MIMES : list pystr :=
  [lit "text/html"; lit "application/xhtml+xml"; lit "image/svg+xml"; lit "text/xml"; lit "application/xml"].
Definition SAFE_FALLBACK_MIME : pystr := lit "application/octet-stream".
Definition safe_response_mime (stored : option pystr) : pystr :=
  match stored with
  | None | Some [] => SAFE_FALLBACK_MIME
  | Some m => if bool_decide (lower m ∈ INLINE_RISKY_MIMES) then SAFE_FALLBACK_MIME else m
  end.
Definition fallback_filename (sha256_hex : pystr) : pystr :=
  lit "attachment-" ++ take 16 sha256_hex ++ lit ".bin".

(** ** Streaming *)

Definition CHUNK : nat := 64 * 1024.
Record file := File { f_bytes : bytes; f_fails_at : option nat }.
(** [fp.read(n)] at [pos]; [None] is an [OSError]. *)
Definition read (f : file) (pos n : nat) : option bytes :=
  match f_fails_at f with
  | Some k => if (k <=? pos)%nat then None else Some (take (min n (k - pos)) (drop pos (f_bytes f)))
  | None => Some (take n (drop pos (f_bytes f)))
  end.

Inductive log_line :=
  | Truncated (expected sent : nat)
  | ReadFailed (sent : nat)
  | Overran (expected : nat)
  | ProbeFailed.
(** What a generator yielded, what it logged, whether it raised, and whether
    [fp] is closed when it ends. *)
Record stream := Stream {
  s_chunks : list bytes; s_log : list log_line; s_raised : bool; s_closed : bool }.

Fixpoint slice_loop (fuel : nat) (f : file) (start length_ sent : nat) (out : list bytes) : stream :=
  match fuel with
  | O => Stream out [] false false
  | S fuel =>
      if (sent <? length_)%nat then
        match read f (start + sent) (min CHUNK (length_ - sent)) with
        | None => Stream out [ReadFailed sent] true false
        | Some [] => Stream out [Truncated length_ sent] false false
        | Some chunk => slice_loop fuel f start length_ (sent + length chunk) (out ++ [chunk])
        end
      else Stream out [] false false
  end.
(** Every turn yields at least one byte, so [length_ + 1] turns are enough. *)
Definition stream_slice (f : file) (start length_ : nat) : stream :=
  slice_loop (S length_) f start length_ 0 [].

Definition closing (s : stream) : stream := Stream (s_chunks s) (s_log s) (s_raised s) true.

Definition stream_full (f : file) (expected : nat) : stream :=
  let s := stream_slice f 0 expected in
  if s_raised s then closing s
  else
    let sent := length (concat (s_chunks s)) in
    let probe :=
      match read f sent 1 with
      | None => [ProbeFailed]
      | Some [] => []
      | Some _ => [Overran expected]
      end in
    closing (Stream (s_chunks s) (s_log s ++ probe) false false).

Definition stream_range (f : file) (r : ByteRange) : stream :=
  closing (stream_slice f (Z.to_nat (br_start r)) (Z.to_nat (br_length r))).

(** ** The response *)

Record request := Request { rq_range : option pystr; rq_if_range : option pystr; rq_if_none_match : option pystr }.
(** The constant [Accept-Ranges] header is left out; [rs_fp_closed] says that
    [fp] is closed before the response is returned. *)
Record response := Response {
  rs_status : Z; rs_media_type : option pystr; rs_content_length : option Z;
  rs_content_range : option pystr; rs_disposition : option pystr;
  rs_etag : pystr; rs_body : option stream; rs_fp_closed : bool }.

Definition not_modified (q : request) (sha256 : pystr) : option response :=
  let etag := etag_for_sha256 sha256 in
  if if_none_match_satisfies (rq_if_none_match q) etag
  then Some (Response 304 None None None None etag None false) else None.

Definition or_else (s d : pystr) : pystr := match s with [] => d | _ => s end.

Definition blob_response (q : request) (sha256 : pystr) (mime : option pystr) (size : Z) (fp : file)
    (filename : option pystr) : res exn response :=
  let etag := etag_for_sha256 sha256 in
  let* disposition :=
    content_disposition (or_else (strip (default [] filename)) (fallback_filename sha256)) in
  let response_mime := safe_response_mime mime in
  let range_header :=
    match rq_range q with
    | Some h => if if_range_allows_partial (rq_if_range q) etag then Some h else None
    | None => None
    end in
  match parse_byte_range range_header size with
  | Err _ =>
      Ok (Response 416 (Some response_mime) None (Some (unsatisfiable_content_range size))
            (Some disposition) etag None true)
  | Ok None =>
      Ok (Response 200 (Some response_mime) (Some size) None (Some disposition) etag
            (Some (stream_full fp (Z.to_nat size))) false)
  | Ok (Some r) =>
      Ok (Response 206 (Some response_mime) (Some (br_length r))
            (Some (content_range_header r size)) (Some disposition) etag
            (Some (stream_range fp r)) false)
  end.
End blob.
End Blob_response.
