(* ===== verification/HttpBlobFacts.v ===== *)
(** * What a served blob guarantees

    The ranges a header selects, the bytes a response streams, and the headers
    it carries. *)
From S2P Require Import Prelude PyStr MailStore Errors Query Utf8 HttpBlob.
Import Range_requests Conditional Blob_response.

(** ** Ranges *)

Definition digit_text (s : pystr) : Prop := Forall (fun c => is_digit_char c = true) s.

Lemma digit_text_str n : 0 <= n -> digit_text (str_int n).
Proof.
  intros Hn. apply Forall_forall. intros c Hc. apply str_int_digit in Hc; [| done].
  unfold is_digit_char. zb.
Qed.

Lemma digit_text_plain s c : digit_text s -> c ∈ s -> 48 <= c <= 57 /\ is_space_char c = false.
Proof.
  intros Hs Hc. unfold digit_text in Hs. rewrite Forall_forall in Hs.
  specialize (Hs c Hc). split; [unfold is_digit_char in Hs; zb | by apply digit_not_space].
Qed.

Lemma strip_digits s : digit_text s -> strip s = s.
Proof.
  intros Hs. apply strip_p_none. apply Forall_forall. intros c Hc. by eapply (digit_text_plain s).
Qed.

(** A header of the standard shape reaches the three parsers with its own
    two numbers. *)
Lemma parse_standard a b size :
  digit_text a -> digit_text b -> 0 < size -> (a <> [] \/ b <> []) ->
  parse_byte_range (Some (RANGE_PREFIX ++ a ++ DASH :: b)) size =
    ignore_value_error
      match a, b with
      | [], _ => suffix_range b size
      | _, [] => open_ended_range a size
      | _, _ => closed_range a b size
      end.
Proof.
  intros Ha Hb Hsize Hne. unfold parse_byte_range. rewrite startswith_app, drop_app_length. cbn [negb].
  assert (Hin : forall c, c ∈ a ++ DASH :: b -> c = DASH \/ 48 <= c <= 57 /\ is_space_char c = false).
  { intros c [Hc | [-> | Hc]%elem_of_cons]%elem_of_app; [| by left |]; right; (eapply digit_text_plain; [| exact Hc]; done). }
  assert (strip (a ++ DASH :: b) = a ++ DASH :: b) as ->.
  { apply strip_p_none. apply Forall_forall. intros c Hc%Hin. by destruct Hc as [-> | [_ ?]]. }
  assert (contains COMMA (a ++ DASH :: b) = false) as ->.
  { apply contains_false. intros [Hc | [Hc _]]%Hin; [done | unfold COMMA in Hc; lia]. }
  assert (contains DASH (a ++ DASH :: b) = true) as ->.
  { apply not_false_is_true. intros Hc%contains_false. set_solver. }
  rewrite partition_at_app.
  2: { intros Hc. eapply digit_text_plain in Hc as [Hc _]; [| done]. unfold DASH in Hc; lia. }
  cbn [default negb orb]. rewrite !strip_digits by done. rewrite (proj2 (Z.leb_gt size 0)) by done.
  destruct a, b; naive_solver.
Qed.

Lemma int_str n : is_bigserial n -> int_ (str_int n) = Ok n.
Proof. intros Hn. unfold int_. by rewrite py_int_str_int. Qed.

Lemma str_int_ne n : 0 <= n -> str_int n <> [].
Proof. intros Hn Hs. destruct (str_int_spec n Hn) as [Hd _]. by rewrite Hs in Hd. Qed.

Lemma parse_bounds header size r :
  parse_byte_range header size = Ok (Some r) -> 0 <= br_start r <= br_end r /\ br_end r < size.
Proof.
  unfold parse_byte_range. destruct header as [h |]; [| done].
  destruct (negb _); [done |]. destruct (strip _) as [| x spec]; [done |].
  destruct (_ || _); [done |]. destruct (partition_at _ _) as [a b].
  generalize (strip a), (strip (default [] b)). intros sa sb.
  assert (Hone : forall q : res range_error ByteRange,
    (forall br, q = Ok br -> 0 <= br_start br <= br_end br /\ br_end br < size) ->
    ignore_value_error q = Ok (Some r) -> 0 <= br_start r <= br_end r /\ br_end r < size).
  { intros [br | []] Hq; naive_solver. }
  assert (Hs : forall s, 0 < size -> forall br, suffix_range s size = Ok br ->
    0 <= br_start br <= br_end br /\ br_end br < size).
  { intros s Hsz br. unfold suffix_range. destruct (int_ s) as [k |]; [| done].
    destruct (Z.leb_spec k 0); [done |]. intros [= <-]. cbn. lia. }
  assert (Ho : forall s, 0 < size -> forall br, open_ended_range s size = Ok br ->
    0 <= br_start br <= br_end br /\ br_end br < size).
  { intros s Hsz br. unfold open_ended_range. destruct (int_ s) as [k |]; [| done].
    destruct (Z.ltb_spec k 0); [done |]. destruct (Z.leb_spec size k); [done |]. intros [= <-]. cbn. lia. }
  assert (Hc : forall s t, 0 < size -> forall br, closed_range s t size = Ok br ->
    0 <= br_start br <= br_end br /\ br_end br < size).
  { intros s t Hsz br. unfold closed_range. destruct (int_ s) as [k |]; [| done].
    destruct (int_ t) as [l |]; [| done]. destruct (_ || _) eqn:E; [done |].
    destruct (Z.leb_spec size k); [done |]. intros [= <-]. cbn. zb. }
  destruct sa as [| ca sa]; destruct sb as [| cb sb]; [done | | |];
    (destruct (Z.leb_spec size 0); [done |]); apply Hone; eauto.
Qed.

(** A byte-range header selects what RFC 9110 says: [a-b] is the bytes
    from [a] to [b] cut at the end of the file, [a-] the bytes from [a] on, [-n]
    the last [n]; a first position past the end or an empty suffix is
    unsatisfiable, a reversed range is ignored; and whatever the header is, a
    range that is served lies within the file. *)
Lemma byte_range_semantics a b size :
  is_bigserial a -> is_bigserial b -> 0 < size ->
  parse_byte_range (Some (RANGE_PREFIX ++ str_int a ++ DASH :: str_int b)) size =
    (if b <? a then Ok None
     else if size <=? a then Err UnsatisfiableRange
     else Ok (Some (MkRange a (Z.min b (size - 1))))) /\
  parse_byte_range (Some (RANGE_PREFIX ++ str_int a ++ [DASH])) size =
    (if size <=? a then Err UnsatisfiableRange else Ok (Some (MkRange a (size - 1)))) /\
  parse_byte_range (Some (RANGE_PREFIX ++ DASH :: str_int b)) size =
    (if b =? 0 then Err UnsatisfiableRange else Ok (Some (MkRange (Z.max 0 (size - b)) (size - 1)))) /\
  forall header r, parse_byte_range header size = Ok (Some r) ->
    0 <= br_start r <= br_end r /\ br_end r < size.
Proof.
  intros Ha Hb Hs. pose proof (digit_text_str a (proj1 Ha)) as Da. pose proof (digit_text_str b (proj1 Hb)) as Db.
  pose proof (str_int_ne a (proj1 Ha)) as Na. pose proof (str_int_ne b (proj1 Hb)) as Nb.
  pose proof (int_str a Ha) as Ia. pose proof (int_str b Hb) as Ib. destruct Ha as [Ha _], Hb as [Hb _].
  split_and!; [| | | intros header r; apply parse_bounds].
  - rewrite parse_standard by auto. destruct (str_int a) as [| c s]; [done |].
    destruct (str_int b) as [| c' s']; [done |]. unfold closed_range. rewrite Ia, Ib.
    rewrite (proj2 (Z.ltb_ge a 0)), (proj2 (Z.ltb_ge b 0)) by lia. cbn [orb].
    destruct (b <? a); [done |]. by destruct (size <=? a).
  - rewrite (parse_standard (str_int a) []) by (done || auto; constructor).
    destruct (str_int a) as [| c s]; [done |]. unfold open_ended_range. rewrite Ia.
    rewrite (proj2 (Z.ltb_ge a 0)) by lia. by destruct (size <=? a).
  - rewrite (parse_standard [] (str_int b)) by (done || auto; constructor).
    destruct (str_int b) as [| c s]; [done |]. unfold suffix_range. rewrite Ib.
    destruct (Z.leb_spec b 0), (Z.eqb_spec b 0); done || lia.
Qed.

(** A double dash is no byte range of the grammar, yet it is answered 416. *)
Example double_dash_unsatisfiable :
  parse_byte_range (Some (lit "bytes=--5")) 100 = Err UnsatisfiableRange.
Proof. by vm_compute. Qed.

(** ** Streaming *)

Lemma CHUNK_pos : (0 < CHUNK)%nat.
Proof. apply Nat.mul_pos_pos; lia. Qed.
#[local] Opaque CHUNK.

Lemma read_ok f pos n : f_fails_at f = None -> read f pos n = Some (take n (drop pos (f_bytes f))).
Proof. intros Hf. unfold read. by rewrite Hf. Qed.

Lemma read_prefix f pos n chunk :
  read f pos n = Some chunk -> exists k, (k <= n)%nat /\ chunk = take k (drop pos (f_bytes f)).
Proof.
  unfold read. destruct (f_fails_at f) as [k |]; [destruct (_ <=? _)%nat; [done |] |]; intros [= <-];
    eexists; (split; [| reflexivity]); lia.
Qed.

Lemma take_drop_step {A} (l : list A) pos k m :
  (k <= m)%nat -> take k (drop pos l) ++ take (m - length (take k (drop pos l)))
    (drop (pos + length (take k (drop pos l))) l) = take m (drop pos l).
Proof.
  intros Hk. rewrite <- drop_drop. set (x := drop pos l).
  destruct (decide (k <= length x)%nat).
  - rewrite length_take, Nat.min_l, take_take_drop by lia. f_equal. lia.
  - rewrite (take_ge x k), (drop_ge x (length x)), take_nil, app_nil_r by lia.
    by rewrite take_ge by lia.
Qed.

(** What the loop yields from [sent] on: a prefix of the slice, and the whole
    of what the file holds of it unless a read failed. *)
Lemma slice_loop_spec fuel f start len sent out :
  (sent <= len)%nat -> (len - sent < fuel)%nat ->
  let s := slice_loop fuel f start len sent out in
  exists new, s_chunks s = out ++ new /\
    Forall (fun c => 0 < length c <= CHUNK)%nat new /\
    concat new `prefix_of` take (len - sent) (drop (start + sent) (f_bytes f)) /\
    (s_raised s = false -> f_fails_at f = None ->
       concat new = take (len - sent) (drop (start + sent) (f_bytes f))) /\
    (f_fails_at f = None -> s_raised s = false /\
       ((start + len <= length (f_bytes f))%nat -> s_log s = [])).
Proof.
  revert sent out. induction fuel as [| fuel IH]; intros sent out Hs Hf; [lia |]. cbn [slice_loop]. cbv zeta.
  destruct (Nat.ltb_spec sent len) as [Hlt | Hge].
  2: { exists []. cbn. rewrite app_nil_r. replace (len - sent)%nat with O by lia. cbn.
       by split_and!. }
  destruct (read f _ _) as [[| b0 chunk] |] eqn:Er.
  - exists []. cbn. rewrite app_nil_r. split_and!; [done | done | apply prefix_nil | |].
    + intros _ Hn. rewrite read_ok in Er by done. injection Er as Er.
      destruct (drop (start + sent) (f_bytes f)); [by rewrite take_nil |].
      assert (0 < min CHUNK (len - sent))%nat by (pose proof CHUNK_pos; lia).
      destruct (min CHUNK (len - sent)); [lia | done].
    + intros Hn. split; [done |]. intros Hlen. exfalso. rewrite read_ok in Er by done. injection Er as Er.
      apply (f_equal length) in Er. rewrite length_take, length_drop in Er. cbn in Er. pose proof CHUNK_pos. lia.
  - destruct (read_prefix _ _ _ _ Er) as (k & Hk & Hc). set (c := b0 :: chunk) in *.
    assert (Hl : (0 < length c <= k)%nat) by (split; [cbn; lia | rewrite Hc, length_take; lia]).
    destruct (IH (sent + length c)%nat (out ++ [c])) as (new & Hn & Hall & Hp & He & Hq); [lia | lia |].
    replace (start + (sent + length c))%nat with (start + sent + length c)%nat in * by lia.
    replace (len - (sent + length c))%nat with (len - sent - length c)%nat in * by lia.
    pose proof (take_drop_step (f_bytes f) (start + sent) k (len - sent)) as Hstep.
    rewrite <- Hc in Hstep. exists (c :: new). cbn [concat]. split_and!.
    + etransitivity; [exact Hn |]. by rewrite <- app_assoc.
    + constructor; [lia | done].
    + rewrite <- Hstep by lia. by apply prefix_app.
    + intros Hr Hf0. rewrite He by done. apply Hstep. lia.
    + done.
  - exists []. cbn. rewrite app_nil_r. split_and!; [done | done | apply prefix_nil | done |].
    intros Hn. by rewrite read_ok in Er.
Qed.

Lemma stream_slice_spec f start len :
  let s := stream_slice f start len in
  let slice := take len (drop start (f_bytes f)) in
  concat (s_chunks s) `prefix_of` slice /\
  Forall (fun c => 0 < length c <= CHUNK)%nat (s_chunks s) /\
  (f_fails_at f = None -> concat (s_chunks s) = slice /\ s_raised s = false /\
     ((start + len <= length (f_bytes f))%nat -> s_log s = [])).
Proof.
  unfold stream_slice. destruct (slice_loop_spec (S len) f start len 0 []) as (new & Hn & Hall & Hp & He & Hq);
    [lia | lia |].
  rewrite Nat.add_0_r, Nat.sub_0_r in *. cbn [app] in Hn. rewrite Hn.
  split_and!; [done | done |]. intros Hf. destruct (Hq Hf) as [Hr Hlog]. auto.
Qed.

(** The stream a response carries, whichever branch built it. *)
Definition serves (f : file) (start len : nat) (s : stream) : Prop :=
  concat (s_chunks s) `prefix_of` take len (drop start (f_bytes f)) /\
  Forall (fun c => 0 < length c <= CHUNK)%nat (s_chunks s) /\ s_closed s = true /\
  (f_fails_at f = None -> concat (s_chunks s) = take len (drop start (f_bytes f)) /\ s_raised s = false).

Lemma stream_range_serves f r :
  serves f (Z.to_nat (br_start r)) (Z.to_nat (br_length r)) (stream_range f r).
Proof.
  destruct (stream_slice_spec f (Z.to_nat (br_start r)) (Z.to_nat (br_length r))) as (? & ? & Hok).
  unfold stream_range, serves. cbn. split_and!; try done. intros Hf. by destruct (Hok Hf) as (? & ? & _).
Qed.

Lemma stream_full_serves f size : serves f 0 size (stream_full f size).
Proof.
  destruct (stream_slice_spec f 0 size) as (? & ? & Hok). unfold stream_full, serves.
  destruct (s_raised (stream_slice f 0 size)) eqn:E; cbn; split_and!; try done;
    intros Hf; destruct (Hok Hf) as (? & ? & _); [congruence | done].
Qed.

Lemma if_range_strong h etag : if_range_allows_partial (Some h) etag = true -> strip h = etag.
Proof. cbn. destruct (negb _); [done |]. by intros H%bool_decide_eq_true. Qed.

(** C38: a response carries the bytes its headers announce.  A partial one
    streams, in chunks of at most 64 KiB, exactly the file's bytes of its
    [Content-Range], a full one exactly the recorded size; a file longer than
    recorded never overruns [Content-Length], a failing or truncated one only
    stops short; the file is closed; and a resumed download ([If-Range]) is
    partial only for the very representation it began with. *)
Theorem blob_response_exact `{PyUnicode} q sha256 mime size fp filename r :
  0 <= size -> blob_response q sha256 mime size fp filename = Ok r ->
  (rs_status r = 416 /\ rs_body r = None /\ rs_fp_closed r = true) \/
  exists s start len,
    rs_body r = Some s /\ rs_content_length r = Some (Z.of_nat len) /\
    Z.of_nat (start + len) <= size /\ serves fp start len s /\
    (rs_status r = 200 /\ start = O /\ Z.of_nat len = size \/
     rs_status r = 206 /\ (0 < len)%nat /\ rs_content_range r =
       Some (content_range_header (MkRange (Z.of_nat start) (Z.of_nat start + Z.of_nat len - 1)) size) /\
       forall h, rq_if_range q = Some h -> strip h = etag_for_sha256 sha256).
Proof.
  intros Hsize. unfold blob_response. destruct (content_disposition _) as [disp |]; [| done].
  match goal with |- context [parse_byte_range ?h size] => destruct (parse_byte_range h size) as [[br |] | e] eqn:Ep end;
    intros [= <-]; cbn [rs_status rs_body rs_content_length rs_content_range rs_fp_closed]; [right | right | by left].
  - destruct (parse_bounds _ _ _ Ep) as [Hb1 Hb2]. unfold br_length.
    exists (stream_range fp br), (Z.to_nat (br_start br)), (Z.to_nat (br_length br)).
    pose proof (stream_range_serves fp br) as Hserves. unfold br_length in *. destruct br as [a b]. cbn in *.
    split_and!; [done | f_equal; lia | lia | done |]. right. split_and!; [done | lia | |].
    2: { intros h Hh. rewrite Hh in Ep. destruct (rq_range q); [| done].
         by apply if_range_strong; destruct (if_range_allows_partial _ _). }
    rewrite !Z2Nat.id by lia. by replace (a + (b - a + 1) - 1) with b by lia.
  - exists (stream_full fp (Z.to_nat size)), O, (Z.to_nat size).
    split_and!; [done | f_equal; lia | lia | apply stream_full_serves |]. left. split_and!; [done | done | lia].
Qed.

Definition pdf : file := File (lit "%PDF-1.7 hello") None.

#[local] Existing Instance Query.ascii_unicode.
Definition three_bytes : request := Request (Some (lit "bytes=5-7")) None None.

Lemma blob_response_exact_witness :
  exists r s start, blob_response three_bytes (lit "ab12") None 14 pdf None = Ok r /\
    rs_status r = 206 /\ rs_body r = Some s /\ serves pdf start 3 s /\ concat (s_chunks s) = lit "1.7".
Proof.
  destruct (blob_response three_bytes (lit "ab12") None 14 pdf None) as [r |] eqn:E; [| by vm_compute in E].
  assert (Hst : rs_status r = 206) by (vm_compute in E; by injection E as <-).
  assert (Hcl : rs_content_length r = Some 3) by (vm_compute in E; by injection E as <-).
  destruct (blob_response_exact three_bytes (lit "ab12") None 14 pdf None r)
    as [[? _] | (s & start & len & Hb & Hl & _ & Hs & _)]; [lia | exact E | congruence |].
  assert (len = 3%nat) as -> by (rewrite Hcl in Hl; injection Hl; lia).
  exists r, s, start. split_and!; [done | done | done | done |].
  vm_compute in E. injection E as <-. cbn in Hb. by injection Hb as <-.
Defined.

(** ** Headers *)


Lemma elem_of_drop_while p c s : c ∈ drop_while p s -> c ∈ s.
Proof.
  induction s as [| x s IH]; cbn; [done |]. destruct (p x); [| done].
  intros Hc. apply elem_of_cons. auto.
Qed.
Lemma elem_of_strip c s : c ∈ strip s -> c ∈ s.
Proof.
  unfold strip, strip_p, rstrip_p, lstrip_p.
  rewrite elem_of_reverse. intros Hc%elem_of_drop_while. rewrite elem_of_reverse in Hc.
  by apply elem_of_drop_while in Hc.
Qed.

Definition quotable (c : Z) : Prop := 32 <= c <= 126 /\ c ∉ QUOTED_STRING_UNSAFE.
Definition percent_text (c : Z) : Prop := unreserved c = true \/ c = 37.

Lemma ascii_fallback_quotable name :
  Forall quotable (ascii_fallback_name name) /\ ascii_fallback_name name <> [].
Proof.
  assert (Hall : Forall quotable (strip (ascii_fallback_char <$> name))).
  { apply Forall_forall. intros c Hc%elem_of_strip. apply list_elem_of_fmap in Hc as (x & -> & _).
    unfold ascii_fallback_char, quotable. destruct (_ || _) eqn:E.
    - split; [lia |]. rewrite <- contains_false. done.
    - apply orb_false_iff in E as [E Hu]. rewrite contains_false in Hu. split; [zb | done]. }
  unfold ascii_fallback_name. destruct (strip _) as [| c s]; [| done].
  split; [| done]. cbn. repeat constructor; cbn; try lia; rewrite <- contains_false; done.
Qed.

Lemma hex_digit_unreserved n : 0 <= n < 16 -> percent_text (hex_digit n).
Proof.
  intros Hn. left. unfold hex_digit, unreserved, is_digit_char.
  destruct (Z.ltb_spec n 10); rewrite !orb_true_iff, !andb_true_iff, !Z.leb_le; lia.
Qed.

Lemma quote_byte_text b : 0 <= b < 256 -> Forall percent_text (quote_byte b).
Proof.
  intros Hb. unfold quote_byte. destruct (unreserved b) eqn:E; [apply Forall_singleton; by left |].
  rewrite !Forall_cons. split_and!; [by right | | | apply Forall_nil_2];
    apply hex_digit_unreserved; Z.div_mod_to_equations; lia.
Qed.

Lemma quote_text name e : Forall code_point name -> quote name = Ok e -> Forall percent_text e.
Proof.
  intros Hn. revert e. induction Hn as [| c name Hc Hn IH]; cbn; intros e.
  - intros [= <-]. constructor.
  - destruct (utf8_char c) as [bs |] eqn:E; [| done]. destruct (quote name) as [rest |]; [| done].
    intros [= <-]. apply Forall_app. split; [| by apply IH]. apply Forall_concat, Forall_fmap.
    eapply Forall_impl; [by eapply utf8_bytes |]. intros b Hb. by apply quote_byte_text.
Qed.

Definition inert_disposition (v : pystr) : Prop :=
  exists n e, v = lit "attachment; filename=" ++ [34] ++ n ++ [34] ++ lit "; filename*=UTF-8''" ++ e /\
    n <> [] /\ Forall quotable n /\ Forall percent_text e.

Lemma content_disposition_inert name v :
  Forall code_point name -> content_disposition name = Ok v -> inert_disposition v.
Proof.
  intros Hn. unfold content_disposition. destruct (quote name) as [e |] eqn:E; [| done]. intros [= <-].
  destruct (ascii_fallback_quotable name). exists (ascii_fallback_name name), e.
  split_and!; [done | done | done | by eapply quote_text].
Qed.

Lemma safe_mime_inert `{PyUnicode} mime : lower (safe_response_mime mime) ∉ INLINE_RISKY_MIMES.
Proof.
  assert (Hsafe : lower SAFE_FALLBACK_MIME ∉ INLINE_RISKY_MIMES).
  { rewrite lower_ascii by done. apply (bool_decide_eq_false_1 _). by vm_compute. }
  unfold safe_response_mime. destruct mime as [[| c m] |]; [done | | done].
  by case_bool_decide.
Qed.

(** The headers of a download are inert.  Whatever name a sender gave the
    file, [Content-Disposition] is [attachment] with one quoted name of printable
    characters that cannot end the quoting, the parameter or the header line,
    and one percent-encoded name; and the media type is never one a browser runs
    scripts from. *)
Lemma download_headers_inert `{PyUnicode} q sha256 mime size fp filename r :
  Forall code_point (default [] filename) -> Forall code_point sha256 ->
  blob_response q sha256 mime size fp filename = Ok r ->
  (exists v, rs_disposition r = Some v /\ inert_disposition v) /\
  (exists m, rs_media_type r = Some m /\ lower m ∉ INLINE_RISKY_MIMES).
Proof.
  intros Hf Hs. unfold blob_response.
  destruct (content_disposition _) as [v |] eqn:Ev; [| done].
  assert (Hv : inert_disposition v).
  { eapply content_disposition_inert; [| exact Ev]. unfold or_else, fallback_filename.
    destruct (strip _) as [| c s] eqn:Et.
    - apply Forall_app; split; [by repeat constructor |]. apply Forall_app; split; [by apply Forall_take |].
      by repeat constructor.
    - rewrite <- Et. rewrite Forall_forall in *. intros x Hx%elem_of_strip. auto. }
  pose proof (safe_mime_inert mime).
  destruct (parse_byte_range _ size) as [[br |] | e]; intros [= <-]; cbn; eauto 6.
Qed.
