(* ===== verification/Reads.v ===== *)
(** * Messages, attachments, accounts and folders
      ([api/messages.py], [api/attachments.py], [api/accounts.py] and their routes)

    The tables these endpoints read, one definition per accessor, and the routes.
    Every accessor takes the caller's [allowed_account_ids]. *)
From S2P Require Import Prelude PyStr Base64 Datetime Errors Query Utf8 Odict PySort.
From S2P Require Import TextWindow Json Sanitize HeaderBlock HttpBlob.
Import Text_window Json Sanitize Header_block Blob_response.

Record mail (T : Type) := Mail {
  ml_account : Z; ml_subject : option pystr; ml_from_addr : option pystr; ml_from_name : option pystr;
  ml_to_addrs : option (list pystr); ml_cc_addrs : option (list pystr); ml_bcc_addrs : option (list pystr);
  ml_body_text : option pystr; ml_body_html : option pystr; ml_attachments : json;
  ml_date_sent : option T; ml_raw_bytes : bytes }.
Arguments Mail {T}. Arguments ml_account {T}. Arguments ml_subject {T}. Arguments ml_from_addr {T}.
Arguments ml_from_name {T}. Arguments ml_to_addrs {T}. Arguments ml_cc_addrs {T}. Arguments ml_bcc_addrs {T}.
Arguments ml_body_text {T}. Arguments ml_body_html {T}. Arguments ml_attachments {T}.
Arguments ml_date_sent {T}. Arguments ml_raw_bytes {T}.
Record account := Account { ac_name : pystr; ac_email_address : pystr }.
Record mailbox (T : Type) := Mailbox {
  mb_account : Z; mb_name : pystr; mb_flags : option (list pystr); mb_uidnext : option Z; mb_last_sync_at : option T }.
Arguments Mailbox {T}. Arguments mb_account {T}. Arguments mb_name {T}. Arguments mb_flags {T}.
Arguments mb_uidnext {T}. Arguments mb_last_sync_at {T}.
Record blob_row := BlobRow { bl_mime_type : option pystr; bl_size_bytes : Z; bl_path : pystr }.

(** The tables, by primary key, and the blob files, by path. *)
Record read_db (T : Type) := ReadDb {
  rd_grants : gset (Z * Z);                         (* user, account *)
  rd_accounts : gmap Z account; rd_mailboxes : gmap Z (mailbox T); rd_messages : gmap Z (mail T);
  rd_labels : gset (Z * Z);                         (* message, mailbox *)
  rd_blobs : gmap bytes blob_row; rd_texts : gmap bytes pystr; rd_files : gmap pystr file }.
Arguments ReadDb {T}. Arguments rd_grants {T}. Arguments rd_accounts {T}. Arguments rd_mailboxes {T}.
Arguments rd_messages {T}. Arguments rd_labels {T}. Arguments rd_blobs {T}. Arguments rd_texts {T}. Arguments rd_files {T}.

(** What the queries rely on of Postgres beyond plain SQL: the collation of
    [ORDER BY name], [jsonb -> integer], and the text of a JSON value that is not
    a string. *)
Class PgRead := {
  collate_lt : pystr -> pystr -> bool;
  jsonb_arrow : json -> Z -> option json;
  json_text : json -> pystr;
}.

(** ** Response bodies *)
Record address := Address { ad_address : option pystr; ad_name : option pystr }.
Record attachment_dict := AttachmentDict {
  ae_filename : json; ae_sha256 : json; ae_content_type : option pystr; ae_size : option Z }.
Inductive headers_dict :=
  | HeadersAbsent | HeadersList (l : list HeaderEntry) | HeadersFull (d : list (pystr * list pystr)).
Record message_dict := MessageDict {
  md_id : pystr; md_subject : option pystr; md_from : address; md_to : list address; md_cc : list address;
  md_bcc : list address; md_date : option pystr; md_body_text : option pystr; md_body_html : option pystr;
  md_attachments : list attachment_dict; md_account_id : pystr; md_account_name : pystr;
  md_account_address : pystr; md_folders : list (pystr * pystr); md_headers : headers_dict }.
Record account_dict := AccountDict {
  acd_id : pystr; acd_name : pystr; acd_address : pystr; acd_last_sync_at : option pystr; acd_message_count : Z;
  acd_can_sync : bool; acd_is_archive_only : bool; acd_is_shared : bool }.
Record folder_dict := FolderDict {
  fo_id : pystr; fo_name : pystr; fo_full_path : pystr; fo_flags : option pystr; fo_last_uid : option Z;
  fo_message_count : Z }.
Record MessageAttachment := MkAttachment { ma_sha256 : pystr; ma_filename : option pystr }.

Module Reads.
Section reads.
Context `{Datetime T} `{PyUnicode} `{EmailPolicy} `{PgRead}.
Context (nh3_clean : pystr -> clean_options -> pystr).
Notation read_db := (read_db T).
Implicit Types (d : read_db) (allowed_account_ids : list Z).

(** [SELECT ... ORDER BY name] *)
Definition by_name {A} (name : A -> pystr) (rows : list A) : list A :=
  py_sorted (fun a b => collate_lt (name a) (name b)) rows.
(** [allowed_account_ids(conn, user_id)] *)
Definition allowed_account_ids_of d (user_id : Z) : list Z :=
  py_sorted Z.ltb (elements (set_map snd (filter (fun g : Z * Z => g.1 = user_id) (rd_grants d)) : gset Z)).

(** ** [api/messages.py] *)

(** [WHERE m.id = mid AND m.account_id = ANY(allowed)] *)
Definition select_message d (mid : Z) allowed_account_ids : option (mail T) :=
  match rd_messages d !! mid with
  | Some m => if bool_decide (ml_account m ∈ allowed_account_ids) then Some m else None
  | None => None
  end.

Definition get_message_raw d (message_id : Z) allowed_account_ids : res exn bytes :=
  match allowed_account_ids with
  | [] => Err NotFound
  | _ => match select_message d message_id allowed_account_ids with
         | None => Err NotFound
         | Some m => Ok (ml_raw_bytes m)
         end
  end.

Definition header_entries d (message_id : Z) allowed_account_ids (prefix : bytes) : res exn (list HeaderEntry) :=
  match header_block prefix (prefix_is_truncated prefix) with
  | Some block => Ok (parse_header_block block)
  | None =>
      let* raw := get_message_raw d message_id allowed_account_ids in
      Ok (parse_header_block (header_block_of_whole raw))
  end.

(** The sha256 strings the attachments name; an unhashable one cannot be a member
    of the set. *)
Fixpoint sha_hexes (attachments : list json) : res exn (list json) :=
  match attachments with
  | [] => Ok []
  | a :: l =>
      let* sha := get (lit "sha256") a in
      if truthy sha then
        guard! hashable sha else TypeError in
        let* rest := sha_hexes l in Ok (sha :: rest)
      else sha_hexes l
  end.
Fixpoint sha_bytes (hexes : list json) : res exn (list bytes) :=
  match hexes with
  | [] => Ok []
  | h :: l =>
      match as_str h with
      | None => Err TypeError
      | Some s =>
          let* rest := sha_bytes l in
          match Hex.fromhex s with Some b => Ok (b :: rest) | None => Ok rest end
      end
  end.
Definition load_attachment_meta d (attachments : list json) : res exn (list (pystr * (option pystr * Z))) :=
  let* hexes := sha_hexes attachments in
  let* shas := sha_bytes hexes in
  Ok (omap (fun sha =>
        (fun b => (Hex.hex sha, (bl_mime_type b, bl_size_bytes b))) <$> rd_blobs d !! sha) shas).

Definition attachment_entry (blob_meta : list (pystr * (option pystr * Z))) (att : json) : res exn attachment_dict :=
  let* sha := get (lit "sha256") att in
  guard! hashable sha else TypeError in
  let meta := match sha with JStr s => od_get s blob_meta | _ => None end in
  let* filename := get (lit "filename") att in
  Ok (AttachmentDict filename sha (meta ≫= fst) (snd <$> meta)).

Definition build_cid_map (attachments : list json) : res exn (list (pystr * json)) :=
  foldM (fun out att =>
    let* cid := get (lit "content_id") att in
    let* sha := get (lit "sha256") att in
    if truthy cid && truthy sha then
      match as_str cid with
      | Some s => Ok (od_set (strip_angles s) sha out)
      | None => Err AttributeError
      end
    else Ok out) [] attachments.
(** [f"{sha}"]: a sha that is not a string raises in [load_attachment_meta], so
    its rendering is never seen. *)
Definition sha_str (sha : json) : pystr := match sha with JStr s => s | _ => json_text sha end.

Fixpoint mapR {A B} (f : A -> res exn B) (l : list A) : res exn (list B) :=
  match l with
  | [] => Ok []
  | x :: l => let* y := f x in let* ys := mapR f l in Ok (y :: ys)
  end.

(** The folders of a message, [ORDER BY mb.name]. *)
Definition folder_rows d (message_id : Z) : list (Z * mailbox T) :=
  by_name (fun r => mb_name r.2)
    (omap (fun l => (fun mb => (l.2, mb)) <$> rd_mailboxes d !! l.2)
       (elements (filter (fun l : Z * Z => l.1 = message_id) (rd_labels d)))).

Definition get_message d (message_id : Z) allowed_account_ids (headers : pystr) (allow_external_images : bool)
    : res exn message_dict :=
  let* mode := parse_header_mode headers in
  match allowed_account_ids with
  | [] => Err NotFound
  | _ =>
    match select_message d message_id allowed_account_ids with
    | None => Err NotFound
    | Some row =>
      match rd_accounts d !! ml_account row with
      | None => Err NotFound                      (* the JOIN drops the row *)
      | Some acct =>
        let folders := folder_rows d message_id in
        let* attachments := or_empty (ml_attachments row) in
        let* cid_to_sha := build_cid_map attachments in
        let sanitized_html :=
          match ml_body_html row with
          | None | Some [] => None
          | Some html => Some (sanitize_html sha_str nh3_clean html cid_to_sha allow_external_images)
          end in
        let* blob_meta := load_attachment_meta d attachments in
        let* entries := mapR (attachment_entry blob_meta) attachments in
        let* headers :=
          match mode with
          | HCompact => Ok HeadersAbsent
          | HList =>
              HeadersList <$> header_entries d message_id allowed_account_ids
                                (take (Z.to_nat PREFIX_READ_BYTES) (ml_raw_bytes row))
          | HFull =>
              (fun es => HeadersFull (group_entries es)) <$>
                header_entries d message_id allowed_account_ids (take (Z.to_nat PREFIX_READ_BYTES) (ml_raw_bytes row))
          end in
        let addresses := fun l => (fun a => Address (Some a) None) <$> default [] l in
        Ok (MessageDict (str_int message_id) (ml_subject row) (Address (ml_from_addr row) (ml_from_name row))
              (addresses (ml_to_addrs row)) (addresses (ml_cc_addrs row)) (addresses (ml_bcc_addrs row))
              (isoformat <$> ml_date_sent row) (ml_body_text row) sanitized_html entries
              (str_int (ml_account row)) (ac_name acct) (ac_email_address acct)
              ((fun r => (str_int r.1, mb_name r.2)) <$> folders) headers)
      end
    end
  end.

(** ** [api/attachments.py] *)

(** [_parse_sha256_hex] of any object. *)
Definition parse_sha256_hex (sha256_hex : json) : res exn bytes :=
  match sha256_hex with
  | JStr s =>
      guard! (length s =? 64)%nat else ValidationFailed in
      match Hex.fromhex s with Some b => Ok b | None => Err ValidationFailed end
  | _ => Err ValidationFailed
  end.
Definition MAX_JSONB_INDEX : Z := 2 ^ 31 - 1.

Definition resolve_message_attachment d (message_id index : Z) allowed_account_ids : res exn MessageAttachment :=
  guard! negb (index <? 0) else ValidationFailed in
  guard! negb ((MAX_JSONB_INDEX <? index) || bool_decide (allowed_account_ids = [])) else NotFound in
  match select_message d message_id allowed_account_ids ≫= (fun m => jsonb_arrow (ml_attachments m) index) with
  | None | Some JNull => Err NotFound
  | Some entry =>
      let sha256 := match get (lit "sha256") entry with Ok s => s | Err _ => JNull end in
      match parse_sha256_hex sha256 with
      | Err _ => Err NotFound
      | Ok sha_bytes =>
          let* filename := get (lit "filename") entry in
          Ok (MkAttachment (Hex.hex sha_bytes) (as_str filename))
      end
  end.

(** The messages of allowed accounts, by id, that [@>] finds carrying the blob. *)
Definition carriers d (sha256_hex : pystr) allowed_account_ids : list (Z * mail T) :=
  py_sorted (fun a b => a.1 <? b.1)
    (filter (fun r => contains_member (lit "sha256") sha256_hex (ml_attachments r.2) = true)
      (map_to_list (filter (fun r : Z * mail T => ml_account r.2 ∈ allowed_account_ids) (rd_messages d)))).
Definition caller_can_read_blob d (sha256_hex : pystr) allowed_account_ids : bool :=
  match allowed_account_ids with
  | [] => false
  | _ => match carriers d sha256_hex allowed_account_ids with [] => false | _ => true end
  end.

Definition lookup_blob_row d (sha256_hex : pystr) allowed_account_ids : res exn blob_row :=
  let* sha_bytes := parse_sha256_hex (JStr sha256_hex) in
  guard! caller_can_read_blob d sha256_hex allowed_account_ids else NotFound in
  match rd_blobs d !! sha_bytes with Some row => Ok row | None => Err NotFound end.
Definition get_attachment_metadata d (sha256_hex : pystr) allowed_account_ids
    : res exn (pystr * option pystr * Z) :=
  let* row := lookup_blob_row d sha256_hex allowed_account_ids in
  Ok (sha256_hex, bl_mime_type row, bl_size_bytes row).
Definition get_attachment_blob_info d (sha256_hex : pystr) allowed_account_ids : res exn blob_row :=
  lookup_blob_row d sha256_hex allowed_account_ids.
Definition open_blob_file_at d (path : pystr) : res exn file :=
  match rd_files d !! path with Some f => Ok f | None => Err NotFound end.
Definition open_attachment_bytes d (sha256_hex : pystr) allowed_account_ids
    : res exn (file * option pystr * Z) :=
  let* row := lookup_blob_row d sha256_hex allowed_account_ids in
  let* f := open_blob_file_at d (bl_path row) in
  Ok (f, bl_mime_type row, bl_size_bytes row).

(** [a ->> key] *)
Definition arrow_text (a : json) (key : pystr) : option pystr :=
  match a with
  | JObj o => match od_get key o with
              | None | Some JNull => None
              | Some (JStr s) => Some s
              | Some j => Some (json_text j)
              end
  | _ => None
  end.
Definition get_attachment_filename d (sha256_hex : pystr) allowed_account_ids : res exn (option pystr) :=
  let* _ := parse_sha256_hex (JStr sha256_hex) in
  match allowed_account_ids with
  | [] => Ok None
  | _ =>
      match carriers d sha256_hex allowed_account_ids with
      | [] => Ok None
      | (_, m) :: _ =>
          let elems := match ml_attachments m with JArr l => l | _ => [] end in
          match filter (fun a => arrow_text a (lit "sha256") = Some sha256_hex) elems with
          | [] => Ok None
          | a :: _ => Ok (arrow_text a (lit "filename"))
          end
      end
  end.

Definition get_attachment_text_page d (sha256_hex : pystr) allowed_account_ids (window : TextWindow)
    : res exn TextPage :=
  let* sha_bytes := parse_sha256_hex (JStr sha256_hex) in
  guard! caller_can_read_blob d sha256_hex allowed_account_ids else NotFound in
  match rd_texts d !! sha_bytes with
  | None => Err NotFound
  | Some text => window_of window text
  end.
Definition get_attachment_text d (sha256_hex : pystr) allowed_account_ids : res exn pystr :=
  let* p := get_attachment_text_page d sha256_hex allowed_account_ids (MkWindow 0 None) in
  Ok (tp_text p).

(** ** [api/accounts.py] *)

Definition ARCHIVE_STALENESS_DAYS : Z := 30.
Definition is_stale (now last_sync_at : T) : bool :=
  ARCHIVE_STALENESS_DAYS * 86400 * 1000000 <? instant now - instant last_sync_at.
(** [max(last_sync_at)], NULLs aside. *)
Definition max_sync (l : list (option T)) : option T :=
  foldl (fun best x =>
    match best, x with
    | Some b, Some t => if instant b <? instant t then Some t else Some b
    | None, _ => x
    | _, None => best
    end) None l.

Definition list_accounts d (now : T) allowed_account_ids : list account_dict :=
  match allowed_account_ids with
  | [] => []
  | _ =>
    let is_shared := (1 <? length allowed_account_ids)%nat in
    (fun '(aid, a) =>
       let last_sync_at := max_sync
         ((fun r => mb_last_sync_at r.2) <$>
            map_to_list (filter (fun r : Z * mailbox T => mb_account r.2 = aid) (rd_mailboxes d))) in
       let count := size (filter (fun r : Z * mail T => ml_account r.2 = aid) (rd_messages d)) in
       let is_archive_only := match last_sync_at with None => true | Some t => is_stale now t end in
       AccountDict (str_int aid) (ac_name a) (ac_email_address a) (isoformat <$> last_sync_at) (Z.of_nat count)
         (negb is_archive_only) is_archive_only is_shared)
    <$> by_name (fun r => ac_name r.2)
          (map_to_list (filter (fun r : Z * account => r.1 ∈ allowed_account_ids) (rd_accounts d)))
  end.

Definition list_folders d (account_id : Z) allowed_account_ids : list folder_dict :=
  if bool_decide (account_id ∈ allowed_account_ids) then
    (fun '(mb_id, mb) =>
       let count := size (filter (fun l : Z * Z => l.2 = mb_id) (rd_labels d)) in
       FolderDict (str_int mb_id) (mb_name mb) (mb_name mb)
         (match mb_flags mb with None | Some [] => None | Some fs => Some (join (lit " ") fs) end)
         (mb_uidnext mb) (Z.of_nat count))
    <$> by_name (fun r => mb_name r.2)
          (map_to_list (filter (fun r : Z * mailbox T => mb_account r.2 = account_id) (rd_mailboxes d)))
  else [].

(** ** The routes, for an authenticated user *)

Inductive read_request :=
  | GetMessage (message_id headers : pystr) (external_images : bool)
  | GetRaw (message_id : pystr)
  | GetMessageAttachment (message_id index : pystr) (q : request)
  | GetMessageAttachmentText (message_id index : pystr) (offset limit : option pystr)
  | GetBlob (sha256 : pystr) (q : request)
  | GetBlobText (sha256 : pystr) (offset limit : option pystr)
  | GetAccounts
  | GetFolders (account_id : pystr).
Inductive read_response :=
  | RespMessage (m : message_dict) | RespRaw (b : bytes) | RespBlob (r : response) | RespText (p : TextPage)
  | RespAccounts (l : list account_dict) | RespFolders (l : list folder_dict).

(** [routes/attachments.py stream_blob] *)
Definition stream_blob d (sha256 : pystr) (q : request) allowed_account_ids : res exn response :=
  let* info := get_attachment_blob_info d sha256 allowed_account_ids in
  match not_modified q sha256 with
  | Some cached => Ok cached
  | None =>
      let* original := get_attachment_filename d sha256 allowed_account_ids in
      let* fp := open_blob_file_at d (bl_path info) in
      blob_response q sha256 (bl_mime_type info) (bl_size_bytes info) fp original
  end.
(** [routes/messages.py message_attachment] *)
Definition message_attachment d (mid idx : Z) (q : request) allowed_account_ids : res exn response :=
  let* entry := resolve_message_attachment d mid idx allowed_account_ids in
  let* info := get_attachment_blob_info d (ma_sha256 entry) allowed_account_ids in
  match not_modified q (ma_sha256 entry) with
  | Some cached => Ok cached
  | None =>
      let* fp := open_blob_file_at d (bl_path info) in
      blob_response q (ma_sha256 entry) (bl_mime_type info) (bl_size_bytes info) fp (ma_filename entry)
  end.

Definition serve d (now : T) (user_id : Z) (rq : read_request) : res exn read_response :=
  let allowed := allowed_account_ids_of d user_id in
  match rq with
  | GetMessage message_id headers external_images =>
      let* mid := Ids.parse_int_id message_id in
      RespMessage <$> get_message d mid allowed headers external_images
  | GetRaw message_id =>
      let* mid := Ids.parse_int_id message_id in
      RespRaw <$> get_message_raw d mid allowed
  | GetMessageAttachment message_id index q =>
      let* mid := Ids.parse_int_id message_id in
      let* idx := Ids.parse_int_id index in
      RespBlob <$> message_attachment d mid idx q allowed
  | GetMessageAttachmentText message_id index offset limit =>
      let* mid := Ids.parse_int_id message_id in
      let* idx := Ids.parse_int_id index in
      let* window := text_window_from_query offset limit in
      let* entry := resolve_message_attachment d mid idx allowed in
      RespText <$> get_attachment_text_page d (ma_sha256 entry) allowed window
  | GetBlob sha256 q => RespBlob <$> stream_blob d sha256 q allowed
  | GetBlobText sha256 offset limit =>
      let* window := text_window_from_query offset limit in
      RespText <$> get_attachment_text_page d sha256 allowed window
  | GetAccounts => Ok (RespAccounts (list_accounts d now allowed))
  | GetFolders account_id =>
      let* aid := Ids.parse_int_id account_id in
      Ok (RespFolders (list_folders d aid allowed))
  end.
End reads.
End Reads.
