(* ===== verification/ReadsFacts.v ===== *)
(** * What the message, attachment and account endpoints tell a caller *)
From S2P Require Import Prelude PyStr Base64 Datetime Errors Query Utf8 Odict PySort.
From S2P Require Import Browse TextWindow Json Sanitize HeaderBlock HttpBlob Reads.
Import Text_window Json Sanitize Header_block Blob_response Reads.

Section facts.
Context `{Datetime T} `{PyUnicode} `{EmailPolicy} `{PgRead}.
Context (nh3_clean : pystr -> clean_options -> pystr).
Notation read_db := (read_db T).
Implicit Types (d : read_db) (allowed : list Z).

(** ** What a caller is granted *)

Definition granted_messages allowed d : gmap Z (mail T) :=
  filter (fun r : Z * mail T => ml_account r.2 ∈ allowed) (rd_messages d).
Definition granted_mailboxes allowed d : gmap Z (mailbox T) :=
  filter (fun r : Z * mailbox T => mb_account r.2 ∈ allowed) (rd_mailboxes d).
Definition granted_accounts allowed d : gmap Z account :=
  filter (fun r : Z * account => r.1 ∈ allowed) (rd_accounts d).
(** The blob named by some entry of an attachments column. *)
Definition mentions (j : json) (sha : bytes) : Prop :=
  exists l a s, or_empty j = Ok l /\ a ∈ l /\ get (lit "sha256") a = Ok (JStr s) /\ Hex.fromhex s = Some sha.
Definition granted_blob allowed d (sha : bytes) : Prop :=
  exists mid m, granted_messages allowed d !! mid = Some m /\ mentions (ml_attachments m) sha.

(** A label joins a message and a mailbox of one account. *)
Definition labels_ok d : Prop := forall mid mb, (mid, mb) ∈ rd_labels d ->
  exists m box, rd_messages d !! mid = Some m /\ rd_mailboxes d !! mb = Some box /\ ml_account m = mb_account box.

(** Two databases that differ only in what [allowed] does not reach. *)
Record agree allowed d d' : Prop := {
  ag_messages : granted_messages allowed d = granted_messages allowed d';
  ag_mailboxes : granted_mailboxes allowed d = granted_mailboxes allowed d';
  ag_accounts : granted_accounts allowed d = granted_accounts allowed d';
  ag_labels : forall mid mb, is_Some (granted_messages allowed d !! mid) \/ is_Some (granted_mailboxes allowed d !! mb) ->
    (mid, mb) ∈ rd_labels d <-> (mid, mb) ∈ rd_labels d';
  ag_blobs : forall sha, granted_blob allowed d sha ->
    rd_blobs d !! sha = rd_blobs d' !! sha /\ rd_texts d !! sha = rd_texts d' !! sha;
  ag_files : forall sha row, granted_blob allowed d sha -> rd_blobs d !! sha = Some row ->
    rd_files d !! bl_path row = rd_files d' !! bl_path row;
}.

(** ** Each accessor reads granted rows *)

Lemma select_message_granted d mid allowed : select_message d mid allowed = granted_messages allowed d !! mid.
Proof.
  unfold select_message, granted_messages. rewrite map_lookup_filter.
  destruct (rd_messages d !! mid) as [m |]; [| done]. cbn. by case_bool_decide; [rewrite option_guard_True | rewrite option_guard_False].
Qed.
Lemma filter_account_granted {A} (acc : A -> Z) (m m' : gmap Z A) allowed aid :
  filter (fun r : Z * A => acc r.2 ∈ allowed) m = filter (fun r : Z * A => acc r.2 ∈ allowed) m' -> aid ∈ allowed ->
  filter (fun r : Z * A => acc r.2 = aid) m = filter (fun r : Z * A => acc r.2 = aid) m'.
Proof.
  intros Hm Ha.
  assert (G : forall x : gmap Z A, filter (fun r : Z * A => acc r.2 = aid) x =
    filter (fun r : Z * A => acc r.2 = aid) (filter (fun r : Z * A => acc r.2 ∈ allowed) x)).
  { intros x. rewrite map_filter_filter_l; [done |]. intros k a _ <-. done. }
  by rewrite G, Hm, <- G.
Qed.

Lemma contains_mentions s j sha :
  contains_member (lit "sha256") s j = true -> Hex.fromhex s = Some sha -> mentions j sha.
Proof.
  destruct j as [| | | | | l |]; try done. cbn [contains_member]. rewrite existsb_exists. intros (e & He & Hm) Hs.
  destruct e as [| | | | | | o]; try done. destruct (od_get _ o) as [[| | | | s' | |] |] eqn:Eo; try done.
  apply bool_decide_eq_true in Hm as ->. exists l, (JObj o), s. split_and!; [by destruct l | by apply list_elem_of_In | | done].
  cbn [get]. by rewrite Eo.
Qed.

Section pair.
Context allowed d d' (Hd : agree allowed d d').

Lemma select_message_same mid : select_message d mid allowed = select_message d' mid allowed.
Proof using Hd. rewrite !select_message_granted. by rewrite (ag_messages _ _ _ Hd). Qed.
Lemma get_message_raw_same mid : get_message_raw d mid allowed = get_message_raw d' mid allowed.
Proof using Hd. unfold get_message_raw. by rewrite select_message_same. Qed.
Lemma header_entries_same mid prefix : header_entries d mid allowed prefix = header_entries d' mid allowed prefix.
Proof using Hd. unfold header_entries. by rewrite get_message_raw_same. Qed.

Lemma carriers_same s : carriers d s allowed = carriers d' s allowed.
Proof using Hd.
  unfold carriers. pose proof (ag_messages _ _ _ Hd) as Hm. unfold granted_messages in Hm. by rewrite Hm.
Qed.
Lemma carriers_granted_blob s sha : Hex.fromhex s = Some sha -> caller_can_read_blob d s allowed = true ->
  granted_blob allowed d sha.
Proof.
  intros Hs. unfold caller_can_read_blob. destruct allowed as [| a l] eqn:Ea; [done |]. rewrite <- Ea.
  destruct (carriers d s allowed) as [| [mid m] cs] eqn:Ec; [done |]. intros _.
  assert (Hin : (mid, m) ∈ carriers d s allowed) by (rewrite Ec; left).
  unfold carriers in Hin. rewrite py_sorted_elem in Hin. apply list_elem_of_filter in Hin as [Hc Hin].
  apply elem_of_map_to_list in Hin. exists mid, m. split; [exact Hin |]. by eapply contains_mentions.
Qed.
Lemma parse_sha_fromhex s sha : parse_sha256_hex (JStr s) = Ok sha -> Hex.fromhex s = Some sha.
Proof.
  unfold parse_sha256_hex. destruct (length s =? 64)%nat; [| done]. destruct (Hex.fromhex s); [| done]. by intros [= ->].
Qed.
Lemma can_read_same s : caller_can_read_blob d s allowed = caller_can_read_blob d' s allowed.
Proof using Hd. unfold caller_can_read_blob. by rewrite carriers_same. Qed.
Lemma lookup_blob_row_same s : lookup_blob_row d s allowed = lookup_blob_row d' s allowed.
Proof using Hd.
  unfold lookup_blob_row. destruct (parse_sha256_hex (JStr s)) as [sha |] eqn:Es; [| done].
  rewrite <- can_read_same. destruct (caller_can_read_blob d s allowed) eqn:Ec; [| done].
  destruct (ag_blobs _ _ _ Hd sha) as [-> _]; [| done]. eapply carriers_granted_blob; [| done]. by apply parse_sha_fromhex.
Qed.
Lemma open_blob_same s row : lookup_blob_row d s allowed = Ok row ->
  open_blob_file_at d (bl_path row) = open_blob_file_at d' (bl_path row).
Proof using Hd.
  unfold lookup_blob_row, open_blob_file_at. intros Hl.
  destruct (parse_sha256_hex (JStr s)) as [sha |] eqn:Es; [| done].
  destruct (caller_can_read_blob d s allowed) eqn:Ec; [| done].
  destruct (rd_blobs d !! sha) as [row' |] eqn:Eb; [| done]. injection Hl as ->.
  rewrite (ag_files _ _ _ Hd sha row); [done | | done]. eapply carriers_granted_blob; [| done]. by apply parse_sha_fromhex.
Qed.
Lemma get_attachment_filename_same s : get_attachment_filename d s allowed = get_attachment_filename d' s allowed.
Proof using Hd. unfold get_attachment_filename. by rewrite carriers_same. Qed.
Lemma get_attachment_text_page_same s w :
  get_attachment_text_page d s allowed w = get_attachment_text_page d' s allowed w.
Proof using Hd.
  unfold get_attachment_text_page. destruct (parse_sha256_hex (JStr s)) as [sha |] eqn:Es; [| done].
  rewrite <- can_read_same. destruct (caller_can_read_blob d s allowed) eqn:Ec; [| done].
  destruct (ag_blobs _ _ _ Hd sha) as [_ ->]; [| done]. eapply carriers_granted_blob; [| done]. by apply parse_sha_fromhex.
Qed.
Lemma resolve_same mid idx : resolve_message_attachment d mid idx allowed = resolve_message_attachment d' mid idx allowed.
Proof using Hd. unfold resolve_message_attachment. by rewrite select_message_same. Qed.

Lemma stream_blob_same s q : stream_blob d s q allowed = stream_blob d' s q allowed.
Proof using Hd.
  unfold stream_blob, get_attachment_blob_info. rewrite <- lookup_blob_row_same, <- get_attachment_filename_same.
  destruct (lookup_blob_row d s allowed) as [row |] eqn:E; [| done]. by rewrite (open_blob_same _ _ E).
Qed.
Lemma message_attachment_same mid idx q : message_attachment d mid idx q allowed = message_attachment d' mid idx q allowed.
Proof using Hd.
  unfold message_attachment, get_attachment_blob_info. rewrite <- resolve_same.
  destruct (resolve_message_attachment d mid idx allowed) as [e |]; [| done]. rewrite <- lookup_blob_row_same.
  destruct (lookup_blob_row d (ma_sha256 e) allowed) as [row |] eqn:E; [| done]. by rewrite (open_blob_same _ _ E).
Qed.

Lemma granted_mailbox mb box : rd_mailboxes d !! mb = Some box -> mb_account box ∈ allowed ->
  granted_mailboxes allowed d !! mb = Some box.
Proof. intros Hb Ha. unfold granted_mailboxes. by apply map_lookup_filter_Some. Qed.
Lemma folder_rows_same mid : labels_ok d -> is_Some (granted_messages allowed d !! mid) ->
  folder_rows d mid = folder_rows d' mid.
Proof using Hd.
  intros Hl Hm. unfold folder_rows. f_equal.
  assert (Hf : filter (fun l : Z * Z => l.1 = mid) (rd_labels d) = filter (fun l : Z * Z => l.1 = mid) (rd_labels d')).
  { apply set_eq. intros [m mb]. rewrite !elem_of_filter. cbn.
    split; (intros [-> Hin]; split; [done |]); revert Hin; apply (ag_labels _ _ _ Hd); by left. }
  rewrite <- Hf. apply omap_ext_in. intros [m mb] [Hmid Hin]%elem_of_elements%elem_of_filter. cbn in Hmid |- *. subst m.
  destruct (Hl mid mb Hin) as (row & box & Hr & Hb & Hacc). destruct Hm as [row' Hm].
  apply map_lookup_filter_Some in Hm as [Hr' Ha]. cbn in Ha. simplify_eq.
  assert (Hg : granted_mailboxes allowed d !! mb = Some box) by (apply granted_mailbox; [done | by rewrite <- Hacc]).
  rewrite Hb. rewrite (ag_mailboxes _ _ _ Hd) in Hg. by apply map_lookup_filter_Some in Hg as [-> _].
Qed.

Lemma sha_hexes_elem l hexes h : sha_hexes l = Ok hexes -> h ∈ hexes -> exists a, a ∈ l /\ get (lit "sha256") a = Ok h.
Proof.
  revert hexes. induction l as [| a l IH]; intros hexes; cbn; [intros [= <-] []%elem_of_nil |].
  destruct (get _ a) as [sha |] eqn:Ea; [| done]. destruct (truthy sha).
  - destruct (hashable sha); [| done]. destruct (sha_hexes l) as [rest |]; [| done]. intros [= <-].
    intros [-> | Hh]%elem_of_cons; [exists a; split; [left | done] |].
    destruct (IH _ eq_refl Hh) as (a' & ? & ?). exists a'. split; [by right | done].
  - intros Hr Hh. destruct (IH _ Hr Hh) as (a' & ? & ?). exists a'. split; [by right | done].
Qed.
Lemma sha_bytes_elem hexes shas b : sha_bytes hexes = Ok shas -> b ∈ shas ->
  exists s, JStr s ∈ hexes /\ Hex.fromhex s = Some b.
Proof.
  revert shas. induction hexes as [| h l IH]; intros shas; cbn; [intros [= <-] []%elem_of_nil |].
  destruct h as [| | | | s | |]; try done. cbn. destruct (sha_bytes l) as [rest |]; [| done].
  destruct (Hex.fromhex s) as [b' |] eqn:E; intros [= <-].
  - intros [-> | Hb]%elem_of_cons; [exists s; split; [left | done] |].
    destruct (IH _ eq_refl Hb) as (s' & ? & ?). exists s'. split; [by right | done].
  - intros Hb. destruct (IH _ eq_refl Hb) as (s' & ? & ?). exists s'. split; [by right | done].
Qed.
Lemma load_attachment_meta_same mid m atts : granted_messages allowed d !! mid = Some m ->
  or_empty (ml_attachments m) = Ok atts -> load_attachment_meta d atts = load_attachment_meta d' atts.
Proof using Hd.
  intros Hm Ha. unfold load_attachment_meta. destruct (sha_hexes atts) as [hexes |] eqn:Eh; [| done].
  destruct (sha_bytes hexes) as [shas |] eqn:Es; [| done]. f_equal. apply omap_ext_in. intros sha Hsha.
  destruct (sha_bytes_elem _ _ _ Es Hsha) as (s & Hs & Hf). destruct (sha_hexes_elem _ _ _ Eh Hs) as (a & Hin & Hg).
  destruct (ag_blobs _ _ _ Hd sha) as [-> _]; [| done]. exists mid, m. split; [done |]. by exists atts, a, s.
Qed.

Lemma granted_account aid : aid ∈ allowed -> rd_accounts d !! aid = rd_accounts d' !! aid.
Proof using Hd.
  intros Ha. assert (G : forall x : read_db, granted_accounts allowed x !! aid = rd_accounts x !! aid).
  { intros x. unfold granted_accounts. rewrite map_lookup_filter. destruct (rd_accounts x !! aid); [| done]. cbn.
    by rewrite option_guard_True. }
  by rewrite <- !G, (ag_accounts _ _ _ Hd).
Qed.

Lemma get_message_same mid headers ext : labels_ok d ->
  get_message nh3_clean d mid allowed headers ext = get_message nh3_clean d' mid allowed headers ext.
Proof using Hd.
  intros Hl. unfold get_message. destruct (parse_header_mode headers) as [mode |]; [| done].
  rewrite <- select_message_same, select_message_granted. apply match_nil_ext.
  destruct (granted_messages allowed d !! mid) as [row |] eqn:Em; [| done].
  pose proof Em as [_ Hin]%map_lookup_filter_Some. cbn in Hin. rewrite (granted_account _ Hin).
  destruct (rd_accounts d' !! ml_account row) as [acct |]; [| done].
  destruct (or_empty (ml_attachments row)) as [atts |] eqn:Eo; [| done].
  rewrite (folder_rows_same mid Hl) by by rewrite Em. rewrite (load_attachment_meta_same _ _ _ Em Eo).
  by rewrite !header_entries_same.
Qed.

Lemma list_accounts_same now : list_accounts d now allowed = list_accounts d' now allowed.
Proof using Hd.
  unfold list_accounts. apply match_nil_ext.
  pose proof (ag_accounts _ _ _ Hd) as Hacc. unfold granted_accounts in Hacc. rewrite Hacc.
  apply fmap_ext_in. intros [aid a] Hin. unfold by_name in Hin. rewrite py_sorted_elem in Hin.
  apply elem_of_map_to_list, map_lookup_filter_Some in Hin as [_ Hin]. cbn in Hin.
  rewrite (filter_account_granted mb_account _ _ _ _ (ag_mailboxes _ _ _ Hd) Hin).
  by rewrite (filter_account_granted ml_account _ _ _ _ (ag_messages _ _ _ Hd) Hin).
Qed.
Lemma list_folders_same aid : list_folders d aid allowed = list_folders d' aid allowed.
Proof using Hd.
  unfold list_folders. case_bool_decide as Ha; [| done].
  rewrite (filter_account_granted mb_account _ _ _ _ (ag_mailboxes _ _ _ Hd) Ha).
  apply fmap_ext_in. intros [mb box] Hin. unfold by_name in Hin. rewrite py_sorted_elem in Hin.
  apply elem_of_map_to_list in Hin.
  assert (Hg : is_Some (granted_mailboxes allowed d !! mb)).
  { rewrite (ag_mailboxes _ _ _ Hd). exists box. unfold granted_mailboxes.
    apply map_lookup_filter_Some in Hin as [Hb Hacc]. apply map_lookup_filter_Some. cbn in *. by rewrite Hacc. }
  assert (Hf : filter (fun l : Z * Z => l.2 = mb) (rd_labels d) = filter (fun l : Z * Z => l.2 = mb) (rd_labels d')).
  { apply set_eq. intros [m mb']. rewrite !elem_of_filter. cbn.
    split; (intros [-> Hl]; split; [done |]); revert Hl; apply (ag_labels _ _ _ Hd); by right. }
  by rewrite Hf.
Qed.
End pair.

(** C5: A caller learns nothing of mail outside their grants: whatever the
    message, attachment, account and folder endpoints answer, refusals included,
    is the same on any two databases that agree on the caller's grants and on the
    accounts, mailboxes, messages, labels and blobs those grants reach. *)
Theorem reads_see_only_grants d d' now user rq :
  allowed_account_ids_of d user = allowed_account_ids_of d' user -> labels_ok d ->
  agree (allowed_account_ids_of d user) d d' ->
  serve nh3_clean d now user rq = serve nh3_clean d' now user rq.
Proof.
  intros Hal Hl Hd. unfold serve. rewrite <- Hal. destruct rq as [mid h x | mid | mid idx q | mid idx o l | s q | s o l | | aid].
  - destruct (Ids.parse_int_id mid); [| done]. by rewrite (get_message_same _ _ _ Hd _ _ _ Hl).
  - destruct (Ids.parse_int_id mid); [| done]. by rewrite (get_message_raw_same _ _ _ Hd).
  - destruct (Ids.parse_int_id mid), (Ids.parse_int_id idx); try done. by rewrite (message_attachment_same _ _ _ Hd).
  - destruct (Ids.parse_int_id mid), (Ids.parse_int_id idx), (text_window_from_query o l); try done.
    rewrite (resolve_same _ _ _ Hd). destruct (resolve_message_attachment _ _ _ _); [| done].
    by rewrite (get_attachment_text_page_same _ _ _ Hd).
  - by rewrite (stream_blob_same _ _ _ Hd).
  - destruct (text_window_from_query o l); [| done]. by rewrite (get_attachment_text_page_same _ _ _ Hd).
  - by rewrite (list_accounts_same _ _ _ Hd).
  - destruct (Ids.parse_int_id aid); [| done]. by rewrite (list_folders_same _ _ _ Hd).
Qed.

(** ** A message that can be read is served *)

(** An attachment entry as the parser writes it. *)
Definition plain_entry (a : json) : Prop := exists o sha cid,
  a = JObj o /\ get (lit "sha256") a = Ok sha /\ get (lit "content_id") a = Ok cid /\
  (sha = JNull \/ exists s, sha = JStr s) /\ (cid = JNull \/ exists s, cid = JStr s).

Lemma select_message_allowed d mid allowed row : select_message d mid allowed = Some row -> allowed <> [].
Proof. rewrite select_message_granted. intros [_ Hin]%map_lookup_filter_Some. cbn in Hin. by intros ->; apply elem_of_nil in Hin. Qed.

(** Reading a bounded prefix first is never observable. *)
Lemma header_entries_exact d mid allowed row : select_message d mid allowed = Some row ->
  header_entries d mid allowed (take (Z.to_nat PREFIX_READ_BYTES) (ml_raw_bytes row)) =
    Ok (parse_header_block (header_block_of_whole (ml_raw_bytes row))).
Proof.
  intros Hs. unfold header_entries. destruct (header_block _ _) as [b |] eqn:E.
  - by rewrite (header_block_prefix _ _ E).
  - unfold get_message_raw. rewrite Hs. pose proof (select_message_allowed _ _ _ _ Hs). by destruct allowed.
Qed.

Lemma build_cid_map_ok atts : Forall plain_entry atts -> is_ok (build_cid_map atts) = true.
Proof.
  unfold build_cid_map. generalize (@nil (pystr * json)). induction atts as [| a atts IH]; intros out; [done |].
  intros [(o & sha & cid & _ & Hs & Hc & _ & Hcid) Ha]%Forall_cons. cbn [foldM]. rewrite Hc, Hs.
  destruct Hcid as [-> | [c ->]]; [by apply IH |]. destruct (_ && _); by apply IH.
Qed.
Lemma sha_hexes_ok atts : Forall plain_entry atts -> exists hexes, sha_hexes atts = Ok hexes /\
  Forall (fun h => exists s, h = JStr s) hexes /\
  forall a s, a ∈ atts -> get (lit "sha256") a = Ok (JStr s) -> s <> [] -> JStr s ∈ hexes.
Proof.
  induction atts as [| a atts IH].
  { intros _. exists []. split; [done |]. split; [constructor |]. by intros a s ?%elem_of_nil. }
  intros [(o & sha & cid & _ & Hs & _ & Hsha & _) Ha]%Forall_cons.
  destruct (IH Ha) as (hexes & Hh & Hstr & Hin). cbn [sha_hexes]. rewrite Hs, Hh.
  assert (Hrest : forall h hs, truthy sha = h -> hs = (if h then sha :: hexes else hexes) ->
    forall a' s, a' ∈ a :: atts -> get (lit "sha256") a' = Ok (JStr s) -> s <> [] -> JStr s ∈ hs).
  { intros h hs Ht -> a' s [-> | Ha']%elem_of_cons Hg Hne.
    - rewrite Hs in Hg. injection Hg as ->. destruct s; [done |]. cbn in Ht. subst h. left.
    - destruct h; [right |]; by eapply Hin. }
  destruct Hsha as [-> | [s ->]]; [exists hexes; split_and!; [done | done | by eapply (Hrest false)] |].
  destruct (truthy (JStr s)) eqn:Et; cbn [hashable].
  - exists (JStr s :: hexes). split_and!; [done | by constructor; [exists s |] | by eapply (Hrest true)].
  - exists hexes. split_and!; [done | done | by eapply (Hrest false)].
Qed.
Lemma sha_bytes_ok hexes : Forall (fun h => exists s, h = JStr s) hexes -> exists shas, sha_bytes hexes = Ok shas /\
  forall s b, JStr s ∈ hexes -> Hex.fromhex s = Some b -> b ∈ shas.
Proof.
  induction 1 as [| h hexes [s ->] _ (shas & Hs & Hin)]; [exists []; split; [done | by intros s b ?%elem_of_nil] |].
  cbn [sha_bytes as_str]. rewrite Hs. destruct (Hex.fromhex s) as [b |] eqn:E.
  - exists (b :: shas). split; [done |]. intros s' b' [[= ->] | Hs']%elem_of_cons Hb; [simplify_eq; left | right; by eapply Hin].
  - exists shas. split; [done |]. intros s' b' [[= ->] | Hs']%elem_of_cons Hb; [congruence | by eapply Hin].
Qed.
Lemma blob_meta_get (blobs : gmap bytes blob_row) shas b :
  Forall (fun sha => Forall (fun x => 0 <= x < 256) sha) shas -> b ∈ shas ->
  od_get (Hex.hex b) (omap (fun sha => (fun r => (Hex.hex sha, (bl_mime_type r, bl_size_bytes r))) <$> blobs !! sha) shas) =
    (fun r => (bl_mime_type r, bl_size_bytes r)) <$> blobs !! b.
Proof.
  intros Hall Hb. assert (Hbb : Forall (fun x => 0 <= x < 256) b) by (rewrite Forall_forall in Hall; by apply Hall).
  assert (G : forall l, Forall (fun sha => Forall (fun x => 0 <= x < 256) sha) l -> b ∈ l \/ blobs !! b = None ->
    od_get (Hex.hex b) (omap (fun sha => (fun r => (Hex.hex sha, (bl_mime_type r, bl_size_bytes r))) <$> blobs !! sha) l) =
      (fun r => (bl_mime_type r, bl_size_bytes r)) <$> blobs !! b); [| by apply G; [| left]].
  clear Hall Hb. induction l as [| sha l IH]; intros Hall Hb.
  - destruct Hb as [Hb%elem_of_nil | ->]; done.
  - apply Forall_cons in Hall as [Hsha Hall]. cbn [omap list_omap].
    destruct (decide (sha = b)) as [-> | Hne].
    + destruct (blobs !! b) as [r |] eqn:Er; cbn; [by rewrite decide_True | by rewrite IH; [| | right]].
    + assert (Hb' : b ∈ l \/ blobs !! b = None) by (destruct Hb as [[-> | Hb]%elem_of_cons | Hb]; [done | by left | by right]).
      destruct (blobs !! sha) as [r |]; cbn; [| by apply IH].
      rewrite decide_False; [by apply IH |]. intros Heq. apply Hne.
      apply (f_equal Hex.fromhex) in Heq. rewrite !Hex.fromhex_hex in Heq by done. by injection Heq.
Qed.
Lemma mapR_ok {A B} (f : A -> res exn B) l : Forall (fun x => is_ok (f x) = true) l -> exists ys, mapR f l = Ok ys /\
  Forall2 (fun x y => f x = Ok y) l ys.
Proof.
  induction 1 as [| x l Hx _ (ys & Hy & Hf)]; [by exists [] |]. cbn. destruct (f x) as [y |] eqn:E; [| done].
  rewrite Hy. exists (y :: ys). split; [done |]. by constructor.
Qed.

(** A visible message whose attachments are as the parser writes them is
    always served: its header entries are those of its whole header block
    however long the message, grouped under [full] and in wire order under
    [list], each value storable text; and every attachment is listed in order,
    with the type and size of the blob its hash names. *)
Lemma message_is_served d mid allowed headers ext mode row acct atts :
  parse_header_mode headers = Ok mode -> select_message d mid allowed = Some row ->
  rd_accounts d !! ml_account row = Some acct -> ml_attachments row = JArr atts -> Forall plain_entry atts ->
  let es := parse_header_block (header_block_of_whole (ml_raw_bytes row)) in
  exists md, get_message nh3_clean d mid allowed headers ext = Ok md /\
    md_headers md = match mode with
                    | HCompact => HeadersAbsent
                    | HList => HeadersList es
                    | HFull => HeadersFull (group_entries es)
                    end /\
    Forall (fun e => Query.storable (he_value e) = true) es /\
    Forall2 (fun a e =>
      get (lit "filename") a = Ok (ae_filename e) /\ get (lit "sha256") a = Ok (ae_sha256 e) /\
      forall b, b <> [] -> Forall (fun x => 0 <= x < 256) b -> ae_sha256 e = JStr (Hex.hex b) ->
        ae_content_type e = (rd_blobs d !! b ≫= bl_mime_type) /\ ae_size e = bl_size_bytes <$> rd_blobs d !! b)
      atts (md_attachments md).
Proof.
  intros Hmode Hsel Hacct Hatts Hplain es. unfold get_message. rewrite Hmode, Hsel, Hacct, Hatts.
  pose proof (select_message_allowed _ _ _ _ Hsel). destruct allowed as [| x al] eqn:Ea; [done |]. rewrite <- Ea in *.
  assert (or_empty (JArr atts) = Ok atts) as -> by by destruct atts.
  pose proof (build_cid_map_ok _ Hplain). destruct (build_cid_map atts) as [cids |]; [| done].
  destruct (sha_hexes_ok _ Hplain) as (hexes & Hh & Hstr & Hhin). destruct (sha_bytes_ok _ Hstr) as (shas & Hs & Hsin).
  unfold load_attachment_meta. rewrite Hh, Hs.
  assert (Hby : Forall (fun sha => Forall (fun x => 0 <= x < 256) sha) shas).
  { apply Forall_forall. intros sha Hsha. destruct (sha_bytes_elem _ _ _ Hs Hsha) as (s & _ & Hf). by eapply Hex.fromhex_bytes. }
  set (meta := omap _ shas).
  destruct (mapR_ok (attachment_entry meta) atts) as (entries & -> & Hentries).
  { eapply Forall_impl; [exact Hplain |]. intros a (o & sha & cid & -> & Hsha & _ & Hst & _).
    unfold attachment_entry. rewrite Hsha. by destruct Hst as [-> | [s ->]]. }
  rewrite !(header_entries_exact _ _ _ _ Hsel). fold es.
  assert (Hval : Forall (fun e => Query.storable (he_value e) = true) es).
  { apply Forall_forall. intros e He. unfold es, parse_header_block, entries_from_message in He.
    apply list_elem_of_fmap in He as (it & -> & _). apply strip_replace_storable. }
  assert (Hes : Forall2 (fun a e =>
      get (lit "filename") a = Ok (ae_filename e) /\ get (lit "sha256") a = Ok (ae_sha256 e) /\
      forall b, b <> [] -> Forall (fun x => 0 <= x < 256) b -> ae_sha256 e = JStr (Hex.hex b) ->
        ae_content_type e = (rd_blobs d !! b ≫= bl_mime_type) /\ ae_size e = bl_size_bytes <$> rd_blobs d !! b)
      atts entries).
  { apply Forall2_same_length_lookup_2; [by eapply Forall2_length |]. intros i a e Hai Hei.
    pose proof (Forall2_lookup_lr _ _ _ _ _ _ Hentries Hai Hei) as He. unfold attachment_entry in He.
    destruct (get (lit "sha256") a) as [sha |] eqn:Hsha; [| done]. destruct (hashable sha) eqn:Ehash; [| done].
    destruct (get (lit "filename") a) as [fn |] eqn:Efn; [| done]. injection He as <-. cbn. split_and!; [done | done |].
    intros b Hne Hb ->. unfold meta. rewrite blob_meta_get; [by destruct (rd_blobs d !! b) | done |].
    eapply Hsin; [| by apply Hex.fromhex_hex]. eapply Hhin; [by eapply list_elem_of_lookup_2 | exact Hsha |].
    intros Hnil%(f_equal length). rewrite Hex.hex_length in Hnil. destruct b; [done | cbn in Hnil; lia]. }
  destruct mode; eexists; cbn; (split; [done |]); done.
Qed.
End facts.

(** The comment on [_load_attachment_meta] says a malformed hash must not fail the
    whole message; one that is not a string raises a [TypeError]. *)
Lemma numeric_sha_fails_the_message `{Datetime T} (d : read_db T) :
  load_attachment_meta d [JObj [(lit "sha256", JInt 5)]] = Err TypeError.
Proof. reflexivity. Qed.

(** ** A concrete archive *)
Module Example_reads.
#[local] Existing Instance Query.ascii_unicode.
#[local] Instance no_policy : EmailPolicy :=
  {| raw_items := fun b => [(lit "X-Block", b)]; header_fetch_parse := fun _ _ => None |}.
#[local] Instance pg : PgRead :=
  {| collate_lt := fun a b => bool_decide (length a < length b)%nat;
     jsonb_arrow := fun j i => match j with JArr l => l !! Z.to_nat i | _ => None end;
     json_text := fun _ => lit "?" |}.
Notation dt := Calendar.datetime.
Definition sha : bytes := repeat 171 32.
Definition entry : json := JObj [(lit "filename", JStr (lit "a.pdf")); (lit "sha256", JStr (Hex.hex sha))].
Definition row (acct : Z) (subject : pystr) : mail dt :=
  Mail acct (Some subject) None None None None None (Some (lit "body")) None (JArr [entry]) None
    (lit "Subject: x" ++ [13; 10; 13; 10] ++ lit "body").
Definition base (messages : gmap Z (mail dt)) : read_db dt :=
  ReadDb {[(1, 10)]} {[10 := Account (lit "mine") (lit "m@x"); 20 := Account (lit "theirs") (lit "t@x")]}
    {[100 := Mailbox 10 (lit "INBOX") None None None; 200 := Mailbox 20 (lit "INBOX") None None None]}
    messages {[(7, 100)]} {[sha := BlobRow (Some (lit "application/pdf")) 3 (lit "/b")]} ∅
    {[lit "/b" := File [1; 2; 3] None]}.
Definition alone : read_db dt := base {[7 := row 10 (lit "hello")]}.
Definition crowded : read_db dt := base {[7 := row 10 (lit "hello"); 8 := row 20 (lit "secret")]}.

Lemma labels_alone : labels_ok alone.
Proof.
  intros mid mb Hin. change ((mid, mb) ∈ ({[(7, 100)]} : gset (Z * Z))) in Hin.
  apply elem_of_singleton in Hin. injection Hin as -> ->. by eexists _, _.
Qed.
Lemma agree_alone : agree [10] alone crowded.
Proof.
  split; try by vm_compute.
  all: intros; done.
Qed.
Lemma reads_see_only_grants_witness :
  serve (fun h _ => h) alone (Browse.sample_dt 5) 1 (GetMessage (lit "8") (lit "compact") false) =
  serve (fun h _ => h) crowded (Browse.sample_dt 5) 1 (GetMessage (lit "8") (lit "compact") false).
Proof. apply reads_see_only_grants; [by vm_compute | apply labels_alone | apply agree_alone]. Defined.
End Example_reads.
