(* ===== verification/ClientIp.v ===== *)
(** * The originating client address ([api/client_ip.py])

    Right-to-left peeling of [X-Forwarded-For] against the trusted proxies.
    Python's [ipaddress] is the interface [IpAddress]; log lines are dropped. *)
From S2P Require Import Prelude PyStr.

Class IpAddress := {
  ip : Type;
  net : Type;
  ip_address : pystr -> option ip;           (* [None]: [ValueError] *)
  ip_str : ip -> pystr;
  ip_in : ip -> net -> bool;
  isdigit : pystr -> bool;                   (* [str.isdigit] *)
}.

Module Client_ip.
Section client_ip.
Context `{IpAddress}.
Implicit Types (trusted_proxies : list net).

Definition count (c : Z) (s : pystr) : nat := length (filter (fun x => x = c) s).

(** [_normalise_xff_entry] *)
Definition normalise_xff_entry (raw : pystr) : option pystr :=
  match strip raw with
  | [] => None
  | s =>
      let bare :=
        if startswith s (lit "[") then
          match partition_at 93 s with (a, Some _) => Some (drop 1 a) | (_, None) => None end
        else if (count 58 s =? 1)%nat then
          match rpartition_at 58 s with
          | (Some host, port) => if isdigit port && negb (bool_decide (host = [])) then Some host else Some s
          | (None, _) => Some s
          end
        else Some s in
      match bare with
      | None => None
      | Some s =>
          let s := if contains 37 s then (partition_at 37 s).1 else s in
          match s with [] => None | _ => Some s end
      end
  end.
Definition in_trusted (a : ip) trusted_proxies : bool := existsb (ip_in a) trusted_proxies.

(** [[e for e in (s.strip() for s in xff.split(",")) if e]] *)
Definition xff_entries (xff_header : pystr) : list pystr :=
  filter (fun e => e <> []) (strip <$> split_on 44 xff_header).

(** The loop over the reversed entries, after [walked] of them. *)
Fixpoint peel (socket_peer : pystr) trusted_proxies (max_hops : Z) (walked : Z) (entries : list pystr) : pystr :=
  match entries with
  | [] => socket_peer
  | raw :: entries =>
      if max_hops <=? walked then socket_peer
      else match normalise_xff_entry raw ≫= ip_address with
           | None => socket_peer
           | Some entry_ip =>
               if in_trusted entry_ip trusted_proxies
               then peel socket_peer trusted_proxies max_hops (walked + 1) entries
               else ip_str entry_ip
           end
  end.

Definition resolve_client_ip (socket_peer xff_header : option pystr) trusted_proxies (max_hops : Z) : option pystr :=
  match socket_peer with
  | None => None
  | Some peer =>
      match trusted_proxies with
      | [] => Some peer
      | _ =>
          match ip_address peer with
          | None => Some peer
          | Some peer_ip =>
              if negb (in_trusted peer_ip trusted_proxies) then Some peer
              else match xff_header with
                   | None | Some [] => Some peer
                   | Some xff =>
                       match xff_entries xff with
                       | [] => Some peer
                       | entries => Some (peel peer trusted_proxies max_hops 0 (reverse entries))
                       end
                   end
          end
      end
  end.

(** ** Facts *)

(** The address an entry stands for. *)
Definition entry_ip (raw : pystr) : option ip := normalise_xff_entry raw ≫= ip_address.

Lemma split_on_sep c a b : split_on c (a ++ c :: b) = split_on c a ++ split_on c b.
Proof.
  induction a as [| x a IH]; cbn [app split_on].
  - by rewrite Z.eqb_refl.
  - destruct (x =? c); [by rewrite IH |]. rewrite IH.
    destruct (split_on c a) as [| w ws] eqn:E; [| done].
    destruct a as [| y a]; cbn in E; [done |]. destruct (y =? c); [done |]. by destruct (split_on c a).
Qed.
Lemma xff_entries_app junk tail : xff_entries (junk ++ 44 :: tail) = xff_entries junk ++ xff_entries tail.
Proof. unfold xff_entries. by rewrite split_on_sep, fmap_app, filter_app. Qed.

Lemma peel_trusted peer trusted max_hops walked proxies rest :
  Forall (fun p => exists a, entry_ip p = Some a /\ in_trusted a trusted = true) proxies ->
  walked + Z.of_nat (length proxies) <= max_hops ->
  peel peer trusted max_hops walked (proxies ++ rest) =
    peel peer trusted max_hops (walked + Z.of_nat (length proxies)) rest.
Proof.
  intros Hp. revert walked. induction Hp as [| p proxies (a & Ha & Ht) _ IH]; intros walked Hw; cbn [app length].
  - f_equal. lia.
  - cbn [length] in Hw. cbn [peel]. rewrite (proj2 (Z.leb_gt _ _)) by lia. unfold entry_ip in Ha. rewrite Ha, Ht.
    rewrite IH by lia. f_equal. lia.
Qed.

(** Behind trusted proxies the client address cannot be spoofed: once the
    proxies have appended the real client and then each other, within the hop
    limit, that client is the answer whatever text came before it in the header. *)
Lemma client_ip_not_spoofable peer trusted max_hops junk tail client proxies peer_ip client_ip :
  ip_address peer = Some peer_ip -> in_trusted peer_ip trusted = true ->
  xff_entries tail = client :: proxies ->
  entry_ip client = Some client_ip -> in_trusted client_ip trusted = false ->
  Forall (fun p => exists a, entry_ip p = Some a /\ in_trusted a trusted = true) proxies ->
  Z.of_nat (length proxies) < max_hops ->
  resolve_client_ip (Some peer) (Some (junk ++ 44 :: tail)) trusted max_hops = Some (ip_str client_ip) /\
  resolve_client_ip (Some peer) (Some tail) trusted max_hops = Some (ip_str client_ip).
Proof.
  intros Hpeer Htp Htail Hc Hct Hp Hn.
  assert (Hpeel : forall before, peel peer trusted max_hops 0 (reverse (before ++ client :: proxies)) = ip_str client_ip).
  { intros before. rewrite reverse_app, reverse_cons, <- !app_assoc. rewrite peel_trusted.
    - cbn [app peel]. rewrite length_reverse, (proj2 (Z.leb_gt _ _)) by lia. unfold entry_ip in Hc. by rewrite Hc, Hct.
    - by apply Forall_reverse.
    - rewrite length_reverse. lia. }
  unfold resolve_client_ip. rewrite Hpeer, Htp. destruct trusted as [| n ns] eqn:En; [done |]. rewrite <- En in *.
  split.
  - destruct (junk ++ 44 :: tail) as [| x s] eqn:Es; [by destruct junk |]. cbn [negb]. rewrite <- Es, xff_entries_app, Htail.
    rewrite <- (Hpeel (xff_entries junk)). by destruct (xff_entries junk).
  - destruct tail as [| x s]; [done |]. cbn [negb]. rewrite Htail. by rewrite <- (Hpeel []).
Qed.

(** What is answered is the socket peer, or an address of the header that no
    trusted network holds, and then only to a trusted peer. *)
Lemma resolved_address peer xff trusted max_hops a :
  resolve_client_ip (Some peer) xff trusted max_hops = Some a ->
  a = peer \/ exists h e addr, xff = Some h /\ e ∈ xff_entries h /\ entry_ip e = Some addr /\
    in_trusted addr trusted = false /\ a = ip_str addr /\
    exists p, ip_address peer = Some p /\ in_trusted p trusted = true.
Proof.
  assert (G : forall l w, peel peer trusted max_hops w l = peer \/ exists e addr, e ∈ l /\ entry_ip e = Some addr /\
    in_trusted addr trusted = false /\ peel peer trusted max_hops w l = ip_str addr).
  { induction l as [| raw l IH]; intros w; cbn [peel]; [by left |]. destruct (_ <=? _); [by left |].
    destruct (normalise_xff_entry raw ≫= ip_address) as [addr |] eqn:E; [| by left].
    destruct (in_trusted addr trusted) eqn:Et.
    - destruct (IH (w + 1)) as [-> | (e & x & ? & ? & ? & ->)]; [by left |]. right. exists e, x. split; [by right | done].
    - right. exists raw, addr. split_and!; [left | done | done | done]. }
  unfold resolve_client_ip. destruct trusted as [| n ns] eqn:En; [intros [= ->]; by left |]. rewrite <- En in *.
  destruct (ip_address peer) as [p |]; [| intros [= ->]; by left].
  destruct (in_trusted p trusted) eqn:Ep; cbn [negb]; [| intros [= ->]; by left].
  destruct xff as [h |]; [| intros [= ->]; by left]. destruct h as [| c s] eqn:Eh; [intros [= ->]; by left |]. rewrite <- Eh in *.
  destruct (xff_entries h) as [| e0 es] eqn:Ee; [intros [= ->]; by left |]. intros [= <-].
  destruct (G (reverse (e0 :: es)) 0) as [-> | (e & addr & Hin & He & Ht & ->)]; [by left |]. right.
  exists h, e, addr. rewrite elem_of_reverse in Hin. do 5 (split; [done || by rewrite Ee |]). by exists p.
Qed.
End client_ip.

Module Example_proxy.
(** Dotted quads, enough to run an example. *)
Definition quad (s : pystr) : option Z :=
  match mapM py_int (split_on 46 s) with
  | Some [a; b; c; d] => Some (a * 16777216 + b * 65536 + c * 256 + d)
  | _ => None
  end.
#[local] Instance ipv4 : IpAddress :=
  {| ip := Z; net := Z; ip_address := quad; ip_str := str_int; ip_in := fun a n => a / 256 =? n;
     isdigit := isascii_isdigit |}.
Definition proxies : list net := [10 * 65536].
End Example_proxy.
End Client_ip.
