(* ===== verification/ExtractQueue.v ===== *)
(** * The attachment extraction queue ([search/extract_queue.py],
    [search/extract_worker.py], [search/attachment_kind.py])

    The four tables, the predicates that divide the blobs, one sweep of the
    worker and the drain loop around it.  The extractors, the docling import
    and the outcome of each write are the environment [env]; an exception is
    its cause chain, outermost first. *)
From S2P Require Import Prelude PyStr MailStore Query.

Inductive exc_class :=
  | TransientExtractorError
  | ConnectionError
  | TimeoutError
  | MemoryError
  | DbContention
  | OtherError (name : pystr).
Notation exc := (list exc_class).

(** ** Tables *)
Record blob := Blob { b_path : pystr; b_mime_type : option pystr; b_size_bytes : Z; b_first_seen_at : Z }.
Record ExtractedText := MkText { et_text : pystr; et_page_count : option Z; et_extractor : pystr }.
Record failed_extraction := FailedExtraction { fx_extractor : pystr; fx_error : exc; fx_retry_count : Z }.
Record transient_extraction := TransientExtraction { tx_error : exc; tx_count : Z }.
Record queue_db := QueueDb {
  attachment_blobs : gmap bytes blob;
  attachment_text : gmap bytes ExtractedText;
  failed_extractions : gmap bytes failed_extraction;
  transient_extractions : gmap bytes transient_extraction }.

Record search_config := SearchConfig {
  run_extract_worker : bool;
  extract_worker_batch_size : nat;
  extract_worker_max_retries : Z;
  extract_worker_max_transient_retries : Z;
  extractor_max_blob_bytes : Z;
  extractor_mime_allowlist : list pystr;
  extractor_extension_allowlist : list pystr }.

(** ** File kinds ([attachment_kind.py]) *)
Module Attachment_kind.
Section kind.
Context `{PyUnicode}.
Definition DOT : Z := 46.
(** [Path(filename).name]: the last component that is neither empty nor [.]. *)
Definition path_name (filename : pystr) : pystr :=
  default [] (last (filter (fun w => w <> [] /\ w <> [DOT]) (split_on 47 filename))).
(** A final dot with text on both sides, and what follows it. *)
Definition dotted_suffix (name : pystr) : pystr :=
  match rpartition_at DOT name with
  | (Some (_ :: _), (_ :: _) as after) => DOT :: after
  | _ => []
  end.
Definition extension_of (filename : pystr) : pystr :=
  match filename with [] => [] | _ => lower (dotted_suffix (path_name filename)) end.
Definition is_allowlisted (mime_type : option pystr) (filenames mime_allowlist extension_allowlist : list pystr) : bool :=
  bool_decide (lower (default [] mime_type) ∈ lower <$> mime_allowlist) ||
  existsb (fun n => bool_decide (extension_of n ∈ lower <$> extension_allowlist)) filenames.
Definition preferred_filename (filenames extension_allowlist : list pystr) : option pystr :=
  match filter (fun n => extension_of n ∈ lower <$> extension_allowlist) filenames with
  | n :: _ => Some n
  | [] => head filenames
  end.
Definition is_pdf (mime_type filename : option pystr) : bool :=
  str_eqb (lower (default [] mime_type)) (lit "application/pdf") ||
  str_eqb (extension_of (default [] filename)) (lit ".pdf").
End kind.
End Attachment_kind.
Import Attachment_kind.

(** ** Predicates and counts ([extract_queue.py]) *)
Module Extract_queue.
Section queue.
Context `{PyUnicode}.

(** One row of [QUEUE_FROM_SQL]: a blob and its three left-joined rows. *)
Record queue_row := QueueRow {
  q_sha256 : bytes; q_blob : blob; q_text : option ExtractedText;
  q_failed : option failed_extraction; q_transient : option transient_extraction }.
Definition queue_row_of (d : queue_db) (sha : bytes) (b : blob) : queue_row :=
  QueueRow sha b (attachment_text d !! sha) (failed_extractions d !! sha) (transient_extractions d !! sha).

Definition UNDER_RETRY_CAPS (cfg : search_config) (r : queue_row) : Sql.cond :=
  Sql.and
    (Sql.or (Sql.is_null (q_failed r))
       (Sql.lt (fx_retry_count <$> q_failed r) (Some (extract_worker_max_retries cfg))))
    (Sql.or (Sql.is_null (q_transient r))
       (Sql.lt (tx_count <$> q_transient r) (Some (extract_worker_max_transient_retries cfg)))).
Definition text_empty (r : queue_row) : Sql.cond := (fun t => bool_decide (et_text t = [])) <$> q_text r.
Definition CLAIMABLE_WHERE (cfg : search_config) (r : queue_row) : Sql.cond :=
  Sql.and (Sql.is_null (q_text r)) (UNDER_RETRY_CAPS cfg r).
Definition GAVE_UP_WHERE (cfg : search_config) (r : queue_row) : Sql.cond :=
  Sql.and (Sql.is_null (q_text r)) (Sql.not (UNDER_RETRY_CAPS cfg r)).
Definition EXTRACTED_WHERE (r : queue_row) : Sql.cond :=
  Sql.and (Sql.is_not_null (q_text r)) (Sql.not (text_empty r)).
Definition NO_TEXT_WHERE (r : queue_row) : Sql.cond :=
  Sql.and (Sql.is_not_null (q_text r)) (text_empty r).
Definition BUCKET_WHERE (cfg : search_config) : list (queue_row -> Sql.cond) :=
  [EXTRACTED_WHERE; NO_TEXT_WHERE; GAVE_UP_WHERE cfg; CLAIMABLE_WHERE cfg].

(** [ALLOWLISTED_WHERE_SQL] over the names of [EXTENSION_MATCH_JOIN_SQL];
    [sql_lower] is PostgreSQL's [lower]. *)
Definition sql_extension (sql_lower : pystr -> pystr) (filename : pystr) : option pystr :=
  match dotted_suffix filename with [] => None | s => Some (sql_lower s) end.
Definition ALLOWLISTED_WHERE (sql_lower : pystr -> pystr) (cfg : search_config)
    (blob_filenames : bytes -> list pystr) (r : queue_row) : Sql.cond :=
  Sql.or
    ((fun m => bool_decide (sql_lower m ∈ lower <$> extractor_mime_allowlist cfg)) <$> b_mime_type (q_blob r))
    (Some (existsb (fun n => match sql_extension sql_lower n with
                             | Some e => bool_decide (e ∈ lower <$> extractor_extension_allowlist cfg)
                             | None => false
                             end) (blob_filenames (q_sha256 r)))).

(** [(c)::int], and the sum, [NULL] as soon as a term is. *)
Definition cast_int (c : Sql.cond) : option Z := (fun b : bool => if b then 1 else 0) <$> c.
Definition add_null (a b : option Z) : option Z :=
  match a, b with Some x, Some y => Some (x + y) | _, _ => None end.
Definition misfiled_row (buckets : list (queue_row -> Sql.cond)) (r : queue_row) : Prop :=
  foldr (fun w acc => add_null (cast_int (w r)) acc) (Some 0) buckets <> Some 1.
#[global] Instance misfiled_row_dec buckets r : Decision (misfiled_row buckets r).
Proof. unfold misfiled_row. apply _. Defined.

Definition count_where (w : queue_row -> Sql.cond) (rows : list queue_row) : Z :=
  Z.of_nat (length (filter (fun r => Sql.kept (w r) = true) rows)).

Record QueueCounts := MkCounts {
  eligible : Z; extracted : Z; no_text : Z; gave_up : Z; pending : Z; claimable : Z; misfiled : Z }.
Inductive counts_error := QueueCountsInconsistent.
(** [QueueCounts.__post_init__] *)
Definition post_init (c : QueueCounts) : res counts_error QueueCounts :=
  if negb (misfiled c =? 0) then Err QueueCountsInconsistent
  else if negb (extracted c + no_text c + gave_up c + pending c =? eligible c) then Err QueueCountsInconsistent
  else Ok c.

Definition queue_rows (d : queue_db) : list queue_row :=
  (fun '(sha, b) => queue_row_of d sha b) <$> map_to_list (attachment_blobs d).

(** [fetch_queue_counts]; [meanwhile] commits between its two statements. *)
Definition fetch_queue_counts (sql_lower : pystr -> pystr) (cfg : search_config)
    (blob_filenames : bytes -> list pystr) (d meanwhile : queue_db) : res counts_error QueueCounts :=
  let rows := filter (fun r => Sql.kept (ALLOWLISTED_WHERE sql_lower cfg blob_filenames r) = true) (queue_rows d) in
  let* partition := post_init
    (MkCounts (Z.of_nat (length rows)) (count_where EXTRACTED_WHERE rows) (count_where NO_TEXT_WHERE rows)
       (count_where (GAVE_UP_WHERE cfg) rows) (count_where (CLAIMABLE_WHERE cfg) rows) 0
       (Z.of_nat (length (filter (misfiled_row (BUCKET_WHERE cfg)) rows)))) in
  post_init
    (MkCounts (eligible partition) (extracted partition) (no_text partition) (gave_up partition)
       (pending partition) (count_where (CLAIMABLE_WHERE cfg) (queue_rows meanwhile)) (misfiled partition)).
End queue.
End Extract_queue.
Import Extract_queue.

(** ** The worker ([extract_worker.py]) *)
Module Extract_worker.
Section worker.
Context `{PyUnicode}.

(** [scan] is the order in which the claim meets the blobs of the table (it
    decides between equal [first_seen_at]); [locked] are the rows another
    session holds. *)
Record env := Env {
  scan : list bytes;
  locked : bytes -> bool;
  blob_filenames : bytes -> list pystr;
  lw_extract : bytes -> option pystr -> res exc ExtractedText;
  try_import_docling : bytes -> res exc bool;
  dl_extract : bytes -> option pystr -> res exc ExtractedText;
  insert_fails : bytes -> option exc;
  clear_fails : bytes -> option exc;
  log_fails : bytes -> bool }.

Definition is_transient (x : exc) : bool :=
  existsb (fun c => match c with OtherError _ => false | _ => true end) x.
Definition transient_budget_exhausted (transient_count max_transient_retries : Z) : bool :=
  max_transient_retries <=? transient_count.

Definition LIGHTWEIGHT : pystr := lit "lightweight".
Definition DOCLING : pystr := lit "docling".
Definition SKIPPED_EXTRACTOR : pystr := lit "type-skipped".
Definition sentinel (extractor : pystr) : ExtractedText := MkText [] None extractor.

Definition first_seen (d : queue_db) (sha : bytes) : Z :=
  match attachment_blobs d !! sha with Some b => b_first_seen_at b | None => 0 end.
Definition seen_le (d : queue_db) (a b : bytes) : Prop := first_seen d a <= first_seen d b.
#[global] Instance seen_le_dec d a b : Decision (seen_le d a b).
Proof. unfold seen_le. apply _. Defined.
Definition claims (cfg : search_config) (d : queue_db) (sha : bytes) : bool :=
  match attachment_blobs d !! sha with
  | Some b => Sql.kept (CLAIMABLE_WHERE cfg (queue_row_of d sha b))
  | None => false
  end.
Definition claim_batch (e : env) (cfg : search_config) (d : queue_db) : list bytes :=
  take (extract_worker_batch_size cfg)
    (filter (fun s => locked e s = false)
       (merge_sort (seen_le d) (filter (fun s => claims cfg d s = true) (scan e)))).

Definition set_text (t : gmap bytes ExtractedText) (d : queue_db) : queue_db :=
  QueueDb (attachment_blobs d) t (failed_extractions d) (transient_extractions d).
Definition set_failed_x (f : gmap bytes failed_extraction) (d : queue_db) : queue_db :=
  QueueDb (attachment_blobs d) (attachment_text d) f (transient_extractions d).
Definition set_transient (t : gmap bytes transient_extraction) (d : queue_db) : queue_db :=
  QueueDb (attachment_blobs d) (attachment_text d) (failed_extractions d) t.

(** [INSERT ... ON CONFLICT DO NOTHING] *)
Definition insert_attachment_text (e : env) (d : queue_db) (sha : bytes) (et : ExtractedText) :
    res exc queue_db :=
  match insert_fails e sha with
  | Some x => Err x
  | None => Ok match attachment_text d !! sha with
               | Some _ => d
               | None => set_text (<[sha := et]> (attachment_text d)) d
               end
  end.

Definition record_failure (d : queue_db) (sha : bytes) (extractor_name : pystr) (x : exc) : queue_db :=
  let count := match failed_extractions d !! sha with Some f => fx_retry_count f + 1 | None => 1 end in
  set_failed_x (<[sha := FailedExtraction extractor_name x count]> (failed_extractions d)) d.
Definition record_failure_safely (e : env) (d : queue_db) (sha : bytes) (extractor_name : pystr) (x : exc) :
    queue_db * bool :=
  if log_fails e sha then (d, false) else (record_failure d sha extractor_name x, true).

Definition record_transient (d : queue_db) (sha : bytes) (x : exc) : queue_db * Z :=
  let count := match transient_extractions d !! sha with Some t => tx_count t + 1 | None => 1 end in
  (set_transient (<[sha := TransientExtraction x count]> (transient_extractions d)) d, count).
Definition record_transient_safely (e : env) (d : queue_db) (sha : bytes) (x : exc) :
    queue_db * option Z :=
  if log_fails e sha then (d, None) else let '(d', n) := record_transient d sha x in (d', Some n).

Definition clear_transient (e : env) (d : queue_db) (sha : bytes) : res exc queue_db :=
  match clear_fails e sha with
  | Some x => Err x
  | None => Ok (set_transient (delete sha (transient_extractions d)) d)
  end.

(** [_process_blob]; [Err x] is an exception it lets through.  [write] and
    [fail] are its two planned endings; [lightweight_verdict] is the ending
    when no fallback produced text. *)
Definition write (e : env) (d : queue_db) (sha : bytes) (et : ExtractedText) : res exc (queue_db * bool) :=
  let* d' := insert_attachment_text e d sha et in Ok (d', true).
Definition fail (e : env) (d : queue_db) (sha : bytes) (name : pystr) (x : exc) : res exc (queue_db * bool) :=
  if is_transient x then Err x else Ok ((record_failure_safely e d sha name x).1, false).
Definition lightweight_verdict (e : env) (d : queue_db) (sha : bytes) (lw : res exc ExtractedText) :
    res exc (queue_db * bool) :=
  match lw with
  | Err x => fail e d sha LIGHTWEIGHT x
  | Ok _ => write e d sha (sentinel (lit "lightweight-empty"))
  end.
Definition docling_fallback (e : env) (d : queue_db) (sha : bytes) (filename : option pystr)
    (lw : res exc ExtractedText) : res exc (queue_db * bool) :=
  match dl_extract e sha filename with
  | Err x => fail e d sha DOCLING x
  | Ok (MkText (_ :: _) _ _ as et) => write e d sha et
  | Ok _ => lightweight_verdict e d sha lw
  end.
Definition process_blob (e : env) (d : queue_db) (sha : bytes) (b : blob) (cfg : search_config)
    (filename : option pystr) : res exc (queue_db * bool) :=
  if extractor_max_blob_bytes cfg <? b_size_bytes b then write e d sha (sentinel (lit "size-skipped"))
  else
    let lw := lw_extract e sha filename in
    match lw with
    | Ok (MkText (_ :: _) _ _ as et) => write e d sha et
    | _ =>
        let pdf := is_pdf (b_mime_type b) filename in
        let* docling_avail := if pdf then try_import_docling e sha else Ok false in
        if pdf && docling_avail then docling_fallback e d sha filename lw
        else lightweight_verdict e d sha lw
    end.

(** The handler of the batch loop, after [ROLLBACK TO SAVEPOINT extract_blob]. *)
Definition on_exception (e : env) (d : queue_db) (touched : Z) (sha : bytes) (x : exc) : queue_db * Z :=
  if is_transient x then ((record_transient_safely e d sha x).1, touched)
  else let '(d', ok) := record_failure_safely e d sha (lit "unexpected") x in
       (d', if ok then touched + 1 else touched).

(** One turn of the batch loop.  An [Err] escapes the sweep. *)
Definition sweep_blob (e : env) (cfg : search_config) (st : queue_db * Z) (sha : bytes) :
    res exc (queue_db * Z) :=
  let '(d, touched) := st in
  match attachment_blobs d !! sha with
  | None => Ok (d, touched)
  | Some b =>
      let names := blob_filenames e sha in
      if negb (is_allowlisted (b_mime_type b) names (extractor_mime_allowlist cfg)
                 (extractor_extension_allowlist cfg)) then
        let* d' := insert_attachment_text e d sha (sentinel SKIPPED_EXTRACTOR) in
        Ok (d', touched + 1)
      else
        let work :=
          let* r := process_blob e d sha b cfg
                      (preferred_filename names (extractor_extension_allowlist cfg)) in
          let '(d', wrote) := r in
          if wrote && bool_decide (is_Some (transient_extractions d !! sha))
          then clear_transient e d' sha else Ok d' in
        match work with
        | Ok d' => Ok (d', touched + 1)
        | Err x => Ok (on_exception e d touched sha x)
        end
  end.

(** [run_extract_worker_once]: one transaction, so an escaping exception
    leaves the database as it was. *)
Definition run_extract_worker_once (e : env) (cfg : search_config) (d : queue_db) :
    queue_db * res exc Z :=
  if negb (run_extract_worker cfg) then (d, Ok 0)
  else match foldM (sweep_blob e cfg) (d, 0) (claim_batch e cfg d) with
       | Ok (d', touched) => (d', Ok touched)
       | Err x => (d, Err x)
       end.

(** The inner loop of [run_extract_worker]: sweeps until one touches nothing.
    [env_of] is what the [n]-th sweep meets; the fuel bounds the number of
    sweeps, and [None] says it ran out. *)
Fixpoint drain (fuel : nat) (env_of : nat -> env) (cfg : search_config) (d : queue_db) (n : nat) :
    option (queue_db * res exc ()) :=
  match fuel with
  | O => None
  | S fuel =>
      match run_extract_worker_once (env_of n) cfg d with
      | (d', Err x) => Some (d', Err x)
      | (d', Ok t) => if t =? 0 then Some (d', Ok ()) else drain fuel env_of cfg d' (S n)
      end
  end.
End worker.
End Extract_worker.
