(* ===== verification/ExtractFacts.v ===== *)
(** * What the extraction queue guarantees

    The counters partition the blobs, a sweep accounts for every blob it
    claimed, and the drain loop terminates and drains. *)
From S2P Require Import Prelude PyStr MailStore Query ExtractQueue.
Import Attachment_kind Extract_queue Extract_worker.

(** ** The partition *)

Lemma under_caps_known cfg r : exists b, UNDER_RETRY_CAPS cfg r = Some b.
Proof.
  unfold UNDER_RETRY_CAPS. destruct (q_failed r), (q_transient r); cbn;
    repeat destruct (_ <? _); cbn; eauto.
Qed.

(** The bucket a row is in, as a number. *)
Definition bucket_of (cfg : search_config) (r : queue_row) : nat :=
  match q_text r with
  | Some t => if bool_decide (et_text t = []) then 1 else 0
  | None => if Sql.kept (UNDER_RETRY_CAPS cfg r) then 3 else 2
  end.

Lemma bucket_where cfg r i w :
  BUCKET_WHERE cfg !! i = Some w -> w r = Some (bool_decide (bucket_of cfg r = i)).
Proof.
  destruct (under_caps_known cfg r) as [b Hb]. unfold bucket_of, BUCKET_WHERE.
  unfold EXTRACTED_WHERE, NO_TEXT_WHERE, GAVE_UP_WHERE, CLAIMABLE_WHERE, text_empty. rewrite Hb.
  destruct i as [| [| [| [| i]]]]; [| | | | done]; intros [= <-]; cbn; rewrite ?Hb;
    (destruct (q_text r) as [t |]; [destruct (bool_decide (et_text t = [])) eqn:Et | destruct b]);
    cbn; rewrite ?Et; done.
Qed.

Lemma bucket_lt cfg r : (bucket_of cfg r < 4)%nat.
Proof. unfold bucket_of. destruct (q_text r); [case_bool_decide | destruct (Sql.kept _)]; lia. Qed.

Lemma not_misfiled cfg r : ~ misfiled_row (BUCKET_WHERE cfg) r.
Proof.
  intros Hm. apply Hm. clear Hm. unfold BUCKET_WHERE. cbn [foldr].
  rewrite (bucket_where cfg r 0 _ eq_refl), (bucket_where cfg r 1 _ eq_refl),
    (bucket_where cfg r 2 _ eq_refl), (bucket_where cfg r 3 _ eq_refl).
  pose proof (bucket_lt cfg r). destruct (bucket_of cfg r) as [| [| [| [| ?]]]]; [done.. | lia].
Qed.

Lemma count_partition cfg rows :
  count_where EXTRACTED_WHERE rows + count_where NO_TEXT_WHERE rows +
  count_where (GAVE_UP_WHERE cfg) rows + count_where (CLAIMABLE_WHERE cfg) rows = Z.of_nat (length rows).
Proof.
  unfold count_where. induction rows as [| r rows IH]; [done |].
  rewrite !filter_cons, (bucket_where cfg r 0 _ eq_refl), (bucket_where cfg r 1 _ eq_refl),
    (bucket_where cfg r 2 _ eq_refl), (bucket_where cfg r 3 _ eq_refl).
  pose proof (bucket_lt cfg r). cbn [length].
  destruct (bucket_of cfg r) as [| [| [| [| ?]]]]; [..| lia];
    repeat case_decide; try done; cbn [length]; lia.
Qed.

Lemma post_init_ok c :
  misfiled c = 0 -> extracted c + no_text c + gave_up c + pending c = eligible c -> post_init c = Ok c.
Proof. intros Hm Hs. unfold post_init. by rewrite Hm, Hs, !Z.eqb_refl. Qed.

(** The status counters partition the queue.  Whatever the tables hold,
    every blob matches exactly one of the four buckets, [fetch_queue_counts]
    never reports an inconsistency, its four counters sum to the eligible
    population, and [claimable] counts exactly the blobs a claim would take. *)
Lemma queue_counts_partition `{PyUnicode} sql_lower cfg names d meanwhile :
  (forall r, exists i, (i < 4)%nat /\ forall j w, BUCKET_WHERE cfg !! j = Some w ->
     Sql.kept (w r) = bool_decide (i = j)) /\
  exists c, fetch_queue_counts sql_lower cfg names d meanwhile = Ok c /\
    extracted c + no_text c + gave_up c + pending c = eligible c /\
    claimable c = Z.of_nat (length (filter (fun s => claims cfg meanwhile s = true)
                                      (map_to_list (attachment_blobs meanwhile)).*1)) /\
    (meanwhile = d -> pending c <= claimable c).
Proof.
  split.
  { intros r. exists (bucket_of cfg r). split; [apply bucket_lt |]. intros j w Hw.
    by rewrite (bucket_where cfg r j w Hw), Sql.kept_some. }
  unfold fetch_queue_counts. set (rows := filter _ (queue_rows d)).
  rewrite (filter_none (misfiled_row (BUCKET_WHERE cfg))) by (apply Forall_forall; intros ? _; apply not_misfiled).
  pose proof (count_partition cfg rows) as Hsum.
  rewrite post_init_ok by done. cbn [eligible extracted no_text gave_up pending misfiled].
  rewrite post_init_ok by done.
  eexists. split; [done |].
  cbn [eligible extracted no_text gave_up pending claimable]. split_and!; [done | |].
  - unfold count_where, queue_rows, claims. f_equal.
    assert (Hin : forall l, l ⊆ map_to_list (attachment_blobs meanwhile) ->
      length (filter (fun r => Sql.kept (CLAIMABLE_WHERE cfg r) = true) ((fun '(sha, b) => queue_row_of meanwhile sha b) <$> l)) =
      length (filter (fun s => match attachment_blobs meanwhile !! s with
        | Some b => Sql.kept (CLAIMABLE_WHERE cfg (queue_row_of meanwhile s b)) | None => false end = true) l.*1)).
    { induction l as [| [s b] l IH]; intros Hl; [done |]. cbn [fmap list_fmap fst].
      rewrite !filter_cons. assert (Hb : attachment_blobs meanwhile !! s = Some b).
      { apply elem_of_map_to_list, Hl. constructor. }
      rewrite Hb. case_decide; cbn [length]; rewrite IH; [done | set_solver | done | set_solver]. }
    by apply Hin.
  - intros ->. apply Nat2Z.inj_le. unfold rows.
    rewrite filter_filter_and. apply length_filter_mono. tauto.
Qed.

(** ** One sweep *)

Section sweep.
Context `{PyUnicode}.

(** The rows of one blob, and its two counters. *)
Definition rows_of (d : queue_db) (s : bytes) :=
  (attachment_text d !! s, failed_extractions d !! s, transient_extractions d !! s).
Definition retries (d : queue_db) (s : bytes) : Z :=
  match failed_extractions d !! s with Some f => fx_retry_count f | None => 0 end.
Definition transients (d : queue_db) (s : bytes) : Z :=
  match transient_extractions d !! s with Some t => tx_count t | None => 0 end.

(** [d'] differs from [d] in the rows of [s] at most. *)
Definition only (s : bytes) (d d' : queue_db) : Prop :=
  attachment_blobs d' = attachment_blobs d /\ forall s', s' <> s -> rows_of d' s' = rows_of d s'.

(** What became of a blob that had no text. *)
Inductive outcome (e : env) (s : bytes) (d d' : queue_db) : Z -> Prop :=
  | Rowed : is_Some (attachment_text d' !! s) -> outcome e s d d' 1
  | Failed_ : attachment_text d' !! s = None -> retries d' s = retries d s + 1 ->
      is_Some (failed_extractions d' !! s) ->
      transient_extractions d' !! s = transient_extractions d !! s -> outcome e s d d' 1
  | Held : attachment_text d' !! s = None -> transients d' s = transients d s + 1 ->
      is_Some (transient_extractions d' !! s) ->
      failed_extractions d' !! s = failed_extractions d !! s -> outcome e s d d' 0
  | Unlogged n : log_fails e s = true -> 0 <= n <= 1 -> rows_of d' s = rows_of d s -> outcome e s d d' n.

Lemma only_refl s d : only s d d.
Proof. done. Qed.

Lemma record_failure_only d s n x : only s d (record_failure d s n x).
Proof.
  split; [done |]. intros s' Hs. unfold rows_of. cbn. by rewrite lookup_insert_ne.
Qed.

Lemma record_failure_outcome e d s n x :
  attachment_text d !! s = None -> outcome e s d (record_failure d s n x) 1.
Proof.
  intros Ht. apply Failed_; [done | | |]; cbn.
  - unfold retries. cbn. rewrite lookup_insert_eq. by destruct (failed_extractions d !! s).
  - by rewrite lookup_insert_eq.
  - done.
Qed.

Lemma record_failure_safely_spec e d s n x d' ok :
  attachment_text d !! s = None -> record_failure_safely e d s n x = (d', ok) ->
  only s d d' /\ outcome e s d d' 1 /\ (ok = false -> log_fails e s = true /\ d' = d).
Proof.
  intros Ht. unfold record_failure_safely. destruct (log_fails e s) eqn:El; intros [= <- <-].
  - split_and!; [apply only_refl | by apply Unlogged | done].
  - split_and!; [apply record_failure_only | by apply record_failure_outcome | done].
Qed.

Lemma record_transient_safely_spec e d s x :
  attachment_text d !! s = None ->
  only s d (record_transient_safely e d s x).1 /\ outcome e s d (record_transient_safely e d s x).1 0.
Proof.
  intros Ht. unfold record_transient_safely. destruct (log_fails e s) eqn:El; cbn.
  - split; [apply only_refl | by apply Unlogged].
  - split; [split; [done |]; intros s' Hs; unfold rows_of; cbn; by rewrite lookup_insert_ne |].
    apply Held; [done | | | done]; cbn; [unfold transients; cbn | ]; rewrite lookup_insert_eq; [| done].
    by destruct (transient_extractions d !! s).
Qed.

Lemma insert_text_spec e d s et d' :
  insert_attachment_text e d s et = Ok d' -> only s d d' /\ is_Some (attachment_text d' !! s).
Proof.
  unfold insert_attachment_text. destruct (insert_fails e s); [done |]. intros [= <-].
  destruct (attachment_text d !! s) eqn:Et; [split; [apply only_refl | by rewrite Et] |].
  split; [split; [done |]; intros s' Hs; unfold rows_of; cbn; by rewrite lookup_insert_ne |].
  cbn. by rewrite lookup_insert_eq.
Qed.

Definition ended (e : env) (s : bytes) (d : queue_db) (r : res exc (queue_db * bool)) : Prop :=
  forall d' wrote, r = Ok (d', wrote) ->
    only s d d' /\ if wrote then is_Some (attachment_text d' !! s) else outcome e s d d' 1.

Lemma write_ended e d s et : ended e s d (write e d s et).
Proof.
  intros d' wrote. unfold write. destruct (insert_attachment_text e d s et) as [d0 |] eqn:Ei; [| done].
  intros [= <- <-]. by eapply insert_text_spec.
Qed.

Lemma fail_ended e d s n x : attachment_text d !! s = None -> ended e s d (fail e d s n x).
Proof.
  intros Ht d' wrote. unfold fail. destruct (is_transient x); [done |].
  destruct (record_failure_safely e d s n x) as [d0 ok] eqn:Er. intros [= <- <-].
  by destruct (record_failure_safely_spec e d s n x d0 ok Ht Er) as (? & ? & _).
Qed.

Lemma lightweight_ended e d s lw :
  attachment_text d !! s = None -> ended e s d (lightweight_verdict e d s lw).
Proof. intros Ht. destruct lw; [apply write_ended | by apply fail_ended]. Qed.

Lemma process_blob_ended e d s b cfg name :
  attachment_text d !! s = None -> ended e s d (process_blob e d s b cfg name).
Proof.
  intros Ht. unfold process_blob, docling_fallback.
  pose proof (fun lw => lightweight_ended e d s lw Ht). pose proof (write_ended e d s).
  pose proof (fun n x => fail_ended e d s n x Ht).
  repeat first [done | case_match | progress cbn beta iota].
Qed.

Lemma on_exception_spec e d t s x d' t' :
  attachment_text d !! s = None -> on_exception e d t s x = (d', t') ->
  only s d d' /\ outcome e s d d' (t' - t).
Proof.
  intros Ht. unfold on_exception. destruct (is_transient x).
  - intros [= <- <-]. replace (t - t) with 0 by lia. by apply record_transient_safely_spec.
  - destruct (record_failure_safely e d s _ x) as [d1 ok] eqn:Er.
    destruct (record_failure_safely_spec _ _ _ _ _ _ _ Ht Er) as (? & ? & Hl).
    intros [= <- <-]. split; [done |]. destruct ok; [by replace (t + 1 - t) with 1 by lia |].
    destruct Hl as [? ->]; [done |]. apply Unlogged; [done | lia | done].
Qed.

Lemma sweep_blob_spec e cfg d t s d' t' :
  is_Some (attachment_blobs d !! s) -> attachment_text d !! s = None ->
  sweep_blob e cfg (d, t) s = Ok (d', t') -> only s d d' /\ outcome e s d d' (t' - t).
Proof.
  intros [b Hb] Ht. unfold sweep_blob. rewrite Hb. destruct (negb _).
  - destruct (insert_attachment_text e d s _) as [d0 |] eqn:Ei; [| done]. intros [= <- <-].
    destruct (insert_text_spec _ _ _ _ _ Ei). split; [done |].
    replace (t + 1 - t) with 1 by lia. by apply Rowed.
  - destruct (process_blob _ _ _ _ _ _) as [[d0 wrote] | x] eqn:Ep.
    2: { intros [= Hx]. by eapply on_exception_spec. }
    apply process_blob_ended in Ep as [Ho Hw]; [| done]. destruct (wrote && _) eqn:Ew.
    + unfold clear_transient. destruct (clear_fails e s) as [x |].
      { intros [= Hx]. by eapply on_exception_spec. }
      apply andb_true_iff in Ew as [-> _]. intros [= <- <-]. replace (t + 1 - t) with 1 by lia.
      split; [| by apply Rowed]. destruct Ho as [Hob Hor]. split; [done |]. intros s' Hs.
      rewrite <- (Hor s' Hs). unfold rows_of. cbn. by rewrite lookup_delete_ne.
    + intros [= <- <-]. replace (t + 1 - t) with 1 by lia. split; [done |].
      destruct wrote; [by apply Rowed | done].
Qed.
(** ** A whole batch *)

Lemma claims_spec cfg d s :
  claims cfg d s = true -> is_Some (attachment_blobs d !! s) /\ attachment_text d !! s = None.
Proof.
  unfold claims. destruct (attachment_blobs d !! s) as [b |]; [| done].
  unfold CLAIMABLE_WHERE. rewrite Sql.kept_and. cbn. destruct (attachment_text d !! s); done.
Qed.

Lemma claim_batch_spec e cfg d s : s ∈ claim_batch e cfg d -> claims cfg d s = true /\ s ∈ scan e.
Proof.
  unfold claim_batch. intros (i & Hs%list_elem_of_lookup_2 & _)%elem_of_take.
  apply list_elem_of_filter in Hs as [_ Hs]. rewrite merge_sort_Permutation in Hs.
  by apply list_elem_of_filter in Hs.
Qed.

Lemma claim_batch_nodup e cfg d : NoDup (scan e) -> NoDup (claim_batch e cfg d).
Proof.
  intros Hn. unfold claim_batch. eapply sublist_NoDup; [| apply sublist_take].
  apply NoDup_filter. rewrite merge_sort_Permutation.
  by apply NoDup_filter.
Qed.

Lemma rows_of_eq d d' s : rows_of d s = rows_of d' s ->
  attachment_text d !! s = attachment_text d' !! s /\
  failed_extractions d !! s = failed_extractions d' !! s /\
  transient_extractions d !! s = transient_extractions d' !! s.
Proof. by intros [= -> -> ->]. Qed.

Lemma outcome_rows e s d1 d1' d d' n :
  rows_of d1 s = rows_of d s -> rows_of d1' s = rows_of d' s -> outcome e s d1 d1' n -> outcome e s d d' n.
Proof.
  intros H1 H2. pose proof (rows_of_eq _ _ _ H1) as (T1 & F1 & X1).
  pose proof (rows_of_eq _ _ _ H2) as (T2 & F2 & X2).
  destruct 1 as [Ht | Ht Hr Hf Hx | Ht Hr Hf Hx | n Hl Hn Hr].
  - apply Rowed. congruence.
  - apply Failed_; unfold retries in *; rewrite <- ?F1, <- ?F2; congruence.
  - apply Held; unfold transients in *; rewrite <- ?X1, <- ?X2; congruence.
  - apply Unlogged; congruence.
Qed.

Lemma fold_sweep_spec e cfg d l d' t :
  NoDup l -> Forall (fun s => claims cfg d s = true) l ->
  foldM (sweep_blob e cfg) (d, 0) l = Ok (d', t) ->
  attachment_blobs d' = attachment_blobs d /\
  (forall s, s ∉ l -> rows_of d' s = rows_of d s) /\
  (forall s, s ∈ l -> exists n, outcome e s d d' n).
Proof.
  intros Hnd Hcl Hf. rewrite Forall_forall in Hcl.
  refine (foldM_invariant _ (fun fin st => NoDup fin ->
    attachment_blobs st.1 = attachment_blobs d /\
    (forall s, s ∉ fin -> rows_of st.1 s = rows_of d s) /\
    (forall s, s ∈ fin -> exists n, outcome e s d st.1 n)) _ _ _ _ _ Hf Hnd).
  { intros _. split; [done |]. split; [done |]. by intros s ?%elem_of_nil. }
  intros fin s [d0 t0] [d1 t1] Hs HI Hstep [Hn1 [Hn2 _]]%NoDup_app.
  destruct (HI Hn1) as (Hb & Hout & Hin). cbn [fst] in *.
  assert (Hsf : s ∉ fin) by set_solver.
  destruct (claims_spec _ _ _ (Hcl s Hs)) as [Hblob Htext].
  pose proof (rows_of_eq _ _ _ (Hout s Hsf)) as (Ht0 & _).
  destruct (sweep_blob_spec e cfg d0 t0 s d1 t1) as [[Hb1 Ho] Hoc]; [by rewrite Hb | congruence | done |].
  split_and!; [congruence | |].
  - intros s' Hs'. rewrite Ho by set_solver. apply Hout. set_solver.
  - intros s' [Hs' | ->%list_elem_of_singleton]%elem_of_app.
    + destruct (Hin s' Hs') as [n Hn]. exists n. eapply outcome_rows; [done | | exact Hn].
      symmetry. apply Ho. by intros ->.
    + eexists. eapply outcome_rows; [by apply Hout | done | exact Hoc].
Qed.

(** C37: a sweep loses no blob.  Every blob a sweep claimed gets a text or
    sentinel row, or one more recorded failure, or one more transient hold,
    unless its own log row could not be written; no other blob changes, no text
    once stored is lost or replaced, and a sweep that aborts changes nothing. *)
Theorem sweep_accounts e cfg d d' r :
  NoDup (scan e) -> run_extract_worker_once e cfg d = (d', r) ->
  attachment_blobs d' = attachment_blobs d /\ attachment_text d ⊆ attachment_text d' /\
  (forall s, s ∉ claim_batch e cfg d -> rows_of d' s = rows_of d s) /\
  (forall x, r = Err x -> d' = d) /\
  (forall n s, r = Ok n -> run_extract_worker cfg = true -> s ∈ claim_batch e cfg d ->
     exists k, outcome e s d d' k).
Proof.
  intros Hscan. unfold run_extract_worker_once.
  destruct (run_extract_worker cfg) eqn:Eon; cbn [negb]; [| intros [= <- <-]; by split_and!].
  destruct (foldM _ _ _) as [[d1 t] | x] eqn:Ef; intros [= <- <-]; [| by split_and!].
  assert (Hcl : Forall (fun s => claims cfg d s = true) (claim_batch e cfg d)).
  { apply Forall_forall. intros s Hs. by apply (claim_batch_spec e cfg d s). }
  apply fold_sweep_spec in Ef as (Hb & Hout & Hin); [| by apply claim_batch_nodup | done].
  split_and!; [done | | done | done | by intros n s _ _ Hs; apply Hin].
  apply map_subseteq_spec. intros s t0 Ht. destruct (decide (s ∈ claim_batch e cfg d)) as [Hs | Hs].
  - apply claim_batch_spec in Hs as [[_ Hn]%claims_spec _]. congruence.
  - apply Hout, rows_of_eq in Hs as [-> _]. done.
Qed.
(** ** Draining *)

(** What a blob can still cost: nothing once it is off the queue, else one
    more than the attempts left in its two budgets. *)
Definition budget (cfg : search_config) (d : queue_db) (s : bytes) : nat :=
  if claims cfg d s then
    S (Z.to_nat (extract_worker_max_retries cfg - retries d s) +
       Z.to_nat (extract_worker_max_transient_retries cfg - transients d s))
  else 0.
Definition blob_keys (d : queue_db) : list bytes := (map_to_list (attachment_blobs d)).*1.
Definition sweeps_left (cfg : search_config) (d : queue_db) : nat :=
  sum_list_with (budget cfg d) (blob_keys d).

Lemma claims_under_caps cfg d s :
  claims cfg d s = true ->
  (is_Some (failed_extractions d !! s) -> retries d s < extract_worker_max_retries cfg) /\
  (is_Some (transient_extractions d !! s) -> transients d s < extract_worker_max_transient_retries cfg).
Proof.
  unfold claims. destruct (attachment_blobs d !! s) as [b |]; [| done].
  unfold CLAIMABLE_WHERE, UNDER_RETRY_CAPS, retries, transients. rewrite !Sql.kept_and, !Sql.kept_or. cbn.
  destruct (attachment_text d !! s); [done |]. cbn.
  destruct (failed_extractions d !! s), (transient_extractions d !! s); cbn;
    repeat match goal with |- context [?a <? ?b] => destruct (Z.ltb_spec a b) end; cbn;
    intros Hc; split; intros [? ?]; simplify_eq; done || lia.
Qed.

Lemma claims_rows cfg d d' s :
  attachment_blobs d' = attachment_blobs d -> rows_of d' s = rows_of d s -> claims cfg d' s = claims cfg d s.
Proof.
  intros Hb Hr. unfold claims, queue_row_of. rewrite Hb.
  pose proof (rows_of_eq _ _ _ Hr) as (-> & -> & ->). done.
Qed.

Lemma budget_rows cfg d d' s :
  attachment_blobs d' = attachment_blobs d -> rows_of d' s = rows_of d s -> budget cfg d' s = budget cfg d s.
Proof.
  intros Hb Hr. unfold budget. rewrite (claims_rows cfg d d' s) by done.
  unfold retries, transients. pose proof (rows_of_eq _ _ _ Hr) as (_ & -> & ->). done.
Qed.

Lemma outcome_budget e cfg d d' s n :
  log_fails e s = false -> claims cfg d s = true -> outcome e s d d' n ->
  (budget cfg d' s < budget cfg d s)%nat.
Proof.
  intros Hlog Hc Ho. unfold budget. rewrite Hc. destruct (claims cfg d' s) eqn:Hc'; [| lia].
  destruct (claims_under_caps _ _ _ Hc') as [Hr Ht].
  destruct Ho as [[t Htx] | _ Hre Hf Hx | _ Htr Hf Hx | n Hl _ _].
  - apply claims_spec in Hc' as [_ ?]. congruence.
  - specialize (Hr Hf). unfold transients. rewrite Hx. lia.
  - specialize (Ht Hf). unfold retries. rewrite Hx. lia.
  - congruence.
Qed.

Lemma sum_list_lt {A} (f g : A -> nat) l x :
  (forall y, y ∈ l -> (f y <= g y)%nat) -> x ∈ l -> (f x < g x)%nat ->
  (sum_list_with f l < sum_list_with g l)%nat.
Proof.
  intros Hle Hx Hlt. induction l as [| y l IH]; [by apply elem_of_nil in Hx |]. cbn.
  pose proof (Hle y ltac:(constructor)).
  assert (Hl : (sum_list_with f l <= sum_list_with g l)%nat).
  { assert (Hle' : forall z, z ∈ l -> (f z <= g z)%nat) by (intros z Hz; apply Hle; by constructor).
    clear -Hle'. induction l as [| z l IH]; [done |]. cbn.
    pose proof (Hle' z ltac:(constructor)).
    assert (sum_list_with f l <= sum_list_with g l)%nat by (apply IH; intros w Hw; apply Hle'; by constructor). lia. }
  apply elem_of_cons in Hx as [-> | Hx]; [lia |].
  assert (sum_list_with f l < sum_list_with g l)%nat by (apply IH; [intros z Hz; apply Hle; by constructor | done]). lia.
Qed.

Lemma once_ok e cfg d d' t :
  NoDup (scan e) -> run_extract_worker_once e cfg d = (d', Ok t) -> t <> 0 ->
  exists s, s ∈ claim_batch e cfg d /\ foldM (sweep_blob e cfg) (d, 0) (claim_batch e cfg d) = Ok (d', t).
Proof.
  intros Hn. unfold run_extract_worker_once. destruct (run_extract_worker cfg); cbn [negb]; [| by intros [= <- <-]].
  destruct (foldM _ _ _) as [[d1 t1] |] eqn:Ef; [| done]. intros [= <- <-] Ht.
  destruct (claim_batch e cfg d) as [| s l] eqn:Eb; [by cbn in Ef; simplify_eq |].
  exists s. split; [constructor | done].
Qed.

Lemma once_decreases e cfg d d' t :
  NoDup (scan e) -> (forall s, log_fails e s = false) ->
  run_extract_worker_once e cfg d = (d', Ok t) -> t <> 0 ->
  (sweeps_left cfg d' < sweeps_left cfg d)%nat.
Proof.
  intros Hn Hlog Hr Ht. destruct (once_ok _ _ _ _ _ Hn Hr Ht) as (s & Hs & Hf).
  assert (Hcl : Forall (fun s => claims cfg d s = true) (claim_batch e cfg d)).
  { apply Forall_forall. intros s' Hs'. by apply (claim_batch_spec e cfg d s'). }
  destruct (fold_sweep_spec _ _ _ _ _ _ (claim_batch_nodup e cfg d Hn) Hcl Hf) as (Hb & Hout & Hin).
  rewrite Forall_forall in Hcl. unfold sweeps_left, blob_keys. rewrite Hb. apply (sum_list_lt _ _ _ s).
  - intros s' _. destruct (decide (s' ∈ claim_batch e cfg d)) as [Hs' | Hs'].
    + destruct (Hin s' Hs') as [n Ho]. pose proof (outcome_budget e cfg d d' s' n (Hlog s') (Hcl s' Hs') Ho). lia.
    + by rewrite (budget_rows cfg d d' s') by auto.
  - destruct (claims_spec _ _ _ (Hcl s Hs)) as [[b Hbl] _]. apply list_elem_of_fmap. exists (s, b).
    split; [done |]. by apply elem_of_map_to_list.
  - destruct (Hin s Hs) as [n Ho]. exact (outcome_budget e cfg d d' s n (Hlog s) (Hcl s Hs) Ho).
Qed.

(** A server on which nothing fails for reasons other than the blob's own. *)
Definition steady (e : env) : Prop :=
  forall s, insert_fails e s = None /\ clear_fails e s = None /\ log_fails e s = false /\
    (forall x, try_import_docling e s = Err x -> is_transient x = false) /\
    forall n x, lw_extract e s n = Err x \/ dl_extract e s n = Err x -> is_transient x = false.

Lemma process_blob_steady e d s b cfg name x :
  steady e -> process_blob e d s b cfg name = Err x -> is_transient x = false.
Proof.
  intros He. destruct (He s) as (Hi & _ & _ & Hd & Hx).
  assert (Hw : forall et, write e d s et <> Err x).
  { intros et. unfold write, insert_attachment_text. rewrite Hi. discriminate. }
  assert (Hf : forall n y, is_transient y = false -> fail e d s n y <> Err x).
  { intros n y Hy. unfold fail. rewrite Hy. discriminate. }
  assert (Hl : lightweight_verdict e d s (lw_extract e s name) <> Err x).
  { unfold lightweight_verdict. destruct (lw_extract e s name) eqn:El; [apply Hw |].
    apply Hf, (Hx name). by left. }
  assert (Hdoc : docling_fallback e d s name (lw_extract e s name) <> Err x).
  { unfold docling_fallback. destruct (dl_extract e s name) as [[[| c t] pc ex] | y] eqn:Ed;
      [exact Hl | apply Hw | apply Hf, (Hx name); by right]. }
  unfold process_blob. destruct (_ <? _); [by intros ?%Hw |].
  destruct (lw_extract e s name) as [[[| c t] pc ex] | y]; [| by intros ?%Hw |];
    (destruct (if is_pdf _ _ then _ else _) as [av | z] eqn:Ei;
     [by destruct (is_pdf _ _ && av) | intros [= <-]; destruct (is_pdf _ _); [by apply Hd | done]]).
Qed.

Lemma sweep_blob_steady e cfg d t s :
  steady e -> is_Some (attachment_blobs d !! s) -> exists d', sweep_blob e cfg (d, t) s = Ok (d', t + 1).
Proof.
  intros He [b Hb]. unfold sweep_blob. rewrite Hb. destruct (He s) as (Hi & Hc & Hlog & _).
  unfold insert_attachment_text, clear_transient, on_exception, record_failure_safely. rewrite Hi, Hc, Hlog.
  destruct (negb _); [eauto |].
  destruct (process_blob _ _ _ _ _ _) as [[d0 wrote] | x] eqn:Ep.
  - destruct (wrote && _); eauto.
  - rewrite (process_blob_steady _ _ _ _ _ _ _ He Ep). eauto.
Qed.

Lemma insert_text_blobs e d s et d' :
  insert_attachment_text e d s et = Ok d' -> attachment_blobs d' = attachment_blobs d.
Proof. intros Hi. by apply insert_text_spec in Hi as [[Hb _] _]. Qed.

Lemma process_blob_blobs e d s b cfg name d' wrote :
  process_blob e d s b cfg name = Ok (d', wrote) -> attachment_blobs d' = attachment_blobs d.
Proof.
  assert (Hw : forall et, write e d s et = Ok (d', wrote) -> attachment_blobs d' = attachment_blobs d).
  { intros et. unfold write. destruct (insert_attachment_text e d s et) eqn:Ei; [| done].
    intros [= <- <-]. by eapply insert_text_blobs. }
  assert (Hf : forall n y, fail e d s n y = Ok (d', wrote) -> attachment_blobs d' = attachment_blobs d).
  { intros n y. unfold fail, record_failure_safely. destruct (is_transient y); [done |].
    destruct (log_fails e s); by intros [= <- <-]. }
  unfold process_blob, docling_fallback, lightweight_verdict.
  repeat first [by eauto | done | case_match | progress cbn beta iota].
Qed.

Lemma sweep_blob_blobs e cfg d t s d' t' :
  sweep_blob e cfg (d, t) s = Ok (d', t') -> attachment_blobs d' = attachment_blobs d.
Proof.
  unfold sweep_blob. destruct (attachment_blobs d !! s); [| by intros [= <- <-]]. destruct (negb _).
  { destruct (insert_attachment_text e d s _) eqn:Ei; [| done]. intros [= <- <-]. by eapply insert_text_blobs. }
  assert (Hx : forall x, Ok (E := exc) (on_exception e d t s x) = Ok (d', t') -> attachment_blobs d' = attachment_blobs d).
  { intros x. unfold on_exception, record_transient_safely, record_failure_safely.
    destruct (is_transient x), (log_fails e s); by intros [= <- <-]. }
  destruct (process_blob _ _ _ _ _ _) as [[d0 wrote] | x] eqn:Ep; [| apply Hx].
  apply process_blob_blobs in Ep. unfold clear_transient.
  destruct (wrote && _); [destruct (clear_fails e s); [apply Hx |] |]; by intros [= <- <-].
Qed.

Lemma fold_steady e cfg l d t :
  steady e -> Forall (fun s => is_Some (attachment_blobs d !! s)) l ->
  exists d', foldM (sweep_blob e cfg) (d, t) l = Ok (d', t + Z.of_nat (length l)).
Proof.
  intros He. revert d t. induction l as [| s l IH]; intros d t Hl.
  - exists d. cbn. do 2 f_equal. lia.
  - apply Forall_cons in Hl as [Hs Hl]. cbn [foldM].
    destruct (sweep_blob_steady e cfg d t s He Hs) as [d1 Hd1]. rewrite Hd1.
    destruct (IH d1 (t + 1)) as [d' ->]; [by rewrite (sweep_blob_blobs _ _ _ _ _ _ _ Hd1) |].
    exists d'. cbn [length]. do 2 f_equal. lia.
Qed.
(** What a sweep meets that can reach every blob. *)
Definition reaches (d : queue_db) (e : env) : Prop :=
  (forall s, locked e s = false) /\ forall s, is_Some (attachment_blobs d !! s) -> s ∈ scan e.

Lemma empty_batch_drained e cfg d s :
  (0 < extract_worker_batch_size cfg)%nat -> reaches d e -> claim_batch e cfg d = [] -> claims cfg d s = false.
Proof.
  intros Hsize [Hlock Hscan] Hb. destruct (claims cfg d s) eqn:Hc; [| done].
  destruct (claims_spec _ _ _ Hc) as [Hs%Hscan _].
  assert (Hin : s ∈ filter (fun s => locked e s = false)
    (merge_sort (seen_le d) (filter (fun s => claims cfg d s = true) (scan e)))).
  { apply list_elem_of_filter. split; [apply Hlock |]. rewrite merge_sort_Permutation.
    by apply list_elem_of_filter. }
  unfold claim_batch in Hb. destruct (filter _ (merge_sort _ _)); [by apply elem_of_nil in Hin |].
  destruct (extract_worker_batch_size cfg); [lia | done].
Qed.

Lemma once_steady e cfg d :
  run_extract_worker cfg = true -> steady e -> NoDup (scan e) ->
  exists d', run_extract_worker_once e cfg d = (d', Ok (Z.of_nat (length (claim_batch e cfg d)))) /\
    attachment_blobs d' = attachment_blobs d.
Proof.
  intros Hon He Hn. unfold run_extract_worker_once. rewrite Hon. cbn [negb].
  assert (Hcl : Forall (fun s => claims cfg d s = true) (claim_batch e cfg d)).
  { apply Forall_forall. intros s Hs. by apply (claim_batch_spec e cfg d s). }
  destruct (fold_steady e cfg (claim_batch e cfg d) d 0 He) as [d' Hf].
  { eapply Forall_impl; [exact Hcl |]. intros s Hs. by apply (claims_spec cfg d s). }
  rewrite Hf. exists d'. split; [done |].
  by apply (fold_sweep_spec _ _ _ _ _ _ (claim_batch_nodup e cfg d Hn) Hcl Hf).
Qed.

Lemma drain_from env_of cfg k d n :
  (forall n, NoDup (scan (env_of n))) -> (forall n s, log_fails (env_of n) s = false) ->
  (sweeps_left cfg d <= k)%nat ->
  exists d' r, drain (S k) env_of cfg d n = Some (d', r) /\
    (run_extract_worker cfg = true -> (0 < extract_worker_batch_size cfg)%nat ->
     (forall n, steady (env_of n) /\ reaches d (env_of n)) ->
     r = Ok () /\ forall s, claims cfg d' s = false).
Proof.
  intros Hn Hlog. revert d n. induction k as [k IH] using lt_wf_ind. intros d n Hk. cbn [drain].
  destruct (run_extract_worker_once (env_of n) cfg d) as [d1 [t | x]] eqn:Er.
  2: { exists d1, (Err x). split; [done |]. intros Hon _ Hst. destruct (Hst n) as [He Hre].
       destruct (once_steady (env_of n) cfg d Hon He (Hn n)) as (? & ? & _). congruence. }
  destruct (Z.eqb_spec t 0) as [-> | Ht].
  - exists d1, (Ok ()). split; [done |]. intros Hon Hsize Hst. split; [done |]. intros s. destruct (Hst n) as [He Hre].
    destruct (once_steady (env_of n) cfg d Hon He (Hn n)) as (d2 & Hr2 & Hb).
    rewrite Er in Hr2. injection Hr2 as -> Hlen.
    destruct (claim_batch (env_of n) cfg d) as [| s0 l] eqn:Eb; [| done].
    unfold run_extract_worker_once in Er. rewrite Hon, Eb in Er. cbn in Er. injection Er as <-.
    by apply (empty_batch_drained (env_of n)).
  - pose proof (once_decreases _ _ _ _ _ (Hn n) (Hlog n) Er Ht) as Hdec.
    destruct k as [| k]; [lia |].
    destruct (IH k ltac:(lia) d1 (S n) ltac:(lia)) as (d' & r & Hd & Hrest).
    exists d', r. split; [exact Hd |]. intros Hon Hsize Hst. apply Hrest; [done | done |].
    intros m. destruct (Hst n) as [He Hre], (Hst m) as [Hem [Hlm Hsm]].
    destruct (once_steady (env_of n) cfg d Hon He (Hn n)) as (d2 & Hr2 & Hb).
    rewrite Er in Hr2. injection Hr2 as -> _. split; [done |]. split; [done |]. intros s. rewrite Hb. apply Hsm.
Qed.

(** Draining terminates.  As long as the failure log can be written, the
    worker's drain loop stops after at most [sweeps_left] further sweeps,
    whatever the extractors do; and when nothing fails but the blobs themselves,
    it stops with no claimable blob left. *)
Lemma drain_terminates env_of cfg d :
  (forall n, NoDup (scan (env_of n))) -> (forall n s, log_fails (env_of n) s = false) ->
  exists d' r, drain (S (sweeps_left cfg d)) env_of cfg d 0 = Some (d', r) /\
    (run_extract_worker cfg = true -> (0 < extract_worker_batch_size cfg)%nat ->
     (forall n, steady (env_of n) /\ reaches d (env_of n)) ->
     r = Ok () /\ forall s, claims cfg d' s = false).
Proof. intros Hn Hlog. by apply drain_from. Qed.
End sweep.

(** ** An archive of three blobs *)
Module Example_queue.
#[local] Existing Instance Query.ascii_unicode.

Definition text_blob : blob := Blob (lit "b/1") (Some (lit "text/plain")) 10 100.
Definition bad_pdf : blob := Blob (lit "b/2") (Some (lit "application/PDF")) 20 90.
Definition image : blob := Blob (lit "b/3") (Some (lit "image/png")) 30 95.
Definition queue0 : queue_db :=
  QueueDb {[ [1] := text_blob; [2] := bad_pdf; [3] := image ]} ∅ ∅ ∅.
Definition cfg0 : search_config :=
  SearchConfig true 2 3 5 1000 [lit "text/plain"; lit "application/pdf"] [lit ".pdf"].
Definition corrupt : exc := [OtherError (lit "PdfReadError")].
(** The text is readable, the PDF is corrupt, docling is not installed. *)
Definition env0 (log_broken : bool) : env :=
  Env [[1]; [2]; [3]] (fun _ => false) (fun _ => [])
    (fun s _ => if bool_decide (s = [1]) then Ok (MkText (lit "hello") None (lit "lightweight@1.0")) else Err corrupt)
    (fun _ => Ok false) (fun _ _ => Err corrupt) (fun _ => None) (fun _ => None) (fun _ => log_broken).

Lemma env0_scan b : NoDup (scan (env0 b)).
Proof. apply (bool_decide_unpack _). by vm_compute. Qed.

Lemma env0_steady : steady (env0 false).
Proof.
  intros s. split_and!; try done. intros n x. cbn.
  destruct (bool_decide (s = [1])); intros [Hx | Hx]; try done; injection Hx as <-; done.
Qed.

(** The oldest two are claimed, the corrupt PDF first. *)
Lemma sweep_accounts_witness :
  exists d', run_extract_worker_once (env0 false) cfg0 queue0 = (d', Ok 2) /\
    claim_batch (env0 false) cfg0 queue0 = [[2]; [3]] /\
    rows_of d' [1] = rows_of queue0 [1] /\ exists k, outcome (env0 false) [2] queue0 d' k.
Proof.
  destruct (run_extract_worker_once (env0 false) cfg0 queue0) as [d' r] eqn:E.
  assert (Hb : claim_batch (env0 false) cfg0 queue0 = [[2]; [3]]) by by vm_compute.
  destruct (sweep_accounts (env0 false) cfg0 queue0 d' r (env0_scan false) E) as (_ & _ & Hout & _ & Hin).
  assert (Hr : r = Ok 2) by (vm_compute in E; by injection E as _ <-). subst r.
  exists d'. split_and!; [done | done | |].
  - apply Hout. rewrite Hb. apply (bool_decide_unpack _). by vm_compute.
  - apply (Hin 2 [2]); [done | done |]. rewrite Hb. apply (bool_decide_unpack _). by vm_compute.
Defined.

Definition bad_only : queue_db := QueueDb {[ [2] := bad_pdf ]} ∅ ∅ ∅.
Definition env_bad : env :=
  Env [[2]] (fun _ => false) (fun _ => []) (fun _ _ => Err corrupt)
    (fun _ => Ok false) (fun _ _ => Err corrupt) (fun _ => None) (fun _ => None) (fun _ => true).
(** A failure whose log row cannot be written is counted as work done all the
    same, so the drain loop repeats the same sweep without end. *)
Lemma unlogged_failure_spins fuel n : drain fuel (fun _ => env_bad) cfg0 bad_only n = None.
Proof.
  revert n. induction fuel as [| fuel IH]; intros n; [done |]. cbn [drain].
  assert (run_extract_worker_once env_bad cfg0 bad_only = (bad_only, Ok 1)) as -> by by vm_compute.
  apply IH.
Qed.
End Example_queue.
