(* ===== verification/FetchRetry.v ===== *)
(** * Hold history and give-up tombstones ([fetch_retry.py])

    A UID whose body the server will not serve holds the resume watermark for
    at most [max_hold]; then it becomes a tombstone, which the operator's
    commands list, re-drive or forget. *)
From S2P Require Import Prelude PyStr MailStore.

(** [HoldState]. *)
Record hold_state := HoldState { attempt_count : Z; first_seen_at : Z }.

(** [GaveUpFetch]. *)
Record gave_up_fetch := GaveUpFetch {
  gf_account_name : pystr;
  gf_mailbox_name : pystr;
  gf_mailbox_id : Z;
  gf_uid : Z;
  gf_attempt_count : Z;
  gf_first_seen_at : Z;
  gf_gave_up_at : Z;
}.

Module Fetch_retry.
Definition DEFAULT_MAX_BODY_FETCH_HOLD_S : Z := 1800 * 1000000.

Definition hold_expired (first_seen now max_hold : Z) : bool :=
  if max_hold <=? 0 then true else max_hold <=? now - first_seen.

Definition state_of (h : hold_row) : hold_state :=
  HoldState (h_attempt_count h) (h_first_seen_at h).

Definition load_attempts (d : store) (mailbox_id : Z) : gmap Z hold_state :=
  list_to_map (omap (fun '((mb, uid), h) =>
      if mb =? mailbox_id then Some (uid, state_of h) else None)
    (map_to_list (transient_fetches d))).

(** [record_attempt]: [tx_now] is the transaction's [now()]; when the
    statement fails the savepoint restores the table and the sighting counts
    as a hold starting now. *)
Definition record_attempt (statement_fails : bool) (tx_now : Z) (d : store)
    (mailbox_id uid : Z) : store * hold_state :=
  if statement_fails then (d, HoldState 1 tx_now)
  else
    let h := match transient_fetches d !! (mailbox_id, uid) with
             | None => HoldRow 1 tx_now tx_now None
             | Some h => HoldRow (h_attempt_count h + 1) (h_first_seen_at h) tx_now
                           (h_gave_up_at h)
             end in
    (set_holds (<[(mailbox_id, uid) := h]> (transient_fetches d)) d, state_of h).

Definition clear_attempts (d : store) (mailbox_id uid : Z) : store :=
  set_holds (delete (mailbox_id, uid) (transient_fetches d)) d.

Definition reclaimable (mailbox_id uid : Z) (k : Z * Z) (h : hold_row) : Prop :=
  k.1 = mailbox_id /\ k.2 < uid /\ h_gave_up_at h = None.
#[global] Instance reclaimable_dec mb u k h : Decision (reclaimable mb u k h).
Proof. unfold reclaimable. apply _. Defined.

Definition reclaim_below (d : store) (mailbox_id uid : Z) : store :=
  set_holds (filter (fun kv => ~ reclaimable mailbox_id uid kv.1 kv.2)
               (transient_fetches d)) d.

Definition clear_mailbox (d : store) (mailbox_id : Z) : store :=
  set_holds (filter (fun kv => kv.1.1 <> mailbox_id) (transient_fetches d)) d.

Definition mark_gave_up (statement_fails : bool) (tx_now : Z) (d : store)
    (mailbox_id uid : Z) : store :=
  if statement_fails then d
  else set_holds (alter (fun h =>
           HoldRow (h_attempt_count h) (h_first_seen_at h) (h_last_seen_at h)
             (Some (match h_gave_up_at h with Some t => t | None => tx_now end)))
         (mailbox_id, uid) (transient_fetches d)) d.

(** [plan_uidnext_rewind]: the lowest given-up UID of every mailbox whose
    watermark is known, kept where it moves the watermark backwards. *)
Definition lowest_uids (tombstones : list (Z * Z)) (current : gmap Z Z) : gmap Z Z :=
  foldl (fun low '(mb, uid) =>
    match current !! mb with
    | None => low
    | Some _ => <[mb := Z.min uid (default uid (low !! mb))]> low
    end) ∅ tombstones.
Definition moves_backwards (current : gmap Z Z) (kv : Z * Z) : Prop :=
  match current !! kv.1 with Some c => kv.2 < c | None => False end.
#[global] Instance moves_backwards_dec current kv : Decision (moves_backwards current kv).
Proof. unfold moves_backwards. destruct (_ !! _); apply _. Defined.
Definition plan_uidnext_rewind (tombstones : list (Z * Z)) (current : gmap Z Z) : gmap Z Z :=
  filter (moves_backwards current) (lowest_uids tombstones current).

(** The rows the tombstone statements range over: the join with [mailboxes]
    and [accounts], [gave_up_at IS NOT NULL] and [_gave_up_scope]. *)
Definition gave_up_row (d : store) (now : Z) (account_name : option pystr)
    (older_than : option Z) (k : Z * Z) (h : hold_row) : option gave_up_fetch :=
  match mailboxes d !! k.1 with
  | None => None
  | Some mb =>
    match accounts d !! mb_account mb with
    | None => None
    | Some a =>
      match h_gave_up_at h with
      | None => None
      | Some t =>
        if match account_name with None => true | Some n => bool_decide (ac_name a = n) end &&
           match older_than with None => true | Some s => t <? now - s end
        then Some (GaveUpFetch (ac_name a) (mb_name mb) k.1 k.2 (h_attempt_count h)
                     (h_first_seen_at h) t)
        else None
      end
    end
  end.
Definition gave_up_scope (d : store) (now : Z) (account_name : option pystr)
    (older_than : option Z) (kv : (Z * Z) * hold_row) : Prop :=
  is_Some (gave_up_row d now account_name older_than kv.1 kv.2).
#[global] Instance gave_up_scope_dec d now a o kv : Decision (gave_up_scope d now a o kv).
Proof. unfold gave_up_scope. apply _. Defined.

(** [ORDER BY t.gave_up_at DESC, t.mailbox_id, t.uid] *)
Definition gave_up_before (a b : gave_up_fetch) : Prop :=
  gf_gave_up_at b < gf_gave_up_at a \/
  (gf_gave_up_at a = gf_gave_up_at b /\
   (gf_mailbox_id a < gf_mailbox_id b \/
    (gf_mailbox_id a = gf_mailbox_id b /\ gf_uid a <= gf_uid b))).
#[global] Instance gave_up_before_dec : RelDecision gave_up_before.
Proof. intros a b. unfold gave_up_before. apply _. Defined.

Definition list_gave_up (d : store) (now : Z) (account_name : option pystr)
    (older_than : option Z) (limit : option nat) : list gave_up_fetch :=
  let rows := merge_sort gave_up_before
    (omap (fun kv => gave_up_row d now account_name older_than kv.1 kv.2)
       (map_to_list (transient_fetches d))) in
  match limit with None => rows | Some n => take n rows end.

Definition arm_for_retry (d : store) (now : Z) (account_name : option pystr) : store * nat :=
  (set_holds (map_imap (fun k h => Some
       (if decide (gave_up_scope d now account_name None (k, h))
        then HoldRow 0 now now (h_gave_up_at h) else h)) (transient_fetches d)) d,
   size (filter (gave_up_scope d now account_name None) (transient_fetches d))).

Definition purge_gave_up (d : store) (now : Z) (account_name : option pystr)
    (older_than : option Z) : store * nat :=
  (set_holds (filter (fun kv => ~ gave_up_scope d now account_name older_than kv)
       (transient_fetches d)) d,
   size (filter (gave_up_scope d now account_name older_than) (transient_fetches d))).

(** [cli.retry_failed_fetches] (without [--forget]/[--dry-run]): the rewind
    and the re-arming, in one transaction. *)
Definition retry_failed_fetches (d : store) (now : Z) (account_name : option pystr) : store :=
  match list_gave_up d now account_name None None with
  | [] => d
  | rows =>
      let current := omap mb_uidnext
        (filter (fun kv => kv.1 ∈ map gf_mailbox_id rows) (mailboxes d)) in
      let plan := plan_uidnext_rewind (map (fun r => (gf_mailbox_id r, gf_uid r)) rows) current in
      let d1 := set_mailboxes (map_imap (fun id m => Some
          match plan !! id with
          | Some u => MailboxDbRow (mb_account m) (mb_name m) (mb_delimiter m) (mb_flags m)
                        (mb_uidvalidity m) (Some u) (mb_last_sync_at m)
          | None => m
          end)) d in
      (arm_for_retry d1 now account_name).1
  end.

Lemma reclaim_below_keeps d mb uid k h :
  transient_fetches d !! k = Some h -> (k.1 <> mb \/ uid <= k.2 \/ is_Some (h_gave_up_at h)) ->
  transient_fetches (reclaim_below d mb uid) !! k = Some h.
Proof.
  intros Hk Hor. cbn. apply map_lookup_filter_Some. split; [done |].
  unfold reclaimable. cbn. intros (? & ? & ?). destruct Hor as [? | [? | [? ?]]]; [done | lia | congruence].
Qed.

Lemma foldl_app_lowest tombs t current :
  lowest_uids (tombs ++ [t]) current =
    match current !! t.1 with
    | None => lowest_uids tombs current
    | Some _ => <[t.1 := Z.min t.2 (default t.2 (lowest_uids tombs current !! t.1))]>
                  (lowest_uids tombs current)
    end.
Proof. unfold lowest_uids. rewrite foldl_app. by destruct t. Qed.

(** [lowest] holds, for every known mailbox with a tombstone, the minimum of
    its given-up UIDs. *)
Lemma lowest_uids_spec tombs current mb :
  match lowest_uids tombs current !! mb with
  | Some u => (mb, u) ∈ tombs /\ is_Some (current !! mb) /\
              forall u', (mb, u') ∈ tombs -> u <= u'
  | None => current !! mb = None \/ forall u', (mb, u') ∉ tombs
  end.
Proof.
  induction tombs as [| [m u] tombs IH] using rev_ind.
  - cbn. right. intros. apply not_elem_of_nil.
  - rewrite foldl_app_lowest. cbn [fst snd].
    destruct (current !! m) as [c |] eqn:Ec.
    + destruct (decide (m = mb)) as [-> | Hne].
      * rewrite lookup_insert_eq. destruct (lowest_uids tombs current !! mb) as [v |]; cbn.
        -- destruct IH as (Hv & ? & Hmin). split_and!; [| eauto |].
           ++ destruct (Z.min_spec u v) as [[? ->] | [? ->]]; set_solver.
           ++ intros u' [Hu' | Hu']%elem_of_app; [specialize (Hmin _ Hu'); lia |].
              assert (u' = u) as -> by set_solver. lia.
        -- destruct IH as [? | Hno]; [congruence |].
           rewrite Z.min_id. split_and!; [set_solver | eauto |].
           intros u' [Hu' | Hu']%elem_of_app; [by apply Hno in Hu' |].
           assert (u' = u) as -> by set_solver. lia.
      * rewrite lookup_insert_ne by done.
        destruct (lowest_uids tombs current !! mb); [| set_solver].
        destruct IH as (? & ? & Hmin). split_and!; [set_solver | done |].
        intros u' Hu'. apply Hmin. set_solver.
    + destruct (lowest_uids tombs current !! mb) as [v |] eqn:Ev.
      * destruct IH as (? & ? & Hmin). split_and!; [set_solver | done |].
        intros u' [Hu' | Hu']%elem_of_app; [auto |].
        assert (m = mb) as -> by set_solver. destruct (current !! mb); [done |].
        by destruct H0.
      * destruct (decide (m = mb)) as [-> | Hne]; [by left |].
        destruct IH; [by left |]. right. set_solver.
Qed.

Lemma plan_lookup tombs current mb u :
  plan_uidnext_rewind tombs current !! mb = Some u <->
  (mb, u) ∈ tombs /\ (forall u', (mb, u') ∈ tombs -> u <= u') /\
  exists c, current !! mb = Some c /\ u < c.
Proof.
  unfold plan_uidnext_rewind, moves_backwards. rewrite map_lookup_filter_Some. cbn.
  pose proof (lowest_uids_spec tombs current mb) as Hspec. split.
  - intros [Hl Hc]. rewrite Hl in Hspec. destruct Hspec as (? & [c Ec] & ?).
    rewrite Ec in Hc. eauto.
  - intros (Hin & Hmin & c & Ec & Hlt). rewrite Ec.
    destruct (lowest_uids tombs current !! mb) as [v |].
    + destruct Hspec as (Hv & _ & Hv'). apply Hv' in Hin as ?.
      assert (v = u) as -> by (specialize (Hmin _ Hv); lia). done.
    + destruct Hspec as [? | Hno]; [congruence | by apply Hno in Hin].
Qed.

#[local] Arguments list_gave_up : simpl never.
#[local] Arguments gave_up_row : simpl never.

Lemma omap_length_filter {A B} (f : A -> option B) (l : list A) :
  length (omap f l) = length (filter (fun x => is_Some (f x)) l).
Proof.
  induction l as [| x l IH]; [done |]. rewrite filter_cons.
  change (omap f (x :: l)) with (match f x with Some y => y :: omap f l | None => omap f l end).
  case_decide as Hx; destruct (f x); cbn; [by f_equal | by destruct Hx | | done].
  exfalso. by apply Hx.
Qed.

Lemma size_filter_map (P : (Z * Z) * hold_row -> Prop) `{!forall x, Decision (P x)}
    (m : gmap (Z * Z) hold_row) :
  size (filter P m) = length (filter P (map_to_list m)).
Proof.
  rewrite map_filter_alt. apply map_size_list_to_map.
  eapply sublist_NoDup; [apply (NoDup_fst_map_to_list m) |].
  apply fmap_sublist, sublist_filter.
Qed.

Lemma elem_list_gave_up d now a o g :
  g ∈ list_gave_up d now a o None <->
  exists k h, transient_fetches d !! k = Some h /\ gave_up_row d now a o k h = Some g.
Proof.
  unfold list_gave_up. rewrite merge_sort_Permutation, list_elem_of_omap. split.
  - intros ([k h] & Hk%elem_of_map_to_list & Hg). eauto.
  - intros (k & h & Hk & Hg). exists (k, h). by rewrite elem_of_map_to_list.
Qed.

Lemma gave_up_row_fields d now a o k h g :
  gave_up_row d now a o k h = Some g ->
  gf_mailbox_id g = k.1 /\ gf_uid g = k.2 /\ h_gave_up_at h = Some (gf_gave_up_at g).
Proof. unfold gave_up_row. intros. repeat case_match; naive_solver. Qed.

Definition same_mailbox_owner (m1 m2 : mailbox_row) : Prop :=
  mb_account m1 = mb_account m2 /\ mb_name m1 = mb_name m2.

Lemma gave_up_row_owner d1 d2 now a o k h :
  accounts d1 = accounts d2 ->
  option_Forall2 same_mailbox_owner (mailboxes d1 !! k.1) (mailboxes d2 !! k.1) ->
  gave_up_row d1 now a o k h = gave_up_row d2 now a o k h.
Proof.
  intros Ha Hm. unfold gave_up_row. rewrite Ha.
  inversion Hm as [m1 m2 [Hac Hnm] |]; [| done]. by rewrite Hac, Hnm.
Qed.

(** What [--forget] deletes is exactly what [--dry-run] (and
    [list-failed-fetches]) shows: the count agrees, nothing in scope is left,
    and every row out of scope, live holds first of all, is untouched. *)
Lemma purge_matches_list d now account_name older_than :
  let '(d', dropped) := purge_gave_up d now account_name older_than in
  dropped = length (list_gave_up d now account_name older_than None) /\
  list_gave_up d' now account_name older_than None = [] /\
  (forall k h, transient_fetches d !! k = Some h ->
     gave_up_row d now account_name older_than k h = None ->
     transient_fetches d' !! k = Some h) /\
  (forall k h, transient_fetches d' !! k = Some h ->
     transient_fetches d !! k = Some h).
Proof.
  cbn. split_and!.
  - unfold list_gave_up. rewrite merge_sort_Permutation, omap_length_filter.
    by rewrite size_filter_map.
  - destruct (list_gave_up _ now account_name older_than None) as [| g l] eqn:E; [done |]. exfalso.
    assert (Hg : g ∈ g :: l) by set_solver. rewrite <- E in Hg.
    apply elem_list_gave_up in Hg as (k & h & [Hk Hno]%map_lookup_filter_Some & Hg).
    apply Hno. exists g. exact Hg.
  - intros k h Hk Hnone. apply map_lookup_filter_Some. split; [done |].
    unfold gave_up_scope. cbn. rewrite Hnone. by intros [? ?].
  - by intros k h [? _]%map_lookup_filter_Some.
Qed.

(** [retry-failed-fetches] takes the watermark of a mailbox back to (or
    leaves it at or below) every given-up UID in scope, never forwards and
    never anywhere but a given-up UID, reopens the UID's hold window, and
    keeps the tombstone with its original give-up moment. *)
Lemma rewind_reaches_given_up d now account_name mb uid h row w :
  transient_fetches d !! (mb, uid) = Some h ->
  is_Some (gave_up_row d now account_name None (mb, uid) h) ->
  mailboxes d !! mb = Some row -> mb_uidnext row = Some w ->
  let d' := retry_failed_fetches d now account_name in
  transient_fetches d' !! (mb, uid) = Some (HoldRow 0 now now (h_gave_up_at h)) /\
  exists row' w', mailboxes d' !! mb = Some row' /\ mb_uidnext row' = Some w' /\
    mb_uidvalidity row' = mb_uidvalidity row /\ w' <= uid /\ w' <= w /\
    (w' = w \/ exists h0, transient_fetches d !! (mb, w') = Some h0 /\ is_Some (h_gave_up_at h0)).
Proof.
  intros Hh [g Hg] Hrow Hw d'. subst d'. unfold retry_failed_fetches.
  assert (Hin : g ∈ list_gave_up d now account_name None None) by (apply elem_list_gave_up; eauto).
  destruct (list_gave_up d now account_name None None) as [| g0 rows] eqn:El;
    [by apply not_elem_of_nil in Hin |].
  rewrite <- El in *. clear El g0 rows.
  set (rows := list_gave_up d now account_name None None) in *.
  set (current := omap mb_uidnext _). cbv zeta. set (plan := plan_uidnext_rewind _ current).
  destruct (gave_up_row_fields _ _ _ _ _ _ _ Hg) as (Hmb & Huid & _). cbn in Hmb, Huid.
  assert (Hc : current !! mb = Some w).
  { unfold current. rewrite lookup_omap.
    rewrite (map_lookup_filter_Some_2 _ _ _ row); cbn; [done.. |].
    rewrite <- Hmb. by apply list_elem_of_fmap_2. }
  cbn. split.
  - rewrite map_lookup_imap, Hh. cbn. rewrite decide_True; [done |].
    unfold gave_up_scope. cbn. rewrite (gave_up_row_owner _ d); [eauto | done |].
    cbn. rewrite map_lookup_imap, Hrow. cbn. constructor.
    by destruct (plan !! mb).
  - rewrite map_lookup_imap, Hrow. cbn.
    assert (Htomb : (mb, uid) ∈ map (fun r => (gf_mailbox_id r, gf_uid r)) rows).
    { rewrite <- Hmb, <- Huid. apply list_elem_of_fmap. eauto. }
    destruct (plan !! mb) as [u |] eqn:Ep.
    + apply plan_lookup in Ep as (Hu & Hmin & c & Ec & Hlt). rewrite Hc in Ec. simplify_eq.
      eexists _, u. split_and!; [done.. | by apply Hmin | lia |]. right.
      apply list_elem_of_fmap in Hu as (g' & [= -> ->] & Hg').
      apply elem_list_gave_up in Hg' as ([mb' u'] & h' & Hh' & Hg').
      destruct (gave_up_row_fields _ _ _ _ _ _ _ Hg') as (-> & -> & ?). eauto.
    + exists row, w. split_and!; [done.. | | lia | by left].
      pose proof (lowest_uids_spec (map (fun r => (gf_mailbox_id r, gf_uid r)) rows) current mb) as Hs.
      destruct (lowest_uids _ current !! mb) as [v |] eqn:Ev.
      2: { destruct Hs as [? | Hno]; [congruence | by apply Hno in Htomb]. }
      destruct Hs as (Hv & _ & Hmin). specialize (Hmin _ Htomb).
      destruct (decide (v < w)); [| lia]. exfalso.
      enough (plan !! mb = Some v) by congruence.
      apply plan_lookup. split_and!; [done | | eauto].
      intros u' Hu'. pose proof (lowest_uids_spec (map (fun r => (gf_mailbox_id r, gf_uid r)) rows) current mb) as Hs.
      rewrite Ev in Hs. by apply Hs.
Qed.

(** A concrete store: UID 5 of mailbox 1 was given up on, the watermark is
    at 9. *)
Definition example_store : store :=
  Store {[ 1 := AccountRow (lit "home") (lit "password") ]}
    {[ 1 := MailboxDbRow 1 (lit "INBOX") None [] (Some 7) (Some 9) None ]}
    ∅ ∅ ∅ {[ (1, 5) := HoldRow 4 100 900 (Some 900) ]}.
End Fetch_retry.
