(* ===== verification/Sync.v ===== *)
(** * Synchronising an IMAP mailbox into the archive ([sync.py], [imap_dates.py])

    Every function takes the [store] and gives it back.  The IMAP server, the
    parser, the blob writer, a concurrent writer of [messages] and the failures
    of single statements come from an environment ([env]); the theorems hold
    for every environment.

    A [SAVEPOINT] restores the store the statements after it started from; a
    committed concurrent insertion survives the rollback.  A pass commits at
    the end of a batch, and an exception that leaves the pass leaves the store
    of the last commit. *)
From S2P Require Import Prelude PyStr MailStore FetchRetry.
Import Uids Fetch_retry.

(** The values an IMAP client can return for INTERNALDATE. *)
Inductive internal_date_value :=
  | DateAbsent
  | DateNaive (t : Z)
  | DateAware (t : Z)
  | DateNotDatetime.

(** One UID's data of a FETCH response; an absent key is the empty value. *)
Record fetched := Fetched {
  fd_body : bytes;
  fd_flags : list pystr;
  fd_internaldate : internal_date_value;
}.

(** What one call of [process_one_message] meets in the database: the value
    of [messages_id_seq], the rows another connection commits between the
    existence check and the INSERT, and the error its statements raise. *)
Record attempt := Attempt {
  at_new_id : Z;
  at_racing : gmap Z message_row;
  at_error : option fault;
}.
(** The same for [record_failed_message]. *)
Record log_attempt := LogAttempt {
  lg_new_id : Z;
  lg_now : Z;
  lg_error : option fault;
}.

Record env := Env {
  parse_message : bytes -> res fault ParsedMessage;
  write_attachments : ParsedMessage -> res fault (list pystr);
  sha256 : bytes -> bytes;
  select_folder : res fault (option Z * option Z);  (* UIDVALIDITY, UIDNEXT *)
  search_all : res fault (list Z);
  search_from : Z -> res fault (list Z);            (* UID n:* *)
  search_one : Z -> res fault (list Z);             (* UID n:n *)
  fetch_error : list Z -> option fault;
  fetch_data : Z -> option fetched;
  db_now : Z;
  tx_now : Z -> Z;                  (* now() of the transaction handling a UID *)
  wall_now : Z;                     (* datetime.now() *)
  on_process : Z -> attempt;
  on_log : Z -> log_attempt;
  hold_statement_fails : Z -> bool;
  gave_up_statement_fails : Z -> bool;
}.

Module Sync.
Definition BATCH_SIZE : nat := 50.

(** ** Database helpers *)

Record MailboxRow := MkMailboxRow {
  mailbox_id : Z;
  mailbox_name : pystr;
  uidvalidity : option Z;
  uidnext : option Z;
}.

Definition owns_name (account_id : Z) (name : pystr) (_ : Z) (m : mailbox_row) : Prop :=
  mb_account m = account_id /\ mb_name m = name.
#[global] Instance owns_name_dec a n i m : Decision (owns_name a n i m).
Proof. unfold owns_name. apply _. Defined.

Definition upsert_mailbox (new_id : Z) (d : store) (account_id : Z) (name : pystr)
    (delimiter : option pystr) (flags : list pystr) : store * MailboxRow :=
  match find_key (owns_name account_id name) (mailboxes d) ≫=
          fun i => pair i <$> mailboxes d !! i with
  | Some (i, m) =>
      (set_mailboxes (<[i := MailboxDbRow (mb_account m) (mb_name m) delimiter flags
          (mb_uidvalidity m) (mb_uidnext m) (mb_last_sync_at m)]>) d,
       MkMailboxRow i name (mb_uidvalidity m) (mb_uidnext m))
  | None =>
      (set_mailboxes (<[new_id := MailboxDbRow account_id name delimiter flags None None None]>) d,
       MkMailboxRow new_id name None None)
  end.

Definition existing_message_id (ms : gmap Z message_row) (account_id : Z)
    (message_id : option pystr) (raw_sha256 : bytes) : option Z :=
  find_key (fun _ r => dedup_match account_id message_id raw_sha256 r) ms.

Definition new_row (account_id : Z) (p : ParsedMessage) (internal_date : option Z) : message_row :=
  MessageRow account_id p internal_date [].

(** [INSERT ... ON CONFLICT DO NOTHING] is suppressed by the primary key or
    by one of the dedup indexes. *)
Definition insert_conflicts (ms : gmap Z message_row) (new_id account_id : Z)
    (p : ParsedMessage) : bool :=
  match ms !! new_id with
  | Some _ => true
  | None => match existing_message_id ms account_id (pm_message_id p) (pm_raw_sha256 p) with
            | Some _ => true | None => false end
  end.

Definition upsert_message (at_ : attempt) (d : store) (account_id : Z) (p : ParsedMessage)
    (internal_date : option Z) : res fault (store * (Z * bool)) :=
  match existing_message_id (messages d) account_id (pm_message_id p) (pm_raw_sha256 p) with
  | Some i => Ok (d, (i, false))
  | None =>
      let ms := messages d ∪ at_racing at_ in
      if insert_conflicts ms (at_new_id at_) account_id p then
        match existing_message_id ms account_id (pm_message_id p) (pm_raw_sha256 p) with
        | Some i => Ok (set_messages ms d, (i, false))
        | None => Err (OtherError (lit "RuntimeError"))
        end
      else
        Ok (set_messages (<[at_new_id at_ := new_row account_id p internal_date]> ms) d,
            (at_new_id at_, true))
  end.

Definition uid_taken (message_db_id mailbox uid : Z) (k : Z * Z) (l : label_row) : Prop :=
  k.2 = mailbox /\ l_uid l = uid /\ k.1 <> message_db_id.
#[global] Instance uid_taken_dec m mb u k l : Decision (uid_taken m mb u k l).
Proof. unfold uid_taken. apply _. Defined.

Definition upsert_label (d : store) (message_db_id mailbox uid : Z) (flags : list pystr) :
    res fault store :=
  match find_key (uid_taken message_db_id mailbox uid) (message_labels d) with
  | Some _ => Err (OtherError (lit "UniqueViolation"))
  | None => Ok (set_labels (<[(message_db_id, mailbox) := LabelRow uid flags]>
                  (message_labels d)) d)
  end.

Definition set_message_attachments (d : store) (message_db_id : Z) (rows : list pystr) : store :=
  set_messages (alter (fun r => MessageRow (mr_account r) (mr_parsed r) (mr_internal_date r) rows)
                  message_db_id (messages d)) d.

Definition update_mailbox_progress (d : store) (mailbox : Z) (uv un : Z)
    (last_sync_at : option Z) : store :=
  set_mailboxes (alter (fun m => MailboxDbRow (mb_account m) (mb_name m) (mb_delimiter m)
      (mb_flags m) (Some uv) (Some un)
      (match last_sync_at with Some t => Some t | None => mb_last_sync_at m end)) mailbox) d.

Definition clear_mailbox_labels (d : store) (mailbox : Z) : store :=
  set_labels (filter (fun kv => kv.1.2 <> mailbox) (message_labels d)) d.

(** ** One message *)

Definition aware_internal_date (v : internal_date_value) : option Z :=
  match v with DateAware t => Some t | _ => None end.

Definition process_one_message (e : env) (at_ : attempt) (d : store)
    (account_id mailbox uid : Z) (raw : bytes) (flags : list pystr)
    (internal_date : option Z) : res fault (store * (Z * bool)) :=
  let* p := parse_message e raw in
  match at_error at_ with
  | Some f => Err f
  | None =>
    let* (d1, (db_id, did_insert)) := upsert_message at_ d account_id p internal_date in
    let* d2 := upsert_label d1 db_id mailbox uid flags in
    if did_insert && negb (bool_decide (pm_attachments p = [])) then
      let* rows := write_attachments e p in
      Ok (set_message_attachments d2 db_id rows, (db_id, did_insert))
    else Ok (d2, (db_id, did_insert))
  end.

(** [ROLLBACK TO SAVEPOINT]: what other connections committed stays. *)
Definition rollback (at_ : attempt) (d : store) : store :=
  set_messages (messages d ∪ at_racing at_) d.

Definition error_class (f : fault) : pystr :=
  match f with Contention => lit "QueryCanceled" | OtherError c => c end.

Definition record_failed_message (e : env) (lg : log_attempt) (d : store)
    (account_id mailbox uid : Z) (raw : bytes) (exc : fault) : res fault store :=
  match lg_error lg with
  | Some Contention => Err Contention
  | Some (OtherError _) => Ok d
  | None =>
      let k := (account_id, mailbox, uid) in
      let row := match failed_messages d !! k with
                 | None => FailedRow (lg_new_id lg) raw (sha256 e raw) (error_class exc)
                             (lg_now lg) 0 None
                 | Some f => FailedRow (f_id f) raw (sha256 e raw) (error_class exc)
                               (lg_now lg) (f_retry_count f + 1) (Some (lg_now lg))
                 end in
      Ok (set_failed (<[k := row]> (failed_messages d)) d)
  end.

(** ** Re-driving the poison pills *)

Definition failed_before (a b : (Z * Z * Z) * failed_row) : Prop := f_id a.2 <= f_id b.2.
#[global] Instance failed_before_dec : RelDecision failed_before.
Proof. intros a b. unfold failed_before. apply _. Defined.

(** [SELECT ... FROM failed_messages f JOIN accounts a ... ORDER BY f.id] *)
Definition in_retry_scope (d : store) (account_id : option Z)
    (kf : (Z * Z * Z) * failed_row) : Prop :=
  is_Some (accounts d !! kf.1.1.1) /\
  match account_id with None => True | Some a => kf.1.1.1 = a end.
#[global] Instance in_retry_scope_dec d a kf : Decision (in_retry_scope d a kf).
Proof. unfold in_retry_scope. destruct a; apply _. Defined.
Definition failed_rows (d : store) (account_id : option Z) :
    list ((Z * Z * Z) * failed_row) :=
  merge_sort failed_before
    (filter (in_retry_scope d account_id) (map_to_list (failed_messages d))).

Definition attempt_uid (d : store) (auth_method : pystr) (mailbox uid : Z) : Z :=
  if should_reallocate_uid auth_method
  then next_uid_after (Some (max_label_uid d mailbox)) else uid.

(** One row: recovered and deleted, or recorded again under its stored UID;
    contention stops the command.  The environment's oracles are keyed by
    the row's id. *)
Inductive retry_outcome := Recovered | StillFailing.
Definition retry_one (e : env) (d : store) (row : (Z * Z * Z) * failed_row) :
    res fault (store * retry_outcome) :=
  let '((acct, mailbox, uid), f) := row in
  let auth := match accounts d !! acct with Some a => ac_auth_method a | None => [] end in
  let at_ := on_process e (f_id f) in
  match process_one_message e at_ d acct mailbox (attempt_uid d auth mailbox uid)
          (f_raw_bytes f) [] None with
  | Ok (d', _) =>
      Ok (set_failed (delete (acct, mailbox, uid) (failed_messages d')) d', Recovered)
  | Err Contention => Err Contention
  | Err exc =>
      let* d' := record_failed_message e (on_log e (f_id f)) (rollback at_ d)
                   acct mailbox uid (f_raw_bytes f) exc in
      Ok (d', StillFailing)
  end.

Fixpoint retry_rows (e : env) (d : store) (rows : list ((Z * Z * Z) * failed_row))
    (succeeded still_failing : Z) : store * res fault (Z * Z) :=
  match rows with
  | [] => (d, Ok (succeeded, still_failing))
  | row :: rows =>
      match retry_one e d row with
      | Ok (d', Recovered) => retry_rows e d' rows (succeeded + 1) still_failing
      | Ok (d', StillFailing) => retry_rows e d' rows succeeded (still_failing + 1)
      | Err exc => (d, Err exc)
      end
  end.
Definition retry_failed_messages (e : env) (d : store) (account_id : option Z) :
    store * res fault (Z * Z) :=
  retry_rows e d (failed_rows d account_id) 0 0.

(** ** Folder filtering *)

Record folder := Folder {
  fo_flags : list pystr; fo_delimiter : option pystr; fo_name : pystr }.

Definition set_of (o : option (list pystr)) : list pystr := default [] o.
Definition folder_selected (allow deny deny_flags : option (list pystr)) (f : folder) : bool :=
  if bool_decide (lit "\Noselect" ∈ fo_flags f) then false
  else if existsb (fun g => bool_decide (g ∈ set_of deny_flags)) (fo_flags f) then false
  else if negb (bool_decide (set_of allow = [])) && bool_decide (fo_name f ∉ set_of allow) then false
  else if bool_decide (fo_name f ∈ set_of deny) then false
  else true.
Definition folders_to_sync (folders : list folder) (allow deny deny_flags : option (list pystr)) :
    list folder :=
  filter (fun f => folder_selected allow deny deny_flags f = true) folders.

(** ** The pass *)

Definition filter_new_uids (uids : list Z) (known_uidnext : option Z) : list Z :=
  match known_uidnext with
  | None => merge_sort Z.le uids
  | Some n => merge_sort Z.le (filter (fun u => n <= u) uids)
  end.

Definition uid_still_on_server (e : env) (uid : Z) : bool :=
  match search_one e uid with
  | Ok uids => negb (bool_decide (uids = []))
  | Err _ => true
  end.

(** [range(0, len(items), size)] and the slices it takes. *)
Definition batches {A} (items : list A) (size : nat) : list (list A) :=
  map (fun i => take size (drop (i * size) items)) (seq 0 ((length items + size - 1) / size)).

(** The locals of [sync_mailbox] that change while it runs. *)
Record pass := Pass {
  ps_db : store;
  ps_inserted : Z;
  ps_skipped : Z;
  ps_seen : Z;
  ps_highest_seen : Z;
  ps_hold_at : option Z;
  ps_server_emptying_bodies : bool;
  ps_held_attempts : gmap Z hold_state;
}.

Section mailbox.
Context (e : env) (account_id : Z) (mailbox : Z) (max_hold : Z).

Definition response (uid : Z) : fetched := default (Fetched [] [] DateAbsent) (fetch_data e uid).

(** The body is empty: probe, then hold, give up or advance. *)
Definition empty_body (p : pass) (uid : Z) : pass :=
  if ps_server_emptying_bodies p || uid_still_on_server e uid then
    let '(d1, hold) := record_attempt (hold_statement_fails e uid) (tx_now e uid)
                         (ps_db p) mailbox uid in
    if hold_expired (first_seen_at hold) (db_now e) max_hold then
      let d2 := mark_gave_up (gave_up_statement_fails e uid) (tx_now e uid) d1 mailbox uid in
      Pass d2 (ps_inserted p) (ps_skipped p) (ps_seen p + 1)
        (Z.max (ps_highest_seen p) uid) (ps_hold_at p) true (ps_held_attempts p)
    else
      Pass d1 (ps_inserted p) (ps_skipped p) (ps_seen p + 1) (ps_highest_seen p)
        (Some (match ps_hold_at p with None => uid | Some h => Z.min h uid end))
        true (<[uid := hold]> (ps_held_attempts p))
  else
    Pass (ps_db p) (ps_inserted p) (ps_skipped p) (ps_seen p + 1)
      (Z.max (ps_highest_seen p) uid) (ps_hold_at p)
      (ps_server_emptying_bodies p) (ps_held_attempts p).

(** The body is there: clear a recovered hold, process, or record the
    poison pill. *)
Definition full_body (p : pass) (uid : Z) (data : fetched) : res fault pass :=
  let recovered := bool_decide (is_Some (ps_held_attempts p !! uid)) in
  let d0 := if recovered then clear_attempts (ps_db p) mailbox uid else ps_db p in
  let held := if recovered then delete uid (ps_held_attempts p) else ps_held_attempts p in
  let at_ := on_process e uid in
  let raw := fd_body data in
  let* (d1, inserted, skipped) :=
    match process_one_message e at_ d0 account_id mailbox uid raw (fd_flags data)
            (aware_internal_date (fd_internaldate data)) with
    | Ok (d1, (_, did_insert)) => Ok (d1, if did_insert then 1 else 0, 0)
    | Err Contention => Err Contention
    | Err exc =>
        let* d1 := record_failed_message e (on_log e uid) (rollback at_ d0)
                     account_id mailbox uid raw exc in
        Ok (d1, 0, 1)
    end in
  Ok (Pass d1 (ps_inserted p + inserted) (ps_skipped p + skipped) (ps_seen p + 1)
        (Z.max (ps_highest_seen p) uid) (ps_hold_at p)
        (ps_server_emptying_bodies p) held).

Definition sync_uid (p : pass) (uid : Z) : res fault pass :=
  match fd_body (response uid) with
  | [] => Ok (empty_body p uid)
  | _ => full_body p uid (response uid)
  end.

Definition with_db (d : store) (p : pass) : pass :=
  Pass d (ps_inserted p) (ps_skipped p) (ps_seen p) (ps_highest_seen p) (ps_hold_at p)
    (ps_server_emptying_bodies p) (ps_held_attempts p).

(** The end of a batch: checkpoint, reclaim, commit. *)
Definition checkpoint (uv : Z) (p : pass) : pass :=
  let resume_at := checkpoint_uidnext (ps_highest_seen p) (ps_hold_at p) in
  let d1 := update_mailbox_progress (ps_db p) mailbox uv resume_at (Some (wall_now e)) in
  with_db (reclaim_below d1 mailbox resume_at) p.

Definition sync_batch (uv : Z) (p : pass) (chunk : list Z) : res fault pass :=
  match fetch_error e chunk with
  | Some f => Err f
  | None => let* p' := foldM sync_uid p chunk in Ok (checkpoint uv p')
  end.

(** The batches; an exception leaves the store of the last commit. *)
Fixpoint sync_batches (uv : Z) (p : pass) (chunks : list (list Z)) : store * res fault Z :=
  match chunks with
  | [] => (ps_db p, Ok (ps_inserted p))
  | chunk :: chunks =>
      match sync_batch uv p chunk with
      | Ok p' => sync_batches uv p' chunks
      | Err f => (ps_db p, Err f)
      end
  end.
End mailbox.

(** The UIDs a pass looks at, before [max_messages] cuts them. *)
Definition candidates (e : env) (full_sync : bool) (mb : MailboxRow) : res fault (list Z) :=
  if full_sync then merge_sort Z.le <$> search_all e
  else
    let last := py_or (uidnext mb) 1 in
    (fun c => filter_new_uids c (Some last)) <$> search_from e last.

Definition full_sync (mb : MailboxRow) (server_uidvalidity : Z) : bool :=
  bool_decide (uidvalidity mb <> Some server_uidvalidity).

(** A mailbox whose UIDVALIDITY changed forgets its labels and holds, and
    that is committed before anything is fetched. *)
Definition forget_old_uids (d : store) (mb : MailboxRow) (server_uidvalidity : Z) : store :=
  if full_sync mb server_uidvalidity && bool_decide (is_Some (uidvalidity mb))
  then clear_mailbox (clear_mailbox_labels d (mailbox_id mb)) (mailbox_id mb)
  else d.

Definition start_pass (d : store) (mb : MailboxRow) : pass :=
  Pass d 0 0 0 (py_or (uidnext mb) 1 - 1) None false (load_attempts d (mailbox_id mb)).

Definition cut (max_messages : option Z) (uids : list Z) : list Z :=
  match max_messages with
  | Some n => if n <? Z.of_nat (length uids) then slice_to n uids else uids
  | None => uids
  end.

Definition sync_mailbox (e : env) (d : store) (account_id : Z) (mb : MailboxRow)
    (max_messages : option Z) (max_hold : Z) : store * res fault Z :=
  match select_folder e with
  | Err f => (d, Err f)
  | Ok (uv, un) =>
    let server_uidvalidity := py_or uv 0 in
    let server_uidnext := py_or un 0 in
    let d0 := forget_old_uids d mb server_uidvalidity in
    match candidates e (full_sync mb server_uidvalidity) mb with
    | Err f => (d0, Err f)
    | Ok found =>
      match cut max_messages found with
      | [] =>
          (update_mailbox_progress d0 (mailbox_id mb) server_uidvalidity
             (if server_uidnext =? 0 then py_or (uidnext mb) 1 else server_uidnext)
             (Some (wall_now e)), Ok 0)
      | uids =>
          sync_batches e account_id (mailbox_id mb) max_hold server_uidvalidity
            (start_pass d0 mb) (batches uids BATCH_SIZE)
      end
    end
  end.

(** [sync_account]: every selected folder in turn; [env_of] is the server as
    seen with that folder selected, [new_id] the [mailboxes] sequence. *)
Fixpoint sync_folders (env_of : pystr -> env) (new_id : pystr -> Z) (d : store)
    (account_id : Z) (folders : list folder) (max_messages : option Z) (max_hold : Z)
    (results : list (pystr * Z)) : store * res fault (list (pystr * Z)) :=
  match folders with
  | [] => (d, Ok results)
  | f :: folders =>
      let '(d1, mb) := upsert_mailbox (new_id (fo_name f)) d account_id (fo_name f)
                         (fo_delimiter f) (fo_flags f) in
      match sync_mailbox (env_of (fo_name f)) d1 account_id mb max_messages max_hold with
      | (d2, Ok n) => sync_folders env_of new_id d2 account_id folders max_messages max_hold
                        (results ++ [(fo_name f, n)])
      | (d2, Err x) => (d2, Err x)
      end
  end.
Definition sync_account (env_of : pystr -> env) (new_id : pystr -> Z) (d : store)
    (account_id : Z) (list_folders : res fault (list folder))
    (allow deny deny_flags : option (list pystr)) (max_messages : option Z) (max_hold : Z) :
    store * res fault (list (pystr * Z)) :=
  match list_folders with
  | Err f => (d, Err f)
  | Ok folders =>
      sync_folders env_of new_id d account_id (folders_to_sync folders allow deny deny_flags)
        max_messages max_hold []
  end.
End Sync.
