(* ===== verification/SyncFacts.v ===== *)
(** * What a sync pass guarantees

    Lemmas on the operations of [Sync.v], and the theorems on whole passes:
    nothing below the committed resume point is lost, a held UID keeps the
    resume point at or below it, the tables stay well formed, and re-driving
    the poison pills loses none of them. *)
From S2P Require Import Prelude PyStr MailStore FetchRetry Sync.
Import Uids Fetch_retry Sync.

(** ** Batches *)
Lemma batches_concat {A} (l : list A) n : (0 < n)%nat -> concat (batches l n) = l.
Proof.
  intros Hn. unfold batches.
  assert (G : forall k, concat (map (fun i => take n (drop (i * n) l)) (seq 0 k)) = take (k * n) l).
  { induction k as [| k IH]; [done |].
    rewrite seq_S, map_app, concat_app, IH. cbn. rewrite app_nil_r.
    rewrite take_take_drop. f_equal. lia. }
  rewrite G. apply take_ge.
  pose proof (Nat.div_mod_eq (length l + n - 1) n).
  pose proof (Nat.mod_upper_bound (length l + n - 1) n). nia.
Qed.

(** ** Rows and keys *)
Lemma dedup_match_self a p idate :
  dedup_match a (pm_message_id p) (pm_raw_sha256 p) (new_row a p idate).
Proof.
  unfold dedup_match, new_row, mr_message_id, mr_raw_sha256. cbn.
  destruct (pm_message_id p); auto.
Qed.

Lemma same_key_sym r1 r2 : same_key r1 r2 -> same_key r2 r1.
Proof.
  unfold same_key, dedup_match. intros [-> Hk]. split; [done |].
  destruct (mr_message_id r1) eqn:E1, (mr_message_id r2) eqn:E2; naive_solver.
Qed.

Lemma messages_unique_subseteq ms1 ms2 :
  ms1 ⊆ ms2 -> messages_unique ms2 -> messages_unique ms1.
Proof. intros Hs Hu i j r1 r2 Hi Hj. eapply Hu; by eapply lookup_weaken. Qed.

(** ** The upsert *)
Section upsert.
Context (at_ : attempt) (d : store) (account_id : Z) (p : ParsedMessage).
Notation key_of r := (dedup_match account_id (pm_message_id p) (pm_raw_sha256 p) r).

Lemma existing_some ms i :
  existing_message_id ms account_id (pm_message_id p) (pm_raw_sha256 p) = Some i ->
  exists r, ms !! i = Some r /\ key_of r.
Proof. intros Hf. exact (find_key_some _ _ _ Hf). Qed.
Lemma existing_none ms :
  existing_message_id ms account_id (pm_message_id p) (pm_raw_sha256 p) = None ->
  forall j r, ms !! j = Some r -> ~ key_of r.
Proof. intros Hf. exact (proj1 (find_key_none _ _) Hf). Qed.

Lemma insert_conflicts_false ms i :
  insert_conflicts ms i account_id p = false ->
  ms !! i = None /\ forall j r, ms !! j = Some r -> ~ key_of r.
Proof.
  unfold insert_conflicts. destruct (ms !! i); [done |].
  destruct (existing_message_id _ _ _ _) eqn:E; [done |].
  intros _. split; [done |]. by apply existing_none.
Qed.

Lemma upsert_message_frame idate d' i ins :
  upsert_message at_ d account_id p idate = Ok (d', (i, ins)) ->
  accounts d' = accounts d /\ mailboxes d' = mailboxes d /\
  message_labels d' = message_labels d /\ failed_messages d' = failed_messages d /\
  transient_fetches d' = transient_fetches d.
Proof.
  unfold upsert_message. intros Hu. repeat case_match; by simplify_eq/=.
Qed.

(** The row the returned id names carries the message's key; an insertion
    happens under a fresh id, and nothing that was there changes. *)
Lemma upsert_message_row idate d' i ins :
  upsert_message at_ d account_id p idate = Ok (d', (i, ins)) ->
  messages d ⊆ messages d' /\
  (ins = true -> messages d !! i = None) /\
  exists r, messages d' !! i = Some r /\ key_of r.
Proof.
  unfold upsert_message. intros Hu.
  destruct (existing_message_id (messages d) _ _ _) as [j |] eqn:E1.
  - simplify_eq. split_and!; [done | done | by apply existing_some].
  - destruct (insert_conflicts _ _ _ _) eqn:Ec.
    + destruct (existing_message_id (messages d ∪ _) _ _ _) as [j |] eqn:E2; [| done].
      simplify_eq/=. split_and!; [apply map_union_subseteq_l | done | by apply existing_some].
    + simplify_eq/=. apply insert_conflicts_false in Ec as [Hfresh _].
      split_and!.
      * etrans; [apply (map_union_subseteq_l _ (at_racing at_)) |]. by apply insert_subseteq.
      * intros _. by apply lookup_union_None in Hfresh as [? _].
      * eexists. rewrite lookup_insert_eq. split; [done |]. apply dedup_match_self.
Qed.

Lemma upsert_message_unique idate d' i ins :
  messages_unique (messages d ∪ at_racing at_) ->
  upsert_message at_ d account_id p idate = Ok (d', (i, ins)) ->
  messages_unique (messages d').
Proof.
  unfold upsert_message. intros Hun Hu.
  destruct (existing_message_id (messages d) _ _ _) as [j |] eqn:E1.
  { simplify_eq. eapply messages_unique_subseteq, Hun. apply map_union_subseteq_l. }
  destruct (insert_conflicts _ _ _ _) eqn:Ec.
  { destruct (existing_message_id (messages d ∪ _) _ _ _); by simplify_eq/=. }
  simplify_eq/=. apply insert_conflicts_false in Ec as [_ Hno].
  intros j k r1 r2 Hj Hk Hsame.
  apply lookup_insert_Some in Hj as [[<- <-] | [Hj Hr1]];
    apply lookup_insert_Some in Hk as [[<- <-] | [Hk Hr2]]; [done | | | by eapply Hun].
  - exfalso. eapply Hno; [exact Hr2 |]. exact Hsame.
  - exfalso. eapply Hno; [exact Hr1 |]. by apply same_key_sym in Hsame.
Qed.
End upsert.

(** ** Processing one message *)

(** The message [raw] parses to is in the archive and linked to the mailbox. *)
Definition archived (e : env) (d : store) (account_id mailbox : Z) (raw : bytes) : Prop :=
  exists p i r l, parse_message e raw = Ok p /\ messages d !! i = Some r /\
    dedup_match account_id (pm_message_id p) (pm_raw_sha256 p) r /\
    message_labels d !! (i, mailbox) = Some l.

(** Messages are never changed or deleted, and no label is dropped. *)
Definition grows (d d' : store) : Prop :=
  messages d ⊆ messages d' /\
  forall k, is_Some (message_labels d !! k) -> is_Some (message_labels d' !! k).
#[global] Instance grows_preorder : PreOrder grows.
Proof.
  split; [done |]. intros d1 d2 d3 [? ?] [? ?]. split; [by etrans | auto].
Qed.

Lemma archived_grows e d d' a mb raw : grows d d' -> archived e d a mb raw -> archived e d' a mb raw.
Proof.
  intros [Hm Hl] (p & i & r & l & ? & Hr & ? & Hlab).
  destruct (Hl (i, mb)) as [l' Hl']; [eauto |].
  exists p, i, r, l'. split_and!; [done | by eapply lookup_weaken | done | done].
Qed.

Lemma grows_same d d' :
  messages d' = messages d -> message_labels d' = message_labels d -> grows d d'.
Proof. intros Hm Hl. split; rewrite ?Hm, ?Hl; done. Qed.

Definition same_bookkeeping (d d' : store) : Prop :=
  accounts d' = accounts d /\ mailboxes d' = mailboxes d /\
  failed_messages d' = failed_messages d /\ transient_fetches d' = transient_fetches d.

Lemma upsert_label_ok d i mb uid fl d' :
  upsert_label d i mb uid fl = Ok d' ->
  d' = set_labels (<[(i, mb) := LabelRow uid fl]> (message_labels d)) d /\
  forall j l, message_labels d !! (j, mb) = Some l -> l_uid l = uid -> j = i.
Proof.
  unfold upsert_label. destruct (find_key _ _) eqn:E; [done |].
  intros [= <-]. split; [done |]. intros j l Hl Hu.
  destruct (decide (j = i)); [done |]. exfalso.
  by eapply (proj1 (find_key_none _ _) E (j, mb) l).
Qed.

Lemma process_spec e at_ d a mb uid raw fl idate d' i ins :
  process_one_message e at_ d a mb uid raw fl idate = Ok (d', (i, ins)) ->
  same_bookkeeping d d' /\ grows d d' /\ archived e d' a mb raw /\
  (exists l, message_labels d' !! (i, mb) = Some l /\ l_uid l = uid).
Proof.
  unfold process_one_message. intros Hp.
  destruct (parse_message e raw) as [p |] eqn:Ep; [| done].
  destruct (at_error at_); [done |].
  destruct (upsert_message at_ d a p idate) as [[d1 [i1 ins1]] |] eqn:Eu; [| done].
  destruct (upsert_label d1 i1 mb uid fl) as [d2 |] eqn:El; [| done].
  apply upsert_label_ok in El as [-> _].
  pose proof (upsert_message_frame _ _ _ _ _ _ _ _ Eu) as (? & ? & Hlab & ? & ?).
  pose proof (upsert_message_row _ _ _ _ _ _ _ _ Eu) as (Hsub & Hfresh & r & Hr & Hk).
  set (d2 := set_labels _ d1) in Hp.
  assert (Hg2 : grows d d2).
  { split; [done |]. intros k Hk'. cbn. rewrite Hlab.
    destruct (decide (k = (i1, mb))) as [-> |]; [rewrite lookup_insert_eq; eauto |].
    by rewrite lookup_insert_ne. }
  assert (Hl2 : message_labels d2 !! (i1, mb) = Some (LabelRow uid fl)) by (cbn; by rewrite lookup_insert_eq).
  destruct (ins1 && _) eqn:Eins.
  - destruct (write_attachments e p) as [rows |]; [| done]. simplify_eq.
    apply andb_true_iff in Eins as [-> _]. split_and!.
    + by split_and!.
    + split; [| apply Hg2]. cbn. apply map_subseteq_spec. intros j x Hj.
      rewrite lookup_alter_ne; [by eapply lookup_weaken |].
      intros ->. rewrite Hfresh in Hj by done. done.
    + eexists p, i, _, _. split_and!; [done | cbn; by rewrite lookup_alter_eq, Hr | | exact Hl2].
      exact Hk.
    + eexists. split; [exact Hl2 | done].
  - simplify_eq. split_and!; [by split_and! | done | | by eexists].
    by exists p, i, r, (LabelRow uid fl).
Qed.

Lemma rollback_frame at_ d :
  same_bookkeeping d (rollback at_ d) /\ grows d (rollback at_ d).
Proof. split; [done |]. split; [apply map_union_subseteq_l | done]. Qed.

Lemma record_failed_spec e lg d a mb uid raw exc d' :
  record_failed_message e lg d a mb uid raw exc = Ok d' ->
  accounts d' = accounts d /\ mailboxes d' = mailboxes d /\ messages d' = messages d /\
  message_labels d' = message_labels d /\ transient_fetches d' = transient_fetches d /\
  (forall k, k <> (a, mb, uid) -> failed_messages d' !! k = failed_messages d !! k) /\
  ((d' = d /\ exists c, lg_error lg = Some (OtherError c)) \/
   exists f, failed_messages d' !! (a, mb, uid) = Some f /\ f_raw_bytes f = raw /\
     forall f0, failed_messages d !! (a, mb, uid) = Some f0 ->
       f_id f = f_id f0 /\ f_retry_count f = f_retry_count f0 + 1).
Proof.
  unfold record_failed_message. destruct (lg_error lg) as [[| c] |] eqn:El; intros [= <-].
  - split_and!; eauto.
  - cbn. split_and!; [done.. | |].
    + intros k Hk. by rewrite lookup_insert_ne.
    + right. eexists. rewrite lookup_insert_eq. split; [done |].
      destruct (failed_messages d !! _); naive_solver.
Qed.

(** ** The pass *)

(** The ways a UID below the resume point is accounted for. *)
Inductive accounted (e : env) (a mb : Z) (d : store) (uid : Z) : Prop :=
  | AccArchived : fd_body (response e uid) <> [] ->
      archived e d a mb (fd_body (response e uid)) -> accounted e a mb d uid
  | AccPoisonPill f : fd_body (response e uid) <> [] ->
      failed_messages d !! (a, mb, uid) = Some f ->
      f_raw_bytes f = fd_body (response e uid) -> accounted e a mb d uid
  | AccTombstone h : fd_body (response e uid) = [] ->
      transient_fetches d !! (mb, uid) = Some h -> is_Some (h_gave_up_at h) ->
      accounted e a mb d uid
  | AccExpunged :
      fd_body (response e uid) = [] -> uid_still_on_server e uid = false ->
      accounted e a mb d uid
  | AccPillUnwritable c : fd_body (response e uid) <> [] ->
      lg_error (on_log e uid) = Some (OtherError c) -> accounted e a mb d uid
  | AccTombstoneUnwritable : fd_body (response e uid) = [] ->
      hold_statement_fails e uid || gave_up_statement_fails e uid = true ->
      accounted e a mb d uid.

Section pass.
Context (e : env) (a mb max_hold : Z).
Notation accounted := (accounted e a mb).

Lemma accounted_keeps d d' u :
  grows d d' ->
  failed_messages d' !! (a, mb, u) = failed_messages d !! (a, mb, u) ->
  (forall h, transient_fetches d !! (mb, u) = Some h -> is_Some (h_gave_up_at h) ->
     transient_fetches d' !! (mb, u) = Some h) ->
  accounted d u -> accounted d' u.
Proof.
  intros Hg Hf Ht Hacc. destruct Hacc as [? Ha | f ? Hfk ? | h ? Hh Hgu | | c ? |].
  - apply AccArchived; [done |]. by eapply archived_grows.
  - apply (AccPoisonPill _ _ _ _ _ f); [done | by rewrite Hf | done].
  - eapply AccTombstone; eauto.
  - by apply AccExpunged.
  - by eapply AccPillUnwritable.
  - by apply AccTombstoneUnwritable.
Qed.

(** What one UID's step does to the store, and to the UID itself. *)
Record step_spec (p p' : pass) (uid : Z) : Prop := {
  st_mailboxes : mailboxes (ps_db p') = mailboxes (ps_db p);
  st_grows : grows (ps_db p) (ps_db p');
  st_failed k : k <> (a, mb, uid) ->
    failed_messages (ps_db p') !! k = failed_messages (ps_db p) !! k;
  st_holds k : k <> (mb, uid) ->
    transient_fetches (ps_db p') !! k = transient_fetches (ps_db p) !! k;
  st_hold_at h : ps_hold_at p = Some h -> exists h', ps_hold_at p' = Some h' /\ h' <= h;
  st_highest : ps_highest_seen p' = ps_highest_seen p \/ ps_highest_seen p' = uid;
  st_done : accounted (ps_db p') uid \/ exists h, ps_hold_at p' = Some h /\ h <= uid;
}.

Lemma max_either x y : Z.max x y = x \/ Z.max x y = y.
Proof. lia. Qed.

Lemma empty_body_step p uid : fd_body (response e uid) = [] ->
  step_spec p (empty_body e mb max_hold p uid) uid.
Proof.
  intros Hbody. unfold empty_body.
  destruct (ps_server_emptying_bodies p || uid_still_on_server e uid) eqn:Eon.
  - unfold record_attempt, mark_gave_up.
    destruct (hold_statement_fails e uid) eqn:Ef; cbn zeta.
    + destruct (hold_expired _ _ _); [destruct (gave_up_statement_fails e uid) |];
        (split; cbn [ps_db ps_hold_at ps_highest_seen mailboxes set_holds
                     failed_messages transient_fetches];
         [done | by apply grows_same | done
         | first [done | intros k Hk; by rewrite lookup_alter_ne by congruence]
         | intros h Hh; rewrite ?Hh; eexists; split; [done | lia] | auto using max_either | ]).
      1, 2: left; apply AccTombstoneUnwritable; by rewrite ?Ef.
      right. destruct (ps_hold_at p); eexists; (split; [done | lia]).
    + destruct (hold_expired _ _ _); [destruct (gave_up_statement_fails e uid) eqn:Eg |];
        (split; cbn [ps_db ps_hold_at ps_highest_seen mailboxes set_holds
                     failed_messages transient_fetches];
         [done | by apply grows_same | done
         | intros k Hk; rewrite ?lookup_alter_ne by congruence; by rewrite lookup_insert_ne by congruence
         | intros h Hh; rewrite ?Hh; eexists; split; [done | lia] | auto using max_either | ]).
      * left. apply AccTombstoneUnwritable; by rewrite ?Ef, ?Eg.
      * left. eapply AccTombstone; [done | cbn; rewrite lookup_alter_eq, lookup_insert_eq; done |].
        cbn. eauto.
      * right. destruct (ps_hold_at p); eexists; (split; [done | lia]).
  - apply orb_false_iff in Eon as [_ Eon].
    split; cbn; [done.. | intros h ->; eexists; split; [done | lia] | apply max_either |].
    left. by apply AccExpunged.
Qed.

Lemma full_body_step p uid p' : fd_body (response e uid) <> [] ->
  full_body e a mb p uid (response e uid) = Ok p' -> step_spec p p' uid.
Proof.
  intros Hbody. unfold full_body.
  set (d0 := if bool_decide _ then _ else ps_db p). cbv zeta.
  assert (H0 : mailboxes d0 = mailboxes (ps_db p) /\ messages d0 = messages (ps_db p) /\
    message_labels d0 = message_labels (ps_db p) /\
    failed_messages d0 = failed_messages (ps_db p) /\
    forall k, k <> (mb, uid) -> transient_fetches d0 !! k = transient_fetches (ps_db p) !! k).
  { subst d0. case_bool_decide; [| done]. cbn. split_and!; [done.. |].
    intros k Hk. by rewrite lookup_delete_ne by congruence. }
  clearbody d0. destruct H0 as (Hmb0 & Hms0 & Hls0 & Hf0 & Ht0).
  pose proof (grows_same (ps_db p) d0 Hms0 Hls0) as Hg0.
  assert (Hcommon : forall d1 ins sk hb,
    mailboxes d1 = mailboxes d0 -> grows d0 d1 ->
    (forall k, k <> (a, mb, uid) -> failed_messages d1 !! k = failed_messages d0 !! k) ->
    transient_fetches d1 = transient_fetches d0 -> accounted d1 uid ->
    step_spec p (Pass d1 ins sk (ps_seen p + 1) (Z.max (ps_highest_seen p) uid)
                   (ps_hold_at p) (ps_server_emptying_bodies p) hb) uid).
  { intros d1 ins sk hb Hm Hg Hf Ht Hacc. split; cbn.
    - congruence.
    - by etrans.
    - intros k Hk. rewrite Hf, Hf0; done.
    - intros k Hk. rewrite Ht. by apply Ht0.
    - intros h ->. eexists. split; [done | lia].
    - apply max_either.
    - by left. }
  destruct (process_one_message e (on_process e uid) d0 a mb uid _ _ _) as [[d1 [i ins]] | [| c]] eqn:Ep;
    [| done |].
  - intros [= <-]. apply process_spec in Ep as ((_ & ? & Hfd & ?) & ? & Harch & _).
    apply Hcommon; [done | done | by rewrite Hfd | done | by apply AccArchived].
  - destruct (record_failed_message e (on_log e uid) _ a mb uid _ _) as [d1 |] eqn:Er; [| done].
    intros [= <-]. apply record_failed_spec in Er as (_ & Hm & Hms & Hls & Ht & Hf & Hrow).
    destruct (rollback_frame (on_process e uid) d0) as [(_ & Hmr & Hfr & Htr) Hgr].
    apply Hcommon; [congruence | | | congruence |].
    + etrans; [exact Hgr |]. by apply grows_same.
    + intros k Hk. rewrite Hf by done. by rewrite Hfr.
    + destruct Hrow as [[_ [c' Hc]] | (f & Hfk & Hraw & _)].
      * by eapply AccPillUnwritable.
      * by eapply AccPoisonPill.
Qed.

Lemma sync_uid_step p uid p' : sync_uid e a mb max_hold p uid = Ok p' -> step_spec p p' uid.
Proof.
  unfold sync_uid. destruct (fd_body (response e uid)) eqn:Eb.
  - intros [= <-]. by apply empty_body_step.
  - apply full_body_step. by rewrite Eb.
Qed.

(** ** The invariant of a pass

    [start] is the running maximum the pass began with and [w0] the resume
    point stored before it. *)
Context (start : Z) (w0 : option Z).

Record pass_inv (done : list Z) (p : pass) : Prop := {
  inv_done u : u ∈ done ->
    accounted (ps_db p) u \/ exists h, ps_hold_at p = Some h /\ h <= u;
  inv_highest : ps_highest_seen p = start \/ ps_highest_seen p ∈ done;
}.

(** At a batch boundary the stored resume point is the checkpoint. *)
Definition committed_inv (done : list Z) (p : pass) : Prop :=
  pass_inv done p /\
  exists m, mailboxes (ps_db p) !! mb = Some m /\
    ((done = [] /\ mb_uidnext m = w0) \/
     mb_uidnext m = Some (checkpoint_uidnext (ps_highest_seen p) (ps_hold_at p))).

Lemma pass_inv_step done p uid p' :
  pass_inv done p -> step_spec p p' uid -> pass_inv (done ++ [uid]) p'.
Proof.
  intros [Hd Hh] Hs. split.
  - intros u Hu. destruct (decide (u = uid)) as [-> | Hne]; [apply (st_done _ _ _ Hs) |].
    assert (u ∈ done) as Hin by set_solver.
    destruct (Hd u Hin) as [Hacc | (h & Hh' & ?)].
    + left. eapply accounted_keeps; [apply (st_grows _ _ _ Hs) | | | exact Hacc].
      * apply (st_failed _ _ _ Hs). congruence.
      * intros h Hh' _. rewrite (st_holds _ _ _ Hs) by congruence. done.
    + right. destruct (st_hold_at _ _ _ Hs _ Hh') as (h' & ? & ?). exists h'. split; [done | lia].
  - destruct (st_highest _ _ _ Hs) as [-> | ->]; set_solver.
Qed.

Lemma fold_sync_uid_inv done p chunk p' :
  pass_inv done p -> foldM (sync_uid e a mb max_hold) p chunk = Ok p' ->
  pass_inv (done ++ chunk) p' /\ mailboxes (ps_db p') = mailboxes (ps_db p).
Proof.
  intros Hi Hf.
  apply (foldM_invariant _ (fun l q => pass_inv (done ++ l) q /\
    mailboxes (ps_db q) = mailboxes (ps_db p)) _ _ _ ) with (3 := Hf).
  - by rewrite app_nil_r.
  - intros l x q q' _ [Hq Hm] Hx%sync_uid_step. rewrite app_assoc. split.
    + by eapply pass_inv_step.
    + by rewrite (st_mailboxes _ _ _ Hx).
Qed.

Lemma checkpoint_inv done p uv :
  pass_inv done p -> pass_inv done (checkpoint e mb uv p).
Proof.
  intros [Hd Hh]. split; [| done].
  intros u Hu. destruct (Hd u Hu) as [Hacc | ?]; [left | by right].
  eapply accounted_keeps; [| | | exact Hacc]; [by apply grows_same | done |].
  intros h Hl Hg. unfold checkpoint. cbn [with_db ps_db].
  apply reclaim_below_keeps; auto.
Qed.

Lemma sync_batch_inv uv done p chunk p' :
  committed_inv done p -> sync_batch e a mb max_hold uv p chunk = Ok p' ->
  committed_inv (done ++ chunk) p'.
Proof.
  intros [Hi (m & Hm & _)]. unfold sync_batch.
  destruct (fetch_error e chunk); [done |].
  destruct (foldM _ p chunk) as [q |] eqn:Ef; [| done]. intros [= <-].
  destruct (fold_sync_uid_inv _ _ _ _ Hi Ef) as [Hq Hmq].
  split; [by apply checkpoint_inv |].
  eexists. split; [cbn; rewrite lookup_alter_eq, Hmq, Hm; done |]. by right.
Qed.

(** Whatever ends the batches, the committed store is the one a whole
    number of batches left. *)
Lemma sync_batches_inv uv chunks : forall done p,
  committed_inv done p ->
  exists done' p' r, sync_batches e a mb max_hold uv p chunks = (ps_db p', r) /\
    committed_inv done' p' /\ done' `prefix_of` done ++ concat chunks /\
    (forall n, r = Ok n -> done' = done ++ concat chunks /\ n = ps_inserted p').
Proof.
  induction chunks as [| c chunks IH]; intros done p Hi; cbn [sync_batches concat].
  - exists done, p, (Ok (ps_inserted p)). rewrite app_nil_r.
    split_and!; [done.. | by intros n [= <-]].
  - destruct (sync_batch e a mb max_hold uv p c) as [q | x] eqn:Eb.
    + rewrite app_assoc. apply IH. by eapply sync_batch_inv.
    + exists done, p, (Err x). split_and!; [done | done | by apply prefix_app_r | done].
Qed.

(** What a committed batch looked at is accounted for below its resume point. *)
Lemma done_accounted done p m u w :
  committed_inv done p -> mailboxes (ps_db p) !! mb = Some m -> mb_uidnext m = Some w ->
  u ∈ done -> u < w -> accounted (ps_db p) u.
Proof.
  intros [[Hd _] (m' & Hm' & Hw')] Hm Hw Hin Hlt. simplify_eq.
  destruct Hw' as [[-> _] | Hcp]; [by apply not_elem_of_nil in Hin |].
  rewrite Hw in Hcp. simplify_eq.
  destruct (checkpoint_le (ps_highest_seen p) (ps_hold_at p)) as [_ Hhold].
  destruct (Hd u Hin) as [? | (h & Hh & ?)]; [done |]. specialize (Hhold h Hh). lia.
Qed.

(** The resume point of a sorted candidate list leaves nothing behind it. *)
Lemma committed_accounted done p m rest u w :
  committed_inv done p -> mailboxes (ps_db p) !! mb = Some m -> mb_uidnext m = Some w ->
  StronglySorted Z.le (done ++ rest) -> start < u ->
  (forall w1, w0 = Some w1 -> w1 <= start + 1) ->
  u ∈ done ++ rest -> u < w -> accounted (ps_db p) u.
Proof.
  intros Hinv Hm Hw Hsorted Hstart Hw0 Hu Hlt.
  assert (u ∈ done) as Hin; [| by eapply done_accounted].
  destruct Hinv as [[_ Hh] (m' & Hm' & Hw')]. simplify_eq. destruct Hw' as [[-> Hw1] | Hcp].
  { specialize (Hw0 w ltac:(congruence)). lia. }
  rewrite Hw in Hcp. simplify_eq.
  destruct (checkpoint_le (ps_highest_seen p) (ps_hold_at p)) as [Hle _].
  apply elem_of_app in Hu as [? | Hu]; [done |].
  destruct Hh as [Hh | Hh]; [lia |].
  assert (ps_highest_seen p <= u) by (by eapply StronglySorted_app_1_elem_of).
  assert (u = ps_highest_seen p) as -> by lia. done.
Qed.
End pass.

(** ** Whole passes *)

Lemma candidates_sorted e fs mb found :
  candidates e fs mb = Ok found -> StronglySorted Z.le found.
Proof.
  unfold candidates, filter_new_uids. intros Hc.
  destruct fs; [destruct (search_all e) | destruct (search_from e _)]; simplify_eq/=;
    apply StronglySorted_merge_sort; try apply _; intros ???; lia.
Qed.

(** An incremental pass only looks at or above the stored resume point. *)
Lemma candidates_incremental e mb found :
  candidates e false mb = Ok found -> Forall (fun u => py_or (uidnext mb) 1 <= u) found.
Proof.
  unfold candidates, filter_new_uids. intros Hc.
  destruct (search_from e _); simplify_eq/=. apply Forall_forall.
  intros u Hu. rewrite merge_sort_Permutation in Hu. by apply list_elem_of_filter in Hu as [? _].
Qed.

Lemma cut_prefix max uids : cut max uids `prefix_of` uids.
Proof.
  unfold cut, slice_to. destruct max; [| done]. case_match; [| done].
  case_match; apply prefix_take.
Qed.

Lemma cut_nonempty max uids :
  (forall n, max = Some n -> 1 <= n) -> cut max uids = [] -> uids = [].
Proof.
  intros Hmax. unfold cut, slice_to. destruct max as [n |]; [| done].
  specialize (Hmax n eq_refl). destruct (n <? _) eqn:E; [| done].
  rewrite (proj2 (Z.ltb_ge n 0)) by lia. intros Ht. destruct uids; [done |].
  destruct (Z.to_nat n) eqn:En; [lia | done].
Qed.

Lemma forget_mailboxes d mb uv : mailboxes (forget_old_uids d mb uv) = mailboxes d.
Proof. unfold forget_old_uids. by destruct (_ && _). Qed.

Lemma py_or_le x w : x = Some w -> w <= py_or x 1.
Proof. intros ->. cbn. destruct (Z.eqb_spec w 0); lia. Qed.

(** C1: no silent loss.  After a pass over a mailbox, whether it finished or was
    aborted by contention or by the server, a UID the server listed that lies
    below the committed resume point is archived and linked to the mailbox, or
    kept as a poison pill with its raw bytes, or tombstoned, or was expunged, or
    its own log row could not be written.  The pass is unlimited or limited to a
    positive number of messages ([max_messages = 0] is the finding at sync.py:774).
    In an incremental pass this holds of every UID listed; in a full resync, of
    every UID when the pass is unlimited and finishes, and otherwise of the UIDs at
    or above the resume point it started from, which is of the old numbering (the
    finding at sync.py:788, [uidvalidity_change_skips_mail]). *)
Theorem sync_no_silent_loss e d account_id mb m uv un found max_messages max_hold :
  let mbx := MkMailboxRow mb (mb_name m) (mb_uidvalidity m) (mb_uidnext m) in
  let fs := full_sync mbx (py_or uv 0) in
  mailboxes d !! mb = Some m ->
  select_folder e = Ok (uv, un) -> candidates e fs mbx = Ok found ->
  (forall n, max_messages = Some n -> 1 <= n) ->
  let run := sync_mailbox e d account_id mbx max_messages max_hold in
  exists m', mailboxes run.1 !! mb = Some m' /\
    forall uid w, mb_uidnext m' = Some w -> uid ∈ found -> uid < w ->
      (fs = true -> py_or (mb_uidnext m) 1 <= uid \/ (max_messages = None /\ is_ok run.2 = true)) ->
      accounted e account_id mb run.1 uid.
Proof.
  intros mbx fs Hm Hsel Hfound Hmax run. subst run. unfold sync_mailbox. rewrite Hsel. fold fs. rewrite Hfound.
  assert (Hlow : forall u, u ∈ found -> fs = false -> py_or (mb_uidnext m) 1 <= u).
  { intros u Hu Hfs. rewrite Hfs in Hfound. apply (candidates_incremental e mbx) in Hfound.
    rewrite Forall_forall in Hfound. by apply Hfound. }
  destruct (cut max_messages found) as [| u0 us] eqn:Ecut.
  - apply cut_nonempty in Ecut as ->; [| done]. cbn.
    rewrite lookup_alter_eq, forget_mailboxes, Hm. eexists. split; [done |].
    intros uid w _ Hu. by apply not_elem_of_nil in Hu.
  - cbv zeta.
    set (p0 := start_pass _ mbx).
    assert (H0 : committed_inv e account_id mb (py_or (mb_uidnext m) 1 - 1) (mb_uidnext m) [] p0).
    { split; [split; [by intros u ?%not_elem_of_nil | by left] |].
      exists m. unfold p0, start_pass. cbn [ps_db]. rewrite forget_mailboxes. auto. }
    destruct (sync_batches_inv e account_id mb max_hold (py_or (mb_uidnext m) 1 - 1)
      (mb_uidnext m) (py_or uv 0) (batches (cut max_messages found) BATCH_SIZE) [] p0 H0)
      as (done & p' & r & Hrun & Hinv & Hpre & Hall).
    rewrite Ecut in Hrun. cbn [mailbox_id mbx]. rewrite Hrun. cbn [fst snd].
    rewrite batches_concat in Hpre, Hall by (unfold BATCH_SIZE; lia).
    assert (Hpre' : done `prefix_of` found) by (etrans; [exact Hpre | apply cut_prefix]).
    destruct Hpre' as [rest Hrest].
    destruct (proj2 Hinv) as (m' & Hm' & _). exists m'. split; [done |].
    intros uid w Hw Hu Hlt Hfs.
    assert (py_or (mb_uidnext m) 1 <= uid \/ uid ∈ done) as [Hge | Hdone]; [| | by eapply done_accounted].
    { destruct fs eqn:Efs; [| left; by apply Hlow].
      destruct (Hfs eq_refl) as [? | [-> Hok]]; [by left | right].
      destruct r as [n |]; [| done]. by destruct (Hall n eq_refl) as [-> _]. }
    eapply (committed_accounted _ _ _ _ _ done p' m' rest uid w Hinv);
      rewrite <- ?Hrest; try done; [by eapply candidates_sorted | lia |].
    intros w1 Hw1%py_or_le. lia.
Qed.

(** ** Other invariants of a pass *)
Section preserved.
Context (e : env) (a : Z) (max_hold : Z).

Lemma sync_batches_preserves mb (I : pass -> Prop) uv chunks : forall p,
  I p ->
  (forall q u q', I q -> sync_uid e a mb max_hold q u = Ok q' -> I q') ->
  (forall q, I q -> I (checkpoint e mb uv q)) ->
  exists p' r, sync_batches e a mb max_hold uv p chunks = (ps_db p', r) /\ I p' /\
    (forall n, r = Ok n -> n = ps_inserted p').
Proof.
  intros p Hp Hstep Hck. revert p Hp.
  induction chunks as [| c chunks IH]; intros p Hp; cbn [sync_batches].
  - exists p, (Ok (ps_inserted p)). split_and!; [done.. | by intros n [= <-]].
  - destruct (sync_batch e a mb max_hold uv p c) as [q | x] eqn:Eb.
    + apply IH. unfold sync_batch in Eb. destruct (fetch_error e c); [done |].
      destruct (foldM _ p c) as [q' |] eqn:Ef; [| done]. simplify_eq. apply Hck.
      apply (foldM_invariant _ (fun _ => I) _ _ _ Hp) with (2 := Ef). eauto.
    + by exists p, (Err x).
Qed.

(** A property of the store and of the count of insertions that every step
    keeps holds at the end of the pass. *)
Lemma sync_mailbox_preserves (I : store -> Z -> Prop) d mbx max_messages :
  I d 0 -> (forall uv, I d 0 -> I (forget_old_uids d mbx uv) 0) ->
  (forall q u q', I (ps_db q) (ps_inserted q) ->
     sync_uid e a (mailbox_id mbx) max_hold q u = Ok q' -> I (ps_db q') (ps_inserted q')) ->
  (forall d' n uv un t, I d' n -> I (update_mailbox_progress d' (mailbox_id mbx) uv un t) n) ->
  (forall d' n u, I d' n -> I (reclaim_below d' (mailbox_id mbx) u) n) ->
  let '(d', r) := sync_mailbox e d a mbx max_messages max_hold in
  exists n, I d' n /\ forall k, r = Ok k -> k = n.
Proof.
  intros Hd Hforget Hstep Hprog Hrecl. unfold sync_mailbox.
  destruct (select_folder e) as [[uv un] |]; [| by exists 0].
  destruct (candidates _ _ _) as [found |]; [| exists 0; by split; [apply Hforget |]].
  destruct (cut max_messages found) as [| u0 us] eqn:Ecut.
  - exists 0. split; [by apply Hprog, Hforget | by intros k [= <-]].
  - destruct (sync_batches_preserves (mailbox_id mbx)
      (fun p => I (ps_db p) (ps_inserted p)) (py_or uv 0) (batches (u0 :: us) BATCH_SIZE)
      (start_pass (forget_old_uids d mbx (py_or uv 0)) mbx))
      as (p' & r & -> & HI & Hr); [by apply Hforget | by apply Hstep | |].
    + intros q Hq. unfold checkpoint. cbn. by apply Hrecl, Hprog.
    + exists (ps_inserted p'). split; [done |]. apply Hr.
Qed.
End preserved.

(** *** The unique indexes *)
Definition tables_ok (d : store) : Prop :=
  messages_unique (messages d) /\ labels_unique (message_labels d).

Lemma upsert_label_unique d i mb uid fl d' :
  labels_unique (message_labels d) -> upsert_label d i mb uid fl = Ok d' ->
  labels_unique (message_labels d').
Proof.
  intros Hu [-> Hfree]%upsert_label_ok. cbn.
  intros m1 m2 mb' l1 l2 H1 H2 Heq.
  apply lookup_insert_Some in H1 as [[[= <- <-] <-] | [Hn1 H1]];
    apply lookup_insert_Some in H2 as [[Hk <-] | [Hn2 H2]]; simplify_eq; try done.
  - symmetry. exact (Hfree m2 l2 H2 (eq_sym Heq)).
  - exact (Hfree m1 l1 H1 Heq).
  - by eapply Hu.
Qed.

Lemma messages_unique_attachments ms i rows :
  messages_unique ms ->
  messages_unique (alter (fun r =>
    MessageRow (mr_account r) (mr_parsed r) (mr_internal_date r) rows) i ms).
Proof.
  intros Hu.
  assert (G : forall j r, alter (fun r => MessageRow (mr_account r) (mr_parsed r)
      (mr_internal_date r) rows) i ms !! j = Some r ->
      exists r0, ms !! j = Some r0 /\ mr_account r = mr_account r0 /\ mr_parsed r = mr_parsed r0).
  { intros j r. rewrite lookup_alter_Some. naive_solver. }
  intros j k r1 r2 (r1' & Hj & Ha1 & Hp1)%G (r2' & Hk & Ha2 & Hp2)%G.
  unfold same_key, dedup_match, mr_message_id, mr_raw_sha256. rewrite Ha1, Hp1, Ha2, Hp2.
  by apply (Hu j k r1' r2').
Qed.

Lemma process_tables_ok e at_ d a mb uid raw fl idate d' i ins :
  at_racing at_ = ∅ -> tables_ok d ->
  process_one_message e at_ d a mb uid raw fl idate = Ok (d', (i, ins)) ->
  tables_ok d' /\
  Z.of_nat (size (messages d')) = Z.of_nat (size (messages d)) + (if ins then 1 else 0).
Proof.
  intros Hrace [Hm Hl]. unfold process_one_message. intros Hp.
  destruct (parse_message e raw) as [p |]; [| done].
  destruct (at_error at_); [done |].
  destruct (upsert_message at_ d a p idate) as [[d1 [i1 ins1]] |] eqn:Eu; [| done].
  destruct (upsert_label d1 i1 mb uid fl) as [d2 |] eqn:El; [| done].
  assert (Hun1 : messages_unique (messages d1)).
  { eapply upsert_message_unique; [| exact Eu]. by rewrite Hrace, map_union_empty. }
  destruct (upsert_message_frame _ _ _ _ _ _ _ _ Eu) as (_ & _ & Hls & _).
  assert (Hl2 : labels_unique (message_labels d2)).
  { eapply upsert_label_unique; [| exact El]. by rewrite Hls. }
  assert (Hsz : Z.of_nat (size (messages d1)) = Z.of_nat (size (messages d)) + (if ins1 then 1 else 0)).
  { unfold upsert_message in Eu. rewrite Hrace, map_union_empty in Eu.
    destruct (existing_message_id (messages d) a _ _); [simplify_eq; lia |].
    destruct (insert_conflicts _ _ _ _) eqn:Ec; [done |]. simplify_eq/=.
    apply insert_conflicts_false in Ec as [Hfresh _].
    rewrite map_size_insert_None by done. lia. }
  apply upsert_label_ok in El as [-> _].
  destruct (ins1 && _).
  - destruct (write_attachments e p); [| done]. simplify_eq.
    split; [split; [| exact Hl2] |]; unfold set_message_attachments; cbn [messages set_messages].
    + by apply messages_unique_attachments.
    + by rewrite <- size_dom, dom_alter_L, size_dom.
  - by simplify_eq.
Qed.

(** At one connection writing, a pass keeps the unique indexes of
    [messages] and [message_labels], and the number it reports is the number of
    rows it added: a message already archived, under another label or another
    UID, is linked and not stored twice. *)
Lemma sync_keeps_tables e d account_id mbx max_messages max_hold :
  (forall u, at_racing (on_process e u) = ∅) -> tables_ok d ->
  let '(d', r) := sync_mailbox e d account_id mbx max_messages max_hold in
  tables_ok d' /\
  forall n, r = Ok n ->
    Z.of_nat (size (messages d')) = Z.of_nat (size (messages d)) + n.
Proof.
  intros Hrace Hok.
  pose proof (sync_mailbox_preserves e account_id max_hold
    (fun d' n => tables_ok d' /\
       Z.of_nat (size (messages d')) = Z.of_nat (size (messages d)) + n) d mbx max_messages) as G.
  destruct (sync_mailbox e d account_id mbx max_messages max_hold) as [d' r].
  destruct G as (n & [? ?] & Hr); [split; [done | lia] | | | by intros | by intros |
    split; [done |]; by intros k ->%Hr].
  - intros uv [[Hm Hl] Hn]. unfold forget_old_uids. destruct (_ && _); [| done].
    split; [split; [done |] | done]. cbn.
    intros m1 m2 mb l1 l2 [H1 _]%map_lookup_filter_Some [H2 _]%map_lookup_filter_Some.
    by apply (Hl m1 m2 mb).
  - intros q u q' [Hq Hn]. unfold sync_uid.
    destruct (fd_body (response e u)) eqn:Eb.
    + intros [= <-]. unfold empty_body, record_attempt, mark_gave_up.
      repeat case_match; simplify_eq; cbn; done.
    + unfold full_body. set (d0 := if bool_decide _ then _ else ps_db q).
      assert (Hd0 : tables_ok d0 /\ messages d0 = messages (ps_db q)).
      { subst d0. by destruct (bool_decide _). }
      clearbody d0. destruct Hd0 as [Hd0 Hms]. rewrite <- Hms in Hn. cbv zeta.
      destruct (process_one_message e _ d0 _ _ u _ _ _) as [[d1 [i ins]] | [| c]] eqn:Ep; [| done |].
      * intros [= <-]. apply process_tables_ok in Ep as [? Hsz]; [| done..].
        cbn. split; [done |]. rewrite Hsz, Hn. lia.
      * destruct (record_failed_message e _ _ _ _ _ _ _) as [d1 |] eqn:Er; [| done].
        intros [= <-]. apply record_failed_spec in Er as (_ & _ & Hms1 & Hls1 & _).
        cbn in *. rewrite Hrace, map_union_empty in Hms1.
        unfold tables_ok. rewrite Hms1, Hls1, Z.add_0_r. done.
Qed.

Definition total (results : list (pystr * Z)) : Z := foldr Z.add 0 results.*2.

Lemma upsert_mailbox_frame new_id d account_id name delim flags :
  let d' := (upsert_mailbox new_id d account_id name delim flags).1 in
  messages d' = messages d /\ message_labels d' = message_labels d.
Proof. unfold upsert_mailbox. by destruct (_ ≫= _) as [[i m] |]. Qed.

Lemma total_snoc rs name n : total (rs ++ [(name, n)]) = total rs + n.
Proof. unfold total. induction rs as [| [? k] rs IH]; cbn in *; lia. Qed.

Lemma sync_folders_tables env_of new_id d account_id folders max_messages max_hold results :
  (forall f u, at_racing (on_process (env_of f) u) = ∅) -> tables_ok d ->
  let '(d', r) := sync_folders env_of new_id d account_id folders max_messages max_hold results in
  tables_ok d' /\
  forall rs, r = Ok rs ->
    Z.of_nat (size (messages d')) + total results = Z.of_nat (size (messages d)) + total rs.
Proof.
  intros Hrace. revert d results. induction folders as [| f folders IH]; intros d results Hok; cbn [sync_folders].
  { split; [done |]. by intros rs [= <-]. }
  pose proof (upsert_mailbox_frame (new_id (fo_name f)) d account_id (fo_name f) (fo_delimiter f) (fo_flags f)) as [Hm Hl].
  destruct (upsert_mailbox _ _ _ _ _ _) as [d1 mb]. cbn in Hm, Hl.
  assert (Hok1 : tables_ok d1) by (unfold tables_ok in *; by rewrite Hm, Hl).
  pose proof (sync_keeps_tables (env_of (fo_name f)) d1 account_id mb max_messages max_hold (Hrace _) Hok1) as Hs.
  destruct (sync_mailbox _ _ _ _ _ _) as [d2 [n | x]]; destruct Hs as [Hok2 Hn]; [| by split].
  specialize (IH d2 (results ++ [(fo_name f, n)]) Hok2).
  destruct (sync_folders _ _ _ _ _ _ _ _) as [d' r]. destruct IH as [? Hr]. split; [done |].
  intros rs ->. specialize (Hr rs eq_refl). specialize (Hn n eq_refl). rewrite total_snoc in Hr. rewrite <- Hm. lia.
Qed.

(** At one connection writing, syncing an account keeps the unique indexes
    of [messages] and [message_labels], however it ends, and the counts it
    reports for its folders sum to the number of rows it added: a message already
    archived, under another label or another UID, is linked and not stored
    twice. *)
Lemma sync_account_keeps_tables env_of new_id d account_id listed allow deny deny_flags max_messages max_hold :
  (forall f u, at_racing (on_process (env_of f) u) = ∅) -> tables_ok d ->
  let '(d', r) := sync_account env_of new_id d account_id listed allow deny deny_flags max_messages max_hold in
  tables_ok d' /\
  forall rs, r = Ok rs -> Z.of_nat (size (messages d')) = Z.of_nat (size (messages d)) + total rs.
Proof.
  intros Hrace Hok. unfold sync_account. destruct listed as [folders | x]; [| by split].
  pose proof (sync_folders_tables env_of new_id d account_id (folders_to_sync folders allow deny deny_flags)
    max_messages max_hold [] Hrace Hok) as G.
  destruct (sync_folders _ _ _ _ _ _ _ _) as [d' r]. destruct G as [? Hr]. split; [done |].
  intros rs Hrs. specialize (Hr rs Hrs). cbn in Hr. lia.
Qed.

(** *** Tombstones *)
Lemma sync_uid_tombstone e a mb max_hold p u p' uid h t :
  sync_uid e a mb max_hold p u = Ok p' ->
  transient_fetches (ps_db p) !! (mb, uid) = Some h -> h_gave_up_at h = Some t ->
  fd_body (response e uid) = [] ->
  exists h', transient_fetches (ps_db p') !! (mb, uid) = Some h' /\ h_gave_up_at h' = Some t.
Proof.
  intros Hs Hh Ht Hb. destruct (decide (u = uid)) as [-> | Hne].
  - unfold sync_uid in Hs. rewrite Hb in Hs. simplify_eq.
    unfold empty_body, record_attempt, mark_gave_up. rewrite Hh.
    case_ifs; cbn; rewrite ?E0, ?E1; cbn;
      rewrite ?lookup_alter_eq, ?lookup_insert_eq, ?Hh; cbn;
      (eexists; split; [reflexivity | cbn; by rewrite ?Ht]).
  - apply sync_uid_step in Hs. exists h. split; [| done].
    rewrite (st_holds _ _ _ _ _ _ Hs) by congruence. done.
Qed.

(** A tombstone is sticky.  While the mailbox keeps its numbering, a pass
    neither drops a given-up UID nor restamps the moment it was given up,
    unless the server served its body. *)
Lemma tombstones_are_sticky e d account_id mbx max_messages max_hold uid h t :
  (forall uv un, select_folder e = Ok (uv, un) -> full_sync mbx (py_or uv 0) = false) ->
  transient_fetches d !! (mailbox_id mbx, uid) = Some h -> h_gave_up_at h = Some t ->
  fd_body (response e uid) = [] ->
  exists h', transient_fetches (sync_mailbox e d account_id mbx max_messages max_hold).1
      !! (mailbox_id mbx, uid) = Some h' /\ h_gave_up_at h' = Some t.
Proof.
  intros Hfs Hh Ht Hb.
  set (T := fun d' : store => exists h', transient_fetches d' !! (mailbox_id mbx, uid) = Some h' /\
              h_gave_up_at h' = Some t).
  change (T (sync_mailbox e d account_id mbx max_messages max_hold).1).
  destruct (select_folder e) as [[uv un] | x] eqn:Esel.
  2: { unfold sync_mailbox. rewrite Esel. by exists h. }
  assert (Hf : full_sync mbx (py_or uv 0) = false) by by eapply Hfs.
  assert (Hforget : forget_old_uids d mbx (py_or uv 0) = d)
    by (unfold forget_old_uids; by rewrite Hf).
  unfold sync_mailbox. rewrite Esel, Hforget.
  destruct (candidates _ _ _) as [found |]; [| by exists h].
  destruct (cut max_messages found) as [| u0 us]; [by exists h |].
  destruct (sync_batches_preserves e account_id max_hold (mailbox_id mbx)
    (fun p => T (ps_db p)) (py_or uv 0) (batches (u0 :: us) BATCH_SIZE) (start_pass d mbx))
    as (p' & r & -> & HT & _); [by exists h | | | exact HT].
  - intros q u q' (h1 & Hh1 & Ht1) Hs. eapply sync_uid_tombstone; eauto.
  - intros q (h1 & Hh1 & Ht1). exists h1. split; [| done].
    unfold checkpoint. cbn [with_db ps_db]. apply reclaim_below_keeps; [done |].
    right. right. rewrite Ht1. eauto.
Qed.

(** *** Held UIDs *)
Section holds.
Context (e : env) (a mb max_hold uid : Z) (first : option Z).
Context (Hbody : fd_body (response e uid) = []) (Hon : uid_still_on_server e uid = true).
Context (Hfresh : hold_expired (tx_now e uid) (db_now e) max_hold = false).
Context (Hstored : forall t, first = Some t -> hold_expired t (db_now e) max_hold = false).

(** The recorded hold, if any, began when the store says, or just now. *)
Definition hold_young (d : store) : Prop :=
  forall h, transient_fetches d !! (mb, uid) = Some h ->
    Some (h_first_seen_at h) = first \/ h_first_seen_at h = tx_now e uid.

Lemma sync_uid_hold_young p u p' :
  hold_young (ps_db p) -> sync_uid e a mb max_hold p u = Ok p' -> hold_young (ps_db p').
Proof using Hbody.
  intros Hy Hs. destruct (decide (u = uid)) as [-> | Hne].
  - unfold sync_uid in Hs. rewrite Hbody in Hs. simplify_eq.
    unfold empty_body, record_attempt, mark_gave_up.
    case_ifs; cbn; rewrite ?E0, ?E1; cbn; try done; intros h; cbn;
      rewrite ?lookup_alter_eq, ?lookup_insert_eq; cbn;
      destruct (transient_fetches (ps_db p) !! (mb, uid)) as [h0 |] eqn:Eh; cbn;
      intros; simplify_eq; cbn; auto; exact (Hy _ Eh).
  - intros h. rewrite (st_holds _ _ _ _ _ _ (sync_uid_step _ _ _ _ _ _ _ Hs)) by congruence.
    apply Hy.
Qed.

Lemma empty_body_holds p :
  hold_young (ps_db p) ->
  exists h, ps_hold_at (empty_body e mb max_hold p uid) = Some h /\ h <= uid.
Proof using Hon Hfresh Hstored.
  intros Hy. unfold empty_body. rewrite Hon, orb_true_r. unfold record_attempt.
  assert (Hexp : forall d1 hold, (if hold_statement_fails e uid then (ps_db p, HoldState 1 (tx_now e uid))
      else let h := match transient_fetches (ps_db p) !! (mb, uid) with
             | None => HoldRow 1 (tx_now e uid) (tx_now e uid) None
             | Some h => HoldRow (h_attempt_count h + 1) (h_first_seen_at h) (tx_now e uid)
                           (h_gave_up_at h) end in
        (set_holds (<[(mb, uid) := h]> (transient_fetches (ps_db p))) (ps_db p), state_of h)) = (d1, hold) ->
      hold_expired (first_seen_at hold) (db_now e) max_hold = false).
  { intros d1 hold. destruct (hold_statement_fails e uid); [by intros [= _ <-] |].
    cbv zeta. intros [= _ <-]. unfold hold_young in Hy.
    destruct (transient_fetches (ps_db p) !! (mb, uid)) as [h |]; [| done].
    cbn. destruct (Hy h eq_refl) as [Hf | ->]; [by apply Hstored | done]. }
  destruct (if hold_statement_fails e uid then _ else _) as [d1 hold] eqn:Er.
  rewrite (Hexp d1 hold eq_refl). cbn.
  destruct (ps_hold_at p); eexists; (split; [done | lia]).
Qed.

(** Once the UID has been met the resume point cannot pass it. *)
Definition hold_inv (done : list Z) (p : pass) : Prop :=
  hold_young (ps_db p) /\
  (uid ∈ done -> exists h, ps_hold_at p = Some h /\ h <= uid).

Lemma hold_inv_step done p u p' :
  hold_inv done p -> sync_uid e a mb max_hold p u = Ok p' -> hold_inv (done ++ [u]) p'.
Proof using Hbody Hon Hfresh Hstored.
  intros [Hy Hd] Hs. split; [by eapply sync_uid_hold_young |].
  intros Hin. destruct (decide (u = uid)) as [-> | Hne].
  - unfold sync_uid in Hs. rewrite Hbody in Hs. simplify_eq. by apply empty_body_holds.
  - destruct Hd as (h & Hh & ?); [set_solver |].
    apply sync_uid_step in Hs. destruct (st_hold_at _ _ _ _ _ _ Hs h Hh) as (h' & ? & ?).
    exists h'. split; [done | lia].
Qed.

Lemma hold_inv_batches uv chunks : forall done p n,
  hold_inv done p -> (sync_batches e a mb max_hold uv p chunks).2 = Ok n ->
  (forall m, mailboxes (ps_db p) !! mb = Some m -> uid ∈ done ->
     exists w, mb_uidnext m = Some w /\ w <= uid) ->
  forall m, mailboxes (sync_batches e a mb max_hold uv p chunks).1 !! mb = Some m ->
    uid ∈ done ++ concat chunks -> exists w, mb_uidnext m = Some w /\ w <= uid.
Proof using Hbody Hon Hfresh Hstored.
  induction chunks as [| c chunks IH]; intros done p n Hi Hr Hw; cbn [sync_batches concat] in *.
  { rewrite app_nil_r. intros m Hm Hu. by eapply Hw. }
  destruct (sync_batch e a mb max_hold uv p c) as [q | x] eqn:Eb; [| done].
  rewrite app_assoc. eapply IH; [| exact Hr |];
    unfold sync_batch in Eb; destruct (fetch_error e c); try done;
    destruct (foldM _ p c) as [q' |] eqn:Ef; try done; simplify_eq;
    assert (Hq' : hold_inv (done ++ c) q')
      by (apply (foldM_invariant _ (fun l r => hold_inv (done ++ l) r)) with (3 := Ef);
          [by rewrite app_nil_r | intros; rewrite app_assoc; by eapply hold_inv_step]).
  - destruct Hq' as [Hy Hd]. split; [| done]. intros h Hh. apply Hy.
    by apply map_lookup_filter_Some in Hh as [? _].
  - intros m Hm Hin. destruct Hq' as [_ Hd]. destruct (Hd Hin) as (h & Hh & Hle).
    cbn in Hm. rewrite lookup_alter_Some in Hm.
    destruct Hm as [(_ & m0 & _ & ->) | [? _]]; [| done]. cbn.
    eexists. split; [done |].
    pose proof (proj2 (checkpoint_le (ps_highest_seen q') (ps_hold_at q')) h Hh). lia.
Qed.
End holds.

(** C19: a held UID pins the resume point.  When the server still lists a UID
    but serves no body, and the outage is younger than [max_hold], a pass that
    reaches the UID commits a resume point at or below it, so the next pass
    fetches it again, whatever came after it in the same pass. *)
Theorem held_uid_is_refetched e d account_id mbx m uv un found max_messages max_hold uid n :
  mailboxes d !! mailbox_id mbx = Some m ->
  select_folder e = Ok (uv, un) ->
  candidates e (full_sync mbx (py_or uv 0)) mbx = Ok found ->
  uid ∈ cut max_messages found ->
  fd_body (response e uid) = [] -> uid_still_on_server e uid = true ->
  hold_expired (tx_now e uid) (db_now e) max_hold = false ->
  (forall h, transient_fetches d !! (mailbox_id mbx, uid) = Some h ->
     hold_expired (h_first_seen_at h) (db_now e) max_hold = false) ->
  (sync_mailbox e d account_id mbx max_messages max_hold).2 = Ok n ->
  exists m' w, mailboxes (sync_mailbox e d account_id mbx max_messages max_hold).1
      !! mailbox_id mbx = Some m' /\ mb_uidnext m' = Some w /\ w <= uid.
Proof.
  intros Hm Hsel Hfound Hin Hb Hon Hfresh Hstored. unfold sync_mailbox.
  rewrite Hsel, Hfound.
  destruct (cut max_messages found) as [| u0 us] eqn:Ecut; [by apply not_elem_of_nil in Hin |].
  set (p0 := start_pass _ mbx). intros Hr.
  set (first := h_first_seen_at <$> transient_fetches d !! (mailbox_id mbx, uid)).
  assert (Hst : forall t, first = Some t -> hold_expired t (db_now e) max_hold = false).
  { intros t Ht. unfold first in Ht. destruct (transient_fetches d !! _) as [h |] eqn:Eh; [| done].
    cbn in Ht. simplify_eq. by apply Hstored. }
  assert (H0 : hold_inv e (mailbox_id mbx) uid first [] p0).
  { split; [| by intros ?%not_elem_of_nil]. intros h Hh. left. unfold first.
    unfold p0, start_pass, forget_old_uids in Hh. cbn [ps_db] in Hh.
    destruct (_ && _); cbn in Hh; [apply map_lookup_filter_Some in Hh as [Hh _] |]; by rewrite Hh. }
  assert (Hm0 : mailboxes (ps_db p0) !! mailbox_id mbx = Some m)
    by (unfold p0, start_pass; cbn [ps_db]; by rewrite forget_mailboxes).
  pose proof (hold_inv_batches e account_id (mailbox_id mbx) max_hold uid first Hb Hon Hfresh Hst
    (py_or uv 0) (batches (u0 :: us) BATCH_SIZE) [] p0 n H0 Hr) as G.
  rewrite batches_concat in G by (unfold BATCH_SIZE; lia).
  assert (Hex : is_Some (mailboxes (sync_batches e account_id (mailbox_id mbx) max_hold
    (py_or uv 0) p0 (batches (u0 :: us) BATCH_SIZE)).1 !! mailbox_id mbx)).
  { destruct (sync_batches_inv e account_id (mailbox_id mbx) max_hold (ps_highest_seen p0)
      (mb_uidnext m) (py_or uv 0) (batches (u0 :: us) BATCH_SIZE) [] p0)
      as (? & ? & ? & -> & (_ & m' & Hm' & _) & _); [| by eexists].
    split; [split; [by intros u ?%not_elem_of_nil | by left] |]. exists m. auto. }
  destruct Hex as [m' Hm']. destruct (G ltac:(by intros; exfalso; eapply not_elem_of_nil) m' Hm')
    as (w & ? & ?); [done |]. eauto.
Qed.

(** ** Re-driving the poison pills *)

Section retry.
Context (e : env).

(** A poison pill of [d0] is archived, or still recorded with its bytes. *)
Definition pill_kept (d0 d : store) : Prop :=
  forall a mb uid f, failed_messages d0 !! (a, mb, uid) = Some f ->
    archived e d a mb (f_raw_bytes f) \/
    exists f', failed_messages d !! (a, mb, uid) = Some f' /\
      f_raw_bytes f' = f_raw_bytes f /\ f_id f' = f_id f.

Lemma retry_one_spec d0 d row d' o :
  failed_messages d0 !! row.1 = Some row.2 -> pill_kept d0 d ->
  retry_one e d row = Ok (d', o) -> pill_kept d0 d' /\ messages d ⊆ messages d'.
Proof.
  destruct row as [[[a mb] uid] f]. cbn [fst snd]. intros Hrow Hk.
  unfold retry_one. set (at_ := on_process e (f_id f)). cbv zeta.
  destruct (process_one_message e at_ d a mb _ _ _ _) as [[d1 [i ins]] | [| c]] eqn:Ep; [| done |].
  - intros [= <- <-]. apply process_spec in Ep as ((_ & _ & Hf & _) & Hg & Harch & _).
    split; [| apply Hg]. intros a' mb' uid' f' Hf'.
    destruct (decide ((a', mb', uid') = (a, mb, uid))) as [[= -> -> ->] | Hne].
    { left. rewrite Hrow in Hf'. simplify_eq. exact Harch. }
    destruct (Hk _ _ _ _ Hf') as [? | Hf'']; [left; by apply (archived_grows e d d1) |].
    right. cbn. rewrite lookup_delete_ne by congruence. by rewrite Hf.
  - destruct (record_failed_message e _ _ a mb uid _ _) as [d1 |] eqn:Er; [| done].
    intros [= <- <-].
    apply record_failed_spec in Er as (_ & _ & Hms & Hls & _ & Hf & Hfail).
    destruct (rollback_frame at_ d) as [(_ & _ & Hfr & _) Hgr].
    assert (Hg : grows d d1) by (etrans; [exact Hgr | by apply grows_same]).
    split; [| apply Hg]. intros a' mb' uid' f' Hf'.
    destruct (Hk _ _ _ _ Hf') as [? | (f1 & Hf1 & Hraw & Hid)]; [left; by apply (archived_grows e d d1) |].
    right. destruct (decide ((a', mb', uid') = (a, mb, uid))) as [[= -> -> ->] | Hne].
    + rewrite Hrow in Hf'. simplify_eq.
      destruct Hfail as [[-> _] | (f2 & Hf2 & Hraw2 & Hold)]; [by exists f1 |].
      exists f2. rewrite <- Hfr in Hf1. destruct (Hold _ Hf1) as [Hid2 _].
      split_and!; [done | done | congruence].
    + exists f1. by rewrite Hf, Hfr.
Qed.

Lemma retry_rows_spec d0 rows : forall d s t,
  (forall row, row ∈ rows -> failed_messages d0 !! row.1 = Some row.2) -> pill_kept d0 d ->
  let '(d', r) := retry_rows e d rows s t in
  pill_kept d0 d' /\ messages d ⊆ messages d' /\
  forall s' t', r = Ok (s', t') -> s' + t' = s + t + Z.of_nat (length rows).
Proof.
  induction rows as [| row rows IH]; intros d s t Hrows Hk; cbn [retry_rows].
  { split_and!; [done.. |]. intros s' t' [= -> ->]. cbn. lia. }
  destruct (retry_one e d row) as [[d1 o] | x] eqn:E1; [| done].
  apply (retry_one_spec d0) in E1 as [Hk1 Hm1]; [| apply Hrows; set_solver | done].
  destruct o.
  - specialize (IH d1 (s + 1) t). destruct (retry_rows e d1 rows (s + 1) t) as [d' r].
    destruct IH as (? & ? & Hc); [set_solver | done |]. split_and!; [done | by etrans |].
    intros s' t' ->%Hc. cbn. lia.
  - specialize (IH d1 s (t + 1)). destruct (retry_rows e d1 rows s (t + 1)) as [d' r].
    destruct IH as (? & ? & Hc); [set_solver | done |]. split_and!; [done | by etrans |].
    intros s' t' ->%Hc. cbn. lia.
Qed.
End retry.

(** [retry-failed] loses nothing.  However it ends, a poison pill recorded
    before is now archived and linked, or still recorded under the same id with
    the same bytes; a run that finishes has counted every row in scope. *)
Lemma retry_keeps_every_pill e d account_id :
  let '(d', r) := retry_failed_messages e d account_id in
  (forall a mb uid f, failed_messages d !! (a, mb, uid) = Some f ->
     archived e d' a mb (f_raw_bytes f) \/
     exists f', failed_messages d' !! (a, mb, uid) = Some f' /\
       f_raw_bytes f' = f_raw_bytes f /\ f_id f' = f_id f) /\
  (forall s t, r = Ok (s, t) -> s + t = Z.of_nat (length (failed_rows d account_id))).
Proof.
  unfold retry_failed_messages.
  pose proof (retry_rows_spec e d (failed_rows d account_id) d 0 0) as G.
  destruct (retry_rows e d (failed_rows d account_id) 0 0) as [d' r].
  destruct G as (Hk & _ & Hc).
  - intros [k f] Hin. unfold failed_rows in Hin. rewrite merge_sort_Permutation in Hin.
    apply list_elem_of_filter in Hin as [_ Hin]. by apply elem_of_map_to_list in Hin.
  - intros a mb uid f Hf. right. eauto.
  - split; [done |]. intros s t Hr. rewrite (Hc s t Hr). lia.
Qed.

(** Allocated UIDs collide with nothing.  A UID the importer allocates is
    held by no label of the mailbox and by no poison pill of the account; a pill
    of an archive account is retried under a UID no label of its mailbox holds,
    so neither meets [UNIQUE (mailbox_id, uid)]; a live account's UID is replayed
    verbatim. *)
Lemma allocated_uids_free d account_id auth_method mb uid i flags :
  (let fresh := next_uid_after (Some (max_reserved_uid d account_id mb)) in
   is_ok (upsert_label d i mb fresh flags) = true /\
   failed_messages d !! (account_id, mb, fresh) = None) /\
  (auth_method = ARCHIVE_AUTH_METHOD ->
     is_ok (upsert_label d i mb (attempt_uid d auth_method mb uid) flags) = true) /\
  (auth_method <> ARCHIVE_AUTH_METHOD -> attempt_uid d auth_method mb uid = uid).
Proof.
  assert (Hfree : forall u, (forall mid l, message_labels d !! (mid, mb) = Some l -> l_uid l < u) ->
    is_ok (upsert_label d i mb u flags) = true).
  { intros u Hu. unfold upsert_label. destruct (find_key _ _) as [[j mb'] |] eqn:E; [| done].
    apply find_key_some in E as (l & Hl & Hk & Hul & _). cbn in Hk. subst mb'. apply Hu in Hl. lia. }
  destruct (allocated_uid_fresh d account_id mb) as [Hlab Hpill]. cbv zeta. split_and!.
  - by apply Hfree.
  - destruct (failed_messages d !! _) eqn:E; [| done]. apply Hpill in E. lia.
  - intros ->. unfold attempt_uid, should_reallocate_uid. rewrite bool_decide_eq_true_2 by done.
    apply Hfree. intros mid l Hl%label_uid_le_max. unfold next_uid_after, py_or.
    destruct (Z.eqb_spec (max_label_uid d mb) 0); lia.
  - intros Hne. unfold attempt_uid, should_reallocate_uid. by rewrite bool_decide_eq_false_2.
Qed.

(** The upsert stores a message once per account and key, even against a
    concurrent writer: whatever that writer commits between the check and the
    INSERT, the dedup indexes still hold, the id returned names a row with the
    message's key, and it is reported inserted exactly when it was.  The only
    failure is an id the sequence hands out twice. *)
Lemma upsert_message_dedup at_ d account_id p internal_date :
  messages_unique (messages d ∪ at_racing at_) ->
  match upsert_message at_ d account_id p internal_date with
  | Ok (d', (i, inserted)) =>
      messages_unique (messages d') /\ messages d ⊆ messages d' /\
      (inserted = true -> messages d !! i = None /\
         messages d' !! i = Some (new_row account_id p internal_date)) /\
      exists r, messages d' !! i = Some r /\
        dedup_match account_id (pm_message_id p) (pm_raw_sha256 p) r
  | Err _ => is_Some ((messages d ∪ at_racing at_) !! at_new_id at_)
  end.
Proof.
  intros Hun. destruct (upsert_message at_ d account_id p internal_date) as [[d' [i ins]] |] eqn:Eu.
  - pose proof (upsert_message_row _ _ _ _ _ _ _ _ Eu) as (? & Hfresh & Hrow).
    split_and!; [by eapply upsert_message_unique | done | | done].
    intros ->. split; [auto |]. unfold upsert_message in Eu.
    destruct (existing_message_id (messages d) _ _ _); [done |].
    destruct (insert_conflicts _ _ _ _); [by destruct (existing_message_id _ _ _ _) |].
    simplify_eq/=. by rewrite lookup_insert_eq.
  - unfold upsert_message in Eu. destruct (existing_message_id (messages d) _ _ _); [done |].
    destruct (insert_conflicts _ _ _ _) eqn:Ec; [| done].
    unfold insert_conflicts in Ec.
    destruct ((messages d ∪ _) !! at_new_id at_); [eauto |].
    by destruct (existing_message_id (messages d ∪ _) _ _ _).
Qed.

(** ** A concrete server *)
Module Example_server.
Definition parse (raw : bytes) : res fault ParsedMessage :=
  Ok (PM None raw None [] None None None [] [] [] None [] None None raw
        (Z.of_nat (length raw)) []).

(** A server with the given numbering, UIDs and bodies; it always lists the
    UIDs it has, and every statement succeeds. *)
Definition server (uv un : Z) (uids : list Z) (body : Z -> bytes) (now : Z) : env := {|
  parse_message := parse;
  write_attachments := fun _ => Ok [];
  sha256 := fun raw => raw;
  select_folder := Ok (Some uv, Some un);
  search_all := Ok uids;
  search_from := fun n => Ok (filter (fun u => n <= u) uids);
  search_one := fun n => Ok (filter (fun u => u = n) uids);
  fetch_error := fun _ => None;
  fetch_data := fun u => Some (Fetched (body u) [] (DateAware 0));
  db_now := now;
  tx_now := fun _ => now;
  wall_now := now;
  on_process := fun u => Attempt (100 + u) ∅ None;
  on_log := fun u => LogAttempt u now None;
  hold_statement_fails := fun _ => false;
  gave_up_statement_fails := fun _ => false;
|}.

Definition inbox (uv un : option Z) : mailbox_row :=
  MailboxDbRow 1 (lit "INBOX") None [] uv un None.
Definition home (uv un : option Z) (holds : gmap (Z * Z) hold_row) : store :=
  Store {[ 1 := AccountRow (lit "home") (lit "password") ]} {[ 1 := inbox uv un ]}
    ∅ ∅ ∅ holds.
Definition inbox_row (d : store) : MailboxRow :=
  match mailboxes d !! 1 with
  | Some m => MkMailboxRow 1 (mb_name m) (mb_uidvalidity m) (mb_uidnext m)
  | None => MkMailboxRow 1 (lit "INBOX") None None
  end.
Definition minute : Z := 60 * 1000000.

(** UID 4 has no body; 3 and 5 do. *)
Definition e345 : env :=
  server 7 6 [3; 4; 5] (fun u => if u =? 4 then [] else [u]) (100 * minute).
Definition d3 : store := home (Some 7) (Some 3) ∅.
End Example_server.
Import Example_server.

Lemma sync_no_silent_loss_witness :
  let d' := (sync_mailbox e345 d3 1 (inbox_row d3) None (30 * minute)).1 in
  mb_uidnext <$> mailboxes d' !! 1 = Some (Some 4) /\ accounted e345 1 1 d' 3.
Proof.
  split; [by vm_compute |].
  destruct (sync_no_silent_loss e345 d3 1 1 (inbox (Some 7) (Some 3)) (Some 7) (Some 6)
    [3; 4; 5] None (30 * minute)) as (m' & Hm' & Hacc);
    [reflexivity | reflexivity | by vm_compute | done |].
  assert (Hw : mb_uidnext <$> mailboxes (sync_mailbox e345 d3 1 (inbox_row d3) None (30 * minute)).1 !! 1
    = Some (Some 4)) by by vm_compute.
  apply (Hacc 3 4); [| constructor | lia | by intros ?].
  change (inbox_row d3) with (MkMailboxRow 1 (mb_name (inbox (Some 7) (Some 3)))
    (mb_uidvalidity (inbox (Some 7) (Some 3))) (mb_uidnext (inbox (Some 7) (Some 3)))) in Hw.
  rewrite Hm' in Hw. cbn in Hw. by injection Hw.
Defined.

Lemma held_uid_is_refetched_witness :
  exists m' w, mailboxes (sync_mailbox e345 d3 1 (inbox_row d3) None (30 * minute)).1 !! 1 = Some m' /\
    mb_uidnext m' = Some w /\ w <= 4.
Proof.
  apply (held_uid_is_refetched e345 d3 1 (inbox_row d3) (inbox (Some 7) (Some 3)) (Some 7) (Some 6)
    [3; 4; 5] None (30 * minute) 4 2);
    [reflexivity | reflexivity | by vm_compute | set_solver | reflexivity | by vm_compute
    | by vm_compute | by intros h Hh; vm_compute in Hh | by vm_compute].
Defined.

Definition listing : list folder := [Folder [] None (lit "INBOX"); Folder [] None (lit "Spam")].

(** UID 5 was given up on and is still not served. *)
Definition d_tomb : store := home (Some 7) (Some 3) {[ (1, 4) := HoldRow 3 0 minute (Some minute) ]}.

(** ** Mail a pass steps over

    Two ways the stored resume point passes mail that was never fetched. *)

(** After a UIDVALIDITY change the running maximum starts at the stale resume
    point.  INBOX was at 5000 under numbering 7; numbering 8 holds UIDs 1 to 3
    when the first pass runs and UID 4 as well when the second does. *)
Definition stale_store : store := home (Some 7) (Some 5000) ∅.
Definition renumbered (uids : list Z) : env :=
  server 8 (Z.of_nat (length uids) + 1) uids (fun u => [u]) minute.
Definition after_first : store :=
  (sync_mailbox (renumbered [1; 2; 3]) stale_store 1 (inbox_row stale_store) None (30 * minute)).1.
Definition after_second : store :=
  (sync_mailbox (renumbered [1; 2; 3; 4]) after_first 1 (inbox_row after_first) None (30 * minute)).1.

Lemma not_archived_if_absent e d a mb raw p :
  parse_message e raw = Ok p ->
  existing_message_id (messages d) a (pm_message_id p) (pm_raw_sha256 p) = None ->
  ~ archived e d a mb raw.
Proof.
  intros Hp Hno (p' & i & r & l & Hp' & Hr & Hk & _).
  assert (p' = p) as -> by congruence.
  exact (existing_none a p _ Hno i r Hr Hk).
Qed.

(** The resynchronisation after a UIDVALIDITY change can lose mail.  The
    first pass archives what is there but leaves the stale resume point 5000;
    the next pass finds no UID at or above it, moves the resume point past
    UID 4, and UID 4 is neither archived nor recorded anywhere. *)
Lemma uidvalidity_change_skips_mail :
  mb_uidnext <$> mailboxes after_first !! 1 = Some (Some 5000) /\
  mb_uidnext <$> mailboxes after_second !! 1 = Some (Some 5) /\
  (sync_mailbox (renumbered [1; 2; 3; 4]) after_first 1 (inbox_row after_first) None (30 * minute)).2
    = Ok 0 /\
  ~ accounted (renumbered [1; 2; 3; 4]) 1 1 after_second 4.
Proof.
  split_and!; [by vm_compute.. |]. intros Hacc.
  destruct Hacc as [_ Ha | f _ Hf _ | h Hb _ _ | Hb _ | c _ Hc | Hb _];
    [| by vm_compute in Hf | by vm_compute in Hb | by vm_compute in Hb | done
    | by vm_compute in Hb].
  refine (not_archived_if_absent (renumbered [1; 2; 3; 4]) after_second 1 1 [4]
    (PM None [4] None [] None None None [] [] [] None [] None None [4] 1 []) _ _ Ha);
    by vm_compute.
Qed.

(** [sync --limit-per-folder 0] takes the branch meant for an empty
    mailbox: it fetches nothing and moves the resume point to the server's
    UIDNEXT, past every waiting message. *)
Lemma zero_limit_skips_mail e d account_id mbx uv un max_hold found :
  select_folder e = Ok (uv, Some un) -> un <> 0 ->
  candidates e (full_sync mbx (py_or uv 0)) mbx = Ok found ->
  sync_mailbox e d account_id mbx (Some 0) max_hold =
    (update_mailbox_progress (forget_old_uids d mbx (py_or uv 0)) (mailbox_id mbx)
       (py_or uv 0) un (Some (wall_now e)), Ok 0).
Proof.
  intros Hsel Hun Hfound. unfold sync_mailbox. rewrite Hsel, Hfound.
  assert (Hcut : cut (Some 0) found = []).
  { unfold cut, slice_to. destruct found as [| u us]; [done |]. done. }
  rewrite Hcut. cbn [py_or]. rewrite (proj2 (Z.eqb_neq un 0)) by done.
  by rewrite (proj2 (Z.eqb_neq un 0)).
Qed.
