(* ===== verification/BlobStore.v ===== *)
(** * The attachment store on disk ([attachments.py], [blob_temps.py])

    Payloads live under the hex of their SHA-256, staged at a writer-private name
    and renamed into place; sweeps collect the staged files that crashed writers
    left.  The fan-out directories are a function of the name, so the tree is a map
    from file names.  Every system call is one step; writers, sweeps and crashes
    interleave freely.  SHA-256 is a parameter, uuid4 tokens are fresh, and a crash
    is that of a process. *)
From S2P Require Import Prelude PyStr Base64 Json MailStore.

Record file := File { f_bytes : bytes; f_mtime : Z }.
(** An [attachment_blobs] row, keyed by the digest. *)
Record blob_row := BlobRow { br_path : pystr; br_mime_type : pystr; br_size_bytes : Z }.
(** An entry of [messages.attachments]. *)
Record attachment_entry := AttachmentEntry { ae_filename : pystr; ae_sha256 : pystr; ae_content_id : option pystr }.

Module Blob_store.

(** ** [blob_temps.py] *)

Definition TEMP_SUFFIX : pystr := lit ".tmp".
Definition temp_name (blob_name : pystr) (pid : Z) (token : pystr) : pystr :=
  blob_name ++ lit "." ++ str_int pid ++ lit "." ++ token ++ TEMP_SUFFIX.
Definition hex_char (c : Z) : bool := is_digit_char c || ((97 <=? c) && (c <=? 102)).
(** [[0-9a-f]{n}] at the start of [s]: what follows it. *)
Definition hex_run (n : nat) (s : pystr) : option pystr :=
  if (length (take n s) =? n)%nat && forallb hex_char (take n s) then Some (drop n s) else None.
(** [_TEMP_NAME_RE]; [$] also matches before a final newline. *)
Definition is_writer_temp (name : pystr) : bool :=
  match hex_run 64 name with
  | Some (46 :: r) =>
      match drop_while is_digit_char r with
      | 46 :: r2 =>
          (length r2 + 1 <? length r)%nat &&
          match hex_run 32 r2 with
          | Some r3 => bool_decide (r3 = TEMP_SUFFIX) || bool_decide (r3 = TEMP_SUFFIX ++ [10])
          | None => false
          end
      | _ => false
      end
  | _ => false
  end.
Definition is_expired (mtime now max_age_s : Z) : bool := max_age_s <? now - mtime.
Record SweepResult := MkSweepResult { sr_walked : Z; sr_scanned : Z; sr_removed : Z; sr_bytes_reclaimed : Z; sr_errors : Z }.

(** ** [attachments.py] *)

Definition unsafe (c : Z) : bool := (c =? 47) || (c =? 92) || ((0 <=? c) && (c <=? 31)) || (c =? 127).
Definition sanitize_filename (name : pystr) : pystr :=
  if bool_decide (strip name = []) then lit "attachment"
  else match lstrip_p (fun c => (c =? 46) || (c =? 95)) ((fun c => if unsafe c then 95 else c) <$> name) with
       | [] => lit "attachment"
       | cleaned => cleaned
       end.

(** [uuid4().hex] *)
Definition token_ok (token : pystr) : bool := (length token =? 32)%nat && forallb hex_char token.

Section store.
Context (sha256 : bytes -> bytes).

(** The last component of [blob_path]; the two directories above it are its prefixes. *)
Definition blob_name (payload : bytes) : pystr := Hex.hex (sha256 payload).
Definition entry_of (a : attachment) : attachment_entry :=
  AttachmentEntry (sanitize_filename (att_filename a)) (blob_name (att_payload a))
    match att_content_id a with Some [] => None | c => c end.
Definition row_of (a : attachment) : bytes * blob_row :=
  (sha256 (att_payload a),
   BlobRow (blob_name (att_payload a)) (att_content_type a) (Z.of_nat (length (att_payload a)))).

(** One call of [write_attachments]: where it is with the first attachment of
    [wr_todo], the rows its transaction has inserted and the entries so far. *)
Inductive phase := Check | Mint | Stage (tmp : pystr) (written : nat) | Insert.
Record writer := Writer {
  wr_pid : Z; wr_todo : list attachment; wr_phase : phase; wr_pending : list (bytes * blob_row);
  wr_entries : list attachment_entry }.
(** A sweep: the files it has still to look at, and the one it is about to unlink
    with the size it found. *)
Record sweeper := Sweeper {
  sw_now : Z; sw_max_age_s : Z; sw_dry_run : bool; sw_todo : list pystr; sw_unlink : option (pystr * Z); sw_result : SweepResult }.
Record store := Store {
  st_files : gmap pystr file; st_rows : gmap bytes blob_row; st_now : Z;
  st_used : gset pystr;                              (* tokens uuid4 has given out *)
  st_writers : gmap nat writer; st_sweepers : gmap nat sweeper }.

Definition set_files f s := Store f (st_rows s) (st_now s) (st_used s) (st_writers s) (st_sweepers s).
Definition set_writer n w s := Store (st_files s) (st_rows s) (st_now s) (st_used s) (<[n := w]> (st_writers s)) (st_sweepers s).
Definition end_writer n s := Store (st_files s) (st_rows s) (st_now s) (st_used s) (delete n (st_writers s)) (st_sweepers s).
Definition set_sweeper n w s := Store (st_files s) (st_rows s) (st_now s) (st_used s) (st_writers s) (<[n := w]> (st_sweepers s)).
Definition use_token k s := Store (st_files s) (st_rows s) (st_now s) ({[k]} ∪ st_used s) (st_writers s) (st_sweepers s).
Definition at_phase p w := Writer (wr_pid w) (wr_todo w) p (wr_pending w) (wr_entries w).
(** [INSERT ... ON CONFLICT (sha256) DO NOTHING] of the rows of a transaction. *)
Definition insert_rows (rows : gmap bytes blob_row) (l : list (bytes * blob_row)) : gmap bytes blob_row :=
  foldl (fun m r => match m !! r.1 with Some _ => m | None => <[r.1 := r.2]> m end) rows l.

(** The system calls of a writer on its attachment [a]. *)
Inductive writes (n : nat) (s : store) (w : writer) (a : attachment) : store -> Prop :=
| Exists : wr_phase w = Check -> is_Some (st_files s !! blob_name (att_payload a)) ->
    writes n s w a (set_writer n (at_phase Insert w) s)
| Missing : wr_phase w = Check -> st_files s !! blob_name (att_payload a) = None ->
    writes n s w a (set_writer n (at_phase Mint w) s)
| Open token : wr_phase w = Mint -> token ∉ st_used s -> token_ok token = true ->
    let tmp := temp_name (blob_name (att_payload a)) (wr_pid w) token in
    writes n s w a (set_writer n (at_phase (Stage tmp 0) w) (use_token token (set_files (<[tmp := File [] (st_now s)]> (st_files s)) s)))
| Write tmp k k' : wr_phase w = Stage tmp k -> (k <= k')%nat ->
    writes n s w a (set_writer n (at_phase (Stage tmp k') w)
      (set_files (alter (fun _ => File (take k' (att_payload a)) (st_now s)) tmp (st_files s)) s))
| Replace tmp k f : wr_phase w = Stage tmp k -> (length (att_payload a) <= k)%nat -> st_files s !! tmp = Some f ->
    writes n s w a (set_writer n (at_phase Insert w)
      (set_files (<[blob_name (att_payload a) := f]> (delete tmp (st_files s))) s))
| Fail tmp k : wr_phase w = Stage tmp k ->                    (* any error: unlink and raise *)
    writes n s w a (end_writer n (set_files (delete tmp (st_files s)) s))
| Inserted : wr_phase w = Insert ->
    writes n s w a (set_writer n (Writer (wr_pid w) (tail (wr_todo w)) Check (wr_pending w ++ [row_of a])
      (wr_entries w ++ [entry_of a])) s).

(** The system calls of a sweep. *)
Definition count (scanned removed bytes_ errors : Z) (r : SweepResult) : SweepResult :=
  MkSweepResult (sr_walked r) (sr_scanned r + scanned) (sr_removed r + removed) (sr_bytes_reclaimed r + bytes_) (sr_errors r + errors).
Definition stat_file (files : gmap pystr file) (io_ok : bool) (name : pystr) (todo : list pystr) (w : sweeper) : sweeper :=
  let next r := Sweeper (sw_now w) (sw_max_age_s w) (sw_dry_run w) todo None r in
  if negb (is_writer_temp name) then next (sw_result w)
  else match files !! name with
       | None => next (count 1 0 0 0 (sw_result w))
       | Some f =>
           if negb io_ok then next (count 1 0 0 1 (sw_result w))
           else if negb (is_expired (f_mtime f) (sw_now w) (sw_max_age_s w)) then next (count 1 0 0 0 (sw_result w))
           else if sw_dry_run w then next (count 1 1 (Z.of_nat (length (f_bytes f))) 0 (sw_result w))
           else Sweeper (sw_now w) (sw_max_age_s w) (sw_dry_run w) todo
                  (Some (name, Z.of_nat (length (f_bytes f)))) (count 1 0 0 0 (sw_result w))
       end.
Definition unlink_file (files : gmap pystr file) (io_ok : bool) (name : pystr) (size : Z) (w : sweeper)
    : gmap pystr file * sweeper :=
  let next r := Sweeper (sw_now w) (sw_max_age_s w) (sw_dry_run w) (sw_todo w) None r in
  match files !! name with
  | None => (files, next (count 0 1 0 0 (sw_result w)))
  | Some _ => if io_ok then (delete name files, next (count 0 1 size 0 (sw_result w)))
              else (files, next (count 0 0 0 1 (sw_result w)))
  end.

Inductive step (s : store) : store -> Prop :=
| Call n pid atts : 0 <= pid -> st_writers s !! n = None -> step s (set_writer n (Writer pid atts Check [] []) s)
| Writes n w a s' : st_writers s !! n = Some w -> head (wr_todo w) = Some a -> writes n s w a s' -> step s s'
| Commit n w : st_writers s !! n = Some w -> wr_todo w = [] ->
    step s (end_writer n (Store (st_files s) (insert_rows (st_rows s) (wr_pending w)) (st_now s) (st_used s) (st_writers s) (st_sweepers s)))
| Killed n : step s (end_writer n s)                          (* crash or rollback *)
| Tick now : st_now s <= now -> step s (Store (st_files s) (st_rows s) now (st_used s) (st_writers s) (st_sweepers s))
| Sweep n max_age_s dry_run names : st_sweepers s !! n = None ->
    step s (set_sweeper n (Sweeper (st_now s) max_age_s dry_run names None
      (MkSweepResult (Z.of_nat (length names)) 0 0 0 0)) s)
| Stat n w io_ok name todo : st_sweepers s !! n = Some w -> sw_unlink w = None -> sw_todo w = name :: todo ->
    step s (set_sweeper n (stat_file (st_files s) io_ok name todo w) s)
| Unlink n w io_ok name size : st_sweepers s !! n = Some w -> sw_unlink w = Some (name, size) ->
    step s (set_sweeper n (unlink_file (st_files s) io_ok name size w).2
      (set_files (unlink_file (st_files s) io_ok name size w).1 s)).
End store.
End Blob_store.
