(* ===== verification/BlobStoreFacts.v ===== *)
(** * What the attachment store keeps *)
From S2P Require Import Prelude PyStr Base64 Json MailStore BlobStore.
Import Blob_store.

(** ** Names *)

Lemma hex_run_app n s r : length s = n -> forallb hex_char s = true -> hex_run n (s ++ r) = Some r.
Proof. intros Hl Hh. unfold hex_run. by rewrite take_app_length', drop_app_length', Hl, Nat.eqb_refl, Hh. Qed.
Lemma hex_run_spec n s r : hex_run n s = Some r -> exists h, s = h ++ r /\ length h = n /\ forallb hex_char h = true.
Proof.
  unfold hex_run. destruct (_ && _) eqn:E; [| done]. intros [= <-]. apply andb_true_iff in E as [Hl%Nat.eqb_eq Hh].
  exists (take n s). by rewrite take_drop.
Qed.
(** The name of a stored blob. *)
Definition canonical (name : pystr) : Prop := hex_run 64 name = Some [].
Lemma canonical_not_temp name : canonical name -> is_writer_temp name = false.
Proof. unfold is_writer_temp, canonical. by intros ->. Qed.
Lemma drop_digits s r : Forall (fun c => is_digit_char c = true) s -> drop_while is_digit_char (s ++ 46 :: r) = 46 :: r.
Proof. induction 1 as [| c s Hc _ IH]; [done |]. cbn. by rewrite Hc. Qed.
Lemma temp_is_writer_temp name pid token : canonical name -> 0 <= pid -> token_ok token = true ->
  is_writer_temp (temp_name name pid token) = true.
Proof.
  intros (h & -> & Hl & Hh)%hex_run_spec Hp [Ht%Nat.eqb_eq Hx]%andb_true_iff. rewrite app_nil_r.
  unfold is_writer_temp, temp_name. rewrite hex_run_app by done. change (lit ".") with [46]. cbn [app].
  rewrite drop_digits by (apply Forall_forall; intros c ?%str_int_digit; [unfold is_digit_char; zb | done]).
  rewrite hex_run_app by done. rewrite bool_decide_eq_true_2 by done.
  rewrite andb_true_r. apply Nat.ltb_lt. rewrite !length_app. cbn [length app]. rewrite !length_app.
  destruct (str_int_spec pid Hp) as (Hd & _).
  destruct (str_int pid); [done | cbn [length]; lia].
Qed.
Lemma temp_name_token b p t b' p' t' : token_ok t = true -> token_ok t' = true -> temp_name b p t = temp_name b' p' t' -> t = t'.
Proof.
  unfold temp_name. intros [Ht%Nat.eqb_eq _]%andb_true_iff [Ht'%Nat.eqb_eq _]%andb_true_iff Heq.
  rewrite !app_assoc in Heq. apply app_inv_tail in Heq. apply app_inj_2 in Heq as [_ ?]; [done | congruence].
Qed.
Lemma temp_not_canonical b p t : ~ canonical (temp_name b p t).
Proof.
  intros (h & Heq & _ & Hh)%hex_run_spec. rewrite app_nil_r in Heq. rewrite <- Heq in Hh. unfold temp_name in Hh.
  rewrite forallb_app in Hh. by apply andb_true_iff in Hh as [_ ?].
Qed.

(** A cleaned filename is never empty, has no separator or control character and
    does not start with a dot. *)
Lemma sanitize_filename_safe name : let s := sanitize_filename name in
  s <> [] /\ Forall (fun c => unsafe c = false) s /\ head s <> Some 46.
Proof.
  assert (Hlit : lit "attachment" <> [] /\ Forall (fun c => unsafe c = false) (lit "attachment") /\ head (lit "attachment") <> Some 46).
  { split_and!; [done | by repeat constructor | done]. }
  cbn zeta. unfold sanitize_filename. case_bool_decide; [done |].
  assert (Hall : Forall (fun c => unsafe c = false) ((fun c => if unsafe c then 95 else c) <$> name)).
  { apply Forall_fmap, Forall_true. intros c. cbn. by destruct (unsafe c) eqn:E. }
  revert Hall. generalize ((fun c => if unsafe c then 95 else c) <$> name) as l. clear name H. intros l Hl.
  unfold lstrip_p. induction l as [| c l IH]; [done |]. cbn [drop_while]. apply Forall_cons in Hl as [Hc Hl].
  destruct ((c =? 46) || (c =? 95)) eqn:E; [by apply IH |]. split_and!; [done | by constructor |].
  apply orb_false_iff in E as [E%Z.eqb_neq _]. cbn. congruence.
Qed.

(** ** The invariant *)
Section store.
Context (sha256 : bytes -> bytes) (sha256_digest : forall p, length (sha256 p) = 32%nat /\ Forall is_byte (sha256 p)).
Notation blob_name := (blob_name sha256).
Notation step := (step sha256).
Implicit Types (s : store) (w : writer).

Lemma blob_name_canonical p : canonical (blob_name p).
Proof.
  unfold canonical, Blob_store.blob_name. destruct (sha256_digest p) as [Hl Hb].
  rewrite <- (app_nil_r (Hex.hex (sha256 p))). apply hex_run_app; [rewrite Hex.hex_length; lia |].
  generalize dependent (sha256 p). intros bs _ Hb. induction Hb as [| b bs Hb _ IH]; [done |].
  cbn [Hex.hex flat_map app forallb]. change (flat_map _ bs) with (Hex.hex bs). rewrite IH.
  assert (Hd : forall n, 0 <= n < 16 -> hex_char (Hex.digit n) = true).
  { intros n Hn. unfold hex_char, Hex.digit, is_digit_char. case_match; zb. }
  unfold is_byte in Hb. rewrite !Hd; [done | |]; Z.div_mod_to_equations; lia.
Qed.

(** A row is backed by the file of its digest. *)
Definition backed (files : gmap pystr file) (r : bytes * blob_row) : Prop :=
  br_path r.2 = Hex.hex r.1 /\ is_Some (files !! Hex.hex r.1) /\
  exists p, sha256 p = r.1 /\ br_size_bytes r.2 = Z.of_nat (length p).
(** What a writer relies on at its point in the code. *)
Definition writer_ok s w : Prop :=
  0 <= wr_pid w /\ Forall (backed (st_files s)) (wr_pending w) /\
  forall a, head (wr_todo w) = Some a ->
    match wr_phase w with
    | Check | Mint => True
    | Stage tmp k => exists token, tmp = temp_name (blob_name (att_payload a)) (wr_pid w) token /\
        token ∈ st_used s /\ token_ok token = true /\
        forall f, st_files s !! tmp = Some f -> f_bytes f = take k (att_payload a)
    | Insert => is_Some (st_files s !! blob_name (att_payload a))
    end.
Definition stages w (tmp : pystr) : Prop := exists k, wr_phase w = Stage tmp k /\ wr_todo w <> [].
Record store_ok s : Prop := {
  bo_content : forall name f, canonical name -> st_files s !! name = Some f -> blob_name (f_bytes f) = name;
  bo_rows : forall sha row, st_rows s !! sha = Some row -> backed (st_files s) (sha, row);
  bo_fresh : forall b p t, t ∉ st_used s -> token_ok t = true -> st_files s !! temp_name b p t = None;
  bo_writers : forall n w, st_writers s !! n = Some w -> writer_ok s w;
  bo_private : forall n m w w' tmp, st_writers s !! n = Some w -> st_writers s !! m = Some w' ->
    stages w tmp -> stages w' tmp -> n = m;
  bo_unlinks : forall n v name size, st_sweepers s !! n = Some v -> sw_unlink v = Some (name, size) -> is_writer_temp name = true;
}.

(** Changing the files so that stored blobs stay, and staged files are untouched or
    gone. *)
Definition keeps (files files' : gmap pystr file) : Prop :=
  forall name, canonical name -> is_Some (files !! name) -> is_Some (files' !! name).
Lemma backed_keeps files files' r : keeps files files' -> backed files r -> backed files' r.
Proof.
  intros Hk (H1 & H2 & p & Hp & H3). split_and!; [done | | by exists p]. apply Hk; [| done]. rewrite <- Hp. apply blob_name_canonical.
Qed.
Lemma writer_keeps s s' w : keeps (st_files s) (st_files s') -> st_used s ⊆ st_used s' ->
  (forall tmp f, stages w tmp -> st_files s' !! tmp = Some f -> st_files s !! tmp = Some f) ->
  writer_ok s w -> writer_ok s' w.
Proof.
  intros Hk Hu Hst (Hp & Hb & Hw). split_and!; [done | eapply Forall_impl; [exact Hb |]; intros r; by apply backed_keeps |].
  intros a Ha. specialize (Hw a Ha). destruct (wr_phase w) as [| | tmp k |] eqn:Ep; [done | done | | apply Hk; [apply blob_name_canonical | done]].
  destruct Hw as (token & ? & ? & ? & Hf). exists token. split_and!; [done | set_solver | done |]. intros f Hs. apply Hf, Hst; [| done].
  exists k. split; [done |]. by destruct (wr_todo w).
Qed.

(** Only the sweeps, the clock or the committed rows change. *)
Lemma idle_ok s rows now sweepers : store_ok s -> (forall sha row, rows !! sha = Some row -> backed (st_files s) (sha, row)) ->
  (forall n v name size, sweepers !! n = Some v -> sw_unlink v = Some (name, size) -> is_writer_temp name = true) ->
  store_ok (Store (st_files s) rows now (st_used s) (st_writers s) sweepers).
Proof.
  intros [] Hr Hsw. by split.
Qed.
Lemma end_writer_ok n s : store_ok s -> store_ok (end_writer n s).
Proof.
  intros []. split; cbn; try done.
  - intros m w [_ Hm]%lookup_delete_Some. eapply writer_keeps; [| | | by eapply bo_writers0]; cbn; [by intros ? | done | done].
  - intros i j w w' tmp [_ Hi]%lookup_delete_Some [_ Hj]%lookup_delete_Some. by eapply bo_private0.
Qed.
(** A staged file goes away. *)
Lemma delete_temp_ok s tmp : store_ok s -> is_writer_temp tmp = true -> store_ok (set_files (delete tmp (st_files s)) s).
Proof.
  intros Hs Ht.
  assert (Hk : keeps (st_files s) (delete tmp (st_files s))).
  { intros name Hc ?. rewrite lookup_delete_ne; [done |]. intros <-. apply canonical_not_temp in Hc. congruence. }
  destruct Hs. split; cbn; try done.
  - intros name f Hc [_ Hf]%lookup_delete_Some. by apply bo_content0.
  - intros sha row Hr. eapply backed_keeps; [done |]. by apply bo_rows0.
  - intros b p t Htk Hok. rewrite lookup_delete_None. right. by apply bo_fresh0.
  - intros n w Hn. eapply writer_keeps; [exact Hk | done | | by eapply bo_writers0].
    intros tmp' f _. cbn. by intros [_ ?]%lookup_delete_Some.
Qed.
(** A writer moves on. *)
Lemma set_writer_ok n w s : store_ok s -> writer_ok s w ->
  (forall tmp m w', stages w tmp -> m <> n -> st_writers s !! m = Some w' -> ~ stages w' tmp) -> store_ok (set_writer n w s).
Proof.
  intros [] Hw Hp. split; cbn; try done.
  - intros m w'. destruct (decide (n = m)) as [-> | Hne].
    + rewrite lookup_insert_eq. intros [= <-]. eapply writer_keeps; [| | | exact Hw]; cbn; [by intros ? | done | done].
    + rewrite lookup_insert_ne by done. intros Hm. eapply writer_keeps; [| | | by eapply bo_writers0]; cbn; [by intros ? | done | done].
  - intros i j w1 w2 tmp. destruct (decide (n = i)) as [<- | Hi], (decide (n = j)) as [<- | Hj];
      rewrite ?lookup_insert_eq, ?lookup_insert_ne by done; try done.
    + intros [= <-] H2 Hs1 Hs2. by destruct (Hp tmp j w2).
    + intros H1 [= <-] Hs1 Hs2. by destruct (Hp tmp i w1).
    + by apply bo_private0.
Qed.

Lemma not_staging p w : (forall tmp k, p <> Stage tmp k) -> forall tmp, ~ stages (at_phase p w) tmp.
Proof. intros Hp tmp (k & Hk & _). by eapply Hp. Qed.
Lemma staged_is_temp s w tmp k a : writer_ok s w -> wr_phase w = Stage tmp k -> head (wr_todo w) = Some a ->
  is_writer_temp tmp = true.
Proof.
  intros (Hp & _ & Hw) Hk Ha. specialize (Hw a Ha). rewrite Hk in Hw. destruct Hw as (token & -> & _ & Ht & _).
  by apply temp_is_writer_temp; [apply blob_name_canonical | |].
Qed.

(** Writing a file at a staged name no other writer stages. *)
Lemma stage_ok s n w a tmp k token : store_ok s -> 0 <= wr_pid w -> Forall (backed (st_files s)) (wr_pending w) ->
  head (wr_todo w) = Some a -> tmp = temp_name (blob_name (att_payload a)) (wr_pid w) token ->
  token_ok token = true -> token ∈ st_used s ->
  (forall m w', m <> n -> st_writers s !! m = Some w' -> ~ stages w' tmp) ->
  forall files', (forall name, name <> tmp -> files' !! name = st_files s !! name) ->
  (forall f, files' !! tmp = Some f -> f_bytes f = take k (att_payload a)) ->
  store_ok (set_writer n (at_phase (Stage tmp k) w) (set_files files' s)).
Proof.
  intros Hs Hp Hpend Ha Htmp Htok Hu Hother files' Hsame Hf.
  assert (Htc : forall name, canonical name -> name <> tmp).
  { intros name Hc ->. revert Hc. rewrite Htmp. apply temp_not_canonical. }
  assert (Hk : keeps (st_files s) files') by (intros name Hc ?; rewrite Hsame; auto).
  pose proof Hs as []. split; cbn; try done.
  - intros name f Hc. rewrite Hsame by auto. by apply bo_content0.
  - intros sha row Hr. eapply backed_keeps; [done |]. by apply bo_rows0.
  - intros b p t Ht Hok. rewrite Hsame; [by apply bo_fresh0 |]. rewrite Htmp. intros Heq%temp_name_token; [| done..].
    congruence.
  - intros m w'. destruct (decide (n = m)) as [<- | Hne].
    + rewrite lookup_insert_eq. intros [= <-]. split_and!; [done | eapply Forall_impl; [exact Hpend |]; intros r; by apply backed_keeps |].
      cbn. intros a' Ha'. rewrite Ha in Ha'. injection Ha' as <-. by exists token.
    + rewrite lookup_insert_ne by done. intros Hm. eapply writer_keeps; [exact Hk | done | | by eapply bo_writers0].
      cbn. intros tmp' f Hst. rewrite Hsame; [done |]. intros ->. by eapply (Hother m).
  - intros i j w1 w2 tmp'. destruct (decide (n = i)) as [<- | Hi], (decide (n = j)) as [<- | Hj];
      rewrite ?lookup_insert_eq, ?lookup_insert_ne by done; try done.
    + intros [= <-] H2 (k1 & [= -> ->] & _) Hs2. by destruct (Hother j w2).
    + intros H1 [= <-] Hs1 (k1 & [= -> ->] & _). by destruct (Hother i w1).
    + by apply bo_private0.
Qed.

Lemma use_token_ok k s : store_ok s -> store_ok (use_token k s).
Proof.
  intros []. split; cbn; try done.
  - intros b p t Ht. apply bo_fresh0. set_solver.
  - intros n w Hn. eapply writer_keeps; [| | | by eapply bo_writers0]; cbn; [by intros ? | set_solver | done].
Qed.

(** The rename puts a complete payload under its digest. *)
Lemma replace_ok s n w a tmp k f : store_ok s -> st_writers s !! n = Some w -> head (wr_todo w) = Some a ->
  wr_phase w = Stage tmp k -> (length (att_payload a) <= k)%nat -> st_files s !! tmp = Some f ->
  store_ok (set_writer n (at_phase Insert w) (set_files (<[blob_name (att_payload a) := f]> (delete tmp (st_files s))) s)).
Proof.
  intros Hs Hn Ha Hp Hk Hf. pose proof (bo_writers s Hs n w Hn) as Hw.
  pose proof (staged_is_temp s w tmp k a Hw Hp Ha) as Ht. destruct Hw as (Hpid & Hpend & Hw). specialize (Hw a Ha).
  rewrite Hp in Hw. destruct Hw as (token & Htmp & _ & Htok & Hb). apply Hb in Hf. rewrite take_ge in Hf by done.
  set (files' := <[_ := f]> _). set (b := blob_name (att_payload a)) in *.
  assert (Hcb : canonical b) by apply blob_name_canonical.
  assert (Hlook : forall name, files' !! name = if decide (name = b) then Some f else delete tmp (st_files s) !! name).
  { intros name. unfold files'. case_decide; subst; [by rewrite lookup_insert_eq | by rewrite lookup_insert_ne]. }
  assert (Hkeep : keeps (st_files s) files').
  { intros name Hc ?. rewrite Hlook. case_decide; [done |]. rewrite lookup_delete_ne; [done |]. intros <-.
    apply canonical_not_temp in Hc. congruence. }
  assert (Hst : forall tmp' f', is_writer_temp tmp' = true -> files' !! tmp' = Some f' -> st_files s !! tmp' = Some f').
  { intros tmp' f' Ht'. rewrite Hlook. case_decide as Hd; [subst; apply canonical_not_temp in Hcb; congruence |].
    by intros [_ ?]%lookup_delete_Some. }
  pose proof Hs as []. split; cbn; fold files'; try done.
  - intros name g Hc. rewrite Hlook. case_decide as Hd; [subst; intros [= <-]; unfold b; by rewrite Hf |].
    intros [_ ?]%lookup_delete_Some. by apply bo_content0.
  - intros sha row Hr. eapply backed_keeps; [done |]. by apply bo_rows0.
  - intros b' p t Hu Hok. destruct (files' !! temp_name b' p t) as [g |] eqn:E; [| done]. rewrite Hlook in E.
    case_decide as Hd.
    + by destruct (temp_not_canonical b' p t); rewrite Hd.
    + apply lookup_delete_Some in E as [_ E]. by rewrite bo_fresh0 in E.
  - intros m w'. destruct (decide (n = m)) as [<- | Hne].
    + rewrite lookup_insert_eq. intros [= <-]. split_and!; [done | eapply Forall_impl; [exact Hpend |]; intros r; by apply backed_keeps |].
      cbn. intros a' Ha'. rewrite Ha in Ha'. injection Ha' as <-. rewrite Hlook. by rewrite decide_True.
    + rewrite lookup_insert_ne by done. intros Hm. eapply writer_keeps; [exact Hkeep | done | | by eapply bo_writers0].
      cbn. intros tmp' f' (k' & Hk' & Hne'). apply Hst. destruct (head (wr_todo w')) as [a' |] eqn:Ea'; [| by destruct (wr_todo w')].
      by eapply staged_is_temp; [eapply bo_writers0 | |].
  - intros i j w1 w2 tmp'. destruct (decide (n = i)) as [<- | Hi], (decide (n = j)) as [<- | Hj];
      rewrite ?lookup_insert_eq, ?lookup_insert_ne by done; try done.
    + by intros [= <-] _ (k1 & [=] & _).
    + by intros _ [= <-] _ (k1 & [=] & _).
    + by apply bo_private0.
Qed.

Lemma writes_ok s n w a s' : store_ok s -> st_writers s !! n = Some w -> head (wr_todo w) = Some a ->
  writes sha256 n s w a s' -> store_ok s'.
Proof.
  intros Hs Hn Ha Hst. pose proof (bo_writers s Hs n w Hn) as Hw. pose proof Hw as (Hpid & Hpend & Hhere). specialize (Hhere a Ha).
  assert (Hmine : forall tmp k m w', wr_phase w = Stage tmp k -> m <> n -> st_writers s !! m = Some w' -> ~ stages w' tmp).
  { intros tmp k m w' Hk Hne Hm Hst'. apply Hne. eapply (bo_private s Hs); [exact Hm | exact Hn | exact Hst' |].
    exists k. split; [done |]. by destruct (wr_todo w). }
  destruct Hst as [Hp Hex | Hp Hno | token Hp Hu Hok tmp | tmp k k' Hp Hle | tmp k f Hp Hle Hf | tmp k Hp | Hp].
  - apply set_writer_ok; [done | | intros tmp m w' Hst; by apply not_staging in Hst].
    split_and!; [done | done |]. cbn. intros a' Ha'. rewrite Ha in Ha'. by injection Ha' as <-.
  - apply set_writer_ok; [done | | intros tmp m w' Hst; by apply not_staging in Hst]. by split_and!.
  - apply (stage_ok (use_token token s) n w a tmp 0 token); try done; [by apply use_token_ok | cbn; set_solver | | |].
    + intros m w' Hne Hm (k & Hk & Hne'). pose proof (bo_writers s Hs m w' Hm) as (_ & _ & Hw').
      destruct (head (wr_todo w')) as [a' |] eqn:Ea'; [| by destruct (wr_todo w')]. specialize (Hw' a' eq_refl). rewrite Hk in Hw'.
      destruct Hw' as (t' & Htmp & Hu' & Hok' & _). apply temp_name_token in Htmp; [| done..]. by subst.
    + intros name Hne. cbn. by rewrite lookup_insert_ne.
    + intros f. cbn. rewrite lookup_insert_eq. by intros [= <-].
  - rewrite Hp in Hhere. destruct Hhere as (token & Htmp & Hu & Hok & Hf).
    eapply (stage_ok s n w a tmp k'); try done; [by intros m w'; apply (Hmine tmp k) | |].
    + intros name Hne. by rewrite lookup_alter_ne.
    + intros f. rewrite lookup_alter_eq. destruct (st_files s !! tmp); [| done]. by intros [= <-].
  - by eapply replace_ok.
  - apply end_writer_ok, delete_temp_ok; [done |]. by eapply staged_is_temp.
  - rewrite Hp in Hhere. apply set_writer_ok; [done | | intros tmp m w' (k & Hk & _); by cbn in Hk].
    split_and!; [done | | by intros a' _]. apply Forall_app. split; [done |]. apply Forall_singleton.
    split_and!; [done | exact Hhere | by exists (att_payload a)].
Qed.

Lemma insert_rows_backed s rows l : (forall sha row, rows !! sha = Some row -> backed (st_files s) (sha, row)) ->
  Forall (backed (st_files s)) l -> forall sha row, insert_rows rows l !! sha = Some row -> backed (st_files s) (sha, row).
Proof.
  intros Hr Hl. revert rows Hr. unfold insert_rows. induction Hl as [| [sha0 row0] l Hb _ IH]; intros rows Hr; cbn [foldl]; [done |].
  apply IH. cbn. destruct (rows !! sha0) eqn:E; [done |]. intros sha row [[<- <-] | [_ ?]]%lookup_insert_Some; [done | by apply Hr].
Qed.

Lemma stat_unlinks files io_ok name todo v name' size : sw_unlink (stat_file files io_ok name todo v) = Some (name', size) ->
  is_writer_temp name' = true.
Proof.
  unfold stat_file. destruct (is_writer_temp name) eqn:Et; cbn [negb]; [| done]. repeat case_match; try done. cbn. congruence.
Qed.
Lemma blobs_step_ok s s' : store_ok s -> step s s' -> store_ok s'.
Proof.
  intros Hs Hst. pose proof Hs as Hs'. destruct Hs'.
  destruct Hst as [n pid atts Hpid Hn | n w a s' Hn Ha Hw | n w Hn Ht | n | now Hle | n age dry names Hn
    | n w io name todo Hn Hu Ht | n w io name size Hn Hu].
  - apply set_writer_ok; [done | by split_and! |]. intros tmp m w' (k & Hk & _). by cbn in Hk.
  - by eapply writes_ok.
  - apply end_writer_ok, idle_ok; [done | | done]. apply insert_rows_backed; [done |]. by eapply bo_writers0.
  - by apply end_writer_ok.
  - by apply idle_ok.
  - apply idle_ok; [done | done |]. by intros m v name size [[_ <-] | [_ ?]]%lookup_insert_Some; [| eapply bo_unlinks0].
  - apply idle_ok; [done | done |]. intros m v name' size [[_ <-] | [_ ?]]%lookup_insert_Some; [by apply stat_unlinks | by eapply bo_unlinks0].
  - pose proof (bo_unlinks0 n w name size Hn Hu) as Htemp.
    assert (Hsw : forall f, sw_unlink (unlink_file f io name size w).2 = None) by (intros f; unfold unlink_file; by repeat case_match).
    apply (idle_ok (set_files (unlink_file (st_files s) io name size w).1 s)).
    + unfold unlink_file. destruct (st_files s !! name); [destruct io |]; cbn [fst]; [by apply delete_temp_ok | by destruct s..].
    + unfold unlink_file. destruct (st_files s !! name); [destruct io |]; cbn [fst]; try done.
      by apply (bo_rows _ (delete_temp_ok s name Hs Htemp)).
    + intros m v name' size' [[_ <-] | [_ ?]]%lookup_insert_Some; [by rewrite Hsw | by eapply bo_unlinks0].
Qed.

Lemma step_keeps s s' name : store_ok s -> step s s' -> is_writer_temp name = false ->
  is_Some (st_files s !! name) -> is_Some (st_files s' !! name).
Proof.
  intros Hs Hst Ht Hi.
  assert (Hdel : forall tmp, is_writer_temp tmp = true -> is_Some (delete tmp (st_files s) !! name)).
  { intros tmp ?. rewrite lookup_delete_ne; [done |]. congruence. }
  destruct Hst as [| n w a s' Hn Ha Hw | | | | | | n w io nm size Hn Hu]; try done.
  - pose proof (bo_writers s Hs n w Hn) as Hok.
    destruct Hw as [| | token Hp Hu Htk tmp | tmp k k' Hp Hle | tmp k f Hp Hle Hf | tmp k Hp |]; try done; cbn.
    + destruct (decide (tmp = name)) as [-> |]; [by rewrite lookup_insert_eq | by rewrite lookup_insert_ne].
    + destruct (decide (tmp = name)) as [-> |]; [rewrite lookup_alter_eq, fmap_is_Some | rewrite lookup_alter_ne]; done.
    + destruct (decide (blob_name (att_payload a) = name)) as [-> |]; [by rewrite lookup_insert_eq | rewrite lookup_insert_ne by done].
      apply Hdel. by eapply staged_is_temp.
    + apply Hdel. by eapply staged_is_temp.
  - cbn. unfold unlink_file. destruct (st_files s !! nm); [destruct io |]; cbn [fst]; [| done..].
    apply Hdel. by eapply (bo_unlinks s Hs).
Qed.

(** ** The properties *)

(** Where a history starts: files under their digest, rows with their file, no
    writer or sweep at work, and tokens not given out are in no file's name. *)
Definition initial s : Prop :=
  st_writers s = ∅ /\ st_sweepers s = ∅ /\
  (forall name f, canonical name -> st_files s !! name = Some f -> blob_name (f_bytes f) = name) /\
  (forall sha row, st_rows s !! sha = Some row -> backed (st_files s) (sha, row)) /\
  (forall b p t, t ∉ st_used s -> token_ok t = true -> st_files s !! temp_name b p t = None).
Lemma blobs_initial_ok s : initial s -> store_ok s.
Proof. intros (Hw & Hsw & Hc & Hr & Hf). split; rewrite ?Hw, ?Hsw; try done; intros *; by rewrite ?lookup_empty. Qed.
Lemma steps_ok s s' : store_ok s -> rtc step s s' -> store_ok s'.
Proof. intros Hs Hst. induction Hst as [| s1 s2 s3 H12 _ IH]; [done |]. apply IH. by eapply blobs_step_ok. Qed.

(** C26: However writers of the same payloads, sweeps and crashes interleave: a file
    under a blob's name holds bytes with that digest, every committed row has its
    file and size, and what is stored stays, as does every file that does not have a
    writer's temp name.  Two writers never share a staged file. *)
Theorem blobs_are_content_addressed s0 s s' : initial s0 -> rtc step s0 s -> rtc step s s' ->
  (forall name f, canonical name -> st_files s !! name = Some f -> blob_name (f_bytes f) = name) /\
  (forall sha row, st_rows s !! sha = Some row -> exists f p, st_files s !! Hex.hex sha = Some f /\
     blob_name (f_bytes f) = Hex.hex sha /\ br_path row = Hex.hex sha /\ sha256 p = sha /\ br_size_bytes row = Z.of_nat (length p)) /\
  (forall name, is_writer_temp name = false -> is_Some (st_files s !! name) -> is_Some (st_files s' !! name)) /\
  (forall n m w w' tmp, st_writers s !! n = Some w -> st_writers s !! m = Some w' -> stages w tmp -> stages w' tmp -> n = m).
Proof.
  intros H0 H1 H2. assert (Hs : store_ok s) by (eapply steps_ok; [by apply blobs_initial_ok | done]). split_and!.
  - apply (bo_content s Hs).
  - intros sha row (Hp & [f Hf] & p & Hsha & Hsz)%(bo_rows s Hs). cbn [fst snd] in *. exists f, p. split_and!; try done.
    apply (bo_content s Hs); [| done]. rewrite <- Hsha. apply blob_name_canonical.
  - intros name Ht. clear H0 H1. induction H2 as [| s1 s2 s3 H12 _ IH]; [done |]. intros Hi.
    apply IH; [by eapply blobs_step_ok |]. by eapply step_keeps.
  - apply (bo_private s Hs).
Qed.
End store.

(** ** One payload stored *)
Module Example_blobs.
(** A stand-in for SHA-256 that tells short payloads apart. *)
Definition sha (p : bytes) : bytes := map (fun i => nth i p 7 mod 256) (seq 0 32).
Lemma sha_digest p : length (sha p) = 32%nat /\ Forall is_byte (sha p).
Proof.
  split; [by unfold sha; rewrite length_map, length_seq |]. unfold sha. apply Forall_forall. intros b (i & -> & _)%list_elem_of_fmap.
  apply Z.mod_pos_bound. lia.
Qed.
Definition doc : attachment := Attachment (lit "../a.pdf") (lit "application/pdf") [1; 2; 3] None.
Definition token : pystr := replicate 32 97.
Definition s0 : store := Store ∅ ∅ 100 ∅ ∅ ∅.
Lemma blobs_s0_initial : initial sha s0.
Proof. by split_and!. Qed.
#[local] Ltac look := cbn [st_writers st_files st_used set_writer use_token set_files end_writer s0];
  rewrite ?lookup_alter_eq, ?lookup_insert_eq, ?lookup_empty; reflexivity.
Lemma stored : exists s, rtc (step sha) s0 s /\ st_rows s !! sha [1; 2; 3] = Some (row_of sha doc).2.
Proof.
  eexists. split.
  - eapply rtc_l; [apply (Call sha s0 0 8 [doc]); [lia | look] |].
    eapply rtc_l; [eapply (Writes sha _ 0 _ doc); [look | reflexivity | apply Missing; [reflexivity | look]] |].
    eapply rtc_l; [eapply (Writes sha _ 0 _ doc); [look | reflexivity | apply (Open _ _ _ _ _ token); [reflexivity | cbn; set_solver | reflexivity]] |].
    eapply rtc_l; [eapply (Writes sha _ 0 _ doc); [look | reflexivity | eapply (Write _ _ _ _ _ _ 0 3); [reflexivity | lia]] |].
    eapply rtc_l; [eapply (Writes sha _ 0 _ doc); [look | reflexivity | eapply (Replace _ _ _ _ _ _ 3); [reflexivity | cbn; lia | look]] |].
    eapply rtc_l; [eapply (Writes sha _ 0 _ doc); [look | reflexivity | apply Inserted; reflexivity] |].
    eapply rtc_l; [eapply (Commit sha _ 0); [look | reflexivity] |]. apply rtc_refl.
  - reflexivity.
Qed.
Lemma blobs_are_content_addressed_witness : exists s f, rtc (step sha) s0 s /\
  st_files s !! Hex.hex (sha [1; 2; 3]) = Some f /\ blob_name sha (f_bytes f) = Hex.hex (sha [1; 2; 3]).
Proof.
  destruct stored as (s & Hs & Hrow).
  destruct (blobs_are_content_addressed sha sha_digest s0 s s blobs_s0_initial Hs (rtc_refl _ _)) as (_ & Hrows & _).
  destruct (Hrows _ _ Hrow) as (f & p & Hf & Hb & _). by exists s, f.
Defined.
End Example_blobs.
