(* ===== verification/Parser.v ===== *)
(** * Parsing a message ([parser.py], [date_header.py])

    What [parse_message] makes of the tree Python's email package builds: the headers
    it reads, guarded or not, the bodies, the attachments, and the identity messages
    are told apart by.  The package is the interface [EmailPackage]; SHA-256 is a
    parameter.  Timestamps are microseconds. *)
From S2P Require Import Prelude PyStr Errors Odict Utf8 Query HeaderBlock MailStore Sync SyncFacts BlobStore BlobStoreFacts.
Import Pgtext.

(** What [get_content] answers; [Undecodable] is a [LookupError] or a
    [UnicodeDecodeError]. *)
Inductive content := TextContent (s : pystr) | BytesContent (b : bytes).
Inductive content_failure := Undecodable | Raises (f : fault).
Record part := Part {
  pt_get_content : res content_failure content;
  pt_payload : res fault (option bytes);            (* [get_payload(decode=True)], where it is [bytes] *)
  pt_content_type : res fault pystr;
  pt_filename : res fault (option pystr);
  pt_get : pystr -> res fault (option pystr) }.
(** A header's value is its string; reading one parses it and may raise. *)
Record email_message := Email {
  em_get : pystr -> res fault (option pystr);
  em_get_all : pystr -> res fault (list pystr);
  em_raw_items : list (pystr * pystr);
  em_body : pystr -> res fault (option part);       (* [get_body] of one preference *)
  em_attachments : res fault (list part) }.
Inductive parsed_date := AwareDate (instant offset : Z) | NaiveDate (local : Z).
Class EmailPackage := {
  email_policy : EmailPolicy;
  message_from_bytes : bytes -> res fault email_message;
  getaddresses : list pystr -> res fault (list (pystr * pystr));
  (* [None]: [TypeError], [ValueError] or [OverflowError] *)
  parsedate_to_datetime : pystr -> option (res fault parsed_date) }.
#[global] Existing Instance email_policy.

(** ** [date_header.py] *)
Module Date_header.
Section date.
Context `{EmailPackage}.
Definition parse_date_header (raw : option pystr) : res fault (option parsed_date) :=
  match raw with
  | None | Some [] => Ok None
  | Some raw =>
      match parsedate_to_datetime raw with
      | None => Ok None
      | Some (Ok d) => Ok (Some d)
      | Some (Err f) => Err f
      end
  end.
Definition date_sent_instant (raw : option pystr) : res fault (option Z) :=
  let* d := parse_date_header raw in
  Ok ((fun d => match d with AwareDate t _ => t | NaiveDate t => t end) <$> d).
End date.
End Date_header.
Import Date_header.

Module Parser.
Section parser.
Context `{EmailPackage} (sha256 : bytes -> bytes).

(** [x or None], [x or default] *)
Definition or_none (s : pystr) : option pystr := match s with [] => None | _ => Some s end.
Definition or_else (s other : pystr) : pystr := match s with [] => other | _ => s end.
Definition strip_nuls_all (xs : list pystr) : list pystr := strip_nuls <$> xs.

Definition address_list (msg : email_message) (header : pystr) : res fault (list pystr) :=
  let* raw := em_get_all msg header in
  match raw with
  | [] => Ok []
  | _ => let* pairs := getaddresses raw in Ok (filter (fun a => a <> []) pairs.*2)
  end.
Definition from_pair (msg : email_message) : res fault (option pystr * option pystr) :=
  let* raw := em_get_all msg (lit "From") in
  match raw with
  | [] => Ok (None, None)
  | _ =>
      let* pairs := getaddresses raw in
      Ok match pairs with [] => (None, None) | (name, addr) :: _ => (or_none addr, or_none name) end
  end.
Definition refs_list (msg : email_message) : res fault (list pystr) :=
  let* raw := em_get msg (lit "References") in
  Ok (split_words (default [] raw)).
(** [_header_text]: what cannot be read is absent. *)
Definition header_text (msg : email_message) (name : pystr) : option pystr :=
  match em_get msg name with Ok (Some v) => or_none v | _ => None end.
Definition date_sent (msg : email_message) : res fault (option Z) := date_sent_instant (header_text msg (lit "Date")).
Definition headers_dict (msg : email_message) : list (pystr * list pystr) :=
  Header_block.group_entries (Header_block.entries_from_message (em_raw_items msg)).

Definition decoded_payload (p : part) : res fault bytes := let* b := pt_payload p in Ok (default [] b).
Definition decode_part_text (p : part) : res fault pystr :=
  match pt_get_content p with
  | Ok (TextContent s) => Ok s
  | Ok (BytesContent b) => Ok (utf8_replace b)
  | Err Undecodable => let* b := decoded_payload p in Ok (utf8_replace b)
  | Err (Raises f) => Err f
  end.
Definition body_of (p : option part) : res fault (option pystr) :=
  match p with None => Ok None | Some p => let* s := decode_part_text p in Ok (Some s) end.
Definition bodies (msg : email_message) : res fault (option pystr * option pystr) :=
  let* text_part := em_body msg (lit "plain") in
  let* text := body_of text_part in
  let* html_part := em_body msg (lit "html") in
  let* html := match html_part with
               | None => Ok None
               | Some p =>
                   let* t := pt_content_type p in
                   if str_eqb t (lit "text/html") then body_of (Some p) else Ok None
               end in
  Ok (text, html).

(** [s[1:-1]], and [s.startswith("<") and s.endswith(">")]. *)
Definition inner (s : pystr) : pystr := removelast (tail s).
Definition bracketed (s : pystr) : bool :=
  bool_decide (head s = Some 60) && bool_decide (last s = Some 62).
Definition content_id (p : part) : res fault (option pystr) :=
  let* raw := pt_get p (lit "Content-Id") in
  Ok match raw with
     | None | Some [] => None
     | Some raw =>
         let cid := strip raw in
         or_none (strip_nuls (if bracketed cid then inner cid else cid))
     end.
Definition attachment_of (p : part) : res fault attachment :=
  let* filename := pt_filename p in
  let* payload := decoded_payload p in
  let* mime_type := pt_content_type p in
  let* cid := content_id p in
  Ok (Attachment (or_else (default [] filename) (lit "attachment")) mime_type payload cid).
Definition attachments (msg : email_message) : res fault (list attachment) :=
  let* parts := em_attachments msg in mapM attachment_of parts.

Definition normalize_message_id (value : option pystr) : option pystr :=
  match value with
  | None => None
  | Some value =>
      let stripped := strip value in
      if bool_decide (stripped = []) then None
      else if bracketed stripped && bool_decide (strip (inner stripped) = []) then None
      else Some stripped
  end.

(** The subject and the text of a message that has nothing but attachments. *)
Definition placeholder_subject (subject : option pystr) (atts : list attachment) : option pystr :=
  match subject, atts with None, _ :: _ => Some (lit "{attachments only}") | _, _ => subject end.
Definition placeholder_text (text : option pystr) (atts : list attachment) : option pystr :=
  match text, atts with
  | None, _ :: _ =>
      let names := (fun a => or_else (strip_nuls (att_filename a)) (lit "attachment")) <$> atts in
      Some (lit "{attachments: " ++ join (lit ", ") names ++ lit "}")
  | _, _ => text
  end.
(** [strip_nuls(x) or None] of an optional text. *)
Definition clean (s : option pystr) : option pystr := s ≫= fun s => or_none (strip_nuls s).

Definition parse_message (raw : bytes) : res fault ParsedMessage :=
  let* msg := message_from_bytes raw in
  let* from := from_pair msg in
  let* body := bodies msg in
  let message_id := normalize_message_id (header_text msg (lit "Message-Id")) in
  let* in_reply_to := em_get msg (lit "In-Reply-To") in
  let* subject := em_get msg (lit "Subject") in
  let headers := (fun kv => (kv.1, strip_nuls_all kv.2)) <$> headers_dict msg in
  let* atts := attachments msg in
  let* refs := refs_list msg in
  let* to := address_list msg (lit "To") in
  let* cc := address_list msg (lit "Cc") in
  let* bcc := address_list msg (lit "Bcc") in
  let* date := date_sent msg in
  Ok (PM (strip_nuls <$> message_id) (sha256 raw) (strip_nuls <$> (in_reply_to ≫= or_none)) (strip_nuls_all refs)
        (placeholder_subject (clean subject) atts) (strip_nuls <$> from.1) (strip_nuls <$> from.2)
        (strip_nuls_all to) (strip_nuls_all cc) (strip_nuls_all bcc) date headers
        (placeholder_text (clean body.1) atts) (clean body.2) raw (Z.of_nat (length raw)) atts).
End parser.
End Parser.
Import Parser.

(** ** What is stored *)
Definition nul_free (s : pystr) : Prop := 0 ∉ s.
(** An optional text: absent, or there and free of NULs. *)
Definition all_nul_free (s : option pystr) : Prop := forall t, s = Some t -> nul_free t.
(** An id that tells messages apart: trimmed, and more than a pair of brackets. *)
Definition has_identity (v : pystr) : Prop :=
  v <> [] /\ strip v = v /\ forall blank, v = 60 :: blank ++ [62] -> strip blank <> [].

Lemma checked_nul_free s : contains 0 s = false -> nul_free s.
Proof. apply contains_false. Qed.
Lemma strip_nuls_free s : nul_free (strip_nuls s).
Proof. by intros [Hc _]%list_elem_of_filter. Qed.
Lemma fmap_nul_free (s : option pystr) : all_nul_free (strip_nuls <$> s).
Proof. destruct s; intros t [= <-]. apply strip_nuls_free. Qed.
Lemma clean_spec s : all_nul_free (clean s) /\ clean s <> Some [].
Proof.
  unfold clean. destruct s as [s |]; [| done]. cbn. pose proof (strip_nuls_free s). unfold or_none.
  destruct (strip_nuls s); split; try done. by intros t [= <-].
Qed.
Lemma strip_nuls_id s : nul_free s -> strip_nuls s = s.
Proof.
  unfold nul_free, strip_nuls. induction s as [| c s IH]; [done |]. rewrite not_elem_of_cons. intros [Hc Hs].
  rewrite filter_cons_True by done. by rewrite IH.
Qed.
Lemma join_nul_free sep ws : nul_free sep -> Forall nul_free ws -> nul_free (join sep ws).
Proof.
  intros Hsep. induction 1 as [| w ws Hw Hws IH]; [apply not_elem_of_nil |]. destruct ws as [| w' ws]; [done |].
  unfold nul_free in *. change (join sep (w :: w' :: ws)) with (w ++ sep ++ join sep (w' :: ws)). set_solver.
Qed.
Lemma name_nul_free a : nul_free (or_else (strip_nuls (att_filename a)) (lit "attachment")).
Proof.
  unfold or_else. pose proof (strip_nuls_free (att_filename a)). destruct (strip_nuls _); [| done].
  by apply checked_nul_free.
Qed.
Lemma placeholder_text_spec text atts :
  all_nul_free text -> text <> Some [] ->
  let t := placeholder_text text atts in all_nul_free t /\ t <> Some [] /\ (atts <> [] -> is_Some t).
Proof.
  intros Hf He. unfold placeholder_text. destruct text as [t |]; [by split_and!; [| | eexists] |].
  destruct atts as [| a atts]; [done |]. split_and!; [| done | by eexists].
  intros t Ht. apply (inj Some) in Ht as <-. unfold nul_free. rewrite !elem_of_app.
  assert (nul_free (join (lit ", ") ((fun a => or_else (strip_nuls (att_filename a)) (lit "attachment")) <$> a :: atts))).
  { apply join_nul_free; [by apply checked_nul_free |]. apply Forall_fmap, Forall_true. apply name_nul_free. }
  intros [Hl | [Hj | Hr]]; [| done |]; [revert Hl | revert Hr]; by apply checked_nul_free.
Qed.
Lemma placeholder_subject_spec subject atts :
  all_nul_free subject -> subject <> Some [] ->
  let t := placeholder_subject subject atts in all_nul_free t /\ t <> Some [] /\ (atts <> [] -> is_Some t).
Proof.
  intros Hf He. unfold placeholder_subject. destruct subject as [t |]; [by split_and!; [| | eexists] |].
  destruct atts as [| a atts]; [done |]. split_and!; [| done | by eexists].
  intros t Ht. apply (inj Some) in Ht as <-. by apply checked_nul_free.
Qed.

(** ** Identity *)
Lemma bracketed_spec s : bracketed s = true -> (2 <= length s)%nat -> s = 60 :: inner s ++ [62].
Proof.
  unfold bracketed, inner. rewrite andb_true_iff, !bool_decide_eq_true. intros [Hh Hl] Hn.
  destruct s as [| c s]; [done |]. injection Hh as ->. cbn [tail]. f_equal.
  destruct s as [| d s] using rev_ind; [cbn in Hn; lia |]. rewrite removelast_last. f_equal.
  rewrite app_comm_cons, last_snoc in Hl. by injection Hl as ->.
Qed.
Lemma bracketed_app b : bracketed (60 :: b ++ [62]) = true /\ inner (60 :: b ++ [62]) = b.
Proof.
  unfold bracketed, inner. cbn [tail head]. rewrite app_comm_cons, last_snoc, removelast_last. split; [| done].
  by rewrite !bool_decide_eq_true_2.
Qed.
Lemma drop_while_idem p (s : pystr) : drop_while p (drop_while p s) = drop_while p s.
Proof. induction s as [| c s IH]; [done |]. cbn. destruct (p c) eqn:E; [done |]. cbn. by rewrite E. Qed.
Lemma drop_while_suffix_of p (s : pystr) : exists pre, s = pre ++ drop_while p s.
Proof.
  induction s as [| c s [pre IH]]; [by exists [] |]. cbn. destruct (p c); [| by exists []].
  exists (c :: pre). cbn. by rewrite <- IH.
Qed.
Lemma strip_idem s : strip (strip s) = strip s.
Proof.
  unfold strip, strip_p, lstrip_p, rstrip_p. set (p := is_space_char). set (t := drop_while p s).
  set (u := reverse (drop_while p (reverse t))).
  assert (Hu : drop_while p u = u).
  { destruct (drop_while_suffix_of p (reverse t)) as [pre Hpre]. apply (f_equal reverse) in Hpre.
    rewrite reverse_involutive, reverse_app in Hpre. fold u in Hpre.
    pose proof (drop_while_idem p s) as Ht. fold t in Ht. rewrite Hpre in Ht. destruct u as [| c u]; [done |].
    cbn in Ht |- *. destruct (p c) eqn:Ec; [| done].
    destruct (drop_while_suffix_of p (u ++ reverse pre)) as [q Hq]. rewrite Ht in Hq. apply (f_equal length) in Hq.
    rewrite (length_app q) in Hq. cbn [length] in Hq. lia. }
  rewrite Hu. unfold u. by rewrite reverse_involutive, drop_while_idem.
Qed.
Lemma strip_nul_free s : nul_free s -> nul_free (strip s).
Proof.
  unfold nul_free, strip, strip_p, rstrip_p, lstrip_p. intros Hs.
  assert (Hd : forall l, 0 ∉ l -> 0 ∉ drop_while is_space_char l).
  { intros l Hl. destruct (drop_while_suffix_of is_space_char l) as [pre Hpre]. rewrite Hpre in Hl. set_solver. }
  rewrite elem_of_reverse. apply Hd. rewrite elem_of_reverse. by apply Hd.
Qed.
Lemma normalize_identity value v : normalize_message_id value = Some v -> has_identity v.
Proof.
  unfold normalize_message_id. destruct value as [s |]; [| done]. case_bool_decide as He; [done |].
  destruct (bracketed (strip s) && _) eqn:Eb; intros [= <-]. split; [done |]. split; [apply strip_idem |].
  intros b Hb Hs. rewrite Hb in Eb. destruct (bracketed_app b) as [H1 H2]. rewrite H1, H2, Hs in Eb. done.
Qed.
Lemma degenerate_is_absent s :
  strip s = [] \/ (exists b, strip s = 60 :: b ++ [62] /\ strip b = []) -> normalize_message_id (Some s) = None.
Proof.
  intros [Hs | (b & Hs & Hb)]; unfold normalize_message_id; rewrite Hs; [done |].
  destruct (bracketed_app b) as [-> ->]. rewrite Hb. cbn. done.
Qed.

Section facts.
Context `{EmailPackage} (sha256 : bytes -> bytes).

Lemma entries_nul_free items : Forall (fun e => nul_free (Header_block.he_value e)) (Header_block.entries_from_message items).
Proof. apply Forall_fmap, Forall_true. intros it. apply strip_nuls_free. Qed.

Lemma group_entries_names (P : pystr -> Prop) entries :
  Forall (fun e => P (Header_block.he_name e)) entries -> Forall (fun kv => P kv.1) (Header_block.group_entries entries).
Proof.
  unfold Header_block.group_entries. induction entries as [| e es IH] using rev_ind; [done |].
  rewrite foldl_snoc, Forall_app, list.Forall_singleton. intros [Hes He]. specialize (IH Hes). revert IH.
  generalize (default [] (od_get (Header_block.he_name e) (foldl (fun out e0 =>
    od_set (Header_block.he_name e0) (default [] (od_get (Header_block.he_name e0) out) ++ [Header_block.he_value e0]) out) [] es))
    ++ [Header_block.he_value e]) as v.
  intros v. generalize (foldl (fun out e0 => od_set (Header_block.he_name e0)
    (default [] (od_get (Header_block.he_name e0) out) ++ [Header_block.he_value e0]) out) [] es) as out.
  induction out as [| [k x] out IH]; intros Hout; cbn [od_set]; [by constructor |].
  apply list.Forall_cons in Hout as [Hk Hout]. case_decide; constructor; auto.
Qed.

(** What the parser hands on is what the tables can hold, and what they are keyed by.
    The texts of the row, its address lists and header values; the header names, when
    the package's names have no NUL; the entry of each attachment in the JSON column,
    with the cleaned filename; and the MIME types of the blobs' rows, when the
    package's have no NUL, which the parser does not strip ([nul_mime_type_is_kept]). *)
Record storable_message (raw : bytes) (msg : email_message) (m : ParsedMessage) : Prop := {
  sm_texts : Forall all_nul_free [pm_message_id m; pm_in_reply_to m; pm_subject m; pm_from_addr m; pm_from_name m;
                                  pm_body_text m; pm_body_html m];
  sm_lists : Forall nul_free (pm_refs m ++ pm_to_addrs m ++ pm_cc_addrs m ++ pm_bcc_addrs m);
  sm_headers : Forall (fun kv => Forall nul_free kv.2) (pm_headers m);
  sm_header_names : Forall (fun it => nul_free it.1) (em_raw_items msg) -> Forall (fun kv => nul_free kv.1) (pm_headers m);
  sm_content_ids : Forall (fun a => all_nul_free (att_content_id a) /\ att_content_id a <> Some []) (pm_attachments m);
  sm_entries : Forall (fun a => let e := Blob_store.entry_of sha256 a in
                 nul_free (ae_filename e) /\ ae_filename e <> [] /\ ae_content_id e = att_content_id a) (pm_attachments m);
  sm_mime_types :
    (forall parts p t, em_attachments msg = Ok parts -> p ∈ parts -> pt_content_type p = Ok t -> nul_free t) ->
    Forall (fun a => nul_free (att_content_type a)) (pm_attachments m);
  sm_not_empty : Forall (fun t => t <> Some []) [pm_subject m; pm_body_text m; pm_body_html m];
  sm_visible : pm_attachments m <> [] -> is_Some (pm_subject m) /\ is_Some (pm_body_text m);
  sm_raw : pm_raw_bytes m = raw /\ pm_raw_sha256 m = sha256 raw /\ pm_size_bytes m = Z.of_nat (length raw);
}.

Lemma content_id_spec p c : content_id p = Ok c -> all_nul_free c /\ c <> Some [].
Proof.
  unfold content_id. destruct (pt_get p _) as [raw |]; [| done]. intros Hc. injection Hc as <-.
  destruct raw as [[| x raw] |]; [done | | done]. apply (clean_spec (Some _)).
Qed.
Lemma attachments_spec msg atts : attachments msg = Ok atts ->
  exists parts, em_attachments msg = Ok parts /\
    Forall (fun a => (all_nul_free (att_content_id a) /\ att_content_id a <> Some []) /\
                     exists p, p ∈ parts /\ pt_content_type p = Ok (att_content_type a)) atts.
Proof.
  unfold attachments. destruct (em_attachments msg) as [parts |]; [| done]. cbn. intros Ha. exists parts. split; [done |].
  revert atts Ha. induction parts as [| p parts IH]; intros atts; cbn; [by intros [= <-] |].
  unfold attachment_of. destruct (pt_filename p); [| done]. destruct (decoded_payload p); [| done].
  destruct (pt_content_type p) as [t |] eqn:Et; [| done]. destruct (content_id p) as [c |] eqn:Ec; [| done]. cbn.
  destruct (mapM _ _) as [l |]; [| done]. intros [= <-]. constructor.
  - split; [by eapply content_id_spec |]. exists p. split; [by left | done].
  - eapply list.Forall_impl; [by apply IH |]. intros at_ (Hc & q & Hq & Hqt). split; [done |]. exists q. split; [by right | done].
Qed.
Lemma entry_storable a : att_content_id a <> Some [] ->
  let e := Blob_store.entry_of sha256 a in
  nul_free (ae_filename e) /\ ae_filename e <> [] /\ ae_content_id e = att_content_id a.
Proof.
  intros Hc. destruct (sanitize_filename_safe (att_filename a)) as (Hne & Hsafe & _). cbn. split_and!; [| done |].
  - intros Hin. rewrite list.Forall_forall in Hsafe. by apply Hsafe in Hin.
  - by destruct (att_content_id a) as [[] |].
Qed.

Lemma parse_storable raw msg m : message_from_bytes raw = Ok msg -> parse_message sha256 raw = Ok m ->
  storable_message raw msg m.
Proof.
  intros Hmsg. unfold parse_message. rewrite Hmsg.
  destruct (from_pair msg) as [from |]; [| done]. destruct (bodies msg) as [[text html] |]; [| done].
  destruct (em_get msg (lit "In-Reply-To")) as [irt |]; [| done].
  destruct (em_get msg (lit "Subject")) as [subject |]; [| done].
  destruct (attachments msg) as [atts |] eqn:Ea; [| done]. destruct (refs_list msg); [| done].
  do 3 (destruct (address_list msg _); [| done]). destruct (date_sent msg); [| done].
  intros Hm. injection Hm as <-.
  destruct (clean_spec subject) as [Hs1 Hs2], (clean_spec text) as [Ht1 Ht2], (clean_spec html) as [Hh1 Hh2].
  destruct (placeholder_subject_spec _ atts Hs1 Hs2) as (? & ? & ?), (placeholder_text_spec _ atts Ht1 Ht2) as (? & ? & ?).
  destruct (attachments_spec _ _ Ea) as (parts & Hparts & Hatts).
  split; cbn [pm_message_id pm_in_reply_to pm_subject pm_from_addr pm_from_name pm_body_text pm_body_html pm_refs
    pm_to_addrs pm_cc_addrs pm_bcc_addrs pm_headers pm_attachments pm_raw_bytes pm_raw_sha256 pm_size_bytes fst snd].
  - repeat (apply list.Forall_cons_2; [try done; apply fmap_nul_free |]). apply list.Forall_nil_2.
  - unfold strip_nuls_all. rewrite !Forall_app, !Forall_fmap. split_and!; apply Forall_true; intros; apply strip_nuls_free.
  - apply Forall_fmap, Forall_true. intros kv. apply Forall_fmap, Forall_true. intros. apply strip_nuls_free.
  - intros Hnames. apply Forall_fmap. apply (group_entries_names nul_free), Forall_fmap. exact Hnames.
  - eapply list.Forall_impl; [exact Hatts |]. by intros at_ [? _].
  - eapply list.Forall_impl; [exact Hatts |]. intros at_ [[_ ?] _]. by apply entry_storable.
  - intros Hmime. eapply list.Forall_impl; [exact Hatts |]. intros at_ (_ & p & Hp & Ht). by apply (Hmime parts p).
  - repeat (apply list.Forall_cons_2; [done |]). apply list.Forall_nil_2.
  - intros Hne. split; auto.
  - done.
Qed.
Lemma parse_message_id raw msg m : message_from_bytes raw = Ok msg -> parse_message sha256 raw = Ok m ->
  pm_message_id m = strip_nuls <$> normalize_message_id (header_text msg (lit "Message-Id")).
Proof.
  intros Hmsg. unfold parse_message. rewrite Hmsg. intros Hp.
  repeat match type of Hp with (match ?r with Ok _ => _ | Err _ => _ end = _) => destruct r; [| done] end.
  by injection Hp as <-.
Qed.
Lemma normalize_nul_free value : all_nul_free value -> strip_nuls <$> normalize_message_id value = normalize_message_id value.
Proof.
  intros Hv. unfold normalize_message_id. destruct value as [s |]; [| done].
  case_bool_decide; [done |]. destruct (_ && _); [done |]. cbn. f_equal. apply strip_nuls_id, strip_nul_free. by apply Hv.
Qed.
End facts.

(** C2: whatever the email package answers, a parsed message is what the tables hold, the
    MIME types of its attachments aside.  The texts of its row, its address lists, header
    values, content ids and cleaned filenames have no NUL, and so have its header names and
    MIME types where the package's have none; a NUL in a MIME type is kept, and aborts the
    INSERT (finding).  No subject or body is the empty string, and a message that
    is all attachments still has a subject and a text.  Where its Message-Id header has
    no NUL, the row it is archived in shares a real Message-Id with it or has the very digest
    of its bytes, so no two different messages without an identity are folded into one. *)
Theorem parsed_mail_is_kept_apart `{EmailPackage} sha256 raw msg m :
  message_from_bytes raw = Ok msg -> parse_message sha256 raw = Ok m ->
  storable_message sha256 raw msg m /\
  (all_nul_free (header_text msg (lit "Message-Id")) ->
   forall at_ d account date d' i inserted,
     Sync.upsert_message at_ d account m date = Ok (d', (i, inserted)) ->
     exists r, messages d' !! i = Some r /\ mr_account r = account /\
       match pm_message_id m with
       | Some v => has_identity v /\ mr_message_id r = Some v
       | None => mr_raw_sha256 r = sha256 raw
       end).
Proof.
  intros Hmsg Hp. split; [by apply parse_storable |]. intros Hn at_ d account date d' i inserted Hu.
  destruct (upsert_message_row _ _ _ _ _ _ _ _ Hu) as (_ & _ & r & Hr & Ha & Hd). exists r. split_and!; [done | done |].
  pose proof (parse_message_id sha256 raw msg m Hmsg Hp) as Hid. rewrite normalize_nul_free in Hid by done.
  destruct (pm_message_id m) as [v |].
  - split; [by eapply normalize_identity | done].
  - destruct Hd as [_ ->]. by destruct (parse_storable sha256 raw msg m Hmsg Hp) as [_ _ _ _ _ _ _ _ _ (_ & -> & _)].
Qed.

(** ** Runs *)
Module Example_mail.
Definition no_policy : EmailPolicy := {| raw_items _ := []; header_fetch_parse _ _ := None |}.
Definition pdf : part :=
  Part (Err Undecodable) (Ok (Some [37])) (Ok (lit "application/pdf")) (Ok None) (fun _ => Ok (Some (lit " <a@b> "))).
(** The first byte of a message chooses its Message-Id: empty brackets, a NUL in
    brackets, or one the package cannot read; the second byte is its text. *)
Definition mail (raw : bytes) : email_message := {|
  em_get name :=
    if str_eqb name (lit "Message-Id")
    then match raw with
         | 1 :: _ => Ok (Some (lit "<>"))
         | 2 :: _ => Ok (Some [60; 0; 62])
         | _ => Err (OtherError (lit "IndexError"))
         end
    else Ok None;
  em_get_all _ := Ok []; em_raw_items := []; em_body _ := Ok None; em_attachments := Ok [pdf] |}.
#[local] Instance package : EmailPackage := {|
  email_policy := no_policy; message_from_bytes raw := Ok (mail raw); getaddresses _ := Ok [];
  parsedate_to_datetime _ := None |}.
Definition id_sha (raw : bytes) : bytes := raw.
Definition empty_store : store := Store ∅ ∅ ∅ ∅ ∅ ∅.
Definition archive (id : Z) (raw : bytes) (d : store) : option (store * (Z * bool)) :=
  match parse_message id_sha raw with
  | Ok m => match Sync.upsert_message (Attempt id ∅ None) d 1 m None with Ok r => Some r | Err _ => None end
  | Err _ => None
  end.
Definition archive_both (raw1 raw2 : bytes) : option (Z * bool) :=
  '(d, _) ← archive 1 raw1 empty_store; snd <$> archive 2 raw2 d.

Example placeholders :
  (fun m => (pm_subject m, pm_body_text m, att_content_id <$> pm_attachments m)) <$> parse_message id_sha [1] =
  Ok (Some (lit "{attachments only}"), Some (lit "{attachments: attachment}"), [Some (lit "a@b")]).
Proof. by vm_compute. Qed.
Example unreadable_ids_kept_apart : archive_both [3; 1] [3; 2] = Some (2, true).
Proof. by vm_compute. Qed.
(** A Message-Id that is degenerate only once its NULs are gone is not normalised to
    absence: a second, different message with it is folded into the first and lost. *)
Lemma nul_message_id_folds_mail : archive_both [2; 1] [2; 2] = Some (1, false).
Proof. by vm_compute. Qed.

(** The type of an attachment goes into its row as the package gives it. *)
Lemma nul_mime_type_is_kept :
  let p := Part (Err Undecodable) (Ok (Some [37])) (Ok (lit "a/b" ++ [0])) (Ok (Some (lit "a" ++ [0]))) (fun _ => Ok None) in
  (fun a => (br_mime_type (Blob_store.row_of id_sha a).2, ae_filename (Blob_store.entry_of id_sha a))) <$> attachment_of p =
  Ok (lit "a/b" ++ [0], lit "a_").
Proof. by vm_compute. Qed.

Lemma parsed_mail_is_kept_apart_witness :
  exists m d' r, parse_message id_sha [1; 7] = Ok m /\ messages d' !! 5 = Some r /\ mr_raw_sha256 r = [1; 7].
Proof.
  destruct (parse_message id_sha [1; 7]) as [m |] eqn:Em; [| by vm_compute in Em].
  destruct (Sync.upsert_message (Attempt 5 ∅ None) empty_store 1 m None) as [[d' [i ins]] |] eqn:Eu.
  2: { vm_compute in Em. injection Em as <-. by vm_compute in Eu. }
  destruct (@parsed_mail_is_kept_apart package id_sha [1; 7] (mail [1; 7]) m eq_refl Em) as [_ Hrow].
  destruct (Hrow ltac:(intros t Ht; vm_compute in Ht; injection Ht as <-; by apply checked_nul_free) _ _ _ _ _ _ _ Eu) as (r & Hr & _ & Hm).
  assert (i = 5 /\ pm_message_id m = None) as [-> Hid].
  { vm_compute in Em. injection Em as <-. split; [| done]. vm_compute in Eu. by injection Eu as _ <- _. }
  rewrite Hid in Hm. by exists m, d', r.
Defined.
End Example_mail.
