(* ===== verification/Importer.v ===== *)
(** * Importing an archive ([importer/runner.py], [importer/job_state.py],
    [importer/ownership.py], [api/admin/imports.py])

    One job streams the messages of an mbox or a maildir through
    [process_one_message].  The worker's connection sees its own uncommitted
    writes; what it committed last is what survives an exception.  The source,
    the clock, the failing statements and what other connections commit come
    from [import_env].  Seconds are microseconds. *)
From S2P Require Import Prelude PyStr MailStore FetchRetry Sync.
Import Uids Sync.

(** ** Jobs *)
Inductive job_status := JobPending | JobRunning | JobCompleted | JobFailed | JobCancelled.
#[export] Instance job_status_eq_dec : EqDecision job_status.
Proof. solve_decision. Defined.

(** [_Counters] *)
Record counters := Counters { c_processed : Z; c_inserted : Z; c_skipped_dup : Z; c_failed : Z }.

(** A row of [import_jobs]. *)
Record import_job := ImportJob {
  ij_account_id : Z;
  ij_source_kind : pystr;
  ij_source_path : pystr;
  ij_status : job_status;
  ij_counters : counters;
  ij_error_msg : option pystr;
  ij_cancel_requested : bool;
  ij_last_progress_at : option Z;
  ij_started_at : option Z;
  ij_finished_at : option Z;
  ij_owner_host : option pystr;
  ij_owner_pid : option Z;
}.
Notation jobs := (gmap Z import_job).

(** [sources.ImportedMessage] *)
Record ImportedMessage := Imported {
  im_mailbox_name : pystr;
  im_raw : bytes;
  im_received_date : option Z;
}.

Module Importer.
(** ** [job_state.py] and [ownership.py] *)
Definition is_active (s : job_status) : bool := match s with JobPending | JobRunning => true | _ => false end.
Definition is_terminal (s : job_status) : bool :=
  match s with JobCompleted | JobFailed | JobCancelled => true | _ => false end.

Definition is_stale (status : job_status) (last_progress_at : option Z) (now stale_seconds : Z) : bool :=
  match status, last_progress_at with
  | JobRunning, Some t => stale_seconds <? now - t
  | _, _ => false
  end.

Definition should_checkpoint (processed processed_at_last_checkpoint seconds_since_checkpoint
    checkpoint_every checkpoint_seconds : Z) : bool :=
  let unflushed := processed - processed_at_last_checkpoint in
  if unflushed <=? 0 then false
  else if processed_at_last_checkpoint =? 0 then true
  else if (0 <? checkpoint_every) && (checkpoint_every <=? unflushed) then true
  else (0 <? checkpoint_seconds) && (checkpoint_seconds <=? seconds_since_checkpoint).

Definition should_reap (owner_host : option pystr) (owner_pid : option Z) (current_host : pystr)
    (pid_alive : bool) : bool :=
  match owner_pid with
  | None => true
  | Some _ => if bool_decide (owner_host = Some current_host) then negb pid_alive else false
  end.

(** ** The rows of [import_jobs] ([api/admin/imports.py]) *)
Inductive import_error := ImportFieldError | ImportBusyError | ImportNotFound.

Definition active (js : jobs) : list Z := (filter (fun kj => is_active (ij_status kj.2) = true) (map_to_list js)).*1.

(** [create_job]: [racing] are the jobs other connections commit between the
    count and the INSERT, which the unique index then sees; [new_id] is the
    sequence's next value. *)
Definition create_job (d : store) (js racing : jobs) (new_id account_id : Z) (source_kind source_path host : pystr)
    (pid : Z) : jobs * res import_error Z :=
  if negb (bool_decide (source_kind ∈ [lit "mbox"; lit "maildir"])) then (js, Err ImportFieldError)
  else match accounts d !! account_id with
       | None => (js, Err ImportNotFound)
       | Some a =>
           if negb (bool_decide (ac_auth_method a = ARCHIVE_AUTH_METHOD)) then (js, Err ImportFieldError)
           else match active js with
                | _ :: _ => (js, Err ImportBusyError)
                | [] =>
                    let js := js ∪ racing in
                    match active js with
                    | _ :: _ => (js, Err ImportBusyError)
                    | [] =>
                        (<[new_id := ImportJob account_id source_kind source_path JobPending
                            (Counters 0 0 0 0) None false None None None (Some host) (Some pid)]> js,
                         Ok new_id)
                    end
                end
       end.

Definition get_job (js : jobs) (job_id : Z) : res import_error import_job :=
  match js !! job_id with Some j => Ok j | None => Err ImportNotFound end.

Definition cancel_job (js : jobs) (job_id : Z) : jobs * res import_error () :=
  match js !! job_id with
  | None => (js, Err ImportNotFound)
  | Some j =>
      (<[job_id := ImportJob (ij_account_id j) (ij_source_kind j) (ij_source_path j) (ij_status j)
          (ij_counters j) (ij_error_msg j) true (ij_last_progress_at j) (ij_started_at j) (ij_finished_at j)
          (ij_owner_host j) (ij_owner_pid j)]> js, Ok ())
  end.

(** The row as a terminal write leaves it. *)
Definition finish_job (status : job_status) (c : counters) (error_msg : option pystr) (now : Z)
    (j : import_job) : import_job :=
  ImportJob (ij_account_id j) (ij_source_kind j) (ij_source_path j) status c error_msg
    (ij_cancel_requested j) (ij_last_progress_at j) (ij_started_at j) (Some now) (ij_owner_host j) (ij_owner_pid j).

(** [reconcile_orphaned_jobs] *)
Definition reaped (current_host : pystr) (pid_is_alive : Z -> bool) (j : import_job) : bool :=
  is_active (ij_status j) &&
  should_reap (ij_owner_host j) (ij_owner_pid j) current_host
    (match ij_owner_pid j with Some p => pid_is_alive p | None => false end).
Definition reconcile_orphaned_jobs (current_host : pystr) (pid_is_alive : Z -> bool) (now : Z) (js : jobs) :
    jobs * nat :=
  ((fun j => if reaped current_host pid_is_alive j
             then finish_job JobFailed (ij_counters j)
                    (Some (lit "interrupted: owning process is no longer running")) now j
             else j) <$> js,
   size (filter (fun kj => reaped current_host pid_is_alive kj.2 = true) js)).

(** ** The run ([runner.py]) *)

(** The statements of the worker's connection that can fail on their own. *)
Inductive point := AtStart | AtMailbox (n : nat) | AtLookup (n : nat) | AtFlush (n : nat) | AtPoll (n : nat) | AtEnd.

Record import_env := ImportEnv {
  ie_env : env;                          (* parser, blobs, per-message database outcomes *)
  ie_connect_error : option fault;
  ie_fault : point -> option fault;
  ie_source : list ImportedMessage;      (* what the iterator yields ... *)
  ie_source_error : option fault;        (* ... and what it then raises, if anything *)
  ie_new_mailbox_id : pystr -> Z;
  ie_clock : nat -> Z;
  ie_now : nat -> Z;
  ie_cancel : nat -> bool;               (* [cancel_requested] as the nth poll reads it *)
  ie_describe : fault -> pystr;          (* type and text of an exception *)
  ie_terminal_error : nat -> option fault;
}.

Record db := Db { db_store : store; db_jobs : jobs }.

(** The locals of [run_import] while it loops. *)
Record run := Run {
  rn_store : store;                      (* as the worker's connection sees it *)
  rn_committed : db;
  rn_c : counters;
  rn_committed_c : counters;
  rn_mailbox_ids : gmap pystr Z;
  rn_uid_counters : gmap pystr Z;
  rn_processed_at_last_checkpoint : Z;
  rn_last_checkpoint_at : Z;
}.

Definition count (c : counters) (inserted skipped failed : Z) : counters :=
  Counters (c_processed c + 1) (c_inserted c + inserted) (c_skipped_dup c + skipped) (c_failed c + failed).

(** [_failed_uid] *)
Definition pill_of (e : env) (account_id mailbox_id : Z) (raw : bytes) (kf : (Z * Z * Z) * failed_row) : Prop :=
  kf.1.1 = (account_id, mailbox_id) /\ f_raw_sha256 kf.2 = sha256 e raw.
#[global] Instance pill_of_dec e a mb raw kf : Decision (pill_of e a mb raw kf).
Proof. unfold pill_of. apply _. Defined.
Definition failed_uid (e : env) (d : store) (account_id mailbox_id : Z) (raw : bytes) : option Z :=
  head (merge_sort Z.le (map (fun kf => kf.1.2)
    (filter (pill_of e account_id mailbox_id raw) (map_to_list (failed_messages d))))).

Definition mark_running (now : Z) (job_id : Z) (js : jobs) : option jobs :=
  match js !! job_id with
  | Some j =>
      match ij_status j with
      | JobPending =>
          Some (<[job_id := ImportJob (ij_account_id j) (ij_source_kind j) (ij_source_path j) JobRunning
                   (ij_counters j) (ij_error_msg j) (ij_cancel_requested j) (Some now) (Some now)
                   (ij_finished_at j) (ij_owner_host j) (ij_owner_pid j)]> js)
      | _ => None
      end
  | None => None
  end.

(** [_flush] *)
Definition flush (now : Z) (job_id : Z) (c : counters) (js : jobs) : jobs :=
  alter (fun j => ImportJob (ij_account_id j) (ij_source_kind j) (ij_source_path j) (ij_status j) c
                    (ij_error_msg j) (ij_cancel_requested j) (Some now) (ij_started_at j) (ij_finished_at j)
                    (ij_owner_host j) (ij_owner_pid j)) job_id js.

Section run.
Context (ie : import_env) (account_id job_id : Z) (checkpoint_every checkpoint_seconds : Z).

Definition raise_at (p : point) : res fault () := match ie_fault ie p with Some f => Err f | None => Ok () end.

(** The folder of the message, resolved and committed when it is new. *)
Definition open_mailbox (n : nat) (name : pystr) (r : run) : res fault run :=
  match rn_mailbox_ids r !! name with
  | Some _ => Ok r
  | None =>
      let* _ := raise_at (AtMailbox n) in
      let '(d, mb) := upsert_mailbox (ie_new_mailbox_id ie name) (rn_store r) account_id name None [] in
      Ok (Run d (Db d (db_jobs (rn_committed r))) (rn_c r) (rn_c r)
            (<[name := mailbox_id mb]> (rn_mailbox_ids r))
            (<[name := max_reserved_uid d account_id (mailbox_id mb)]> (rn_uid_counters r))
            (rn_processed_at_last_checkpoint r) (rn_last_checkpoint_at r))
  end.

(** The message itself: stored, recorded as a poison pill, or, on contention,
    the end of the job. *)
Definition import_one (n : nat) (msg : ImportedMessage) (r : run) : res fault run :=
  let e := ie_env ie in
  let name := im_mailbox_name msg in
  let mailbox := default 0 (rn_mailbox_ids r !! name) in
  let uid := default 0 (rn_uid_counters r !! name) + 1 in
  let uids := <[name := uid]> (rn_uid_counters r) in
  let at_ := on_process e (Z.of_nat n) in
  let next d c := Run d (rn_committed r) c (rn_committed_c r) (rn_mailbox_ids r) uids
                    (rn_processed_at_last_checkpoint r) (rn_last_checkpoint_at r) in
  match process_one_message e at_ (rn_store r) account_id mailbox uid (im_raw msg) [] (im_received_date msg) with
  | Ok (d, (_, did_insert)) =>
      Ok (next d (if did_insert then count (rn_c r) 1 0 0 else count (rn_c r) 0 1 0))
  | Err Contention => Err Contention
  | Err exc =>
      let d := rollback at_ (rn_store r) in
      let* _ := raise_at (AtLookup n) in
      let* d := record_failed_message e (on_log e (Z.of_nat n)) d account_id mailbox
                  (default uid (failed_uid e d account_id mailbox (im_raw msg))) (im_raw msg) exc in
      Ok (next d (count (rn_c r) 0 0 1))
  end.

(** The flush and the cancel poll, when they are due; the flag says that the
    job was cancelled. *)
Definition checkpoint (n : nat) (r : run) : run * res fault bool :=
  let now := ie_clock ie (S n) in
  if should_checkpoint (c_processed (rn_c r)) (rn_processed_at_last_checkpoint r)
       (now - rn_last_checkpoint_at r) checkpoint_every checkpoint_seconds then
    match ie_fault ie (AtFlush n) with
    | Some f => (r, Err f)
    | None =>
        let js := flush (ie_now ie n) job_id (rn_c r) (db_jobs (rn_committed r)) in
        (Run (rn_store r) (Db (rn_store r) js) (rn_c r) (rn_c r) (rn_mailbox_ids r) (rn_uid_counters r)
           (c_processed (rn_c r)) now,
         match ie_fault ie (AtPoll n) with Some f => Err f | None => Ok (ie_cancel ie n) end)
    end
  else (r, Ok false).

(** One turn. *)
Definition import_message (n : nat) (msg : ImportedMessage) (r : run) : run * res fault bool :=
  match open_mailbox n (im_mailbox_name msg) r with
  | Err f => (r, Err f)
  | Ok r =>
      match import_one n msg r with
      | Err f => (r, Err f)
      | Ok r => checkpoint n r
      end
  end.
Fixpoint import_messages (n : nat) (msgs : list ImportedMessage) (r : run) : run * res fault bool :=
  match msgs with
  | [] => (r, match ie_source_error ie with Some f => Err f | None => Ok false end)
  | msg :: msgs =>
      match import_message n msg r with
      | (r, Ok false) => import_messages (S n) msgs r
      | stop => stop
      end
  end.
End run.

(** How [run_import] ends for its caller. *)
Inductive import_exit := ImportDone | ImportTerminalStatusUnwritten | ImportValueError.

(** [_mark_terminal] *)
Fixpoint mark_terminal (ie : import_env) (job_id : Z) (status : job_status) (c : counters)
    (error_msg : option pystr) (attempt attempts : nat) (d : db) : db * import_exit :=
  match attempts with
  | O => (d, ImportTerminalStatusUnwritten)
  | S attempts =>
      match ie_terminal_error ie attempt with
      | Some _ => mark_terminal ie job_id status c error_msg (S attempt) attempts d
      | None => (Db (db_store d) (alter (finish_job status c error_msg (ie_now ie attempt)) job_id (db_jobs d)),
                 ImportDone)
      end
  end.

Definition failure_message (ie : import_env) (f : fault) : pystr :=
  match f with
  | Contention => lit "database contention; re-run the import (idempotent): " ++ ie_describe ie f
  | OtherError _ => ie_describe ie f
  end.

Definition no_counts : counters := Counters 0 0 0 0.

(** The body of [run_import]'s [try]: the run as it stopped. *)
Definition start_run (ie : import_env) (d : db) (js : jobs) : run :=
  Run (db_store d) (Db (db_store d) js) no_counts no_counts ∅ ∅ 0 (ie_clock ie O).
Definition run_job (ie : import_env) (d : db) (js : jobs) (job_id account_id checkpoint_every checkpoint_seconds : Z) :
    run * res fault bool :=
  match import_messages ie account_id job_id checkpoint_every checkpoint_seconds O (ie_source ie)
          (start_run ie d js) with
  | (r, Ok cancelled) =>
      match ie_fault ie AtEnd with
      | Some f => (r, Err f)
      | None => (Run (rn_store r) (Db (rn_store r) (db_jobs (rn_committed r))) (rn_c r) (rn_c r)
                   (rn_mailbox_ids r) (rn_uid_counters r) (rn_processed_at_last_checkpoint r)
                   (rn_last_checkpoint_at r), Ok cancelled)
      end
  | stop => stop
  end.

Definition run_import (ie : import_env) (d : db) (job_id : Z) (checkpoint_every checkpoint_seconds : Z)
    (terminal_write_attempts : nat) : db * import_exit :=
  match terminal_write_attempts with
  | O => (d, ImportValueError)
  | _ =>
    let mark status c msg := mark_terminal ie job_id status c msg 1 terminal_write_attempts in
    match ie_connect_error ie with
    | Some f => mark JobFailed no_counts (Some (ie_describe ie f)) d
    | None =>
      match ie_fault ie AtStart with
      | Some f => mark JobFailed no_counts (Some (failure_message ie f)) d
      | None =>
        match db_jobs d !! job_id, mark_running (ie_now ie O) job_id (db_jobs d) with
        | Some job, Some js =>
            match run_job ie d js job_id (ij_account_id job) checkpoint_every checkpoint_seconds with
            | (r, Ok cancelled) =>
                mark (if cancelled then JobCancelled else JobCompleted) (rn_c r) None (rn_committed r)
            | (r, Err f) => mark JobFailed (rn_committed_c r) (Some (failure_message ie f)) (rn_committed r)
            end
        | _, _ => (d, ImportDone)
        end
      end
    end
  end.
End Importer.
