(* ===== verification/ImporterFacts.v ===== *)
(** * What an import guarantees *)
From S2P Require Import Prelude PyStr MailStore FetchRetry Sync SyncFacts Importer.
Import Uids Sync Importer.

(** ** What an import leaves in place *)

(** Messages and labels stay, a poison pill keeps its id and its digest, a
    mailbox its account and name. *)
Record later (d d' : store) : Prop := {
  lt_grows : grows d d';
  lt_pills k f : failed_messages d !! k = Some f ->
    exists f', failed_messages d' !! k = Some f' /\ f_raw_sha256 f' = f_raw_sha256 f /\ f_id f' = f_id f;
  lt_mailboxes mb m : mailboxes d !! mb = Some m ->
    exists m', mailboxes d' !! mb = Some m' /\ mb_account m' = mb_account m /\ mb_name m' = mb_name m;
}.
#[global] Instance later_preorder : PreOrder later.
Proof.
  split.
  - intros d. split; [done | by eauto | by eauto].
  - intros d1 d2 d3 [G1 P1 M1] [G2 P2 M2]. split; [by etrans | |].
    + intros k f (f1 & Hf1 & E1 & I1)%P1. destruct (P2 _ _ Hf1) as (f2 & ? & E2 & I2).
      exists f2. by rewrite E2, E1, I2, I1.
    + intros mb m (m1 & Hm1 & A1 & N1)%M1. destruct (M2 _ _ Hm1) as (m2 & ? & A2 & N2).
      exists m2. by rewrite A2, A1, N2, N1.
Qed.
Lemma later_bookkeeping d d' : same_bookkeeping d d' -> grows d d' -> later d d'.
Proof. intros (_ & Hm & Hf & _) Hg. split; [done | rewrite Hf; eauto | rewrite Hm; eauto]. Qed.

(** The message at [i] of a source is accounted for: archived and linked to a
    mailbox of its name, recorded as a poison pill, or its pill could not be
    written. *)
Definition accounted (e : env) (account_id : Z) (i : nat) (msg : ImportedMessage) (d : store) : Prop :=
  exists mb m, mailboxes d !! mb = Some m /\ mb_account m = account_id /\ mb_name m = im_mailbox_name msg /\
    (archived e d account_id mb (im_raw msg) \/
     (exists uid f, failed_messages d !! (account_id, mb, uid) = Some f /\ f_raw_sha256 f = sha256 e (im_raw msg)) \/
     (exists c, lg_error (on_log e (Z.of_nat i)) = Some (OtherError c))).
Lemma accounted_later e a i msg d d' : later d d' -> accounted e a i msg d -> accounted e a i msg d'.
Proof.
  intros [G P M] (mb & m & Hm & Ha & Hn & Hc). destruct (M _ _ Hm) as (m' & Hm' & Ha' & Hn').
  exists mb, m'. split; [done |]. split; [congruence |]. split; [congruence |].
  destruct Hc as [Hc | [(uid & f & Hf & Hs) | Hc]]; [left; by eapply archived_grows | | by auto].
  right; left. destruct (P _ _ Hf) as (f' & ? & ? & _). exists uid, f'. split; congruence.
Qed.

(** The account holds a message with the key [raw] parses to. *)
Definition stored (e : env) (d : store) (account_id : Z) (raw : bytes) : Prop :=
  exists p i r, parse_message e raw = Ok p /\ messages d !! i = Some r /\
    dedup_match account_id (pm_message_id p) (pm_raw_sha256 p) r.
Lemma stored_later e d d' a raw : messages d ⊆ messages d' -> stored e d a raw -> stored e d' a raw.
Proof. intros Hg (p & i & r & ? & ? & ?). exists p, i, r. split_and!; [done | by eapply lookup_weaken | done]. Qed.
Lemma archived_stored e d a mb raw : archived e d a mb raw -> stored e d a raw.
Proof. intros (p & i & r & l & ? & ? & ? & _). by exists p, i, r. Qed.

(** A poison pill is written under a key that is free, or holds the same bytes' digest. *)
Lemma record_failed_later e lg d a mb uid raw exc d' :
  record_failed_message e lg d a mb uid raw exc = Ok d' ->
  (forall f, failed_messages d !! (a, mb, uid) = Some f -> f_raw_sha256 f = sha256 e raw) ->
  later d d' /\ ((exists c, lg_error lg = Some (OtherError c)) \/
    exists f, failed_messages d' !! (a, mb, uid) = Some f /\ f_raw_sha256 f = sha256 e raw).
Proof.
  unfold record_failed_message. destruct (lg_error lg) as [[| c] |]; [done | |].
  - intros [= <-] _. split; [done | left; by exists c].
  - intros [= <-] Hsame. cbn. split; [split; cbn; [by apply grows_same | | by eauto] |].
    + intros k f Hf. destruct (decide (k = (a, mb, uid))) as [-> | Hne].
      * rewrite lookup_insert_eq. eexists. split; [done |]. rewrite Hf. cbn. split; [by rewrite (Hsame f Hf) | done].
      * rewrite lookup_insert_ne by done. eauto.
    + right. rewrite lookup_insert_eq. eexists. split; [done |]. by destruct (failed_messages d !! _).
Qed.

Lemma failed_uid_some e d a mb raw uid : failed_uid e d a mb raw = Some uid ->
  exists f, failed_messages d !! (a, mb, uid) = Some f /\ f_raw_sha256 f = sha256 e raw.
Proof.
  unfold failed_uid. intros Hh. assert (Hin : uid ∈ merge_sort Z.le (map (fun kf => kf.1.2)
    (filter (pill_of e a mb raw) (map_to_list (failed_messages d))))).
  { destruct (merge_sort _ _); [done |]. injection Hh as ->. by left. }
  rewrite merge_sort_Permutation in Hin. apply list_elem_of_In, in_map_iff in Hin as ([[k u] f] & <- & Hin).
  apply list_elem_of_In, list_elem_of_filter in Hin as [[Hk Hs] Hin]. cbn in *. subst k.
  apply elem_of_map_to_list in Hin. by exists f.
Qed.

(** ** The run, message by message *)

(** The ids new mailboxes get are fresh. *)
Record serial (ie : import_env) (d : store) : Prop := {
  se_fresh name : mailboxes d !! ie_new_mailbox_id ie name = None;
  se_inj n1 n2 : ie_new_mailbox_id ie n1 = ie_new_mailbox_id ie n2 -> n1 = n2;
}.
(** One connection writes, and the unique indexes hold. *)
Definition quiet (ie : import_env) (d : store) : Prop :=
  (forall u, at_racing (on_process (ie_env ie) u) = ∅) /\ tables_ok d.

Definition rows_of (d : store) : Z := Z.of_nat (size (messages d)).

Section run.
Context (ie : import_env) (a job_id every secs : Z) (d0 : store) (Hser : serial ie d0).
Notation e := (ie_env ie).

(** What the counters [c] say of the store [d]. *)
Record told (c : counters) (d : store) : Prop := {
  td_later : later d0 d;
  td_counts : c_processed c = c_inserted c + c_skipped_dup c + c_failed c;
  td_bounds : 0 <= c_processed c <= Z.of_nat (length (ie_source ie)) /\ 0 <= c_failed c;
  td_accounted i msg : ie_source ie !! i = Some msg -> Z.of_nat i < c_processed c -> accounted e a i msg d;
  td_clean i msg : c_failed c = 0 -> ie_source ie !! i = Some msg -> Z.of_nat i < c_processed c ->
    stored e d a (im_raw msg);
  td_rows : quiet ie d0 -> tables_ok d /\ rows_of d = rows_of d0 + c_inserted c;
}.

Record folders_ok (r : run) : Prop := {
  fo_open name mb : rn_mailbox_ids r !! name = Some mb -> exists c m, rn_uid_counters r !! name = Some c /\
    mailboxes (rn_store r) !! mb = Some m /\ mb_account m = a /\ mb_name m = name /\
    (forall mid l, message_labels (rn_store r) !! (mid, mb) = Some l -> l_uid l <= c) /\
    (forall u f, failed_messages (rn_store r) !! (a, mb, u) = Some f -> u <= c);
  fo_known mb : is_Some (mailboxes (rn_store r) !! mb) ->
    is_Some (mailboxes d0 !! mb) \/ exists name, is_Some (rn_mailbox_ids r !! name) /\ mb = ie_new_mailbox_id ie name;
}.

Record run_ok (n : nat) (r : run) : Prop := {
  ro_told : told (rn_c r) (rn_store r);
  ro_committed : told (rn_committed_c r) (db_store (rn_committed r));
  ro_folders : folders_ok r;
  ro_processed : c_processed (rn_c r) = Z.of_nat n;
}.

Lemma told_later c d d' : later d d' -> (quiet ie d0 -> tables_ok d -> tables_ok d' /\ rows_of d' = rows_of d) ->
  told c d -> told c d'.
Proof.
  intros Hl Hq [T1 T2 T3 T4 T5 T6]. split; [by etrans | done | done | | |].
  - intros i msg ? ?. eapply accounted_later; [exact Hl | by apply T4].
  - intros i msg ? ? ?. eapply stored_later; [apply (lt_grows _ _ Hl) | by eapply T5].
  - intros Q. destruct (T6 Q) as [Hok Hrows]. destruct (Hq Q Hok) as [? ->]. done.
Qed.

(** Opening a folder. *)
Lemma upsert_mailbox_spec d name delim flags d' row :
  mailboxes d !! ie_new_mailbox_id ie name = None ->
  upsert_mailbox (ie_new_mailbox_id ie name) d a name delim flags = (d', row) ->
  later d d' /\ messages d' = messages d /\ message_labels d' = message_labels d /\
  failed_messages d' = failed_messages d /\
  (exists m, mailboxes d' !! mailbox_id row = Some m /\ mb_account m = a /\ mb_name m = name) /\
  (forall mb, is_Some (mailboxes d' !! mb) -> is_Some (mailboxes d !! mb) \/ mb = ie_new_mailbox_id ie name).
Proof.
  unfold upsert_mailbox. intros Hfresh. destruct (find_key _ _) as [i |] eqn:Ef.
  - apply find_key_some in Ef as (m & Hm & Ha & Hn). cbn [mbind option_bind]. rewrite Hm. cbn.
    intros [= <- <-]. cbn. split_and!; [split; cbn; [by apply grows_same | by eauto |] | done | done | done | |].
    + intros mb m' Hm'. destruct (decide (mb = i)) as [-> | Hne].
      * rewrite lookup_insert_eq. eexists. split; [done |]. cbn. split; congruence.
      * rewrite lookup_insert_ne by done. eauto.
    + rewrite lookup_insert_eq. eexists. split; [done |]. cbn. done.
    + intros mb [m' Hm']. apply lookup_insert_Some in Hm' as [[<- _] | [_ Hm']]; left; eauto.
  - cbn [mbind option_bind]. intros [= <- <-]. cbn.
    split_and!; [split; cbn; [by apply grows_same | by eauto |] | done | done | done | |].
    + intros mb m' Hm'. rewrite lookup_insert_ne by congruence. eauto.
    + rewrite lookup_insert_eq. by eexists.
    + intros mb [m' Hm']. apply lookup_insert_Some in Hm' as [[<- _] | [_ Hm']]; [by right | left; eauto].
Qed.

Lemma open_mailbox_ok n name r r' :
  open_mailbox ie a n name r = Ok r' -> run_ok n r -> run_ok n r' /\ is_Some (rn_mailbox_ids r' !! name).
Proof.
  unfold open_mailbox. intros Ho [T C F P]. destruct (rn_mailbox_ids r !! name) eqn:En; [injection Ho as <-; by rewrite En |].
  destruct (raise_at _ _) as [[] |]; [| done].
  destruct (upsert_mailbox _ _ _ _ _ _) as [d mb] eqn:Eu. injection Ho as <-.
  assert (Hfresh : mailboxes (rn_store r) !! ie_new_mailbox_id ie name = None).
  { apply eq_None_not_Some. intros [[m Hm] | (name' & [x Hx] & Hid)]%(fo_known _ F).
    - by rewrite (se_fresh _ _ Hser) in Hm.
    - apply (se_inj _ _ Hser) in Hid as <-. congruence. }
  destruct (upsert_mailbox_spec _ _ _ _ _ _ Hfresh Eu) as (Hl & Hms & Hls & Hfs & (m & Hm & Ha & Hn) & Hdom).
  assert (Ht : told (rn_c r) d).
  { eapply told_later; [exact Hl | | exact T]. intros _ Hok. unfold tables_ok, rows_of in *. by rewrite Hms, Hls. }
  split; [| cbn; rewrite lookup_insert_eq; eauto]. split; cbn; [done | done | | done]. split; cbn.
  - intros name' mb' [[-> <-] | [Hne Hid]]%lookup_insert_Some.
    + rewrite lookup_insert_eq. eexists _, m. split; [done |]. split_and!; [done.. | |].
      * intros mid l Hlab%label_uid_le_max. unfold max_reserved_uid. lia.
      * intros u f Hf. by eapply failed_uid_le_max.
    + destruct (fo_open _ F _ _ Hid) as (c & m0 & Hc & Hm0 & Ha0 & Hn0 & Hlab & Hpill).
      rewrite lookup_insert_ne by done. destruct (lt_mailboxes _ _ Hl _ _ Hm0) as (m' & Hm' & Ha' & Hn').
      exists c, m'. rewrite Hls, Hfs. split_and!; [done | done | congruence | congruence | done | done].
  - intros mb' [Hold | ->]%Hdom.
    + destruct (fo_known _ F _ Hold) as [? | (name' & Hs & ->)]; [by left |]. right. exists name'. split; [| done].
      destruct (decide (name' = name)) as [-> |]; [rewrite lookup_insert_eq; eauto | by rewrite lookup_insert_ne].
    + right. exists name. rewrite lookup_insert_eq. eauto.
Qed.

(** Importing one message. *)
Lemma process_labels at_ d mb uid raw fl idate d' i ins :
  process_one_message e at_ d a mb uid raw fl idate = Ok (d', (i, ins)) ->
  message_labels d' = <[(i, mb) := LabelRow uid fl]> (message_labels d).
Proof.
  unfold process_one_message. intros Hp. destruct (parse_message e raw) as [p |]; [| done].
  destruct (at_error at_); [done |].
  destruct (upsert_message at_ d a p idate) as [[d1 [i1 ins1]] |] eqn:Eu; [| done].
  destruct (upsert_label d1 i1 mb uid fl) as [d2 |] eqn:El; [| done].
  apply upsert_label_ok in El as [-> _]. destruct (upsert_message_frame _ _ _ _ _ _ _ _ Eu) as (_ & _ & Hls & _).
  destruct (ins1 && _); [destruct (write_attachments e p); [| done] |]; injection Hp as <- <- _; cbn; by rewrite Hls.
Qed.

Lemma told_count c d d' n msg ins sk fl :
  told c d -> later d d' -> c_processed c = Z.of_nat n -> ie_source ie !! n = Some msg ->
  accounted e a n msg d' -> 0 <= fl -> ins + sk + fl = 1 -> (fl = 0 -> stored e d' a (im_raw msg)) ->
  (quiet ie d0 -> tables_ok d -> tables_ok d' /\ rows_of d' = rows_of d + ins) -> told (count c ins sk fl) d'.
Proof.
  intros [T1 T2 T3 T4 T5 T6] Hl Hp Hn Hacc Hfl Hsum Hst Hrows. pose proof (lookup_lt_Some _ _ _ Hn) as Hlt.
  split; cbn; [by etrans | lia | lia | | |].
  - intros i m Hi Hlt'. destruct (decide (i = n)) as [-> | Hne]; [by rewrite Hn in Hi; injection Hi as <- |].
    eapply accounted_later; [exact Hl | apply T4; [done | lia]].
  - intros i m Hz Hi Hlt'. destruct (decide (i = n)) as [-> | Hne].
    + rewrite Hn in Hi. injection Hi as <-. apply Hst. lia.
    + eapply stored_later; [apply (lt_grows _ _ Hl) | apply (T5 i m); [lia | done | lia]].
  - intros Q. destruct (T6 Q) as [Hok Hr]. destruct (Hrows Q Hok) as [? ->]. split; [done | lia].
Qed.

(** The numbering of one folder moves on; the others keep theirs. *)
Lemma folders_next r d name mb c r' :
  folders_ok r -> rn_mailbox_ids r !! name = Some mb -> rn_uid_counters r !! name = Some c ->
  rn_store r' = d -> rn_mailbox_ids r' = rn_mailbox_ids r ->
  rn_uid_counters r' = <[name := c + 1]> (rn_uid_counters r) -> mailboxes d = mailboxes (rn_store r) ->
  (forall mid m l, message_labels d !! (mid, m) = Some l ->
     message_labels (rn_store r) !! (mid, m) = Some l \/ m = mb /\ l_uid l = c + 1) ->
  (forall m u f, failed_messages d !! (a, m, u) = Some f ->
     is_Some (failed_messages (rn_store r) !! (a, m, u)) \/ m = mb /\ u <= c + 1) ->
  folders_ok r'.
Proof.
  intros F Hid Hc Hd Hids Huids Hmbs Hlabs Hpills. destruct (fo_open _ F _ _ Hid) as (c0 & m & Hc0 & Hm & _ & Hn & _).
  split; rewrite Hd, Hids, ?Hmbs; [| apply F]. intros name' mb' Hid'.
  destruct (fo_open _ F _ _ Hid') as (c' & m' & Hc' & Hm' & Ha' & Hn' & Hlab & Hpill). rewrite Huids.
  assert (Hcase : (name' = name /\ mb' = mb /\ c' = c) \/ (name' <> name /\ mb' <> mb)).
  { destruct (decide (name' = name)) as [-> | Hne]; [left; split_and!; congruence | right; split; [done |]].
    intros ->. rewrite Hm in Hm'. injection Hm' as <-. congruence. }
  destruct Hcase as [(-> & -> & ->) | [Hne Hnb]].
  - exists (c + 1), m'. rewrite lookup_insert_eq. split_and!; [done.. | |].
    + intros mid l [Hl | [_ ->]]%Hlabs; [| done]. pose proof (Hlab _ _ Hl). lia.
    + intros u f [[f' Hf] | [_ Hu]]%Hpills; [| done]. pose proof (Hpill _ _ Hf). lia.
  - exists c', m'. rewrite lookup_insert_ne by done. split_and!; [done.. | |].
    + intros mid l [Hl | [-> _]]%Hlabs; [by eapply Hlab | done].
    + intros u f [[f' Hf] | [-> _]]%Hpills; [by eapply Hpill | done].
Qed.

Lemma import_one_ok n msg r r' :
  import_one ie a n msg r = Ok r' -> run_ok n r -> is_Some (rn_mailbox_ids r !! im_mailbox_name msg) ->
  ie_source ie !! n = Some msg -> run_ok (S n) r'.
Proof.
  intros Hi [T C F P] [mb Hmb] Hn. destruct (fo_open _ F _ _ Hmb) as (c & m & Hc & Hm & Ha & Hnm & Hlab & Hpill).
  unfold import_one in Hi. rewrite Hmb, Hc in Hi. cbn [default from_option id] in Hi.
  destruct (process_one_message _ _ _ _ _ _ _ _ _) as [[d [i ins]] | [| cls]] eqn:Ep; [| done |].
  - injection Hi as <-. pose proof (process_labels _ _ _ _ _ _ _ _ _ _ Ep) as Hls.
    assert (Hrows : quiet ie d0 -> tables_ok (rn_store r) -> tables_ok d /\ rows_of d = rows_of (rn_store r) + (if ins then 1 else 0)).
    { intros [Hrace _] Hok. by eapply process_tables_ok. }
    apply process_spec in Ep as (Hb & Hg & Harch & _).
    assert (Hacc : accounted e a n msg d).
    { exists mb, m. destruct Hb as (_ & -> & _). auto. }
    split; cbn; [| done | | destruct ins; cbn; lia].
    + destruct ins; (eapply told_count; [exact T | by apply later_bookkeeping | done | done | done | lia | lia | |]);
        try done; intros _; by eapply archived_stored.
    + eapply (folders_next r d); try done; [apply Hb | |].
      * intros mid m' l. rewrite Hls. intros [[[= <- <-] <-] | [_ Hl]]%lookup_insert_Some; [by right | by left].
      * destruct Hb as (_ & _ & -> & _). intros m' u f Hf. left. eauto.
  - set (dr := rollback _ _) in Hi. destruct (raise_at _ _) as [[] |]; [| done].
    set (uid := default _ (failed_uid _ _ _ _ _)) in Hi.
    destruct (record_failed_message _ _ _ _ _ _ _ _) as [d |] eqn:Er; [| done]. injection Hi as <-.
    destruct (rollback_frame (on_process e (Z.of_nat n)) (rn_store r)) as [Hb Hg]. fold dr in Hb, Hg.
    assert (Hdr : dr = rollback (on_process e (Z.of_nat n)) (rn_store r)) by done. clearbody dr.
    destruct Hb as (Hb1 & Hmbs & Hfs & Hb4).
    assert (Huid : uid <= c + 1 /\ forall f, failed_messages dr !! (a, mb, uid) = Some f -> f_raw_sha256 f = sha256 e (im_raw msg)).
    { unfold uid. destruct (failed_uid _ _ _ _ _) as [u |] eqn:Eu; cbn [from_option id].
      - destruct (failed_uid_some _ _ _ _ _ _ Eu) as (f & Hf & Hs). rewrite Hf. split.
        + rewrite Hfs in Hf. pose proof (Hpill _ _ Hf). lia.
        + intros f' [= <-]. done.
      - split; [lia |]. intros f Hf. rewrite Hfs in Hf. pose proof (Hpill _ _ Hf). lia. }
    destruct Huid as [Hle Hsame].
    destruct (record_failed_later _ _ _ _ _ _ _ _ _ Er Hsame) as [Hl Hrec].
    pose proof (record_failed_spec _ _ _ _ _ _ _ _ _ Er) as (_ & Hmb' & Hms' & Hls' & _ & Hothers & _).
    assert (Hl0 : later (rn_store r) d) by (etrans; [apply later_bookkeeping; [| exact Hg] | exact Hl]; done).
    assert (Hacc : accounted e a n msg d).
    { exists mb, m. split; [by rewrite Hmb', Hmbs |]. split_and!; [done.. |].
      destruct Hrec as [? | Hrec]; [by right; right | right; left; by exists uid]. }
    split; cbn; [| done | | lia].
    + eapply told_count; [exact T | exact Hl0 | done | done | done | lia | lia | lia |].
      intros [Hrace _] [Hok1 Hok2]. unfold tables_ok, rows_of. rewrite Hms', Hls', Hdr. cbn.
      rewrite Hrace, map_union_empty. split; [done | lia].
    + eapply (folders_next r d); try done; [by rewrite Hmb', Hmbs | |].
      * rewrite Hls', Hdr. intros mid m' l Hlb. by left.
      * intros m' u f Hf. destruct (decide ((a, m', u) = (a, mb, uid))) as [[= -> ->] | Hne]; [by right |].
        left. rewrite (Hothers _ Hne), Hfs in Hf. eauto.
Qed.

Definition status_of (js : jobs) : option job_status := ij_status <$> js !! job_id.
Notation job_kept r r' := (status_of (db_jobs (rn_committed r')) = status_of (db_jobs (rn_committed r))).

Lemma open_mailbox_jobs n name r r' : open_mailbox ie a n name r = Ok r' ->
  db_jobs (rn_committed r') = db_jobs (rn_committed r).
Proof.
  unfold open_mailbox. destruct (_ !! name); [by intros [= <-] |]. destruct (raise_at _ _); [| done].
  destruct (upsert_mailbox _ _ _ _ _ _). by intros [= <-].
Qed.
Lemma import_one_jobs n msg r r' : import_one ie a n msg r = Ok r' -> rn_committed r' = rn_committed r.
Proof.
  unfold import_one. destruct (process_one_message _ _ _ _ _ _ _ _ _) as [[d [i ins]] | [| cls]]; [by intros [= <-] | done |].
  destruct (raise_at _ _); [| done]. destruct (record_failed_message _ _ _ _ _ _ _ _); [| done]. by intros [= <-].
Qed.
Lemma checkpoint_ok n m r r' x : checkpoint ie job_id every secs n r = (r', x) -> run_ok m r ->
  run_ok m r' /\ job_kept r r'.
Proof.
  unfold checkpoint. destruct (should_checkpoint _ _ _ _ _); [| by intros [= <- <-]].
  destruct (ie_fault ie (AtFlush n)); [by intros [= <- <-] |]. intros [= <- <-] [T C F P].
  split; [split; [done | done | split; apply F | done] |]. cbn [rn_committed db_jobs]. unfold status_of, flush. rewrite lookup_alter_eq.
  by destruct (db_jobs (rn_committed r) !! job_id).
Qed.
Lemma import_message_ok n msg r r' x : import_message ie a job_id every secs n msg r = (r', x) ->
  run_ok n r -> ie_source ie !! n = Some msg ->
  job_kept r r' /\ (run_ok (S n) r' \/ run_ok n r' /\ is_ok x = false).
Proof.
  unfold import_message. intros Hi Hr Hn. destruct (open_mailbox _ _ _ _ _) as [r1 | f] eqn:Eo;
    [| injection Hi as <- <-; split; [done | by right]].
  destruct (open_mailbox_ok _ _ _ _ Eo Hr) as [Hr1 Hs]. apply open_mailbox_jobs in Eo.
  destruct (import_one _ _ _ _ _) as [r2 | f] eqn:Ei; [| injection Hi as <- <-; rewrite Eo; split; [done | by right]].
  pose proof (import_one_ok _ _ _ _ Ei Hr1 Hs Hn) as Hr2. apply import_one_jobs in Ei.
  destruct (checkpoint_ok _ _ _ _ _ Hi Hr2) as [Hr3 Hk]. rewrite Hk, Ei, Eo. split; [done | by left].
Qed.
Lemma import_messages_ok msgs : forall n r r' x,
  import_messages ie a job_id every secs n msgs r = (r', x) -> run_ok n r -> drop n (ie_source ie) = msgs ->
  job_kept r r' /\ exists m, run_ok m r' /\ (x = Ok false -> m = length (ie_source ie)).
Proof.
  induction msgs as [| msg msgs IH]; intros n r r' x; cbn [import_messages].
  - intros [= <- <-] Hr Hd. split; [done |]. exists n. split; [done |]. intros _.
    apply (f_equal length) in Hd. rewrite length_drop in Hd. cbn in Hd. pose proof (ro_processed _ _ Hr) as Hp.
    pose proof (td_bounds _ _ (ro_told _ _ Hr)). lia.
  - intros Hi Hr Hd. destruct (import_message _ _ _ _ _ _ _ _) as [r1 x1] eqn:Em.
    assert (Hn : ie_source ie !! n = Some msg) by (by rewrite <- (Nat.add_0_r n), <- lookup_drop, Hd).
    destruct (import_message_ok _ _ _ _ _ Em Hr Hn) as [Hk Hr1].
    destruct x1 as [[] | f].
    + injection Hi as <- <-. split; [done |]. destruct Hr1 as [? | [_ [=]]]. by exists (S n).
    + destruct Hr1 as [Hr1 | [_ [=]]]. destruct (IH _ _ _ _ Hi Hr1) as [Hk' Hm].
      { rewrite (drop_S _ _ _ Hn) in Hd. congruence. }
      split; [congruence | done].
    + injection Hi as <- <-. split; [done |]. destruct Hr1 as [? | [? _]]; eexists; (split; [eassumption | done]).
Qed.
End run.

(** The row [run_import] leaves behind, when the job was waiting to run. *)
Lemma mark_terminal_spec ie job_id status c msg attempts : forall attempt d d' x j,
  mark_terminal ie job_id status c msg attempt attempts d = (d', x) -> db_jobs d !! job_id = Some j ->
  db_store d' = db_store d /\
  (x = ImportDone /\ (exists now, db_jobs d' !! job_id = Some (finish_job status c msg now j)) \/
   x = ImportTerminalStatusUnwritten /\ d' = d).
Proof.
  induction attempts as [| n IH]; intros attempt d d' x j; cbn [mark_terminal].
  - intros [= <- <-] _. split; [done | by right].
  - destruct (ie_terminal_error ie attempt); [apply IH |]. intros [= <- <-] Hj. cbn. split; [done |]. left.
    split; [done |]. rewrite lookup_alter_eq, Hj. by eexists.
Qed.

Lemma start_told ie a d : told ie a d no_counts d.
Proof.
  split; unfold no_counts; cbn [c_processed c_inserted c_skipped_dup c_failed]; try done; try lia.
  intros [_ Q]. split; [done | lia].
Qed.

Lemma run_job_ok ie d js job_id a every secs r x :
  run_job ie d js job_id a every secs = (r, x) -> serial ie (db_store d) ->
  told ie a (db_store d) (rn_committed_c r) (db_store (rn_committed r)) /\
  status_of job_id (db_jobs (rn_committed r)) = status_of job_id js /\
  forall cancelled, x = Ok cancelled ->
    told ie a (db_store d) (rn_c r) (db_store (rn_committed r)) /\
    (cancelled = false -> c_processed (rn_c r) = Z.of_nat (length (ie_source ie))).
Proof.
  unfold run_job. intros Hr Hs. destruct (import_messages _ _ _ _ _ _ _ _) as [r1 x1] eqn:Em.
  assert (H0 : run_ok ie a (db_store d) O (start_run ie d js)).
  { split; [apply start_told | apply start_told | | done]. split; cbn; [by intros name mb | by left]. }
  destruct (import_messages_ok ie a job_id every secs (db_store d) Hs _ _ _ _ _ Em H0 eq_refl) as (Hk & m & Hm & Hlen).
  pose proof (ro_told _ _ _ _ _ Hm) as Ht. pose proof (ro_committed _ _ _ _ _ Hm) as Hc.
  pose proof (ro_processed _ _ _ _ _ Hm) as Hp.
  destruct x1 as [cancelled | f]; [| injection Hr as <- <-; by split_and!].
  destruct (ie_fault ie AtEnd); injection Hr as <- <-; [by split_and! |]. cbn. split_and!; [done | done |].
  intros c [= <-]. split; [done |]. intros ->. rewrite Hp. by rewrite Hlen.
Qed.

(** C20: the row of an import tells the truth.  When a run of a waiting job
    writes its outcome, the counters it writes add up, cover the part of the
    source they say, all of it when the job is [completed], and describe what is
    committed: every message counted as processed is archived and linked to a
    mailbox of its name, or recorded as a poison pill, unless the pill itself
    could not be written; with no other writer, [inserted] is the number of
    messages the archive grew by.  A run that cannot write its outcome leaves the
    row active.  However it ends, nothing the archive held is lost. *)
Theorem import_row_is_truthful ie d job_id job every secs attempts d' x :
  serial ie (db_store d) -> (0 < attempts)%nat ->
  db_jobs d !! job_id = Some job -> ij_status job = JobPending ->
  run_import ie d job_id every secs attempts = (d', x) ->
  later (db_store d) (db_store d') /\
  exists job', db_jobs d' !! job_id = Some job' /\
    match x with
    | ImportDone =>
        let c := ij_counters job' in
        is_terminal (ij_status job') = true /\
        c_processed c = c_inserted c + c_skipped_dup c + c_failed c /\
        0 <= c_processed c <= Z.of_nat (length (ie_source ie)) /\
        (ij_status job' = JobCompleted -> c_processed c = Z.of_nat (length (ie_source ie))) /\
        (forall i msg, ie_source ie !! i = Some msg -> Z.of_nat i < c_processed c ->
           accounted (ie_env ie) (ij_account_id job) i msg (db_store d')) /\
        (quiet ie (db_store d) -> rows_of (db_store d') = rows_of (db_store d) + c_inserted c)
    | _ => x = ImportTerminalStatusUnwritten /\ is_active (ij_status job') = true
    end.
Proof.
  intros Hser Hatt Hj Hpend Hrun. unfold run_import in Hrun. destruct attempts as [| attempts]; [lia |].
  set (a := ij_account_id job).
  (* one outcome, written over what is committed *)
  assert (Hmark : forall status c msg dc j, mark_terminal ie job_id status c msg 1 (S attempts) dc = (d', x) ->
    db_jobs dc !! job_id = Some j -> is_active (ij_status j) = true -> is_terminal status = true ->
    told ie a (db_store d) c (db_store dc) ->
    (status = JobCompleted -> c_processed c = Z.of_nat (length (ie_source ie))) ->
    later (db_store d) (db_store d') /\ exists job', db_jobs d' !! job_id = Some job' /\
    match x with
    | ImportDone =>
        let c := ij_counters job' in
        is_terminal (ij_status job') = true /\
        c_processed c = c_inserted c + c_skipped_dup c + c_failed c /\
        0 <= c_processed c <= Z.of_nat (length (ie_source ie)) /\
        (ij_status job' = JobCompleted -> c_processed c = Z.of_nat (length (ie_source ie))) /\
        (forall i msg, ie_source ie !! i = Some msg -> Z.of_nat i < c_processed c ->
           accounted (ie_env ie) a i msg (db_store d')) /\
        (quiet ie (db_store d) -> rows_of (db_store d') = rows_of (db_store d) + c_inserted c)
    | _ => x = ImportTerminalStatusUnwritten /\ is_active (ij_status job') = true
    end).
  { intros status c msg dc j Hm Hdc Hact Hterm T Hdone.
    destruct (mark_terminal_spec _ _ _ _ _ _ _ _ _ _ _ Hm Hdc) as [Hst [[-> [now Hnow]] | [-> ->]]].
    - rewrite Hst. split; [apply T |]. eexists. split; [exact Hnow |]. cbn. split_and!; try apply T; try done.
    - split; [apply T |]. by exists j. }
  pose proof (start_told ie a (db_store d)) as T0.
  destruct (ie_connect_error ie).
  { eapply Hmark; [exact Hrun | exact Hj | by rewrite Hpend | done | exact T0 | done]. }
  destruct (ie_fault ie AtStart).
  { eapply Hmark; [exact Hrun | exact Hj | by rewrite Hpend | done | exact T0 | done]. }
  rewrite Hj in Hrun. unfold mark_running in Hrun. rewrite Hj, Hpend in Hrun.
  destruct (run_job _ _ _ _ _ _ _) as [r y] eqn:Er.
  destruct (run_job_ok _ _ _ _ _ _ _ _ _ Er Hser) as (Tc & Hst & Hok).
  unfold status_of in Hst. rewrite lookup_insert_eq in Hst. cbn in Hst.
  apply fmap_Some in Hst as (j & Hj' & Hjs).
  destruct y as [cancelled | f].
  - destruct (Hok cancelled eq_refl) as [Tr Hall].
    eapply Hmark; [exact Hrun | exact Hj' | by rewrite <- Hjs | by destruct cancelled | exact Tr |].
    destruct cancelled; [done | intros _; by apply Hall].
  - eapply Hmark; [exact Hrun | exact Hj' | by rewrite <- Hjs | done | exact Tc | done].
Qed.

(** ** Importing again *)
Section again.
Context (ie : import_env) (a job_id every secs : Z) (d0 : store).
Context (Hrace : forall u, at_racing (on_process (ie_env ie) u) = ∅).
Context (Hall : forall msg, msg ∈ ie_source ie -> stored (ie_env ie) d0 a (im_raw msg)).

Lemma process_stored at_ d mb uid raw fl idate d' i ins :
  messages d = messages d0 -> stored (ie_env ie) d0 a raw ->
  process_one_message (ie_env ie) at_ d a mb uid raw fl idate = Ok (d', (i, ins)) -> messages d' = messages d0.
Proof.
  intros Hm (p & j & r & Hp & Hr & Hd). unfold process_one_message. rewrite Hp.
  destruct (at_error at_); [done |]. unfold upsert_message, existing_message_id. rewrite Hm.
  destruct (find_key _ _) as [k |] eqn:Ek; [| by eapply find_key_none in Ek].
  destruct (upsert_label _ _ _ _ _) as [d2 |] eqn:El; [| done]. cbn [andb]. intros [= <- _ _].
  by apply upsert_label_ok in El as [-> _].
Qed.

Definition unchanged (r : run) : Prop :=
  messages (rn_store r) = messages d0 /\ messages (db_store (rn_committed r)) = messages d0.
Lemma open_mailbox_unchanged n name r r' : open_mailbox ie a n name r = Ok r' -> unchanged r -> unchanged r'.
Proof.
  unfold open_mailbox. intros Ho [U1 U2]. destruct (_ !! name); [by injection Ho as <- |].
  destruct (raise_at _ _); [| done]. unfold upsert_mailbox in Ho.
  by destruct (find_key _ _ ≫= _) as [[k m] |]; injection Ho as <-.
Qed.
Lemma import_one_unchanged n msg r r' :
  import_one ie a n msg r = Ok r' -> msg ∈ ie_source ie -> unchanged r -> unchanged r'.
Proof.
  unfold import_one. intros Hi Hin [U1 U2].
  destruct (process_one_message _ _ _ _ _ _ _ _ _) as [[d [k ins]] | [| cls]] eqn:Ep; [| done |].
  - injection Hi as <-. split; [| done]. cbn. eapply process_stored; [exact U1 | by apply Hall | exact Ep].
  - destruct (raise_at _ _); [| done]. destruct (record_failed_message _ _ _ _ _ _ _ _) as [d |] eqn:Er; [| done].
    injection Hi as <-. split; [| done]. cbn. apply record_failed_spec in Er as (_ & _ & -> & _).
    unfold rollback. cbn. by rewrite Hrace, map_union_empty.
Qed.
Lemma checkpoint_unchanged n r r' x :
  checkpoint ie job_id every secs n r = (r', x) -> unchanged r -> unchanged r'.
Proof.
  unfold checkpoint. destruct (should_checkpoint _ _ _ _ _); [| by intros [= <- _]].
  destruct (ie_fault ie (AtFlush n)); [by intros [= <- _] |]. by intros [= <- _] [U1 U2].
Qed.
Lemma import_messages_unchanged msgs : forall n r r' x,
  import_messages ie a job_id every secs n msgs r = (r', x) -> (forall m, m ∈ msgs -> m ∈ ie_source ie) ->
  unchanged r -> unchanged r'.
Proof.
  induction msgs as [| msg msgs IH]; intros n r r' x; cbn [import_messages]; [by intros [= <- _] |].
  intros Hi Hin U. unfold import_message in Hi. destruct (open_mailbox _ _ _ _ _) as [r1 |] eqn:Eo;
    [| by injection Hi as <- _]. apply open_mailbox_unchanged in Eo; [| done].
  destruct (import_one _ _ _ _ _) as [r2 |] eqn:Ei; [| by injection Hi as <- _].
  apply import_one_unchanged in Ei; [| apply Hin; by left | done].
  destruct (checkpoint _ _ _ _ _ _) as [r3 x3] eqn:Ec. apply checkpoint_unchanged in Ec; [| done].
  destruct x3 as [[] |]; [by injection Hi as <- _ | | by injection Hi as <- _].
  eapply IH; [exact Hi | intros m Hm; apply Hin; by right | done].
Qed.
End again.

Lemma run_import_unchanged ie d job_id every secs attempts d' x :
  (forall u, at_racing (on_process (ie_env ie) u) = ∅) ->
  (forall job msg, db_jobs d !! job_id = Some job -> msg ∈ ie_source ie ->
     stored (ie_env ie) (db_store d) (ij_account_id job) (im_raw msg)) ->
  run_import ie d job_id every secs attempts = (d', x) -> messages (db_store d') = messages (db_store d).
Proof.
  intros Hrace Hall. unfold run_import. destruct attempts as [| n]; [by intros [= <- _] |].
  assert (Hmark : forall status c msg dc, mark_terminal ie job_id status c msg 1 (S n) dc = (d', x) ->
    messages (db_store dc) = messages (db_store d) -> messages (db_store d') = messages (db_store d)).
  { intros status c msg. generalize 1%nat (S n). intros k m. revert k. induction m as [| m IH]; intros k dc; cbn.
    - by intros [= <- _].
    - destruct (ie_terminal_error ie k); [apply IH |]. by intros [= <- _]. }
  destruct (ie_connect_error ie); [by intros Hm; eapply Hmark |].
  destruct (ie_fault ie AtStart); [by intros Hm; eapply Hmark |].
  destruct (db_jobs d !! job_id) as [job |] eqn:Ej; [| by intros [= <- _]].
  destruct (mark_running _ _ _) as [js |]; [| by intros [= <- _]].
  unfold run_job. destruct (import_messages _ _ _ _ _ _ _ _) as [r y] eqn:Em.
  destruct (import_messages_unchanged ie (ij_account_id job) job_id every secs (db_store d) Hrace
    (fun msg => Hall job msg eq_refl) _ _ _ _ _ Em) as [U1 U2]; [done | done |].
  destruct y as [cancelled | f]; [destruct (ie_fault ie AtEnd) |]; intros Hm; by eapply Hmark.
Qed.

(** Importing the same source again adds nothing.  After a [completed] run
    without poison pills, whatever happened to the archive in between, a second
    run over the same messages stores no message anew and changes none, however
    it ends. *)
Lemma reimport_adds_nothing ie1 d1 job1 row1 every1 secs1 attempts1 d1' row1' ie2 d2 job2 every2 secs2 attempts2 d2' x :
  serial ie1 (db_store d1) -> db_jobs d1 !! job1 = Some row1 -> ij_status row1 = JobPending ->
  run_import ie1 d1 job1 every1 secs1 attempts1 = (d1', ImportDone) ->
  db_jobs d1' !! job1 = Some row1' -> ij_status row1' = JobCompleted -> c_failed (ij_counters row1') = 0 ->
  later (db_store d1') (db_store d2) ->
  ie_source ie2 = ie_source ie1 -> parse_message (ie_env ie2) = parse_message (ie_env ie1) ->
  (forall u, at_racing (on_process (ie_env ie2) u) = ∅) ->
  (forall row2, db_jobs d2 !! job2 = Some row2 -> ij_account_id row2 = ij_account_id row1) ->
  run_import ie2 d2 job2 every2 secs2 attempts2 = (d2', x) ->
  messages (db_store d2') = messages (db_store d2).
Proof.
  intros Hser Hj Hpend Hrun1 Hj' Hdone Hclean Hl Hsrc Hparse Hrace Hacct. apply run_import_unchanged; [done |].
  intros row2 msg Hrow2 Hmsg. rewrite (Hacct row2 Hrow2). rewrite Hsrc in Hmsg.
  assert (Hst : stored (ie_env ie1) (db_store d1') (ij_account_id row1) (im_raw msg)).
  { unfold run_import in Hrun1. destruct attempts1 as [| n]; [done |].
    assert (Hfail : forall c msg dc, mark_terminal ie1 job1 JobFailed c msg 1 (S n) dc = (d1', ImportDone) ->
      is_Some (db_jobs dc !! job1) -> False).
    { intros c m dc Hm [j Hdc]. destruct (mark_terminal_spec _ _ _ _ _ _ _ _ _ _ _ Hm Hdc) as [_ [[_ [now Hn]] | [? _]]];
        [| done]. rewrite Hj' in Hn. injection Hn as ->. done. }
    destruct (ie_connect_error ie1); [exfalso; eapply Hfail; [exact Hrun1 | eauto] |].
    destruct (ie_fault ie1 AtStart); [exfalso; eapply Hfail; [exact Hrun1 | eauto] |].
    rewrite Hj in Hrun1. unfold mark_running in Hrun1. rewrite Hj, Hpend in Hrun1.
    destruct (run_job _ _ _ _ _ _ _) as [r y] eqn:Er.
    destruct (run_job_ok _ _ _ _ _ _ _ _ _ Er Hser) as (Tc & Hst & Hok).
    unfold status_of in Hst. rewrite lookup_insert_eq in Hst. cbn in Hst.
    apply fmap_Some in Hst as (j & Hjr & _).
    destruct y as [cancelled | f]; [| exfalso; eapply Hfail; [exact Hrun1 | eauto]].
    destruct (Hok cancelled eq_refl) as [Tr Hfull].
    destruct (mark_terminal_spec _ _ _ _ _ _ _ _ _ _ _ Hrun1 Hjr) as [Hs [[_ [now Hn]] | [? _]]]; [| done].
    rewrite Hj' in Hn. injection Hn as ->. cbn in Hdone, Hclean. destruct cancelled; [done |].
    rewrite Hs. apply list_elem_of_lookup in Hmsg as [i Hi].
    apply (td_clean _ _ _ _ _ Tr i msg Hclean Hi). rewrite (Hfull eq_refl).
    apply lookup_lt_Some in Hi. lia. }
  destruct Hst as (p & i & r & Hp & Hr & Hd). exists p, i, r. rewrite Hparse. split_and!; [done | | done].
  eapply lookup_weaken; [exact Hr | apply (lt_grows _ _ Hl)].
Qed.

(** ** A run: two folders, a duplicate and a poison pill; then the clean part again *)
Module Example_import.
Definition parse (raw : bytes) : res fault ParsedMessage :=
  match raw with [9] => Err (OtherError (lit "ValueError")) | _ => SyncFacts.Example_server.parse raw end.
Definition base : env := SyncFacts.Example_server.server 1 1 [] (fun _ => []) 5.
Definition sample_env (first_id : Z) : env := {|
  parse_message := parse; write_attachments := write_attachments base; sha256 := sha256 base;
  select_folder := select_folder base; search_all := search_all base; search_from := search_from base;
  search_one := search_one base; fetch_error := fetch_error base; fetch_data := fetch_data base;
  db_now := 5; tx_now := tx_now base; wall_now := 5;
  on_process := fun n => Attempt (first_id + n) ∅ None; on_log := on_log base;
  hold_statement_fails := hold_statement_fails base; gave_up_statement_fails := gave_up_statement_fails base;
|}.
Definition importing (first_id : Z) (source : list ImportedMessage) : import_env :=
  ImportEnv (sample_env first_id) None (fun _ => None) source None (fun name => Z.pos (encode name))
    Z.of_nat (fun _ => 7) (fun _ => false) (fun _ => lit "error") (fun n => if (n <=? 1)%nat then Some Contention else None).
Definition source : list ImportedMessage :=
  [Imported (lit "in") [1] None; Imported (lit "in") [2] None; Imported (lit "old") [1] None].
Definition waiting (account : Z) : import_job :=
  ImportJob account (lit "mbox") (lit "/a.mbox") JobPending no_counts None false None None None
    (Some (lit "host")) (Some 77).
Definition empty_store : store := Store {[ 1 := AccountRow (lit "arch") ARCHIVE_AUTH_METHOD ]} ∅ ∅ ∅ ∅ ∅.
Definition sample_db : db := Db empty_store {[ 4 := waiting 1; 5 := waiting 1 ]}.
Definition with_pill := importing 100 (source ++ [Imported (lit "in") [9] None]).
Definition clean := importing 100 source.

Lemma sample_serial ids s : serial (importing ids s) empty_store.
Proof. split; [done |]. cbn. by intros n1 n2 [= Hid%(inj encode)]. Qed.

Definition outcome (r : db * import_exit) (id : Z) : option (job_status * counters) * import_exit :=
  ((fun j => (ij_status j, ij_counters j)) <$> db_jobs r.1 !! id, r.2).
Example with_pill_outcome :
  outcome (run_import with_pill sample_db 4 2 0 3) 4 = (Some (JobCompleted, Counters 4 2 1 1), ImportDone).
Proof. by vm_compute. Qed.

Lemma import_row_is_truthful_witness :
  exists d' job', run_import with_pill sample_db 4 2 0 3 = (d', ImportDone) /\ db_jobs d' !! 4 = Some job' /\
    c_processed (ij_counters job') = c_inserted (ij_counters job') + c_skipped_dup (ij_counters job') +
      c_failed (ij_counters job').
Proof.
  destruct (run_import with_pill sample_db 4 2 0 3) as [d' x] eqn:Er.
  assert (Hx : x = ImportDone).
  { pose proof with_pill_outcome as Ho. rewrite Er in Ho. unfold outcome in Ho. cbn [snd] in Ho. congruence. }
  subst x. destruct (import_row_is_truthful with_pill sample_db 4 (waiting 1) 2 0 3 d' ImportDone)
    as (_ & job' & Hj & _ & Hsum & _); [apply sample_serial | lia | by vm_compute | done | exact Er |].
  exists d', job'. split; [reflexivity | split; [exact Hj | exact Hsum]].
Defined.
End Example_import.

(** ** The life of a job *)
Definition single (js : jobs) : Prop := forall i j a b, js !! i = Some a -> js !! j = Some b ->
  is_active (ij_status a) = true -> is_active (ij_status b) = true -> i = j.
(** What happens to [import_jobs]: [create_job] beside other connections that
    obey the same index, cancelling, startup, and the writes of a run. *)
Inductive job_step (js : jobs) : jobs -> Prop :=
  | js_create d racing new_id account kind path host pid js' r :
      single (js ∪ racing) -> (js ∪ racing) !! new_id = None ->
      create_job d js racing new_id account kind path host pid = (js', r) -> job_step js js'
  | js_cancel id js' r : cancel_job js id = (js', r) -> job_step js js'
  | js_reconcile host alive now : job_step js (reconcile_orphaned_jobs host alive now js).1
  | js_run now id js' : mark_running now id js = Some js' -> job_step js js'
  | js_flush now id c : job_step js (flush now id c js)
  | js_finish status c msg now id : is_terminal status = true ->
      job_step js (alter (finish_job status c msg now) id js).

(** Rows change in place and never wake up. *)
Lemma single_rewrite (js js' : jobs) : single js ->
  (forall i b, js' !! i = Some b -> is_active (ij_status b) = true ->
     exists a, js !! i = Some a /\ is_active (ij_status a) = true) -> single js'.
Proof.
  intros Hs Hb i j a b Hi Hj Ha Hb'. destruct (Hb _ _ Hi Ha) as (a0 & ? & ?).
  destruct (Hb _ _ Hj Hb') as (b0 & ? & ?). by eapply Hs.
Qed.
Lemma active_nil (js : jobs) i j : active js = [] -> js !! i = Some j -> is_active (ij_status j) = false.
Proof.
  unfold active. intros Hn Hj. apply not_true_is_false. intros Ha. apply fmap_nil_inv in Hn.
  assert (Hin : (i, j) ∈ filter (fun kj => is_active (ij_status kj.2) = true) (map_to_list js))
    by (apply list_elem_of_filter; split; [done | by apply elem_of_map_to_list]).
  rewrite Hn in Hin. by apply elem_of_nil in Hin.
Qed.

Definition settled (js js' : jobs) : Prop := forall id j, js !! id = Some j -> is_terminal (ij_status j) = true ->
  exists j', js' !! id = Some j' /\ is_terminal (ij_status j') = true.

Lemma settled_refl js : settled js js.
Proof. intros id j Hj Ht. by exists j. Qed.
Lemma job_step_spec js js' : job_step js js' -> single js -> single js' /\ settled js js'.
Proof.
  intros Hstep Hs. destruct Hstep as [d racing new_id account kind path host pid js' r Hu Hfresh Hc
    | id js' r Hc | host alive now | now id js' Hm | now id c | status c msg now id Ht].
  - unfold create_job in Hc. destruct (negb _); [injection Hc as <- _; split; [done | apply settled_refl] |].
    destruct (accounts d !! account) as [acc |]; [| injection Hc as <- _; split; [done | apply settled_refl]].
    destruct (negb _); [injection Hc as <- _; split; [done | apply settled_refl] |].
    destruct (active js); [| injection Hc as <- _; split; [done | apply settled_refl]].
    assert (Hgrow : settled js (js ∪ racing)).
    { intros i j Hi Hj. exists j. split; [| done]. apply lookup_union_Some_raw. by left. }
    destruct (active (js ∪ racing)) eqn:Ea; [| injection Hc as <- _; by split].
    injection Hc as <- _. split.
    + intros i j a b Hi Hj Ha Hb. apply lookup_insert_Some in Hi as [[<- _] | [_ Hi]];
        [| by rewrite (active_nil _ _ _ Ea Hi) in Ha].
      apply lookup_insert_Some in Hj as [[<- _] | [_ Hj]]; [done | by rewrite (active_nil _ _ _ Ea Hj) in Hb].
    + intros i j Hi Hj. destruct (Hgrow i j Hi Hj) as (j' & Hj' & ?). exists j'.
      rewrite lookup_insert_ne by (intros ->; congruence). done.
  - unfold cancel_job in Hc. destruct (js !! id) as [j |] eqn:Ej; injection Hc as <- _; [| split; [done | apply settled_refl]]. split.
    + eapply single_rewrite; [done |]. intros i b [[<- <-] | [_ Hi]]%lookup_insert_Some Hb; eauto.
    + intros i b Hi Hb. destruct (decide (i = id)) as [-> |]; [rewrite lookup_insert_eq | rewrite lookup_insert_ne by done; eauto].
      rewrite Ej in Hi. injection Hi as <-. eauto.
  - cbn. split.
    + eapply single_rewrite; [done |]. intros i b. rewrite lookup_fmap.
      intros (a & Ha & ->)%fmap_Some Hb. exists a. split; [done |]. by destruct (reaped host alive a).
    + intros i b Hi Hb. rewrite lookup_fmap, Hi. cbn. eexists. split; [done |]. by destruct (reaped host alive b).
  - unfold mark_running in Hm. destruct (js !! id) as [j |] eqn:Ej; [| done]. destruct (ij_status j) eqn:Es; try done.
    injection Hm as <-. split.
    + eapply single_rewrite; [done |]. intros i b [[<- <-] | [_ Hi]]%lookup_insert_Some Hb; [exists j; by rewrite Es | eauto].
    + intros i b Hi Hb. destruct (decide (i = id)) as [-> |]; [| rewrite lookup_insert_ne by done; eauto].
      rewrite Ej in Hi. injection Hi as <-. by rewrite Es in Hb.
  - unfold flush. split.
    + eapply single_rewrite; [done |]. intros i b.
      intros Hi Hb. apply lookup_alter_Some in Hi as [(-> & a & Ha & ->) | [_ Hi]]; eauto.
    + intros i b Hi Hb. destruct (decide (i = id)) as [-> |];
        [rewrite lookup_alter_eq, Hi; eexists; split; [done |]; done | rewrite lookup_alter_ne by done; eauto].
  - split.
    + eapply single_rewrite; [done |]. intros i b Hi Hb.
      apply lookup_alter_Some in Hi as [(-> & a & Ha & ->) | [_ Hi]]; [| eauto]. cbn in Hb. by destruct status.
    + intros i b Hi Hb. destruct (decide (i = id)) as [-> |];
        [rewrite lookup_alter_eq, Hi; eexists; split; [done |]; done | rewrite lookup_alter_ne by done; eauto].
Qed.

(** One import at a time, and an outcome is final.  Whatever creations,
    cancellations, restarts and runs happen, at most one job is active; and a
    job that has an outcome never becomes active again. *)
Lemma import_jobs_exclusive js js' :
  rtc job_step ∅ js -> rtc job_step js js' -> single js' /\ settled js js'.
Proof.
  intros H0 H1. assert (Hs : single js).
  { revert H0. apply (rtc_ind_r (fun js => single js)); [by intros i j a b Hi |].
    intros y z _ Hst Hy. by apply (job_step_spec y z Hst Hy). }
  revert H1. apply (rtc_ind_r (fun js' => single js' /\ settled js js')); [split; [done | apply settled_refl] |].
  intros y z _ Hst [Hy Hset]. destruct (job_step_spec y z Hst Hy) as [Hz Hyz]. split; [done |].
  intros i j Hi Hj. destruct (Hset i j Hi Hj) as (j1 & H1 & T1). by eapply Hyz.
Qed.

Definition one_job : jobs := {[ 4 := Example_import.waiting 1 ]}.
Lemma one_job_created : job_step ∅ one_job.
Proof.
  eapply (js_create _ Example_import.empty_store ∅ 4 1 (lit "mbox") (lit "/a.mbox") (lit "host") 77 _ (Ok 4));
    [by intros i j a b Hi | done |]. by vm_compute.
Qed.
