(* ===== verification/Chunking.v ===== *)
(** * Cutting text into chunks ([search/chunking.py], [search/text_empty.py])

    Quoted replies and signatures are cut off with five regular expressions,
    whitespace is normalised, and what is left is split into overlapping
    windows of tokens.  The tokenizer is a parameter: [encode] may raise (the
    library refuses text that spells one of its special tokens). *)
From S2P Require Import Prelude PyStr Datetime MailStore.

(** ** The regular expressions

    Every pattern is a sequence of atoms.  For [search] only the leftmost
    start matters, so a pattern is the question whether it matches here. *)
Inductive atom :=
  | One (p : Z -> bool)
  | Star (p : Z -> bool)
  | Plus (p : Z -> bool)
  | Bol                      (* [^] with MULTILINE *)
  | Eol.                     (* [$] with MULTILINE *)

Class Tokenizer := { encode_tokens : pystr -> res fault (list Z); decode_tokens : list Z -> pystr }.

Record search_config := ChunkConfig {
  chunk_size_tokens : Z; chunk_overlap_tokens : Z;
  chunk_strip_quoted_replies : bool; chunk_strip_signatures : bool;
  extractor_max_extracted_chars : Z;
  embed_worker_batch_size : Z; embed_worker_max_chunk_retries : Z; embed_worker_chunk_batch_size : Z;
  embed_worker_failure_report_interval_s : Z;
  body_lang_enabled : bool; body_lang_detect_batch_size : Z;
}.

Inductive chunk_kind := KindHeader | KindBody | KindAttachment.
#[export] Instance chunk_kind_eq_dec : EqDecision chunk_kind.
Proof. solve_decision. Defined.
#[export] Instance chunk_kind_countable : Countable chunk_kind.
Proof.
  refine (inj_countable' (fun k => match k with KindHeader => 0 | KindBody => 1 | KindAttachment => 2 end)
    (fun n => if n =? 0 then KindHeader else if n =? 1 then KindBody else KindAttachment) _).
  by intros [].
Defined.
Record ChunkSpec := Chunk { ck_kind : chunk_kind; ck_chunk_idx : Z; ck_text : pystr; ck_token_count : Z }.

Module Chunking.
Definition NL : Z := 10.
Definition eol (s : pystr) : bool := match s with [] => true | c :: _ => c =? NL end.

(** [matches pat bol s]: [pat] matches a prefix of [s]; [bol] says that [s]
    starts a line. *)
Fixpoint matches (pat : list atom) (bol : bool) (s : pystr) : bool :=
  match pat with
  | [] => true
  | One p :: pat => match s with c :: s => p c && matches pat (c =? NL) s | [] => false end
  | Bol :: pat => bol && matches pat bol s
  | Eol :: pat => eol s && matches pat bol s
  | Star p :: pat =>
      (fix star (bol : bool) (s : pystr) : bool :=
         matches pat bol s || match s with c :: s => p c && star (c =? NL) s | [] => false end) bol s
  | Plus p :: pat =>
      match s with
      | c :: s => p c && (fix star (bol : bool) (s : pystr) : bool :=
          matches pat bol s || match s with c :: s => p c && star (c =? NL) s | [] => false end) (c =? NL) s
      | [] => false
      end
  end.
(** The start of the leftmost match. *)
Fixpoint search (pat : list atom) (bol : bool) (s : pystr) : option nat :=
  if matches pat bol s then Some O
  else match s with [] => None | c :: s => S <$> search pat (c =? NL) s end.

(** An ASCII letter under IGNORECASE also matches the characters whose lower
    case or simple folding it is. *)
Definition ci (c ch : Z) : bool :=
  (lower_char ch =? lower_char c) ||
  ((lower_char c =? 105) && ((ch =? 304) || (ch =? 305))) ||       (* i *)
  ((lower_char c =? 107) && (ch =? 8490)) ||                        (* k *)
  ((lower_char c =? 115) && (ch =? 383)).                           (* s *)
Definition ilit (s : string) : list atom := (fun c => One (ci c)) <$> lit s.
Definition clit (s : string) : list atom := (fun c => One (Z.eqb c)) <$> lit s.
Definition dot : Z -> bool := fun c => negb (c =? NL).
Definition sp : Z -> bool := is_space_char.

(** [_QUOTE_HEADER_PATTERNS] *)
Definition QUOTE_HEADER_PATTERNS : list (list atom) :=
  [ [Bol] ++ ilit "On " ++ [Plus dot] ++ ilit "," ++ [One sp; Plus dot; One sp] ++ ilit "wrote:" ++ [Star sp; Eol];
    [Bol] ++ ilit "Am " ++ [Plus dot; One sp] ++ ilit "schrieb" ++ [One sp; Plus dot] ++ ilit ":" ++ [Star sp; Eol];
    [Bol] ++ ilit "El " ++ [Plus dot] ++ ilit "," ++ [One sp; Plus dot; One sp] ++ ilit "escribi" ++
      [One (fun c => (c =? 111) || (c =? 79) || (c =? 243) || (c =? 211))] ++ ilit ":" ++ [Star sp; Eol];
    [Bol] ++ ilit "-----" ++ [Star sp] ++ ilit "Original Message" ++ [Star sp] ++ ilit "-----" ++ [Star sp; Eol];
    [Bol] ++ clit "From:" ++ [Plus dot; One (Z.eqb NL)] ++ clit "Sent:" ++ [Plus dot; One (Z.eqb NL)] ++
      clit "To:" ++ [Plus dot] ].
(** [_SIGNATURE_DELIM]: [^-- ?$] *)
Definition SIGNATURE_DELIMS : list (list atom) :=
  [ [Bol] ++ clit "--" ++ [Eol]; [Bol] ++ clit "-- " ++ [Eol] ].

(** The leftmost start of any of the patterns. *)
Definition earliest (pats : list (list atom)) (s : pystr) : option nat :=
  foldl (fun best pat =>
    match search pat true s, best with
    | Some i, Some b => Some (if (i <? b)%nat then i else b)
    | Some i, None => Some i
    | None, _ => best
    end) None pats.
Definition cut (at_ : option nat) (s : pystr) : pystr := match at_ with Some i => take i s | None => s end.

(** How much [_ARROW_QUOTE_LINE] ([^\s*>.*$]) takes at the start of a line. *)
Fixpoint to_eol (s : pystr) : nat := match s with c :: s => if c =? NL then O else S (to_eol s) | [] => O end.
Fixpoint arrow_length (s : pystr) : option nat :=
  match s with
  | [] => None
  | c :: s => if c =? 62 then Some (S (to_eol s)) else if sp c then S <$> arrow_length s else None
  end.
(** [_ARROW_QUOTE_LINE.sub]: [skip] characters of a match are still to go. *)
Fixpoint drop_arrow_lines (skip : nat) (bol : bool) (s : pystr) : pystr :=
  match s with
  | [] => []
  | c :: s' =>
      match skip with
      | S skip => drop_arrow_lines skip (c =? NL) s'
      | O => match (if bol then arrow_length s else None) with
             | Some (S n) => drop_arrow_lines n (c =? NL) s'
             | _ => c :: drop_arrow_lines O (c =? NL) s'
             end
      end
  end.

Definition strip_quoted_replies (body : pystr) : pystr :=
  drop_arrow_lines O true (cut (earliest QUOTE_HEADER_PATTERNS body) body).
Definition strip_signature (body : pystr) : pystr := cut (earliest SIGNATURE_DELIMS body) body.

(** ** Whitespace *)

(** The characters at which [str.splitlines] breaks. *)
Definition is_line_break (c : Z) : bool :=
  ((10 <=? c) && (c <=? 13)) || ((28 <=? c) && (c <=? 30)) || (c =? 133) || (c =? 8232) || (c =? 8233).
(** The lines, with what follows the last break as the last of them. *)
Fixpoint raw_lines (s : pystr) : list pystr :=
  match s with
  | [] => [[]]
  | c :: s' =>
      if is_line_break c then
        match s' with
        | d :: s'' => if (c =? 13) && (d =? 10) then [] :: raw_lines s'' else [] :: raw_lines s'
        | [] => [[]; []]
        end
      else match raw_lines s' with l :: ls => (c :: l) :: ls | [] => [[c]] end
  end.
Definition splitlines (s : pystr) : list pystr :=
  let ls := raw_lines s in
  match last ls with Some [] => removelast ls | _ => ls end.

Definition is_inline (c : Z) : bool := (c =? 32) || (c =? 9).
(** [_WS_INLINE.sub]: a run of blanks and tabs becomes one blank. *)
Fixpoint squeeze_inline (in_run : bool) (s : pystr) : pystr :=
  match s with
  | [] => []
  | c :: s =>
      if is_inline c then if in_run then squeeze_inline true s else 32 :: squeeze_inline true s
      else c :: squeeze_inline false s
  end.
(** [_WS_BLANKLINES.sub]: three or more newlines become two. *)
Fixpoint squeeze_newlines (run : nat) (s : pystr) : pystr :=
  match s with
  | [] => []
  | c :: s =>
      if c =? NL then if (run <? 2)%nat then NL :: squeeze_newlines (S run) s else squeeze_newlines run s
      else c :: squeeze_newlines O s
  end.
Definition normalize_whitespace (text : pystr) : pystr :=
  strip (squeeze_newlines O (join [NL] ((fun line => strip (squeeze_inline false line)) <$> splitlines text))).

(** [text_empty.is_blank] *)
Definition is_blank (text : pystr) : bool := match text with [] => true | _ => forallb is_space_char text end.

(** ** Chunks *)
Definition HEADER_BODY_INTRO_TOKENS : nat := 200.

Section chunks.
Context `{Tokenizer} `{Datetime T}.

(** [MessageRow] *)
Record MessageRow := Message {
  ms_subject : option pystr; ms_from_addr : option pystr; ms_from_name : option pystr;
  ms_to_addrs : option (list pystr); ms_date_sent : option T; ms_body_text : option pystr;
}.

(** The windows of the loop of [split_by_tokens] from [start] on. *)
Fixpoint windows (fuel : nat) (size step : nat) (rest : list Z) : list (list Z) :=
  match fuel, rest with
  | S fuel, _ :: _ =>
      take size rest :: if (length rest <=? size)%nat then [] else windows fuel size step (drop step rest)
  | _, _ => []
  end.
Definition split_by_tokens (text : pystr) (size overlap : Z) : res fault (list pystr) :=
  if size <=? 0 then Err (OtherError (lit "ValueError"))
  else if (overlap <? 0) || (size <=? overlap) then Err (OtherError (lit "ValueError"))
  else
    let* tokens := encode_tokens text in
    if Z.of_nat (length tokens) <=? size then Ok (match text with [] => [] | _ => [text] end)
    else Ok (decode_tokens <$> windows (length tokens) (Z.to_nat size) (Z.to_nat (size - overlap)) tokens).

(** A Python string is true when it is there and not empty. *)
Definition truthy (s : option pystr) : option pystr := match s with Some (_ :: _) => s | _ => None end.
Definition or_empty (s : option pystr) : pystr := default [] s.

Definition header_text (msg : MessageRow) (body_for_intro : pystr) : res fault pystr :=
  let subject := match truthy (ms_subject msg) with Some s => [lit "Subject: " ++ s] | None => [] end in
  let from := match truthy (ms_from_name msg), truthy (ms_from_addr msg) with
              | None, None => []
              | Some name, _ =>
                  [lit "From: " ++ strip (name ++ lit " <" ++
                     match ms_from_addr msg with Some a => a | None => lit "None" end ++ lit ">")]
              | None, Some addr => [lit "From: " ++ strip addr]
              end in
  let to := match ms_to_addrs msg with Some ((_ :: _) as l) => [lit "To: " ++ join (lit ", ") l] | _ => [] end in
  let date := match ms_date_sent msg with Some t => [lit "Date: " ++ isoformat t] | None => [] end in
  let* intro := encode_tokens body_for_intro in
  let intro_tokens := take HEADER_BODY_INTRO_TOKENS intro in
  let body := match intro_tokens with [] => [] | _ => [decode_tokens intro_tokens] end in
  Ok (join (lit " | ") (subject ++ from ++ to ++ date ++ body)).

Fixpoint number_chunks (kind : chunk_kind) (idx : Z) (pieces : list pystr) : res fault (list ChunkSpec) :=
  match pieces with
  | [] => Ok []
  | piece :: pieces =>
      let* tokens := encode_tokens piece in
      let* rest := number_chunks kind (idx + 1) pieces in
      Ok (Chunk kind idx piece (Z.of_nat (length tokens)) :: rest)
  end.

Definition chunk_attachment_text (text : pystr) (cfg : search_config) : res fault (list ChunkSpec) :=
  match normalize_whitespace text with
  | [] => Ok []
  | text =>
      let text := if extractor_max_extracted_chars cfg <? Z.of_nat (length text)
                  then slice_to (extractor_max_extracted_chars cfg) text ++ NL :: lit "[truncated]"
                  else text in
      let* pieces := split_by_tokens text (chunk_size_tokens cfg) (chunk_overlap_tokens cfg) in
      number_chunks KindAttachment 0 pieces
  end.

Definition message_body (msg : MessageRow) (cfg : search_config) : pystr :=
  let raw := or_empty (ms_body_text msg) in
  let raw := if chunk_strip_quoted_replies cfg then strip_quoted_replies raw else raw in
  let raw := if chunk_strip_signatures cfg then strip_signature raw else raw in
  normalize_whitespace raw.

Definition chunk_message (msg : MessageRow) (cfg : search_config) : res fault (list ChunkSpec) :=
  let body := message_body msg cfg in
  let* header := header_text msg body in
  let* header_tokens := encode_tokens header in
  let first := Chunk KindHeader 0 header (Z.of_nat (length header_tokens)) in
  let* body_tokens := match body with [] => Ok [] | _ => encode_tokens body end in
  if (length body_tokens <=? HEADER_BODY_INTRO_TOKENS)%nat then Ok [first]
  else
    let remainder := decode_tokens (drop HEADER_BODY_INTRO_TOKENS body_tokens) in
    let* pieces := split_by_tokens remainder (chunk_size_tokens cfg) (chunk_overlap_tokens cfg) in
    let* rest := number_chunks KindBody 0 pieces in
    Ok (first :: rest).
End chunks.
Arguments MessageRow : clear implicits.
End Chunking.
