(* ===== verification/ChunkFacts.v ===== *)
(** * What chunking keeps of a text *)
From S2P Require Import Prelude PyStr Datetime MailStore Chunking.
Import Chunking.

(** ** Windows of tokens *)

(** What the windows cover: the first, and of each later one what its
    predecessor did not have. *)
Definition reassemble (overlap : nat) (ws : list (list Z)) : list Z :=
  match ws with [] => [] | w :: ws => w ++ concat (drop overlap <$> ws) end.
(** Each window repeats the last [overlap] tokens of the one before. *)
Fixpoint chained (overlap : nat) (ws : list (list Z)) : Prop :=
  match ws with
  | w :: ((v :: _) as rest) => drop (length w - overlap) w = take overlap v /\ chained overlap rest
  | _ => True
  end.

Section windows.
Context (size step overlap : nat) (Hstep : (0 < step)%nat) (Hsize : size = (step + overlap)%nat).

Lemma windows_nil fuel : windows fuel size step [] = [].
Proof. by destruct fuel. Qed.
Lemma windows_cons fuel (rest : list Z) : rest <> [] -> (length rest <= S fuel)%nat ->
  windows (S fuel) size step rest =
    take size rest :: if (length rest <=? size)%nat then [] else windows fuel size step (drop step rest).
Proof. by destruct rest. Qed.

(** The windows of [rest] start with its first [size] tokens. *)
Lemma windows_head fuel rest : rest <> [] -> (length rest <= fuel)%nat ->
  exists ws, windows fuel size step rest = take size rest :: ws.
Proof.
  intros Hne Hf. destruct fuel as [| fuel]; [destruct rest; [done | cbn in Hf; lia] |].
  rewrite windows_cons by done. eauto.
Qed.

Lemma windows_spec fuel rest : (length rest <= fuel)%nat ->
  reassemble overlap (windows fuel size step rest) = rest /\ chained overlap (windows fuel size step rest) /\
  Forall (fun w => (0 < length w <= size)%nat) (windows fuel size step rest) /\
  Forall (fun w => length w = size) (removelast (windows fuel size step rest)).
Proof.
  revert rest. induction fuel as [| fuel IH]; intros rest Hf.
  { destruct rest; [done | cbn in Hf; lia]. }
  destruct (decide (rest = [])) as [-> | Hne]; [by rewrite windows_nil |].
  rewrite windows_cons by done. assert (Hpos : (0 < length rest)%nat) by (destruct rest; [done | cbn; lia]).
  destruct (length rest <=? size)%nat eqn:El.
  - apply Nat.leb_le in El. cbn. rewrite take_ge by done. rewrite app_nil_r.
    split_and!; [done | done | constructor; [lia | constructor] | constructor].
  - apply Nat.leb_gt in El. set (rest' := drop step rest).
    assert (Hlen' : length rest' = (length rest - step)%nat) by apply length_drop.
    assert (Hne' : rest' <> []) by (intros E; rewrite E in Hlen'; cbn in Hlen'; lia).
    assert (Hf' : (length rest' <= fuel)%nat) by lia. destruct (IH rest' Hf') as (Hre & Hch & Hall & Hfull).
    destruct (windows_head fuel rest' Hne' Hf') as [ws Hws]. rewrite Hws in *. cbn [reassemble] in Hre.
    assert (Hov : (overlap <= length (take size rest'))%nat) by (rewrite length_take; lia).
    split_and!.
    + cbn [reassemble fmap list_fmap concat]. rewrite app_assoc.
      transitivity (take size rest ++ drop overlap rest').
      * rewrite <- app_assoc. f_equal. rewrite <- Hre at 2. by rewrite drop_app_le by done.
      * unfold rest'. rewrite drop_drop, <- Hsize. apply take_drop.
    + cbn [chained]. split; [| exact Hch]. rewrite length_take, Nat.min_l by lia.
      replace (size - overlap)%nat with step by lia. unfold rest'.
      rewrite skipn_firstn_comm, take_take. f_equal. lia.
    + constructor; [rewrite length_take; lia | done].
    + change (removelast (take size rest :: take size rest' :: ws))
        with (take size rest :: removelast (take size rest' :: ws)).
      constructor; [rewrite length_take; lia | done].
Qed.
End windows.

(** Splitting loses no token and repeats only the overlap.  A text of more
    than [size] tokens becomes windows of its token sequence, each of at least
    one and at most [size] tokens and all but the last of exactly [size], each
    starting with the last [overlap] tokens of the one before, which together
    are the whole sequence; a shorter text stays whole, an empty one gives
    nothing, and sizes that make no sense are refused before the text is read. *)
Lemma split_by_tokens_covers `{Tokenizer} text size overlap :
  match split_by_tokens text size overlap with
  | Err f => f = OtherError (lit "ValueError") /\ ~ (0 <= overlap < size) \/ encode_tokens text = Err f
  | Ok pieces => 0 <= overlap < size /\ exists tokens, encode_tokens text = Ok tokens /\
      if Z.of_nat (length tokens) <=? size then pieces = match text with [] => [] | _ => [text] end
      else exists ws, pieces = decode_tokens <$> ws /\ reassemble (Z.to_nat overlap) ws = tokens /\
        chained (Z.to_nat overlap) ws /\ Forall (fun w => 0 < Z.of_nat (length w) <= size) ws /\
        Forall (fun w => Z.of_nat (length w) = size) (removelast ws)
  end.
Proof.
  unfold split_by_tokens. destruct (size <=? 0) eqn:E1; [left; split; [done | zb] |].
  destruct (overlap <? 0) eqn:E2; [left; split; [done | zb] |].
  destruct (size <=? overlap) eqn:E3; [left; split; [done | zb] |]. cbn [orb].
  destruct (encode_tokens text) as [tokens | f] eqn:Et; [| by right].
  assert (Hb : 0 <= overlap < size) by zb.
  destruct (Z.of_nat (length tokens) <=? size) eqn:El; (split; [done |]); exists tokens; rewrite El; [done |].
  split; [done |]. eexists. split; [done |].
  destruct (windows_spec (Z.to_nat size) (Z.to_nat (size - overlap)) (Z.to_nat overlap) ltac:(lia) ltac:(lia)
    (length tokens) tokens ltac:(lia)) as (Hr & Hc & Hall & Hfull).
  split_and!; [done | done | |]; (eapply Forall_impl; [eassumption |]); cbn; intros; lia.
Qed.

(** ** Blank text *)
Definition blank (s : pystr) : Prop := Forall (fun c => is_space_char c = true) s.

Lemma drop_while_nil p s : drop_while p s = [] <-> Forall (fun c => p c = true) s.
Proof.
  induction s as [| c s IH]; cbn; [done |]. rewrite Forall_cons. destruct (p c); [by rewrite IH; naive_solver | naive_solver].
Qed.
Lemma drop_while_forall p (P : Z -> Prop) s : Forall P s -> Forall P (drop_while p s).
Proof. induction 1 as [| c s Hc Hs IH]; cbn; [done |]. destruct (p c); [done | by constructor]. Qed.
(** Stripping empties exactly what is blank, and blankness survives it. *)
Lemma drop_while_blank p s : Forall (fun c => p c = true) (drop_while p s) <-> Forall (fun c => p c = true) s.
Proof.
  split; [| apply drop_while_forall]. induction s as [| c s IH]; cbn; [done |].
  destruct (p c) eqn:Ec; [intros Hs%IH; by constructor | done].
Qed.
Lemma strip_nil s : strip s = [] <-> blank s.
Proof.
  unfold strip, strip_p, rstrip_p, lstrip_p, blank. rewrite <- (drop_while_blank is_space_char s).
  rewrite <- (Forall_reverse _ (drop_while is_space_char s)), <- drop_while_nil. split; intros E.
  - apply (f_equal reverse) in E. by rewrite reverse_involutive in E.
  - by rewrite E.
Qed.
Lemma strip_blank s : blank (strip s) <-> blank s.
Proof.
  unfold strip, strip_p, rstrip_p, lstrip_p, blank.
  by rewrite Forall_reverse, drop_while_blank, Forall_reverse, drop_while_blank.
Qed.

Lemma squeeze_inline_blank b s : blank (squeeze_inline b s) <-> blank s.
Proof.
  revert b. induction s as [| c s IH]; intros b; cbn; [done |]. unfold blank in *. rewrite Forall_cons.
  destruct (is_inline c) eqn:Ec.
  - assert (is_space_char c = true) by (unfold is_inline in Ec; apply orb_prop in Ec as [->%Z.eqb_eq | ->%Z.eqb_eq]; done).
    destruct b; rewrite ?Forall_cons, IH; naive_solver.
  - rewrite Forall_cons, IH. done.
Qed.
Lemma squeeze_newlines_blank n s : blank (squeeze_newlines n s) <-> blank s.
Proof.
  revert n. induction s as [| c s IH]; intros n; cbn [squeeze_newlines]; [done |]. unfold blank in *. rewrite Forall_cons.
  destruct (c =? NL) eqn:Ec.
  - apply Z.eqb_eq in Ec as ->. destruct (n <? 2)%nat; rewrite ?Forall_cons, IH; naive_solver.
  - rewrite Forall_cons, IH. done.
Qed.
Lemma join_blank (ls : list pystr) : blank (join [NL] ls) <-> Forall blank ls.
Proof.
  induction ls as [| l [| l' ls] IH]; [by split; constructor | by rewrite Forall_singleton |].
  change (blank (l ++ [NL] ++ join [NL] (l' :: ls)) <-> Forall blank (l :: l' :: ls)).
  rewrite (Forall_cons _ l), <- IH. unfold blank. rewrite !Forall_app, Forall_singleton. naive_solver.
Qed.
Lemma line_break_space c : is_line_break c = true -> is_space_char c = true.
Proof. unfold is_line_break, is_space_char. intros Hc. autorewrite with zbool in *. lia. Qed.

Lemma raw_lines_blank s : Forall blank (raw_lines s) <-> blank s.
Proof.
  remember (length s) as n eqn:Hn. revert s Hn. induction n as [n IH] using lt_wf_ind. intros s ->.
  destruct s as [| c s]; cbn [raw_lines]; [by rewrite Forall_singleton |]. unfold blank at 2. rewrite Forall_cons.
  destruct (is_line_break c) eqn:Ec.
  - pose proof (line_break_space c Ec) as Hc. destruct s as [| d s].
    + rewrite Forall_cons, Forall_singleton. unfold blank. naive_solver.
    + destruct ((c =? 13) && (d =? 10)) eqn:Ed.
      * rewrite Forall_cons, (IH (length s)) by (cbn; lia || done). rewrite Forall_cons.
        apply andb_prop in Ed as [_ ->%Z.eqb_eq]. unfold blank. naive_solver.
      * rewrite Forall_cons, (IH (length (d :: s))) by (cbn; lia || done). unfold blank. naive_solver.
  - pose proof (IH (length s) ltac:(cbn; lia) s eq_refl) as IHs.
    destruct (raw_lines s) as [| l ls]; rewrite Forall_cons in *; [rewrite <- IHs; unfold blank; rewrite Forall_singleton; naive_solver |].
    rewrite <- IHs. unfold blank. rewrite Forall_cons. naive_solver.
Qed.
Lemma removelast_blank (ls : list pystr) : last ls = Some [] -> Forall blank (removelast ls) <-> Forall blank ls.
Proof.
  intros Hl. apply last_Some in Hl as [ls' ->]. rewrite removelast_last, Forall_app, Forall_singleton.
  split; [intros ?; split; [done | constructor] | naive_solver].
Qed.

Lemma normalize_nil text : normalize_whitespace text = [] <-> blank text.
Proof.
  unfold normalize_whitespace. rewrite strip_nil, squeeze_newlines_blank, join_blank, Forall_fmap.
  transitivity (Forall blank (splitlines text)).
  - apply Forall_iff. intros l. cbn. by rewrite strip_blank, squeeze_inline_blank.
  - unfold splitlines. rewrite <- raw_lines_blank. destruct (last (raw_lines text)) as [[| c l] |] eqn:El; [| done | done].
    by apply removelast_blank.
Qed.
Lemma is_blank_spec text : is_blank text = true <-> blank text.
Proof. unfold is_blank, blank. destruct text as [| c s]; [done |]. rewrite <- Is_true_true, forallb_True. apply Forall_iff. intros x. apply Is_true_true. Qed.

(** ** Chunks *)
Lemma number_chunks_length `{Tokenizer} kind idx pieces cs :
  number_chunks kind idx pieces = Ok cs -> length cs = length pieces.
Proof.
  revert idx cs. induction pieces as [| p pieces IH]; intros idx cs; cbn; [by intros [= <-] |].
  destruct (encode_tokens p); [| done]. destruct (number_chunks kind (idx + 1) pieces) eqn:E; [| done].
  intros [= <-]. cbn. f_equal. by eapply IH.
Qed.
Lemma split_nil_only `{Tokenizer} text size overlap : split_by_tokens text size overlap = Ok [] -> text = [].
Proof.
  unfold split_by_tokens. destruct (size <=? 0) eqn:E1; [done |]. destruct (_ || _); [done |].
  destruct (encode_tokens text) as [ts |]; [| done].
  destruct (_ <=? size) eqn:El; [by destruct text |]. destruct ts as [| t ts]; [cbn in El; zb |].
  done.
Qed.

(** An extracted text is chunked to nothing exactly when it is blank.  So a
    row whose text is healed to the empty sentinel because it yields no chunk
    never held anything to index, and any other row that does not raise yields
    at least one chunk and leaves the queue. *)
Lemma chunked_to_nothing_iff_blank `{Tokenizer} text cfg cs :
  chunk_attachment_text text cfg = Ok cs -> cs = [] <-> is_blank text = true.
Proof.
  rewrite is_blank_spec, <- normalize_nil. unfold chunk_attachment_text.
  destruct (normalize_whitespace text) as [| c body] eqn:En; [by intros [= <-] |].
  intros Hc. split; [intros -> | done]. exfalso. set (t := if _ <? _ then _ else _) in Hc.
  destruct (split_by_tokens t _ _) as [pieces |] eqn:Es; [| done].
  apply number_chunks_length in Hc. destruct pieces; [| done]. apply split_nil_only in Es. subst t.
  destruct (_ <? _) in Es; [| done]. by apply app_nil in Es as [_ ?].
Qed.

(** ** A tokenizer: a token per character, one character refused *)
Module Example_chunks.
#[global] Instance chars : Tokenizer := {|
  encode_tokens s := if contains 9999 s then Err (OtherError (lit "ValueError")) else Ok s;
  decode_tokens ts := ts;
|}.
Definition small : search_config := ChunkConfig 5 2 true true 1000 10 3 4 60 true 10.
Definition two_lines : pystr := lit "ab  cd" ++ [10; 10; 10; 10; 9] ++ lit "ef ".
Definition pieces : list ChunkSpec :=
  [Chunk KindAttachment 0 (lit "ab cd") 5; Chunk KindAttachment 1 (lit "cd" ++ [10; 10] ++ lit "e") 5;
   Chunk KindAttachment 2 ([10] ++ lit "ef") 3].
Example two_lines_chunks : chunk_attachment_text two_lines small = Ok pieces.
Proof. by vm_compute. Qed.
Example quoted_reply :
  strip_quoted_replies (lit "yes" ++ [10] ++ lit "> no" ++ [10] ++ lit "On Mon, Ann wrote:" ++ [10] ++ lit "hi") = lit "yes" ++ [10; 10].
Proof. by vm_compute. Qed.
Example signature : strip_signature (lit "hi" ++ [10] ++ lit "-- " ++ [10] ++ lit "Ann") = lit "hi" ++ [10].
Proof. by vm_compute. Qed.
End Example_chunks.
