(* ===== verification/EmbedWorker.v ===== *)
(** * The embedding worker ([search/embed_worker.py], [search/lang_detect.py],
    [search/failure_pacing.py], [search/sweep_pacing.py])

    One sweep chunks the messages and the attachment texts that have no chunks
    yet, embeds the chunks that have no vector yet and detects the language of
    the messages never tried.  The embedding backend, the detector, the rows
    other sessions hold locked and the outcome of each statement come from
    [embed_env].  Clock readings are integers. *)
From S2P Require Import Prelude PyStr Datetime MailStore Chunking.
Import Chunking.

(** ** Tables *)

(** A row of [message_chunks] or [attachment_chunks]; [cr_key] is what the
    table's unique constraint is on. *)
Record chunk_row (K V : Type) := ChunkRow {
  cr_key : K; cr_text : pystr; cr_token_count : Z; cr_embedding : option V }.
Arguments ChunkRow {K V}. Arguments cr_key {K V}. Arguments cr_text {K V}.
Arguments cr_token_count {K V}. Arguments cr_embedding {K V}.

(** One of the two tables with its part of [failed_embeddings] (the retry counts). *)
Record embed_table (K V : Type) := EmbedTable { et_chunks : gmap Z (chunk_row K V); et_failed : gmap Z Z }.
Arguments EmbedTable {K V}. Arguments et_chunks {K V}. Arguments et_failed {K V}.

Notation message_key := (Z * chunk_kind * Z)%type.
Notation blob_key := (bytes * Z)%type.

Record message (T : Type) := EmbedMessage {
  em_row : MessageRow T; em_body_lang : option pystr; em_attempted_at : option Z }.
Arguments EmbedMessage {T}. Arguments em_row {T}. Arguments em_body_lang {T}. Arguments em_attempted_at {T}.

Record embed_db (T V : Type) := EmbedDb {
  ed_messages : gmap Z (message T);
  ed_attachment_text : gmap bytes pystr;
  ed_message_chunks : embed_table message_key V;
  ed_attachment_chunks : embed_table blob_key V;
  ed_failed_chunkings : gmap Z Z;
}.
Arguments EmbedDb {T V}. Arguments ed_messages {T V}. Arguments ed_attachment_text {T V}.
Arguments ed_message_chunks {T V}. Arguments ed_attachment_chunks {T V}. Arguments ed_failed_chunkings {T V}.

(** [failure_pacing.ReportedFailure] *)
Record ReportedFailure := Reported { rf_exc_name : pystr; rf_reported_at : Z; rf_since_report : Z }.
Record FailureReport := Report { fr_record : ReportedFailure; fr_log_it : bool; fr_suppressed : Z }.

(** [sweep_pacing.SweepOutcome], [lang_detect.LangDetectPass] *)
Record SweepOutcome := Outcome { so_embedded : Z; so_lang_visited : Z }.
Record LangDetectPass := LangPass { lp_visited : Z; lp_labelled : Z }.

(** What one sweep meets outside its own code. *)
Record embed_env (V : Type) := EmbedEnv {
  ev_locked_messages : Z -> bool;                  (* FOR UPDATE SKIP LOCKED *)
  ev_locked_texts : bytes -> bool;
  ev_locked_chunks : bool -> Z -> bool;            (* [false] is [message_chunks] *)
  ev_insert : Z -> option fault;                   (* the statements of one message's savepoint *)
  ev_insert_blob : bytes -> option fault;
  ev_message_chunk_id : message_key -> Z;          (* the sequences *)
  ev_blob_chunk_id : blob_key -> Z;
  ev_update : bool -> Z -> option fault;           (* writing one embedding *)
  ev_log_fails : bool -> Z -> bool;                (* the failure row cannot be written *)
  ev_log_chunking_fails : Z -> bool;
  ev_backend : bool -> list pystr -> res fault (list V);
  ev_detect : pystr -> res fault (option pystr);
  ev_lang_write : Z -> option fault;
  ev_stamp_fails : Z -> bool;
  ev_now : Z;                                      (* [now()] *)
  ev_clock : Z;                                    (* the sweep's monotonic reading *)
  ev_fault_name : fault -> pystr;
}.
Arguments ev_locked_messages {V}. Arguments ev_locked_texts {V}. Arguments ev_locked_chunks {V}.
Arguments ev_insert {V}. Arguments ev_insert_blob {V}. Arguments ev_message_chunk_id {V}. Arguments ev_blob_chunk_id {V}.
Arguments ev_update {V}. Arguments ev_log_fails {V}. Arguments ev_log_chunking_fails {V}. Arguments ev_backend {V}.
Arguments ev_detect {V}. Arguments ev_lang_write {V}. Arguments ev_stamp_fails {V}. Arguments ev_now {V}.
Arguments ev_clock {V}. Arguments ev_fault_name {V}.

Module Embed_worker.
(** ** Pacing *)
Definition note_failure (prev : option ReportedFailure) (exc_name : pystr) (now interval_s : Z) : FailureReport :=
  let fresh := Reported exc_name now 0 in
  match prev with
  | Some p =>
      if negb (str_eqb (rf_exc_name p) exc_name) then Report fresh true 0
      else if (interval_s <=? 0) || (interval_s <=? now - rf_reported_at p) then Report fresh true (rf_since_report p)
      else Report (Reported (rf_exc_name p) (rf_reported_at p) (rf_since_report p + 1)) false 0
  | None => Report fresh true 0
  end.

Definition made_progress (o : SweepOutcome) : bool := (0 <? so_embedded o) || (0 <? so_lang_visited o).
Definition next_idle_streak (streak : Z) (progress : bool) (max_steps : Z) : Z :=
  if progress then 0 else Z.max 0 (Z.min (streak + 1) max_steps).
Definition sweep_sleep_seconds (streak poll_interval_s : Z) : Z := poll_interval_s * (1 + streak).

(** [ORDER BY .. LIMIT batch FOR UPDATE SKIP LOCKED] *)
Definition limit_rows {A} (batch : Z) (rows : list A) : res fault (list A) :=
  if batch <? 0 then Err (OtherError (lit "InvalidRowCountInLimitClause")) else Ok (take (Z.to_nat batch) rows).
Definition id_le {A} (a b : Z * A) : Prop := a.1 <= b.1.
#[global] Instance id_le_dec {A} : RelDecision (@id_le A).
Proof. intros a b. unfold id_le. apply _. Defined.
Definition by_id {A} (m : gmap Z A) : list (Z * A) := merge_sort id_le (map_to_list m).
Fixpoint bytes_leb (a b : bytes) : bool :=
  match a, b with
  | [], _ => true
  | _, [] => false
  | x :: a, y :: b => (x <? y) || ((x =? y) && bytes_leb a b)
  end.
Definition sha_le {A} (a b : bytes * A) : Prop := bytes_leb a.1 b.1 = true.
#[global] Instance sha_le_dec {A} : RelDecision (@sha_le A).
Proof. intros a b. unfold sha_le. apply _. Defined.
Definition by_sha {A} (m : gmap bytes A) : list (bytes * A) := merge_sort sha_le (map_to_list m).

Section worker.
Context `{Tokenizer} `{Datetime T} {V : Type}.
Implicit Types (d : embed_db T V) (e : embed_env V) (cfg : search_config).

Definition with_message_chunks (t : embed_table message_key V) d : embed_db T V :=
  EmbedDb (ed_messages d) (ed_attachment_text d) t (ed_attachment_chunks d) (ed_failed_chunkings d).
Definition with_attachment_chunks (t : embed_table blob_key V) d : embed_db T V :=
  EmbedDb (ed_messages d) (ed_attachment_text d) (ed_message_chunks d) t (ed_failed_chunkings d).
Definition with_messages (m : gmap Z (message T)) d : embed_db T V :=
  EmbedDb m (ed_attachment_text d) (ed_message_chunks d) (ed_attachment_chunks d) (ed_failed_chunkings d).

(** [INSERT .. ON CONFLICT DO NOTHING] of one chunk. *)
Definition has_chunk {K} `{EqDecision K} (key : K) (_ : Z) (r : chunk_row K V) : Prop := cr_key r = key.
#[global] Instance has_chunk_dec {K} `{EqDecision K} (key : K) i (r : chunk_row K V) : Decision (has_chunk key i r).
Proof. unfold has_chunk. apply _. Defined.
Definition insert_chunk {K} `{EqDecision K} (new_id : K -> Z) (key : ChunkSpec -> K) (t : embed_table K V)
    (spec : ChunkSpec) : embed_table K V :=
  if bool_decide (map_Exists (has_chunk (key spec)) (et_chunks t)) then t
  else EmbedTable (<[new_id (key spec) := ChunkRow (key spec) (ck_text spec) (ck_token_count spec) None]> (et_chunks t))
         (et_failed t).

(** An upsert that counts: 0 at first, one more each time. *)
Definition bump {K} `{Countable K} (k : K) (m : gmap K Z) : gmap K Z :=
  <[k := match m !! k with Some n => n + 1 | None => 0 end]> m.
Definition exhausted {K} `{Countable K} (max : Z) (m : gmap K Z) (k : K) : bool :=
  match m !! k with Some n => max <=? n | None => false end.

(** ** [_chunk_messages_lazily] *)
Definition chunks_of_message (mid : Z) (_ : Z) (r : chunk_row message_key V) : Prop := (cr_key r).1.1 = mid.
#[global] Instance chunks_of_message_dec mid i r : Decision (chunks_of_message mid i r).
Proof. unfold chunks_of_message. apply _. Defined.
Definition unchunked cfg d (mid : Z) : bool :=
  negb (bool_decide (map_Exists (chunks_of_message mid) (et_chunks (ed_message_chunks d)))) &&
  negb (exhausted (embed_worker_max_chunk_retries cfg) (ed_failed_chunkings d) mid).
Definition claim_messages e cfg d (batch : Z) : res fault (list (Z * message T)) :=
  limit_rows batch (filter (fun im => unchunked cfg d im.1 && negb (ev_locked_messages e im.1) = true) (by_id (ed_messages d))).

Definition record_failed_chunking e d (mid : Z) : embed_db T V :=
  if ev_log_chunking_fails e mid then d
  else EmbedDb (ed_messages d) (ed_attachment_text d) (ed_message_chunks d) (ed_attachment_chunks d)
         (bump mid (ed_failed_chunkings d)).
Definition message_key_of (mid : Z) (spec : ChunkSpec) : message_key := (mid, ck_kind spec, ck_chunk_idx spec).
Definition chunk_one_message e cfg d (im : Z * message T) : res fault (embed_db T V) :=
  let outcome :=
    let* specs := chunk_message (em_row im.2) cfg in
    match ev_insert e im.1 with
    | Some f => Err f
    | None => Ok (with_message_chunks
        (foldl (insert_chunk (ev_message_chunk_id e) (message_key_of im.1)) (ed_message_chunks d) specs) d)
    end in
  match outcome with
  | Ok d => Ok d
  | Err Contention => Err Contention
  | Err _ => Ok (record_failed_chunking e d im.1)
  end.
Definition chunk_messages_lazily e cfg (batch : Z) d : embed_db T V * res fault Z :=
  match claim_messages e cfg d batch with
  | Err f => (d, Err f)
  | Ok rows =>
      match foldM (chunk_one_message e cfg) d rows with
      | Err f => (d, Err f)                             (* nothing of the batch was committed *)
      | Ok d' => (d', Ok (Z.of_nat (length rows)))
      end
  end.

(** ** [_chunk_attachments_lazily] *)
Definition chunks_of_blob (sha : bytes) (_ : Z) (r : chunk_row blob_key V) : Prop := (cr_key r).1 = sha.
#[global] Instance chunks_of_blob_dec sha i r : Decision (chunks_of_blob sha i r).
Proof. unfold chunks_of_blob. apply _. Defined.
Definition unchunked_text d (st : bytes * pystr) : bool :=
  negb (bool_decide (st.2 = [])) &&
  negb (bool_decide (map_Exists (chunks_of_blob st.1) (et_chunks (ed_attachment_chunks d)))).
Definition claim_texts e d (batch : Z) : res fault (list (bytes * pystr)) :=
  limit_rows batch (filter (fun st => unchunked_text d st && negb (ev_locked_texts e st.1) = true) (by_sha (ed_attachment_text d))).

Definition heal_text (sha : bytes) d : embed_db T V :=
  EmbedDb (ed_messages d) (<[sha := []]> (ed_attachment_text d)) (ed_message_chunks d) (ed_attachment_chunks d)
    (ed_failed_chunkings d).
Definition chunk_one_text e cfg d (st : bytes * pystr) : embed_db T V :=
  match chunk_attachment_text st.2 cfg with
  | Err _ => d
  | Ok specs =>
      match ev_insert_blob e st.1 with
      | Some _ => d
      | None =>
          let d := if bool_decide (specs = []) && is_blank st.2 then heal_text st.1 d else d in
          with_attachment_chunks
            (foldl (insert_chunk (ev_blob_chunk_id e) (fun spec => (st.1, ck_chunk_idx spec))) (ed_attachment_chunks d) specs) d
      end
  end.
Definition chunk_attachments_lazily e cfg (batch : Z) d : embed_db T V * res fault Z :=
  match claim_texts e d batch with
  | Err f => (d, Err f)
  | Ok rows => (foldl (chunk_one_text e cfg) d rows, Ok (Z.of_nat (length rows)))
  end.
End worker.

(** ** One table *)
Section table.
Context {K V : Type}.
Implicit Types (t : embed_table K V).

(** [_claim_unembedded] *)
Definition unembedded (max_retries : Z) t (ir : Z * chunk_row K V) : bool :=
  match cr_embedding ir.2 with Some _ => false | None => negb (exhausted max_retries (et_failed t) ir.1) end.
Definition claim_unembedded (locked : Z -> bool) (max_retries batch : Z) t : res fault (list (Z * chunk_row K V)) :=
  limit_rows batch (filter (fun ir => unembedded max_retries t ir && negb (locked ir.1) = true) (by_id (et_chunks t))).

Definition set_embedding (vec : V) (r : chunk_row K V) : chunk_row K V :=
  ChunkRow (cr_key r) (cr_text r) (cr_token_count r) (Some vec).
Definition record_failed_embedding (log_fails : Z -> bool) t (cid : Z) : embed_table K V :=
  if log_fails cid then t else EmbedTable (et_chunks t) (bump cid (et_failed t)).

(** One turn of the loop of [_embed_and_store]. *)
Definition store_one (update : Z -> option fault) (log_fails : Z -> bool) (tw : embed_table K V * Z)
    (cv : (Z * chunk_row K V) * V) : res fault (embed_table K V * Z) :=
  let '(t, written) := tw in
  match update cv.1.1 with
  | None => Ok (EmbedTable (alter (set_embedding cv.2) cv.1.1 (et_chunks t)) (et_failed t), written + 1)
  | Some Contention => Err Contention
  | Some (OtherError _) => Ok (record_failed_embedding log_fails t cv.1.1, written)
  end.
Definition embed_and_store (update : Z -> option fault) (log_fails : Z -> bool)
    (backend : list pystr -> res fault (list V)) t (claimed : list (Z * chunk_row K V)) : res fault (embed_table K V * Z) :=
  let* vectors := backend ((fun ir => cr_text ir.2) <$> claimed) in
  let* tw := foldM (store_one update log_fails) (t, 0) (zip claimed vectors) in
  if bool_decide (length vectors = length claimed) then Ok tw else Err (OtherError (lit "ValueError")).

(** [_embed_table] *)
Definition run_embed_table (locked : Z -> bool) (update : Z -> option fault) (log_fails : Z -> bool)
    (backend : list pystr -> res fault (list V)) (describe : fault -> pystr) (cfg : search_config) (now : Z)
    (seen : option ReportedFailure) t : (embed_table K V * option ReportedFailure) * res fault Z :=
  match claim_unembedded locked (embed_worker_max_chunk_retries cfg) (embed_worker_batch_size cfg) t with
  | Err f => ((t, seen), Err f)
  | Ok [] => ((t, seen), Ok 0)
  | Ok claimed =>
      match embed_and_store update log_fails backend t claimed with
      | Ok (t', written) => ((t', seen), Ok written)
      | Err f =>
          ((t, Some (fr_record (note_failure seen (describe f) now (embed_worker_failure_report_interval_s cfg)))), Ok 0)
      end
  end.
End table.

(** ** Languages ([lang_detect.py]) *)
Section lang.
Context `{Datetime T} {V : Type}.
Implicit Types (d : embed_db T V) (e : embed_env V) (m : message T).

Definition has_body m : bool := bool_decide (is_Some (ms_body_text (em_row m))).
(** [CLAIMABLE_WHERE_SQL], [DECLINED_WHERE_SQL], [RELABELABLE_WHERE_SQL] *)
Definition claimable m : bool :=
  bool_decide (em_body_lang m = None) && has_body m && bool_decide (em_attempted_at m = None).
Definition declined m : bool :=
  bool_decide (em_body_lang m = None) && has_body m && bool_decide (is_Some (em_attempted_at m)).
Definition relabelable m : bool := has_body m.

Definition set_lang (code : option pystr) (now : Z) m : message T := EmbedMessage (em_row m) code (Some now).
Definition mark_attempted_safely e (mid : Z) (ms : gmap Z (message T)) : gmap Z (message T) :=
  if ev_stamp_fails e mid then ms
  else alter (fun m => EmbedMessage (em_row m) (em_body_lang m) (Some (ev_now e))) mid ms.

Definition detect_one e (sl : gmap Z (message T) * Z) (im : Z * message T) : res fault (gmap Z (message T) * Z) :=
  let '(ms, labelled) := sl in
  let outcome :=
    let* code := ev_detect e (or_empty (ms_body_text (em_row im.2))) in
    match ev_lang_write e im.1 with Some f => Err f | None => Ok code end in
  match outcome with
  | Ok code => Ok (alter (set_lang code (ev_now e)) im.1 ms, match code with Some _ => labelled + 1 | None => labelled end)
  | Err Contention => Err Contention
  | Err _ => Ok (mark_attempted_safely e im.1 ms, labelled)
  end.
Definition claim_lang e d (limit : Z) : res fault (list (Z * message T)) :=
  limit_rows limit (filter (fun im => claimable im.2 && negb (ev_locked_messages e im.1) = true) (by_id (ed_messages d))).
Definition run_lang_detect_pass e (limit : Z) d : embed_db T V * res fault LangDetectPass :=
  match claim_lang e d limit with
  | Err f => (d, Err f)
  | Ok rows =>
      match foldM (detect_one e) (ed_messages d, 0) rows with
      | Err f => (d, Err f)
      | Ok (ms, labelled) => (with_messages ms d, Ok (LangPass (Z.of_nat (length rows)) labelled))
      end
  end.

Definition count_messages (p : message T -> bool) d : Z :=
  Z.of_nat (size (filter (fun im => p im.2 = true) (ed_messages d))).
Definition retry_declined d : embed_db T V * Z :=
  (with_messages ((fun m => if declined m then EmbedMessage (em_row m) (em_body_lang m) None else m) <$> ed_messages d) d,
   count_messages declined d).
Definition reopen_all d : embed_db T V * Z :=
  (with_messages ((fun m => if relabelable m then EmbedMessage (em_row m) None None else m) <$> ed_messages d) d,
   count_messages relabelable d).
End lang.

(** ** One sweep *)
Section sweep.
Context `{Tokenizer} `{Datetime T} {V : Type}.
Implicit Types (d : embed_db T V) (e : embed_env V).

(** What has been reported about the two tables' failures. *)
Notation failure_log := (option ReportedFailure * option ReportedFailure)%type.

Definition run_embed_worker_once e (cfg : search_config) (detector : bool) (log : failure_log) d :
    (embed_db T V * failure_log) * res fault SweepOutcome :=
  let chunk_batch := Z.max (embed_worker_batch_size cfg) (embed_worker_chunk_batch_size cfg) in
  match chunk_messages_lazily e cfg chunk_batch d with
  | (d, Err f) => ((d, log), Err f)
  | (d, Ok _) =>
  match chunk_attachments_lazily e cfg chunk_batch d with
  | (d, Err f) => ((d, log), Err f)
  | (d, Ok _) =>
  match run_embed_table (ev_locked_chunks e false) (ev_update e false) (ev_log_fails e false) (ev_backend e false)
          (ev_fault_name e) cfg (ev_clock e) log.1 (ed_message_chunks d) with
  | ((t, l1), Err f) => ((with_message_chunks t d, (l1, log.2)), Err f)
  | ((t, l1), Ok embedded_msg) =>
  let d := with_message_chunks t d in
  match run_embed_table (ev_locked_chunks e true) (ev_update e true) (ev_log_fails e true) (ev_backend e true)
          (ev_fault_name e) cfg (ev_clock e) log.2 (ed_attachment_chunks d) with
  | ((t, l2), Err f) => ((with_attachment_chunks t d, (l1, l2)), Err f)
  | ((t, l2), Ok embedded_att) =>
  let d := with_attachment_chunks t d in
  if detector && body_lang_enabled cfg then
    match run_lang_detect_pass e (body_lang_detect_batch_size cfg) d with
    | (d, Err f) => ((d, (l1, l2)), Err f)
    | (d, Ok p) => ((d, (l1, l2)), Ok (Outcome (embedded_msg + embedded_att) (lp_visited p)))
    end
  else ((d, (l1, l2)), Ok (Outcome (embedded_msg + embedded_att) 0))
  end end end end.

(** The loop of [run_embed_worker]: each sweep with its environment, until the
    stop event; the sleeps are what it returns. *)
Fixpoint run_embed_worker (envs : list (embed_env V)) (cfg : search_config) (detector : bool) (max_steps poll : Z)
    (streak : Z) (log : failure_log) d : embed_db T V * failure_log * list Z :=
  match envs with
  | [] => (d, log, [])
  | e :: envs =>
      let '((d, log), r) := run_embed_worker_once e cfg detector log d in
      let outcome := match r with Ok o => o | Err _ => Outcome 0 0 end in
      let streak := next_idle_streak streak (made_progress outcome) max_steps in
      let '(d, log, sleeps) := run_embed_worker envs cfg detector max_steps poll streak log d in
      (d, log, sweep_sleep_seconds streak poll :: sleeps)
  end.
End sweep.
End Embed_worker.
