(* ===== verification/EmbedFacts.v ===== *)
(** * What the embedding worker guarantees *)
From S2P Require Import Prelude PyStr Datetime MailStore Chunking ChunkFacts EmbedWorker.
Import Chunking Embed_worker.

(** ** Claims *)
Lemma elem_of_by_id {A} (m : gmap Z A) i x : (i, x) ∈ by_id m <-> m !! i = Some x.
Proof. unfold by_id. by rewrite merge_sort_Permutation, elem_of_map_to_list. Qed.
Lemma NoDup_by_id {A} (m : gmap Z A) : NoDup (by_id m).*1.
Proof. unfold by_id. rewrite merge_sort_Permutation. apply NoDup_fst_map_to_list. Qed.
Lemma NoDup_fst_filter {A B} (P : A * B -> Prop) `{!forall x, Decision (P x)} (l : list (A * B)) :
  NoDup l.*1 -> NoDup (filter P l).*1.
Proof.
  induction l as [| x l IH]; [done |]. rewrite fmap_cons. intros [Hx Hl]%NoDup_cons. rewrite filter_cons.
  destruct (decide (P x)); [| by apply IH]. rewrite fmap_cons. apply NoDup_cons. split; [| by apply IH].
  intros (y & E & Hy)%list_elem_of_fmap. apply Hx. rewrite E. apply list_elem_of_filter in Hy as [_ Hy].
  by apply list_elem_of_fmap_2.
Qed.
Lemma limit_rows_spec {A} batch (l rows : list A) : limit_rows batch l = Ok rows ->
  rows = take (Z.to_nat batch) l /\ 0 <= batch.
Proof. unfold limit_rows. destruct (batch <? 0) eqn:E; [done |]. intros [= <-]. split; [done | zb]. Qed.
Lemma limit_rows_in {A} batch (l rows : list A) x : limit_rows batch l = Ok rows -> x ∈ rows -> x ∈ l.
Proof. intros [-> _]%limit_rows_spec (i & Hi & _)%elem_of_take. by eapply list_elem_of_lookup_2. Qed.
Lemma limit_rows_nodup {A B} batch (l rows : list (A * B)) : limit_rows batch l = Ok rows -> NoDup l.*1 -> NoDup rows.*1.
Proof. intros [-> _]%limit_rows_spec Hl. rewrite fmap_take. eapply sublist_NoDup, sublist_take; done. Qed.

Section facts.
Context `{Tokenizer} `{Datetime T} {V : Type}.
Implicit Types (d : embed_db T V) (e : embed_env V) (cfg : search_config).

(** ** Chunking messages *)
Lemma chunk_message_shape (msg : MessageRow T) cfg specs : chunk_message msg cfg = Ok specs ->
  exists first rest, specs = first :: rest /\ ck_kind first = KindHeader /\ ck_chunk_idx first = 0 /\
    Forall (fun c => ck_kind c = KindBody) rest.
Proof.
  unfold chunk_message. destruct (header_text msg _) as [h |]; [| done]. destruct (encode_tokens h); [| done].
  destruct (message_body msg cfg) as [| c b]; [by intros [= <-]; eexists _, [] |].
  destruct (encode_tokens (c :: b)) as [ts |]; [| done].
  destruct (_ <=? HEADER_BODY_INTRO_TOKENS)%nat; [by intros [= <-]; eexists _, [] |].
  destruct (split_by_tokens _ _ _) as [pieces |]; [| done].
  destruct (number_chunks KindBody 0 pieces) as [rest |] eqn:En; [| done]. intros [= <-].
  eexists _, rest. split_and!; [done.. |]. clear -En. revert En. generalize 0 as i. revert rest.
  induction pieces as [| p pieces IH]; intros rest i; cbn; [by intros [= <-] |].
  destruct (encode_tokens p); [| done]. destruct (number_chunks KindBody (i + 1) pieces) as [r |] eqn:E; [| done].
  intros [= <-]. constructor; [done | by eapply IH].
Qed.

(** A chunk of that key is stored. *)
Definition stored {K} (t : embed_table K V) (key : K) : Prop := exists i r, et_chunks t !! i = Some r /\ cr_key r = key.
(** Keys hand out ids nobody uses. *)
Record fresh_ids {K} (new_id : K -> Z) (t : embed_table K V) : Prop := {
  fi_new key : stored t key \/ et_chunks t !! new_id key = None;
  fi_inj k1 k2 : new_id k1 = new_id k2 -> k1 = k2;
}.

Section insert.
Context {K} `{EqDecision K} (new_id : K -> Z) (key : ChunkSpec -> K).
Lemma insert_chunk_spec t spec : fresh_ids new_id t ->
  fresh_ids new_id (insert_chunk new_id key t spec) /\ stored (insert_chunk new_id key t spec) (key spec) /\
  et_chunks t ⊆ et_chunks (insert_chunk new_id key t spec) /\
  et_failed (insert_chunk new_id key t spec) = et_failed t /\
  (forall k, stored (insert_chunk new_id key t spec) k -> stored t k \/ k = key spec).
Proof.
  intros [Hn Hi]. unfold insert_chunk. case_bool_decide as Hx.
  - destruct Hx as (i & r & Hr & Hk). split_and!; [done | by exists i, r | done | done | by left].
  - assert (Hfree : et_chunks t !! new_id (key spec) = None).
    { destruct (Hn (key spec)) as [(i & r & Hr & Hk) | ?]; [| done]. destruct Hx. by exists i, r. }
    split_and!; cbn.
    + split; [| done]. intros k. cbn. destruct (decide (k = key spec)) as [-> |].
      * left. eexists (new_id (key spec)), _. split; [apply lookup_insert_eq | done].
      * destruct (Hn k) as [(i & r & Hr & Hk) | Hnone].
        -- left. exists i, r. split; [| done]. cbn. rewrite lookup_insert_ne; [done | congruence].
        -- right. rewrite lookup_insert_ne; [done |]. intros E. by apply Hi in E.
    + eexists (new_id (key spec)), _. split; [apply lookup_insert_eq | done].
    + by apply insert_subseteq.
    + done.
    + intros k (i & r & Hr & Hk). cbn in Hr. apply lookup_insert_Some in Hr as [[_ <-] | [_ Hr]]; [by right | left; by exists i, r].
Qed.
Lemma insert_chunks_spec t specs : fresh_ids new_id t ->
  fresh_ids new_id (foldl (insert_chunk new_id key) t specs) /\
  Forall (fun spec => stored (foldl (insert_chunk new_id key) t specs) (key spec)) specs /\
  et_chunks t ⊆ et_chunks (foldl (insert_chunk new_id key) t specs) /\
  et_failed (foldl (insert_chunk new_id key) t specs) = et_failed t /\
  (forall k, stored (foldl (insert_chunk new_id key) t specs) k -> stored t k \/ exists spec, spec ∈ specs /\ k = key spec).
Proof.
  revert t. induction specs as [| spec specs IH]; intros t Ht; cbn [foldl]; [by split_and!; auto |].
  destruct (insert_chunk_spec t spec Ht) as (H1 & Hs & Hsub & Hf & Hk).
  destruct (IH _ H1) as (H2 & Hall & Hsub2 & Hf2 & Hk2). split_and!; [done | | by etrans | congruence |].
  - constructor; [| done]. destruct Hs as (i & r & Hr & Hkr). exists i, r. split; [by eapply lookup_weaken | done].
  - intros k [Hold | (s & Hs' & ->)]%Hk2; [apply Hk in Hold as [? | ->]; [by left |] |].
    + right. exists spec. split; [by left | done].
    + right. exists s. split; [by right | done].
Qed.
End insert.

Notation mtab := ed_message_chunks.
Definition chunked d (mid : Z) : Prop := exists key, key.1.1 = mid /\ stored (mtab d) key.
Lemma chunked_spec d mid : map_Exists (chunks_of_message mid) (et_chunks (mtab d)) <-> chunked d mid.
Proof.
  split.
  - intros (i & r & Hr & Hk). exists (cr_key r). split; [done | by exists i, r].
  - intros (key & Hk & i & r & Hr & <-). by exists i, r.
Qed.

(** How often the message [mid] will still be tried. *)
Definition tries_left cfg d (mid : Z) : nat :=
  if unchunked cfg d mid then
    match ed_failed_chunkings d !! mid with
    | Some n => Z.to_nat (embed_worker_max_chunk_retries cfg - n)
    | None => S (Z.to_nat (embed_worker_max_chunk_retries cfg))
    end
  else O.

(** What the pass does to everything but the messages it claimed. *)
Record chunk_step (touched : list Z) cfg d d' : Prop := {
  cs_messages : ed_messages d' = ed_messages d;
  cs_texts : ed_attachment_text d' = ed_attachment_text d;
  cs_attachments : ed_attachment_chunks d' = ed_attachment_chunks d;
  cs_failed_embeddings : et_failed (mtab d') = et_failed (mtab d);
  cs_chunks : et_chunks (mtab d) ⊆ et_chunks (mtab d');
  cs_keys key : stored (mtab d') key -> stored (mtab d) key \/ key.1.1 ∈ touched;
  cs_failed mid : mid ∉ touched -> ed_failed_chunkings d' !! mid = ed_failed_chunkings d !! mid;
}.
Lemma chunk_step_refl cfg d : chunk_step [] cfg d d.
Proof. split; auto. Qed.
Lemma chunk_step_trans t1 t2 cfg d1 d2 d3 : chunk_step t1 cfg d1 d2 -> chunk_step t2 cfg d2 d3 -> chunk_step (t1 ++ t2) cfg d1 d3.
Proof.
  intros [] []. split; try congruence; [by etrans | |].
  - intros key [Hk | Hk]%cs_keys1; [apply cs_keys0 in Hk as [? | ?]; [by left | right; set_solver] | right; set_solver].
  - intros mid Hm. rewrite cs_failed1, cs_failed0; set_solver.
Qed.
Lemma unchunked_frame t cfg d d' mid : chunk_step t cfg d d' -> mid ∉ t ->
  unchunked cfg d' mid = unchunked cfg d mid /\ tries_left cfg d' mid = tries_left cfg d mid.
Proof.
  intros Hs Hm. assert (Hu : unchunked cfg d' mid = unchunked cfg d mid).
  { unfold unchunked, exhausted. rewrite (cs_failed _ _ _ _ Hs) by done. f_equal. f_equal. apply bool_decide_ext.
    rewrite !chunked_spec. split; intros (key & Hk & Hst).
    - destruct (cs_keys _ _ _ _ Hs _ Hst) as [? | Hin]; [by exists key | by rewrite Hk in Hin].
    - exists key. split; [done |]. destruct Hst as (i & r & Hr & ?). exists i, r. split; [| done].
      eapply lookup_weaken; [exact Hr | apply (cs_chunks _ _ _ _ Hs)]. }
  split; [done |]. unfold tries_left. by rewrite Hu, (cs_failed _ _ _ _ Hs).
Qed.

(** The message of a claimed row after its turn: its chunks are all there, or
    its failure is counted, or not even that could be written. *)
Definition dealt_with e cfg d d' (im : Z * message T) : Prop :=
  (exists specs, chunk_message (em_row im.2) cfg = Ok specs /\ Forall (fun s => stored (mtab d') (message_key_of im.1 s)) specs) \/
  ed_failed_chunkings d' = bump im.1 (ed_failed_chunkings d) \/ ev_log_chunking_fails e im.1 = true.

Lemma chunk_one_spec e cfg d im d' : chunk_one_message e cfg d im = Ok d' -> fresh_ids (ev_message_chunk_id e) (mtab d) ->
  fresh_ids (ev_message_chunk_id e) (mtab d') /\ chunk_step [im.1] cfg d d' /\ dealt_with e cfg d d' im.
Proof.
  unfold chunk_one_message. intros Ho Hf.
  destruct (chunk_message (em_row im.2) cfg) as [specs |] eqn:Ec; cbn in Ho; [destruct (ev_insert e im.1) eqn:Ei |].
  2: { injection Ho as <-. destruct (insert_chunks_spec _ (message_key_of im.1) _ specs Hf) as (H1 & Hall & Hsub & Hfl & Hk).
    split_and!; [done | | left; by exists specs]. split; cbn; try done.
    intros key [Hold | (sp & _ & ->)]%Hk; [by left | right; by left]. }
  all: assert (Hrec : d' = record_failed_chunking e d im.1) by (by case_match; simplify_eq).
  all: subst d'; unfold dealt_with, record_failed_chunking; destruct (ev_log_chunking_fails e im.1);
    (split_and!; [done | | cbn; auto]); split; cbn; auto.
  all: intros mid Hm; unfold bump; rewrite lookup_insert_ne; [done | set_solver].
Qed.

Lemma chunk_rows_spec e cfg d rows d' : foldM (chunk_one_message e cfg) d rows = Ok d' -> NoDup rows.*1 ->
  fresh_ids (ev_message_chunk_id e) (mtab d) ->
  chunk_step rows.*1 cfg d d' /\ fresh_ids (ev_message_chunk_id e) (mtab d') /\
  Forall (fun im => exists d1 d2, unchunked cfg d1 im.1 = unchunked cfg d im.1 /\
    tries_left cfg d1 im.1 = tries_left cfg d im.1 /\ ed_failed_chunkings d1 !! im.1 = ed_failed_chunkings d !! im.1 /\
    dealt_with e cfg d1 d2 im /\ ed_failed_chunkings d2 !! im.1 = ed_failed_chunkings d' !! im.1 /\
    et_chunks (mtab d2) ⊆ et_chunks (mtab d')) rows.
Proof.
  revert d. induction rows as [| im rows IH]; intros d Hr Hnd Hf; cbn in Hr.
  { injection Hr as <-. split_and!; [apply chunk_step_refl | done | constructor]. }
  rewrite fmap_cons in Hnd. apply NoDup_cons in Hnd as [Hni Hnd].
  destruct (chunk_one_message e cfg d im) as [d1 |] eqn:Eo; [| done].
  destruct (chunk_one_spec _ _ _ _ _ Eo Hf) as (Hf1 & Hs1 & Hd1). destruct (IH d1 Hr Hnd Hf1) as (Hs2 & Hf2 & Hall).
  split_and!; [exact (chunk_step_trans [im.1] _ _ _ _ _ Hs1 Hs2) | done |]. constructor.
  - exists d, d1. split_and!; try done; [by rewrite (cs_failed _ _ _ _ Hs2) | apply (cs_chunks _ _ _ _ Hs2)].
  - apply Forall_forall. intros x Hx. rewrite Forall_forall in Hall. destruct (Hall x Hx) as (a & b & E1 & E2 & E3 & ?).
    assert (Hne : x.1 ∉ [im.1]).
    { intros Ex%list_elem_of_singleton. apply Hni. rewrite <- Ex. by apply list_elem_of_fmap_2. }
    destruct (unchunked_frame _ _ _ _ _ Hs1 Hne) as [Eu Et]. exists a, b. rewrite E1, E2, E3, Eu, Et.
    split_and!; try done; [apply (cs_failed _ _ _ _ Hs1); done | naive_solver..].
Qed.

Lemma claimed_row e cfg d batch rows im : claim_messages e cfg d batch = Ok rows -> im ∈ rows ->
  ed_messages d !! im.1 = Some im.2 /\ unchunked cfg d im.1 = true /\ ev_locked_messages e im.1 = false.
Proof.
  intros Hc Hin. eapply limit_rows_in in Hc; [| exact Hin]. apply list_elem_of_filter in Hc as [Hp Hc].
  destruct im as [mid m]. apply elem_of_by_id in Hc. zb_simpl. naive_solver.
Qed.
Lemma claimed_chunks_nodup e cfg d batch rows : claim_messages e cfg d batch = Ok rows -> NoDup rows.*1.
Proof. intros Hc. eapply limit_rows_nodup; [exact Hc |]. apply NoDup_fst_filter, NoDup_by_id. Qed.

Lemma tries_positive cfg d mid : unchunked cfg d mid = true -> (0 < tries_left cfg d mid)%nat.
Proof.
  intros Hu. unfold tries_left. rewrite Hu. unfold unchunked, exhausted in Hu. zb_simpl.
  destruct (ed_failed_chunkings d !! mid); [zb | lia].
Qed.
Lemma tries_drop e cfg d d1 d2 d' im :
  unchunked cfg d im.1 = true -> ev_log_chunking_fails e im.1 = false ->
  ed_failed_chunkings d1 !! im.1 = ed_failed_chunkings d !! im.1 -> dealt_with e cfg d1 d2 im ->
  ed_failed_chunkings d2 !! im.1 = ed_failed_chunkings d' !! im.1 -> et_chunks (mtab d2) ⊆ et_chunks (mtab d') ->
  (tries_left cfg d' im.1 < tries_left cfg d im.1)%nat.
Proof.
  intros Hu Hlog E1 Hd E2 Hsub. pose proof (tries_positive _ _ _ Hu) as Hpos.
  destruct Hd as [(specs & Hc & Hall) | [Hb | Hf]]; [| | congruence].
  - assert (Hch : chunked d' im.1).
    { destruct (chunk_message_shape _ _ _ Hc) as (first & rest & -> & _). apply Forall_cons in Hall as [(i & r & Hr & Hk) _].
      exists (cr_key r). rewrite Hk. split; [done |]. exists i, r. split; [by eapply lookup_weaken | by rewrite Hk]. }
    unfold tries_left at 1. replace (unchunked cfg d' im.1) with false; [lia |]. symmetry. unfold unchunked.
    rewrite bool_decide_eq_true_2 by by apply chunked_spec. done.
  - rewrite Hb in E2. unfold bump in E2. rewrite lookup_insert_eq, E1 in E2.
    unfold tries_left in *. rewrite Hu in *. rewrite <- E2.
    assert (Hx : match ed_failed_chunkings d !! im.1 with Some n => n < embed_worker_max_chunk_retries cfg | None => True end).
    { unfold unchunked, exhausted in Hu. zb_simpl. destruct (ed_failed_chunkings d !! im.1); [zb | done]. }
    destruct (unchunked cfg d' im.1) eqn:Hu'; [| lia]. unfold unchunked, exhausted in Hu'. rewrite <- E2 in Hu'. zb_simpl.
    destruct (ed_failed_chunkings d !! im.1); lia.
Qed.

Definition tries cfg d : nat := sum_list_with (tries_left cfg d) (by_id (ed_messages d)).*1.

(** An environment that neither holds rows nor loses failure rows. *)
Definition calm e d : Prop :=
  (forall mid, ev_locked_messages e mid = false) /\ (forall mid, ev_log_chunking_fails e mid = false) /\
  fresh_ids (ev_message_chunk_id e) (mtab d).
Inductive calm_sweeps cfg (batch : Z) : nat -> embed_db T V -> embed_db T V -> Prop :=
  | sweeps_none d : calm_sweeps cfg batch 0 d d
  | sweeps_more e d d1 n k d' : calm e d -> chunk_messages_lazily e cfg batch d = (d1, Ok n) ->
      calm_sweeps cfg batch k d1 d' -> calm_sweeps cfg batch (S k) d d'.

Lemma sum_less {A} (f g : A -> nat) l : (forall x, x ∈ l -> (g x <= f x)%nat) ->
  (sum_list_with g l <= sum_list_with f l)%nat /\
  forall x, x ∈ l -> (g x < f x)%nat -> (sum_list_with g l < sum_list_with f l)%nat.
Proof.
  induction l as [| y l IH]; intros Hle; [split; [done | intros x Hx; by apply elem_of_nil in Hx] |].
  destruct IH as [H1 H2]; [intros x Hx; apply Hle; by right |]. pose proof (Hle y ltac:(left)) as Hy. cbn. split; [lia |].
  intros x [-> | Hx]%elem_of_cons Hlt; [lia |]. pose proof (H2 x Hx Hlt). lia.
Qed.

Lemma pass_step e cfg batch d d' n : calm e d -> chunk_messages_lazily e cfg batch d = (d', Ok n) ->
  ed_messages d' = ed_messages d /\ (tries cfg d' <= tries cfg d)%nat /\
  (0 < batch -> tries cfg d <> O -> (tries cfg d' < tries cfg d)%nat).
Proof.
  intros (Hlock & Hlog & Hfresh). unfold chunk_messages_lazily.
  destruct (claim_messages e cfg d batch) as [rows |] eqn:Ec; [| done].
  destruct (foldM _ d rows) as [d1 |] eqn:Ef; [| done]. intros [= <- _].
  destruct (chunk_rows_spec _ _ _ _ _ Ef (claimed_chunks_nodup _ _ _ _ _ Ec) Hfresh) as (Hs & _ & Hall).
  assert (Hdrop : forall im, im ∈ rows -> (tries_left cfg d1 im.1 < tries_left cfg d im.1)%nat).
  { intros im Hin. rewrite Forall_forall in Hall. destruct (Hall im Hin) as (a & b & _ & _ & E1 & Hd & E2 & Hsub).
    destruct (claimed_row _ _ _ _ _ _ Ec Hin) as (_ & Hu & _). by eapply tries_drop. }
  assert (Hle : forall mid, (tries_left cfg d1 mid <= tries_left cfg d mid)%nat).
  { intros mid. destruct (decide (mid ∈ rows.*1)) as [(im & -> & Hin)%list_elem_of_fmap | Hni].
    - by apply Nat.lt_le_incl, Hdrop.
    - by destruct (unchunked_frame _ _ _ _ _ Hs Hni) as [_ ->]. }
  destruct (sum_less (tries_left cfg d) (tries_left cfg d1) (by_id (ed_messages d)).*1 (fun x _ => Hle x)) as [H1 H2].
  unfold tries. rewrite (cs_messages _ _ _ _ Hs). split_and!; [done | done |]. intros Hb Hne.
  assert (Hr : exists im, im ∈ rows).
  { destruct rows as [| im rows]; [| exists im; left]. exfalso. apply Hne. apply limit_rows_spec in Ec as [Ec _].
    destruct (filter _ (by_id (ed_messages d))) as [| x l] eqn:Efl; [| by destruct (Z.to_nat batch) eqn:?; [lia |]].
    enough (Hz : forall l0, (forall i, i ∈ l0 -> tries_left cfg d i = O) -> sum_list_with (tries_left cfg d) l0 = O).
    { apply Hz. intros i ([j m] & -> & Hin)%list_elem_of_fmap. cbn. unfold tries_left.
      destruct (unchunked cfg d j) eqn:Eu; [| done]. exfalso. assert (Hx : (j, m) ∈ @nil (Z * message T)); [| by apply elem_of_nil in Hx].
      rewrite <- Efl. apply list_elem_of_filter. cbn. by rewrite Eu, Hlock. }
    induction l0 as [| y l0 IH]; intros Hz; [done |]. cbn. rewrite Hz by left. apply IH. intros i Hi. apply Hz. by right. }
  destruct Hr as [im Hin]. apply (H2 im.1); [| by apply Hdrop].
  destruct (claimed_row _ _ _ _ _ _ Ec Hin) as (Hm & _). apply list_elem_of_fmap. exists im. split; [done |].
  destruct im. by apply elem_of_by_id.
Qed.

(** C21: the message queue drains.  After as many sweeps as the messages have
    tries left (at most one more than the retry limit each), with no contention
    and no row held by another session, every message has its chunks or has
    failed more often than the limit allows, however the tokenizer and the
    database treat each of them. *)
Theorem chunk_queue_drains cfg batch k d d' mid m :
  0 < batch -> calm_sweeps cfg batch k d d' -> (tries cfg d <= k)%nat -> ed_messages d !! mid = Some m ->
  chunked d' mid \/ exhausted (embed_worker_max_chunk_retries cfg) (ed_failed_chunkings d') mid = true.
Proof.
  intros Hb Hs. induction Hs as [d | e d d1 n k d' Hc Hp Hs IH]; intros Hk Hm.
  - assert (Ht : tries_left cfg d mid = O).
    { assert (Hz : tries cfg d = O) by lia. unfold tries in Hz. destruct (tries_left cfg d mid) eqn:Et; [done |].
      assert (Hin : mid ∈ (by_id (ed_messages d)).*1) by (apply list_elem_of_fmap; exists (mid, m); by rewrite elem_of_by_id).
      revert Hz Hin. generalize (by_id (ed_messages d)).*1. intros l. induction l as [| y l IH]; [intros _ Hx; by apply elem_of_nil in Hx |].
      cbn. intros Hz [<- | Hx]%elem_of_cons; [lia | apply IH; [lia | done]]. }
    destruct (unchunked cfg d mid) eqn:Eu; [pose proof (tries_positive _ _ _ Eu); lia |].
    unfold unchunked in Eu. apply andb_false_iff in Eu as [Eu | Eu]; apply negb_false_iff in Eu; [left | by right].
    by apply bool_decide_eq_true, chunked_spec in Eu.
  - destruct (pass_step _ _ _ _ _ _ Hc Hp) as (Hms & Hle & Hlt). apply IH; [| by rewrite Hms].
    destruct (decide (tries cfg d = O)); [lia | specialize (Hlt Hb n0); lia].
Qed.
End facts.

(** ** Embedding one table *)
Section embed.
Context {K V : Type} (update : Z -> option fault) (log_fails : Z -> bool).
Implicit Types (t : embed_table K V) (l : list ((Z * chunk_row K V) * V)).

(** What one batch leaves of the chunk [i], claimed with the vector [v]. *)
Definition settled t t' (i : Z) (v : V) : Prop :=
  match update i with
  | None => et_chunks t' !! i = set_embedding v <$> et_chunks t !! i /\ et_failed t' !! i = et_failed t !! i
  | Some _ =>
      et_chunks t' !! i = et_chunks t !! i /\
      et_failed t' !! i = if log_fails i then et_failed t !! i else bump i (et_failed t) !! i
  end.
Definition untouched t t' (i : Z) : Prop := et_chunks t' !! i = et_chunks t !! i /\ et_failed t' !! i = et_failed t !! i.

Lemma store_one_spec t w cv t' w' : store_one update log_fails (t, w) cv = Ok (t', w') ->
  settled t t' cv.1.1 cv.2 /\ (forall i, i <> cv.1.1 -> untouched t t' i) /\
  w' = w + (if update cv.1.1 then 0 else 1) /\ update cv.1.1 <> Some Contention.
Proof.
  unfold store_one, settled, untouched. destruct (update cv.1.1) as [[| c] |] eqn:Eu; [done | |]; intros [= <- <-].
  - unfold record_failed_embedding. split_and!; [by destruct (log_fails _) | by destruct (log_fails _) | | lia | done].
    intros i Hne. destruct (log_fails _); [done |]. cbn. unfold bump. by rewrite lookup_insert_ne.
  - cbn. split_and!; [by rewrite lookup_alter_eq | done | | done | done]. intros i Hne. by rewrite lookup_alter_ne.
Qed.
Lemma store_spec l : forall t w t' w', foldM (store_one update log_fails) (t, w) l = Ok (t', w') ->
  NoDup (l.*1).*1 ->
  Forall (fun cv => settled t t' cv.1.1 cv.2) l /\ (forall i, i ∉ (l.*1).*1 -> untouched t t' i) /\
  w' = w + Z.of_nat (length (filter (fun cv => update cv.1.1 = None) l)).
Proof.
  induction l as [| cv l IH]; intros t w t' w' Hf Hnd.
  { injection Hf as <- <-. split_and!; [constructor | done | cbn; lia]. }
  cbn [foldM] in Hf. destruct (store_one _ _ (t, w) cv) as [[t1 w1] |] eqn:E1; [| done].
  rewrite !fmap_cons in Hnd. apply NoDup_cons in Hnd as [Hni Hnd].
  destruct (store_one_spec _ _ _ _ _ E1) as (Hs & Hu & -> & _). destruct (IH _ _ _ _ Hf Hnd) as (Hall & Hun & ->).
  destruct (Hun _ Hni) as [Hc Hfl]. split_and!.
  - constructor.
    + unfold settled in *. rewrite Hc, Hfl. exact Hs.
    + apply Forall_forall. intros x Hx. rewrite Forall_forall in Hall. specialize (Hall x Hx).
      assert (Hne : x.1.1 <> cv.1.1).
      { intros E. apply Hni. rewrite <- E. by do 2 apply list_elem_of_fmap_2. }
      destruct (Hu _ Hne) as [E1' E2']. unfold settled, bump in *. rewrite E1', E2' in Hall. 
      destruct (update x.1.1); [| done]. by rewrite !lookup_insert_eq, ?E2' in *.
  - intros i Hi. rewrite !fmap_cons, not_elem_of_cons in Hi. destruct Hi as [Hne Hi].
    destruct (Hun i Hi) as [E1' E2'], (Hu i Hne) as [E1'' E2'']. split; congruence.
  - rewrite filter_cons. destruct (update cv.1.1); [rewrite decide_False by done | rewrite decide_True by done]; cbn; lia.
Qed.
End embed.

(** A sweep embeds exactly what it claimed.  It claims chunks without a
    vector that have not failed too often; each claimed chunk gets the vector
    the backend gave for its own text, or its failure is counted and its row is
    as it was; no other row is touched, so no vector is ever replaced; and when
    the backend fails, gives a wrong number of vectors or another session is in
    the way, the table is as before. *)
Lemma embedding_is_exact {K V : Type} locked update log_fails backend describe cfg now seen (t t' : embed_table K V) seen' r :
  run_embed_table locked update log_fails backend describe cfg now seen t = ((t', seen'), r) ->
  (t' = t /\ (r = Ok 0 \/ exists f, r = Err f)) \/
  exists claimed vectors,
    backend ((fun ir => cr_text ir.2) <$> claimed) = Ok vectors /\ length vectors = length claimed /\
    Forall (fun ir => et_chunks t !! ir.1 = Some ir.2 /\ cr_embedding ir.2 = None /\ locked ir.1 = false /\
      exhausted (embed_worker_max_chunk_retries cfg) (et_failed t) ir.1 = false) claimed /\
    Z.of_nat (length claimed) <= embed_worker_batch_size cfg /\
    (forall k i row v, claimed !! k = Some (i, row) -> vectors !! k = Some v -> settled update log_fails t t' i v) /\
    (forall i, i ∉ claimed.*1 -> untouched t t' i) /\
    r = Ok (Z.of_nat (length (filter (fun ir => update ir.1 = None) claimed))) /\ seen' = seen.
Proof.
  unfold run_embed_table. intros Hr. destruct (claim_unembedded _ _ _ t) as [claimed |] eqn:Ec; [| injection Hr as <- <- <-; left; eauto].
  assert (Hcl : Forall (fun ir => et_chunks t !! ir.1 = Some ir.2 /\ cr_embedding ir.2 = None /\ locked ir.1 = false /\
      exhausted (embed_worker_max_chunk_retries cfg) (et_failed t) ir.1 = false) claimed).
  { apply Forall_forall. intros [i row] Hin. eapply limit_rows_in in Hin; [| exact Ec].
    apply list_elem_of_filter in Hin as [Hp Hin%elem_of_by_id]. cbn in *. unfold unembedded in Hp. cbn in Hp.
    destruct (cr_embedding row); [done |]. zb_simpl. naive_solver. }
  assert (Hnd : NoDup claimed.*1) by (eapply limit_rows_nodup; [exact Ec | apply NoDup_fst_filter, NoDup_by_id]).
  pose proof (limit_rows_spec _ _ _ Ec) as [Htake Hb].
  destruct claimed as [| c claimed']; [injection Hr as <- <- <-; left; eauto |]. set (claimed := c :: claimed') in *.
  destruct (embed_and_store update log_fails backend t claimed) as [[t1 w] |] eqn:Es; injection Hr as <- <- <-; [right | left; eauto].
  unfold embed_and_store in Es. destruct (backend _) as [vectors |] eqn:Eb; [| done].
  destruct (foldM _ (t, 0) (zip claimed vectors)) as [[t2 w2] |] eqn:Ef; [| done].
  case_bool_decide as Hlen; [| done]. injection Es as <- <-.
  assert (Hz : (zip claimed vectors).*1 = claimed) by (apply fst_zip; lia).
  destruct (store_spec _ _ _ _ _ _ _ Ef ltac:(by rewrite Hz)) as (Hall & Hun & ->). rewrite Hz in Hun.
  exists claimed, vectors. split_and!; try done.
  - rewrite Htake, length_take. lia.
  - intros k i row v Hk Hv. rewrite Forall_forall in Hall. apply (Hall ((i, row), v)).
    apply list_elem_of_lookup. exists k. apply lookup_zip_with_Some. eauto.
  - rewrite Z.add_0_l. do 2 f_equal. rewrite <- Hz at 2. generalize (zip claimed vectors). intros l. clear.
    induction l as [| x l IH]; [done |]. rewrite fmap_cons.
    destruct (decide (update x.1.1 = None)); [rewrite !filter_cons_True by done | rewrite !filter_cons_False by done]; cbn [length]; by rewrite IH.
Qed.

(** ** Attachment texts *)
Section texts.
Context `{Tokenizer} `{Datetime T} {V : Type}.
Implicit Types (d : embed_db T V) (e : embed_env V) (cfg : search_config).

(** The first batch of the attachment queue. *)
Definition queue_head d (batch : Z) : list (bytes * pystr) :=
  take (Z.to_nat batch) (filter (fun st => unchunked_text d st = true) (by_sha (ed_attachment_text d))).
Lemma claim_queue_head e d batch : (forall sha, ev_locked_texts e sha = false) -> 0 <= batch ->
  claim_texts e d batch = Ok (queue_head d batch).
Proof.
  intros Hl Hb. unfold claim_texts, limit_rows, queue_head. destruct (batch <? 0) eqn:E; [zb |]. do 2 f_equal.
  apply list_filter_iff. intros st. by rewrite Hl, andb_true_r.
Qed.

(** Texts the tokenizer refuses can stop attachment ingestion for good.
    Their failure is recorded nowhere, so if the first batch of the queue holds
    nothing else, every sweep claims the same rows again, changes nothing and
    never reaches the texts behind them. *)
Lemma refused_texts_starve_the_queue (envs : list (embed_env V)) cfg batch d :
  0 <= batch -> Forall (fun e => forall sha, ev_locked_texts e sha = false) envs ->
  Forall (fun st => is_ok (chunk_attachment_text st.2 cfg) = false) (queue_head d batch) ->
  foldl (fun d e => (chunk_attachments_lazily e cfg batch d).1) d envs = d.
Proof.
  intros Hb Hl Hr. induction envs as [| e envs IH]; [done |]. apply Forall_cons in Hl as [He Hl]. cbn [foldl].
  unfold chunk_attachments_lazily. rewrite claim_queue_head by done. cbn [fst].
  replace (foldl (chunk_one_text e cfg) d (queue_head d batch)) with d; [by apply IH |].
  clear IH Hl. induction Hr as [| st l Hst _ IH]; [done |]. cbn [foldl]. unfold chunk_one_text at 2.
  by destruct (chunk_attachment_text st.2 cfg).
Qed.
End texts.

(** ** Languages *)
Lemma alter_insert_of {A} (f : A -> A) i (m : gmap Z A) x : m !! i = Some x -> alter f i m = <[i := f x]> m.
Proof.
  intros Hi. apply map_eq. intros j. destruct (decide (j = i)) as [-> |].
  - by rewrite lookup_alter_eq, lookup_insert_eq, Hi.
  - by rewrite lookup_alter_ne, lookup_insert_ne.
Qed.

Section lang.
Context `{Datetime T} {V : Type}.
Implicit Types (d : embed_db T V) (e : embed_env V) (ms : gmap Z (message T)).

Definition claimables ms : nat := size (filter (fun im => claimable im.2 = true) ms).

(** A turn takes its own row out of the queue. *)
Lemma claimables_insert ms i m m' : ms !! i = Some m -> claimable m = true -> claimable m' = false ->
  claimables ms = S (claimables (<[i := m']> ms)).
Proof.
  intros Hi Hc Hc'. unfold claimables. rewrite map_filter_insert_False by (cbn; congruence).
  rewrite map_filter_delete.
  assert (Hf : filter (fun im => claimable im.2 = true) ms !! i = Some m) by (by apply map_lookup_filter_Some).
  rewrite map_size_delete_Some by eauto. destruct (size _) eqn:Es; [| done].
  apply map_size_empty_iff in Es. by rewrite Es, lookup_empty in Hf.
Qed.

(** A row after its turn: stamped, with at most the label the detector gave. *)
Definition detected e (m m' : message T) : Prop :=
  em_row m' = em_row m /\ em_attempted_at m' = Some (ev_now e) /\
  forall code, em_body_lang m' = Some code -> ev_detect e (or_empty (ms_body_text (em_row m))) = Ok (Some code).

Lemma detect_one_spec e ms n im ms' n' : detect_one e (ms, n) im = Ok (ms', n') -> ev_stamp_fails e im.1 = false ->
  ms !! im.1 = Some im.2 -> claimable im.2 = true ->
  exists m', ms' = <[im.1 := m']> ms /\ detected e im.2 m'.
Proof.
  unfold detect_one. intros Hd Hstamp Hm Hc. assert (Hnone : em_body_lang im.2 = None).
  { unfold claimable in Hc. zb_simpl. naive_solver. }
  assert (Hmark : forall n0, @Ok fault _ (mark_attempted_safely e im.1 ms, n0) = Ok (ms', n') -> exists m', ms' = <[im.1 := m']> ms /\ detected e im.2 m').
  { intros n0 [= <- _]. unfold mark_attempted_safely. rewrite Hstamp, (alter_insert_of _ _ _ _ Hm).
    eexists. split; [done |]. split_and!; [done | done |]. cbn. congruence. }
  destruct (ev_detect e _) as [code | [| c]] eqn:Ed; cbn in Hd; [| done | by eapply Hmark].
  destruct (ev_lang_write e im.1) as [[| c] |]; [done | by eapply Hmark |]. injection Hd as <- _.
  rewrite (alter_insert_of _ _ _ _ Hm). eexists. split; [done |]. split_and!; [done | done |]. cbn. by intros code' [= ->].
Qed.
Lemma detected_claimable e m m' : detected e m m' -> claimable m' = false.
Proof. intros (_ & Hs & _). unfold claimable. rewrite Hs. by rewrite andb_false_r. Qed.

Lemma detect_rows_spec e l : forall ms n ms' n', foldM (detect_one e) (ms, n) l = Ok (ms', n') ->
  (forall mid, ev_stamp_fails e mid = false) -> NoDup l.*1 ->
  Forall (fun im => ms !! im.1 = Some im.2 /\ claimable im.2 = true) l ->
  claimables ms = (length l + claimables ms')%nat /\ (forall i, i ∉ l.*1 -> ms' !! i = ms !! i) /\
  Forall (fun im => exists m', ms' !! im.1 = Some m' /\ detected e im.2 m') l.
Proof.
  induction l as [| im l IH]; intros ms n ms' n' Hf Hstamp Hnd Hall.
  { injection Hf as <- <-. by split_and!; [| | constructor]. }
  cbn [foldM] in Hf. destruct (detect_one e (ms, n) im) as [[ms1 n1] |] eqn:E1; [| done].
  rewrite fmap_cons in Hnd. apply NoDup_cons in Hnd as [Hni Hnd]. apply Forall_cons in Hall as [[Hm Hc] Hall].
  destruct (detect_one_spec _ _ _ _ _ _ E1 (Hstamp _) Hm Hc) as (m' & -> & Hdet).
  assert (Hall' : Forall (fun im0 => <[im.1 := m']> ms !! im0.1 = Some im0.2 /\ claimable im0.2 = true) l).
  { apply Forall_forall. intros x Hx. rewrite Forall_forall in Hall. rewrite lookup_insert_ne; [by apply Hall |].
    intros E. apply Hni. rewrite E. by apply list_elem_of_fmap_2. }
  destruct (IH _ _ _ _ Hf Hstamp Hnd Hall') as (Hcount & Hun & Hd). split_and!.
  - rewrite (claimables_insert ms im.1 im.2 m' Hm Hc (detected_claimable _ _ _ Hdet)), Hcount. cbn. lia.
  - intros i Hi. rewrite fmap_cons, not_elem_of_cons in Hi. rewrite Hun, lookup_insert_ne; naive_solver.
  - constructor; [| done]. exists m'. rewrite Hun by done. by rewrite lookup_insert_eq.
Qed.

(** Language detection always moves on.  Each pass takes exactly the rows it
    visited out of the queue, labelled or declined; a pass that visits nothing
    means there is nothing left; and no row gets a label the detector did not
    give for its body, nor changes otherwise. *)
Lemma lang_queue_advances e limit d d' p :
  run_lang_detect_pass e limit d = (d', Ok p) -> (forall mid, ev_stamp_fails e mid = false) ->
  Z.of_nat (claimables (ed_messages d)) = Z.of_nat (claimables (ed_messages d')) + lp_visited p /\
  0 <= lp_visited p <= limit /\
  (0 < limit -> (forall mid, ev_locked_messages e mid = false) -> lp_visited p = 0 -> claimables (ed_messages d) = O) /\
  (forall mid m, ed_messages d !! mid = Some m -> exists m', ed_messages d' !! mid = Some m' /\
     (m' = m \/ claimable m = true /\ detected e m m')).
Proof.
  unfold run_lang_detect_pass. destruct (claim_lang e d limit) as [rows |] eqn:Ec; [| done].
  destruct (foldM _ _ rows) as [[ms n] |] eqn:Ef; [| done]. intros [= <- <-] Hstamp. cbn.
  assert (Hrows : Forall (fun im => ed_messages d !! im.1 = Some im.2 /\ claimable im.2 = true) rows).
  { apply Forall_forall. intros [i m] Hin. eapply limit_rows_in in Hin; [| exact Ec].
    apply list_elem_of_filter in Hin as [Hp Hin%elem_of_by_id]. cbn in *. zb_simpl. naive_solver. }
  assert (Hnd : NoDup rows.*1) by (eapply limit_rows_nodup; [exact Ec | apply NoDup_fst_filter, NoDup_by_id]).
  destruct (detect_rows_spec _ _ _ _ _ _ Ef Hstamp Hnd Hrows) as (Hcount & Hun & Hdet).
  pose proof (limit_rows_spec _ _ _ Ec) as [Htake Hb]. split_and!; [lia | lia | rewrite Htake, length_take; lia | |].
  - intros Hlim Hlock Hz. destruct (claimables (ed_messages d)) eqn:Ecl; [done | exfalso].
    assert (Hsome : filter (fun im => claimable im.2 = true) (ed_messages d) <> ∅).
    { intros E. unfold claimables in Ecl. rewrite E, map_size_empty in Ecl. done. }
    apply map_choose in Hsome as (i & m & [Hi Hc]%map_lookup_filter_Some). cbn in Hc.
    destruct rows as [| x rows]; [| cbn in Hz; lia]. symmetry in Htake.
    assert (Hin : (i, m) ∈ filter (fun im => claimable im.2 && negb (ev_locked_messages e im.1) = true) (by_id (ed_messages d)))
      by (apply list_elem_of_filter; cbn; rewrite Hc, Hlock; split; [done | by apply elem_of_by_id]).
    destruct (filter _ (by_id (ed_messages d))) as [| y l]; [by apply elem_of_nil in Hin |].
    destruct (Z.to_nat limit) eqn:En; [lia | done].
  - intros mid m Hm. destruct (decide (mid ∈ rows.*1)) as [(im & -> & Hin)%list_elem_of_fmap | Hni].
    + rewrite Forall_forall in Hdet, Hrows. destruct (Hdet im Hin) as (m' & Hm' & Hd), (Hrows im Hin) as [Hi Hc].
      rewrite Hm in Hi. injection Hi as ->. exists m'. auto.
    + exists m. rewrite Hun by done. auto.
Qed.
End lang.

(** ** Pacing the reports *)

(** A run of failures of one kind, at the clock readings [nows]: the record in
    the end, and for each failure what was reported. *)
Fixpoint note_all (prev : option ReportedFailure) (name : pystr) (interval : Z) (nows : list Z) :
    option ReportedFailure * list (Z * FailureReport) :=
  match nows with
  | [] => (prev, [])
  | now :: nows =>
      let r := note_failure prev name now interval in
      let '(last, rest) := note_all (Some (fr_record r)) name interval nows in (last, (now, r) :: rest)
  end.
Definition logged (rs : list (Z * FailureReport)) : list (Z * FailureReport) := filter (fun r => fr_log_it r.2 = true) rs.
Definition pending (rf : option ReportedFailure) : Z := match rf with Some p => rf_since_report p | None => 0 end.
Definition suppressed (rs : list (Z * FailureReport)) : Z := foldr (fun r n => fr_suppressed r.2 + n) 0 rs.
(** Successive reports are at least [interval] apart. *)
Fixpoint spaced (interval : Z) (from : option Z) (rs : list (Z * FailureReport)) : Prop :=
  match rs with
  | [] => True
  | r :: rs => (match from with Some t => interval <= r.1 - t | None => True end) /\ spaced interval (Some r.1) rs
  end.

(** Throttling the failure reports loses none.  Over any run of failures of
    one kind, every failure is either reported, or counted in a later report, or
    still counted in the record; reports of a positive interval are at least that
    far apart, and without an interval every failure is reported. *)
Lemma failure_reports_account prev name interval nows last rs :
  match prev with Some p => rf_exc_name p = name | None => True end ->
  note_all prev name interval nows = (last, rs) ->
  Z.of_nat (length (logged rs)) + suppressed rs + pending last = Z.of_nat (length nows) + pending prev /\
  (0 < interval -> spaced interval (rf_reported_at <$> prev) (logged rs)) /\
  (interval <= 0 -> length (logged rs) = length nows).
Proof.
  revert prev last rs. induction nows as [| now nows IH]; intros prev last rs Hp; cbn; [by intros [= <- <-] |].
  destruct (note_all (Some _) name interval nows) as [last1 rs1] eqn:En. intros [= <- <-].
  assert (Hname : rf_exc_name (fr_record (note_failure prev name now interval)) = name).
  { unfold note_failure. destruct prev as [p |]; [| done]. by case_ifs. }
  destruct (IH (Some _) _ _ Hname En) as (Hsum & Hsp & Hall). cbn [fmap option_fmap option_map pending] in Hsum, Hsp.
  unfold logged, suppressed in *. rewrite filter_cons. unfold note_failure in *. destruct prev as [p |].
  - rewrite Hp in *. unfold str_eqb in *. rewrite bool_decide_eq_true_2 in * by done. cbn [negb] in *.
    destruct ((interval <=? 0) || (interval <=? now - rf_reported_at p)) eqn:Ei; cbn in *.
    + rewrite !decide_True by done. cbn. split_and!; [lia | | intros; f_equal; auto]. intros Hi. split; [zb | auto].
    + rewrite !decide_False by done. split_and!; [lia | auto |]. intros Hi. zb.
  - cbn in *. rewrite !decide_True by done. cbn. split_and!; [lia | auto | intros; f_equal; auto].
Qed.

(** ** A small archive *)
Lemma fresh_by_key {K V} (new_id : K -> Z) (t : embed_table K V) :
  (forall k1 k2, new_id k1 = new_id k2 -> k1 = k2) ->
  map_Forall (fun i r => i = new_id (cr_key r)) (et_chunks t) -> fresh_ids new_id t.
Proof.
  intros Hi Hall. split; [| done]. intros key. destruct (et_chunks t !! new_id key) as [r |] eqn:Er; [left | by right].
  exists (new_id key), r. split; [done |]. symmetry. apply Hi. exact (Hall _ _ Er).
Qed.

Module Example_worker.
Import Example_chunks.
Definition key_id (k : message_key) : Z := Z.pos (encode k).
Definition blob_id (k : blob_key) : Z := Z.pos (encode k).
Lemma key_id_inj k1 k2 : key_id k1 = key_id k2 -> k1 = k2.
Proof. unfold key_id. intros [= E]. by apply (inj encode) in E. Qed.
Definition calm_env : embed_env Z :=
  EmbedEnv Z (fun _ => false) (fun _ => false) (fun _ _ => false) (fun _ => None) (fun _ => None) key_id blob_id
    (fun _ cid => if cid =? 8 then Some (OtherError (lit "DataError")) else None) (fun _ _ => false) (fun _ => false)
    (fun _ texts => Ok ((fun s => Z.of_nat (length s)) <$> texts))
    (fun text => if contains 9999 text then Err (OtherError (lit "RuntimeError")) else if (length text <? 3)%nat then Ok None else Ok (Some (lit "en")))
    (fun _ => None) (fun _ => false) 77 5 (fun _ => lit "Error").
Definition mail (body : pystr) : message Calendar.datetime :=
  EmbedMessage (Message (Some (lit "Hi")) (Some (lit "a@b")) None None None (Some body)) None None.
Definition config : search_config := ChunkConfig 5 2 true true 1000 10 1 4 60 true 10.
(** Two ordinary messages and one the tokenizer refuses. *)
Definition archive : embed_db Calendar.datetime Z :=
  EmbedDb {[ 1 := mail (lit "hello"); 2 := mail [9999]; 3 := mail (lit "ok") ]}
    {[ [1] := [9999]; [2] := [9999; 65]; [3] := lit "text" ]} (EmbedTable ∅ ∅) (EmbedTable ∅ ∅) ∅.
Definition sweep_once (d : embed_db Calendar.datetime Z) : embed_db Calendar.datetime Z :=
  (chunk_messages_lazily calm_env config 10 d).1.
Definition keyed (d : embed_db Calendar.datetime Z) : bool :=
  bool_decide (map_Forall (fun i (r : chunk_row message_key Z) => i = key_id (cr_key r)) (et_chunks (ed_message_chunks d))).

Lemma calm_keyed d : keyed d = true -> calm calm_env d.
Proof. intros Hk%bool_decide_eq_true. split_and!; [done | done |]. apply fresh_by_key; [exact key_id_inj | exact Hk]. Qed.

Lemma chunk_queue_drains_witness :
  let d' := Nat.iter 6 sweep_once archive in
  calm_sweeps config 10 6 archive d' /\
  forall mid m, ed_messages archive !! mid = Some m ->
    chunked d' mid \/ exhausted 1 (ed_failed_chunkings d') mid = true.
Proof.
  cbv zeta. assert (Hs : calm_sweeps config 10 6 archive (Nat.iter 6 sweep_once archive)).
  { assert (Hstep : forall k j d', calm calm_env (Nat.iter j sweep_once archive) ->
      is_ok (chunk_messages_lazily calm_env config 10 (Nat.iter j sweep_once archive)).2 = true ->
      calm_sweeps config 10 k (Nat.iter (S j) sweep_once archive) d' -> calm_sweeps config 10 (S k) (Nat.iter j sweep_once archive) d').
    { intros k j d' Hc Hok Hrest. destruct (chunk_messages_lazily calm_env config 10 (Nat.iter j sweep_once archive)) as [d1 [n | f]] eqn:E; [| done].
      eapply sweeps_more; [exact Hc | exact E |]. change (Nat.iter (S j) sweep_once archive) with (sweep_once (Nat.iter j sweep_once archive)) in Hrest.
      unfold sweep_once at 1 in Hrest. by rewrite E in Hrest. }
    apply (Hstep 5%nat 0%nat); [apply calm_keyed; by vm_compute | by vm_compute |].
    apply (Hstep 4%nat 1%nat); [apply calm_keyed; by vm_compute | by vm_compute |].
    apply (Hstep 3%nat 2%nat); [apply calm_keyed; by vm_compute | by vm_compute |].
    apply (Hstep 2%nat 3%nat); [apply calm_keyed; by vm_compute | by vm_compute |].
    apply (Hstep 1%nat 4%nat); [apply calm_keyed; by vm_compute | by vm_compute |].
    apply (Hstep 0%nat 5%nat); [apply calm_keyed; by vm_compute | by vm_compute |]. constructor. }
  split; [exact Hs |]. intros mid m Hm.
  apply (chunk_queue_drains config 10 6 archive (Nat.iter 6 sweep_once archive) mid m); [lia | exact Hs | by vm_compute; lia | exact Hm].
Defined.

Definition table : embed_table message_key Z :=
  EmbedTable {[ 7 := ChunkRow (1, KindHeader, 0) (lit "abc") 3 None; 8 := ChunkRow (2, KindHeader, 0) (lit "x") 1 None;
                9 := ChunkRow (3, KindHeader, 0) (lit "y") 1 (Some 4) ]} ∅.

Lemma failure_reports_account_witness :
  let '(last, rs) := note_all None (lit "ConnectionError") 60 [0; 5; 10; 70; 75] in
  length (logged rs) = 2%nat /\ suppressed rs = 2 /\ pending last = 1.
Proof.
  destruct (note_all None (lit "ConnectionError") 60 [0; 5; 10; 70; 75]) as [last rs] eqn:E.
  destruct (failure_reports_account None (lit "ConnectionError") 60 [0; 5; 10; 70; 75] last rs I E) as (Hsum & _ & _).
  vm_compute in E. injection E as <- <-. split; [reflexivity |]. split; [reflexivity |].
  vm_compute in Hsum |- *. reflexivity.
Defined.
End Example_worker.
