(* ===== verification/Credentials.v ===== *)
(** * Credentials: the tables and [api/auth.py]

    [api_users], [api_tokens] (session tokens, OAuth access tokens and API
    keys), the OAuth tables and the login audit, with the two SQL fragments
    ([revocation_sql.py], [login_eligible_sql.py]) every lookup is built from.
    Token tables are keyed by the SHA-256 of the token.  Times are seconds; a
    transaction's [now()] is an argument. *)
From S2P Require Import Prelude PyStr MailStore Errors.

Record user_row := UserRow {
  u_username : pystr;
  u_password_hash : pystr;
  u_is_admin : bool;
  u_is_service : bool;
  u_disabled_at : option Z;
  u_sessions_invalidated_at : option Z;
}.

Record token_row := TokenRow {
  t_user_id : Z;
  t_created_at : Z;
  t_expires_at : option Z;
  t_last_used_at : option Z;
  t_api_key_name : option pystr;
  t_oauth_client_id : option pystr;
  t_oauth_refresh_family_id : option Z;
  t_oauth_resource : option pystr;
}.

Record refresh_row := RefreshRow {
  r_client_id : pystr;
  r_user_id : Z;
  r_scopes : list pystr;
  r_created_at : Z;
  r_expires_at : Z;
  r_consumed_at : option Z;
  r_family_id : Z;
  r_resource : option pystr;
}.

Record code_row := CodeRow {
  c_client_id : pystr;
  c_user_id : Z;
  c_redirect_uri : pystr;
  c_redirect_uri_provided_explicitly : bool;
  c_code_challenge : pystr;
  c_scopes : list pystr;
  c_created_at : Z;
  c_expires_at : Z;
  c_resource : option pystr;
}.

Inductive login_outcome := LoginSuccess | LoginFailure.
#[export] Instance login_outcome_eq_dec : EqDecision login_outcome.
Proof. solve_decision. Defined.

Record login_attempt := LoginAttempt {
  la_ts : Z;
  la_ip : option pystr;
  la_username : pystr;
  la_outcome : login_outcome;
}.

Record auth_db := AuthDb {
  api_users : gmap Z user_row;
  api_tokens : gmap bytes token_row;
  oauth_refresh_tokens : gmap bytes refresh_row;
  oauth_authorization_codes : gmap bytes code_row;
  api_login_attempts : list login_attempt;
}.
Definition set_users (x : gmap Z user_row) (d : auth_db) : auth_db :=
  AuthDb x (api_tokens d) (oauth_refresh_tokens d) (oauth_authorization_codes d) (api_login_attempts d).
Definition set_tokens (x : gmap bytes token_row) (d : auth_db) : auth_db :=
  AuthDb (api_users d) x (oauth_refresh_tokens d) (oauth_authorization_codes d) (api_login_attempts d).
Definition set_refresh (x : gmap bytes refresh_row) (d : auth_db) : auth_db :=
  AuthDb (api_users d) (api_tokens d) x (oauth_authorization_codes d) (api_login_attempts d).
Definition set_codes (x : gmap bytes code_row) (d : auth_db) : auth_db :=
  AuthDb (api_users d) (api_tokens d) (oauth_refresh_tokens d) x (api_login_attempts d).
Definition set_attempts (x : list login_attempt) (d : auth_db) : auth_db :=
  AuthDb (api_users d) (api_tokens d) (oauth_refresh_tokens d) (oauth_authorization_codes d) x.

(** [hashlib.sha256] of a token and argon2, with the law the code relies on. *)
Class Crypto := {
  hash_token : pystr -> bytes;
  hasher_hash : pystr -> pystr;
  hasher_verify : pystr -> pystr -> bool;      (* stored hash, password *)
  DUMMY_PASSWORD_HASH : pystr;
  hasher_verify_hash : forall pw, hasher_verify (hasher_hash pw) pw = true;
}.

(** [AuthConfig]. *)
Record auth_config := AuthConfig {
  login_per_user_max : Z; login_per_user_window_s : Z;
  login_per_ip_max : Z; login_per_ip_window_s : Z;
  login_global_max : Z; login_global_window_s : Z;
  login_attempt_retention_s : Z; login_cleanup_interval_s : Z;
}.

Module Credential.
(** [credential_valid_sql]: over a user row that an outer join may not have
    found (every column NULL) and the credential's [created_at]. *)
Definition credential_valid (u : option user_row) (created_at : Z) : Sql.cond :=
  let disabled_at := u ≫= u_disabled_at in
  let invalidated := u ≫= u_sessions_invalidated_at in
  Sql.and (Sql.is_null disabled_at)
    (Sql.or (Sql.is_null invalidated) (Sql.ge (Some created_at) invalidated)).

(** [login_eligible_sql] *)
Definition login_eligible (u : user_row) : Sql.cond :=
  Sql.and (Sql.is_null (u_disabled_at u)) (Some (negb (u_is_service u))).

(** What the fragment means for a user that exists. *)
Definition honoured (u : user_row) (created_at : Z) : bool :=
  match u_disabled_at u with
  | Some _ => false
  | None => match u_sessions_invalidated_at u with None => true | Some c => c <=? created_at end
  end.

Lemma credential_valid_spec u created : Sql.kept (credential_valid (Some u) created) = honoured u created.
Proof.
  unfold credential_valid, honoured, Sql.ge, Sql.cmp. cbn.
  destruct (u_disabled_at u), (u_sessions_invalidated_at u); cbn; try done.
  by destruct (_ <=? _).
Qed.

End Credential.
Import Credential.

Module Auth.
Section auth.
Context `{Crypto}.

Definition TOKEN_TTL_DAYS : Z := 30.
Definition LAST_USED_REFRESH_SECONDS : Z := 60.
Definition day : Z := 86400.

Definition hash_password (password : pystr) : res exn pystr :=
  match password with [] => Err ValueError | _ => Ok (hasher_hash password) end.
Definition verify_password (password stored : pystr) : bool := hasher_verify stored password.

(** ** The login rate limiter *)

(** [record_login_attempt]: committed at once; a missing table or a broken
    connection drops the row. *)
Definition record_login_attempt (insert_fails : bool) (now : Z) (d : auth_db)
    (username : pystr) (client_ip : option pystr) (o : login_outcome) : auth_db :=
  if insert_fails then d
  else set_attempts (api_login_attempts d ++ [LoginAttempt now client_ip username o]) d.

Definition sweep_login_attempts (lock_free : bool) (now retention_s : Z) (d : auth_db) :
    auth_db * Z :=
  if negb lock_free then (d, 0)
  else
    let keep := filter (fun a => ~ la_ts a < now - retention_s) (api_login_attempts d) in
    (set_attempts keep d, Z.of_nat (length (api_login_attempts d) - length keep)).

Definition failed_from_ip (now w : Z) (ip : option pystr) (a : login_attempt) : Prop :=
  (is_Some ip /\ la_ip a = ip) /\ la_outcome a = LoginFailure /\ now - w < la_ts a.
#[global] Instance failed_from_ip_dec now w ip a : Decision (failed_from_ip now w ip a).
Proof. unfold failed_from_ip. apply _. Defined.

(** [MAX(ts)] of the user's successes; NULL when there is none. *)
Definition last_success (username : pystr) (l : list login_attempt) : option Z :=
  foldr (fun a m =>
    if bool_decide (la_username a = username) && bool_decide (la_outcome a = LoginSuccess)
    then Some (match m with None => la_ts a | Some t => Z.max (la_ts a) t end) else m) None l.

Definition failed_for_user (now w : Z) (username : pystr) (since : option Z)
    (a : login_attempt) : Prop :=
  la_username a = username /\ la_outcome a = LoginFailure /\ now - w < la_ts a /\
  match since with None => True | Some t => t < la_ts a end.
#[global] Instance failed_for_user_dec now w u s a : Decision (failed_for_user now w u s a).
Proof. unfold failed_for_user. destruct s; apply _. Defined.

Definition count (P : login_attempt -> Prop) `{!forall a, Decision (P a)}
    (l : list login_attempt) : Z := Z.of_nat (length (filter P l)).

Definition check_login_rate_limits (cfg : auth_config) (now : Z) (d : auth_db)
    (username : pystr) (client_ip : option pystr) : res exn () :=
  let widest := Z.max (login_global_window_s cfg)
                  (Z.max (login_per_ip_window_s cfg) (login_per_user_window_s cfg)) in
  let rows := filter (fun a => now - widest < la_ts a) (api_login_attempts d) in
  let global_attempts := count (fun a => now - login_global_window_s cfg < la_ts a) rows in
  let ip_failures := count (failed_from_ip now (login_per_ip_window_s cfg) client_ip) rows in
  let user_failures :=
    count (failed_for_user now (login_per_user_window_s cfg) username
             (last_success username (api_login_attempts d))) rows in
  if login_global_max cfg <=? global_attempts
  then Err (RateLimited (Some CapGlobal) (Some (login_global_window_s cfg)))
  else if bool_decide (is_Some client_ip) && (login_per_ip_max cfg <=? ip_failures)
  then Err (RateLimited (Some CapIp) (Some (login_per_ip_window_s cfg)))
  else if login_per_user_max cfg <=? user_failures
  then Err (RateLimited (Some CapUser) (Some (login_per_user_window_s cfg)))
  else Ok ().

(** The audit trail and the per-process sweep timestamp, both cleared. *)
Definition reset_login_rate_limiter (d : auth_db) : auth_db * Z := (set_attempts [] d, 0).

(** [_maybe_sweep]: the per-process timestamp moves before the sweep. *)
Definition maybe_sweep (lock_free : bool) (cfg : auth_config) (mono now : Z)
    (d : auth_db) (last_sweep : Z) : auth_db * Z :=
  if mono - last_sweep <? login_cleanup_interval_s cfg then (d, last_sweep)
  else ((sweep_login_attempts lock_free now (login_attempt_retention_s cfg) d).1, mono).

(** ** Tokens *)

Record AuthenticatedUser := MkUser {
  au_id : Z; au_username : pystr; au_is_admin : bool; au_is_api_key : bool }.

(** [INSERT ... SELECT ... FROM api_users WHERE id = .. AND is_service IS
    FALSE]: no row is inserted for an unknown user or a service principal. *)
Definition session_user (d : auth_db) (user_id : Z) : bool :=
  match api_users d !! user_id with Some u => negb (u_is_service u) | None => false end.

Definition issue_token (now : Z) (raw : pystr) (d : auth_db) (user_id : Z) :
    res exn (auth_db * (pystr * Z)) :=
  let expires_at := now + TOKEN_TTL_DAYS * day in
  if session_user d user_id then
    Ok (set_tokens (<[hash_token raw := TokenRow user_id now (Some expires_at) None None
                        None None None]> (api_tokens d)) d, (raw, expires_at))
  else Err SessionCredentialRefused.

Definition token_live (now : Z) (d : auth_db) (t : token_row) : option user_row :=
  match api_users d !! t_user_id t with
  | None => None
  | Some u =>
      if Sql.kept (Sql.and (Sql.or (Sql.is_null (t_expires_at t)) (Sql.gt (t_expires_at t) (Some now)))
                     (credential_valid (Some u) (t_created_at t)))
      then Some u else None
  end.

Definition touch (now : Z) (t : token_row) : token_row :=
  if match t_last_used_at t with None => true | Some l => l <? now - LAST_USED_REFRESH_SECONDS end
  then TokenRow (t_user_id t) (t_created_at t) (t_expires_at t) (Some now) (t_api_key_name t)
         (t_oauth_client_id t) (t_oauth_refresh_family_id t) (t_oauth_resource t)
  else t.

Definition verify_token (now : Z) (d : auth_db) (token : pystr) :
    auth_db * option AuthenticatedUser :=
  let h := hash_token token in
  match api_tokens d !! h with
  | None => (d, None)
  | Some t =>
      match token_live now d t with
      | None => (d, None)
      | Some u =>
          (set_tokens (<[h := touch now t]> (api_tokens d)) d,
           Some (MkUser (t_user_id t) (u_username u) (u_is_admin u)
                   (bool_decide (is_Some (t_api_key_name t)))))
      end
  end.

Definition create_user (new_id : Z) (d : auth_db) (username password : pystr) :
    res exn (auth_db * Z) :=
  let* pw_hash := hash_password password in
  Ok (set_users (<[new_id := UserRow username pw_hash false false None None]> (api_users d)) d, new_id).

Definition named (username : pystr) (_ : Z) (u : user_row) : Prop :=
  u_username u = username /\ Sql.kept (login_eligible u) = true.
#[global] Instance named_dec n i u : Decision (named n i u).
Proof. unfold named. apply _. Defined.

(** What one login meets outside the database: the tokens' generator, the
    clocks and the audit insert. *)
Record login_env := LoginEnv {
  le_now : Z; le_mono : Z; le_lock_free : bool; le_insert_fails : bool; le_raw : pystr }.

(** What [login] does once the limiter has let it through. *)
Definition login_verdict (cfg : auth_config) (e : login_env) (d : auth_db) (last_sweep : Z)
    (username password : pystr) (client_ip : option pystr) :
    (auth_db * Z) * res exn (pystr * Z) :=
  let settle o :=
    maybe_sweep (le_lock_free e) cfg (le_mono e) (le_now e)
      (record_login_attempt (le_insert_fails e) (le_now e) d username client_ip o) last_sweep in
  match find_key (named username) (api_users d) ≫= fun i => pair i <$> api_users d !! i with
  | None => (settle LoginFailure, Err AuthenticationFailed)
  | Some (i, u) =>
      if verify_password password (u_password_hash u) then
        let '(d1, s1) := settle LoginSuccess in
        match issue_token (le_now e) (le_raw e) d1 i with
        | Ok (d2, r) => ((d2, s1), Ok r)
        | Err x => ((d1, s1), Err x)
        end
      else (settle LoginFailure, Err AuthenticationFailed)
  end.
Definition login (cfg : auth_config) (e : login_env) (d : auth_db) (last_sweep : Z)
    (username password : pystr) (client_ip : option pystr) :
    (auth_db * Z) * res exn (pystr * Z) :=
  match check_login_rate_limits cfg (le_now e) d username client_ip with
  | Err x => ((d, last_sweep), Err x)
  | Ok _ => login_verdict cfg e d last_sweep username password client_ip
  end.

Definition whoami (now : Z) (d : auth_db) (token : pystr) : auth_db * res exn AuthenticatedUser :=
  match verify_token now d token with
  | (d1, Some u) => (d1, Ok u)
  | (d1, None) => (d1, Err InvalidToken)
  end.

Definition logout (d : auth_db) (token : pystr) : auth_db * res exn () :=
  let h := hash_token token in
  match api_tokens d !! h with
  | Some t =>
      match t_api_key_name t with
      | None => (set_tokens (delete h (api_tokens d)) d, Ok ())
      | Some _ => (d, Err SessionCredentialRefused)
      end
  | None => (d, Ok ())
  end.

Definition refresh_token (now : Z) (raw : pystr) (d : auth_db) (token : pystr) :
    auth_db * res exn (pystr * Z) :=
  match verify_token now d token with
  | (d1, None) => (d1, Err InvalidToken)
  | (d1, Some u) =>
      if au_is_api_key u then (d1, Err SessionCredentialRefused)
      else match issue_token now raw d1 (au_id u) with
           | Err x => (d1, Err x)
           | Ok (d2, r) => (set_tokens (delete (hash_token token) (api_tokens d2)) d2, Ok r)
           end
  end.

Definition change_password (d : auth_db) (user_id : Z) (old_password new_password : pystr) :
    res exn auth_db :=
  match new_password with
  | [] => Err ValidationFailed
  | _ =>
    match api_users d !! user_id ≫= (fun u => if Sql.kept (login_eligible u) then Some u else None) with
    | None => Err AuthenticationFailed
    | Some u =>
        if negb (verify_password old_password (u_password_hash u)) then Err AuthenticationFailed
        else
          let* new_hash := hash_password new_password in
          Ok (set_users (<[user_id := UserRow (u_username u) new_hash (u_is_admin u)
                (u_is_service u) (u_disabled_at u) (u_sessions_invalidated_at u)]> (api_users d)) d)
    end
  end.
End auth.
End Auth.
