(* ===== verification/OAuth.v ===== *)
(** * The OAuth authorization server ([mcp/oauth/])

    Authorization codes, rotating refresh tokens, access tokens, and the two
    exchanges of [provider.py] over them.  A function's [now] is its
    transaction's [now()]; fresh raw tokens and family ids are arguments. *)
From S2P Require Import Prelude PyStr MailStore Errors Credentials.
Import Credential Auth.

(** [codes.ConsumeResult], [refresh.RotateResult]. *)
Record consume_result := ConsumeResult { burned : bool; still_valid : bool }.
Inductive rotate_result :=
  | Rotated (new_token : pystr)
  | Reuse (family_id : Z)
  | Unknown.

(** How a token endpoint fails: the SDK's [TokenError("invalid_grant")], the
    api error [mint_access] raises, or a failed [assert]. *)
Inductive oauth_error :=
  | InvalidGrant
  | Refused (e : exn)
  | AssertionError.

Record oauth_token := OAuthToken {
  ot_access_token : pystr; ot_expires_in : Z; ot_refresh_token : pystr }.

(** [resource_indicator.py]; the URL canonicalisation itself is a parameter. *)
Module Resource_indicator.
Section resource.
Context (canonicalize_resource : pystr -> option pystr).

Inductive resource_decision := Bound (r : pystr) | Rejected.

Definition resolve_accepted_resources (configured : option (list pystr)) (derived : pystr) :
    res exn (list pystr) :=
  match configured with
  | Some ((_ :: _) as c) =>
      match omap (fun x => match canonicalize_resource x with Some [] => None | r => r end) c with
      | [] => Err ValueError
      | out => Ok out
      end
  | _ => match canonicalize_resource derived with
         | Some r => Ok [r]
         | None => Err ValueError
         end
  end.

(** [accepted[0]] of an empty list would be an [IndexError];
    [resolve_accepted_resources] never returns one. *)
Definition decide_resource (requested : option pystr) (accepted : list pystr) (require : bool) :
    option resource_decision :=
  match requested with
  | None => if require then Some Rejected else Bound <$> head accepted
  | Some raw =>
      Some match canonicalize_resource raw with
           | Some c => if bool_decide (c ∈ accepted) then Bound c else Rejected
           | None => Rejected
           end
  end.
End resource.
End Resource_indicator.

Module OAuth.
Section oauth.
Context `{Crypto}.

(** ** Authorization codes ([codes.py]) *)

Definition mint_code (now : Z) (raw : pystr) (d : auth_db) (client_id : pystr) (user_id : Z)
    (redirect_uri : pystr) (explicit : bool) (code_challenge : pystr) (scopes : list pystr)
    (ttl_s : Z) (resource : option pystr) : auth_db :=
  set_codes (<[hash_token raw := CodeRow client_id user_id redirect_uri explicit code_challenge
      scopes now (now + ttl_s) resource]> (oauth_authorization_codes d)) d.

Definition code_condition (now : Z) (u : option user_row) (c : code_row) : Sql.cond :=
  Sql.and (Sql.gt (Some (c_expires_at c)) (Some now)) (credential_valid u (c_created_at c)).

Definition load_code (now : Z) (d : auth_db) (raw_code : pystr) : option code_row :=
  match oauth_authorization_codes d !! hash_token raw_code with
  | None => None
  | Some c =>
      match api_users d !! c_user_id c with       (* JOIN *)
      | None => None
      | Some u => if Sql.kept (code_condition now (Some u) c) then Some c else None
      end
  end.

(** The burn and the verdict, in one statement: the DELETE is unconditional,
    the user is LEFT JOINed. *)
Definition consume_code (now : Z) (d : auth_db) (raw_code : pystr) : auth_db * consume_result :=
  let h := hash_token raw_code in
  match oauth_authorization_codes d !! h with
  | None => (d, ConsumeResult false false)
  | Some c =>
      let u := api_users d !! c_user_id c in
      (set_codes (delete h (oauth_authorization_codes d)) d,
       ConsumeResult true (Sql.kept (Sql.and (Sql.is_not_null u) (code_condition now u c))))
  end.

(** ** Refresh tokens ([refresh.py]) *)

Definition mint_refresh (now : Z) (raw : pystr) (default_family : Z) (d : auth_db)
    (client_id : pystr) (user_id : Z) (scopes : list pystr) (ttl_s : Z)
    (family_id : option Z) (resource : option pystr) : auth_db :=
  set_refresh (<[hash_token raw := RefreshRow client_id user_id scopes now (now + ttl_s) None
      (default default_family family_id) resource]> (oauth_refresh_tokens d)) d.

Definition refresh_live (now : Z) (d : auth_db) (r : refresh_row) : bool :=
  match api_users d !! r_user_id r with
  | None => false
  | Some u => Sql.kept (Sql.and (Sql.gt (Some (r_expires_at r)) (Some now))
                (Sql.and (Sql.is_null (r_consumed_at r)) (credential_valid (Some u) (r_created_at r))))
  end.
Definition load_refresh (now : Z) (d : auth_db) (raw_token : pystr) : option refresh_row :=
  match oauth_refresh_tokens d !! hash_token raw_token with
  | Some r => if refresh_live now d r then Some r else None
  | None => None
  end.

Definition revoke_refresh (d : auth_db) (raw_token : pystr) : auth_db * bool :=
  (set_refresh (delete (hash_token raw_token) (oauth_refresh_tokens d)) d,
   bool_decide (is_Some (oauth_refresh_tokens d !! hash_token raw_token))).

Definition raw_state (d : auth_db) (raw_token : pystr) : option (Z * bool) :=
  (fun r => (r_family_id r, bool_decide (is_Some (r_consumed_at r)))) <$>
    oauth_refresh_tokens d !! hash_token raw_token.

Definition delete_family (d : auth_db) (family_id : Z) : auth_db :=
  set_refresh (filter (fun kv => r_family_id kv.2 <> family_id) (oauth_refresh_tokens d)) d.

Definition swept (now : Z) (r : refresh_row) : Prop :=
  is_Some (r_consumed_at r) /\ r_expires_at r < now.
#[global] Instance swept_dec now r : Decision (swept now r).
Proof. unfold swept. apply _. Defined.
Definition sweep_consumed (now : Z) (d : auth_db) : auth_db :=
  set_refresh (filter (fun kv => ~ swept now kv.2) (oauth_refresh_tokens d)) d.

Definition consume (now : Z) (r : refresh_row) : refresh_row :=
  RefreshRow (r_client_id r) (r_user_id r) (r_scopes r) (r_created_at r) (r_expires_at r)
    (Some now) (r_family_id r) (r_resource r).

(** The claim: [UPDATE ... SET consumed_at = now() WHERE consumed_at IS NULL
    AND EXISTS (... credential_valid ...)]; [None] when no row matched. *)
Definition claim_condition (d : auth_db) (r : refresh_row) : bool :=
  match r_consumed_at r, api_users d !! r_user_id r with
  | None, Some u => Sql.kept (credential_valid (Some u) (r_created_at r))
  | _, _ => false
  end.
Definition claim (now : Z) (d : auth_db) (raw_token : pystr) : option auth_db :=
  match oauth_refresh_tokens d !! hash_token raw_token with
  | Some r => if claim_condition d r
              then Some (set_refresh (<[hash_token raw_token := consume now r]> (oauth_refresh_tokens d)) d)
              else None
  | None => None
  end.

(** [rotate_refresh]; [meanwhile] is what other connections commit between
    the load and the claim. *)
Definition rotate_refresh (now : Z) (new_raw : pystr) (meanwhile : auth_db -> auth_db)
    (d : auth_db) (raw_token : pystr) (ttl_s : Z) : auth_db * rotate_result :=
  match raw_state d raw_token with
  | None => (d, Unknown)
  | Some (family_id, true) => (delete_family d family_id, Reuse family_id)
  | Some (_, false) =>
      match load_refresh now d raw_token with
      | None => (d, Unknown)
      | Some row =>
          let d1 := meanwhile d in
          match claim now d1 raw_token with
          | None =>
              match raw_state d1 raw_token with
              | Some (_, true) => (delete_family d1 (r_family_id row), Reuse (r_family_id row))
              | _ => (d1, Unknown)
              end
          | Some d2 =>
              let d3 := mint_refresh now new_raw 0 d2 (r_client_id row) (r_user_id row)
                          (r_scopes row) ttl_s (Some (r_family_id row)) (r_resource row) in
              (sweep_consumed now d3, Rotated new_raw)
          end
      end
  end.

(** ** Access tokens ([access.py]) *)

Definition mint_access (now : Z) (raw : pystr) (d : auth_db) (user_id : Z) (client_id : pystr)
    (ttl_s : Z) (family_id : option Z) (resource : option pystr) : res exn auth_db :=
  if session_user d user_id then
    Ok (set_tokens (<[hash_token raw := TokenRow user_id now (Some (now + ttl_s)) None None
          (Some client_id) family_id resource]> (api_tokens d)) d)
  else Err SessionCredentialRefused.

Record access_token := AccessToken { ac_token : pystr; ac_client_id : pystr; ac_subject : Z }.
Definition NO_OAUTH_CLIENT_ID : pystr := lit "localmail".

(** [meanwhile] is what commits between the verification and the read of the
    binding. *)
Definition load_access (canonicalize_resource : pystr -> option pystr)
    (meanwhile : auth_db -> auth_db) (now : Z) (d : auth_db) (raw_token : pystr)
    (accepted_resources : option (list pystr)) : auth_db * option access_token :=
  match verify_token now d raw_token with
  | (d1, None) => (d1, None)
  | (d1, Some u) =>
      let d2 := meanwhile d1 in
      match api_tokens d2 !! hash_token raw_token with
      | None => (d2, None)
      | Some t =>
          let bound_ok :=
            match accepted_resources, t_oauth_resource t with
            | Some acc, Some r =>
                match canonicalize_resource r with
                | Some c => bool_decide (c ∈ acc) | None => false end
            | _, _ => true
            end in
          (d2, if bound_ok
               then Some (AccessToken raw_token (default NO_OAUTH_CLIENT_ID (t_oauth_client_id t)) (au_id u))
               else None)
      end
  end.

Definition revoke_access (d : auth_db) (raw_token : pystr) : auth_db * bool :=
  match api_tokens d !! hash_token raw_token with
  | Some t => match t_api_key_name t with
              | None => (set_tokens (delete (hash_token raw_token) (api_tokens d)) d, true)
              | Some _ => (d, false)
              end
  | None => (d, false)
  end.

Definition revoke_access_family (d : auth_db) (family_id : Z) : auth_db :=
  set_tokens (filter (fun kv => t_oauth_refresh_family_id kv.2 <> Some family_id) (api_tokens d)) d.

(** ** The provider ([provider.py]) *)

Record oauth_config := OAuthConfig { oauth_refresh_token_ttl_s : Z; oauth_access_token_ttl_s : Z }.

(** The SDK's [AuthorizationCode], built by an earlier [load_code]. *)
Record authorization_code := AuthorizationCode {
  ax_code : pystr; ax_subject : Z; ax_scopes : list pystr; ax_resource : option pystr }.

Definition load_authorization_code (now : Z) (d : auth_db) (client_id raw_code : pystr) :
    option authorization_code :=
  match load_code now d raw_code with
  | Some c => if bool_decide (c_client_id c = client_id)
              then Some (AuthorizationCode raw_code (c_user_id c) (c_scopes c) (c_resource c))
              else None
  | None => None
  end.

(** [_exchange_code_sync]: the burn is committed by itself; then a second
    transaction mints, on the database [meanwhile] the burn's commit left. *)
Definition exchange_authorization_code (cfg : oauth_config) (now1 now2 : Z)
    (meanwhile : auth_db -> auth_db) (raw_refresh raw_access : pystr) (new_family : Z)
    (d : auth_db) (client_id : pystr) (ac : authorization_code) :
    auth_db * res oauth_error oauth_token :=
  let '(d1, burn) := consume_code now1 d (ax_code ac) in
  if negb (burned burn) then (d1, Err InvalidGrant)
  else if negb (still_valid burn) then (d1, Err InvalidGrant)
  else
    let d2 := meanwhile d1 in
    let d3 := mint_refresh now2 raw_refresh new_family d2 client_id (ax_subject ac)
                (ax_scopes ac) (oauth_refresh_token_ttl_s cfg) None (ax_resource ac) in
    match load_refresh now2 d3 raw_refresh with
    | None => (d2, Err InvalidGrant)
    | Some row =>
        match mint_access now2 raw_access d3 (ax_subject ac) client_id
                (oauth_access_token_ttl_s cfg) (Some (r_family_id row)) (ax_resource ac) with
        | Err x => (d2, Err (Refused x))
        | Ok d4 => (d4, Ok (OAuthToken raw_access (oauth_access_token_ttl_s cfg) raw_refresh))
        end
    end.

(** [_exchange_refresh_sync] *)
Definition exchange_refresh_token (cfg : oauth_config) (now : Z) (meanwhile : auth_db -> auth_db)
    (raw_refresh raw_access : pystr) (d : auth_db) (client_id raw_token : pystr) :
    auth_db * res oauth_error oauth_token :=
  match rotate_refresh now raw_refresh meanwhile d raw_token (oauth_refresh_token_ttl_s cfg) with
  | (d1, Rotated new) =>
      match load_refresh now d1 new with
      | None => (meanwhile d, Err AssertionError)
      | Some row =>
          match mint_access now raw_access d1 (r_user_id row) client_id
                  (oauth_access_token_ttl_s cfg) (Some (r_family_id row)) (r_resource row) with
          | Err x => (meanwhile d, Err (Refused x))
          | Ok d2 => (d2, Ok (OAuthToken raw_access (oauth_access_token_ttl_s cfg) new))
          end
      end
  | (d1, Reuse family) => (revoke_access_family d1 family, Err InvalidGrant)
  | (d1, Unknown) => (d1, Err InvalidGrant)
  end.

(** [_revoke_sync] *)
Definition revoke_token (d : auth_db) (raw : pystr) : auth_db :=
  match revoke_access d raw with
  | (d1, true) => d1
  | (d1, false) => (revoke_refresh d1 raw).1
  end.
End oauth.
End OAuth.
