(* ===== verification/OAuthFacts.v ===== *)
(** * What the credential operations guarantee

    Single use of authorization codes, terminal revocation, rotation and reuse
    of refresh tokens, and the separation of API keys from sessions. *)
From S2P Require Import Prelude PyStr MailStore Errors Credentials OAuth.
Import Credential Auth OAuth.

Section facts.
Context `{Crypto}.

(** ** Conditions, in terms of the rows *)

Lemma code_condition_spec now u c :
  Sql.kept (Sql.and (Sql.is_not_null u) (code_condition now u c)) = true <->
  exists u', u = Some u' /\ now < c_expires_at c /\ honoured u' (c_created_at c) = true.
Proof.
  unfold code_condition. rewrite !Sql.kept_and.
  unfold Sql.is_not_null, Sql.gt, Sql.cmp. rewrite !Sql.kept_some.
  destruct u as [u |]; [| naive_solver].
  rewrite credential_valid_spec. cbn [andb].
  rewrite andb_true_iff, Z.ltb_lt. naive_solver.
Qed.

Lemma refresh_live_spec now d r :
  refresh_live now d r = true <->
  exists u, api_users d !! r_user_id r = Some u /\ now < r_expires_at r /\
    r_consumed_at r = None /\ honoured u (r_created_at r) = true.
Proof.
  unfold refresh_live. destruct (api_users d !! _) as [u |]; [| naive_solver].
  rewrite !Sql.kept_and, credential_valid_spec. unfold Sql.gt, Sql.cmp, Sql.is_null.
  rewrite !Sql.kept_some, !andb_true_iff, Z.ltb_lt.
  destruct (r_consumed_at r); naive_solver.
Qed.

Lemma token_live_spec now d t u :
  token_live now d t = Some u <->
  api_users d !! t_user_id t = Some u /\
    (forall x, t_expires_at t = Some x -> now < x) /\ honoured u (t_created_at t) = true.
Proof.
  unfold token_live. destruct (api_users d !! _) as [u' |]; [| naive_solver].
  rewrite Sql.kept_and, Sql.kept_or, credential_valid_spec. unfold Sql.is_null, Sql.gt, Sql.cmp.
  destruct (t_expires_at t) as [x |]; rewrite ?Sql.kept_some; cbn [orb andb].
  - destruct (Z.ltb_spec now x); cbn [andb].
    + destruct (honoured u' _) eqn:E; (split; [intros [= <-] | intros ([= <-] & _ & ?)]); try done.
      * split_and!; [done | by intros ? [= <-] | done].
      * congruence.
    + split; [done |]. intros (_ & Hx & _). specialize (Hx x eq_refl). lia.
  - destruct (honoured u' _) eqn:E; (split; [intros [= <-] | intros ([= <-] & _ & ?)]); try done.
    congruence.
Qed.

Lemma claim_condition_spec d r :
  claim_condition d r = true <->
  r_consumed_at r = None /\ exists u, api_users d !! r_user_id r = Some u /\
    honoured u (r_created_at r) = true.
Proof.
  unfold claim_condition. destruct (r_consumed_at r); [naive_solver |].
  destruct (api_users d !! _) as [u |]; [| naive_solver].
  rewrite credential_valid_spec. naive_solver.
Qed.

(** A credential is honoured by [verify_token] exactly when its row
    exists, has not expired (an API key never does), and its owner is enabled
    and has not revoked sessions since it was minted; nothing but the row's
    [last_used_at] changes, and that at most once a minute. *)
Lemma verify_token_spec now d token u :
  let h := hash_token token in
  ((verify_token now d token).2 = Some u <->
    exists t r, api_tokens d !! h = Some t /\ api_users d !! t_user_id t = Some r /\
      (forall x, t_expires_at t = Some x -> now < x) /\ honoured r (t_created_at t) = true /\
      u = MkUser (t_user_id t) (u_username r) (u_is_admin r) (bool_decide (is_Some (t_api_key_name t)))) /\
  ((verify_token now d token).2 = None -> (verify_token now d token).1 = d) /\
  (forall t l, api_tokens d !! h = Some t -> t_last_used_at t = Some l ->
     now <= l + LAST_USED_REFRESH_SECONDS -> (verify_token now d token).1 = d).
Proof.
  cbv zeta. unfold verify_token.
  destruct (api_tokens d !! hash_token token) as [t |] eqn:Et; [| naive_solver].
  destruct (token_live now d t) as [r |] eqn:El.
  - apply token_live_spec in El as (Hu & Hx & Hh). cbn. split_and!.
    + split; [intros [= <-]; exists t, r; auto |].
      intros (t' & r' & [= <-] & Hu' & _ & _ & ->). congruence.
    + done.
    + intros t' l [= <-] Hl Hle. unfold touch. rewrite Hl.
      rewrite (proj2 (Z.ltb_ge _ _)) by lia. rewrite insert_id by done. by destruct d.
  - cbn. split_and!; [| done | done]. split; [done |].
    intros (t' & r & [= <-] & Hu & Hx & Hh & _).
    assert (token_live now d t = Some r) by (by apply token_live_spec). congruence.
Qed.

(** ** Authorization codes *)

Lemma load_minted_refresh now now' raw fam d client user scopes ttl resource row :
  load_refresh now' (mint_refresh now raw fam d client user scopes ttl None resource) raw = Some row ->
  row = RefreshRow client user scopes now (now + ttl) None fam resource.
Proof.
  unfold load_refresh, mint_refresh. cbn [set_refresh oauth_refresh_tokens]. rewrite lookup_insert_eq.
  by case_match; intros [= <-].
Qed.

(** C9: an authorization code is single use.  Whatever the exchange answers,
    the code's row is gone.  Tokens come out only if, at the instant of the burn,
    the row was there, unexpired, and its user existed and had not been disabled
    or revoked, however stale the SDK's own load of it was; then exactly one
    refresh and one access token are added, for the code's user, scopes and
    resource and this client.  An exchange refused for any reason, at the burn or at
    a mint, adds and removes nothing else: the database is the one the burn left,
    with what other connections committed since. *)
Theorem code_exchange_single_use cfg now1 now2 meanwhile raw_r raw_a fam d client ac :
  let h := hash_token (ax_code ac) in
  let d1 := set_codes (delete h (oauth_authorization_codes d)) d in
  let live := exists c u, oauth_authorization_codes d !! h = Some c /\
     api_users d !! c_user_id c = Some u /\ now1 < c_expires_at c /\ honoured u (c_created_at c) = true in
  (forall x, oauth_authorization_codes x !! h = None ->
     oauth_authorization_codes (meanwhile x) !! h = None) ->
  let '(d', r) := exchange_authorization_code cfg now1 now2 meanwhile raw_r raw_a fam d client ac in
  oauth_authorization_codes d' !! h = None /\
  match r with
  | Ok tok =>
      live /\ tok = OAuthToken raw_a (oauth_access_token_ttl_s cfg) raw_r /\
      d' = set_tokens (<[hash_token raw_a := TokenRow (ax_subject ac) now2
               (Some (now2 + oauth_access_token_ttl_s cfg)) None None (Some client) (Some fam) (ax_resource ac)]>
               (api_tokens (meanwhile d1)))
           (set_refresh (<[hash_token raw_r := RefreshRow client (ax_subject ac) (ax_scopes ac) now2
               (now2 + oauth_refresh_token_ttl_s cfg) None fam (ax_resource ac)]>
               (oauth_refresh_tokens (meanwhile d1))) (meanwhile d1))
  | Err x => (live /\ d' = meanwhile d1) \/ (~ live /\ x = InvalidGrant /\ d' = d1)
  end.
Proof.
  cbv zeta. intros Hmean.
  assert (Hgone : forall cs, delete (hash_token (ax_code ac)) cs !! hash_token (ax_code ac) = (None : option code_row))
    by (intros; apply lookup_delete_eq).
  specialize (Hmean (set_codes (delete (hash_token (ax_code ac)) (oauth_authorization_codes d)) d) (Hgone _)).
  unfold exchange_authorization_code, consume_code.
  destruct (oauth_authorization_codes d !! hash_token (ax_code ac)) as [c |] eqn:Ec; cbn [burned still_valid negb].
  2: { split; [done |]. right. split_and!; [naive_solver | done |]. rewrite delete_id by done. by destruct d. }
  destruct (Sql.kept _) eqn:Ev; cbn [negb].
  2: { split; [apply Hgone |]. right. split_and!; [| done | done]. intros (c' & u & [= <-] & Hl).
    apply not_true_iff_false in Ev. apply Ev, code_condition_spec. eauto. }
  apply code_condition_spec in Ev as (u & Hlive). set (d1 := set_codes _ d) in *.
  destruct (load_refresh _ _ _) as [row |] eqn:El; [| split; [done | left; eauto 6]].
  apply load_minted_refresh in El as ->. unfold mint_access.
  destruct (session_user _ _); [| split; [done | left; eauto 6]].
  split; [done |]. split_and!; [eauto 6 | done | done].
Qed.

(** ** Refresh tokens *)

(** Rotation.  A live token is exchanged for a successor in the same
    family, for the same client, user, scopes and resource, with a fresh
    expiry, and is itself consumed from then on. *)
Lemma rotation_succeeds now new_raw d raw_token ttl r :
  oauth_refresh_tokens d !! hash_token raw_token = Some r -> refresh_live now d r = true ->
  hash_token new_raw <> hash_token raw_token -> 0 <= ttl ->
  let '(d', out) := rotate_refresh now new_raw (fun x => x) d raw_token ttl in
  out = Rotated new_raw /\
  oauth_refresh_tokens d' !! hash_token new_raw =
    Some (RefreshRow (r_client_id r) (r_user_id r) (r_scopes r) now (now + ttl) None
            (r_family_id r) (r_resource r)) /\
  raw_state d' raw_token = Some (r_family_id r, true) /\
  load_refresh now d' raw_token = None.
Proof.
  intros Hr Hlive Hne Httl. unfold rotate_refresh, raw_state, load_refresh, claim.
  rewrite Hr. cbn [fmap option_fmap option_map].
  pose proof Hlive as (u & Hu & Hexp & Hcons & Hh)%refresh_live_spec.
  rewrite Hcons, Hlive. rewrite bool_decide_eq_false_2 by by intros [? ?].
  rewrite (proj2 (claim_condition_spec d r)) by eauto.
  assert (Hnew : filter (fun kv => ~ swept now kv.2)
     (<[hash_token new_raw := RefreshRow (r_client_id r) (r_user_id r) (r_scopes r) now (now + ttl)
         None (r_family_id r) (r_resource r)]>
       (<[hash_token raw_token := consume now r]> (oauth_refresh_tokens d)))
     !! hash_token raw_token = Some (consume now r)).
  { apply map_lookup_filter_Some. rewrite lookup_insert_ne by done.
    rewrite lookup_insert_eq. split; [done |]. unfold swept. cbn. lia. }
  split_and!; cbn.
  - done.
  - apply map_lookup_filter_Some. rewrite lookup_insert_eq. split; [done |].
    unfold swept. cbn. intros [[? ?] _]. done.
  - rewrite Hnew. done.
  - rewrite Hnew. destruct (refresh_live now _ (consume now r)) eqn:E; [| done].
    by apply refresh_live_spec in E as (_ & _ & _ & ? & _).
Qed.

(** Reuse detection.  Presenting a consumed refresh token fails with
    [invalid_grant] and takes its whole family with it: no refresh token and
    no access token of the family is left, and nothing of another family is
    touched. *)
Lemma reuse_revokes_family cfg now meanwhile raw_r raw_a d client raw_token r :
  oauth_refresh_tokens d !! hash_token raw_token = Some r -> is_Some (r_consumed_at r) ->
  let '(d', out) := exchange_refresh_token cfg now meanwhile raw_r raw_a d client raw_token in
  out = Err InvalidGrant /\
  (forall h x, oauth_refresh_tokens d' !! h = Some x <->
     oauth_refresh_tokens d !! h = Some x /\ r_family_id x <> r_family_id r) /\
  (forall h t, api_tokens d' !! h = Some t <->
     api_tokens d !! h = Some t /\ t_oauth_refresh_family_id t <> Some (r_family_id r)).
Proof.
  intros Hr Hc. unfold exchange_refresh_token, rotate_refresh, raw_state. rewrite Hr.
  cbn [fmap option_fmap option_map]. rewrite bool_decide_eq_true_2 by done. cbn.
  split_and!; [done | |]; intros h x; by rewrite map_lookup_filter_Some.
Qed.

(** Revocation is terminal.  Once a user is disabled, or revokes
    sessions after a credential was minted, that credential opens nothing:
    a bearer token is refused, a live refresh token is refused without being
    taken for theft (its family stays), and an authorization code is burned
    and refused; no token of any kind is minted. *)
Lemma revocation_is_terminal cfg now d i u :
  api_users d !! i = Some u ->
  (forall token t, api_tokens d !! hash_token token = Some t -> t_user_id t = i ->
     honoured u (t_created_at t) = false -> verify_token now d token = (d, None)) /\
  (forall raw_r raw_a client raw_token r,
     oauth_refresh_tokens d !! hash_token raw_token = Some r -> r_user_id r = i ->
     r_consumed_at r = None -> honoured u (r_created_at r) = false ->
     exchange_refresh_token cfg now (fun x => x) raw_r raw_a d client raw_token = (d, Err InvalidGrant)) /\
  (forall raw_r raw_a fam client ac c,
     oauth_authorization_codes d !! hash_token (ax_code ac) = Some c -> c_user_id c = i ->
     honoured u (c_created_at c) = false ->
     exchange_authorization_code cfg now now (fun x => x) raw_r raw_a fam d client ac =
       (set_codes (delete (hash_token (ax_code ac)) (oauth_authorization_codes d)) d, Err InvalidGrant)).
Proof.
  intros Hu. split_and!.
  - intros token t Ht <- Hh. unfold verify_token. rewrite Ht.
    destruct (token_live now d t) as [u' |] eqn:E; [| done].
    apply token_live_spec in E as (Hu' & _ & Hh'). congruence.
  - intros raw_r raw_a client raw_token r Hr <- Hc Hh.
    unfold exchange_refresh_token, rotate_refresh, raw_state, load_refresh.
    rewrite Hr. cbn [fmap option_fmap option_map]. rewrite Hc.
    rewrite bool_decide_eq_false_2 by by intros [? ?].
    destruct (refresh_live now d r) eqn:E; [| done].
    apply refresh_live_spec in E as (u' & Hu' & _ & _ & Hh'). congruence.
  - intros raw_r raw_a fam client ac c Hc <- Hh.
    unfold exchange_authorization_code, consume_code. rewrite Hc. cbn [burned still_valid negb].
    destruct (Sql.kept _) eqn:E; [| done].
    apply code_condition_spec in E as (u' & Hu' & _ & Hh'). congruence.
Qed.

(** A revocation that lands between a rotation's load and its claim is
    not taken for theft: the claim misses, the family is left alone and no
    successor is minted; a concurrent rotation in the same gap is, and the
    family is deleted. *)
Lemma rotation_gap now new_raw meanwhile d raw_token ttl r r' :
  oauth_refresh_tokens d !! hash_token raw_token = Some r -> refresh_live now d r = true ->
  oauth_refresh_tokens (meanwhile d) !! hash_token raw_token = Some r' ->
  claim_condition (meanwhile d) r' = false ->
  rotate_refresh now new_raw meanwhile d raw_token ttl =
    match r_consumed_at r' with
    | None => (meanwhile d, Unknown)
    | Some _ => (delete_family (meanwhile d) (r_family_id r), Reuse (r_family_id r))
    end.
Proof.
  intros Hr Hlive Hr' Hclaim. unfold rotate_refresh, raw_state, load_refresh, claim.
  rewrite Hr, Hr'. cbn [fmap option_fmap option_map].
  pose proof Hlive as (u & _ & _ & Hcons & _)%refresh_live_spec.
  rewrite Hcons, Hlive, Hclaim. rewrite bool_decide_eq_false_2 by by intros [? ?].
  by destruct (r_consumed_at r').
Qed.
Lemma honoured_later u t t' : honoured u t = true -> t <= t' -> honoured u t' = true.
Proof. unfold honoured. destruct (u_disabled_at u), (u_sessions_invalidated_at u); zb. Qed.

Lemma load_code_minted now d raw c u :
  oauth_authorization_codes d !! hash_token raw = Some c ->
  api_users d !! c_user_id c = Some u -> now < c_expires_at c ->
  honoured u (c_created_at c) = true -> load_code now d raw = Some c.
Proof.
  intros Hc Hu Hx Hh. unfold load_code. rewrite Hc, Hu.
  pose proof (proj2 (code_condition_spec now (Some u) c) (ex_intro _ u (conj eq_refl (conj Hx Hh)))) as Hk.
  rewrite Sql.kept_and in Hk. apply andb_true_iff in Hk as [_ ->]. done.
Qed.

(** What a bearer of [raw] is told, by the audience its token is bound to. *)
Lemma load_access_live canon now d raw t u accepted :
  api_tokens d !! hash_token raw = Some t -> token_live now d t = Some u ->
  (load_access canon (fun x => x) now d raw (Some accepted)).2 =
    if match t_oauth_resource t with
       | Some r => match canon r with Some c => bool_decide (c ∈ accepted) | None => false end
       | None => true
       end
    then Some (AccessToken raw (default NO_OAUTH_CLIENT_ID (t_oauth_client_id t)) (t_user_id t)) else None.
Proof.
  intros Ht Hl. unfold load_access, verify_token. rewrite Ht, Hl.
  cbn [set_tokens api_tokens snd au_id]. rewrite lookup_insert_eq.
  unfold touch. destruct (match t_last_used_at t with None => _ | Some _ => _ end); done.
Qed.

(** The honest flow works, and its audience is enforced.  A code minted
    for an enabled human user can be loaded by its own client and by no other;
    exchanged in time it yields tokens; the access token then identifies that
    user and client wherever its resource is accepted, and is refused wherever
    it is not; the refresh token is live. *)
Lemma authorization_flow cfg canon t0 t1 t2 t3 raw_code raw_r raw_a fam d client i u
    redirect explicit challenge scopes ttl resource :
  api_users d !! i = Some u -> u_is_service u = false -> honoured u t0 = true ->
  t0 <= t1 < t0 + ttl -> t0 <= t2 < t0 + ttl ->
  t2 <= t3 < t2 + oauth_access_token_ttl_s cfg -> 0 < oauth_refresh_token_ttl_s cfg ->
  let d1 := mint_code t0 raw_code d client i redirect explicit challenge scopes ttl resource in
  (forall other, other <> client -> load_authorization_code t1 d1 other raw_code = None) /\
  exists ac d2,
    load_authorization_code t1 d1 client raw_code = Some ac /\
    exchange_authorization_code cfg t2 t2 (fun x => x) raw_r raw_a fam d1 client ac =
      (d2, Ok (OAuthToken raw_a (oauth_access_token_ttl_s cfg) raw_r)) /\
    is_Some (load_refresh t2 d2 raw_r) /\
    forall accepted, (load_access canon (fun x => x) t3 d2 raw_a (Some accepted)).2 =
      if match resource with
         | Some r => match canon r with Some c => bool_decide (c ∈ accepted) | None => false end
         | None => true
         end
      then Some (AccessToken raw_a client i) else None.
Proof.
  intros Hu Hs Hh H1 H2 H3 Hr d1. set (row := CodeRow client i redirect explicit challenge scopes
    t0 (t0 + ttl) resource).
  assert (Hrow : oauth_authorization_codes d1 !! hash_token raw_code = Some row) by apply lookup_insert_eq.
  assert (Hl : load_code t1 d1 raw_code = Some row) by (apply (load_code_minted _ _ _ _ u); cbn; auto; lia).
  unfold load_authorization_code. rewrite Hl. cbn [c_client_id row]. split.
  { intros o Ho. by rewrite bool_decide_eq_false_2 by congruence. }
  rewrite bool_decide_eq_true_2 by done. eexists _, _. split; [done |].
  assert (Hk : consume_code t2 d1 raw_code =
    (set_codes (delete (hash_token raw_code) (oauth_authorization_codes d1)) d1, ConsumeResult true true)).
  { unfold consume_code. rewrite Hrow. do 2 f_equal. apply code_condition_spec. exists u. cbn. split_and!; auto; lia. }
  assert (Hlive : forall dd x, api_users dd = api_users d -> t2 <= x < t2 + oauth_refresh_token_ttl_s cfg ->
    refresh_live x dd (RefreshRow client i scopes t2 (t2 + oauth_refresh_token_ttl_s cfg) None fam resource) = true).
  { intros dd x Hdd Hx. apply refresh_live_spec. exists u. rewrite Hdd. cbn. split_and!; try done; [lia |].
    apply (honoured_later u t0); [done | lia]. }
  unfold exchange_authorization_code. cbn [ax_code ax_subject ax_scopes ax_resource c_user_id c_scopes c_resource row].
  rewrite Hk. cbn [burned still_valid negb].
  unfold load_refresh at 1, mint_refresh at 1. cbn [set_refresh oauth_refresh_tokens]. rewrite lookup_insert_eq.
  cbn [default]. rewrite Hlive by (done || lia). cbn [r_family_id].
  unfold mint_access, session_user. cbn [mint_refresh set_refresh set_codes api_users d1 mint_code].
  rewrite Hu, Hs. cbn [negb]. split; [done |]. split.
  - unfold load_refresh, mint_refresh. cbn [set_tokens set_refresh oauth_refresh_tokens].
    rewrite lookup_insert_eq. cbn [default]. rewrite Hlive by (done || lia). done.
  - intros accepted.
    erewrite (load_access_live canon t3 _ raw_a _ u); [| apply lookup_insert_eq |]; [done |].
    apply token_live_spec. cbn. split_and!; [done | intros x [= <-]; lia |].
    apply (honoured_later u t0); [done | lia].
Qed.

End facts.
