(* ===== verification/SessionFacts.v ===== *)
(** * API keys and sessions; the login limiter

    No operation a client can call turns an API key into a session token or
    destroys one, and guessing a password is bounded by the rate limiter. *)
From S2P Require Import Prelude PyStr MailStore Errors Credentials OAuth OAuthFacts.
Import Credential Auth OAuth.

(** The operations a client reaches that write the tables of [auth_db]: the
    [/v1/auth] routes, whose bearer is verified first where the route asks for one,
    and the OAuth endpoints ([OpConsent] is the code an approved consent mints). *)
Inductive session_op :=
  | OpLogin (cfg : auth_config) (e : login_env) (last_sweep : Z) (username password : pystr)
      (ip : option pystr)
  | OpWhoami (now : Z) (token : pystr)
  | OpLogout (token : pystr)
  | OpRefresh (now : Z) (raw token : pystr)
  | OpChangePassword (now : Z) (token old_password new_password : pystr)
  | OpConsent (now : Z) (raw client : pystr) (user_id : Z) (redirect_uri : pystr) (explicit : bool)
      (code_challenge : pystr) (scopes : list pystr) (ttl_s : Z) (resource : option pystr)
  | OpExchangeCode (cfg : oauth_config) (now1 now2 : Z) (raw_refresh raw_access : pystr)
      (family : Z) (client : pystr) (ac : authorization_code)
  | OpExchangeRefresh (cfg : oauth_config) (now : Z) (raw_refresh raw_access client token : pystr)
  | OpRevoke (token : pystr).

Section sessions.
Context `{Crypto}.

(** The route [/v1/auth/change-password]. *)
Definition change_password_route (now : Z) (d : auth_db) (token old_password new_password : pystr) : auth_db :=
  match verify_token now d token with
  | (d1, Some u) => match change_password d1 (au_id u) old_password new_password with Ok d2 => d2 | Err _ => d1 end
  | (d1, None) => d1
  end.
Definition apply_op (op : session_op) (d : auth_db) : auth_db :=
  match op with
  | OpLogin cfg e s u p ip => (login cfg e d s u p ip).1.1
  | OpWhoami now token => (whoami now d token).1
  | OpLogout token => (logout d token).1
  | OpRefresh now raw token => (refresh_token now raw d token).1
  | OpChangePassword now token old new => change_password_route now d token old new
  | OpConsent now raw c u uri explicit ch sc ttl res => mint_code now raw d c u uri explicit ch sc ttl res
  | OpExchangeCode cfg n1 n2 rr ra f c ac =>
      (exchange_authorization_code cfg n1 n2 (fun x => x) rr ra f d c ac).1
  | OpExchangeRefresh cfg now rr ra c token =>
      (exchange_refresh_token cfg now (fun x => x) rr ra d c token).1
  | OpRevoke token => revoke_token d token
  end.

(** The raw token the operation would store in [api_tokens]. *)
Definition minted (op : session_op) : option pystr :=
  match op with
  | OpLogin _ e _ _ _ _ => Some (le_raw e)
  | OpRefresh _ raw _ => Some raw
  | OpExchangeCode _ _ _ _ ra _ _ _ => Some ra
  | OpExchangeRefresh _ _ _ ra _ _ => Some ra
  | _ => None
  end.
(** [generate_token] does not repeat a stored token. *)
Definition fresh_op (op : session_op) (d : auth_db) : Prop :=
  forall raw, minted op = Some raw -> api_tokens d !! hash_token raw = None.

Definition same_owner (t t' : token_row) : Prop :=
  t_user_id t' = t_user_id t /\ t_api_key_name t' = t_api_key_name t /\
  t_oauth_refresh_family_id t' = t_oauth_refresh_family_id t /\
  t_created_at t' = t_created_at t /\ t_expires_at t' = t_expires_at t.

(** A user row with another password, or the same. *)
Definition same_user (r r' : user_row) : Prop :=
  u_username r' = u_username r /\ u_is_admin r' = u_is_admin r /\ u_is_service r' = u_is_service r /\
  u_disabled_at r' = u_disabled_at r /\ u_sessions_invalidated_at r' = u_sessions_invalidated_at r.
Definition same_users (us us' : gmap Z user_row) : Prop := forall i, option_Forall2 same_user (us !! i) (us' !! i).
#[global] Instance same_user_preorder : PreOrder same_user.
Proof. split; [done |]. intros r1 r2 r3 (? & ? & ? & ? & ?) (? & ? & ? & ? & ?). unfold same_user. split_and!; congruence. Qed.
#[global] Instance same_users_preorder : PreOrder same_users.
Proof. split; [intros us i; reflexivity |]. intros us1 us2 us3 H12 H23 i. by transitivity (us2 !! i). Qed.
Lemma same_users_back us us' i r' : same_users us us' -> us' !! i = Some r' -> exists r, us !! i = Some r /\ same_user r r'.
Proof. intros Hs Hi. specialize (Hs i). rewrite Hi in Hs. inversion Hs as [r ? Hr Heq |]; subst. by exists r. Qed.
Lemma same_users_forth us us' i r : same_users us us' -> us !! i = Some r -> exists r', us' !! i = Some r' /\ same_user r r'.
Proof. intros Hs Hi. specialize (Hs i). rewrite Hi in Hs. inversion Hs as [? r' Hr |]; subst. by exists r'. Qed.
Lemma same_users_session d d' i : same_users (api_users d) (api_users d') -> session_user d' i = session_user d i.
Proof. intros Hs. specialize (Hs i). unfold session_user. destruct Hs as [r r' (_ & _ & Heq & _) |]; [by rewrite Heq | done]. Qed.

(** What every operation does to [api_tokens]: rows keep their owner, new
    rows, at a hash of [M], are sessions of non-service users, and keys stay;
    of the users only the password changes. *)
Record token_step (M : bytes -> Prop) (d d' : auth_db) : Prop := {
  ts_users : same_users (api_users d) (api_users d');
  ts_rows h t' : api_tokens d' !! h = Some t' ->
    (exists t, api_tokens d !! h = Some t /\ same_owner t t') \/
    (M h /\ t_api_key_name t' = None /\ is_Some (t_expires_at t') /\ session_user d (t_user_id t') = true);
  ts_keys h t : api_tokens d !! h = Some t -> is_Some (t_api_key_name t) ->
    t_oauth_refresh_family_id t = None ->
    exists t', api_tokens d' !! h = Some t' /\ same_owner t t';
}.

Lemma same_owner_refl t : same_owner t t.
Proof. done. Qed.
Hint Resolve same_owner_refl : core.

Lemma token_step_same M d d' :
  api_users d' = api_users d -> api_tokens d' = api_tokens d -> token_step M d d'.
Proof. intros Hu Ht. split; [by rewrite Hu | |]; rewrite Ht; eauto. Qed.

#[local] Instance token_step_preorder M : PreOrder (token_step M).
Proof.
  split; [intros d; by apply token_step_same |].
  intros d1 d2 d3 [Hu1 Hr1 Hk1] [Hu2 Hr2 Hk2]. split; [by etrans | |].
  - intros h t3 Ht3. destruct (Hr2 h t3 Ht3) as [(t2 & Ht2 & Hs2) | (HM & Hn & He & Hsu)].
    + destruct (Hr1 h t2 Ht2) as [(t1 & Ht1 & Hs1) | (HM & Hn & He & Hsu)].
      * left. exists t1. split; [done |]. unfold same_owner in *. naive_solver congruence.
      * right. destruct Hs2 as (-> & -> & _ & _ & ->). done.
    + right. split_and!; [done | done | done |]. by rewrite <- (same_users_session _ _ _ Hu1).
  - intros h t1 Ht1 Hkey Hfam. destruct (Hk1 h t1 Ht1 Hkey Hfam) as (t2 & Ht2 & Hs1).
    destruct (Hk2 h t2 Ht2) as (t3 & Ht3 & Hs2);
      [by destruct Hs1 as (_ & -> & _) | destruct Hs1 as (_ & _ & -> & _); done |].
    exists t3. split; [done |]. unfold same_owner in *. naive_solver congruence.
Qed.

Lemma token_step_mono (M M' : bytes -> Prop) d d' : (forall h, M h -> M' h) -> token_step M d d' -> token_step M' d d'.
Proof.
  intros HM [Hu Hr Hk]. split; [done | | done]. intros h t Ht. destruct (Hr h t Ht) as [? | (? & ?)]; [by left | right; auto].
Qed.

Lemma insert_session_step (M : bytes -> Prop) d h t :
  M h -> api_tokens d !! h = None -> t_api_key_name t = None -> is_Some (t_expires_at t) ->
  session_user d (t_user_id t) = true -> token_step M d (set_tokens (<[h := t]> (api_tokens d)) d).
Proof.
  intros HM Hfresh Hn He Hs. split; [done | |]; cbn.
  - intros h' t' [[<- <-] | [Hne Ht']]%lookup_insert_Some; eauto.
  - intros h' t' Ht' _ _. exists t'. rewrite lookup_insert_ne; [auto | congruence].
Qed.

Lemma delete_session_step M d h :
  (forall t, api_tokens d !! h = Some t -> t_api_key_name t = None) ->
  token_step M d (set_tokens (delete h (api_tokens d)) d).
Proof.
  intros Hn. split; [done | |]; cbn.
  - intros h' t' [_ Ht']%lookup_delete_Some. eauto.
  - intros h' t' Ht' [k Hk] _. exists t'. split; [| done].
    rewrite lookup_delete_ne; [done |]. intros ->. rewrite (Hn t' Ht') in Hk. done.
Qed.

Lemma same_owner_touch now t : same_owner t (touch now t).
Proof. unfold touch. by case_ifs. Qed.

Lemma verify_step M now d token : token_step M d (verify_token now d token).1.
Proof.
  unfold verify_token. destruct (api_tokens d !! hash_token token) as [t |] eqn:Et; [| done].
  destruct (token_live now d t); [| done]. cbn.
  pose proof (same_owner_touch now t) as Hown.
  split; [done | |]; cbn.
  - intros h t' [[<- <-] | [Hne Ht']]%lookup_insert_Some; eauto.
  - intros h t' Ht' _ _. destruct (decide (h = hash_token token)) as [-> |].
    + rewrite lookup_insert_eq. eexists. split; [done |]. congruence.
    + rewrite lookup_insert_ne by done. eauto.
Qed.

Lemma verify_dom now d token h :
  api_tokens d !! h = None -> api_tokens (verify_token now d token).1 !! h = None.
Proof.
  unfold verify_token. intros Hh. destruct (api_tokens d !! hash_token token) eqn:Et; [| done].
  destruct (token_live now d _); [| done]. cbn. rewrite lookup_insert_ne; [done | congruence].
Qed.

Lemma issue_step (M : bytes -> Prop) now raw d i d' x :
  M (hash_token raw) -> api_tokens d !! hash_token raw = None -> issue_token now raw d i = Ok (d', x) -> token_step M d d'.
Proof.
  unfold issue_token. intros HM Hf. destruct (session_user d i) eqn:Es; [| done].
  intros [= <- <-]. by apply insert_session_step.
Qed.

Lemma mint_access_step (M : bytes -> Prop) now raw d i c ttl f r d' :
  M (hash_token raw) -> api_tokens d !! hash_token raw = None -> mint_access now raw d i c ttl f r = Ok d' -> token_step M d d'.
Proof.
  unfold mint_access. intros HM Hf. destruct (session_user d i) eqn:Es; [| done].
  intros [= <-]. by apply insert_session_step.
Qed.

Lemma login_step (M : bytes -> Prop) cfg e d s u p ip :
  M (hash_token (le_raw e)) -> api_tokens d !! hash_token (le_raw e) = None -> token_step M d (login cfg e d s u p ip).1.1.
Proof.
  intros HM Hf. unfold login, login_verdict. destruct (check_login_rate_limits _ _ _ _ _); [| done].
  set (settle := fun o => maybe_sweep (le_lock_free e) cfg (le_mono e) (le_now e)
    (record_login_attempt (le_insert_fails e) (le_now e) d u ip o) s).
  assert (Hset : forall o, api_users (settle o).1 = api_users d /\ api_tokens (settle o).1 = api_tokens d).
  { intros o. unfold settle, maybe_sweep, record_login_attempt, sweep_login_attempts.
    by repeat case_match. }
  assert (Hst : forall o, token_step M d (settle o).1) by (intros o; by apply token_step_same; apply Hset).
  destruct (find_key _ _ ≫= _) as [[i ur] |]; [| apply Hst].
  destruct (verify_password _ _); [| apply Hst].
  specialize (Hst LoginSuccess). specialize (Hset LoginSuccess).
  change (maybe_sweep (le_lock_free e) cfg (le_mono e) (le_now e)
    (record_login_attempt (le_insert_fails e) (le_now e) d u ip LoginSuccess) s)
    with (settle LoginSuccess).
  destruct (settle LoginSuccess) as [d1 s1]. cbn [fst] in *.
  destruct (issue_token (le_now e) (le_raw e) d1 i) as [[d2 r] |] eqn:Ei; [| exact Hst].
  etrans; [exact Hst |]. eapply issue_step; [done | | exact Ei]. by rewrite (proj2 Hset).
Qed.

Lemma refresh_step (M : bytes -> Prop) now raw d token :
  M (hash_token raw) -> api_tokens d !! hash_token raw = None -> token_step M d (refresh_token now raw d token).1.
Proof.
  intros HM Hf. unfold refresh_token.
  pose proof (verify_step M now d token) as Hv. pose proof (verify_dom now d token _ Hf) as Hf1.
  destruct (verify_token now d token) as [d1 [u |]] eqn:Ev; [| done]. cbn in Hv, Hf1.
  destruct (au_is_api_key u) eqn:Ek; [done |].
  destruct (issue_token now raw d1 (au_id u)) as [[d2 r] |] eqn:Ei; [| done].
  etrans; [exact Hv |]. etrans; [by eapply issue_step |].
  apply delete_session_step. intros t Ht.
  unfold issue_token in Ei. destruct (session_user d1 _); [| done]. simplify_eq/=.
  unfold verify_token in Ev. destruct (api_tokens d !! hash_token token) as [t0 |] eqn:Et0; [| done].
  destruct (token_live now d t0); [| done]. simplify_eq/=.
  apply lookup_insert_Some in Ht as [[_ <-] | [_ Ht]]; [done |].
  rewrite lookup_insert_eq in Ht. simplify_eq.
  apply bool_decide_eq_false in Ek.
  destruct (same_owner_touch now t0) as (_ & -> & _).
  destruct (t_api_key_name t0); [by destruct Ek; eauto | done].
Qed.

Lemma revoke_family_step M d f : token_step M d (revoke_access_family d f).
Proof.
  split; [done | |]; cbn.
  - intros h t [Ht _]%map_lookup_filter_Some. eauto.
  - intros h t Ht _ Hf. exists t. split; [| done].
    apply map_lookup_filter_Some. split; [done |]. cbn. by rewrite Hf.
Qed.

Lemma rotate_tokens now raw d token ttl :
  api_users (rotate_refresh now raw (fun x => x) d token ttl).1 = api_users d /\
  api_tokens (rotate_refresh now raw (fun x => x) d token ttl).1 = api_tokens d.
Proof.
  unfold rotate_refresh, claim.
  destruct (raw_state d token) as [[f []] |]; [done | | done].
  destruct (load_refresh now d token); [| done].
  destruct (oauth_refresh_tokens d !! _); [| done].
  by destruct (claim_condition _ _).
Qed.

Lemma exchange_code_step (M : bytes -> Prop) cfg n1 n2 rr ra f d c ac :
  M (hash_token ra) -> api_tokens d !! hash_token ra = None ->
  token_step M d (exchange_authorization_code cfg n1 n2 (fun x => x) rr ra f d c ac).1.
Proof.
  intros HM Hf. unfold exchange_authorization_code, consume_code.
  destruct (oauth_authorization_codes d !! _) as [cr |]; [| done].
  cbn [burned still_valid negb]. destruct (Sql.kept _); cbn [negb].
  2: { by apply token_step_same. }
  destruct (load_refresh _ _ _) as [row |]; [| by apply token_step_same].
  destruct (mint_access _ _ _ _ _ _ _ _) as [d4 |] eqn:Em; [| by apply token_step_same].
  etrans; [| eapply mint_access_step; [exact HM | | exact Em]; exact Hf]. by apply token_step_same.
Qed.

Lemma exchange_refresh_step (M : bytes -> Prop) cfg now rr ra d c token :
  M (hash_token ra) -> api_tokens d !! hash_token ra = None ->
  token_step M d (exchange_refresh_token cfg now (fun x => x) rr ra d c token).1.
Proof.
  intros HM Hf. unfold exchange_refresh_token.
  pose proof (rotate_tokens now rr d token (oauth_refresh_token_ttl_s cfg)) as [Hu Ht].
  destruct (rotate_refresh _ _ _ d token _) as [d1 []]; cbn in Hu, Ht;
    pose proof (token_step_same M d d1 Hu Ht) as H1.
  - destruct (load_refresh _ _ _) as [row |]; [| done].
    destruct (mint_access _ _ _ _ _ _ _ _) as [d2 |] eqn:Em; [| done].
    etrans; [exact H1 |]. eapply mint_access_step; [exact HM | | exact Em]. by rewrite Ht.
  - etrans; [exact H1 |]. apply revoke_family_step.
  - exact H1.
Qed.

Lemma change_password_step M d u old new d' : change_password d u old new = Ok d' -> token_step M d d'.
Proof.
  unfold change_password. destruct new as [| c new]; [done |]. destruct (api_users d !! u) as [r |] eqn:Er; cbn [mbind option_bind]; [| done].
  destruct (Sql.kept (login_eligible r)); [| done]. destruct (negb (verify_password old (u_password_hash r))); [done |].
  intros [= <-]. split; cbn; [| eauto | eauto]. intros i. cbn. destruct (decide (i = u)) as [-> |].
  - rewrite lookup_insert_eq, Er. by constructor.
  - by rewrite lookup_insert_ne.
Qed.
Lemma change_password_route_step M now d token old new : token_step M d (change_password_route now d token old new).
Proof.
  unfold change_password_route. pose proof (verify_step M now d token) as Hv.
  destruct (verify_token now d token) as [d1 [u |]]; [| done]. destruct (change_password d1 (au_id u) old new) as [d2 |] eqn:E; [| done].
  etrans; [exact Hv | by eapply change_password_step].
Qed.

Definition mints (op : session_op) (h : bytes) : Prop := exists raw, minted op = Some raw /\ h = hash_token raw.
Lemma op_step op d : fresh_op op d -> token_step (mints op) d (apply_op op d).
Proof.
  intros Hf. destruct op; cbn [apply_op].
  - apply login_step; [by eexists | by apply Hf].
  - unfold whoami. pose proof (verify_step (mints (OpWhoami now token)) now d token) as Hv.
    by destruct (verify_token now d token) as [d1 []].
  - unfold logout. destruct (api_tokens d !! hash_token token) as [t |] eqn:Et; [| done].
    destruct (t_api_key_name t) eqn:Ek; [done |]. apply delete_session_step. congruence.
  - apply refresh_step; [by eexists | by apply Hf].
  - apply change_password_route_step.
  - by apply token_step_same.
  - apply exchange_code_step; [by eexists | by apply Hf].
  - apply exchange_refresh_step; [by eexists | by apply Hf].
  - unfold revoke_token, revoke_access.
    destruct (api_tokens d !! hash_token token) as [t |] eqn:Et; [| by apply token_step_same].
    destruct (t_api_key_name t) eqn:Ek; [by apply token_step_same |].
    apply delete_session_step. congruence.
Qed.

(** Every secret an operation generates: session and access tokens, refresh tokens, codes. *)
Definition generated (op : session_op) : list pystr :=
  match op with
  | OpLogin _ e _ _ _ _ => [le_raw e]
  | OpRefresh _ raw _ => [raw]
  | OpConsent _ raw _ _ _ _ _ _ _ _ => [raw]
  | OpExchangeCode _ _ _ rr ra _ _ _ => [rr; ra]
  | OpExchangeRefresh _ _ rr ra _ _ => [rr; ra]
  | _ => []
  end.
Definition generates (op : session_op) (h : bytes) : Prop := exists raw, raw ∈ generated op /\ h = hash_token raw.
Lemma mints_generates op h : mints op h -> generates op h.
Proof. intros (raw & Hm & ->). exists raw. split; [| done]. destruct op; simplify_eq/=; set_solver. Qed.

(** What every operation does to refresh tokens and codes: a row keeps its user and
    the time it was made, or is new, at the hash of a generated secret. *)
Record grant_step (M : bytes -> Prop) (d d' : auth_db) : Prop := {
  gs_refresh h r' : oauth_refresh_tokens d' !! h = Some r' ->
    (exists r, oauth_refresh_tokens d !! h = Some r /\ r_user_id r' = r_user_id r /\ r_created_at r' = r_created_at r) \/ M h;
  gs_codes h c' : oauth_authorization_codes d' !! h = Some c' -> oauth_authorization_codes d !! h = Some c' \/ M h;
}.
Lemma grant_step_same M d d' : oauth_refresh_tokens d' = oauth_refresh_tokens d ->
  oauth_authorization_codes d' = oauth_authorization_codes d -> grant_step M d d'.
Proof. intros Hr Hc. split; rewrite ?Hr, ?Hc; eauto. Qed.
#[local] Instance grant_step_preorder M : PreOrder (grant_step M).
Proof.
  split; [intros d; by apply grant_step_same |]. intros d1 d2 d3 [Hr1 Hc1] [Hr2 Hc2]. split.
  - intros h r3 [(r2 & [(r1 & ? & ? & ?) | ?]%Hr1 & ? & ?) | ?]%Hr2; [left; exists r1; split_and!; congruence | by right | by right].
  - intros h c [[? | ?]%Hc1 | ?]%Hc2; [by left | by right | by right].
Qed.
Lemma grant_delete_refresh M d m : m ⊆ oauth_refresh_tokens d -> grant_step M d (set_refresh m d).
Proof. intros Hm. split; cbn; [| by left]. intros h r Hr. left. exists r. split; [by eapply lookup_weaken | done]. Qed.
Lemma grant_mint_refresh (M : bytes -> Prop) d h r : M h -> grant_step M d (set_refresh (<[h := r]> (oauth_refresh_tokens d)) d).
Proof. intros Hm. split; cbn; [| by left]. intros h' r' [[<- <-] | [_ Hr]]%lookup_insert_Some; [by right | by left; exists r']. Qed.
Lemma verify_grants now d token : let d' := (verify_token now d token).1 in
  oauth_refresh_tokens d' = oauth_refresh_tokens d /\ oauth_authorization_codes d' = oauth_authorization_codes d.
Proof. cbn zeta. unfold verify_token. destruct (api_tokens d !! _); [| done]. by destruct (token_live now d _). Qed.
Lemma login_grants cfg e d s u p ip : let d' := (login cfg e d s u p ip).1.1 in
  oauth_refresh_tokens d' = oauth_refresh_tokens d /\ oauth_authorization_codes d' = oauth_authorization_codes d.
Proof.
  cbn zeta. unfold login, login_verdict. destruct (check_login_rate_limits _ _ _ _ _); [| done].
  assert (Hset : forall o, let d' := (maybe_sweep (le_lock_free e) cfg (le_mono e) (le_now e)
    (record_login_attempt (le_insert_fails e) (le_now e) d u ip o) s).1 in
    oauth_refresh_tokens d' = oauth_refresh_tokens d /\ oauth_authorization_codes d' = oauth_authorization_codes d).
  { intros o. cbn zeta. unfold maybe_sweep, record_login_attempt, sweep_login_attempts. by repeat case_match. }
  destruct (find_key _ _ ≫= _) as [[i ur] |]; [| apply Hset]. destruct (verify_password _ _); [| apply Hset].
  specialize (Hset LoginSuccess). destruct (maybe_sweep _ _ _ _ _ _) as [d1 s1]. cbn [fst] in Hset.
  unfold issue_token. by destruct (session_user d1 i).
Qed.
Lemma rotate_grants (M : bytes -> Prop) now raw d token ttl : M (hash_token raw) ->
  grant_step M d (rotate_refresh now raw (fun x => x) d token ttl).1.
Proof.
  intros HM. unfold rotate_refresh, claim. destruct (raw_state d token) as [[f []] |]; [| | done].
  { apply grant_delete_refresh, map_filter_subseteq. }
  destruct (load_refresh now d token) as [row |]; [| done]. destruct (oauth_refresh_tokens d !! hash_token token) as [r |] eqn:Er; [| done].
  destruct (claim_condition d r); [| done]. cbn [fst].
  etrans; [| apply grant_delete_refresh, map_filter_subseteq]. etrans; [| by apply grant_mint_refresh].
  split; cbn; [| by left]. intros h r' [[<- <-] | [_ Hr]]%lookup_insert_Some; left; [by exists r | by exists r'].
Qed.
Lemma op_grants op d : grant_step (generates op) d (apply_op op d).
Proof.
  assert (Hgen : forall raw, raw ∈ generated op -> generates op (hash_token raw)) by (intros raw ?; by exists raw).
  destruct op; cbn [apply_op generated] in *.
  - apply grant_step_same; apply login_grants.
  - unfold whoami. pose proof (verify_grants now d token) as [Hr Hc].
    destruct (verify_token now d token) as [d1 []]; by apply grant_step_same.
  - unfold logout. destruct (api_tokens d !! _) as [t |]; [| done]. destruct (t_api_key_name t); [done |]. by apply grant_step_same.
  - unfold refresh_token. pose proof (verify_grants now d token) as [Hr Hc].
    destruct (verify_token now d token) as [d1 [u |]]; [| by apply grant_step_same].
    destruct (au_is_api_key u); [by apply grant_step_same |]. unfold issue_token.
    destruct (session_user d1 _); by apply grant_step_same.
  - unfold change_password_route. pose proof (verify_grants now d token) as [Hr Hc].
    destruct (verify_token now d token) as [d1 [u |]]; [| by apply grant_step_same].
    destruct (change_password d1 _ _ _) as [d2 |] eqn:Ec; [| by apply grant_step_same].
    unfold change_password in Ec. destruct new_password; [done |]. destruct (_ ≫= _); [| done].
    destruct (negb _); [done |]. cbn in Ec. injection Ec as <-. by apply grant_step_same.
  - split; cbn; [eauto |]. intros h c' [[<- _] | [_ Hc]]%lookup_insert_Some; [right | by left]. apply Hgen. by left.
  - unfold exchange_authorization_code, consume_code. destruct (oauth_authorization_codes d !! _) as [cr |]; [| done].
    cbn [burned still_valid negb]. set (d1 := set_codes _ d).
    assert (H1 : grant_step (generates (OpExchangeCode cfg now1 now2 raw_refresh raw_access family client ac)) d d1).
    { split; cbn; [eauto |]. intros h c' [_ Hc]%lookup_delete_Some. by left. }
    destruct (Sql.kept _); cbn [negb]; [| exact H1]. destruct (load_refresh _ _ _) as [row |]; [| exact H1].
    unfold mint_access. destruct (session_user _ _); [| exact H1]. etrans; [exact H1 |].
    transitivity (mint_refresh now2 raw_refresh family d1 client (ax_subject ac) (ax_scopes ac)
      (oauth_refresh_token_ttl_s cfg) None (ax_resource ac)); [| by apply grant_step_same].
    apply grant_mint_refresh, Hgen. by left.
  - unfold exchange_refresh_token.
    pose proof (rotate_grants (generates (OpExchangeRefresh cfg now raw_refresh raw_access client token)) now raw_refresh d token
      (oauth_refresh_token_ttl_s cfg) ltac:(apply Hgen; by left)) as Hr.
    destruct (rotate_refresh _ _ _ d token _) as [d1 []]; cbn [fst] in *; [| etrans; [exact Hr | by apply grant_step_same] | done].
    destruct (load_refresh _ _ _) as [row |]; [| done]. unfold mint_access. destruct (session_user _ _); [| done].
    etrans; [exact Hr | by apply grant_step_same].
  - unfold revoke_token, revoke_access. destruct (api_tokens d !! _) as [t |]; [destruct (t_api_key_name t) |];
      [| by apply grant_step_same |]; cbn; apply grant_delete_refresh, delete_subseteq.
Qed.

(** A run of client operations, each minting fresh tokens. *)
Inductive runs : auth_db -> list session_op -> auth_db -> Prop :=
  | runs_nil d : runs d [] d
  | runs_cons d op ops d' : fresh_op op d -> runs (apply_op op d) ops d' -> runs d (op :: ops) d'.

(** Every session token belongs to a user that is not an API-key principal. *)
Definition sessions_ok (d : auth_db) : Prop :=
  forall h t, api_tokens d !! h = Some t -> t_api_key_name t = None ->
    session_user d (t_user_id t) = true.

(** An API key cannot be laundered into a session, nor lost.  Through any
    sequence of logins, refreshes, logouts, code and refresh exchanges and
    revocations, every session token still belongs to a non-service user, and
    every API key is still there under its name and its user. *)
Lemma api_keys_stay_keys d ops d' :
  sessions_ok d -> runs d ops d' ->
  sessions_ok d' /\
  forall h t k, api_tokens d !! h = Some t -> t_api_key_name t = Some k ->
    t_oauth_refresh_family_id t = None ->
    exists t', api_tokens d' !! h = Some t' /\ t_api_key_name t' = Some k /\
      t_user_id t' = t_user_id t.
Proof.
  intros Hok Hruns.
  assert (Hst : token_step (fun _ => True) d d').
  { clear Hok. induction Hruns as [| d op ops d' Hf _ IH]; [done |].
    etrans; [by eapply token_step_mono, op_step | exact IH]. }
  split.
  - intros h t' Ht' Hk. destruct (ts_rows _ _ _ Hst h t' Ht') as [(t & Ht & Hu & Hkn & _) | (_ & _ & _ & Hs)].
    + rewrite (same_users_session _ _ _ (ts_users _ _ _ Hst)), Hu. apply (Hok h t Ht). congruence.
    + by rewrite (same_users_session _ _ _ (ts_users _ _ _ Hst)).
  - intros h t k Ht Hk Hf.
    destruct (ts_keys _ _ _ Hst h t Ht) as (t' & Ht' & Hu & Hk' & _); [by rewrite Hk | done |].
    exists t'. by rewrite Hu, Hk'.
Qed.

(** Presenting an API key to the session operations changes nothing but
    its [last_used_at]: a refresh or a logout of it is refused, and an OAuth
    revocation leaves it in place. *)
Lemma api_key_refused now raw d token t k :
  api_tokens d !! hash_token token = Some t -> t_api_key_name t = Some k ->
  logout d token = (d, Err SessionCredentialRefused) /\
  api_tokens (revoke_token d token) = api_tokens d /\
  (exists x, (refresh_token now raw d token).2 = Err x /\ http_status x < 500) /\
  api_tokens (refresh_token now raw d token).1 = api_tokens (verify_token now d token).1.
Proof.
  intros Ht Hk. unfold logout, revoke_token, revoke_access, refresh_token, verify_token.
  rewrite Ht, Hk. split_and!; [done | done | |].
  - destruct (token_live now d t); (eexists; split; [reflexivity | cbn; lia]).
  - destruct (token_live now d t); done.
Qed.
End sessions.

(** ** Guessing a password *)

Section guessing.
Context `{Crypto}.

Record guess := Guess { g_env : login_env; g_password : pystr; g_ip : option pystr }.

(** The answers that cost a password verification and told the caller the
    password was wrong. *)
Definition tested (rs : list (res exn (pystr * Z))) : Z :=
  Z.of_nat (length (filter (fun r => r = Err AuthenticationFailed) rs)).

Lemma last_success_in username l t :
  last_success username l = Some t ->
  exists a, a ∈ l /\ la_username a = username /\ la_outcome a = LoginSuccess /\ la_ts a = t.
Proof.
  revert t. induction l as [| a l IH]; intros t; cbn; [done |].
  destruct (bool_decide _ && bool_decide _) eqn:E.
  - apply andb_true_iff in E as [Hu%bool_decide_eq_true Ho%bool_decide_eq_true].
    destruct (foldr _ None l) as [t' |] eqn:Ef; intros [= <-].
    + destruct (Z.max_spec (la_ts a) t') as [[_ ->] | [_ ->]]; [| by exists a; set_solver].
      destruct (IH t') as (b & ? & ?); [exact Ef |]. exists b. set_solver.
    + exists a. set_solver.
  - intros (b & ? & ?)%IH. exists b. set_solver.
Qed.

Context (cfg : auth_config) (username : pystr) (T : Z).
Let w := login_per_user_window_s cfg.

Definition window_failure (a : login_attempt) : Prop :=
  la_username a = username /\ la_outcome a = LoginFailure /\ T - w < la_ts a.
#[local] Instance window_failure_dec a : Decision (window_failure a).
Proof. unfold window_failure. apply _. Defined.

(** [k] failures are on record in the window, and no success is. *)
Record guess_inv (users : gmap Z user_row) (k : Z) (d : auth_db) : Prop := {
  gi_users : api_users d = users;
  gi_failures : k <= count window_failure (api_login_attempts d);
  gi_no_success a : a ∈ api_login_attempts d -> la_username a = username ->
    la_outcome a = LoginSuccess -> la_ts a <= T - w;
}.

Lemma limited_when_full users k d now ip :
  guess_inv users k d -> now <= T -> login_per_user_max cfg <= k ->
  exists c s, check_login_rate_limits cfg now d username ip = Err (RateLimited c s).
Proof.
  intros [_ Hk Hns] Hnow Hmax. unfold check_login_rate_limits. cbv zeta.
  destruct (login_global_max cfg <=? _); [by do 2 eexists |].
  destruct (bool_decide _ && _); [by do 2 eexists |].
  rewrite (proj2 (Z.leb_le _ _)); [by do 2 eexists |].
  etrans; [exact Hmax |]. etrans; [exact Hk |]. unfold count. rewrite filter_filter_and.
  apply inj_le, length_filter_mono. intros a Ha (Hu & Ho & Hts).
  fold w. unfold failed_for_user. split_and!; [done | done | lia | | lia].
  destruct (last_success username (api_login_attempts d)) as [t |] eqn:El; [| done].
  apply last_success_in in El as (b & Hb & Hbu & Hbo & <-).
  pose proof (Hns b Hb Hbu Hbo). lia.
Qed.

Lemma settle_inv users k d e s ip :
  guess_inv users k d -> le_insert_fails e = false -> T - w < le_now e <= T ->
  w <= login_attempt_retention_s cfg ->
  guess_inv users (k + 1)
    (maybe_sweep (le_lock_free e) cfg (le_mono e) (le_now e)
       (record_login_attempt (le_insert_fails e) (le_now e) d username ip LoginFailure) s).1.
Proof.
  intros [Hu Hk Hns] Hins Hnow Hret. unfold record_login_attempt. rewrite Hins.
  set (d1 := set_attempts _ d).
  assert (H1 : guess_inv users (k + 1) d1).
  { split; [done | |]; cbn.
    - unfold count in *. rewrite filter_app, length_app.
      rewrite (filter_cons_True window_failure); [cbn; lia |]. unfold window_failure. cbn. auto with lia.
    - intros a [Ha | Ha]%elem_of_app; [by apply Hns |].
      apply list_elem_of_singleton in Ha as ->. done. }
  clearbody d1. clear d Hu Hk Hns Hins. destruct H1 as [Hu Hk Hns].
  unfold maybe_sweep, sweep_login_attempts.
  destruct (_ <? _); [done |]. destruct (negb _); [done |]. split; [done | |]; cbn.
  - etrans; [exact Hk |]. unfold count. rewrite filter_filter_and.
    apply inj_le, length_filter_mono. intros a _ (? & ? & ?). split; [done | lia].
  - intros a [_ Ha]%list_elem_of_filter. by apply Hns.
Qed.

(** Logins for [username] as up to [workers] request threads run them: each asks the
    limiter, and later, with whatever the others have committed in between, tests
    the password and records the attempt.  Attempts of other users come in between. *)
Record attack := Attack {
  ak_db : auth_db; ak_last_sweep : Z;
  ak_flight : list guess;                            (* let through by the limiter, not answered *)
  ak_answers : list (res exn (pystr * Z)) }.
Definition wrong_guess (users : gmap Z user_row) (g : guess) : Prop :=
  le_insert_fails (g_env g) = false /\ T - w < le_now (g_env g) <= T /\
  forall i u, users !! i = Some u -> u_username u = username -> verify_password (g_password g) (u_password_hash u) = false.
Inductive attack_step (workers : nat) (users : gmap Z user_row) (s : attack) : attack -> Prop :=
  | Let_through g now : wrong_guess users g -> now <= T -> (length (ak_flight s) < workers)%nat ->
      check_login_rate_limits cfg now (ak_db s) username (g_ip g) = Ok () ->
      attack_step workers users s (Attack (ak_db s) (ak_last_sweep s) (g :: ak_flight s) (ak_answers s))
  | Turned_away g now x : check_login_rate_limits cfg now (ak_db s) username (g_ip g) = Err x ->
      attack_step workers users s (Attack (ak_db s) (ak_last_sweep s) (ak_flight s) (Err x :: ak_answers s))
  | Answered g before after d' s' r : ak_flight s = before ++ g :: after ->
      login_verdict cfg (g_env g) (ak_db s) (ak_last_sweep s) username (g_password g) (g_ip g) = ((d', s'), r) ->
      attack_step workers users s (Attack d' s' (before ++ after) (r :: ak_answers s))
  | Others a d' : la_username a <> username -> api_users d' = api_users (ak_db s) ->
      api_login_attempts d' = api_login_attempts (ak_db s) ++ [a] ->
      attack_step workers users s (Attack d' (ak_last_sweep s) (ak_flight s) (ak_answers s)).

Lemma limit_is_no_verdict now d ip x : check_login_rate_limits cfg now d username ip = Err x -> x <> AuthenticationFailed.
Proof. unfold check_login_rate_limits. cbv zeta. repeat case_match; congruence. Qed.
Lemma others_inv users k d d' a : guess_inv users k d -> la_username a <> username -> api_users d' = api_users d ->
  api_login_attempts d' = api_login_attempts d ++ [a] -> guess_inv users k d'.
Proof.
  intros [Hu Hk Hns] Ha Hu' Hl. split; [congruence | |]; rewrite Hl.
  - unfold count in *. rewrite filter_app, length_app. lia.
  - intros b [Hb | ->%list_elem_of_singleton]%elem_of_app; [by apply Hns | done].
Qed.
Lemma verdict_inv users k d s g d' s' r : guess_inv users k d -> wrong_guess users g -> w <= login_attempt_retention_s cfg ->
  login_verdict cfg (g_env g) d s username (g_password g) (g_ip g) = ((d', s'), r) ->
  guess_inv users (k + 1) d' /\ r = Err AuthenticationFailed.
Proof.
  intros Hi (Hins & Hnow & Hwrong) Hret Hv.
  pose proof (settle_inv users k d (g_env g) s (g_ip g) Hi Hins Hnow Hret) as Hi'. unfold login_verdict in Hv.
  destruct (find_key _ _) as [i |] eqn:Ef; cbn [mbind option_bind] in Hv.
  - apply find_key_some in Ef as (u & Hu & Hname & _). rewrite Hu in Hv. cbn [fmap option_fmap option_map] in Hv.
    rewrite (Hwrong i u) in Hv by (rewrite <- ?(gi_users _ _ _ Hi); done). injection Hv as Hs <-. by rewrite Hs in Hi'.
  - injection Hv as Hs <-. by rewrite Hs in Hi'.
Qed.

(** The failures on record are the guesses answered; no more are in flight than workers. *)
Record attack_inv (workers : nat) (users : gmap Z user_row) (s : attack) : Prop := {
  ai_guess : guess_inv users (tested (ak_answers s)) (ak_db s);
  ai_flight : Forall (wrong_guess users) (ak_flight s);
  ai_bound : tested (ak_answers s) + Z.of_nat (length (ak_flight s)) <= login_per_user_max cfg + Z.of_nat workers - 1;
}.
Lemma tested_cons r rs : tested (r :: rs) = (if decide (r = Err AuthenticationFailed) then 1 else 0) + tested rs.
Proof. unfold tested. rewrite filter_cons. case_decide; cbn [length]; lia. Qed.
Lemma attack_step_inv workers users s s' : w <= login_attempt_retention_s cfg ->
  attack_inv workers users s -> attack_step workers users s s' -> attack_inv workers users s'.
Proof.
  intros Hret [Hg Hf Hb] Hst. destruct Hst as [g now Hw Hnow Hlen Hc | g now x Hc | g before after d' s' r Hfl Hv | a d' Ha Hu Hl].
  - split; cbn [ak_answers ak_db ak_flight length]; [done | by constructor |].
    destruct (decide (tested (ak_answers s) < login_per_user_max cfg)) as [| Hge]; [lia |].
    destruct (limited_when_full users _ _ now (g_ip g) Hg Hnow) as (c & s' & Hc'); [lia | congruence].
  - apply limit_is_no_verdict in Hc. split; cbn [ak_answers ak_db ak_flight]; rewrite ?tested_cons, ?decide_False by congruence; done.
  - rewrite Hfl in Hf, Hb. apply Forall_app in Hf as [Hf1 [Hw Hf2]%list.Forall_cons].
    destruct (verdict_inv users _ _ _ _ _ _ _ Hg Hw Hret Hv) as [Hg' ->].
    split; cbn [ak_answers ak_db ak_flight]; rewrite ?tested_cons, ?decide_True by done.
    + by rewrite Z.add_comm.
    + by apply Forall_app.
    + rewrite length_app in *. cbn [length] in Hb. lia.
  - split; cbn [ak_answers ak_db ak_flight]; [by eapply others_inv | done | done].
Qed.

(** C34: guessing is bounded.  Within one per-user window, while the audit inserts
    succeed, the trail is kept at least as long as the window and no login of the
    account succeeds, at most [login_per_user_max] wrong passwords of an account
    are tested when logins run one after another, and at most [workers] - 1 more
    when [workers] run at once, whatever addresses they come from, attempts of
    other users and audit sweeps in between: every further login is refused by the
    limiter before a password is looked at. *)
Theorem guessing_is_bounded workers d last_sweep s :
  (1 <= workers)%nat -> 0 <= login_per_user_max cfg -> w <= login_attempt_retention_s cfg ->
  (forall a, a ∈ api_login_attempts d -> la_username a = username ->
     la_outcome a = LoginSuccess -> la_ts a <= T - w) ->
  rtc (attack_step workers (api_users d)) (Attack d last_sweep [] []) s ->
  tested (ak_answers s) <= login_per_user_max cfg + Z.of_nat (workers - 1).
Proof.
  intros Hworkers Hmax Hret Hns Hrun.
  assert (H0 : attack_inv workers (api_users d) (Attack d last_sweep [] [])).
  { split; cbn; [| constructor |]; unfold tested; cbn; [| lia]. split; [done | unfold count; lia | done]. }
  assert (Hinv : attack_inv workers (api_users d) s).
  { induction Hrun as [| s1 s2 s3 Hst _ IH]; [done |]. apply IH. by eapply attack_step_inv. }
  destruct Hinv as [_ _ Hb]. lia.
Qed.
End guessing.

(** ** Concrete instances *)
Module Example_auth.
#[local] Instance plain_crypto : Crypto.
Proof.
  refine {| hash_token := fun t => t;
            hasher_hash := fun pw => 36 :: pw;
            hasher_verify := fun stored pw => bool_decide (stored = 36 :: pw);
            DUMMY_PASSWORD_HASH := [36] |}.
  intros pw. by apply bool_decide_eq_true_2.
Defined.

Definition ann : user_row := UserRow (lit "ann") (36 :: lit "secret") false false None None.
Definition bot : user_row := UserRow (lit "bot") (36 :: lit "x") false true None None.
Definition fam : Z := 7.
Definition spent : refresh_row := RefreshRow (lit "app") 1 [] 100 5000 (Some 150) fam None.
Definition live : refresh_row := RefreshRow (lit "app") 1 [] 150 5050 None fam None.
Definition code : code_row := CodeRow (lit "app") 1 (lit "cb") true (lit "ch") [] 190 250 None.
Definition key_row : token_row := TokenRow 2 50 None None (Some (lit "nightly")) None None None.
Definition access_row : token_row :=
  TokenRow 1 150 (Some 900) None None (Some (lit "app")) (Some fam) None.

(** Ann has a spent and a live refresh token of one family, an access token
    of it and a pending code; the bot has a key. *)
Definition db0 : auth_db :=
  AuthDb {[ 1 := ann; 2 := bot ]}
    {[ lit "key" := key_row; lit "acc" := access_row ]}
    {[ lit "old" := spent; lit "cur" := live ]}
    {[ lit "code" := code ]} [].
Definition cfg0 : oauth_config := OAuthConfig 2592000 3600.
Definition the_code : authorization_code := AuthorizationCode (lit "code") 1 [] None.

Lemma code_exchange_single_use_witness :
  let '(d', r) := exchange_authorization_code cfg0 200 200 (fun x => x) (lit "r1") (lit "a1") 8
                    db0 (lit "app") the_code in
  oauth_authorization_codes d' !! lit "code" = None /\
  (r = Ok (OAuthToken (lit "a1") 3600 (lit "r1")) /\
   (exchange_authorization_code cfg0 201 201 (fun x => x) (lit "r2") (lit "a2") 9 d'
      (lit "app") the_code).2 = Err InvalidGrant).
Proof.
  pose proof (code_exchange_single_use cfg0 200 200 (fun x => x) (lit "r1") (lit "a1") 8
    db0 (lit "app") the_code (fun x Hx => Hx)) as G.
  destruct (exchange_authorization_code cfg0 200 200 _ _ _ 8 db0 _ the_code) as [d' r] eqn:E.
  split; [apply G |]. split; [by vm_compute in E; simplify_eq |].
  vm_compute in E. simplify_eq. by vm_compute.
Defined.

Definition same_url (r : pystr) : option pystr := Some r.

Lemma authorization_flow_witness :
  let d1 := mint_code 300 (lit "c2") db0 (lit "app") 1 (lit "cb") true (lit "ch") [] 60 (Some (lit "res")) in
  load_authorization_code 310 d1 (lit "evil") (lit "c2") = None /\
  exists ac d2, load_authorization_code 310 d1 (lit "app") (lit "c2") = Some ac /\
    (load_access same_url (fun x => x) 400 d2 (lit "a2") (Some [lit "res"])).2 =
      Some (AccessToken (lit "a2") (lit "app") 1) /\
    (load_access same_url (fun x => x) 400 d2 (lit "a2") (Some [lit "other"])).2 = None.
Proof.
  destruct (authorization_flow cfg0 same_url 300 310 320 400 (lit "c2") (lit "r2") (lit "a2") 8
    db0 (lit "app") 1 ann (lit "cb") true (lit "ch") [] 60 (Some (lit "res")))
    as (Hother & ac & d2 & Hac & _ & _ & Ha); try done; try (cbn; lia).
  split; [by apply Hother |]. exists ac, d2. split; [done |]. split; by rewrite Ha.
Defined.

Lemma reuse_revokes_family_witness :
  let '(d', out) := exchange_refresh_token cfg0 200 (fun x => x) (lit "r1") (lit "a1") db0
                      (lit "app") (lit "old") in
  out = Err InvalidGrant /\ oauth_refresh_tokens d' !! lit "cur" = None /\
  api_tokens d' !! lit "acc" = None /\ api_tokens d' !! lit "key" = Some key_row.
Proof.
  pose proof (reuse_revokes_family cfg0 200 (fun x => x) (lit "r1") (lit "a1") db0 (lit "app")
    (lit "old") spent) as G.
  destruct (exchange_refresh_token cfg0 200 _ _ _ db0 _ _) as [d' out] eqn:E.
  destruct G as (Hout & _); [reflexivity | by vm_compute; eauto |].
  split; [done |]. vm_compute in E. simplify_eq. by vm_compute.
Defined.

(** The operator revokes Ann's sessions at 300. *)
Definition ann_revoked : user_row :=
  UserRow (lit "ann") (36 :: lit "secret") false false None (Some 300).
Definition db_revoked : auth_db := set_users {[ 1 := ann_revoked; 2 := bot ]} db0.

Lemma revoked_user_is_refused :
  verify_token 310 db_revoked (lit "acc") = (db_revoked, None) /\
  exchange_refresh_token cfg0 310 (fun x => x) (lit "r") (lit "a") db_revoked (lit "app") (lit "cur")
    = (db_revoked, Err InvalidGrant).
Proof.
  destruct (revocation_is_terminal cfg0 310 db_revoked 1 ann_revoked) as (Ht & Hr & _); [reflexivity |].
  split.
  - apply (Ht _ access_row); reflexivity.
  - apply (Hr _ _ _ _ live); reflexivity.
Defined.

(** Two workers against a limit of two: two guesses pass the limiter before either
    is on record, a third when one is; the fourth is turned away. *)
Definition acfg : auth_config := AuthConfig 2 60 20 60 30 60 86400 300.
Definition guess_at (t : Z) : guess :=
  Guess (LoginEnv t t true false (lit "tok")) (lit "wrong") None.
Definition after_guess (t : Z) (s : attack) : attack :=
  let g := guess_at t in
  let '((d, l), r) := login_verdict acfg (g_env g) (ak_db s) (ak_last_sweep s) (lit "ann") (g_password g) (g_ip g) in
  Attack d l (tail (ak_flight s)) (r :: ak_answers s).
Definition attack0 : attack := Attack db0 0 [] [].
Definition attack2 : attack := Attack db0 0 [guess_at 950; guess_at 960] [].
Definition attack3 : attack :=
  let s := after_guess 950 attack2 in Attack (ak_db s) (ak_last_sweep s) (guess_at 970 :: ak_flight s) (ak_answers s).
Definition attack5 : attack := after_guess 960 (after_guess 970 attack3).
Lemma guess_is_wrong t : 940 < t <= 1000 -> wrong_guess acfg (lit "ann") 1000 (api_users db0) (guess_at t).
Proof.
  intros Ht. split; [done |]. split; [cbn; lia |]. intros i u Hu _. cbn in Hu.
  apply lookup_insert_Some in Hu as [[<- <-] | [_ Hu]]; [done |]. by apply lookup_singleton_Some in Hu as [<- <-].
Qed.
Lemma attack_runs : rtc (attack_step acfg (lit "ann") 1000 2 (api_users db0)) attack0 attack5.
Proof.
  eapply rtc_l; [apply (Let_through _ _ _ _ _ _ (guess_at 960) 955); [by apply guess_is_wrong | done | cbn; lia | done] |].
  eapply rtc_l; [apply (Let_through _ _ _ _ _ _ (guess_at 950) 945); [by apply guess_is_wrong | done | cbn; lia | done] |].
  eapply rtc_l; [eapply (Answered _ _ _ _ _ _ (guess_at 950) [] [guess_at 960]); reflexivity |].
  eapply rtc_l; [apply (Let_through _ _ _ _ _ _ (guess_at 970) 965); [by apply guess_is_wrong | done | cbn; lia | by vm_compute] |].
  eapply rtc_l; [eapply (Answered _ _ _ _ _ _ (guess_at 970) [] [guess_at 960]); reflexivity |].
  eapply rtc_l; [eapply (Answered _ _ _ _ _ _ (guess_at 960) [] []); reflexivity |]. apply rtc_refl.
Qed.
Lemma guessing_is_bounded_witness :
  tested (ak_answers attack5) = 3 /\ tested (ak_answers attack5) <= 2 + 1 /\
  is_ok (check_login_rate_limits acfg 980 (ak_db attack5) (lit "ann") None) = false.
Proof.
  split; [by vm_compute |]. split; [| by vm_compute].
  apply (guessing_is_bounded acfg (lit "ann") 1000 2 db0 0);
    [lia | done | done | intros a Ha; by apply not_elem_of_nil in Ha | exact attack_runs].
Defined.

(** ** The sweep of consumed tokens

    A spent token's own expiry does not end its family: its successors carry
    fresh expiries. *)
Definition db_late : auth_db :=
  set_refresh {[ lit "old" := RefreshRow (lit "app") 1 [] 100 5000 (Some 4900) fam None;
                 lit "cur" := RefreshRow (lit "app") 1 [] 4900 9900 None fam None ]} db0.

(** After the sweep has dropped a spent token at its own expiry, its
    family can still be live, and a replay of the spent token is then an
    unknown token, not a reuse: the family survives it. *)
Lemma sweep_can_outrun_family :
  let d := sweep_consumed 6000 db_late in
  load_refresh 6000 d (lit "cur") <> None /\
  (rotate_refresh 6000 (lit "n") (fun x => x) db_late (lit "old") 1000).2 = Reuse fam /\
  (rotate_refresh 6000 (lit "n") (fun x => x) d (lit "old") 1000).2 = Unknown /\
  load_refresh 6000 (rotate_refresh 6000 (lit "n") (fun x => x) d (lit "old") 1000).1 (lit "cur") <> None.
Proof. split_and!; by vm_compute. Qed.
End Example_auth.
