(* ===== verification/OAuthRace.v ===== *)
(** * Concurrent rotations of one refresh token

    [rotate_refresh] statement by statement, for any number of connections
    presenting the same token, under READ COMMITTED: a statement sees what is
    committed, the claiming UPDATE and the family DELETE wait for the row's
    lock, and a connection's own writes become visible when it commits.  Other
    transactions may commit anything in between, short of bringing the token
    back. *)
From S2P Require Import Prelude PyStr MailStore Errors Credentials OAuth OAuthFacts SessionFacts.
Import Credential Auth OAuth.

Inductive phase :=
  | Start                                    (* before [_raw_state] *)
  | Seen                                     (* not consumed; before [load_refresh] *)
  | Loaded (row : refresh_row)               (* before the claiming UPDATE *)
  | Claimed (row : refresh_row) (now : Z)    (* row lock held, not committed *)
  | Missed (row : refresh_row)               (* the claim matched no row *)
  | Finished (out : rotate_result).

Record world := World {
  w_db : auth_db;
  w_conns : gmap nat phase;
  w_lock : option nat;
}.

Section race.
Context `{Crypto} (token : pystr) (ttl : Z) (fresh : nat -> pystr).
Context (fresh_ne : forall i, hash_token (fresh i) <> hash_token token).

(** The token is not there, or is consumed. *)
Definition spent_token (d : auth_db) : Prop :=
  forall r, oauth_refresh_tokens d !! hash_token token = Some r -> is_Some (r_consumed_at r).

(** What the winner commits: the consumed row, the successor, the sweep. *)
Definition commit_rotation (now : Z) (i : nat) (row : refresh_row) (d : auth_db) : auth_db :=
  sweep_consumed now
    (mint_refresh now (fresh i) 0
       (set_refresh (alter (consume now) (hash_token token) (oauth_refresh_tokens d)) d)
       (r_client_id row) (r_user_id row) (r_scopes row) ttl (Some (r_family_id row)) (r_resource row)).
(** What a connection that detects reuse commits. *)
Definition commit_reuse (family : Z) (d : auth_db) : auth_db :=
  revoke_access_family (delete_family d family) family.

Inductive step : world -> world -> Prop :=
  | step_absent d cs l i :
      cs !! i = Some Start -> raw_state d token = None ->
      step (World d cs l) (World d (<[i := Finished Unknown]> cs) l)
  | step_reuse d cs i f :
      cs !! i = Some Start -> raw_state d token = Some (f, true) ->
      step (World d cs None) (World (commit_reuse f d) (<[i := Finished (Reuse f)]> cs) None)
  | step_seen d cs l i f :
      cs !! i = Some Start -> raw_state d token = Some (f, false) ->
      step (World d cs l) (World d (<[i := Seen]> cs) l)
  | step_dead d cs l i now :
      cs !! i = Some Seen -> load_refresh now d token = None ->
      step (World d cs l) (World d (<[i := Finished Unknown]> cs) l)
  | step_load d cs l i now row :
      cs !! i = Some Seen -> load_refresh now d token = Some row ->
      step (World d cs l) (World d (<[i := Loaded row]> cs) l)
  | step_claim d cs i now row d' :
      cs !! i = Some (Loaded row) -> claim now d token = Some d' ->
      step (World d cs None) (World d (<[i := Claimed row now]> cs) (Some i))
  | step_miss d cs i now row :
      cs !! i = Some (Loaded row) -> claim now d token = None ->
      step (World d cs None) (World d (<[i := Missed row]> cs) None)
  | step_commit d cs i now row :
      cs !! i = Some (Claimed row now) ->
      step (World d cs (Some i))
        (World (commit_rotation now i row d) (<[i := Finished (Rotated (fresh i))]> cs) None)
  | step_rollback d cs i now row :
      cs !! i = Some (Claimed row now) ->
      step (World d cs (Some i)) (World d (<[i := Finished Unknown]> cs) None)
  | step_reread_reuse d cs i row f :
      cs !! i = Some (Missed row) -> raw_state d token = Some (f, true) ->
      step (World d cs None)
        (World (commit_reuse (r_family_id row) d) (<[i := Finished (Reuse (r_family_id row))]> cs) None)
  | step_reread_other d cs l i row :
      cs !! i = Some (Missed row) -> (forall f, raw_state d token <> Some (f, true)) ->
      step (World d cs l) (World d (<[i := Finished Unknown]> cs) l)
  | step_others d d' cs l :
      (spent_token d -> spent_token d') -> step (World d cs l) (World d' cs l).

Definition initial (w : world) : Prop :=
  w_lock w = None /\ forall i p, w_conns w !! i = Some p -> p = Start.

(** ** The invariant *)
Record race_inv (w : world) : Prop := {
  ri_claimed i row now : w_conns w !! i = Some (Claimed row now) -> w_lock w = Some i;
  ri_rotated i t : w_conns w !! i = Some (Finished (Rotated t)) ->
    spent_token (w_db w) /\ w_lock w = None;
  ri_one i j t t' : w_conns w !! i = Some (Finished (Rotated t)) ->
    w_conns w !! j = Some (Finished (Rotated t')) -> i = j;
}.

Lemma spent_filter (P : bytes * refresh_row -> Prop) `{!forall x, Decision (P x)} d :
  spent_token d -> spent_token (set_refresh (filter P (oauth_refresh_tokens d)) d).
Proof. intros Hs r [Hr _]%map_lookup_filter_Some. by apply Hs. Qed.

Lemma commit_rotation_spent now i row d : spent_token (commit_rotation now i row d).
Proof using fresh_ne.
  apply spent_filter. intros r Hr. cbn in Hr.
  rewrite lookup_insert_ne in Hr by apply fresh_ne.
  rewrite lookup_alter_eq in Hr. apply fmap_Some in Hr as (r0 & _ & ->). cbn. eauto.
Qed.

Lemma commit_reuse_spent f d : spent_token d -> spent_token (commit_reuse f d).
Proof. intros Hs r Hr. cbn in Hr. apply map_lookup_filter_Some in Hr as [Hr _]. by apply Hs. Qed.

Lemma claim_not_spent now d d' : claim now d token = Some d' -> ~ spent_token d.
Proof.
  unfold claim. destruct (oauth_refresh_tokens d !! _) as [r |] eqn:Er; [| done].
  destruct (claim_condition d r) eqn:Ec; [| done]. intros _ Hs.
  apply claim_condition_spec in Ec as [Hn _]. destruct (Hs r Er). congruence.
Qed.

(** A connection whose new phase is neither a claim nor a rotation keeps the
    invariant, whatever else commits without bringing the token back. *)
Lemma inv_quiet d d' cs l l' i p :
  race_inv (World d cs l) -> (spent_token d -> spent_token d') ->
  (forall row now, p <> Claimed row now) -> (forall t, p <> Finished (Rotated t)) ->
  (l' = l \/ (l = Some i /\ l' = None)) ->
  race_inv (World d' (<[i := p]> cs) l').
Proof.
  intros [Hc Hr Hone] Hs Hnc Hnr Hl. cbn in *. split; cbn.
  - intros j row now [[<- ->] | [Hne Hj]]%lookup_insert_Some; [by destruct (Hnc row now) |].
    specialize (Hc _ _ _ Hj). destruct Hl as [-> | [-> ->]]; congruence.
  - intros j t [[<- ->] | [Hne Hj]]%lookup_insert_Some; [by destruct (Hnr t) |].
    destruct (Hr _ _ Hj) as [? ?]. split; [auto |]. destruct Hl as [-> | [_ ->]]; done.
  - intros j k t t' [[_ Hp] | [_ Hj]]%lookup_insert_Some [[_ Hp'] | [_ Hk]]%lookup_insert_Some;
      [by destruct (Hnr t) | by destruct (Hnr t) | by destruct (Hnr t') | by eapply Hone].
Qed.

Lemma step_inv w w' : race_inv w -> step w w' -> race_inv w'.
Proof using fresh_ne.
  intros Hi Hstep. destruct Hstep;
    try (eapply inv_quiet; [exact Hi | auto using commit_reuse_spent | done | done | auto]; fail).
  - (* claim *)
    destruct Hi as [Hc Hr Hone]. cbn in *. split; cbn.
    + intros j r0 n0 [[<- _] | [_ Hj]]%lookup_insert_Some; [done |]. by apply Hc in Hj.
    + intros j t [[_ ?] | [_ Hj]]%lookup_insert_Some; [done |].
      destruct (Hr _ _ Hj) as [Hs _]. by eapply claim_not_spent in Hs.
    + intros j k t t' [[_ ?] | [_ Hj]]%lookup_insert_Some [[_ ?] | [_ Hk]]%lookup_insert_Some;
        [done.. | by eapply Hone].
  - (* commit *)
    destruct Hi as [Hc Hr Hone]. cbn in *.
    assert (Hno : forall j t, cs !! j <> Some (Finished (Rotated t)))
      by (intros j t Hj; by destruct (Hr _ _ Hj)).
    split; cbn.
    + intros j r0 n0 [[_ ?] | [Hne Hj]]%lookup_insert_Some; [done |].
      apply Hc in Hj. congruence.
    + intros j t _. split; [apply commit_rotation_spent | done].
    + intros j k t t' [[<- _] | [_ Hj]]%lookup_insert_Some [[<- _] | [_ Hk]]%lookup_insert_Some;
        [done | by apply Hno in Hk | by apply Hno in Hj | by apply Hno in Hj].
  - (* others *)
    destruct Hi as [Hc Hr Hone]. split; cbn in *; [done | | done].
    intros i t Hi. destruct (Hr i t Hi). auto.
Qed.

Lemma initial_inv w : initial w -> race_inv w.
Proof.
  intros [Hl Hs]. split.
  - intros i row now Hi. by apply Hs in Hi.
  - intros i t Hi. by apply Hs in Hi.
  - intros i j t t' Hi. by apply Hs in Hi.
Qed.
End race.

(** C15: single winner.  However many connections present one refresh token at
    once, and whatever else commits in between, at most one of them is given a
    successor, and from then on the token is consumed or gone. *)
Theorem rotation_single_winner `{Crypto} token ttl fresh w w' i j t t' :
  (forall k, hash_token (fresh k) <> hash_token token) ->
  initial w -> rtc (step token ttl fresh) w w' ->
  w_conns w' !! i = Some (Finished (Rotated t)) ->
  w_conns w' !! j = Some (Finished (Rotated t')) ->
  i = j /\ spent_token token (w_db w').
Proof.
  intros Hfresh Hinit Hsteps.
  assert (Hinv : race_inv token w').
  { pose proof (initial_inv token w Hinit) as Hi. clear Hinit.
    induction Hsteps as [| x y z Hxy _ IH]; [done |]. apply IH. by eapply step_inv. }
  intros Hi Hj. split; [by eapply ri_one | by eapply ri_rotated].
Qed.

(** Two connections present Ann's live token; connection 1 has loaded it when
    connection 0 commits, and revokes the family. *)
Module Example_race.
Import Example_auth.
#[local] Existing Instance plain_crypto.
Definition fresh (i : nat) : pystr := lit "fresh".
Definition w0 : world := World db0 {[ 0%nat := Start; 1%nat := Start ]} None.
Definition db1 : auth_db := commit_rotation (lit "cur") 1000 fresh 200 0%nat live db0.
Definition w1 : world :=
  World (commit_reuse fam db1)
    {[ 0%nat := Finished (Rotated (lit "fresh")); 1%nat := Finished (Reuse fam) ]} None.

Lemma two_connections : rtc (step (lit "cur") 1000 fresh) w0 w1.
Proof.
  eapply rtc_l; [apply (step_seen _ _ _ _ _ _ 0%nat fam); by vm_compute |].
  eapply rtc_l; [apply (step_seen _ _ _ _ _ _ 1%nat fam); by vm_compute |].
  eapply rtc_l; [apply (step_load _ _ _ _ _ _ 0%nat 200 live); by vm_compute |].
  eapply rtc_l; [apply (step_load _ _ _ _ _ _ 1%nat 200 live); by vm_compute |].
  eapply rtc_l; [eapply (step_claim _ _ _ _ _ 0%nat 200 live); by vm_compute |].
  eapply rtc_l; [apply (step_commit _ _ _ _ _ 0%nat 200 live); by vm_compute |].
  eapply rtc_l; [apply (step_miss _ _ _ _ _ 1%nat 200 live); by vm_compute |].
  eapply rtc_l; [apply (step_reread_reuse _ _ _ _ _ 1%nat live fam); by vm_compute |].
  by vm_compute.
Qed.

Lemma rotation_single_winner_witness : spent_token (lit "cur") (w_db w1) /\
  oauth_refresh_tokens (w_db w1) !! lit "fresh" = None.
Proof.
  split; [| by vm_compute].
  apply (rotation_single_winner (lit "cur") 1000 fresh w0 w1 0%nat 0%nat (lit "fresh") (lit "fresh"));
    [by vm_compute | | exact two_connections | by vm_compute | by vm_compute].
  split; [done |]. intros i p Hp. cbn in Hp.
  apply lookup_insert_Some in Hp as [[_ <-] | [_ Hp]]; [done |].
  by apply lookup_singleton_Some in Hp as [_ <-].
Defined.
End Example_race.
