(* ===== verification/AdminAccounts.v ===== *)
(** * Mail accounts ([api/admin/accounts.py], [account_names.py], [daemon_accounts.py])

    The [accounts] table, the operations of the admin service on it with their
    validation, and the mapping of a row to the configuration a sync worker
    runs. *)
From S2P Require Import Prelude PyStr Errors.

Inductive account_error := AccountFieldError | AccountInUse | AccountNotFound.

Record account_row := AccountRow {
  a_name : pystr; a_email_address : pystr; a_auth_method : pystr; a_oauth_provider : option pystr;
  a_imap_host : option pystr; a_imap_port : option Z;
  a_folder_allow : option (list pystr); a_folder_deny : option (list pystr); a_folder_deny_flags : option (list pystr);
  a_sync_enabled : bool; a_created_at : Z; a_updated_at : Z }.
#[export] Instance account_row_eq_dec : EqDecision account_row.
Proof. solve_decision. Defined.
Notation accounts := (gmap Z account_row).

(** [config.AccountConfig], as the workers read it. *)
Record AccountConfig := MkAccountConfig {
  ac_name : pystr; ac_email : pystr; ac_imap_host : pystr; ac_imap_port : Z; ac_auth_method : pystr;
  ac_oauth_provider : option pystr; ac_folder_allow : list pystr; ac_folder_deny : list pystr;
  ac_folder_deny_flags : list pystr }.
#[export] Instance account_config_eq_dec : EqDecision AccountConfig.
Proof. solve_decision. Defined.

Module Admin_accounts.
Implicit Types (t : accounts) (r : account_row).

(** ** Validation *)

Definition KEYRING_SUBKEY_SEPARATOR : Z := 58.
Definition NAME_MAX_CHARS : nat := 128.
(** [account_name_error]: whether there is a problem. *)
Definition account_name_error (name : pystr) : bool :=
  bool_decide (strip name = []) || (NAME_MAX_CHARS <? length name)%nat || contains KEYRING_SUBKEY_SEPARATOR name.
Definition validate_email (email_address : pystr) : bool :=
  negb (bool_decide (strip email_address = [])) && contains 64 email_address.
Definition HOSTNAME_MAX : nat := 255.
Definition PORT_MIN : Z := 1.
Definition PORT_MAX : Z := 65535.
Definition is_archive (m : pystr) : bool := bool_decide (m = lit "archive").
(** [_validate_combo]: whether the shape is accepted. *)
Definition validate_combo (auth_method : pystr) (imap_host : option pystr) (imap_port : option Z)
    (oauth_provider : option pystr) : bool :=
  bool_decide (auth_method ∈ [lit "password"; lit "oauth2"; lit "archive"]) &&
  (if is_archive auth_method then bool_decide (imap_host = None) && bool_decide (imap_port = None)
   else
     match imap_host with
     | None | Some [] => false
     | Some host => (length host <=? HOSTNAME_MAX)%nat
     end &&
     match imap_port with None => false | Some p => (PORT_MIN <=? p) && (p <=? PORT_MAX) end) &&
  (negb (bool_decide (auth_method = lit "oauth2")) || bool_decide (oauth_provider = Some (lit "gmail"))).

(** ** Operations *)

Definition get_account t (account_id : Z) : res account_error account_row :=
  match t !! account_id with Some r => Ok r | None => Err AccountNotFound end.
Definition name_taken t (name : pystr) : bool :=
  bool_decide (name ∈ (fun e => a_name e.2) <$> map_to_list t).

(** [create_account], at transaction time [now], with the id the sequence gives. *)
Definition create_account t (new_id now : Z) (name email_address auth_method : pystr) (imap_host : option pystr)
    (imap_port : option Z) (oauth_provider : option pystr) (folder_allow folder_deny folder_deny_flags : option (list pystr))
    : res account_error (accounts * account_row) :=
  guard! negb (account_name_error name) else AccountFieldError in
  guard! validate_email email_address else AccountFieldError in
  guard! validate_combo auth_method imap_host imap_port oauth_provider else AccountFieldError in
  guard! negb (name_taken t name) else AccountFieldError in          (* UniqueViolation *)
  let r := AccountRow name email_address auth_method oauth_provider imap_host imap_port
             folder_allow folder_deny folder_deny_flags true now now in
  Ok (<[new_id := r]> t, r).

(** The [**fields] of [update_account]: [None] where the key is absent. *)
Record account_fields := AccountFields {
  af_email_address : option pystr; af_auth_method : option pystr; af_oauth_provider : option (option pystr);
  af_imap_host : option (option pystr); af_imap_port : option (option Z);
  af_folder_allow : option (option (list pystr)); af_folder_deny : option (option (list pystr));
  af_folder_deny_flags : option (option (list pystr)); af_sync_enabled : option bool;
  af_unknown : bool                                  (* a key outside [_UPDATABLE] *) }.
#[export] Instance account_fields_eq_dec : EqDecision account_fields.
Proof. solve_decision. Defined.
Definition no_fields : account_fields := AccountFields None None None None None None None None None false.
(** [UPDATE accounts SET ..., updated_at = now()] *)
Definition set_fields (f : account_fields) (now : Z) r : account_row :=
  AccountRow (a_name r) (default (a_email_address r) (af_email_address f)) (default (a_auth_method r) (af_auth_method f))
    (default (a_oauth_provider r) (af_oauth_provider f)) (default (a_imap_host r) (af_imap_host f))
    (default (a_imap_port r) (af_imap_port f)) (default (a_folder_allow r) (af_folder_allow f))
    (default (a_folder_deny r) (af_folder_deny f)) (default (a_folder_deny_flags r) (af_folder_deny_flags f))
    (default (a_sync_enabled r) (af_sync_enabled f)) (a_created_at r) now.
Definition update_account t (account_id now : Z) (f : account_fields) : res account_error (accounts * account_row) :=
  guard! negb (af_unknown f) else AccountFieldError in
  if bool_decide (f = no_fields) then let* row := get_account t account_id in Ok (t, row)
  else
    let* current := get_account t account_id in
    guard! match af_email_address f with Some e => validate_email e | None => true end else AccountFieldError in
    guard! validate_combo (default (a_auth_method current) (af_auth_method f)) (default (a_imap_host current) (af_imap_host f))
             (default (a_imap_port current) (af_imap_port f)) (default (a_oauth_provider current) (af_oauth_provider f))
      else AccountFieldError in
    let r := set_fields f now current in
    Ok (<[account_id := r]> t, r).

Definition touch_account_updated_at t (account_id now : Z) : res account_error accounts :=
  let* row := get_account t account_id in
  Ok (<[account_id := set_fields no_fields now row]> t).

(** [has_messages] is what the probe of [messages] finds. *)
Definition delete_account t (account_id : Z) (has_messages force : bool) : res account_error accounts :=
  let* _ := get_account t account_id in
  guard! force || negb has_messages else AccountInUse in
  Ok (delete account_id t).

(** ** The daemon's source *)

(** [WHERE auth_method IN ('password', 'oauth2') AND sync_enabled] *)
Definition syncable r : bool :=
  bool_decide (a_auth_method r ∈ [lit "password"; lit "oauth2"]) && a_sync_enabled r.
(** [list_syncable_accounts], as a map: [ORDER BY id] is the order of the keys. *)
Definition list_syncable_accounts t : accounts := filter (fun e : Z * account_row => syncable e.2 = true) t.

(** [account_config_from_row] *)
Definition account_config_from_row r : res exn AccountConfig :=
  guard! negb (is_archive (a_auth_method r)) else ValueError in
  match a_imap_host r, a_imap_port r with
  | Some host, Some port =>
      Ok (MkAccountConfig (a_name r) (a_email_address r) host port (a_auth_method r) (a_oauth_provider r)
            (default [] (a_folder_allow r)) (default [] (a_folder_deny r)) (default [] (a_folder_deny_flags r)))
  | _, _ => Err ValueError
  end.

(** ** The table stays valid *)

Definition row_ok r : Prop :=
  account_name_error (a_name r) = false /\ validate_email (a_email_address r) = true /\
  validate_combo (a_auth_method r) (a_imap_host r) (a_imap_port r) (a_oauth_provider r) = true.
Record table_ok t : Prop := {
  to_rows : forall i r, t !! i = Some r -> row_ok r;
  to_names : forall i j r r', t !! i = Some r -> t !! j = Some r' -> a_name r = a_name r' -> i = j;
}.

Lemma name_taken_false t name i r : name_taken t name = false -> t !! i = Some r -> a_name r <> name.
Proof.
  unfold name_taken. intros Hn Hi <-. apply bool_decide_eq_false in Hn. apply Hn, list_elem_of_fmap.
  exists (i, r). split; [done |]. by apply elem_of_map_to_list.
Qed.
(** Replacing a row by a valid one of the same name, or adding one of a new name. *)
Lemma table_ok_insert t i r : table_ok t -> row_ok r ->
  (forall j r', j <> i -> t !! j = Some r' -> a_name r' <> a_name r) -> table_ok (<[i := r]> t).
Proof.
  intros [Hr Hn] Hrow Hname. split.
  - intros j r'. destruct (decide (i = j)) as [-> | Hne].
    + rewrite lookup_insert_eq. by intros [= <-].
    + rewrite lookup_insert_ne by done. apply Hr.
  - intros j k r1 r2. destruct (decide (i = j)) as [<- | Hj], (decide (i = k)) as [<- | Hk];
      rewrite ?lookup_insert_eq, ?lookup_insert_ne by done; try done.
    + intros [= <-] H2 Heq. exfalso. eapply (Hname k); [done | exact H2 | done].
    + intros H1 [= <-] Heq. exfalso. eapply (Hname j); [done | exact H1 | done].
    + apply Hn.
Qed.

Lemma create_account_ok t i now name email auth host port prov al de df t' r : table_ok t -> t !! i = None ->
  create_account t i now name email auth host port prov al de df = Ok (t', r) -> table_ok t' /\ t' = <[i := r]> t.
Proof.
  unfold create_account. intros Ht Hi Hc. inv_ok Hc. injection Hc as <- <-. split; [| done].
  apply table_ok_insert; [done | | intros j r' _ Hj; cbn; by eapply name_taken_false; [apply negb_true_iff | ]].
  split_and!; cbn; [by apply negb_true_iff | done | done].
Qed.
Lemma set_fields_name f now r : a_name (set_fields f now r) = a_name r.
Proof. done. Qed.
Lemma table_ok_set t i r r' : table_ok t -> t !! i = Some r -> row_ok r' -> a_name r' = a_name r -> table_ok (<[i := r']> t).
Proof.
  intros Ht Hi Hr Hn. apply table_ok_insert; [done | done |]. intros j r'' Hj Hr'' Heq. apply Hj.
  eapply (to_names t Ht); [exact Hr'' | exact Hi | congruence].
Qed.
Lemma update_account_ok t i now f t' r : table_ok t ->
  update_account t i now f = Ok (t', r) -> table_ok t' /\
  ((t' = t /\ t !! i = Some r) \/ (t' = <[i := r]> t /\ a_updated_at r = now /\ is_Some (t !! i))).
Proof.
  unfold update_account, get_account. intros Ht Hu. destruct (negb (af_unknown f)); [| done].
  destruct (bool_decide (f = no_fields)).
  - destruct (t !! i) as [r0 |] eqn:Ei; [| done]. injection Hu as <- <-. split; [done | by left].
  - destruct (t !! i) as [r0 |] eqn:Ei; [| done]. inv_ok Hu. injection Hu as <- <-.
    destruct (to_rows t Ht i r0 Ei) as (Hn & He & _). split; [| right; by eauto].
    eapply table_ok_set; [done | exact Ei | | done]. split_and!; [done | | done]. cbn. by destruct (af_email_address f).
Qed.
Lemma touch_account_ok t i now t' : table_ok t -> touch_account_updated_at t i now = Ok t' ->
  table_ok t' /\ exists r, t !! i = Some r /\ t' = <[i := set_fields no_fields now r]> t.
Proof.
  unfold touch_account_updated_at, get_account. intros Ht. destruct (t !! i) as [r |] eqn:Ei; [| done]. intros [= <-].
  split; [| by exists r]. eapply table_ok_set; [done | exact Ei | | done]. exact (to_rows t Ht i r Ei).
Qed.
Lemma delete_account_ok t i m f t' : table_ok t -> delete_account t i m f = Ok t' -> table_ok t' /\ t' = delete i t.
Proof.
  unfold delete_account. intros Ht Hd. inv_ok Hd. injection Hd as <-. split; [| done]. split.
  - intros j r [_ Hj]%lookup_delete_Some. by eapply (to_rows t Ht).
  - intros j k r r' [_ Hj]%lookup_delete_Some [_ Hk]%lookup_delete_Some. by eapply (to_names t Ht).
Qed.

(** A row the daemon reads can always be mapped. *)
Lemma syncable_config t i r : table_ok t -> list_syncable_accounts t !! i = Some r ->
  exists c, account_config_from_row r = Ok c.
Proof.
  intros Ht [Hi Hs]%map_lookup_filter_Some. cbn in Hs. unfold syncable in Hs.
  apply andb_true_iff in Hs as [Hm _]. apply bool_decide_eq_true in Hm.
  destruct (to_rows t Ht i r Hi) as (_ & _ & Hc). unfold validate_combo in Hc.
  apply andb_true_iff in Hc as [Hc _]. apply andb_true_iff in Hc as [_ Hc]. unfold account_config_from_row.
  assert (is_archive (a_auth_method r) = false) as Ha.
  { unfold is_archive. apply bool_decide_eq_false. intros Heq. rewrite Heq in Hm. revert Hm.
    apply (bool_decide_unpack _). by vm_compute. }
  rewrite Ha in Hc |- *. cbn [negb]. apply andb_true_iff in Hc as [Hh Hp].
  destruct (a_imap_host r) as [h |]; [| done]. destruct (a_imap_port r) as [p |]; [| done]. by eexists.
Qed.
End Admin_accounts.
