(* ===== verification/Admin.v ===== *)
(** * Managing users and API keys ([api/admin/users.py], [api/admin/auth.py],
    [api/admin/api_keys.py], [api/acl.py], the user routes)

    A request is a transaction: a tree of statements, each of which sees what
    is committed plus the transaction's own writes.  [run_txn] runs one alone;
    [AdminFacts] interleaves many.  [now] is the transaction's [now()] and
    [new_id] the value the id sequence hands out. *)
From S2P Require Import Prelude PyStr MailStore Errors AdminAccounts Credentials.
Import Credential Auth.

(** The tables: those of [Credentials], the accounts, their grants
    ([user_accounts]) and the users that [daemon_commands.requested_by] names. *)
Record admin_db := AdminDb {
  ad_auth : auth_db;
  ad_accounts : gmap Z account_row;
  ad_grants : gset (Z * Z);
  ad_commanders : gset Z;
}.
Definition users (d : admin_db) : gmap Z user_row := api_users (ad_auth d).
Definition tokens (d : admin_db) : gmap bytes token_row := api_tokens (ad_auth d).
Definition with_users (x : gmap Z user_row) (d : admin_db) : admin_db :=
  AdminDb (set_users x (ad_auth d)) (ad_accounts d) (ad_grants d) (ad_commanders d).
Definition with_tokens (x : gmap bytes token_row) (d : admin_db) : admin_db :=
  AdminDb (set_tokens x (ad_auth d)) (ad_accounts d) (ad_grants d) (ad_commanders d).
Definition with_grants (x : gset (Z * Z)) (d : admin_db) : admin_db :=
  AdminDb (ad_auth d) (ad_accounts d) x (ad_commanders d).

Inductive key_field := FieldName | FieldForm.
Inductive admin_error :=
  | UserFieldError | LastAdminError | SelfActionError | UserNotFound | NotAnAdmin | SessionInvalidated
  | BadCredentials
  | ApiKeyFieldError (field : key_field) | ApiKeyNotFound | NotAnApiKeyPrincipal
  | ForeignKeyViolation.

(** ** Transactions *)
Inductive txn (A : Type) : Type :=
  | Return (a : A)
  | Raise (e : admin_error)
  | AdvisoryLock (k : txn A)                                   (* [pg_advisory_xact_lock] *)
  | Select (q : admin_db -> txn A)
  | Execute (w : admin_db -> res admin_error (admin_db * Z)) (k : Z -> txn A).   (* with its rowcount *)
Arguments Return {A}. Arguments Raise {A}. Arguments AdvisoryLock {A}. Arguments Select {A}. Arguments Execute {A}.

Fixpoint txn_bind_ {A B} (f : A -> txn B) (m : txn A) : txn B :=
  match m with
  | Return a => f a
  | Raise e => Raise e
  | AdvisoryLock k => AdvisoryLock (txn_bind_ f k)
  | Select q => Select (fun d => txn_bind_ f (q d))
  | Execute w k => Execute w (fun n => txn_bind_ f (k n))
  end.
#[export] Instance txn_ret : MRet txn := @Return.
#[export] Instance txn_bind : MBind txn := @txn_bind_.

(** One transaction with nobody else about. *)
Fixpoint run_txn {A} (m : txn A) (d : admin_db) : res admin_error (admin_db * A) :=
  match m with
  | Return a => Ok (d, a)
  | Raise e => Err e
  | AdvisoryLock k => run_txn k d
  | Select q => run_txn (q d) d
  | Execute w k => match w d with Ok (d', n) => run_txn (k n) d' | Err e => Err e end
  end.
Definition txn_result {A} (m : txn A) (d : admin_db) : admin_db :=
  match run_txn m d with Ok (d', _) => d' | Err _ => d end.

(** ** Statements *)
Definition update_user (user_id : Z) (f : user_row -> user_row) (d : admin_db) : res admin_error (admin_db * Z) :=
  match users d !! user_id with
  | Some u => Ok (with_users (<[user_id := f u]> (users d)) d, 1)
  | None => Ok (d, 0)
  end.
Definition username_taken (d : admin_db) (name : pystr) : bool :=
  bool_decide (map_Exists (fun _ u => u_username u = name) (users d)).
Definition insert_user (taken : admin_error) (new_id : Z) (u : user_row) (d : admin_db) : res admin_error (admin_db * Z) :=
  if bool_decide (is_Some (users d !! new_id)) || username_taken d (u_username u) then Err taken
  else Ok (with_users (<[new_id := u]> (users d)) d, 1).

(** [DELETE FROM api_users WHERE id = ..]: tokens, OAuth rows and grants
    cascade; [daemon_commands.requested_by] has no [ON DELETE] and blocks. *)
Definition erase_user (user_id : Z) (d : admin_db) : res admin_error (admin_db * Z) :=
  match users d !! user_id with
  | None => Ok (d, 0)
  | Some _ =>
      if bool_decide (user_id ∈ ad_commanders d) then Err ForeignKeyViolation
      else Ok (AdminDb
        (AuthDb (delete user_id (users d))
           (filter (fun ht => t_user_id ht.2 <> user_id) (tokens d))
           (filter (fun hr => r_user_id hr.2 <> user_id) (oauth_refresh_tokens (ad_auth d)))
           (filter (fun hc => c_user_id hc.2 <> user_id) (oauth_authorization_codes (ad_auth d)))
           (api_login_attempts (ad_auth d)))
        (ad_accounts d) (filter (fun ua => ua.1 <> user_id) (ad_grants d)) (ad_commanders d), 1)
  end.

Definition fetch_user {A} (user_id : Z) (k : user_row -> txn A) : txn A :=
  Select (fun d => match users d !! user_id with Some u => k u | None => Raise UserNotFound end).

Module Admin.
(** ** [acl.py] *)
Definition allowed_account_ids (d : admin_db) (user_id : Z) : list Z :=
  merge_sort Z.le (elements (filter (fun ua => ua.1 = user_id) (ad_grants d))).*2.
Definition user_has_account (d : admin_db) (user_id account_id : Z) : bool :=
  bool_decide ((user_id, account_id) ∈ ad_grants d).
Definition grant_account (unknown : admin_error) (user_id account_id : Z) : txn () :=
  Execute (fun d =>
    if bool_decide (is_Some (users d !! user_id)) && bool_decide (is_Some (ad_accounts d !! account_id))
    then Ok (with_grants ({[(user_id, account_id)]} ∪ ad_grants d) d,
             if bool_decide ((user_id, account_id) ∈ ad_grants d) then 0 else 1)
    else Err unknown) (fun _ => Return ()).
Definition revoke_account (user_id account_id : Z) : txn Z :=
  Execute (fun d => Ok (with_grants (ad_grants d ∖ {[(user_id, account_id)]}) d,
             if bool_decide ((user_id, account_id) ∈ ad_grants d) then 1 else 0)) Return.

Section admin.
Context `{Crypto}.

(** ** [users.py] *)
Definition create_user (new_id : Z) (username password : pystr) (is_admin : bool) : txn Z :=
  match strip username, password with
  | [], _ | _, [] => Raise UserFieldError
  | name, _ =>
      Execute (insert_user UserFieldError new_id (UserRow name (hasher_hash password) is_admin false None None))
        (fun _ => Return new_id)
  end.

Definition reject_service_row (user_id : Z) : txn () :=
  fetch_user user_id (fun u => if u_is_service u then Raise UserFieldError else Return ()).

Definition set_password (user_id : Z) (new_password : pystr) : txn () :=
  reject_service_row user_id ;;
  match new_password with
  | [] => Raise UserFieldError
  | _ =>
      Execute (update_user user_id (fun u => UserRow (u_username u) (hasher_hash new_password) (u_is_admin u)
                 (u_is_service u) (u_disabled_at u) (u_sessions_invalidated_at u)))
        (fun n => if n =? 0 then Raise UserNotFound else Return ())
  end.
End admin.

Definition would_orphan_last_admin (target_is_active_admin : bool) (active_admin_count : Z) : bool :=
  target_is_active_admin && (active_admin_count <=? 1).

(** [is_admin IS TRUE AND disabled_at IS NULL AND is_service IS FALSE] *)
Definition can_administer (u : user_row) : bool :=
  u_is_admin u && bool_decide (u_disabled_at u = None) && negb (u_is_service u).
Definition count_active_admins (d : admin_db) : Z :=
  Z.of_nat (size (filter (fun iu => can_administer iu.2 = true) (users d))).
Definition active_admin_count : txn Z := Select (fun d => Return (count_active_admins d)).

(** [_user_state] *)
Definition user_state (user_id : Z) : txn (bool * bool) :=
  fetch_user user_id (fun u => Return (u_is_admin u, bool_decide (is_Some (u_disabled_at u)))).

(** [_guard_not_last_admin] *)
Definition guard_not_last_admin (user_id : Z) : txn () :=
  AdvisoryLock (
    state ← user_state user_id;
    count ← active_admin_count;
    if would_orphan_last_admin (state.1 && negb state.2) count then Raise LastAdminError else Return ()).

Definition set_admin (user_id : Z) (is_admin : bool) : txn () :=
  (if is_admin then reject_service_row user_id ;; _ ← user_state user_id; Return ()
   else guard_not_last_admin user_id) ;;
  Execute (update_user user_id (fun u => UserRow (u_username u) (u_password_hash u) is_admin (u_is_service u)
             (u_disabled_at u) (u_sessions_invalidated_at u))) (fun _ => Return ()).

Definition set_disabled (now user_id : Z) (disabled : bool) : txn () :=
  (if disabled then guard_not_last_admin user_id else _ ← user_state user_id; Return ()) ;;
  Execute (update_user user_id (fun u => UserRow (u_username u) (u_password_hash u) (u_is_admin u) (u_is_service u)
             (if disabled then Some now else None) (u_sessions_invalidated_at u))) (fun _ => Return ()).

Definition delete_user (user_id : Z) : txn () :=
  guard_not_last_admin user_id ;;
  Execute (erase_user user_id) (fun n => if n =? 0 then Raise UserNotFound else Return ()).

Definition set_grant (user_id account_id : Z) (granted : bool) : txn () :=
  _ ← user_state user_id;
  if granted then grant_account UserFieldError user_id account_id
  else _ ← revoke_account user_id account_id; Return ().

Definition revoke_sessions (now user_id : Z) : txn () :=
  Execute (update_user user_id (fun u => UserRow (u_username u) (u_password_hash u) (u_is_admin u) (u_is_service u)
             (u_disabled_at u) (Some now)))
    (fun n => if n =? 0 then Raise UserNotFound else Return ()).

(** [get_user]'s grants: every account, its name and whether it is granted
    (the query lists them by name). *)
Definition account_grants (d : admin_db) (user_id : Z) : gmap Z (pystr * bool) :=
  map_imap (fun account_id row => Some (a_name row, user_has_account d user_id account_id)) (ad_accounts d).
Definition get_user (user_id : Z) : txn (user_row * gmap Z (pystr * bool)) :=
  fetch_user user_id (fun u => Select (fun d => Return (u, account_grants d user_id))).

Record flags := ActionFlags {
  block_demote : bool; block_disable : bool; block_delete : bool; block_promote : bool; block_password : bool }.
Definition action_flags (target_is_active_admin : bool) (active_admin_count : Z) (is_self is_service : bool) : flags :=
  let orphan := would_orphan_last_admin target_is_active_admin active_admin_count in
  ActionFlags (is_self || orphan) orphan (is_self || orphan) is_service is_service.

(** ** The routes ([serve/admin/users_router.py]) *)
Definition patch_user (now admin_id user_id : Z) (is_admin disabled : option bool) :
    txn (user_row * gmap Z (pystr * bool)) :=
  if bool_decide (is_admin = Some false) && (user_id =? admin_id) then Raise SelfActionError
  else
    match is_admin with Some b => set_admin user_id b | None => Return () end ;;
    match disabled with Some b => set_disabled now user_id b | None => Return () end ;;
    get_user user_id.
Definition delete_user_route (admin_id user_id : Z) : txn () :=
  if user_id =? admin_id then Raise SelfActionError else delete_user user_id.

(** ** [api/admin/auth.py] *)
Definition with_username (name : pystr) (_ : Z) (u : user_row) : Prop := u_username u = name.
#[global] Instance with_username_dec name i u : Decision (with_username name i u).
Proof. unfold with_username. apply _. Defined.
Definition resolve_user_id_by_username (d : admin_db) (username : pystr) : option Z :=
  find_key (with_username username) (users d).

Definition authenticate_admin `{Crypto} (username password : pystr) : txn (Z * pystr) :=
  Select (fun d =>
    match find_key (named username) (users d) ≫= fun i => pair i <$> users d !! i with
    | None => Raise BadCredentials
    | Some (i, u) =>
        if negb (verify_password password (u_password_hash u)) then Raise BadCredentials
        else if negb (u_is_admin u) then Raise NotAnAdmin
        else Return (i, username)
    end).

(** [issued_at]: of the session cookie, when there is one. *)
Definition get_admin_user (user_id : Z) (issued_at : option Z) : txn (Z * pystr) :=
  Select (fun d =>
    match users d !! user_id with
    | Some u =>
        match u_disabled_at u with
        | Some _ => Raise UserNotFound
        | None =>
            let revoked := Sql.and (Sql.is_not_null (u_sessions_invalidated_at u))
                             (Sql.lt issued_at (u_sessions_invalidated_at u)) in
            if negb (u_is_admin u) then Raise NotAnAdmin
            else if bool_decide (is_Some issued_at) && Sql.kept revoked then Raise SessionInvalidated
            else Return (user_id, u_username u)
        end
    | None => Raise UserNotFound
    end).

Definition by_username (username : pystr) (k : Z -> txn ()) : txn () :=
  Select (fun d => match resolve_user_id_by_username d username with Some i => k i | None => Raise UserNotFound end).
Definition set_is_admin (b : bool) (u : user_row) : user_row :=
  UserRow (u_username u) (u_password_hash u) b (u_is_service u) (u_disabled_at u) (u_sessions_invalidated_at u).
Definition grant_admin (username : pystr) : txn () :=
  by_username username (fun i =>
    reject_service_row i ;; Execute (update_user i (set_is_admin true)) (fun _ => Return ())).
(** The two commands of the CLI that take no guard. *)
Definition revoke_admin (username : pystr) : txn () :=
  by_username username (fun i => Execute (update_user i (set_is_admin false)) (fun _ => Return ())).
Definition remove_api_user (username : pystr) : txn () :=
  by_username username (fun i => Execute (erase_user i) (fun _ => Return ())).
Definition revoke_admin_sessions (now : Z) (username : pystr) : txn () :=
  by_username username (revoke_sessions now).
(** [add-api-user], its two commits with nothing in between. *)
Definition add_api_user `{Crypto} (new_id : Z) (username password : pystr) (is_admin : bool) : txn () :=
  match password with
  | [] => Raise UserFieldError
  | _ =>
      Execute (insert_user UserFieldError new_id (UserRow username (hasher_hash password) false false None None))
        (fun _ => if is_admin then Execute (update_user new_id (set_is_admin true)) (fun _ => Return ()) else Return ())
  end.

(** ** The accounts, and what hangs on them *)

(** [delete_account] with the cascades of its DELETE: grants, and the queued
    commands of the account, which frees the users [freed] no other command names. *)
Definition delete_account_row (freed : gset Z) (account_id : Z) (has_messages force : bool) (d : admin_db) :
    res account_error admin_db :=
  let* t := Admin_accounts.delete_account (ad_accounts d) account_id has_messages force in
  Ok (AdminDb (ad_auth d) t (filter (fun ua => ua.2 <> account_id) (ad_grants d)) (ad_commanders d ∖ freed)).
Definition with_accounts (t : gmap Z account_row) (d : admin_db) : admin_db :=
  AdminDb (ad_auth d) t (ad_grants d) (ad_commanders d).
End Admin.
