(* ===== verification/ApiKeys.v ===== *)
(** * API keys ([api/admin/api_keys.py], [api_key_names.py])

    A key is a token row with a name and no expiry, held by a service user. *)
From S2P Require Import Prelude PyStr MailStore Errors Credentials Admin.
Import Credential Auth Admin.

Module Api_keys.
Definition NAME_MAX_CHARS : Z := 128.
Definition API_KEY_PREFIX : pystr := lit "lmk_".

Inductive name_error := NameBlank | NameTooLong.
Definition api_key_name_error (name : pystr) : option name_error :=
  match strip name with
  | [] => Some NameBlank
  | s => if NAME_MAX_CHARS <? Z.of_nat (length s) then Some NameTooLong else None
  end.

(** A token row that is the key of [user_id]. *)
Definition key_of_user (user_id : Z) (_ : bytes) (t : token_row) : Prop :=
  t_user_id t = user_id /\ is_Some (t_api_key_name t).
#[global] Instance key_of_user_dec i h t : Decision (key_of_user i h t).
Proof. unfold key_of_user. apply _. Defined.
Definition has_key (d : admin_db) (user_id : Z) : bool := bool_decide (map_Exists (key_of_user user_id) (tokens d)).

(** [_not_found] *)
Definition not_found {A} (user_id : Z) : txn A :=
  Select (fun d => match users d !! user_id with
                   | Some u => if u_is_service u then Raise ApiKeyNotFound else Raise NotAnApiKeyPrincipal
                   | None => Raise ApiKeyNotFound
                   end).

Section keys.
Context `{Crypto}.

(** [_create_service_user]: [unusable] is the random password. *)
Definition create_service_user (new_id : Z) (unusable name : pystr) : txn Z :=
  Execute (insert_user (ApiKeyFieldError FieldName) new_id (UserRow name (hasher_hash unusable) false true None None))
    (fun _ => Return new_id).

(** [_resolve_principal] *)
Definition resolve_principal (new_id : Z) (unusable name : pystr) : txn Z :=
  Select (fun d =>
    match resolve_user_id_by_username d name ≫= fun i => pair i <$> users d !! i with
    | None => create_service_user new_id unusable name
    | Some (i, u) =>
        if negb (u_is_service u) then Raise (ApiKeyFieldError FieldName)
        else if has_key d i then Raise (ApiKeyFieldError FieldName)
        else Return i
    end).

Fixpoint grant_accounts (user_id : Z) (account_ids : list Z) : txn () :=
  match account_ids with
  | [] => Return ()
  | a :: rest => grant_account (ApiKeyFieldError FieldForm) user_id a ;; grant_accounts user_id rest
  end.

(** The INSERT into [api_tokens], under its primary key and the one-key index. *)
Definition insert_key (now : Z) (raw_key : pystr) (user_id : Z) (name : pystr) (d : admin_db) :
    res admin_error (admin_db * Z) :=
  if bool_decide (is_Some (tokens d !! hash_token raw_key)) || has_key d user_id
  then Err (ApiKeyFieldError FieldName)
  else Ok (with_tokens (<[hash_token raw_key := TokenRow user_id now None None (Some name) None None None]> (tokens d)) d, 1).

(** [create_key]: [generated] is what [generate_token] returns. *)
Definition create_key (now new_id : Z) (unusable generated name : pystr) (account_ids : list Z) :
    txn (Z * pystr * pystr) :=
  match api_key_name_error name with
  | Some _ => Raise (ApiKeyFieldError FieldName)
  | None =>
      let name := strip name in
      let raw_key := API_KEY_PREFIX ++ generated in
      user_id ← resolve_principal new_id unusable name;
      grant_accounts user_id account_ids ;;
      Execute (insert_key now raw_key user_id name) (fun _ => Return (user_id, name, raw_key))
  end.

Definition set_key_grant (user_id account_id : Z) (granted : bool) : txn () :=
  Select (fun d =>
    match users d !! user_id with
    | Some u =>
        if u_is_service u then
          if granted then grant_account (ApiKeyFieldError FieldForm) user_id account_id
          else _ ← revoke_account user_id account_id; Return ()
        else not_found user_id
    | None => not_found user_id
    end).

(** The DELETE of [revoke_key]. *)
Definition sweep_tokens (user_id : Z) (d : admin_db) : res admin_error (admin_db * Z) :=
  match users d !! user_id with
  | Some u =>
      if u_is_service u then
        Ok (with_tokens (filter (fun ht => t_user_id ht.2 <> user_id) (tokens d)) d,
            Z.of_nat (size (filter (fun ht => t_user_id ht.2 = user_id) (tokens d))))
      else Ok (d, 0)
  | None => Ok (d, 0)
  end.
Definition revoke_key (user_id : Z) : txn () :=
  Execute (sweep_tokens user_id) (fun n => if n =? 0 then not_found user_id else Return ()).

(** The DELETE of [delete_key_principal]. *)
Definition erase_principal (user_id : Z) (d : admin_db) : res admin_error (admin_db * Z) :=
  match users d !! user_id with
  | Some u => if u_is_service u then erase_user user_id d else Ok (d, 0)
  | None => Ok (d, 0)
  end.
Definition delete_key_principal (user_id : Z) : txn () :=
  Execute (erase_principal user_id) (fun n => if n =? 0 then not_found user_id else Return ()).
End keys.

(** ** The listing *)
Record key_summary := ApiKeySummary {
  ks_user_id : Z;
  ks_name : pystr;
  ks_has_key : bool;
  ks_key_created_at : option Z;
  ks_last_used_at : option Z;
  ks_disabled : bool;
  ks_revoked : bool;
  ks_accounts : list Z;
}.

(** One row of [list_keys] for a principal and its outer-joined key. *)
Definition summarize (d : admin_db) (user_id : Z) (u : user_row) (t : option token_row) : key_summary :=
  ApiKeySummary user_id (u_username u) (bool_decide (is_Some (t ≫= t_api_key_name)))
    (t_created_at <$> t) (t ≫= t_last_used_at)
    (bool_decide (is_Some (u_disabled_at u)))
    (Sql.kept (Sql.and (Sql.is_not_null (t_created_at <$> t))
       (Sql.and (Sql.is_not_null (u_sessions_invalidated_at u))
                (Sql.lt (t_created_at <$> t) (u_sessions_invalidated_at u)))))
    (allowed_account_ids d user_id).
Definition keys_held (d : admin_db) (user_id : Z) : list (option token_row) :=
  match filter (fun ht => key_of_user user_id ht.1 ht.2) (map_to_list (tokens d)) with
  | [] => [None]
  | held => (fun ht => Some ht.2) <$> held
  end.
(** [list_keys], up to its [ORDER BY username]. *)
Definition list_keys (d : admin_db) : list key_summary :=
  iu ← filter (fun iu => u_is_service iu.2 = true) (map_to_list (users d));
  summarize d iu.1 iu.2 <$> keys_held d iu.1.
End Api_keys.
