(* ===== verification/AdminFacts.v ===== *)
(** * Somebody can always administer

    Transactions of the admin API statement by statement, any number of them
    at once, under READ COMMITTED: a statement sees what is committed plus the
    transaction's own writes, and only [pg_advisory_xact_lock] makes one wait
    for another.  Row locks are left out, so more schedules are considered
    than Postgres allows. *)
From S2P Require Import Prelude PyStr MailStore Errors Credentials OAuth OAuthFacts SessionFacts Admin ApiKeys.
Import Credential Auth Admin Api_keys.

(** ** Concurrent sessions *)
Definition effect (w : admin_db -> res admin_error (admin_db * Z)) (d : admin_db) : admin_db :=
  match w d with Ok (d', _) => d' | Err _ => d end.

(** The statements left and the writes not yet committed, oldest first. *)
Record session := Session { ss_rest : txn (); ss_writes : list (admin_db -> admin_db) }.
Definition view (committed : admin_db) (ws : list (admin_db -> admin_db)) : admin_db :=
  fold_left (fun d w => w d) ws committed.

Record system := System {
  sy_committed : admin_db;
  sy_lock : option nat;
  sy_sessions : gmap nat session;
}.
Definition released (i : nat) (lock : option nat) : option nat :=
  if bool_decide (lock = Some i) then None else lock.

(** An active admin who can log in, and one besides [u]. *)
Definition administers (d : admin_db) (v : Z) : Prop := exists r, users d !! v = Some r /\ can_administer r = true.
Definition administered (d : admin_db) : Prop := exists v, administers d v.
Definition another (u : Z) (d : admin_db) : Prop := exists v, v <> u /\ administers d v.

Section system.
Context (offered : txn () -> Prop).

Inductive sys_step : system -> system -> Prop :=
  | sys_begin d l ss i m : ss !! i = None -> offered m ->
      sys_step (System d l ss) (System d l (<[i := Session m []]> ss))
  | sys_lock d l ss i k ws : ss !! i = Some (Session (AdvisoryLock k) ws) -> (l = None \/ l = Some i) ->
      sys_step (System d l ss) (System d (Some i) (<[i := Session k ws]> ss))
  | sys_select d l ss i q ws : ss !! i = Some (Session (Select q) ws) ->
      sys_step (System d l ss) (System d l (<[i := Session (q (view d ws)) ws]> ss))
  | sys_execute d l ss i w k ws d' n : ss !! i = Some (Session (Execute w k) ws) -> w (view d ws) = Ok (d', n) ->
      sys_step (System d l ss) (System d l (<[i := Session (k n) (ws ++ [effect w])]> ss))
  | sys_commit d l ss i ws : ss !! i = Some (Session (Return ()) ws) ->
      sys_step (System d l ss) (System (view d ws) (released i l) (delete i ss))
  | sys_rollback d l ss i s : ss !! i = Some s ->                       (* an exception, or the connection is gone *)
      sys_step (System d l ss) (System d (released i l) (delete i ss))
  | sys_others d d' l ss : users d' = users d ->                        (* logins, tokens, mail *)
      sys_step (System d l ss) (System d' l ss).
End system.

(** ** What a transaction may do

    [safe u locked known m Q]: run about the user [u], [m] touches no other
    user's rights, and takes rights from [u] only while it holds the lock and
    has seen another active admin. *)
Definition only (u : Z) (f : admin_db -> admin_db) : Prop :=
  forall d v, v <> u -> administers (f d) v <-> administers d v.
Definition keeps (u : Z) (f : admin_db -> admin_db) : Prop := forall d, administers d u -> administers (f d) u.

Fixpoint safe {A} (u : Z) (locked known : bool) (m : txn A) (Q : bool -> bool -> A -> Prop) : Prop :=
  match m with
  | Return a => Q locked known a
  | Raise _ => True
  | AdvisoryLock k => safe u true known k Q
  | Select q => forall d, administered d ->
      (locked = true /\ another u d /\ safe u true true (q d) Q) \/ safe u locked known (q d) Q
  | Execute w k =>
      only u (effect w) /\ (keeps u (effect w) \/ locked = true /\ known = true) /\
      forall n, safe u locked known (k n) Q
  end.
Definition done_ {A} (_ _ : bool) (_ : A) : Prop := True.

Lemma safe_bind {A B} u l k (m : txn A) (f : A -> txn B) Q :
  safe u l k m (fun l k a => safe u l k (f a) Q) -> safe u l k (m ≫= f) Q.
Proof.
  revert l k. induction m as [a | e | m IH | q IH | w c IH]; intros l k; cbn; [done | done | apply IH | |].
  - intros Hq d Hd. destruct (Hq d Hd) as [(-> & Ho & Hs) | Hs]; [left | right]; [| by apply IH].
    split_and!; [done | done | by apply IH].
  - intros (Ho & Hk & Hs). split_and!; [done | done |]. intros n. by apply IH.
Qed.
Lemma safe_mono {A} u l k (m : txn A) (Q Q' : bool -> bool -> A -> Prop) :
  (forall l k a, Q l k a -> Q' l k a) -> safe u l k m Q -> safe u l k m Q'.
Proof.
  intros HQ. revert l k. induction m as [a | e | m IH | q IH | w c IH]; intros l k; cbn; [apply HQ | done | apply IH | |].
  - intros Hq d Hd. destruct (Hq d Hd) as [(-> & Ho & Hs) | Hs]; [left | right]; [| by apply IH].
    split_and!; [done | done | by apply IH].
  - intros (Ho & Hk & Hs). split_and!; [done | done |]. intros n. by apply IH.
Qed.
Lemma safe_done {A} u l k (m : txn A) Q : safe u l k m Q -> safe u l k m done_.
Proof. by apply safe_mono. Qed.

(** ** The invariant of the system *)
Definition view_only u d ws : Forall (only u) ws -> forall v, v <> u -> administers (view d ws) v <-> administers d v.
Proof.
  revert d. induction ws as [| w ws IH]; intros d Hf v Hv; [done |]. inversion_clear Hf as [| ? ? Hw Hws].
  unfold view in *. cbn. rewrite (IH (w d) Hws v Hv). by apply Hw.
Qed.
Lemma view_keeps u d ws : Forall (keeps u) ws -> administers d u -> administers (view d ws) u.
Proof.
  revert d. induction ws as [| w ws IH]; intros d Hf Hu; [done |]. inversion_clear Hf as [| ? ? Hw Hws].
  apply (IH (w d)); [done | by apply Hw].
Qed.

(** What holds of the session [i] while it runs. *)
Definition about_user (d : admin_db) (lock : option nat) (i : nat) (s : session) : Prop :=
  exists u locked known,
    safe u locked known (ss_rest s) done_ /\
    (locked = true -> lock = Some i) /\
    (known = true -> locked = true /\ another u d) /\
    Forall (only u) (ss_writes s) /\
    (known = true \/ Forall (keeps u) (ss_writes s)).
(** The user may have to be looked up first. *)
Definition safe_txn (m : txn ()) : Prop :=
  (exists u, safe u false false m done_) \/
  exists q, m = Select q /\ forall d, exists u, safe u false false (q d) done_.
Definition session_ok (d : admin_db) (lock : option nat) (i : nat) (s : session) : Prop :=
  about_user d lock i s \/
  (ss_writes s = [] /\ exists q, ss_rest s = Select q /\ forall d, exists u, safe u false false (q d) done_).
Record system_ok (s : system) : Prop := {
  sk_administered : administered (sy_committed s);
  sk_sessions i x : sy_sessions s !! i = Some x -> session_ok (sy_committed s) (sy_lock s) i x;
}.

Lemma view_another u d ws : Forall (only u) ws -> another u (view d ws) <-> another u d.
Proof.
  intros Hws. split; intros (v & Hv & Ha); exists v; (split; [done |]);
    [by apply (view_only u d ws) | by apply (view_only u d ws)].
Qed.
Lemma view_administered u d ws known :
  administered d -> (known = true -> another u d) -> Forall (only u) ws -> known = true \/ Forall (keeps u) ws ->
  administered (view d ws).
Proof.
  intros [v Hv] Hk Ho [-> | Hkeep].
  - destruct (Hk eq_refl) as (v' & Hne & Ha). exists v'. by apply (view_only u d ws).
  - destruct (decide (v = u)) as [-> |]; exists v || exists u; [by apply view_keeps | by apply (view_only u d ws)].
Qed.
(** Committing takes the rights of at most the transaction's own user, and of
    nobody unless it holds the lock. *)
Lemma view_monotone u d ws v : Forall (only u) ws -> Forall (keeps u) ws -> administers d v -> administers (view d ws) v.
Proof.
  intros Ho Hk Hv. destruct (decide (v = u)) as [-> |]; [by apply view_keeps | by apply (view_only u d ws)].
Qed.

Lemma released_other i j (l : option nat) : i <> j -> l = Some j -> released i l = Some j.
Proof. intros Hne ->. unfold released. by rewrite bool_decide_eq_false_2 by congruence. Qed.

(** A session that did not move sees only more admins besides its own user. *)
Lemma session_ok_frame d d' l l' j s :
  (forall u, l = Some j -> another u d -> another u d') -> (l = Some j -> l' = Some j) ->
  session_ok d l j s -> session_ok d' l' j s.
Proof.
  intros Hd Hl [(u & locked & known & Hs & Hlk & Hk & Ho & Hw) | Hq]; [left | by right]. exists u, locked, known.
  split_and!; [done | by auto | | done | done].
  intros ->. destruct (Hk eq_refl) as [-> Ha]. split; [done |]. by apply Hd; auto.
Qed.

Section preservation.
Context (offered : txn () -> Prop) (Hoffered : forall m, offered m -> safe_txn m).

(** Session [i] moves and commits nothing. *)
Lemma system_ok_update d l l' ss i s :
  system_ok (System d l ss) -> (forall j, j <> i -> l = Some j -> l' = Some j) ->
  session_ok d l' i s -> system_ok (System d l' (<[i := s]> ss)).
Proof.
  intros [Ha Hss] Hl Hs. split; cbn in *; [done |]. intros j x [[<- <-] | [Hne Hj]]%lookup_insert_Some; [done |].
  eapply session_ok_frame; [by auto | | by apply Hss]. by apply Hl.
Qed.
Lemma system_ok_delete d d' l ss i :
  system_ok (System d l ss) -> administered d' ->
  (forall j u, j <> i -> l = Some j -> another u d -> another u d') ->
  system_ok (System d' (released i l) (delete i ss)).
Proof.
  intros [_ Hss] Ha' Hd. split; cbn in *; [done |]. intros j x [Hne Hj]%lookup_delete_Some.
  eapply session_ok_frame; [| | by apply Hss]; [by intros u; apply Hd |].
  intros Hl. by apply released_other.
Qed.

Lemma sys_step_ok s s' : sys_step offered s s' -> system_ok s -> system_ok s'.
Proof.
  destruct 1 as [d l ss i m Hi Hm | d l ss i k ws Hi Hl | d l ss i q ws Hi | d l ss i w k ws d' n Hi Hw
    | d l ss i ws Hi | d l ss i s Hi | d d' l ss Hu]; intros Hok;
    pose proof (sk_administered _ Hok) as Ha; cbn in Ha.
  - apply (system_ok_update d l); [done | done |]. destruct (Hoffered m Hm) as [[u Hs] | Hq]; [left | by right].
    exists u, false, false. split_and!; try done. by right.
  - destruct (sk_sessions _ Hok i _ Hi) as [(u & locked & known & Hs & Hlk & Hk & Ho & Hws) | (_ & q' & [=] & _)].
    apply (system_ok_update d l); [done | intros j Hne ->; naive_solver |].
    left. exists u, true, known. cbn in *. split_and!; try done. intros E. by destruct (Hk E) as [_ ?].
  - destruct (sk_sessions _ Hok i _ Hi) as [(u & locked & known & Hs & Hlk & Hk & Ho & Hws) | (Hnil & q' & Hq & Hs)].
    2: { cbn in Hnil, Hq. injection Hq as <-. subst ws. apply (system_ok_update d l); [done | done |]. left.
      destruct (Hs d) as [u Hu]. exists u, false, false. split_and!; try done. by right. }
    apply (system_ok_update d l); [done | done |]. cbn in Hs, Ho, Hws.
    assert (Hv : administered (view d ws)).
    { apply (view_administered u d ws known); [done | by intros E; apply Hk | done | done]. }
    destruct (Hs _ Hv) as [(-> & Hano & Hq) | Hq].
    + left. exists u, true, true. cbn. split_and!; try done; [| by left].
      intros _. split; [done |]. by apply (view_another u d ws).
    + left. exists u, locked, known. by cbn.
  - destruct (sk_sessions _ Hok i _ Hi) as [(u & locked & known & Hs & Hlk & Hk & Ho & Hws) | (_ & q' & [=] & _)].
    apply (system_ok_update d l); [done | done |]. cbn in Hs, Ho, Hws. destruct Hs as (Hwo & Hwk & Hs).
    left. exists u, locked, known. cbn. split_and!; [by apply Hs | done | done | |].
    + apply Forall_app. by split; [| apply Forall_singleton].
    + destruct Hws as [-> | Hws]; [by left |]. destruct Hwk as [Hwk | [_ ->]]; [right | by left].
      apply Forall_app. by split; [| apply Forall_singleton].
  - destruct (sk_sessions _ Hok i _ Hi) as [(u & locked & known & Hs & Hlk & Hk & Ho & Hws) | (_ & q' & [=] & _)]. cbn in Ho, Hws.
    apply (system_ok_delete d); [done | |].
    + apply (view_administered u d ws known); [done | by intros E; apply Hk | done | done].
    + intros j v Hne Hlj (x & Hx & Hax). exists x. split; [done |]. apply (view_monotone u); [done | | done].
      destruct Hws as [-> | Hws]; [| done]. destruct (Hk eq_refl) as [-> _]. specialize (Hlk eq_refl). cbn in Hlk. congruence.
  - apply (system_ok_delete d); [done | done | done].
  - assert (Hsame : forall v, administers d v -> administers d' v) by (intros v; unfold administers; by rewrite Hu).
    split; cbn; [destruct Ha as [v Hv]; exists v; by apply Hsame |]. intros j x Hj.
    eapply session_ok_frame; [| | by apply (sk_sessions _ Hok)]; [| done].
    intros u _ (v & Hv & Hx). exists v. split; [done |]. by apply Hsame.
Qed.
End preservation.

(** ** The operations are safe *)
Lemma update_only u f : only u (effect (update_user u f)).
Proof.
  intros d v Hv. unfold effect, update_user, administers. destruct (users d !! u); [| done].
  cbn. by rewrite lookup_insert_ne.
Qed.
Lemma update_keeps u f : (forall r, can_administer r = true -> can_administer (f r) = true) ->
  keeps u (effect (update_user u f)).
Proof.
  intros Hf d (r & Hr & Hc). unfold effect, update_user, administers. rewrite Hr. cbn.
  rewrite lookup_insert_eq. eexists. split; [done |]. by apply Hf.
Qed.
Lemma same_users_only u f : (forall d, users (f d) = users d) -> only u f /\ keeps u f.
Proof. intros Hf. split; intros d; unfold administers; by rewrite Hf. Qed.
Lemma insert_only e i r : only i (effect (insert_user e i r)) /\ keeps i (effect (insert_user e i r)).
Proof.
  split.
  - intros d v Hv. unfold effect, insert_user, administers. case_ifs; [done |]. cbn. by rewrite lookup_insert_ne.
  - intros d (r0 & Hr & Hc). unfold effect, insert_user. rewrite bool_decide_eq_true_2 by eauto. cbn. by exists r0.
Qed.
Lemma erase_only u : only u (effect (erase_user u)).
Proof.
  intros d v Hv. unfold effect, erase_user, administers. destruct (users d !! u) eqn:Eu; [| done].
  case_bool_decide; [done |]. cbn. by rewrite lookup_delete_ne.
Qed.

(** Whoever is counted besides [u] is somebody else. *)
Lemma count_another u d : 2 <= count_active_admins d -> another u d.
Proof.
  intros Hc. unfold count_active_admins in Hc.
  set (m := filter (fun iu => can_administer iu.2 = true) (users d)) in *.
  assert (Hm : delete u m <> ∅).
  { intros Hd%map_size_empty_iff. pose proof (map_size_delete u m) as Hs. destruct (m !! u); unfold id in *; lia. }
  apply map_choose in Hm as (v & r & Hv). apply lookup_delete_Some in Hv as [Hne Hv].
  apply map_lookup_filter_Some in Hv as [Hv Hr]. exists v. split; [done |]. by exists r.
Qed.

Lemma fetch_safe {A} u l k v (f : user_row -> txn A) Q :
  (forall r, safe u l k (f r) Q) -> safe u l k (fetch_user v f) Q.
Proof. intros Hf d _. right. destruct (users d !! v); [apply Hf | done]. Qed.

Lemma guard_safe u l k Q : Q true true () -> safe u l k (guard_not_last_admin u) Q.
Proof.
  intros HQ. cbn. intros d Hd. destruct (users d !! u) as [r |] eqn:Eu; [| by right].
  destruct (u_is_admin r && negb (bool_decide (is_Some (u_disabled_at r)))) eqn:Er.
  - right. cbn. intros d2 _. rewrite Er. cbn. unfold would_orphan_last_admin. cbn [andb].
    destruct (_ <=? 1) eqn:Ec; [by right |]. left. split_and!; [done | | done]. apply count_another. zb.
  - left. split_and!; [done | |].
    + destruct Hd as (v & rv & Hv & Hc). exists v. split; [| by exists rv]. intros ->. rewrite Eu in Hv.
      injection Hv as <-. unfold can_administer in Hc. destruct (u_is_admin r); [| done].
      destruct (u_disabled_at r); [done | done].
    + cbn. intros d2 _. right. by rewrite Er.
Qed.

Lemma user_state_safe {A} u l k v (f : bool * bool -> txn A) Q :
  (forall b, safe u l k (f b) Q) -> safe u l k (user_state v ≫= f) Q.
Proof. intros Hf. apply safe_bind, fetch_safe. intros r. apply Hf. Qed.
Lemma reject_safe u l k v Q : Q l k () -> safe u l k (reject_service_row v) Q.
Proof. intros HQ. apply fetch_safe. intros r. by destruct (u_is_service r). Qed.
Lemma grant_safe u l k e v a Q : Q l k () -> safe u l k (grant_account e v a) Q.
Proof.
  intros HQ. destruct (same_users_only u (effect (fun d =>
    if bool_decide (is_Some (users d !! v)) && bool_decide (is_Some (ad_accounts d !! a))
    then Ok (with_grants ({[(v, a)]} ∪ ad_grants d) d, if bool_decide ((v, a) ∈ ad_grants d) then 0 else 1)
    else Err e))) as [Ho Hk].
  { intros d. unfold effect. by case_ifs. }
  cbn. split_and!; [exact Ho | by left | done].
Qed.
Lemma revoke_grant_safe u l k v a (Q : bool -> bool -> Z -> Prop) : (forall n, Q l k n) -> safe u l k (revoke_account v a) Q.
Proof. intros HQ. cbn. split_and!; [by intros d | left; by intros d | done]. Qed.
Lemma update_safe {A} u l k f (c : Z -> txn A) Q :
  (forall r, can_administer r = true -> can_administer (f r) = true) \/ l = true /\ k = true ->
  (forall n, safe u l k (c n) Q) -> safe u l k (Execute (update_user u f) c) Q.
Proof. intros Hf Hc. split_and!; [apply update_only | | done]. destruct Hf; [left; by apply update_keeps | by right]. Qed.
#[local] Hint Unfold done_ : core.

Lemma set_admin_safe u l k b Q : (forall l k, Q l k ()) -> safe u l k (set_admin u b) Q.
Proof.
  intros HQ. unfold set_admin. destruct b.
  - apply safe_bind, safe_bind, reject_safe. apply user_state_safe. intros _. apply update_safe; [left | by cbn].
    intros r. unfold can_administer. cbn. destruct (u_is_admin r); done.
  - apply safe_bind, guard_safe, update_safe; [by right | by cbn].
Qed.
Lemma set_disabled_safe u l k now b Q : (forall l k, Q l k ()) -> safe u l k (set_disabled now u b) Q.
Proof.
  intros HQ. unfold set_disabled. destruct b.
  - apply safe_bind, guard_safe, update_safe; [by right | by cbn].
  - apply safe_bind, user_state_safe. intros _. apply update_safe; [left | by cbn].
    intros r. unfold can_administer. cbn. destruct (u_is_admin r), (u_is_service r); done || by destruct (bool_decide _).
Qed.
Lemma patch_safe u l k now admin_id a b : safe u l k (patch_user now admin_id u a b) done_.
Proof.
  unfold patch_user. destruct (_ && _); [done |].
  assert (Hrest : forall l k, safe u l k (match b with Some b => set_disabled now u b | None => Return () end ;;
    get_user u) done_).
  { intros l' k'. apply safe_bind. assert (Hg : forall l k, safe u l k (get_user u) done_).
    { intros ? ?. apply fetch_safe. intros r. cbn. by right. }
    destruct b; [apply set_disabled_safe; apply Hg | apply Hg]. }
  apply safe_bind. destruct a; [apply set_admin_safe; apply Hrest | apply Hrest].
Qed.

(** ** Every request of the admin pages *)
Section requests.
Context `{Crypto}.

Inductive request :=
  | RqCreateUser (new_id : Z) (username password : pystr) (is_admin : bool)
  | RqPatchUser (now admin_id user_id : Z) (is_admin disabled : option bool)
  | RqDeleteUser (admin_id user_id : Z)
  | RqSetPassword (user_id : Z) (password : pystr)
  | RqSetGrant (user_id account_id : Z) (granted : bool)
  | RqRevokeSessions (now user_id : Z)
  | RqCreateKey (now new_id : Z) (unusable generated name : pystr) (account_ids : list Z)
  | RqSetKeyGrant (user_id account_id : Z) (granted : bool)
  | RqRevokeKey (user_id : Z)
  | RqDeleteKey (user_id : Z)
  | RqGrantAdmin (username : pystr)                                                  (* the CLI *)
  | RqRevokeAdminSessions (now : Z) (username : pystr).
Definition request_txn (r : request) : txn () :=
  match r with
  | RqCreateUser new_id name pw b => _ ← create_user new_id name pw b; Return ()
  | RqPatchUser now admin_id u a b => _ ← patch_user now admin_id u a b; Return ()
  | RqDeleteUser admin_id u => delete_user_route admin_id u
  | RqSetPassword u pw => set_password u pw
  | RqSetGrant u a b => set_grant u a b
  | RqRevokeSessions now u => revoke_sessions now u
  | RqCreateKey now new_id unusable generated name accounts =>
      _ ← create_key now new_id unusable generated name accounts; Return ()
  | RqSetKeyGrant u a b => set_key_grant u a b
  | RqRevokeKey u => revoke_key u
  | RqDeleteKey u => delete_key_principal u
  | RqGrantAdmin name => grant_admin name
  | RqRevokeAdminSessions now name => revoke_admin_sessions now name
  end.
Definition admin_request (m : txn ()) : Prop := exists r, m = request_txn r.

Lemma grants_safe u l k v accounts Q : Q l k () -> safe u l k (grant_accounts v accounts) Q.
Proof.
  intros HQ. induction accounts as [| a rest IH]; [done |]. apply safe_bind, grant_safe. exact IH.
Qed.
Lemma not_found_safe {A} u l k v Q : safe u l k (not_found (A := A) v) Q.
Proof. cbn. intros d _. right. by repeat case_match. Qed.
Lemma insert_key_safe u now raw v name : only u (effect (insert_key now raw v name)) /\ keeps u (effect (insert_key now raw v name)).
Proof. apply same_users_only. intros d. unfold effect, insert_key. by case_ifs. Qed.
Lemma create_key_safe new_id now unusable generated name accounts Q :
  (forall l k x, Q l k x) -> safe new_id false false (create_key now new_id unusable generated name accounts) Q.
Proof.
  intros HQ. unfold create_key. destruct (api_key_name_error name); [done |].
  assert (Hrest : forall v, safe new_id false false (grant_accounts v accounts ;;
    Execute (insert_key now (API_KEY_PREFIX ++ generated) v (strip name))
      (fun _ => Return (v, strip name, API_KEY_PREFIX ++ generated))) Q).
  { intros v. apply safe_bind, grants_safe. cbn. destruct (insert_key_safe new_id now (API_KEY_PREFIX ++ generated) v (strip name)).
    split_and!; [done | by left | intros; apply HQ]. }
  apply safe_bind. intros d _. right. destruct (_ ≫= _) as [[i r] |].
  - destruct (negb _); [done |]. destruct (has_key d i); [done | apply Hrest].
  - cbn [create_service_user safe]. destruct (insert_only (ApiKeyFieldError FieldName) new_id
      (UserRow (strip name) (hasher_hash unusable) false true None None)). split_and!; [done | by left |]. intros _. apply Hrest.
Qed.
Lemma revoke_sessions_safe u l k now : safe u l k (revoke_sessions now u) done_.
Proof. apply update_safe; [by left |]. intros n. by destruct (n =? 0). Qed.
Lemma sweep_safe u v : only u (effect (sweep_tokens v)) /\ keeps u (effect (sweep_tokens v)).
Proof. apply same_users_only. intros d. unfold effect, sweep_tokens. by destruct (users d !! v) as [r |]; [destruct (u_is_service r) |]. Qed.
Lemma erase_principal_safe u : only u (effect (erase_principal u)) /\ keeps u (effect (erase_principal u)).
Proof.
  split.
  - intros d v Hv. pose proof (erase_only u d v Hv) as He. unfold effect, erase_principal in *.
    destruct (users d !! u) as [r |]; [| done]. by destruct (u_is_service r).
  - intros d (r & Hr & Hc). unfold effect, erase_principal. rewrite Hr. destruct (u_is_service r) eqn:Es.
    + unfold can_administer in Hc. by rewrite Es, andb_false_r in Hc.
    + by exists r.
Qed.

Lemma request_safe m : admin_request m -> safe_txn m.
Proof.
  intros [r ->]. destruct r as [new_id name pw b | now admin_id u a b | admin_id u | u pw | u a b | now u
    | now new_id unusable generated name accounts | u a b | u | u | name | now name]; cbn [request_txn].
  - left; exists new_id. apply safe_bind. unfold create_user. destruct (strip name), pw; try done.
    cbn. by split_and!; [apply insert_only | left; apply insert_only |].
  - left; exists u. apply safe_bind. eapply safe_mono; [| apply patch_safe]. done.
  - left; exists u. unfold delete_user_route. destruct (u =? admin_id); [done |]. apply safe_bind, guard_safe. cbn.
    split_and!; [apply erase_only | by right |]. intros n. by destruct (n =? 0).
  - left; exists u. apply safe_bind, reject_safe. destruct pw; [done |]. apply update_safe; [by left |].
    intros n. by destruct (n =? 0).
  - left; exists u. apply user_state_safe. intros _. destruct b; [by apply grant_safe |].
    by apply safe_bind, revoke_grant_safe.
  - left; exists u. by apply revoke_sessions_safe.
  - left; exists new_id. by apply safe_bind, create_key_safe.
  - left; exists u. intros d _. right. destruct (users d !! u) as [r |]; [| apply not_found_safe].
    destruct (u_is_service r); [| apply not_found_safe]. destruct b; [by apply grant_safe |].
    by apply safe_bind, revoke_grant_safe.
  - left; exists u. destruct (sweep_safe u u). split_and!; [done | by left |]. intros n. destruct (n =? 0); [apply not_found_safe | done].
  - left; exists u. destruct (erase_principal_safe u). split_and!; [done | by left |]. intros n. destruct (n =? 0); [apply not_found_safe | done].
  - right. eexists. split; [done |]. intros d. cbn beta. destruct (resolve_user_id_by_username d name) as [v |]; [exists v | by exists 0].
    apply safe_bind, reject_safe, update_safe; [left | done]. intros r. unfold can_administer. cbn. by destruct (u_is_admin r).
  - right. eexists. split; [done |]. intros d. cbn beta. destruct (resolve_user_id_by_username d name) as [v |]; [exists v | by exists 0].
    apply revoke_sessions_safe.
Qed.

(** C16: nobody can lock the last administrator out.  However many requests of
    the admin pages and of the API-key pages run at once, with their statements
    interleaved in any order and any of them failing half-way, an enabled human
    administrator remains. *)
Theorem last_admin_survives s s' :
  rtc (sys_step admin_request) s s' -> sy_sessions s = ∅ -> administered (sy_committed s) ->
  administered (sy_committed s').
Proof.
  intros Hsteps Hnone Ha. enough (system_ok s') as [? _] by done.
  revert Hsteps. apply (rtc_ind_r (fun s' => system_ok s')).
  - split; [done |]. intros i x. by rewrite Hnone.
  - intros y z _ Hstep. apply (sys_step_ok _ request_safe _ _ Hstep).
Qed.
End requests.

(** ** Two admins delete each other at the same time *)
Module Example_admins.
#[local] Instance plain_crypto : Crypto := Example_auth.plain_crypto.
Definition ann : user_row := UserRow (lit "ann") [] true false None None.
Definition bob : user_row := UserRow (lit "bob") [] true false None None.
Definition both (commanders : gset Z) : admin_db := AdminDb (AuthDb {[ 1 := ann; 2 := bob ]} ∅ ∅ ∅ []) ∅ ∅ commanders.
Definition start : system := System (both ∅) None ∅.

(** Session 0 is Ann's request and gets the lock first; session 1 is Bob's. *)
Lemma duel : exists s', rtc (sys_step admin_request) start s' /\ users (sy_committed s') = {[ 1 := ann ]} /\ sy_sessions s' = ∅.
Proof.
  assert (H1 : admin_request (delete_user 2)) by by exists (RqDeleteUser 1 2).
  assert (H2 : admin_request (delete_user 1)) by by exists (RqDeleteUser 2 1).
  eexists. split.
  - eapply rtc_l; [eapply (sys_begin _ _ _ _ 0%nat); [done | exact H1] |].
    eapply rtc_l; [eapply (sys_begin _ _ _ _ 1%nat); [done | exact H2] |].
    eapply rtc_l; [eapply (sys_lock _ _ _ _ 0%nat); [reflexivity | by left] |].
    do 2 (eapply rtc_l; [eapply (sys_select _ _ _ _ 0%nat); reflexivity |]).
    eapply rtc_l; [eapply (sys_execute _ _ _ _ 0%nat); reflexivity |].
    eapply rtc_l; [eapply (sys_commit _ _ _ _ 0%nat); reflexivity |].
    eapply rtc_l; [eapply (sys_lock _ _ _ _ 1%nat); [reflexivity | by left] |].
    do 2 (eapply rtc_l; [eapply (sys_select _ _ _ _ 1%nat); reflexivity |]).
    eapply rtc_l; [eapply (sys_rollback _ _ _ _ 1%nat); reflexivity |]. apply rtc_refl.
  - split; by vm_compute.
Qed.

Lemma last_admin_survives_witness :
  exists s', rtc (sys_step admin_request) start s' /\ users (sy_committed s') = {[ 1 := ann ]} /\
    administered (sy_committed s').
Proof.
  destruct duel as (s' & Hs & Hu & _). exists s'. split; [exact Hs |]. split; [exact Hu |].
  apply (last_admin_survives start s' Hs); [reflexivity |]. exists 1, ann. split; reflexivity.
Defined.

(** The CLI's [revoke-admin] and [remove-api-user] take no such care. *)
Lemma cli_orphans_the_archive :
  ~ administered (txn_result (revoke_admin (lit "ann")) (txn_result (remove_api_user (lit "bob")) (both ∅))).
Proof.
  intros (v & r & Hv & Hr).
  assert (E : users (txn_result (revoke_admin (lit "ann")) (txn_result (remove_api_user (lit "bob")) (both ∅))) =
    {[ 1 := set_is_admin false ann ]}) by by vm_compute.
  rewrite E in Hv. apply lookup_singleton_Some in Hv as [_ <-]. done.
Qed.

(** A user who ever queued a daemon command cannot be deleted. *)
Lemma commander_is_undeletable : run_txn (delete_user 2) (both {[ 2 ]}) = Err ForeignKeyViolation.
Proof. by vm_compute. Qed.
End Example_admins.
