(* ===== verification/ApiKeyFacts.v ===== *)
(** * The schema the admin code keeps, and the life of a credential *)
From S2P Require Import Prelude PyStr MailStore Errors AdminAccounts Credentials OAuth OAuthFacts SessionFacts Admin ApiKeys AdminFacts.
Import Credential Auth OAuth Admin Api_keys.

(** ** Reasoning about one transaction *)
Fixpoint wp {A} (m : txn A) (d : admin_db) (Q : admin_db -> A -> Prop) : Prop :=
  match m with
  | Return a => Q d a
  | Raise _ => True
  | AdvisoryLock k => wp k d Q
  | Select q => wp (q d) d Q
  | Execute w k => forall d' n, w d = Ok (d', n) -> wp (k n) d' Q
  end.
Lemma wp_run {A} (m : txn A) d d' a Q : run_txn m d = Ok (d', a) -> wp m d Q -> Q d' a.
Proof.
  revert d. induction m as [x | e | m IH | q IH | w k IH]; intros d; cbn.
  - by intros [= -> ->].
  - done.
  - apply IH.
  - apply IH.
  - destruct (w d) as [[d1 n] |]; [| done]. intros Hr Hq. eapply IH; [exact Hr | by apply Hq].
Qed.
Lemma wp_ret {A} (a : A) d (Q : admin_db -> A -> Prop) : Q d a -> wp (Return a) d Q.
Proof. done. Qed.
Lemma wp_bind {A B} (m : txn A) (f : A -> txn B) d Q : wp m d (fun d a => wp (f a) d Q) -> wp (m ≫= f) d Q.
Proof. revert d. induction m; intros d; cbn; eauto. Qed.
Lemma wp_mono {A} (m : txn A) d (Q Q' : admin_db -> A -> Prop) : (forall d a, Q d a -> Q' d a) -> wp m d Q -> wp m d Q'.
Proof. intros HQ. revert d. induction m; intros d; cbn; eauto. Qed.

(** ** The schema: the constraints of the tables, and what the code adds *)
Record schema_ok (d : admin_db) : Prop := {
  so_usernames i j u v : users d !! i = Some u -> users d !! j = Some v -> u_username u = u_username v -> i = j;
  so_principals i u : users d !! i = Some u -> u_is_service u = true -> u_is_admin u = false;
  so_keys h t k : tokens d !! h = Some t -> t_api_key_name t = Some k ->
    t_expires_at t = None /\ t_oauth_refresh_family_id t = None /\
    exists u, users d !! t_user_id t = Some u /\ u_is_service u = true /\ u_username u = k;
  so_sessions h t : tokens d !! h = Some t -> t_api_key_name t = None ->
    is_Some (t_expires_at t) /\ exists u, users d !! t_user_id t = Some u /\ u_is_service u = false;
  so_one_key h1 h2 t1 t2 : tokens d !! h1 = Some t1 -> tokens d !! h2 = Some t2 ->
    is_Some (t_api_key_name t1) -> is_Some (t_api_key_name t2) -> t_user_id t1 = t_user_id t2 -> h1 = h2;
  so_grants u a : (u, a) ∈ ad_grants d -> is_Some (users d !! u) /\ is_Some (ad_accounts d !! a);
}.

(** An update of one user that keeps the name and the kind, and the rest. *)
Lemma schema_update d u f d' n :
  schema_ok d -> update_user u f d = Ok (d', n) ->
  (forall r, users d !! u = Some r -> u_username (f r) = u_username r /\ u_is_service (f r) = u_is_service r /\
     (u_is_service r = true -> u_is_admin (f r) = false)) -> schema_ok d'.
Proof.
  unfold update_user. destruct (users d !! u) as [r |] eqn:Er; [| by intros ? [= <- _]].
  intros [H1 H2 H3 H4 H5 H6] [= <- _] Hf. destruct (Hf r eq_refl) as (Hname & Hsvc & Hadm).
  assert (Hu : forall i x, <[u := f r]> (users d) !! i = Some x ->
    exists x0, users d !! i = Some x0 /\ u_username x = u_username x0 /\ u_is_service x = u_is_service x0).
  { intros i x [[<- <-] | [_ Hi]]%lookup_insert_Some; eauto. }
  assert (Hu' : forall i x0, users d !! i = Some x0 ->
    exists x, <[u := f r]> (users d) !! i = Some x /\ u_username x = u_username x0 /\ u_is_service x = u_is_service x0).
  { intros i x0 Hi. destruct (decide (i = u)) as [-> |].
    - rewrite lookup_insert_eq. rewrite Er in Hi. injection Hi as <-. eauto.
    - rewrite lookup_insert_ne by done. eauto. }
  split; cbn; [| | | | done |].
  - intros i j x y (x0 & ? & Hx & _)%Hu (y0 & ? & Hy & _)%Hu E. eapply H1; [done | done | congruence].
  - intros i x [[<- <-] | [_ Hi]]%lookup_insert_Some Hs; [apply Hadm; congruence | by eapply H2].
  - intros h t k Ht Hk. destruct (H3 _ _ _ Ht Hk) as (? & ? & x0 & Hx0 & ? & ?). split_and!; [done | done |].
    destruct (Hu' _ _ Hx0) as (x & ? & ? & ?). exists x. split_and!; [done | congruence | congruence].
  - intros h t Ht Hk. destruct (H4 _ _ Ht Hk) as (? & x0 & Hx0 & ?). split; [done |].
    destruct (Hu' _ _ Hx0) as (x & ? & ? & ?). exists x. split; [done | congruence].
  - intros v a Hva. destruct (H6 _ _ Hva) as [[x0 Hx0] ?]. split; [| done].
    destruct (Hu' _ _ Hx0) as (x & ? & _). by exists x.
Qed.

Lemma schema_insert d e i r d' n :
  schema_ok d -> insert_user e i r d = Ok (d', n) -> (u_is_service r = true -> u_is_admin r = false) -> schema_ok d'.
Proof.
  unfold insert_user. intros [H1 H2 H3 H4 H5 H6] Hi Hadm.
  destruct (bool_decide (is_Some (users d !! i))) eqn:Ei; [done |].
  destruct (username_taken d (u_username r)) eqn:Et; [done |]. cbn in Hi. injection Hi as <- _.
  apply bool_decide_eq_false in Ei. apply bool_decide_eq_false in Et. rewrite <- eq_None_not_Some in Ei.
  assert (Hnew : forall j x, users d !! j = Some x -> u_username x <> u_username r).
  { intros j x Hj E. apply Et. by exists j, x. }
  assert (Hold : forall j x, users d !! j = Some x -> <[i := r]> (users d) !! j = Some x).
  { intros j x Hj. rewrite lookup_insert_ne; [done | congruence]. }
  split; cbn; [| | | | done |].
  - intros j k x y [[<- <-] | [_ Hj]]%lookup_insert_Some [[<- <-] | [_ Hk]]%lookup_insert_Some E; [done | | | by eapply H1].
    + by destruct (Hnew _ _ Hk).
    + by destruct (Hnew _ _ Hj).
  - intros j x [[<- <-] | [_ Hj]]%lookup_insert_Some; [done | by eapply H2].
  - intros h t k Ht Hk. destruct (H3 _ _ _ Ht Hk) as (? & ? & x & ? & ? & ?). split_and!; [done | done |]. exists x. auto.
  - intros h t Ht Hk. destruct (H4 _ _ Ht Hk) as (? & x & ? & ?). split; [done |]. exists x. auto.
  - intros v a Hva. destruct (H6 _ _ Hva) as [[x ?] ?]. split; [| done]. exists x. auto.
Qed.

Lemma schema_erase d u d' n : schema_ok d -> erase_user u d = Ok (d', n) -> schema_ok d'.
Proof.
  unfold erase_user. destruct (users d !! u) as [r |] eqn:Er; [| by intros ? [= <- _]].
  case_bool_decide; [done |]. intros [H1 H2 H3 H4 H5 H6] [= <- _].
  split; cbn; unfold users, tokens; cbn.
  - intros i j x y [_ Hi]%lookup_delete_Some [_ Hj]%lookup_delete_Some. by eapply H1.
  - intros i x [_ Hi]%lookup_delete_Some. by eapply H2.
  - intros h t k [Ht Hne]%map_lookup_filter_Some Hk. cbn in Hne. destruct (H3 _ _ _ Ht Hk) as (? & ? & x & ? & ? & ?).
    split_and!; [done | done |]. exists x. by rewrite lookup_delete_ne.
  - intros h t [Ht Hne]%map_lookup_filter_Some Hk. cbn in Hne. destruct (H4 _ _ Ht Hk) as (? & x & ? & ?).
    split; [done |]. exists x. by rewrite lookup_delete_ne.
  - intros h1 h2 t1 t2 [Ht1 _]%map_lookup_filter_Some [Ht2 _]%map_lookup_filter_Some. by eapply H5.
  - intros v a [Hne Hva]%elem_of_filter. cbn in Hne. destruct (H6 _ _ Hva). by rewrite lookup_delete_ne.
Qed.

Lemma schema_grants d g : schema_ok d ->
  (forall u a, (u, a) ∈ g -> is_Some (users d !! u) /\ is_Some (ad_accounts d !! a)) -> schema_ok (with_grants g d).
Proof. intros [H1 H2 H3 H4 H5 H6] Hg. by split. Qed.

(** Fewer tokens. *)
Lemma schema_fewer_tokens d ts : schema_ok d -> ts ⊆ tokens d -> schema_ok (with_tokens ts d).
Proof.
  intros [H1 H2 H3 H4 H5 H6] Hts. assert (Hl : forall h t, ts !! h = Some t -> tokens d !! h = Some t)
    by (intros; by eapply lookup_weaken).
  split; cbn; [done | done | by eauto | by eauto | by eauto | done].
Qed.

(** A new key on a principal that has none. *)
Lemma schema_insert_key `{Crypto} d now raw u name d' n :
  schema_ok d -> insert_key now raw u name d = Ok (d', n) ->
  (exists r, users d !! u = Some r /\ u_is_service r = true /\ u_username r = name) -> schema_ok d'.
Proof.
  unfold insert_key. intros [H1 H2 H3 H4 H5 H6] Hi Hr.
  destruct (bool_decide (is_Some (tokens d !! hash_token raw))) eqn:Ef; [done |].
  destruct (has_key d u) eqn:Ek; [done |]. cbn in Hi. injection Hi as <- _.
  apply bool_decide_eq_false in Ef. apply bool_decide_eq_false in Ek. rewrite <- eq_None_not_Some in Ef.
  assert (Hno : forall h t, tokens d !! h = Some t -> is_Some (t_api_key_name t) -> t_user_id t <> u).
  { intros h t Ht Hk E. apply Ek. by exists h, t. }
  split; cbn; [done | done | | | | done].
  - intros h t k [[<- <-] | [_ Ht]]%lookup_insert_Some Hk; [| by eapply H3]. cbn in *. injection Hk as <-.
    split_and!; [done | done |]. exact Hr.
  - intros h t [[<- <-] | [_ Ht]]%lookup_insert_Some Hk; [done | by eapply H4].
  - intros h1 h2 t1 t2 [[<- <-] | [_ Ht1]]%lookup_insert_Some [[<- <-] | [_ Ht2]]%lookup_insert_Some Hk1 Hk2 E;
      [done | | | by eapply H5]; cbn in E.
    + by destruct (Hno _ _ Ht2 Hk2).
    + by destruct (Hno _ _ Ht1 Hk1).
Qed.

(** ** Every operation keeps the schema *)
Create HintDb writes.
Notation keeps_schema m d := (wp m d (fun d' _ => schema_ok d')).

Lemma wp_update {A} d u f (k : Z -> txn A) Q :
  schema_ok d ->
  (forall r, users d !! u = Some r -> u_username (f r) = u_username r /\ u_is_service (f r) = u_is_service r /\
     (u_is_service r = true -> u_is_admin (f r) = false)) ->
  (forall d' n, schema_ok d' -> wp (k n) d' Q) -> wp (Execute (update_user u f) k) d Q.
Proof. intros Hok Hf Hk d' n Hu. apply Hk. by eapply schema_update. Qed.
Lemma wp_fetch {A} d u (k : user_row -> txn A) Q :
  (forall r, users d !! u = Some r -> wp (k r) d Q) -> wp (fetch_user u k) d Q.
Proof. intros Hk. cbn. destruct (users d !! u); [by apply Hk | done]. Qed.
Lemma wp_user_state {A} d u (f : bool * bool -> txn A) Q : (forall b, wp (f b) d Q) -> wp (user_state u ≫= f) d Q.
Proof. intros Hf. apply wp_bind, wp_fetch. intros r _. apply Hf. Qed.
Lemma wp_reject d u (Q : admin_db -> () -> Prop) :
  ((forall r, users d !! u = Some r -> u_is_service r = false) -> Q d ()) -> wp (reject_service_row u) d Q.
Proof.
  intros HQ. apply wp_fetch. intros r Hr. destruct (u_is_service r) eqn:Es; [done |]. apply HQ.
  intros r' Hr'. congruence.
Qed.
Lemma wp_guard d u (Q : admin_db -> () -> Prop) : Q d () -> wp (guard_not_last_admin u) d Q.
Proof.
  intros HQ. cbn. destruct (users d !! u) as [r |]; [| done]. cbn.
  by destruct (would_orphan_last_admin _ _).
Qed.
Lemma wp_grant d e u a (Q : admin_db -> () -> Prop) :
  schema_ok d -> (forall d', schema_ok d' -> tokens d' = tokens d -> users d' = users d -> Q d' ()) ->
  wp (grant_account e u a) d Q.
Proof.
  intros Hok HQ d' n Hg. cbn in Hg. destruct (bool_decide (is_Some (users d !! u))) eqn:Eu; [| done].
  destruct (bool_decide (is_Some (ad_accounts d !! a))) eqn:Ea; [| done]. cbn in Hg. injection Hg as <- _.
  apply bool_decide_eq_true in Eu, Ea. apply HQ; [| done | done]. apply schema_grants; [done |].
  intros v b [[-> ->]%elem_of_singleton_1%pair_equal_spec | Hin]%elem_of_union; [done | by apply (so_grants _ Hok)].
Qed.
Lemma wp_revoke_grant {A} d u a (k : Z -> txn A) Q :
  schema_ok d -> (forall d' n, schema_ok d' -> wp (k n) d' Q) -> wp (revoke_account u a ≫= k) d Q.
Proof.
  intros Hok HQ. apply wp_bind. intros d' n [= <- <-]. cbn. apply HQ. apply schema_grants; [done |].
  intros v b [Hin _]%elem_of_difference. by apply (so_grants _ Hok).
Qed.

Lemma set_admin_schema d u b : schema_ok d -> keeps_schema (set_admin u b) d.
Proof.
  intros Hok. apply wp_bind. destruct b.
  - apply wp_bind, wp_reject. intros Hs. apply wp_user_state. intros _.
    apply wp_ret, wp_update; [done | | by cbn]. intros r Hr. rewrite (Hs r Hr). by cbn.
  - apply wp_guard, wp_update; [done | by cbn | by cbn].
Qed.
Lemma set_disabled_schema d now u b : schema_ok d -> keeps_schema (set_disabled now u b) d.
Proof.
  intros Hok. apply wp_bind. pose proof (so_principals _ Hok u) as Hadm. destruct b.
  - apply wp_guard, wp_update; [done | by intros r Hr; split_and!; [done | done | exact (Hadm r Hr)] | by cbn].
  - apply wp_user_state. intros _. apply wp_ret, wp_update; [done | by intros r Hr; split_and!; [done | done | exact (Hadm r Hr)] | by cbn].
Qed.
Lemma erase_schema d u (k : Z -> txn ()) :
  schema_ok d -> (forall d' n, schema_ok d' -> keeps_schema (k n) d') -> keeps_schema (Execute (erase_user u) k) d.
Proof. intros Hok Hk d' n He. apply Hk. by eapply schema_erase. Qed.
Lemma not_found_schema {A} d u Q : wp (not_found (A := A) u) d Q.
Proof. cbn. destruct (users d !! u) as [r |]; [by destruct (u_is_service r) | done]. Qed.
Lemma grants_schema `{Crypto} d u accounts (Q : admin_db -> () -> Prop) :
  schema_ok d -> (forall d', schema_ok d' -> tokens d' = tokens d -> users d' = users d -> Q d' ()) ->
  wp (grant_accounts u accounts) d Q.
Proof.
  revert d. induction accounts as [| a rest IH]; intros d Hok HQ; [by apply HQ |].
  apply wp_bind, wp_grant; [done |]. intros d1 H1 Ht1 Hu1. apply IH; [done |].
  intros d2 H2 Ht2 Hu2. apply HQ; [done | congruence | congruence].
Qed.

Section requests.
Context `{Crypto}.

Lemma create_key_schema d now new_id unusable generated name accounts :
  schema_ok d -> keeps_schema (create_key now new_id unusable generated name accounts) d.
Proof.
  intros Hok. unfold create_key. destruct (api_key_name_error name); [done |].
  assert (Hrest : forall d u, schema_ok d ->
    (exists r, users d !! u = Some r /\ u_is_service r = true /\ u_username r = strip name) ->
    keeps_schema (grant_accounts u accounts ;;
      Execute (insert_key now (API_KEY_PREFIX ++ generated) u (strip name))
        (fun _ => Return (u, strip name, API_KEY_PREFIX ++ generated))) d).
  { intros d1 u H1 Hr. apply wp_bind, grants_schema; [done |]. intros d2 H2 _ Hu d3 n Hi. cbn.
    eapply schema_insert_key; [exact H2 | exact Hi | by rewrite Hu]. }
  apply wp_bind. unfold resolve_principal. cbn [wp].
  destruct (resolve_user_id_by_username d (strip name)) as [i |] eqn:Ei; cbn [mbind option_bind].
  - apply find_key_some in Ei as (r & Hr & Hn). rewrite Hr. cbn [fmap option_fmap option_map].
    destruct (u_is_service r) eqn:Es; [| done]. cbn [negb]. destruct (has_key d i); [done |].
    apply Hrest; [done |]. by exists r.
  - intros d1 n Hi. cbn [wp]. apply Hrest; [by eapply schema_insert |].
    unfold insert_user in Hi. destruct (_ || _); [done |]. injection Hi as <- _. cbn.
    eexists. by rewrite lookup_insert_eq.
Qed.

Lemma revoke_sessions_schema d now u : schema_ok d -> keeps_schema (revoke_sessions now u) d.
Proof.
  intros Hok. apply wp_update; [done | |].
  - intros r Hr. split_and!; [done | done | exact (so_principals _ Hok u r Hr)].
  - intros d' n Hd'. by destruct (n =? 0).
Qed.
Lemma sweep_schema d u d' n : schema_ok d -> sweep_tokens u d = Ok (d', n) -> schema_ok d'.
Proof.
  intros Hok. unfold sweep_tokens. destruct (users d !! u) as [r |]; [| by intros [= <- _]].
  destruct (u_is_service r); [| by intros [= <- _]]. intros [= <- _].
  apply schema_fewer_tokens; [done |]. apply map_filter_subseteq.
Qed.
Lemma erase_principal_schema d u d' n : schema_ok d -> erase_principal u d = Ok (d', n) -> schema_ok d'.
Proof.
  intros Hok. unfold erase_principal. destruct (users d !! u) as [r |] eqn:Er; [| by intros [= <- _]].
  destruct (u_is_service r); [by apply schema_erase | by intros [= <- _]].
Qed.
Lemma by_username_schema d name (k : Z -> txn ()) :
  (forall i, keeps_schema (k i) d) -> keeps_schema (by_username name k) d.
Proof. intros Hk. cbn. by destruct (resolve_user_id_by_username d name). Qed.

Lemma request_schema r d : schema_ok d -> keeps_schema (request_txn r) d.
Proof.
  intros Hok. assert (Hadm := so_principals _ Hok).
  destruct r as [new_id name pw b | now admin_id u a b | admin_id u | u pw | u a b | now u
    | now new_id unusable generated name accounts | u a b | u | u | name | now name]; cbn [request_txn].
  - apply wp_bind. unfold create_user. destruct (strip name), pw; try done.
    intros d' n Hi. by eapply schema_insert.
  - apply wp_bind. unfold patch_user. destruct (_ && _); [done |]. apply wp_bind.
    assert (Hrest : forall d, schema_ok d -> keeps_schema
      (match b with Some b => set_disabled now u b | None => Return () end ;; get_user u) d).
    { intros d1 H1. apply wp_bind. assert (Hg : forall d, schema_ok d -> keeps_schema (get_user u) d)
        by (intros d2 H2; by apply wp_fetch).
      destruct b; [| by apply Hg]. eapply wp_mono; [| by apply set_disabled_schema]. intros d2 [] H2. by apply Hg. }
    destruct a; [| by apply Hrest]. eapply wp_mono; [| by apply set_admin_schema]. intros d2 [] H2. by apply Hrest.
  - unfold delete_user_route. destruct (u =? admin_id); [done |]. apply wp_bind, wp_guard, erase_schema; [done |].
    intros d' n Hd'. by destruct (n =? 0).
  - apply wp_bind, wp_reject. intros Hs. destruct pw; [done |]. apply wp_update; [done | |].
    + intros r Hr. split_and!; [done | done | exact (Hadm _ _ Hr)].
    + intros d' n Hd'. by destruct (n =? 0).
  - apply wp_user_state. intros _. destruct b; [by apply wp_grant | by apply wp_revoke_grant].
  - by apply revoke_sessions_schema.
  - by apply wp_bind, create_key_schema.
  - cbn [wp set_key_grant]. destruct (users d !! u) as [r |]; [| apply not_found_schema].
    destruct (u_is_service r); [| apply not_found_schema]. destruct b; [by apply wp_grant | by apply wp_revoke_grant].
  - intros d' n Hs. destruct (n =? 0); [apply not_found_schema | by eapply sweep_schema].
  - intros d' n Hs. destruct (n =? 0); [apply not_found_schema | by eapply erase_principal_schema].
  - apply by_username_schema. intros i. apply wp_bind, wp_reject. intros Hs. apply wp_update; [done | | by cbn].
    intros r Hr. unfold set_is_admin. rewrite (Hs r Hr). by cbn.
  - apply by_username_schema. intros i. by apply revoke_sessions_schema.
Qed.

(** ** Anything that happens to the tables: the admin pages and API-key pages,
    the CLI, what clients do with their credentials, accounts coming and going,
    idle OAuth clients swept, and daemon commands. *)
Inductive event :=
  | EvAdmin (r : request)
  | EvRevokeAdmin (username : pystr)
  | EvRemoveApiUser (username : pystr)
  | EvAddApiUser (new_id : Z) (username password : pystr) (is_admin : bool)
  | EvGrant (user_id account_id : Z)                              (* the CLI, straight to [acl.py] *)
  | EvRevokeGrant (user_id account_id : Z)
  | EvClient (op : session_op)
  | EvCreateAccount (new_id now : Z) (name email_address auth_method : pystr) (imap_host : option pystr)
      (imap_port : option Z) (oauth_provider : option pystr)
      (folder_allow folder_deny folder_deny_flags : option (list pystr))
  | EvUpdateAccount (account_id now : Z) (f : Admin_accounts.account_fields)
  | EvTouchAccount (account_id now : Z)
  | EvDeleteAccount (freed : gset Z) (account_id : Z) (has_messages force : bool)
  | EvSweepClients (idle : list pystr)
  | EvCommand (requested_by : Z).

Definition with_auth (a : auth_db) (d : admin_db) : admin_db :=
  AdminDb a (ad_accounts d) (ad_grants d) (ad_commanders d).
(** [DELETE FROM oauth_clients]: what names a swept client cascades. *)
Definition sweep_clients (idle : list pystr) (a : auth_db) : auth_db :=
  AuthDb (api_users a)
    (filter (fun ht => match t_oauth_client_id ht.2 with Some c => bool_decide (c ∉ idle) | None => true end = true) (api_tokens a))
    (filter (fun hr => r_client_id hr.2 ∉ idle) (oauth_refresh_tokens a))
    (filter (fun hc => c_client_id hc.2 ∉ idle) (oauth_authorization_codes a)) (api_login_attempts a).
Definition on_accounts (r : res account_error (gmap Z account_row)) (d : admin_db) : admin_db :=
  match r with Ok t => with_accounts t d | Err _ => d end.
Definition apply_event (ev : event) (d : admin_db) : admin_db :=
  match ev with
  | EvAdmin r => txn_result (request_txn r) d
  | EvRevokeAdmin name => txn_result (revoke_admin name) d
  | EvRemoveApiUser name => txn_result (remove_api_user name) d
  | EvAddApiUser i name pw b => txn_result (add_api_user i name pw b) d
  | EvGrant u a => txn_result (grant_account ForeignKeyViolation u a) d
  | EvRevokeGrant u a => txn_result (_ ← revoke_account u a; Return ()) d
  | EvClient op => with_auth (apply_op op (ad_auth d)) d
  | EvCreateAccount i now name em au h p pr al de df =>
      on_accounts (fst <$> Admin_accounts.create_account (ad_accounts d) i now name em au h p pr al de df) d
  | EvUpdateAccount i now f => on_accounts (fst <$> Admin_accounts.update_account (ad_accounts d) i now f) d
  | EvTouchAccount i now => on_accounts (Admin_accounts.touch_account_updated_at (ad_accounts d) i now) d
  | EvDeleteAccount freed i m f => match delete_account_row freed i m f d with Ok d' => d' | Err _ => d end
  | EvSweepClients idle => with_auth (sweep_clients idle (ad_auth d)) d
  | EvCommand u =>
      if bool_decide (is_Some (users d !! u))
      then AdminDb (ad_auth d) (ad_accounts d) (ad_grants d) ({[u]} ∪ ad_commanders d) else d
  end.
Inductive history : admin_db -> list event -> admin_db -> Prop :=
  | history_nil d : history d [] d
  | history_cons d ev evs d' :
      (forall op, ev = EvClient op -> fresh_op op (ad_auth d)) ->
      history (apply_event ev d) evs d' -> history d (ev :: evs) d'.

Lemma txn_result_wp (m : txn ()) d (P : admin_db -> Prop) : P d -> wp m d (fun d' _ => P d') -> P (txn_result m d).
Proof.
  intros Hd Hw. unfold txn_result. destruct (run_txn m d) as [[d' a] |] eqn:Er; [| done]. exact (wp_run m d d' a (fun d' _ => P d') Er Hw).
Qed.

(** Users that keep all but their password. *)
Lemma schema_same_users d us : schema_ok d -> same_users (users d) us -> schema_ok (with_users us d).
Proof.
  intros [H1 H2 H3 H4 H5 H6] Hs.
  split; cbn; [| | | | done |].
  - intros i j x y (x0 & Hx0 & Hx & _)%(same_users_back _ _ _ _ Hs) (y0 & Hy0 & Hy & _)%(same_users_back _ _ _ _ Hs) E.
    eapply H1; [done | done | congruence].
  - intros i x (x0 & Hx0 & _ & Ha & Hv & _)%(same_users_back _ _ _ _ Hs) Hsv. rewrite Ha. eapply H2; [done | congruence].
  - intros h t k Ht Hk. destruct (H3 _ _ _ Ht Hk) as (? & ? & x0 & Hx0 & ? & ?). split_and!; [done | done |].
    destruct (same_users_forth _ _ _ _ Hs Hx0) as (x & ? & ? & _ & ? & _). exists x. split_and!; [done | congruence | congruence].
  - intros h t Ht Hk. destruct (H4 _ _ Ht Hk) as (? & x0 & Hx0 & ?). split; [done |].
    destruct (same_users_forth _ _ _ _ Hs Hx0) as (x & ? & _ & _ & ? & _). exists x. split; [done | congruence].
  - intros v a Hva. destruct (H6 _ _ Hva) as [[x0 Hx0] ?]. split; [| done].
    destruct (same_users_forth _ _ _ _ Hs Hx0) as (x & ? & _). by exists x.
Qed.
Lemma client_schema op d : schema_ok d -> fresh_op op (ad_auth d) -> schema_ok (with_auth (apply_op op (ad_auth d)) d).
Proof.
  intros Hok Hf. pose proof (op_step op _ Hf) as [Hu Hr Hk].
  pose proof (schema_same_users d _ Hok Hu) as [H1 H2 H3 H4 H5 H6]. destruct Hok as [_ _ _ K4 _ _].
  split; [exact H1 | exact H2 | | | | exact H6].
  - intros h t k Ht Hkn. destruct (Hr h t Ht) as [(t0 & Ht0 & Eu & En & Ef & Ec & Ee) | (_ & Hno & _)]; [| congruence].
    rewrite Eu, Ef, Ee. apply (H3 h t0 k Ht0). congruence.
  - intros h t Ht Hkn. destruct (Hr h t Ht) as [(t0 & Ht0 & Eu & En & Ef & Ec & Ee) | (_ & _ & He & Hs)].
    + rewrite Eu, Ee. apply (H4 h t0 Ht0). congruence.
    + split; [done |]. rewrite <- (same_users_session _ _ _ Hu) in Hs. unfold session_user in Hs.
      change (users (with_auth (apply_op op (ad_auth d)) d)) with (api_users (apply_op op (ad_auth d))).
      destruct (api_users (apply_op op (ad_auth d)) !! t_user_id t) as [r |]; [| done].
      exists r. split; [done |]. by destruct (u_is_service r).
  - intros h1 h2 t1 t2 Ht1 Ht2 Hk1 Hk2 E.
    assert (Hold : forall h t, api_tokens (apply_op op (ad_auth d)) !! h = Some t -> is_Some (t_api_key_name t) ->
      exists t0, tokens d !! h = Some t0 /\ t_user_id t0 = t_user_id t /\ is_Some (t_api_key_name t0)).
    { intros h t Ht [k Hkn]. destruct (Hr h t Ht) as [(t0 & Ht0 & Eu & En & _) | (_ & Hno & _)]; [| congruence].
      exists t0. split_and!; [done | done | rewrite <- En, Hkn; eauto]. }
    destruct (Hold _ _ Ht1 Hk1) as (a & Ha & Eua & Hka), (Hold _ _ Ht2 Hk2) as (b & Hb & Eub & Hkb).
    by apply (H5 h1 h2 a b); [| | | | congruence].
Qed.

(** Accounts that come, change or go with their grants. *)
Lemma schema_accounts d t : schema_ok d -> (forall a, is_Some (ad_accounts d !! a) -> is_Some (t !! a)) ->
  schema_ok (with_accounts t d).
Proof. intros [H1 H2 H3 H4 H5 H6] Ht. split; try done. intros v j [? ?]%H6. split; [done | by apply Ht]. Qed.
Lemma schema_insert_account d i r : schema_ok d -> schema_ok (with_accounts (<[i := r]> (ad_accounts d)) d).
Proof. intros Hok. apply schema_accounts; [done |]. intros j Hj. by apply lookup_insert_is_Some'; right. Qed.
Lemma schema_delete_account d freed i m f d' : schema_ok d -> delete_account_row freed i m f d = Ok d' -> schema_ok d'.
Proof.
  intros [H1 H2 H3 H4 H5 H6]. unfold delete_account_row, Admin_accounts.delete_account, Admin_accounts.get_account.
  destruct (ad_accounts d !! i); [| done]. cbn. destruct (f || negb m); [| done]. intros [= <-]. split; try done. cbn.
  intros v j [Hne Hua]%elem_of_filter. cbn in Hne. destruct (H6 _ _ Hua). split; [done |]. by rewrite lookup_delete_ne.
Qed.
Lemma schema_sweep_clients d idle : schema_ok d -> schema_ok (with_auth (sweep_clients idle (ad_auth d)) d).
Proof.
  intros Hok. apply (schema_fewer_tokens d (api_tokens (sweep_clients idle (ad_auth d)))) in Hok; [| apply map_filter_subseteq].
  by destruct Hok.
Qed.
Lemma add_api_user_schema d i name pw b : schema_ok d -> keeps_schema (add_api_user i name pw b) d.
Proof.
  intros Hok. unfold add_api_user. destruct pw as [| c pw]; [done |]. intros d1 n Hi.
  assert (Hok1 : schema_ok d1) by (by eapply schema_insert). destruct b; [| done].
  apply wp_update; [done | | by cbn]. intros r Hr. split_and!; [done | done |]. intros Hs. exfalso. revert Hs Hr.
  unfold insert_user in Hi. destruct (_ || _); [done |]. injection Hi as <- _. cbn. rewrite lookup_insert_eq.
  by intros Hs [= <-].
Qed.

Lemma event_schema ev d : schema_ok d -> (forall op, ev = EvClient op -> fresh_op op (ad_auth d)) ->
  schema_ok (apply_event ev d).
Proof.
  intros Hok Hf. destruct ev as [r | name | name | i name pw b | u a | u a | op | i now name em au h p pr al de df
    | i now f | i now | freed i m f | idle | u]; cbn [apply_event].
  - apply txn_result_wp; [done | by apply request_schema].
  - apply txn_result_wp; [done |]. apply by_username_schema. intros i. apply wp_update; [done | by cbn | by cbn].
  - apply txn_result_wp; [done |]. apply by_username_schema. intros i. by apply erase_schema.
  - apply txn_result_wp; [done | by apply add_api_user_schema].
  - apply txn_result_wp; [done | by apply wp_grant].
  - apply txn_result_wp; [done | by apply wp_revoke_grant].
  - apply client_schema; [done | by apply Hf].
  - destruct (Admin_accounts.create_account _ _ _ _ _ _ _ _ _ _ _ _) as [[t x] |] eqn:E; cbn; [| done].
    unfold Admin_accounts.create_account in E. inv_ok E. injection E as <- _. by apply schema_insert_account.
  - destruct (Admin_accounts.update_account _ _ _ _) as [[t x] |] eqn:E; cbn; [| done].
    unfold Admin_accounts.update_account in E. destruct (negb (Admin_accounts.af_unknown f)); [| done].
    destruct (bool_decide _); inv_ok E; injection E as <- _; [| by apply schema_insert_account].
    by apply schema_accounts.
  - destruct (Admin_accounts.touch_account_updated_at _ _ _) as [t |] eqn:E; cbn; [| done].
    unfold Admin_accounts.touch_account_updated_at in E. inv_ok E. injection E as <-. by apply schema_insert_account.
  - destruct (delete_account_row freed i m f d) as [d' |] eqn:E; [by eapply schema_delete_account | done].
  - by apply schema_sweep_clients.
  - case_bool_decide; [| done]. destruct Hok. by split.
Qed.

(** C17: whatever the admin pages, the API-key pages, the CLI and the clients do,
    accounts being created, changed and deleted included, in any order, the tables
    stay well formed: usernames are unique, a service principal is never an admin
    and holds at most one key, which carries its name and never expires, every
    other token belongs to a person and expires, and tokens and grants only mention
    users and accounts that exist. *)
Theorem schema_is_kept d evs d' : schema_ok d -> history d evs d' -> schema_ok d'.
Proof. intros Hok Hh. induction Hh as [| d ev evs d' Hf _ IH]; [done |]. by apply IH, event_schema. Qed.

(** ** Keys *)

(** What one principal is listed with. *)
Lemma list_keys_of d u r s : users d !! u = Some r -> u_is_service r = true ->
  s ∈ list_keys d /\ ks_user_id s = u <-> exists t, t ∈ keys_held d u /\ s = summarize d u r t.
Proof.
  intros Hr Hs. unfold list_keys. rewrite list_elem_of_bind. split.
  - intros [([i x] & Hin & Hi) <-]. apply list_elem_of_fmap in Hin as (t & -> & Ht). cbn in *.
    apply list_elem_of_filter in Hi as [_ Hi%elem_of_map_to_list]. rewrite Hr in Hi. injection Hi as <-. by exists t.
  - intros (t & Ht & ->). split; [| done]. exists (u, r). split.
    + apply list_elem_of_fmap. by exists t.
    + apply list_elem_of_filter. split; [done | by apply elem_of_map_to_list].
Qed.
Lemma keys_held_some d u h t : schema_ok d -> tokens d !! h = Some t -> key_of_user u h t -> keys_held d u = [Some t].
Proof.
  intros Hok Ht Hk. unfold keys_held.
  set (l := filter _ (map_to_list (tokens d))).
  assert (Hall : forall x, x ∈ l -> x = (h, t)).
  { intros [h' t'] [[Hu' Hk'] Hin%elem_of_map_to_list]%list_elem_of_filter. destruct Hk as [Hu Hk]. cbn in *.
    assert (h' = h) as -> by (eapply (so_one_key _ Hok); [done.. | congruence]). congruence. }
  assert (Hin : (h, t) ∈ l) by (apply list_elem_of_filter; split; [done | by apply elem_of_map_to_list]).
  assert (Hnd : NoDup l) by (apply NoDup_filter, NoDup_map_to_list).
  destruct l as [| x [| y l]]; [by apply elem_of_nil in Hin | |].
  - cbn. rewrite (Hall x) by left. done.
  - exfalso. apply NoDup_cons in Hnd as [Hx _]. apply Hx. rewrite (Hall x) by left.
    rewrite (Hall y) by (right; left). left.
Qed.

Lemma verify_key now d raw t u r : api_tokens d !! hash_token raw = Some t -> t_user_id t = u ->
  api_users d !! u = Some r -> t_expires_at t = None -> is_Some (t_api_key_name t) ->
  (verify_token now d raw).2 =
    if honoured r (t_created_at t) then Some (MkUser u (u_username r) (u_is_admin r) true) else None.
Proof.
  intros Ht Hu Hr He Hk. unfold verify_token, token_live. rewrite Ht, Hu, Hr, He.
  rewrite Sql.kept_and, credential_valid_spec. cbn. destruct (honoured r (t_created_at t)); cbn; [| done].
  by rewrite bool_decide_eq_true_2.
Qed.

(** The listing of the keys tells the truth.  A key is listed exactly once,
    under its principal, and it authenticates, as that principal and never as an
    admin, exactly when the listing says neither [disabled] nor [revoked]. *)
Lemma key_listing_is_honest d now raw t k :
  schema_ok d -> tokens d !! hash_token raw = Some t -> t_api_key_name t = Some k ->
  exists s, (forall s', s' ∈ list_keys d /\ ks_user_id s' = t_user_id t <-> s' = s) /\
    ks_name s = k /\ ks_has_key s = true /\
    match (verify_token now (ad_auth d) raw).2 with
    | Some u => ks_disabled s = false /\ ks_revoked s = false /\ u = MkUser (t_user_id t) k false true
    | None => ks_disabled s = true \/ ks_revoked s = true
    end.
Proof.
  intros Hok Ht Hk. destruct (so_keys _ Hok _ _ _ Ht Hk) as (He & Hf & r & Hr & Hs & Hn).
  assert (Hheld : keys_held d (t_user_id t) = [Some t]) by (eapply keys_held_some; [done.. | split; [done | by rewrite Hk]]).
  exists (summarize d (t_user_id t) r (Some t)). split_and!; [| by cbn | cbn; by rewrite Hk |].
  - intros s'. rewrite (list_keys_of d _ r s' Hr Hs), Hheld. split.
    + by intros (t' & ->%list_elem_of_singleton & ->).
    + intros ->. exists (Some t). split; [by left | done].
  - rewrite (verify_key now _ _ t (t_user_id t) r Ht eq_refl Hr He) by (by rewrite Hk).
    rewrite (so_principals _ Hok _ _ Hr Hs), Hn. cbn. unfold honoured.
    destruct (u_disabled_at r) as [x |]; cbn; [by left |].
    destruct (u_sessions_invalidated_at r) as [c |]; cbn; [| done].
    unfold Sql.lt, Sql.cmp. cbn. destruct (c <=? t_created_at t) eqn:Ec; cbn.
    + split_and!; [done | | done]. destruct (t_created_at t <? c) eqn:El; [zb | done].
    + right. destruct (t_created_at t <? c) eqn:El; [done | zb].
Qed.

(** ** Minting *)
Lemma grant_accounts_run u accounts d d' :
  run_txn (grant_accounts u accounts) d = Ok (d', ()) ->
  ad_auth d' = ad_auth d /\ ad_accounts d' = ad_accounts d /\
  (forall v a, (v, a) ∈ ad_grants d' <-> (v, a) ∈ ad_grants d \/ v = u /\ a ∈ accounts).
Proof.
  revert d. induction accounts as [| a rest IH]; intros d.
  - intros [= <-]. split_and!; [done | done |]. intros v a. split; [by left | intros [? | [_ Ha]]; [done |]].
    by apply elem_of_nil in Ha.
  - cbn. destruct (bool_decide (is_Some (users d !! u)) && bool_decide (is_Some (ad_accounts d !! a))); [| done].
    intros (Ha & Hb & Hg)%IH. split_and!; [done | done |]. intros v b. rewrite Hg. cbn.
    rewrite elem_of_union, elem_of_singleton, elem_of_cons. naive_solver.
Qed.

(** The principal [create_key] mints against, and the database it then sees. *)
Lemma resolve_principal_run d new_id unusable name d' u :
  schema_ok d -> run_txn (resolve_principal new_id unusable name) d = Ok (d', u) ->
  schema_ok d' /\ tokens d' = tokens d /\ ad_grants d' = ad_grants d /\ ad_accounts d' = ad_accounts d /\
  (forall v r, users d !! v = Some r -> users d' !! v = Some r) /\
  exists r, users d' !! u = Some r /\ u_is_service r = true /\ u_is_admin r = false /\ u_username r = name /\
    (users d !! u = Some r \/ users d !! u = None /\ u = new_id /\ forall now, honoured r now = true).
Proof.
  intros Hok. unfold resolve_principal. cbn [run_txn].
  destruct (resolve_user_id_by_username d name) as [i |] eqn:Ei; cbn [mbind option_bind].
  - apply find_key_some in Ei as (r & Hr & Hn). rewrite Hr. cbn [fmap option_fmap option_map].
    destruct (u_is_service r) eqn:Es; [| done]. cbn [negb]. destruct (has_key d i); [done |].
    intros [= <- <-]. split_and!; [done.. |]. exists r. pose proof (so_principals _ Hok i r Hr Es). split_and!; auto.
  - cbn [create_service_user run_txn]. destruct (insert_user _ _ _ _) as [[d1 n] |] eqn:Ein; [| done].
    intros [= <- <-]. assert (Hok1 : schema_ok d1) by (by eapply schema_insert).
    unfold insert_user in Ein. destruct (bool_decide (is_Some (users d !! new_id))) eqn:Ex; [done |].
    destruct (username_taken _ _); [done |]. cbn in Ein. injection Ein as <- _.
    apply bool_decide_eq_false in Ex. rewrite <- eq_None_not_Some in Ex.
    split_and!; [done.. | |].
    + intros v r Hv. cbn. rewrite lookup_insert_ne; [done | congruence].
    + eexists. cbn. rewrite lookup_insert_eq. split_and!; [done.. | by right].
Qed.

Lemma run_bind {A B} (m : txn A) (f : A -> txn B) d :
  run_txn (m ≫= f) d = match run_txn m d with Ok (d', a) => run_txn (f a) d' | Err e => Err e end.
Proof.
  revert d. induction m as [a | e | m IH | q IH | w k IH]; intros d; cbn; [done | done | apply IH | apply IH |].
  destruct (w d) as [[d1 n] |]; [apply IH | done].
Qed.

Lemma create_key_run now new_id unusable generated name accounts d d' u n raw :
  schema_ok d -> run_txn (create_key now new_id unusable generated name accounts) d = Ok (d', (u, n, raw)) ->
  schema_ok d' /\ n = strip name /\ raw = API_KEY_PREFIX ++ generated /\
  tokens d !! hash_token raw = None /\
  tokens d' = <[hash_token raw := TokenRow u now None None (Some n) None None None]> (tokens d) /\
  (forall v a, (v, a) ∈ ad_grants d' <-> (v, a) ∈ ad_grants d \/ v = u /\ a ∈ accounts) /\
  (forall v r, users d !! v = Some r -> users d' !! v = Some r) /\
  exists r, users d' !! u = Some r /\ u_is_service r = true /\ u_is_admin r = false /\ u_username r = n /\
    (users d !! u = Some r \/ users d !! u = None /\ honoured r now = true).
Proof.
  intros Hok Hr. assert (Hok' : schema_ok d').
  { exact (wp_run _ _ _ _ (fun d' _ => schema_ok d') Hr (create_key_schema _ _ _ _ _ _ _ Hok)). }
  split; [done |]. unfold create_key in Hr. destruct (api_key_name_error name); [done |].
  rewrite run_bind in Hr. destruct (run_txn (resolve_principal _ _ _) d) as [[d1 u1] |] eqn:Er; [| done].
  destruct (resolve_principal_run _ _ _ _ _ _ Hok Er) as (_ & Ht1 & Hg1 & Ha1 & Hu1 & r & Hur & Hs & Hadm & Hn & Hwho).
  rewrite run_bind in Hr. destruct (run_txn (grant_accounts u1 accounts) d1) as [[d2 []] |] eqn:Eg; [| done].
  destruct (grant_accounts_run _ _ _ _ Eg) as (Hauth & Hacc & Hgr). cbn [run_txn] in Hr.
  destruct (insert_key _ _ _ _ d2) as [[d3 c] |] eqn:Ei; [| done]. injection Hr as <- <- <- <-.
  assert (Htok : tokens d2 = tokens d) by (rewrite <- Ht1; unfold tokens; by rewrite Hauth).
  assert (Husr : users d2 = users d1) by (unfold users; by rewrite Hauth).
  unfold insert_key in Ei. rewrite Htok in Ei. destruct (bool_decide (is_Some (tokens d !! _))) eqn:Ex; [done |].
  destruct (has_key d2 u1); [done |]. cbn [orb] in Ei. injection Ei as <- _.
  apply bool_decide_eq_false in Ex. rewrite <- eq_None_not_Some in Ex.
  split_and!; [done | done | done | done | | |].
  - intros v a. cbn. by rewrite Hgr, Hg1.
  - intros v x Hv. change (users d2 !! v = Some x). rewrite Husr. by apply Hu1.
  - exists r. change (users d2 !! u1 = Some r /\ u_is_service r = true /\ u_is_admin r = false /\ u_username r = strip name /\
      (users d !! u1 = Some r \/ users d !! u1 = None /\ honoured r now = true)). rewrite Husr.
    split_and!; [done.. |]. destruct Hwho as [? | (? & _ & Hh)]; [by left | right; split; [done |]].
    apply Hh.
Qed.

(** Minting a key gives exactly what was asked for.  The raw key is new, it
    authenticates as its own service principal and never as an admin, at once
    unless the principal it was minted again for is disabled or was revoked later
    than now; the principal's grants are those it had and the accounts named; no
    other user, token or grant changes.  Revoking the key ends it, keeps the
    principal and its grants, and frees the name for the next key. *)
Lemma minted_key_works now now' new_id unusable generated name accounts d d' u n raw :
  schema_ok d -> run_txn (create_key now new_id unusable generated name accounts) d = Ok (d', (u, n, raw)) ->
  tokens d !! hash_token raw = None /\
  (forall h, h <> hash_token raw -> tokens d' !! h = tokens d !! h) /\
  (forall v a, (v, a) ∈ ad_grants d' <-> (v, a) ∈ ad_grants d \/ v = u /\ a ∈ accounts) /\
  (forall v r, users d !! v = Some r -> users d' !! v = Some r) /\
  (exists r, users d' !! u = Some r /\ u_is_service r = true /\
    (verify_token now' (ad_auth d') raw).2 = (if honoured r now then Some (MkUser u n false true) else None) /\
    (users d !! u = None -> honoured r now = true)) /\
  exists d'', run_txn (revoke_key u) d' = Ok (d'', ()) /\
    (verify_token now' (ad_auth d'') raw).2 = None /\ users d'' = users d' /\ ad_grants d'' = ad_grants d' /\
    has_key d'' u = false.
Proof.
  intros Hok Hr. destruct (create_key_run _ _ _ _ _ _ _ _ _ _ _ Hok Hr)
    as (Hok' & -> & Hraw & Hnone & Htok & Hg & Hu & r & Hur & Hs & Hadm & Hn & Hwho).
  set (h := hash_token raw) in *. set (row := TokenRow u now None None (Some (strip name)) None None None) in *.
  assert (Hrow : tokens d' !! h = Some row) by (rewrite Htok; apply lookup_insert_eq).
  split_and!; [done | | exact Hg | exact Hu | |].
  - intros h' Hne. rewrite Htok. by rewrite lookup_insert_ne.
  - exists r. split_and!; [done | done | |].
    + rewrite (verify_key now' _ raw row u r Hrow eq_refl Hur eq_refl) by by eexists.
      by rewrite Hn, Hadm.
    + intros Hnew. destruct Hwho as [? | [_ ?]]; [congruence | done].
  - exists (with_tokens (filter (fun ht => t_user_id ht.2 <> u) (tokens d')) d'). split_and!; [| | done | done |].
    + unfold revoke_key. cbn [run_txn]. unfold sweep_tokens. rewrite Hur, Hs.
      assert (Hsz : size (filter (fun ht => t_user_id ht.2 = u) (tokens d')) <> 0%nat).
      { intros Hz%map_size_empty_iff. assert (Hl : filter (fun ht => t_user_id ht.2 = u) (tokens d') !! h = Some row)
          by (by apply map_lookup_filter_Some). by rewrite Hz, lookup_empty in Hl. }
      destruct (Z.of_nat _ =? 0) eqn:Ez; [zb | done].
    + unfold verify_token. cbn. fold h. destruct (filter _ (tokens d') !! h) as [t |] eqn:Et; [| done].
      apply map_lookup_filter_Some in Et as [Et Hne]. rewrite Hrow in Et. injection Et as <-. by destruct Hne.
    + apply bool_decide_eq_false. intros (h' & t & Ht & Hu' & _). cbn in Ht.
      apply map_lookup_filter_Some in Ht as [_ Hne]. done.
Qed.
End requests.

(** ** Revocation is final *)

(** Every write of [m] keeps [P]. *)
Fixpoint writes_keep {A} (P : admin_db -> Prop) (m : txn A) : Prop :=
  match m with
  | Return _ | Raise _ => True
  | AdvisoryLock k => writes_keep P k
  | Select q => forall d, writes_keep P (q d)
  | Execute w k => (forall d d' n, P d -> w d = Ok (d', n) -> P d') /\ forall n, writes_keep P (k n)
  end.
Lemma writes_keep_bind {A B} P (m : txn A) (f : A -> txn B) :
  writes_keep P m -> (forall a, writes_keep P (f a)) -> writes_keep P (m ≫= f).
Proof. induction m as [a | e | m IH | q IH | w k IH]; cbn; [auto | done | auto | auto |]. intros [Hw Hk] Hf. split; auto. Qed.
Lemma writes_keep_result P (m : txn ()) d : writes_keep P m -> P d -> P (txn_result m d).
Proof.
  intros Hm Hd. apply txn_result_wp; [done |]. revert d Hd. induction m as [a | e | m IH | q IH | w k IH]; cbn; intros d Hd.
  - done.
  - done.
  - by apply IH.
  - by apply IH.
  - intros d' n Hw. destruct Hm as [Hm Hk]. apply IH; [apply Hk | by eapply Hm].
Qed.

Section revoked.
Context `{Crypto} (u : Z) (h : bytes) (c : Z).

(** The user carries a cutoff of [c] or later. *)
Definition cut (r : user_row) : Prop := exists c', u_sessions_invalidated_at r = Some c' /\ c <= c'.
(** While the user is there it is cut, and what is under [h] in any of the tables
    is the user's and older than the cutoff. *)
Record revoked (d : admin_db) : Prop := {
  rv_user r : users d !! u = Some r -> cut r;
  rv_tokens t : tokens d !! h = Some t -> t_user_id t = u /\ t_created_at t < c;
  rv_refresh r : oauth_refresh_tokens (ad_auth d) !! h = Some r -> r_user_id r = u /\ r_created_at r < c;
  rv_codes x : oauth_authorization_codes (ad_auth d) !! h = Some x -> c_user_id x = u /\ c_created_at x < c;
}.

Lemma revoked_fewer d d' : (forall r, users d' !! u = Some r -> users d !! u = Some r \/ cut r) -> tokens d' ⊆ tokens d ->
  oauth_refresh_tokens (ad_auth d') ⊆ oauth_refresh_tokens (ad_auth d) ->
  oauth_authorization_codes (ad_auth d') ⊆ oauth_authorization_codes (ad_auth d) -> revoked d -> revoked d'.
Proof.
  intros Hu Ht Hr Hc [R1 R2 R3 R4]. split.
  - intros r [? | ?]%Hu; [by apply R1 | done].
  - intros t Hl. apply R2. by eapply lookup_weaken.
  - intros r Hl. apply R3. by eapply lookup_weaken.
  - intros x Hl. apply R4. by eapply lookup_weaken.
Qed.
Lemma revoked_same d d' : ad_auth d' = ad_auth d -> revoked d -> revoked d'.
Proof. intros Heq. apply revoked_fewer; unfold users, tokens; rewrite Heq; eauto. Qed.
Lemma writes_update {A} v f (k : Z -> txn A) :
  (forall r, cut r -> cut (f r)) -> (forall n, writes_keep revoked (k n)) -> writes_keep revoked (Execute (update_user v f) k).
Proof.
  intros Hf Hk. split; [| done]. intros d d' n Hd. unfold update_user.
  destruct (users d !! v) as [r |] eqn:Er; intros [= <- _]; [| done]. apply (revoked_fewer d); [| done..].
  cbn. intros r' [[-> <-] | [_ Hi]]%lookup_insert_Some; [| by left]. right. by apply Hf, (rv_user _ Hd).
Qed.
Lemma writes_insert {A} e i r (k : Z -> txn A) : i <> u ->
  (forall n, writes_keep revoked (k n)) -> writes_keep revoked (Execute (insert_user e i r) k).
Proof.
  intros Hi Hk. split; [| done]. intros d d' n Hd. unfold insert_user. destruct (_ || _); [done |]. intros [= <- _].
  apply (revoked_fewer d); [| done..]. cbn. intros r' Hr. rewrite lookup_insert_ne in Hr by done. by left.
Qed.
Lemma revoked_erase v d d' n : revoked d -> erase_user v d = Ok (d', n) -> revoked d'.
Proof.
  intros Hd. unfold erase_user. destruct (users d !! v); [| by intros [= <- _]]. case_bool_decide; [done |].
  intros [= <- _]. apply (revoked_fewer d); cbn; [| apply map_filter_subseteq.. | done].
  intros r [_ Hr]%lookup_delete_Some. by left.
Qed.
Lemma writes_erase {A} v (k : Z -> txn A) :
  (forall n, writes_keep revoked (k n)) -> writes_keep revoked (Execute (erase_user v) k).
Proof. intros Hk. split; [| done]. intros d d' n. apply revoked_erase. Qed.
Lemma writes_grant e v a : writes_keep revoked (grant_account e v a).
Proof. split; [| done]. intros d d' n Hd. cbn. case_ifs; try done; intros [= <- _]; by apply (revoked_same d). Qed.
Lemma writes_revoke_grant v a : writes_keep revoked (revoke_account v a).
Proof. split; [| done]. intros d d' n Hd [= <- _]. by apply (revoked_same d). Qed.
Lemma revoked_fewer_tokens d ts : ts ⊆ tokens d -> revoked d -> revoked (with_tokens ts d).
Proof. intros Hts. apply revoked_fewer; [by left | done..]. Qed.

Lemma writes_fetch {A} v (k : user_row -> txn A) : (forall r, writes_keep revoked (k r)) -> writes_keep revoked (fetch_user v k).
Proof. intros Hk d. by destruct (users d !! v). Qed.
Lemma writes_reject v : writes_keep revoked (reject_service_row v).
Proof. apply writes_fetch. intros r. by destruct (u_is_service r). Qed.
Lemma writes_user_state v : writes_keep revoked (user_state v).
Proof. by apply writes_fetch. Qed.
Lemma writes_guard v : writes_keep revoked (guard_not_last_admin v).
Proof. cbn. intros d. destruct (users d !! v) as [r |]; [| done]. cbn. intros d2. by destruct (would_orphan_last_admin _ _). Qed.
Lemma writes_not_found {A} v : writes_keep revoked (not_found (A := A) v).
Proof. cbn. intros d. destruct (users d !! v) as [r |]; [by destruct (u_is_service r) | done]. Qed.
Lemma writes_by_username name (k : Z -> txn ()) : (forall i, writes_keep revoked (k i)) -> writes_keep revoked (by_username name k).
Proof. intros Hk d. by destruct (resolve_user_id_by_username d name). Qed.
#[local] Hint Resolve writes_reject writes_user_state writes_guard writes_grant writes_revoke_grant writes_not_found : writes.

Lemma writes_revoke_sessions now v : c <= now -> writes_keep revoked (revoke_sessions now v).
Proof. intros Hn. apply writes_update; [intros r _; by exists now |]. intros n. by destruct (n =? 0). Qed.
Lemma writes_set_disabled now v b : writes_keep revoked (set_disabled now v b).
Proof.
  apply writes_keep_bind; [| intros []; by apply writes_update].
  destruct b; [auto with writes | apply writes_keep_bind; [auto with writes | done]].
Qed.
Lemma writes_set_admin v b : writes_keep revoked (set_admin v b).
Proof.
  apply writes_keep_bind; [| intros []; by apply writes_update].
  destruct b; [| auto with writes]. apply writes_keep_bind; [auto with writes |]. intros [].
  apply writes_keep_bind; [auto with writes | done].
Qed.
Lemma writes_insert_key {A} now raw v name (k : Z -> txn A) : hash_token raw <> h ->
  (forall n, writes_keep revoked (k n)) -> writes_keep revoked (Execute (insert_key now raw v name) k).
Proof.
  intros Hne Hk. split; [| done]. intros d d' n Hd. unfold insert_key. destruct (_ || _); [done |].
  intros [= <- _]. destruct Hd as [R1 R2 R3 R4]. split; [done | | done | done].
  cbn. intros t Ht. rewrite lookup_insert_ne in Ht by done. by apply R2.
Qed.
Lemma writes_create_key now new_id unusable generated name accounts :
  new_id <> u -> hash_token (API_KEY_PREFIX ++ generated) <> h ->
  writes_keep revoked (create_key now new_id unusable generated name accounts).
Proof.
  intros Hid Hne. unfold create_key. destruct (api_key_name_error name); [done |]. apply writes_keep_bind.
  - intros d. destruct (_ ≫= _) as [[i r] |]; [| by apply writes_insert].
    destruct (negb _); [done |]. by destruct (has_key d i).
  - intros v. apply writes_keep_bind; [| intros []; by apply writes_insert_key].
    induction accounts as [| a rest IH]; [done |]. apply writes_keep_bind; [auto with writes | done].
Qed.

(** What a later event must not do: generate the very same secret again, reuse the
    user's id, or record a revocation from before the cutoff. *)
Definition later_event (ev : event) : Prop :=
  match ev with
  | EvAdmin (RqCreateUser new_id _ _ _) | EvAddApiUser new_id _ _ _ => new_id <> u
  | EvAdmin (RqCreateKey _ new_id _ generated _ _) => new_id <> u /\ hash_token (API_KEY_PREFIX ++ generated) <> h
  | EvAdmin (RqRevokeSessions now _) | EvAdmin (RqRevokeAdminSessions now _) => c <= now
  | EvClient op => ~ generates op h
  | _ => True
  end.

Lemma writes_request r : later_event (EvAdmin r) -> writes_keep revoked (request_txn r).
Proof.
  destruct r as [new_id name pw b | now admin_id v a b | admin_id v | v pw | v a b | now v
    | now new_id unusable generated name accounts | v a b | v | v | name | now name]; cbn [request_txn later_event]; intros Hl.
  - apply writes_keep_bind; [| done]. unfold create_user. destruct (strip name), pw; try done. by apply writes_insert.
  - apply writes_keep_bind; [| done]. unfold patch_user. destruct (_ && _); [done |].
    apply writes_keep_bind; [destruct a; [apply writes_set_admin | done] |]. intros [].
    apply writes_keep_bind; [destruct b; [apply writes_set_disabled | done] |]. intros []. by apply writes_fetch.
  - unfold delete_user_route. destruct (v =? admin_id); [done |]. apply writes_keep_bind; [auto with writes |].
    intros []. apply writes_erase. intros n. by destruct (n =? 0).
  - apply writes_keep_bind; [auto with writes |]. intros []. destruct pw; [done |].
    apply writes_update; [done |]. intros n. by destruct (n =? 0).
  - apply writes_keep_bind; [auto with writes |]. intros _. destruct b; [auto with writes |].
    apply writes_keep_bind; [auto with writes | done].
  - by apply writes_revoke_sessions.
  - destruct Hl. apply writes_keep_bind; [by apply writes_create_key | done].
  - intros d. destruct (users d !! v) as [r |]; [| auto with writes]. destruct (u_is_service r); [| auto with writes].
    destruct b; [auto with writes |]. apply writes_keep_bind; [auto with writes | done].
  - split; [| intros n; destruct (n =? 0); [auto with writes | done]]. intros d d' n Hd. unfold sweep_tokens.
    destruct (users d !! v) as [r |]; [| by intros [= <- _]]. destruct (u_is_service r); [| by intros [= <- _]].
    intros [= <- _]. apply revoked_fewer_tokens; [apply map_filter_subseteq | done].
  - split; [| intros n; destruct (n =? 0); [auto with writes | done]]. intros d d' n Hd. unfold erase_principal.
    destruct (users d !! v) as [r |]; [| by intros [= <- _]]. destruct (u_is_service r); [| by intros [= <- _]].
    by apply revoked_erase.
  - apply writes_by_username. intros i. apply writes_keep_bind; [auto with writes |]. intros [].
    by apply writes_update; [done |].
  - apply writes_by_username. intros i. by apply writes_revoke_sessions.
Qed.

Lemma client_revoked op d : ~ generates op h -> fresh_op op (ad_auth d) -> revoked d ->
  revoked (with_auth (apply_op op (ad_auth d)) d).
Proof.
  intros Hg Hf [R1 R2 R3 R4]. destruct (op_step op _ Hf) as [Hu Hr _]. destruct (op_grants op (ad_auth d)) as [Gr Gc]. split.
  - intros r' (r & Hi & _ & _ & _ & _ & Hc)%(same_users_back _ _ _ _ Hu). unfold cut. rewrite Hc. by apply R1.
  - intros t' [(t & Ht & -> & _ & _ & -> & _) | (Hm & _)]%Hr; [by apply R2 | by destruct Hg; apply mints_generates].
  - intros r' [(r & Hr0 & -> & ->) | ?]%Gr; [by apply R3 | done].
  - intros x [? | ?]%Gc; [by apply R4 | done].
Qed.
Lemma event_revoked ev d : later_event ev -> (forall op, ev = EvClient op -> fresh_op op (ad_auth d)) ->
  revoked d -> revoked (apply_event ev d).
Proof.
  intros Hl Hf Hd. destruct ev as [r | name | name | i name pw b | v a | v a | op | i now name em au ho p pr al de df
    | i now f | i now | freed i m f | idle | v]; cbn [apply_event].
  - apply writes_keep_result; [by apply writes_request | done].
  - apply writes_keep_result; [| done]. apply writes_by_username. intros i. by apply writes_update.
  - apply writes_keep_result; [| done]. apply writes_by_username. intros i. by apply writes_erase.
  - apply writes_keep_result; [| done]. unfold add_api_user. destruct pw; [done |]. apply writes_insert; [done |].
    intros _. destruct b; [by apply writes_update | done].
  - apply writes_keep_result; [auto with writes | done].
  - apply writes_keep_result; [| done]. apply writes_keep_bind; [auto with writes | done].
  - apply client_revoked; [done | by apply Hf | done].
  - unfold on_accounts. case_match; [by apply (revoked_same d) | done].
  - unfold on_accounts. case_match; [by apply (revoked_same d) | done].
  - unfold on_accounts. case_match; [by apply (revoked_same d) | done].
  - unfold delete_account_row. destruct (Admin_accounts.delete_account _ _ _ _); [by apply (revoked_same d) | done].
  - revert Hd. apply revoked_fewer; [by left | apply map_filter_subseteq..].
  - case_bool_decide; [by apply (revoked_same d) | done].
Qed.

(** Nothing revoked is honoured again. *)
Lemma revoked_user d r t : revoked d -> users d !! u = Some r -> t < c -> honoured r t = false.
Proof.
  intros Hd Hr Ht. destruct (rv_user d Hd r Hr) as (c' & Hi & Hle). unfold honoured. rewrite Hi.
  destruct (u_disabled_at r); [done |]. zb.
Qed.
Lemma revoked_token d now raw : h = hash_token raw -> revoked d -> verify_token now (ad_auth d) raw = (ad_auth d, None).
Proof.
  intros Hh Hd. unfold verify_token. rewrite <- Hh. destruct (api_tokens (ad_auth d) !! h) as [t |] eqn:Et; [| done].
  destruct (token_live now (ad_auth d) t) as [r |] eqn:El; [| done]. apply token_live_spec in El as (Hr & _ & Hho).
  destruct (rv_tokens d Hd t Et) as [Eu Hc]. rewrite Eu in Hr. by rewrite (revoked_user d r _ Hd Hr Hc) in Hho.
Qed.
Lemma revoked_refresh d now raw : h = hash_token raw -> revoked d -> load_refresh now (ad_auth d) raw = None.
Proof.
  intros Hh Hd. unfold load_refresh. rewrite <- Hh. destruct (oauth_refresh_tokens (ad_auth d) !! h) as [x |] eqn:Ex; [| done].
  destruct (refresh_live now (ad_auth d) x) eqn:El; [| done]. apply refresh_live_spec in El as (r & Hr & _ & _ & Hho).
  destruct (rv_refresh d Hd x Ex) as [Eu Hc]. rewrite Eu in Hr. by rewrite (revoked_user d r _ Hd Hr Hc) in Hho.
Qed.
Lemma revoked_code d now raw : h = hash_token raw -> revoked d -> still_valid (consume_code now (ad_auth d) raw).2 = false.
Proof.
  intros Hh Hd. unfold consume_code. rewrite <- Hh. destruct (oauth_authorization_codes (ad_auth d) !! h) as [x |] eqn:Ex; [| done].
  cbn [snd still_valid]. apply not_true_iff_false. intros (r & Hr & _ & Hho)%code_condition_spec.
  destruct (rv_codes d Hd x Ex) as [Eu Hc]. rewrite Eu in Hr. by rewrite (revoked_user d r _ Hd Hr Hc) in Hho.
Qed.
Lemma revoked_cookie d issued_at : issued_at < c -> revoked d -> is_ok (run_txn (get_admin_user u (Some issued_at)) d) = false.
Proof.
  intros Hi Hd. cbn. destruct (users d !! u) as [r |] eqn:Er; [| done]. destruct (u_disabled_at r); [done |].
  destruct (rv_user d Hd r Er) as (c' & -> & Hle). destruct (u_is_admin r); [| done]. cbn. unfold Sql.lt, Sql.cmp. cbn.
  destruct (issued_at <? c') eqn:E; [done | zb].
Qed.
End revoked.

(** C18: revoking is final.  Once a user's sessions are revoked, no credential made
    before that is honoured again: a session token, API key or access token never
    authenticates, a refresh token cannot be exchanged, an authorization code mints
    nothing, and an admin cookie opens no page; not after the user is enabled,
    promoted, given a new password by an admin or by itself, granted accounts or
    deleted, nor after anything a client does with any credential, as long as
    nobody generates the same secret anew, ids are not reused and later
    revocations are not stamped earlier. *)
Theorem revoked_credential_stays_dead `{Crypto} c u raw d d1 evs d' now :
  (forall t, tokens d !! hash_token raw = Some t -> t_user_id t = u /\ t_created_at t < c) ->
  (forall r, oauth_refresh_tokens (ad_auth d) !! hash_token raw = Some r -> r_user_id r = u /\ r_created_at r < c) ->
  (forall x, oauth_authorization_codes (ad_auth d) !! hash_token raw = Some x -> c_user_id x = u /\ c_created_at x < c) ->
  run_txn (revoke_sessions c u) d = Ok (d1, ()) ->
  history d1 evs d' -> Forall (later_event u (hash_token raw) c) evs ->
  verify_token now (ad_auth d') raw = (ad_auth d', None) /\
  (load_refresh now (ad_auth d') raw = None /\
   forall cfg rr ra client, (exchange_refresh_token cfg now (fun x => x) rr ra (ad_auth d') client raw).2 = Err InvalidGrant) /\
  (forall cfg now2 meanwhile rr ra fam client ac, ax_code ac = raw ->
     (exchange_authorization_code cfg now now2 meanwhile rr ra fam (ad_auth d') client ac).2 = Err InvalidGrant) /\
  (forall issued_at, issued_at < c -> is_ok (run_txn (get_admin_user u (Some issued_at)) d') = false).
Proof.
  intros Ht Hr Hx Hrun Hh Hl. assert (H1 : revoked u (hash_token raw) c d1).
  { unfold revoke_sessions in Hrun. cbn [run_txn] in Hrun. unfold update_user in Hrun.
    destruct (users d !! u) as [r |] eqn:Er; [| done]. cbn in Hrun. injection Hrun as <-.
    split; [| exact Ht | exact Hr | exact Hx]. cbn. rewrite lookup_insert_eq. intros r' [= <-]. by exists c. }
  assert (H' : revoked u (hash_token raw) c d').
  { clear Hrun. induction Hh as [| d1 ev evs d' Hf _ IH]; [done |]. inversion_clear Hl as [| ? ? Hev Hevs].
    apply IH; [done |]. by apply event_revoked. }
  clear Ht Hr Hx Hrun H1. split_and!.
  - by eapply revoked_token.
  - by eapply revoked_refresh.
  - intros cfg rr ra client. unfold exchange_refresh_token, rotate_refresh.
    rewrite (revoked_refresh _ _ _ _ _ raw eq_refl H'). by destruct (raw_state (ad_auth d') raw) as [[f []] |].
  - intros cfg now2 meanwhile rr ra fam client ac <-. unfold exchange_authorization_code.
    pose proof (revoked_code _ _ _ _ now _ eq_refl H') as Hc.
    destruct (consume_code now (ad_auth d') (ax_code ac)) as [d2 burn]. cbn [snd] in Hc. rewrite Hc.
    by destruct (negb (burned burn)).
  - intros issued Hi. by eapply revoked_cookie.
Qed.

(** ** A small installation *)
Module Example_admin.
#[local] Instance plain_crypto : Crypto := Example_auth.plain_crypto.

Definition ann : user_row := UserRow (lit "ann") (36 :: lit "secret") true false None None.
Definition account (name : pystr) : account_row :=
  AccountRow name (name ++ lit "@x.org") (lit "password") None (Some (lit "imap.x.org")) (Some 993) None None None true 1 1.
Definition installed : admin_db :=
  AdminDb (AuthDb {[ 1 := ann ]} ∅ ∅ ∅ []) {[ 10 := account (lit "home"); 11 := account (lit "work") ]} ∅ ∅.
Lemma installed_ok : schema_ok installed.
Proof.
  split; unfold installed, users, tokens; cbn.
  - by intros i j u v [<- _]%lookup_singleton_Some [<- _]%lookup_singleton_Some.
  - by intros i u [_ <-]%lookup_singleton_Some.
  - by intros h t k Ht.
  - by intros h t Ht.
  - by intros h1 h2 t1 t2 Ht.
  - by intros u a Hin%elem_of_empty.
Qed.

Definition mint : txn (Z * pystr * pystr) := create_key 100 2 (lit "junk") (lit "abc") (lit " nightly ") [10].
Definition with_bot : admin_db := txn_result mint installed.
Definition raw : pystr := lit "lmk_abc".
Lemma mint_run : run_txn mint installed = Ok (with_bot, (2, lit "nightly", raw)).
Proof. by vm_compute. Qed.
Lemma with_bot_ok : schema_ok with_bot.
Proof. exact (wp_run _ _ _ _ (fun d _ => schema_ok d) mint_run (create_key_schema _ _ _ _ _ _ _ installed_ok)). Qed.

Definition day_of_events : list event :=
  [EvAdmin (RqCreateUser 3 (lit "bob") (lit "pw") false); EvAdmin (RqCreateKey 100 2 (lit "junk") (lit "abc") (lit "nightly") [10]);
   EvAdmin (RqPatchUser 120 1 3 (Some true) None); EvRevokeAdmin (lit "ann"); EvClient (OpWhoami 130 raw);
   EvClient (OpChangePassword 140 raw (lit "x") (lit "y")); EvDeleteAccount ∅ 10 true true;
   EvRemoveApiUser (lit "ann")].
Lemma schema_is_kept_witness :
  exists d', history installed day_of_events d' /\ schema_ok d' /\ size (users d') = 2%nat /\ ad_grants d' = ∅.
Proof.
  exists (fold_left (fun d ev => apply_event ev d) day_of_events installed).
  assert (Hh : history installed day_of_events (fold_left (fun d ev => apply_event ev d) day_of_events installed)).
  { repeat (apply history_cons; [intros op [= <-]; by intros ? [=] || done |]). apply history_nil. }
  split; [exact Hh |]. split; [exact (schema_is_kept _ _ _ installed_ok Hh) | split; by vm_compute].
Defined.

(** The principal also holds a refresh token and a code under the same secret. *)
Definition loaded : admin_db :=
  with_auth (set_refresh {[ raw := RefreshRow (lit "app") 2 [] 100 9000 None 7 None ]}
    (set_codes {[ raw := CodeRow (lit "app") 2 (lit "cb") true (lit "ch") [] 100 9000 None ]} (ad_auth with_bot))) with_bot.
Definition revoked_day : list event :=
  [EvAdmin (RqPatchUser 210 1 2 None (Some true)); EvAdmin (RqPatchUser 220 1 2 None (Some false));
   EvAdmin (RqSetKeyGrant 2 11 true); EvClient (OpChangePassword 230 raw (lit "junk") (lit "new")); EvDeleteAccount ∅ 11 false false].
Lemma revoked_credential_stays_dead_witness :
  exists d1 d', run_txn (revoke_sessions 200 2) loaded = Ok (d1, ()) /\ history d1 revoked_day d' /\
    (verify_token 190 (ad_auth loaded) raw).2 <> None /\ load_refresh 190 (ad_auth loaded) raw <> None /\
    (verify_token 300 (ad_auth d') raw).2 = None /\ load_refresh 300 (ad_auth d') raw = None.
Proof.
  set (d1 := txn_result (revoke_sessions 200 2) loaded).
  set (d' := fold_left (fun d ev => apply_event ev d) revoked_day d1).
  assert (Hr : run_txn (revoke_sessions 200 2) loaded = Ok (d1, ())) by by vm_compute.
  assert (Hh : history d1 revoked_day d').
  { unfold d'. repeat (apply history_cons; [intros op [=]; subst; by intros ? [=] |]). apply history_nil. }
  exists d1, d'. split; [exact Hr |]. split; [exact Hh |]. split; [by vm_compute |]. split; [by vm_compute |].
  destruct (revoked_credential_stays_dead 200 2 raw loaded d1 revoked_day d' 300) as (-> & [-> _] & _);
    [| | | exact Hr | exact Hh | | done].
  - intros t Ht. vm_compute in Ht. injection Ht as <-. done.
  - intros r Ht. vm_compute in Ht. injection Ht as <-. done.
  - intros x Ht. vm_compute in Ht. injection Ht as <-. done.
  - repeat constructor; cbn; try lia. by intros (? & ?%not_elem_of_nil & _).
Defined.
End Example_admin.
