(* ===== verification/Daemon.v ===== *)
(** * The sync daemon ([daemon.py], [daemon_reconcile.py], [heartbeat.py],
      [api/admin/daemon.py], [shutdown_budget.py], [retry.py])

    One idle and one poll thread per account, kept in step with the [accounts]
    table by a reconcile tick that first drains the command queue.  A pair of
    threads is a [group] with a stop event of its own; whether a join ends within
    its timeout, and which database calls fail, are fields of the tick's
    environment.  Times are integers. *)
From S2P Require Import Prelude PyStr Errors Odict PySort AdminAccounts.
Import Admin_accounts.

(** ** [daemon_reconcile.py] *)
Module Reconcile.
Record ReconcilePlan := MkPlan { to_spawn : list Z; to_teardown : list Z; to_respawn : list Z }.
Definition is_empty (p : ReconcilePlan) : bool :=
  bool_decide (to_spawn p = []) && bool_decide (to_teardown p = []) && bool_decide (to_respawn p = []).
Definition sorted_ids (s : gset Z) : list Z := py_sorted Z.ltb (elements s).
Definition plan_reconcile (running desired : gmap Z Z) : ReconcilePlan :=
  MkPlan (sorted_ids (dom desired ∖ dom running)) (sorted_ids (dom running ∖ dom desired))
    (sorted_ids (filter (fun aid => running !! aid <> desired !! aid) (dom running ∩ dom desired))).
End Reconcile.
Import Reconcile.

(** ** [heartbeat.py] *)
Module Heartbeat.
Inductive worker_kind := KIdle | KPoll | KEmbed | KExtract | KReconcile.
#[export] Instance worker_kind_eq_dec : EqDecision worker_kind.
Proof. solve_decision. Defined.
#[export] Program Instance worker_kind_countable : Countable worker_kind :=
  inj_countable' (fun k => match k with KIdle => 0 | KPoll => 1 | KEmbed => 2 | KExtract => 3 | KReconcile => 4 end)
    (fun n => if n =? 0 then KIdle else if n =? 1 then KPoll else if n =? 2 then KEmbed
              else if n =? 3 then KExtract else KReconcile) _.
Next Obligation. by intros []. Qed.
Record heartbeat_row := HeartbeatRow {
  hb_state : pystr; hb_current_folder : option pystr; hb_last_error_msg : option pystr;
  hb_started_at : Z; hb_last_heartbeat_at : Z }.
(** Keyed by kind and account; a process-level worker has no account. *)
Notation heartbeats := (gmap (worker_kind * option Z) heartbeat_row).
Definition record_heartbeat (h : heartbeats) (now : Z) (kind : worker_kind) (account_id : option Z) (state : pystr)
    (folder error : option pystr) : heartbeats :=
  let started := match h !! (kind, account_id) with Some row => hb_started_at row | None => now end in
  <[(kind, account_id) := HeartbeatRow state folder error started now]> h.
Definition clear_all_heartbeats (h : heartbeats) : heartbeats := ∅.
Definition clear_account_heartbeats (h : heartbeats) (account_id : Z) : heartbeats :=
  filter (fun e : (worker_kind * option Z) * heartbeat_row => e.1.2 <> Some account_id) h.
(** [safe_heartbeat]: a failed write changes nothing and is swallowed. *)
Definition safe_heartbeat (ok : bool) (h : heartbeats) (now : Z) (kind : worker_kind) (account_id : option Z)
    (state : pystr) : heartbeats := if ok then record_heartbeat h now kind account_id state None None else h.
(** [get_daemon_status]'s [stale] column. *)
Definition stale (now stale_seconds : Z) (row : heartbeat_row) : bool :=
  stale_seconds * 1000000 <? now - hb_last_heartbeat_at row.
End Heartbeat.
Import Heartbeat.

(** ** [api/admin/daemon.py] *)
Module Commands.
Inductive command_name := ReloadNow | RestartAccount | DrainStop.
Inductive command_state := Queued | Done | Failed.
#[export] Instance command_state_eq_dec : EqDecision command_state.
Proof. solve_decision. Defined.
Record command_row := CommandRow {
  cm_command : command_name; cm_account_id : option Z; cm_state : command_state; cm_requested_at : Z;
  cm_picked_at : option Z; cm_done_at : option Z }.
Notation commands := (gmap Z command_row).
(** [CHECK ((command = 'restart-account') = (account_id IS NOT NULL))] *)
Definition command_check (c : command_name) (account_id : option Z) : bool :=
  match c, account_id with RestartAccount, Some _ => true | RestartAccount, None => false | _, None => true | _, Some _ => false end.
(** [enqueue_command]: [None] is the CheckViolation or the ForeignKeyViolation. *)
Definition enqueue_command (t : accounts) (q : commands) (new_id now : Z) (c : command_name) (account_id : option Z)
    : option commands :=
  if command_check c account_id && match account_id with Some i => bool_decide (is_Some (t !! i)) | None => true end
  then Some (<[new_id := CommandRow c account_id Queued now None None]> q) else None.
(** [account_id ... REFERENCES accounts(id) ON DELETE CASCADE] *)
Definition cascade_commands (q : commands) (account_id : Z) : commands :=
  filter (fun e : Z * command_row => cm_account_id e.2 <> Some account_id) q.
Definition command_before (a b : Z * command_row) : bool :=
  (cm_requested_at a.2 <? cm_requested_at b.2) || ((cm_requested_at a.2 =? cm_requested_at b.2) && (a.1 <? b.1)).
(** [claim_commands]; [locked] are rows another consumer holds. *)
Definition claim_commands (q : commands) (now : Z) (locked : gset Z) : list (Z * command_row) * commands :=
  let claimed := py_sorted command_before
    (map_to_list (filter (fun e : Z * command_row => cm_state e.2 = Queued /\ e.1 ∉ locked) q)) in
  (claimed, foldr (fun e q => alter (fun c => CommandRow (cm_command c) (cm_account_id c) (cm_state c)
      (cm_requested_at c) (Some now) (cm_done_at c)) e.1 q) q claimed).
Definition mark_command (q : commands) (now : Z) (command_id : Z) (state : command_state) : commands :=
  alter (fun c => CommandRow (cm_command c) (cm_account_id c) state (cm_requested_at c) (cm_picked_at c) (Some now))
    command_id q.
End Commands.
Import Commands.

(** ** [shutdown_budget.py] and [retry.py] *)
Module Budget.
Definition SUPERVISOR_KILL_MARGIN_S : Z := 5.
Definition remaining_seconds (deadline now : Z) : Z := Z.max 0 (deadline - now).
Definition supervisor_kill_after (child_grace_seconds : Z) : Z := child_grace_seconds + SUPERVISOR_KILL_MARGIN_S.
(** [thread.join(timeout)] called at [now], of a thread that ends at [ends]
    ([None]: never): the time it returns. *)
Definition join (ends : option Z) (timeout now : Z) : Z :=
  match ends with
  | Some e => if e <=? now then now else Z.min e (now + timeout)
  | None => now + timeout
  end.
(** The joins of [wind_down_threads], after every stop event has been set. *)
Definition join_all (deadline : Z) (threads : list (option Z)) (now : Z) : Z :=
  foldl (fun now ends => join ends (remaining_seconds deadline now) now) now threads.
(** When it returns, and what is left. *)
Definition wind_down_threads (threads : list (option Z)) (grace_seconds now : Z) : Z * Z :=
  let deadline := now + grace_seconds in
  let now := join_all deadline threads now in
  (now, remaining_seconds deadline now).

Definition next_backoff (current factor max : Z) : Z := Z.min (current * factor) max.
Inductive retry_outcome (A : Type) := Returned (a : A) (waits : list Z) | RetryAborted (waits : list Z).
Arguments Returned {A}. Arguments RetryAborted {A}.
(** [retry_with_backoff] over the attempts the operation makes: each is a result
    or a failure, and whether the stop event is set before it and during the wait
    after it.  [None] when the attempts run out. *)
Fixpoint retry_with_backoff {A} (attempts : list (bool * option A * bool)) (backoff factor max : Z) (waits : list Z)
    : option (retry_outcome A) :=
  match attempts with
  | [] => None
  | (stopped, result, stopped_waiting) :: attempts =>
      if stopped then Some (RetryAborted waits)
      else match result with
           | Some a => Some (Returned a waits)
           | None =>
               if stopped_waiting then Some (RetryAborted (waits ++ [backoff]))
               else retry_with_backoff attempts (next_backoff backoff factor max) factor max (waits ++ [backoff])
           end
  end.

(** Every join is charged to one budget: winding down takes no longer than the
    grace, each worker that ends within it has ended, and the supervisor has not
    yet killed the process. *)
Lemma join_all_bound deadline threads now : now <= deadline ->
  now <= join_all deadline threads now <= deadline /\
  (forall e, Some e ∈ threads -> e <= deadline -> e <= join_all deadline threads now).
Proof.
  unfold join_all. revert now. induction threads as [| ends threads IH]; intros now Hn; cbn [foldl].
  { split; [lia |]. by intros e ?%elem_of_nil. }
  assert (Hj : now <= join ends (remaining_seconds deadline now) now <= deadline /\
    forall e, ends = Some e -> e <= deadline -> e <= join ends (remaining_seconds deadline now) now).
  { unfold join, remaining_seconds. destruct ends as [e |]; [destruct (Z.leb_spec e now) |];
      (split; [lia |]); intros e' [= <-]; lia. }
  destruct Hj as [Hj He]. destruct (IH _ (proj2 Hj)) as [Hb Hall]. split; [lia |].
  intros e [<- | Hin]%elem_of_cons Hd; [| by apply Hall]. specialize (He e eq_refl Hd). lia.
Qed.
End Budget.

(** ** [daemon.py] *)
Module Daemon.
Record AccountThreads := Bundle { bn_updated_at : Z; bn_group : nat }.
(** A started pair of threads: whose it is, what it runs, whether its stop event
    is set and whether both joins returned in time. *)
Record group := Group { g_account : Z; g_config : AccountConfig; g_stopped : bool; g_joined : bool }.
Record daemon := MkDaemon {
  dm_threads : list (Z * AccountThreads);            (* [_account_threads] *)
  dm_groups : gmap nat group; dm_next : nat;         (* every pair ever started *)
  dm_stop : bool; dm_wake : bool; dm_pool_max : Z; dm_heartbeats : heartbeats }.
Record daemon_config := DaemonConfig { dc_pool_max_size : option Z; dc_run_embed : bool; dc_run_extract : bool }.

Definition set_threads l d := MkDaemon l (dm_groups d) (dm_next d) (dm_stop d) (dm_wake d) (dm_pool_max d) (dm_heartbeats d).
Definition set_groups g d := MkDaemon (dm_threads d) g (dm_next d) (dm_stop d) (dm_wake d) (dm_pool_max d) (dm_heartbeats d).
Definition set_heartbeats h d := MkDaemon (dm_threads d) (dm_groups d) (dm_next d) (dm_stop d) (dm_wake d) (dm_pool_max d) h.
Definition set_stop d := MkDaemon (dm_threads d) (dm_groups d) (dm_next d) true true (dm_pool_max d) (dm_heartbeats d).
Definition clear_wake d := MkDaemon (dm_threads d) (dm_groups d) (dm_next d) (dm_stop d) false (dm_pool_max d) (dm_heartbeats d).
Definition set_pool_max n d := MkDaemon (dm_threads d) (dm_groups d) (dm_next d) (dm_stop d) (dm_wake d) n (dm_heartbeats d).

(** What a tick meets: the time, which commands another consumer has locked, which
    database calls succeed, at which command the marks start to fail, which pairs
    are joined within the grace. *)
Record tick_env := TickEnv {
  te_now : Z; te_connect_ok : bool; te_claim_ok : bool; te_locked : gset Z; te_mark_fails : option nat;
  te_commit_ok : bool; te_read_ok : bool; te_heartbeat_ok : bool; te_clear_ok : Z -> bool; te_joined : nat -> bool }.

(** [_spawn_account] *)
Definition spawn_account d (account_id : Z) (row : account_row) : res exn daemon :=
  let* config := account_config_from_row row in
  Ok (MkDaemon (od_set account_id (Bundle (a_updated_at row) (dm_next d)) (dm_threads d))
        (<[dm_next d := Group account_id config false false]> (dm_groups d)) (S (dm_next d))
        (dm_stop d) (dm_wake d) (dm_pool_max d) (dm_heartbeats d)).

Definition clear_account_heartbeats_safely (e : tick_env) d (account_id : Z) : daemon :=
  if te_clear_ok e account_id then set_heartbeats (clear_account_heartbeats (dm_heartbeats d) account_id) d else d.
(** [stop_event.set()] and the two joins. *)
Definition stop_group (e : tick_env) (n : nat) d : daemon :=
  set_groups (alter (fun g => Group (g_account g) (g_config g) true (te_joined e n)) n (dm_groups d)) d.
(** [_teardown_account] *)
Definition teardown_account (e : tick_env) d (account_id : Z) : daemon :=
  match od_get account_id (dm_threads d) with
  | None => d
  | Some bundle =>
      clear_account_heartbeats_safely e
        (stop_group e (bn_group bundle) (set_threads (od_del account_id (dm_threads d)) d)) account_id
  end.

Definition POOL_BASELINE_MIN : Z := 4.
Definition POOL_HEADROOM : Z := 2.
Definition SLOTS_PER_ACCOUNT : Z := 2.
Definition bool_int (b : bool) : Z := if b then 1 else 0.
Definition compute_daemon_pool_size (n_accounts : Z) (run_embed run_extract : bool) : Z :=
  Z.max POOL_BASELINE_MIN (SLOTS_PER_ACCOUNT * n_accounts + (bool_int run_embed + bool_int run_extract) + POOL_HEADROOM).
Definition pool_sizes (cfg : daemon_config) (n_accounts : Z) : Z * Z :=
  let max_size := match dc_pool_max_size cfg with
                  | None => compute_daemon_pool_size n_accounts (dc_run_embed cfg) (dc_run_extract cfg)
                  | Some n => n
                  end in
  let wanted := n_accounts * 2 + bool_int (dc_run_embed cfg) + bool_int (dc_run_extract cfg) in
  (Z.min (if wanted =? 0 then 1 else wanted) max_size, max_size).
Definition resize_pool (cfg : daemon_config) d : daemon :=
  match dc_pool_max_size cfg with
  | Some _ => d
  | None =>
      let max_size := (pool_sizes cfg (Z.of_nat (length (dm_threads d)))).2 in
      if max_size =? dm_pool_max d then d else set_pool_max max_size d
  end.

(** [_apply_command], and whether it returned; a [restart-account] without an
    account fails its assertion. *)
Definition apply_command (e : tick_env) d (c : command_row) : daemon * bool :=
  match cm_command c, cm_account_id c with
  | ReloadNow, _ => (d, true)
  | DrainStop, _ => (set_stop d, true)
  | RestartAccount, Some account_id => (teardown_account e d account_id, true)
  | RestartAccount, None => (d, false)
  end.
(** The loop of [_drain_commands], [i] commands in.  Once a mark fails the
    transaction is aborted, so the mark of the handler fails too and the drain
    raises: [None]. *)
Fixpoint drain_loop (e : tick_env) d (q : commands) (claimed : list (Z * command_row)) (i : nat) : daemon * option commands :=
  match claimed with
  | [] => (d, Some q)
  | (command_id, c) :: claimed =>
      let '(d, ok) := apply_command e d c in
      if bool_decide (te_mark_fails e = Some i) then (d, None)
      else drain_loop e d (mark_command q (te_now e) command_id (if ok then Done else Failed)) claimed (S i)
  end.
(** [_drain_commands]: a failure rolls the claims and marks back and is swallowed. *)
Definition drain_commands (e : tick_env) d (q : commands) : daemon * commands :=
  if te_connect_ok e && te_claim_ok e then
    let '(claimed, q1) := claim_commands q (te_now e) (te_locked e) in
    match drain_loop e d q1 claimed 0 with
    | (d, Some q2) => (d, if te_commit_ok e then q2 else q)
    | (d, None) => (d, q)
    end
  else (d, q).

Definition running_fingerprints d : gmap Z Z := bn_updated_at <$> (list_to_map (dm_threads d) : gmap Z AccountThreads).

(** The three loops of [reconcile]: tear down, tear down and spawn, spawn. *)
Inductive action := Teardown (account_id : Z) | Spawn (account_id : Z).
Definition plan_actions (p : ReconcilePlan) : list action :=
  map Teardown (to_teardown p) ++ flat_map (fun i => [Teardown i; Spawn i]) (to_respawn p) ++ map Spawn (to_spawn p).
Fixpoint run_actions (e : tick_env) (rows_by_id : accounts) d (l : list action) : daemon * res exn () :=
  match l with
  | [] => (d, Ok ())
  | Teardown i :: l => run_actions e rows_by_id (teardown_account e d i) l
  | Spawn i :: l =>
      match rows_by_id !! i with
      | None => (d, Err KeyError)
      | Some row =>
          match spawn_account d i row with
          | Ok d => run_actions e rows_by_id d l
          | Err x => (d, Err x)
          end
      end
  end.

(** [reconcile] over the [accounts] table of its read. *)
Definition reconcile (cfg : daemon_config) (e : tick_env) d (q : commands) (t : accounts) : daemon * commands * res exn () :=
  let '(d, q) := drain_commands e d q in
  if dm_stop d then (d, q, Ok ())
  else if negb (te_read_ok e) then (d, q, Ok ())
  else
    let d := set_heartbeats (safe_heartbeat (te_heartbeat_ok e) (dm_heartbeats d) (te_now e) KReconcile None (lit "idle")) d in
    let rows_by_id := list_syncable_accounts t in
    let plan := plan_reconcile (running_fingerprints d) (a_updated_at <$> rows_by_id) in
    if is_empty plan then (d, q, Ok ())
    else
      match run_actions e rows_by_id d (plan_actions plan) with
      | (d, Ok _) => (resize_pool cfg d, q, Ok ())
      | (d, Err x) => (d, q, Err x)
      end.

(** [_shutdown_all_threads] *)
Definition shutdown_all_threads (e : tick_env) d : daemon :=
  let bundles := dm_threads d in
  let d := set_threads [] (set_stop d) in
  let d := foldl (fun d b => stop_group e (bn_group b.2) d) d bundles in
  foldl (fun d b => clear_account_heartbeats_safely e d b.1) d bundles.

(** One turn of [run_forever]'s loop after its wait; [true] when the loop goes on. *)
Definition turn (cfg : daemon_config) (e : tick_env) d (q : commands) (t : accounts) : daemon * commands * bool :=
  let d := clear_wake d in
  if dm_stop d then (shutdown_all_threads e d, q, false)
  else
    let '(d, q, r) := reconcile cfg e d q t in
    match r with
    | Err _ => (shutdown_all_threads e d, q, false)
    | Ok _ => if dm_stop d then (shutdown_all_threads e d, q, false) else (d, q, true)
    end.

(** Construction and [start_workers] over the accounts read at construction, with
    the heartbeat rows a previous run left. *)
Definition start (cfg : daemon_config) (h : heartbeats) (clear_ok : bool) (syncable_rows : accounts) : res exn daemon :=
  let n := Z.of_nat (size syncable_rows) in
  let h := if clear_ok then clear_all_heartbeats h else h in
  foldM (fun d e => spawn_account d e.1 e.2)
    (MkDaemon [] ∅ 0 false false (pool_sizes cfg n).2 h)
    (py_sorted (fun a b => a.1 <? b.1) (map_to_list syncable_rows)).
End Daemon.
