(* ===== verification/DaemonFacts.v ===== *)
(** * What the daemon runs, and when it stops *)
From S2P Require Import Prelude PyStr Errors Odict PySort AdminAccounts Daemon.
Import Admin_accounts Reconcile Heartbeat Commands Budget Daemon.

(** ** The plan *)

Lemma elem_sorted_ids s i : i ∈ sorted_ids s <-> i ∈ s.
Proof. unfold sorted_ids. by rewrite py_sorted_elem, elem_of_elements. Qed.
Lemma sorted_ids_nodup s : NoDup (sorted_ids s).
Proof. unfold sorted_ids. rewrite py_sorted_Permutation. apply NoDup_elements. Qed.
Lemma sorted_ids_nil s : sorted_ids s = [] <-> s = ∅.
Proof.
  split; [intros Hs; apply elem_of_equiv_empty_L; intros i; rewrite <- elem_sorted_ids, Hs; apply not_elem_of_nil | by intros ->].
Qed.

Section plan.
Context (running desired : gmap Z Z).
Notation p := (plan_reconcile running desired).
Lemma elem_to_spawn i : i ∈ to_spawn p <-> is_Some (desired !! i) /\ running !! i = None.
Proof. cbn. by rewrite elem_sorted_ids, elem_of_difference, elem_of_dom, not_elem_of_dom. Qed.
Lemma elem_to_teardown i : i ∈ to_teardown p <-> is_Some (running !! i) /\ desired !! i = None.
Proof. cbn. by rewrite elem_sorted_ids, elem_of_difference, elem_of_dom, not_elem_of_dom. Qed.
Lemma elem_to_respawn i : i ∈ to_respawn p <-> is_Some (running !! i) /\ is_Some (desired !! i) /\ running !! i <> desired !! i.
Proof. cbn. rewrite elem_sorted_ids, elem_of_filter, elem_of_intersection, !elem_of_dom. tauto. Qed.
(** Nothing to do means the daemon already runs what it should. *)
Lemma plan_empty : is_empty p = true <-> running = desired.
Proof.
  unfold is_empty. rewrite !andb_true_iff, !bool_decide_eq_true. split.
  - intros [[Hs Ht] Hr]. apply map_eq. intros i. destruct (running !! i) as [u |] eqn:Er, (desired !! i) as [v |] eqn:Ed; [| | | done].
    + destruct (decide (u = v)) as [-> |]; [done |]. exfalso.
      assert (Hin : i ∈ to_respawn p) by (apply elem_to_respawn; rewrite Er, Ed; split_and!; [done.. | congruence]).
      rewrite Hr in Hin. by apply elem_of_nil in Hin.
    + assert (Hin : i ∈ to_teardown p) by (apply elem_to_teardown; by rewrite Er). rewrite Ht in Hin. by apply elem_of_nil in Hin.
    + assert (Hin : i ∈ to_spawn p) by (apply elem_to_spawn; by rewrite Ed). rewrite Hs in Hin. by apply elem_of_nil in Hin.
  - intros Heq. split_and!; apply elem_of_nil_inv; intros i; rewrite ?elem_to_spawn, ?elem_to_teardown, ?elem_to_respawn, Heq;
      intros (H1 & H2); [| | tauto]; destruct (desired !! i); by destruct H1.
Qed.
End plan.

(** ** The registry *)

Record daemon_ok (d : daemon) : Prop := {
  do_keys : NoDup (dm_threads d).*1;
  do_registered : forall i b, (i, b) ∈ dm_threads d -> exists g, dm_groups d !! bn_group b = Some g /\ g_account g = i /\ g_stopped g = false;
  do_running : forall n g, dm_groups d !! n = Some g -> g_stopped g = false -> exists i b, (i, b) ∈ dm_threads d /\ bn_group b = n;
  do_fresh : forall n g, dm_groups d !! n = Some g -> (n < dm_next d)%nat;
  do_order : forall n g n' g', dm_groups d !! n = Some g -> dm_groups d !! n' = Some g' -> (n < n')%nat ->
    g_account g = g_account g' -> g_stopped g = true;
}.

(** What runs for an account: the row version it was started from, the
    configuration it runs and its group. *)
Definition serving (d : daemon) (i : Z) : option (Z * AccountConfig * nat) :=
  match od_get i (dm_threads d) with
  | Some b => (fun g => (bn_updated_at b, g_config g, bn_group b)) <$> dm_groups d !! bn_group b
  | None => None
  end.

Lemma serving_some d i : daemon_ok d -> is_Some (serving d i) <-> is_Some (od_get i (dm_threads d)).
Proof.
  intros Hd. unfold serving. destruct (od_get i (dm_threads d)) as [b |] eqn:E; [| done].
  destruct (do_registered d Hd i b) as (g & -> & _); [by apply od_get_elem |]. done.
Qed.
Lemma group_inj d i j b c : daemon_ok d -> (i, b) ∈ dm_threads d -> (j, c) ∈ dm_threads d -> bn_group b = bn_group c -> i = j.
Proof.
  intros Hd Hi Hj Heq. destruct (do_registered d Hd _ _ Hi) as (g & Hg & <- & _).
  destruct (do_registered d Hd _ _ Hj) as (g' & Hg' & <- & _). congruence.
Qed.

Section steps.
Context (e : tick_env).

Lemma clear_safely d i : let d' := clear_account_heartbeats_safely e d i in
  dm_threads d' = dm_threads d /\ dm_groups d' = dm_groups d /\ dm_next d' = dm_next d /\ dm_stop d' = dm_stop d.
Proof. unfold clear_account_heartbeats_safely. cbn zeta. by destruct (te_clear_ok e i). Qed.

Lemma daemon_ok_same d d' : dm_threads d' = dm_threads d -> dm_groups d' = dm_groups d -> dm_next d' = dm_next d ->
  daemon_ok d -> daemon_ok d'.
Proof. intros Ht Hg Hn [H1 H2 H3 H4 H5]. split; rewrite ?Ht, ?Hg, ?Hn; done. Qed.
Lemma serving_same d d' i : dm_threads d' = dm_threads d -> dm_groups d' = dm_groups d -> serving d' i = serving d i.
Proof. intros Ht Hg. unfold serving. by rewrite Ht, Hg. Qed.

Lemma elem_od_del {X} i j (b : X) (l : list (Z * X)) : (j, b) ∈ od_del i l <-> (j, b) ∈ l /\ j <> i.
Proof. unfold od_del. rewrite list_elem_of_filter. tauto. Qed.

(** Stopping a pair keeps whose it is, and no pair is restarted by it. *)
Lemma stop_group_back d m n g : dm_groups (stop_group e m d) !! n = Some g ->
  exists g0, dm_groups d !! n = Some g0 /\ g_account g0 = g_account g /\ (g_stopped g0 = true -> g_stopped g = true).
Proof.
  cbn [stop_group set_groups dm_groups]. destruct (decide (n = m)) as [-> | Hne].
  - rewrite lookup_alter_eq. destruct (dm_groups d !! m) as [g0 |]; [| done]. intros [= <-]. by exists g0.
  - rewrite lookup_alter_ne by done. intros Hg. by exists g.
Qed.
Lemma teardown_spec d i : daemon_ok d -> let d' := teardown_account e d i in
  daemon_ok d' /\ dm_next d' = dm_next d /\ dm_stop d' = dm_stop d /\
  forall j, serving d' j = if decide (j = i) then None else serving d j.
Proof.
  intros Hd. cbn zeta. unfold teardown_account. destruct (od_get i (dm_threads d)) as [b |] eqn:Eb.
  2: { split_and!; [done.. |]. intros j. case_decide as Hj; [subst | done]. unfold serving. by rewrite Eb. }
  set (d1 := stop_group e (bn_group b) (set_threads (od_del i (dm_threads d)) d)).
  destruct (clear_safely d1 i) as (Ht & Hg & Hn & Hs). assert (Hin : (i, b) ∈ dm_threads d) by by apply od_get_elem.
  assert (Hother : forall j c, (j, c) ∈ dm_threads d -> j <> i -> dm_groups d1 !! bn_group c = dm_groups d !! bn_group c).
  { intros j c Hj Hne. cbn. apply lookup_alter_ne. intros Heq. apply Hne. by eapply group_inj. }
  split_and!; [| by rewrite Hn | by rewrite Hs |].
  - eapply daemon_ok_same; [exact Ht | exact Hg | exact Hn |]. split; cbn.
    + apply od_del_nodup, Hd.
    + intros j c [Hj Hne]%elem_od_del. destruct (do_registered d Hd j c Hj) as (g & Hgr & ? & ?). exists g.
      pose proof (Hother j c Hj Hne) as Ho. cbn in Ho. by rewrite Ho.
    + intros n g Hng Hst. destruct (decide (n = bn_group b)) as [-> | Hne].
      * rewrite lookup_alter_eq in Hng. destruct (dm_groups d !! bn_group b); cbn in Hng; by simplify_eq.
      * rewrite lookup_alter_ne in Hng by done. destruct (do_running d Hd n g Hng Hst) as (j & c & Hj & Hc).
        exists j, c. split; [| done]. apply elem_od_del. split; [done |]. intros ->.
        assert (c = b) as ->; [| done]. apply (od_elem_get _ _ _ (do_keys d Hd)) in Hj. congruence.
    + intros n g Hng. destruct (decide (n = bn_group b)) as [-> | Hne].
      * rewrite lookup_alter_eq in Hng. destruct (dm_groups d !! bn_group b) eqn:E0; [| done]. by eapply (do_fresh d Hd).
      * rewrite lookup_alter_ne in Hng by done. by eapply (do_fresh d Hd).
    + intros n g n' g' (g0 & H0 & Ha & Hst)%stop_group_back (g0' & H0' & Ha' & _)%stop_group_back Hlt Heq.
      apply Hst. eapply (do_order d Hd n g0 n' g0'); [done.. | congruence].
  - intros j. rewrite (serving_same _ _ j Ht Hg). unfold serving. cbn [d1 stop_group set_groups set_threads dm_threads].
    rewrite od_get_del. destruct (decide (i = j)) as [-> | Hne]; [by rewrite decide_True |].
    rewrite decide_False by done. destruct (od_get j (dm_threads d)) as [c |] eqn:Ec; [| done].
    by rewrite (Hother j c) by (done || by apply od_get_elem).
Qed.

Lemma spawn_spec d i row c : daemon_ok d -> serving d i = None -> account_config_from_row row = Ok c ->
  exists d', spawn_account d i row = Ok d' /\ daemon_ok d' /\ dm_next d' = S (dm_next d) /\ dm_stop d' = dm_stop d /\
    forall j, serving d' j = if decide (j = i) then Some (a_updated_at row, c, dm_next d) else serving d j.
Proof.
  intros Hd Hi Hc. unfold spawn_account. rewrite Hc. eexists. split; [done |].
  assert (Hget : od_get i (dm_threads d) = None).
  { destruct (od_get i (dm_threads d)) eqn:E; [| done]. assert (is_Some (serving d i)) as [? ?]; [| congruence].
    apply serving_some; [done |]. by rewrite E. }
  assert (Hfresh : forall j b, (j, b) ∈ dm_threads d -> bn_group b <> dm_next d).
  { intros j b Hj Heq. destruct (do_registered d Hd j b Hj) as (g & Hg & _). apply (do_fresh d Hd) in Hg. lia. }
  split_and!; [| done | done |].
  - split; cbn.
    + apply od_set_nodup, Hd.
    + rewrite od_set_absent by done. intros j b [Hj | [= -> ->]%list_elem_of_singleton]%elem_of_app.
      * destruct (do_registered d Hd j b Hj) as (g & Hg & ? & ?). exists g. rewrite lookup_insert_ne; [done |].
        intros Heq. by eapply Hfresh.
      * eexists. cbn. by rewrite lookup_insert_eq.
    + intros n g. rewrite od_set_absent by done. destruct (decide (n = dm_next d)) as [-> | Hne].
      * intros _ _. eexists i, _. split; [apply elem_of_app; right; by left | done].
      * rewrite lookup_insert_ne by done. intros Hg Hs. destruct (do_running d Hd n g Hg Hs) as (j & b & Hj & ?).
        exists j, b. split; [apply elem_of_app; by left | done].
    + intros n g. destruct (decide (n = dm_next d)) as [-> | Hne]; [lia |]. rewrite lookup_insert_ne by done.
      intros Hg. apply (do_fresh d Hd) in Hg. lia.
    + intros n g n' g' [[<- <-] | [Hn Hg]]%lookup_insert_Some [[<- <-] | [Hn' Hg']]%lookup_insert_Some Hlt Heq.
      * lia.
      * apply (do_fresh d Hd) in Hg'. lia.
      * cbn in Heq. destruct (g_stopped g) eqn:Est; [done |]. exfalso.
        destruct (do_running d Hd n g Hg Est) as (j & b & Hj & <-).
        destruct (do_registered d Hd j b Hj) as (g1 & Hg1 & Hj1 & _). assert (j = i) as -> by congruence.
        apply (od_elem_get _ _ _ (do_keys d Hd)) in Hj. congruence.
      * by eapply (do_order d Hd n g n' g').
  - intros j. unfold serving. cbn. rewrite od_get_set. destruct (decide (i = j)) as [-> | Hne].
    + rewrite decide_True by done. cbn. by rewrite lookup_insert_eq.
    + rewrite (decide_False (P := j = i)) by done. destruct (od_get j (dm_threads d)) as [b |] eqn:Eb; [| done].
      rewrite lookup_insert_ne; [done |]. intros Heq. apply (Hfresh j b); [by apply od_get_elem | done].
Qed.

(** ** Runs of the plan *)
Section rows.
Context (rows : accounts).

Lemma run_actions_app d l1 l2 : run_actions e rows d (l1 ++ l2) =
  match run_actions e rows d l1 with (d', Ok _) => run_actions e rows d' l2 | (d', Err x) => (d', Err x) end.
Proof.
  revert d. induction l1 as [| [i | i] l1 IH]; intros d; cbn; [done | apply IH |].
  destruct (rows !! i) as [row |]; [| done]. destruct (spawn_account d i row); [apply IH | done].
Qed.

Definition same_flags (d d' : daemon) : Prop := (dm_next d <= dm_next d')%nat /\ dm_stop d' = dm_stop d.

Lemma run_teardowns d l : daemon_ok d -> exists d', run_actions e rows d (map Teardown l) = (d', Ok ()) /\ daemon_ok d' /\
  same_flags d d' /\ forall j, serving d' j = if bool_decide (j ∈ l) then None else serving d j.
Proof.
  revert d. induction l as [| i l IH]; intros d Hd; cbn [map run_actions].
  { exists d. split_and!; [done.. | by split | done]. }
  destruct (teardown_spec d i Hd) as (Hd1 & Hn1 & Hs1 & Hv1). destruct (IH _ Hd1) as (d' & Hr & Hd' & [Hn Hs] & Hv).
  exists d'. split_and!; [done | done | split; [lia | congruence] |]. intros j. rewrite Hv, Hv1.
  repeat case_bool_decide; repeat case_decide; set_solver.
Qed.

(** A desired row is present and can be mapped. *)
Definition spawnable (i : Z) : Prop := exists row c, rows !! i = Some row /\ account_config_from_row row = Ok c.
Definition serves_row (d d' : daemon) (i : Z) : Prop := exists row c n,
  rows !! i = Some row /\ account_config_from_row row = Ok c /\ (dm_next d <= n)%nat /\
  serving d' i = Some (a_updated_at row, c, n).

Lemma serves_later d0 d d' i : (dm_next d0 <= dm_next d)%nat -> serves_row d d' i -> serves_row d0 d' i.
Proof. intros Hle (row & c & n & ? & ? & ? & ?). exists row, c, n. split_and!; [done | done | lia | done]. Qed.
Lemma serves_still d d' d'' i : serving d'' i = serving d' i -> serves_row d d' i -> serves_row d d'' i.
Proof. intros Heq (row & c & n & ? & ? & ? & ?). exists row, c, n. by rewrite Heq. Qed.

Lemma run_spawn_one d i : daemon_ok d -> spawnable i -> serving d i = None ->
  exists d', run_actions e rows d [Spawn i] = (d', Ok ()) /\ daemon_ok d' /\ same_flags d d' /\ serves_row d d' i /\
    forall j, j <> i -> serving d' j = serving d j.
Proof.
  intros Hd (row & c & Hrow & Hc) Hs. cbn. rewrite Hrow.
  destruct (spawn_spec d i row c Hd Hs Hc) as (d' & -> & Hd' & Hn & Hst & Hv). exists d'.
  split_and!; [done | done | split; [lia | done] | |].
  - exists row, c, (dm_next d). split_and!; [done | done | lia |]. by rewrite Hv, decide_True.
  - intros j Hj. by rewrite Hv, decide_False.
Qed.

(** Spawning new accounts, or tearing each one down first, one after the other. *)
Lemma run_each (f : Z -> list action) d l :
  (forall d i, daemon_ok d -> i ∈ l -> (f i = [Spawn i] -> serving d i = None) ->
     exists d', run_actions e rows d (f i) = (d', Ok ()) /\ daemon_ok d' /\ same_flags d d' /\ serves_row d d' i /\
       forall j, j <> i -> serving d' j = serving d j) ->
  daemon_ok d -> NoDup l -> (forall i, i ∈ l -> f i = [Spawn i] -> serving d i = None) ->
  exists d', run_actions e rows d (flat_map f l) = (d', Ok ()) /\ daemon_ok d' /\ same_flags d d' /\
    forall j, if bool_decide (j ∈ l) then serves_row d d' j else serving d' j = serving d j.
Proof.
  intros Hf. revert d. induction l as [| i l IH]; intros d Hd Hl Hsv; cbn [flat_map].
  { exists d. split_and!; [done.. | by split | done]. }
  apply NoDup_cons in Hl as [Hi Hl]. rewrite run_actions_app.
  destruct (Hf d i Hd) as (d1 & -> & Hd1 & [Hn1 Hs1] & Hrow & Hoth); [left | by apply Hsv; left |].
  destruct (IH) with (d := d1) as (d' & Hr & Hd' & [Hn Hs] & Hv); [| done | done | |].
  - intros d2 j Hd2 Hj. apply Hf; [done | by right].
  - intros j Hj Hfj. rewrite Hoth by set_solver. by apply Hsv; [right |].
  - exists d'. split_and!; [done | done | split; [lia | congruence] |]. intros j. specialize (Hv j).
    destruct (decide (j = i)) as [-> | Hne].
    + rewrite bool_decide_eq_true_2 by left. rewrite bool_decide_eq_false_2 in Hv by done. by eapply serves_still.
    + destruct (decide (j ∈ l)) as [Hj | Hj].
      * rewrite bool_decide_eq_true_2 in Hv by done. rewrite bool_decide_eq_true_2 by by right. by eapply serves_later.
      * rewrite bool_decide_eq_false_2 in Hv by done. rewrite bool_decide_eq_false_2 by set_solver. by rewrite Hv, Hoth.
Qed.

(** The whole plan: what is not desired is gone, what changed or is new runs its
    current row in a new group, the rest is left alone. *)
Lemma run_plan d : daemon_ok d -> (forall i, is_Some (rows !! i) -> spawnable i) ->
  let running := running_fingerprints d in
  let plan := plan_reconcile running (a_updated_at <$> rows) in
  exists d', run_actions e rows d (plan_actions plan) = (d', Ok ()) /\ daemon_ok d' /\ same_flags d d' /\
    forall i, match rows !! i with
              | None => serving d' i = None
              | Some row => if bool_decide (running !! i = Some (a_updated_at row)) then serving d' i = serving d i
                            else serves_row d d' i
              end.
Proof.
  intros Hd Hsp running plan. unfold plan_actions.
  assert (Hrun : forall i, is_Some (running !! i) <-> is_Some (serving d i)).
  { intros i. unfold running, running_fingerprints. rewrite lookup_fmap, fmap_is_Some, od_to_map. by rewrite serving_some. }
  destruct (run_teardowns d (to_teardown plan) Hd) as (d1 & H1 & Hd1 & [Hn1 Hs1] & Hv1).
  assert (Hrow : forall i, is_Some ((a_updated_at <$> rows) !! i) <-> is_Some (rows !! i)).
  { intros i. by rewrite lookup_fmap, fmap_is_Some. }
  destruct (run_each (fun i => [Teardown i; Spawn i]) d1 (to_respawn plan)) as (d2 & H2 & Hd2 & [Hn2 Hs2] & Hv2);
    [| done | apply sorted_ids_nodup | done |].
  { intros d0 i Hd0 Hi _. cbn [run_actions]. destruct (teardown_spec d0 i Hd0) as (Hd0' & Hn0 & Hs0 & Hv0).
    apply elem_to_respawn in Hi as (_ & Hi & _). apply Hrow, Hsp in Hi.
    destruct (run_spawn_one _ i Hd0' Hi) as (d' & Hr & Hd' & [Hn Hs] & Hsv & Ho); [by rewrite Hv0, decide_True |].
    cbn [run_actions] in Hr. exists d'. split_and!; [done | done | split; [lia | congruence] | |].
    - eapply serves_later; [| done]. lia.
    - intros j Hj. by rewrite Ho, Hv0, decide_False. }
  destruct (run_each (fun i => [Spawn i]) d2 (to_spawn plan)) as (d3 & H3 & Hd3 & [Hn3 Hs3] & Hv3);
    [| done | apply sorted_ids_nodup | |].
  { intros d0 i Hd0 Hi Hnone. apply run_spawn_one; [done | | by apply Hnone].
    apply elem_to_spawn in Hi as [Hi _]. by apply Hrow, Hsp in Hi. }
  { intros i Hi _. apply elem_to_spawn in Hi as [_ Hnr]. fold running in Hnr.
    assert (Hnone : serving d i = None). { apply eq_None_not_Some. rewrite <- Hrun, Hnr. by intros [? ?]. }
    specialize (Hv2 i). rewrite bool_decide_eq_false_2 in Hv2.
    - rewrite Hv2, Hv1. by case_bool_decide.
    - intros Hin. apply (elem_to_respawn running (a_updated_at <$> rows)) in Hin. rewrite Hnr in Hin. revert Hin. by intros [[? ?] _]. }
  exists d3. rewrite run_actions_app, H1, run_actions_app, H2.
  assert (Hmap : map Spawn (to_spawn plan) = flat_map (fun i => [Spawn i]) (to_spawn plan)) by (clear; induction (to_spawn plan); cbn; congruence).
  rewrite Hmap. split_and!; [done | done | split; [lia | congruence] |]. intros i.
  specialize (Hv2 i). specialize (Hv3 i). specialize (Hv1 i).
  assert (Hspi : i ∈ to_spawn plan <-> is_Some (rows !! i) /\ running !! i = None) by (by rewrite <- Hrow, <- elem_to_spawn).
  assert (Htdi : i ∈ to_teardown plan <-> is_Some (running !! i) /\ rows !! i = None).
  { unfold plan. rewrite (elem_to_teardown running (a_updated_at <$> rows)), lookup_fmap, fmap_None. done. }
  assert (Hrsi : i ∈ to_respawn plan <-> is_Some (running !! i) /\ is_Some (rows !! i) /\ running !! i <> (a_updated_at <$> rows !! i)).
  { unfold plan. rewrite (elem_to_respawn running (a_updated_at <$> rows)), Hrow, lookup_fmap. done. }
  destruct (rows !! i) as [row |] eqn:Er.
  - destruct (bool_decide_reflect (running !! i = Some (a_updated_at row))) as [Hsame | Hsame].
    + assert (i ∉ to_spawn plan) by (intros [_ ?]%Hspi; congruence).
      assert (i ∉ to_respawn plan) by (intros (_ & _ & Hne)%Hrsi; apply Hne; exact Hsame).
      assert (i ∉ to_teardown plan) by (intros [_ ?]%Htdi; congruence).
      rewrite bool_decide_eq_false_2 in Hv1, Hv2, Hv3 by done. congruence.
    + destruct (running !! i) as [u |] eqn:Eu.
      * assert (i ∈ to_respawn plan) by (apply Hrsi; split_and!; [done | done | cbn; congruence]).
        assert (i ∉ to_spawn plan) by (intros [_ ?]%Hspi; congruence).
        rewrite bool_decide_eq_true_2 in Hv2 by done. rewrite bool_decide_eq_false_2 in Hv3 by done.
        eapply serves_still; [done |]. eapply serves_later; [| done]. lia.
      * assert (i ∈ to_spawn plan) by (apply Hspi; done). rewrite bool_decide_eq_true_2 in Hv3 by done.
        eapply serves_later; [| done]. lia.
  - assert (i ∉ to_spawn plan) by (intros [[? ?] _]%Hspi; congruence).
    assert (i ∉ to_respawn plan) by (intros (_ & [? ?] & _)%Hrsi; congruence).
    rewrite bool_decide_eq_false_2 in Hv3, Hv2 by done. rewrite Hv3, Hv2, Hv1. case_bool_decide as Ht; [done |].
    apply eq_None_not_Some. intros Hsome. apply Ht, Htdi. split; [by apply Hrun | done].
Qed.
End rows.

(** ** The drain *)

Definition stops (c : command_row) : bool := match cm_command c with DrainStop => true | _ => false end.
Definition restarts (c : command_row) : option Z := match cm_command c with RestartAccount => cm_account_id c | _ => None end.
(** The commands the drain applies; with no failing mark, all it claims. *)
Definition applied (q : commands) : list command_row :=
  if te_connect_ok e && te_claim_ok e then
    let claimed := (claim_commands q (te_now e) (te_locked e)).1.*2 in
    match te_mark_fails e with Some i => take (S i) claimed | None => claimed end
  else [].

Lemma apply_command_spec d c : daemon_ok d -> let d' := (apply_command e d c).1 in
  daemon_ok d' /\ dm_next d' = dm_next d /\ dm_stop d' = dm_stop d || stops c /\
  forall j, serving d' j = if bool_decide (restarts c = Some j) then None else serving d j.
Proof.
  intros Hd. cbn zeta. unfold apply_command, stops, restarts. destruct (cm_command c).
  - cbn. by rewrite orb_false_r.
  - destruct (cm_account_id c) as [i |]; cbn; [| by rewrite orb_false_r].
    destruct (teardown_spec d i Hd) as (? & ? & Hs & Hv). split_and!; [done | done | by rewrite orb_false_r |].
    intros j. rewrite Hv. destruct (decide (j = i)) as [-> | Hne]; [by rewrite bool_decide_eq_true_2 |].
    rewrite bool_decide_eq_false_2; [done | congruence].
  - cbn. rewrite orb_true_r. split_and!; [by apply (daemon_ok_same d) | done | done |]. intros j. by apply serving_same.
Qed.

Lemma drain_loop_daemon d q l i : (forall k, te_mark_fails e = Some k -> (i <= k)%nat) ->
  (drain_loop e d q l i).1 =
  foldl (fun d c => (apply_command e d c).1) d (match te_mark_fails e with Some k => take (S k - i) l.*2 | None => l.*2 end).
Proof.
  revert d q i. induction l as [| [cid c] l IH]; intros d q i Hi.
  { cbn. destruct (te_mark_fails e); [by rewrite take_nil | done]. }
  cbn [drain_loop fmap list_fmap snd]. destruct (apply_command e d c) as [d1 ok] eqn:Ea.
  destruct (bool_decide_reflect (te_mark_fails e = Some i)) as [Hf | Hf].
  - rewrite Hf. replace (S i - i)%nat with 1%nat by lia. cbn. by rewrite Ea.
  - rewrite IH; [| intros k Hk; specialize (Hi k Hk); destruct (decide (i = k)) as [-> |]; [done | lia]].
    destruct (te_mark_fails e) as [k |] eqn:Ek; [| by cbn; rewrite Ea]. specialize (Hi k eq_refl).
    replace (S k - i)%nat with (S (S k - S i))%nat by (destruct (decide (i = k)) as [-> |]; [done | lia]).
    cbn [take foldl]. by rewrite Ea.
Qed.

Lemma drain_daemon d q : (drain_commands e d q).1 = foldl (fun d c => (apply_command e d c).1) d (applied q).
Proof.
  unfold drain_commands, applied. destruct (te_connect_ok e && te_claim_ok e); [| done].
  destruct (claim_commands q (te_now e) (te_locked e)) as [l q1]. cbn [fst].
  pose proof (drain_loop_daemon d q1 l 0 ltac:(intros; lia)) as Hl.
  destruct (te_mark_fails e); rewrite ?Nat.sub_0_r in Hl; rewrite <- Hl; by destruct (drain_loop e d q1 l 0) as [? []].
Qed.

(** What the drain does to the threads: it stops those of the accounts to restart,
    and starts none. *)
Lemma drain_spec d q : daemon_ok d -> let d' := (drain_commands e d q).1 in
  daemon_ok d' /\ dm_next d' = dm_next d /\ dm_stop d' = dm_stop d || existsb stops (applied q) /\
  forall j, serving d' j = if bool_decide (Some j ∈ restarts <$> applied q) then None else serving d j.
Proof.
  cbn zeta. rewrite drain_daemon. generalize (applied q) as l. intros l. revert d.
  induction l as [| c l IH]; intros d Hd; cbn [foldl existsb].
  { by rewrite orb_false_r. }
  destruct (apply_command_spec d c Hd) as (Hd1 & Hn1 & Hs1 & Hv1). destruct (IH _ Hd1) as (Hd2 & Hn2 & Hs2 & Hv2).
  split_and!; [done | congruence | by rewrite Hs2, Hs1, orb_assoc |]. intros j. rewrite Hv2, Hv1.
  repeat case_bool_decide; set_solver.
Qed.

(** The commands claimed are those queued and not locked; a drain that succeeds
    marks each of them, and any failure leaves the queue as it was. *)
Definition claimable (k : Z) (c : command_row) : bool := bool_decide (cm_state c = Queued /\ k ∉ te_locked e).
Definition drain_succeeds : bool :=
  te_connect_ok e && te_claim_ok e && bool_decide (te_mark_fails e = None) && te_commit_ok e.
Definition handled (c : command_row) : command_row :=
  CommandRow (cm_command c) (cm_account_id c)
    (match cm_command c, cm_account_id c with RestartAccount, None => Failed | _, _ => Done end)
    (cm_requested_at c) (Some (te_now e)) (Some (te_now e)).

Lemma claim_elem q k c : (k, c) ∈ (claim_commands q (te_now e) (te_locked e)).1 <-> q !! k = Some c /\ claimable k c = true.
Proof.
  unfold claim_commands, claimable. cbn [fst]. rewrite py_sorted_elem, elem_of_map_to_list, map_lookup_filter_Some, bool_decide_eq_true.
  done.
Qed.
Lemma alter_all {X} (f : Z * X -> X -> X) (q : gmap Z X) l k : NoDup l.*1 ->
  foldr (fun e q => alter (f e) e.1 q) q l !! k =
  match od_get k l with Some c => f (k, c) <$> q !! k | None => q !! k end.
Proof.
  induction l as [| [j c] l IH]; cbn; [done |]. intros [Hj Hl]%NoDup_cons. destruct (decide (j = k)) as [-> | Hne].
  - rewrite lookup_alter_eq, IH by done. by rewrite (proj2 (od_get_none_keys k l) Hj).
  - by rewrite lookup_alter_ne, IH.
Qed.
Lemma drain_loop_queue d q l i : te_mark_fails e = None -> NoDup l.*1 ->
  exists q', (drain_loop e d q l i).2 = Some q' /\
    forall k, q' !! k = match od_get k l with
      | Some c => (fun r => CommandRow (cm_command r) (cm_account_id r) (cm_state (handled c)) (cm_requested_at r)
                              (cm_picked_at r) (Some (te_now e))) <$> q !! k
      | None => q !! k end.
Proof.
  intros Hm. revert d q i. induction l as [| [j c] l IH]; intros d q i Hl; cbn [drain_loop].
  { by exists q. }
  apply NoDup_cons in Hl as [Hj Hl]. destruct (apply_command e d c) as [d1 ok] eqn:Ea.
  rewrite bool_decide_eq_false_2 by by rewrite Hm. 
  edestruct IH as (q' & Hq & Hk); [exact Hl |]. exists q'. split; [exact Hq |]. intros k. rewrite Hk. cbn [od_get].
  unfold mark_command. destruct (decide (j = k)) as [-> | Hne].
  - rewrite (proj2 (od_get_none_keys k l) Hj), lookup_alter_eq. f_equal.
    assert (cm_state (handled c) = if ok then Done else Failed) as ->; [| done].
    unfold apply_command in Ea. cbn. destruct (cm_command c), (cm_account_id c); by simplify_eq.
  - by rewrite lookup_alter_ne.
Qed.
Lemma claimed_nodup q : NoDup (claim_commands q (te_now e) (te_locked e)).1.*1.
Proof. unfold claim_commands. cbn [fst]. rewrite py_sorted_Permutation. apply NoDup_fst_map_to_list. Qed.
Lemma claimed_get q k : od_get k (claim_commands q (te_now e) (te_locked e)).1 =
  match q !! k with Some c => if claimable k c then Some c else None | None => None end.
Proof.
  destruct (od_get k _) as [c |] eqn:Eg.
  - apply od_get_elem, claim_elem in Eg as [-> ->]. done.
  - destruct (q !! k) as [c |] eqn:Eq; [| done]. destruct (claimable k c) eqn:Ec; [| done].
    assert (Hin : (k, c) ∈ (claim_commands q (te_now e) (te_locked e)).1) by by apply claim_elem.
    apply (od_elem_get _ _ _ (claimed_nodup q)) in Hin. congruence.
Qed.
Lemma drain_queue d q k : drain_succeeds = true -> (drain_commands e d q).2 !! k =
  (fun c => if claimable k c then handled c else c) <$> q !! k.
Proof.
  unfold drain_succeeds, drain_commands. rewrite !andb_true_iff, bool_decide_eq_true. intros [[[-> ->] Hm] ->]. cbn [andb].
  pose proof (claimed_nodup q) as Hn. pose proof (claimed_get q k) as Hg. revert Hn Hg.
  destruct (claim_commands q (te_now e) (te_locked e)) as [l q1] eqn:Ec. cbn [fst]. intros Hn Hg.
  destruct (drain_loop_queue d q1 l 0 Hm Hn) as (q2 & Hq & Hk).
  destruct (drain_loop e d q1 l 0) as [d2 [q2' |]]; cbn in Hq; [| done]. injection Hq as ->. cbn [snd].
  assert (Hq1 : q1 !! k = match od_get k l with
    | Some c => (fun r => CommandRow (cm_command r) (cm_account_id r) (cm_state r) (cm_requested_at r) (Some (te_now e))
                            (cm_done_at r)) <$> q !! k | None => q !! k end).
  { unfold claim_commands in Ec. injection Ec as El Eq1. rewrite <- Eq1, El, (alter_all (fun _ => _)) by done. done. }
  rewrite Hk, Hq1, Hg. destruct (q !! k) as [c |]; [cbn | done]. by destruct (claimable k c).
Qed.

(** A drain changes only the marks of the rows it finds. *)
Definition same_commands (q q' : commands) : Prop := forall k c', q' !! k = Some c' ->
  exists c, q !! k = Some c /\ cm_command c' = cm_command c /\ cm_account_id c' = cm_account_id c.
Lemma same_commands_trans q1 q2 q3 : same_commands q1 q2 -> same_commands q2 q3 -> same_commands q1 q3.
Proof. intros H12 H23 k c (c2 & Hc2 & -> & ->)%H23. by apply H12. Qed.
Lemma same_commands_alter q f k : (forall c, cm_command (f c) = cm_command c /\ cm_account_id (f c) = cm_account_id c) ->
  same_commands q (alter f k q).
Proof.
  intros Hf j c. destruct (decide (j = k)) as [-> |]; [| rewrite lookup_alter_ne by done; intros ?; by exists c].
  rewrite lookup_alter_eq. destruct (q !! k) as [c0 |]; [| done]. intros [= <-]. exists c0. by destruct (Hf c0).
Qed.
Lemma drain_same_commands d q : same_commands q (drain_commands e d q).2.
Proof.
  assert (Hrefl : forall q, same_commands q q) by (intros ? ? c ?; by exists c).
  unfold drain_commands. destruct (te_connect_ok e && te_claim_ok e); [| apply Hrefl].
  destruct (claim_commands q (te_now e) (te_locked e)) as [l q1] eqn:Ec.
  assert (H1 : same_commands q q1).
  { unfold claim_commands in Ec. injection Ec as _ <-. clear. generalize (py_sorted command_before
      (map_to_list (filter (fun e0 : Z * command_row => cm_state e0.2 = Queued /\ e0.1 ∉ te_locked e) q))) as l.
    induction l as [| x l IH]; cbn; [intros ? c ?; by exists c |]. eapply same_commands_trans; [exact IH |].
    by apply same_commands_alter. }
  assert (H2 : forall d i q1 q2, (drain_loop e d q1 l i).2 = Some q2 -> same_commands q1 q2).
  { clear. induction l as [| [k c] l IH]; intros d i q1 q2; cbn [drain_loop]; [intros [= <-] ? c0 ?; by exists c0 |].
    destruct (apply_command e d c) as [d1 ok]. destruct (bool_decide _); [done |]. intros Hq%IH.
    eapply same_commands_trans; [| exact Hq]. by apply same_commands_alter. }
  specialize (H2 d 0%nat q1). destruct (drain_loop e d q1 l 0) as [d2 [q2 |]]; cbn; [| apply Hrefl].
  destruct (te_commit_ok e); [| apply Hrefl]. by eapply same_commands_trans, H2.
Qed.

(** The marks do not depend on the threads. *)
Lemma drain_queue_daemon d d' q : (drain_commands e d q).2 = (drain_commands e d' q).2.
Proof.
  assert (Hl : forall l d d' q i, (drain_loop e d q l i).2 = (drain_loop e d' q l i).2).
  { induction l as [| [k c] l IH]; intros d1 d2 q1 i; [done |]. cbn [drain_loop].
    assert ((apply_command e d1 c).2 = (apply_command e d2 c).2) as Ho.
    { unfold apply_command. by destruct (cm_command c), (cm_account_id c). }
    destruct (apply_command e d1 c), (apply_command e d2 c). cbn in Ho. subst. by destruct (bool_decide _). }
  unfold drain_commands. destruct (te_connect_ok e && te_claim_ok e); [| done].
  destruct (claim_commands q (te_now e) (te_locked e)) as [l q1]. specialize (Hl l d d' q1 0%nat).
  destruct (drain_loop e d q1 l 0) as [? o], (drain_loop e d' q1 l 0) as [? o']. cbn in Hl. subst o'. by destruct o.
Qed.

(** ** Ticks and shutdown *)

Lemma running_lookup d i : running_fingerprints d !! i = bn_updated_at <$> od_get i (dm_threads d).
Proof. unfold running_fingerprints. by rewrite lookup_fmap, od_to_map. Qed.
Lemma running_serving d i u : daemon_ok d -> running_fingerprints d !! i = Some u <-> exists c n, serving d i = Some (u, c, n).
Proof.
  intros Hd. rewrite running_lookup. unfold serving. destruct (od_get i (dm_threads d)) as [b |] eqn:E; cbn.
  - destruct (do_registered d Hd i b) as (g & -> & _); [by apply od_get_elem |]. cbn. split; [intros [= <-]; by eauto | intros (? & ? & [= <- _ _]); done].
  - split; [done | by intros (? & ? & ?)].
Qed.

Definition same_threads (d d' : daemon) : Prop :=
  dm_threads d' = dm_threads d /\ dm_groups d' = dm_groups d /\ dm_next d' = dm_next d /\ dm_stop d' = dm_stop d.
Lemma same_threads_ok d d' : same_threads d d' -> daemon_ok d -> daemon_ok d'.
Proof. intros (? & ? & ? & ?). by apply daemon_ok_same. Qed.
Lemma same_threads_serving d d' i : same_threads d d' -> serving d' i = serving d i.
Proof. intros (? & ? & ? & ?). by apply serving_same. Qed.
Lemma resize_pool_same cfg d : same_threads d (resize_pool cfg d).
Proof. unfold resize_pool. destruct (dc_pool_max_size cfg); [done |]. by case_match. Qed.

(** What an account runs after a tick: what it ran, or its current row in a new group. *)
Definition runs_row (d d' : daemon) (i : Z) (row : account_row) : Prop := exists c n,
  account_config_from_row row = Ok c /\ (dm_next d <= n)%nat /\ serving d' i = Some (a_updated_at row, c, n).
(** The account runs the version of the row already and is not to restart. *)
Definition settled (d : daemon) (q : commands) (i : Z) (row : account_row) : bool :=
  bool_decide (running_fingerprints d !! i = Some (a_updated_at row)) && bool_decide (Some i ∉ restarts <$> applied q).
(** The registry is the table's. *)
Definition matches (d : daemon) (q : commands) (rows : accounts) (d' : daemon) : Prop := forall i,
  match rows !! i with
  | None => serving d' i = None
  | Some row => if settled d q i row then serving d' i = serving d i else runs_row d d' i row
  end.

Lemma converge cfg d q rows : daemon_ok d ->
  (forall i row, rows !! i = Some row -> exists c, account_config_from_row row = Ok c) ->
  let d1 := (drain_commands e d q).1 in
  forall d2, same_threads d1 d2 ->
  let plan := plan_reconcile (running_fingerprints d2) (a_updated_at <$> rows) in
  exists d', (if is_empty plan then (d2, Ok ()) else
      match run_actions e rows d2 (plan_actions plan) with
      | (d, Ok _) => (resize_pool cfg d, Ok ())
      | (d, Err x) => (d, Err x)
      end) = (d', Ok ()) /\ daemon_ok d' /\ same_flags d1 d' /\ matches d q rows d'.
Proof.
  intros Hd Hrows d1 d2 H2 plan. destruct (drain_spec d q Hd) as (Hd1 & Hn1 & _ & Hv1). fold d1 in Hd1, Hn1, Hv1.
  pose proof (same_threads_ok _ _ H2 Hd1) as Hd2. pose proof (fun i => same_threads_serving _ _ i H2) as Hv2.
  destruct H2 as (_ & _ & Hn2 & Hs2).
  assert (Hset : forall i row, settled d q i row = bool_decide (running_fingerprints d2 !! i = Some (a_updated_at row))).
  { intros i row. unfold settled. rewrite <- bool_decide_and. apply bool_decide_ext.
    rewrite !running_serving, Hv2, Hv1 by done. case_bool_decide; [naive_solver | tauto]. }
  assert (Hkeep : forall i row, settled d q i row = true -> serving d2 i = serving d i).
  { intros i row [_ Hr%bool_decide_eq_true]%andb_true_iff. by rewrite Hv2, Hv1, bool_decide_eq_false_2. }
  destruct (is_empty plan) eqn:Ep.
  - exists d2. split_and!; [done | done | split; [lia | done] |]. apply plan_empty in Ep. intros i.
    destruct (rows !! i) as [row |] eqn:Er.
    + assert (settled d q i row = true) as Hs by (rewrite Hset, Ep, lookup_fmap, Er; by apply bool_decide_eq_true).
      rewrite Hs. by eapply Hkeep.
    + apply eq_None_not_Some. intros Hsome%serving_some; [| done]. destruct Hsome as [b Hb].
      pose proof (running_lookup d2 i) as Hl. rewrite Ep, lookup_fmap, Er, Hb in Hl. done.
  - destruct (run_plan rows d2 Hd2) as (d3 & H3 & Hd3 & [Hn3 Hs3] & Hv3).
    { intros i [row Hi]. destruct (Hrows i row Hi) as [c Hc]. by exists row, c. }
    fold plan in H3. rewrite H3. pose proof (resize_pool_same cfg d3) as Hrs. exists (resize_pool cfg d3).
    split_and!; [done | by eapply same_threads_ok | |].
    + destruct Hrs as (_ & _ & Hn4 & Hs4). unfold same_flags. rewrite Hn4, Hs4. split; [lia | congruence].
    + intros i. specialize (Hv3 i). rewrite (same_threads_serving _ _ i Hrs). destruct (rows !! i) as [row |] eqn:Er; [| done].
      rewrite Hset. destruct (bool_decide_reflect (running_fingerprints d2 !! i = Some (a_updated_at row))) as [Hb | Hb].
      * rewrite Hv3. eapply Hkeep. rewrite Hset. by apply bool_decide_eq_true.
      * destruct Hv3 as (row' & c & n & Hr' & Hc & Hn & Hsv). assert (row' = row) as -> by congruence. exists c, n.
        rewrite (same_threads_serving _ _ i Hrs). split_and!; [done | lia | done].
Qed.

(** [mappable]: every row the daemon reads maps to a configuration. *)
Definition mappable (t : accounts) : Prop :=
  forall i row, list_syncable_accounts t !! i = Some row -> exists c, account_config_from_row row = Ok c.
Lemma reconcile_spec cfg d q t : daemon_ok d -> mappable t ->
  let d1 := (drain_commands e d q).1 in
  exists d', reconcile cfg e d q t = (d', (drain_commands e d q).2, Ok ()) /\ daemon_ok d' /\ same_flags d1 d' /\
    if dm_stop d1 || negb (te_read_ok e) then d' = d1 else matches d q (list_syncable_accounts t) d'.
Proof.
  intros Hd Ht d1. unfold reconcile. pose proof (drain_spec d q Hd) as (Hd1 & _). fold d1 in Hd1.
  set (d2 := set_heartbeats (safe_heartbeat (te_heartbeat_ok e) (dm_heartbeats d1) (te_now e) KReconcile None (lit "idle")) d1).
  destruct (converge cfg d q _ Hd Ht d2) as (d' & Hr & Hd' & Hf & Hm); [done |]. fold d1 in Hf.
  assert (Heq : drain_commands e d q = (d1, (drain_commands e d q).2)) by (unfold d1; by destruct (drain_commands e d q)).
  rewrite Heq. cbn [snd]. destruct (dm_stop d1) eqn:Es; [by exists d1 |]. destruct (te_read_ok e); [| by exists d1].
  cbn [negb orb]. exists d'. split_and!; [| done..]. fold d2. cbn zeta in Hr |- *. destruct (is_empty _); [by injection Hr as -> |].
  destruct (run_actions _ _ _ _) as [d3 [[] | x]]; [by injection Hr as -> | done].
Qed.

(** Every thread of every account is told to stop. *)
Lemma stop_groups_spec l d n : dm_groups (foldl (fun d b => stop_group e (bn_group b.2) d) d l) !! n =
  (if bool_decide (n ∈ (fun b : Z * AccountThreads => bn_group b.2) <$> l)
   then (fun g => Group (g_account g) (g_config g) true (te_joined e n)) <$> dm_groups d !! n else dm_groups d !! n).
Proof.
  revert d. induction l as [| b l IH]; intros d; cbn [foldl fmap list_fmap]; [done |]. rewrite IH. cbn [stop_group set_groups dm_groups].
  destruct (decide (n = bn_group b.2)) as [-> | Hne].
  - rewrite lookup_alter_eq, (bool_decide_eq_true_2 (bn_group b.2 ∈ bn_group b.2 :: _)) by left.
    case_bool_decide; [| done]. by destruct (dm_groups d !! bn_group b.2).
  - rewrite lookup_alter_ne by done. repeat case_bool_decide; set_solver.
Qed.
Lemma clear_all_safely l d : same_threads d (foldl (fun d (b : Z * AccountThreads) => clear_account_heartbeats_safely e d b.1) d l).
Proof.
  revert d. unfold same_threads. induction l as [| b l IH]; intros d; [done |]. cbn.
  destruct (IH (clear_account_heartbeats_safely e d b.1)) as (-> & -> & -> & ->).
  apply clear_safely.
Qed.
Lemma stop_groups_flags l d : let d' := foldl (fun d (b : Z * AccountThreads) => stop_group e (bn_group b.2) d) d l in
  dm_threads d' = dm_threads d /\ dm_next d' = dm_next d /\ dm_stop d' = dm_stop d.
Proof. cbn zeta. revert d. induction l as [| b l IH]; intros d; [done |]. cbn. by destruct (IH (stop_group e (bn_group b.2) d)) as (-> & -> & ->). Qed.
Lemma shutdown_spec d : daemon_ok d -> let d' := shutdown_all_threads e d in
  daemon_ok d' /\ dm_threads d' = [] /\ dm_stop d' = true /\ forall n g, dm_groups d' !! n = Some g -> g_stopped g = true.
Proof.
  intros Hd. cbn zeta. unfold shutdown_all_threads.
  set (d1 := foldl _ (set_threads [] (set_stop d)) (dm_threads d)).
  destruct (clear_all_safely (dm_threads d) d1) as (Ht & Hg & Hn & Hs).
  destruct (stop_groups_flags (dm_threads d) (set_threads [] (set_stop d))) as (Ht1 & Hn1 & Hs1). fold d1 in Ht1, Hn1, Hs1.
  assert (Hall : forall n g, dm_groups d1 !! n = Some g -> g_stopped g = true /\ is_Some (dm_groups d !! n)).
  { intros n g. unfold d1. rewrite stop_groups_spec. cbn [set_threads set_stop dm_groups]. case_bool_decide as Hin.
    - destruct (dm_groups d !! n); [| done]. by intros [= <-].
    - intros Hng. split; [| by exists g]. destruct (g_stopped g) eqn:Es; [done |]. exfalso. apply Hin.
      destruct (do_running d Hd n g Hng Es) as (i & b & Hb & <-). by apply (list_elem_of_fmap_2' _ _ (i, b)). }
  rewrite Ht, Hs, Ht1, Hs1. split_and!; [| done | done | intros n g; rewrite Hg; by intros [? _]%Hall].
  apply (daemon_ok_same d1); [done.. |]. split; rewrite ?Ht1; cbn.
  - constructor.
  - by intros i b ?%elem_of_nil.
  - intros n g Hng Hst. apply Hall in Hng as [? _]. congruence.
  - intros n g [_ [g' Hg']]%Hall. rewrite Hn1. by eapply (do_fresh d Hd).
  - intros n g n' g' Hng _ _ _. by apply Hall in Hng as [? _].
Qed.
End steps.

(** Starting: every syncable account runs its row. *)
Lemma start_spec cfg h ok rows : (forall i row, rows !! i = Some row -> exists c, account_config_from_row row = Ok c) ->
  exists d, start cfg h ok rows = Ok d /\ daemon_ok d /\ dm_stop d = false /\
    forall i, match rows !! i with
              | None => serving d i = None
              | Some row => exists c n, account_config_from_row row = Ok c /\ serving d i = Some (a_updated_at row, c, n)
              end.
Proof.
  intros Hrows. unfold start. set (d0 := MkDaemon _ _ _ _ _ _ _).
  set (l := py_sorted _ (map_to_list rows)).
  assert (Hl : forall i row, (i, row) ∈ l <-> rows !! i = Some row).
  { intros i row. unfold l. rewrite py_sorted_elem. apply elem_of_map_to_list. }
  assert (Hn : NoDup l.*1) by (unfold l; rewrite py_sorted_Permutation; apply NoDup_fst_map_to_list).
  assert (Hd0 : daemon_ok d0).
  { split; cbn; [constructor | by intros ? ? ?%elem_of_nil | | |]; intros n g; [| | intros n' g']; by rewrite lookup_empty. }
  assert (Hgen : forall d, daemon_ok d -> (forall i, i ∈ l.*1 -> serving d i = None) ->
    exists d', foldM (fun d e => spawn_account d e.1 e.2) d l = Ok d' /\ daemon_ok d' /\ dm_stop d' = dm_stop d /\
      forall i, match od_get i l with
                | None => serving d' i = serving d i
                | Some row => exists c n, account_config_from_row row = Ok c /\ serving d' i = Some (a_updated_at row, c, n)
                end).
  { assert (Hc : forall i row, (i, row) ∈ l -> exists c, account_config_from_row row = Ok c) by (intros i row ?%Hl; eauto).
    clear Hl Hd0. induction l as [| [i row] l' IH]; intros d Hd Hs; [by exists d |].
    apply NoDup_cons in Hn as [Hi Hn]. destruct (Hc i row) as [c Hrc]; [by left |]. cbn [foldM fst snd].
    destruct (spawn_spec d i row c Hd) as (d1 & -> & Hd1 & _ & Hs1 & Hv1); [apply Hs; by left | done |].
    destruct (IH Hn) with (d := d1) as (d' & -> & Hd' & Hs' & Hv'); [intros j r ?; apply (Hc j); by right | done | |].
    { intros j Hj. rewrite Hv1, decide_False by (by intros ->). apply Hs. by right. }
    exists d'. split_and!; [done | done | congruence |]. intros j. specialize (Hv' j). cbn [od_get].
    destruct (decide (i = j)) as [-> | Hne].
    - rewrite (proj2 (od_get_none_keys j l') Hi) in Hv'. exists c, (dm_next d). by rewrite Hv', Hv1, decide_True.
    - destruct (od_get j l'); [done |]. by rewrite Hv', Hv1, decide_False. }
  destruct (Hgen d0 Hd0) as (d & Hd & Hok & Hst & Hv); [by intros |]. exists d. split_and!; [done.. |]. intros i. specialize (Hv i).
  destruct (od_get i l) as [row |] eqn:Eg.
  - apply od_get_elem, Hl in Eg. by rewrite Eg.
  - destruct (rows !! i) as [row |] eqn:Er; [| done]. apply Hl, (od_elem_get _ _ _ Hn) in Er. congruence.
Qed.
