(* ===== verification/DaemonRuns.v ===== *)
(** * The daemon beside the admin service

    Every interleaving of account changes, queued commands, signals, heartbeats of
    the workers and turns of the daemon's loop, from the daemon's start.  A written
    row version is kept for good in [sy_written], so that what a thread runs can be
    traced to the row it was started from. *)
From S2P Require Import Prelude PyStr Errors Odict AdminAccounts Daemon DaemonFacts.
Import Admin_accounts Reconcile Heartbeat Commands Budget Daemon.

Record system := System {
  sy_accounts : accounts; sy_commands : commands; sy_daemon : daemon;
  sy_running : bool;                                 (* [run_forever] has not returned *)
  sy_written : list (Z * account_row) }.

Section system.
Context (cfg : daemon_config).
Implicit Types (s : system).

(** The transaction's [now()] is not that of an earlier write. *)
Definition fresh s (now : Z) : Prop := forall i r, (i, r) ∈ sy_written s -> a_updated_at r <> now.
Definition write s (t : accounts) (i : Z) (r : account_row) : system :=
  System t (sy_commands s) (sy_daemon s) (sy_running s) ((i, r) :: sy_written s).
Definition with_daemon s d : system := System (sy_accounts s) (sy_commands s) d (sy_running s) (sy_written s).

Inductive step s : system -> Prop :=
| Step_create i now name email auth host port prov al de df t r :
    fresh s now -> sy_accounts s !! i = None ->
    create_account (sy_accounts s) i now name email auth host port prov al de df = Ok (t, r) -> step s (write s t i r)
| Step_update i now f t r :
    fresh s now -> update_account (sy_accounts s) i now f = Ok (t, r) -> step s (write s t i r)
| Step_touch i now t r :
    fresh s now -> touch_account_updated_at (sy_accounts s) i now = Ok t -> t !! i = Some r -> step s (write s t i r)
| Step_delete i has_messages force t :
    delete_account (sy_accounts s) i has_messages force = Ok t ->
    step s (System t (cascade_commands (sy_commands s) i)
              (set_heartbeats (clear_account_heartbeats (dm_heartbeats (sy_daemon s)) i) (sy_daemon s))
              (sy_running s) (sy_written s))
| Step_enqueue k now c i q :
    sy_commands s !! k = None -> enqueue_command (sy_accounts s) (sy_commands s) k now c i = Some q ->
    step s (System (sy_accounts s) q (sy_daemon s) (sy_running s) (sy_written s))
| Step_signal : step s (with_daemon s (set_stop (sy_daemon s)))
| Step_heartbeat now kind i state folder error :
    step s (with_daemon s
      (set_heartbeats (record_heartbeat (dm_heartbeats (sy_daemon s)) now kind i state folder error) (sy_daemon s)))
| Step_turn e d q running :
    sy_running s = true -> turn cfg e (sy_daemon s) (sy_commands s) (sy_accounts s) = (d, q, running) ->
    step s (System (sy_accounts s) q d running (sy_written s)).

(** The daemon starts on a valid table. *)
Definition initial s : Prop :=
  table_ok (sy_accounts s) /\ sy_running s = true /\ sy_written s = map_to_list (sy_accounts s) /\
  (forall k c, sy_commands s !! k = Some c -> command_check (cm_command c) (cm_account_id c) = true) /\
  exists h ok, start cfg h ok (list_syncable_accounts (sy_accounts s)) = Ok (sy_daemon s).
Definition reachable s : Prop := exists s0, initial s0 /\ rtc step s0 s.

(** ** The invariant *)

Record system_ok s : Prop := {
  so_table : table_ok (sy_accounts s);
  so_rows : forall i r, sy_accounts s !! i = Some r -> (i, r) ∈ sy_written s;
  so_versions : forall i r r', (i, r) ∈ sy_written s -> (i, r') ∈ sy_written s -> a_updated_at r = a_updated_at r' -> r = r';
  so_queue : forall k c, sy_commands s !! k = Some c -> command_check (cm_command c) (cm_account_id c) = true;
  so_daemon : daemon_ok (sy_daemon s);
  so_serving : forall i u c n, serving (sy_daemon s) i = Some (u, c, n) ->
    exists r, (i, r) ∈ sy_written s /\ syncable r = true /\ a_updated_at r = u /\ account_config_from_row r = Ok c;
  so_ended : sy_running s = false -> dm_threads (sy_daemon s) = [] /\ dm_stop (sy_daemon s) = true;
}.

Lemma same_threads_system s s' : system_ok s -> sy_accounts s' = sy_accounts s -> sy_commands s' = sy_commands s ->
  sy_running s' = sy_running s -> sy_written s' = sy_written s ->
  dm_threads (sy_daemon s') = dm_threads (sy_daemon s) -> dm_groups (sy_daemon s') = dm_groups (sy_daemon s) ->
  dm_next (sy_daemon s') = dm_next (sy_daemon s) -> (dm_stop (sy_daemon s) = true -> dm_stop (sy_daemon s') = true) ->
  system_ok s'.
Proof.
  intros [] Ha Hc Hr Hw Ht Hg Hn Hs. split; rewrite ?Ha, ?Hc, ?Hr, ?Hw, ?Ht; try done.
  - by eapply daemon_ok_same.
  - intros i u c n. rewrite (serving_same (sy_daemon s) _ i Ht Hg). apply so_serving0.
  - intros ?%so_ended0. intuition.
Qed.

(** A write of a new version, or of one already written. *)
Lemma write_ok s t i r : system_ok s -> table_ok t ->
  (forall j r', t !! j = Some r' -> (j, r') = (i, r) \/ sy_accounts s !! j = Some r') ->
  fresh s (a_updated_at r) \/ (i, r) ∈ sy_written s -> system_ok (write s t i r).
Proof.
  intros [] Ht Hrows Hf. split; cbn; try done.
  - intros j r' [-> | Hj]%Hrows; [by left | right; auto].
  - intros j r1 r2 [Hj | Hj]%elem_of_cons [Hk | Hk]%elem_of_cons Heq; [congruence | | | by eapply so_versions0].
    + injection Hj as -> ->. destruct Hf as [Hf | Hf]; [| by eapply so_versions0]. by destruct (Hf i r2 Hk).
    + injection Hk as -> ->. destruct Hf as [Hf | Hf]; [| by eapply so_versions0]. by destruct (Hf i r1 Hj).
  - intros j u c n (r' & ? & ?)%so_serving0. exists r'. split; [by right | done].
Qed.

Lemma mappable_ok t : table_ok t -> mappable t.
Proof. intros Ht i r. by apply syncable_config. Qed.
Lemma syncable_row t i r : list_syncable_accounts t !! i = Some r -> t !! i = Some r /\ syncable r = true.
Proof. unfold list_syncable_accounts. by intros [? ?]%map_lookup_filter_Some. Qed.

Lemma initial_ok s : initial s -> system_ok s.
Proof.
  intros (Ht & Hr & Hw & Hq & h & ok & Hst).
  destruct (start_spec cfg h ok _ (mappable_ok _ Ht)) as (d & Hst' & Hd & _ & Hv).
  rewrite Hst in Hst'. injection Hst' as <-. split; try done; rewrite ?Hw, ?Hr; try done.
  - intros i r ?. by apply elem_of_map_to_list.
  - intros i r r' H1%elem_of_map_to_list H2%elem_of_map_to_list _. congruence.
  - intros i u c n Hsv. specialize (Hv i). destruct (list_syncable_accounts (sy_accounts s) !! i) as [r |] eqn:El; [| congruence].
    destruct Hv as (c' & n' & Hc & Hs). rewrite Hs in Hsv. injection Hsv as <- <- <-. apply syncable_row in El as [Hi ?].
    exists r. split_and!; [by apply elem_of_map_to_list | done..].
Qed.

(** ** A turn *)

(** Whether the turn finds the stop event set, before or by the drain. *)
Definition told_to_stop (e : tick_env) s : bool :=
  dm_stop (sy_daemon s) || existsb stops (applied e (sy_commands s)).

Lemma clear_wake_same d : same_threads d (clear_wake d).
Proof. done. Qed.
Lemma matches_serving e s d' i u c n : system_ok s ->
  matches e (sy_daemon s) (sy_commands s) (list_syncable_accounts (sy_accounts s)) d' -> serving d' i = Some (u, c, n) ->
  exists r, list_syncable_accounts (sy_accounts s) !! i = Some r /\ u = a_updated_at r /\ account_config_from_row r = Ok c /\
    (Some i ∈ restarts <$> applied e (sy_commands s) -> (dm_next (sy_daemon s) <= n)%nat).
Proof.
  intros Hs Hm Hsv. specialize (Hm i). destruct (list_syncable_accounts (sy_accounts s) !! i) as [r |] eqn:El; [| congruence].
  exists r. split; [done |]. destruct (settled e _ _ i r) eqn:Est.
  - unfold settled in Est. apply andb_true_iff in Est as [Hr%bool_decide_eq_true Hn%bool_decide_eq_true].
    apply running_serving in Hr as (c' & n' & Hsv'); [| apply Hs]. rewrite Hm, Hsv' in Hsv. injection Hsv as <- <- <-.
    destruct (so_serving s Hs _ _ _ _ Hsv') as (r' & Hr' & _ & Hu & Hc).
    assert (r' = r) as -> by (apply syncable_row in El as [Hi _]; apply (so_rows s Hs) in Hi; by eapply (so_versions s Hs)). done.
  - destruct Hm as (c' & n' & Hc & Hn & Hsv'). rewrite Hsv' in Hsv. by injection Hsv as <- <- <-.
Qed.

Definition after_drain (e : tick_env) s : daemon := (drain_commands e (sy_daemon s) (sy_commands s)).1.

(** The cases of a turn: the loop ends with everything stopped exactly when told
    to; otherwise the threads follow the table, or stay when it cannot be read. *)
Lemma turn_spec e s : system_ok s -> sy_running s = true ->
  let '(d', q', running) := turn cfg e (sy_daemon s) (sy_commands s) (sy_accounts s) in
  running = negb (told_to_stop e s) /\ daemon_ok d' /\ dm_stop d' = told_to_stop e s /\
  same_commands (sy_commands s) q' /\
  if running then
    q' = (drain_commands e (sy_daemon s) (sy_commands s)).2 /\
    if te_read_ok e then matches e (sy_daemon s) (sy_commands s) (list_syncable_accounts (sy_accounts s)) d'
    else forall i, serving d' i = serving (after_drain e s) i
  else dm_threads d' = [] /\ forall n g, dm_groups d' !! n = Some g -> g_stopped g = true.
Proof.
  intros Hs _. unfold turn, told_to_stop. cbn zeta. set (d0 := clear_wake (sy_daemon s)).
  pose proof (so_daemon s Hs) as Hd. assert (Hd0 : daemon_ok d0) by by apply (daemon_ok_same (sy_daemon s)).
  change (dm_stop d0) with (dm_stop (sy_daemon s)). destruct (dm_stop (sy_daemon s)) eqn:Es.
  { destruct (shutdown_spec e d0 Hd0) as (? & ? & ? & ?). split_and!; try done. intros k c ?. by exists c. }
  destruct (reconcile_spec e cfg d0 (sy_commands s) (sy_accounts s) Hd0 (mappable_ok _ (so_table s Hs)))
    as (d' & -> & Hd' & [_ Hst] & Hm).
  destruct (drain_spec e d0 (sy_commands s) Hd0) as (_ & _ & Hs1 & Hv1).
  destruct (drain_spec e (sy_daemon s) (sy_commands s) Hd) as (_ & _ & _ & Hv2).
  change (dm_stop d0) with (dm_stop (sy_daemon s)) in Hs1. rewrite Es in Hs1. cbn [orb] in Hs1 |- *.
  pose proof (drain_same_commands e d0 (sy_commands s)) as Hq. rewrite Hst, Hs1. destruct (existsb stops _) eqn:Ex.
  - destruct (shutdown_spec e d' Hd') as (? & ? & ? & ?). by split_and!.
  - rewrite Hs1 in Hm. cbn [orb] in Hm. split_and!; [done | done | by rewrite Hst, Hs1 | done | |].
    + apply drain_queue_daemon.
    + destruct (te_read_ok e); cbn [negb] in Hm; [done |]. subst d'. intros i. rewrite Hv1. unfold after_drain. by rewrite Hv2.
Qed.

(** ** Every step keeps the invariant *)

Lemma turn_ok e s d q running : system_ok s -> sy_running s = true ->
  turn cfg e (sy_daemon s) (sy_commands s) (sy_accounts s) = (d, q, running) ->
  system_ok (System (sy_accounts s) q d running (sy_written s)).
Proof.
  intros Hs Hr Ht. pose proof (turn_spec e s Hs Hr) as H. rewrite Ht in H. destruct H as (Hrun & Hd & Hst & Hq & Hc).
  split; cbn; try apply Hs; try done.
  - intros k c' (c & Hk & -> & ->)%Hq. by apply (so_queue s Hs k).
  - intros i u c n Hsv. destruct running.
    + destruct Hc as [_ Hc]. destruct (te_read_ok e).
      * destruct (matches_serving e s d i u c n Hs Hc Hsv) as (r & Hl & -> & Hcf & _). apply syncable_row in Hl as [Hi ?].
        exists r. split_and!; [by apply (so_rows s Hs) | done..].
      * rewrite Hc in Hsv. destruct (drain_spec e (sy_daemon s) (sy_commands s) (so_daemon s Hs)) as (_ & _ & _ & Hv).
        unfold after_drain in Hsv. rewrite Hv in Hsv. case_bool_decide; [done |]. by eapply (so_serving s Hs).
    + destruct Hc as [Hnil _]. unfold serving in Hsv. by rewrite Hnil in Hsv.
  - intros ->. destruct Hc as [? _]. split; [done |]. rewrite Hst. by destruct (told_to_stop e s).
Qed.

Lemma step_ok s s' : system_ok s -> step s s' -> system_ok s'.
Proof.
  intros Hs Hst. destruct Hst as [i now name email auth host port prov al de df t r Hf Hi Hc | i now f t r Hf Hu
    | i now t r Hf Ht Hr | i m force t Hdel | k now c i q Hk Hq | | | e d q running Hr Ht].
  - destruct (create_account_ok _ _ _ _ _ _ _ _ _ _ _ _ _ _ (so_table s Hs) Hi Hc) as [Ht ->].
    apply write_ok; [done | done | |].
    + intros j r' [[-> ->] | [_ Hj]]%lookup_insert_Some; [by left | by right].
    + left. unfold create_account in Hc. inv_ok Hc. injection Hc as _ <-. exact Hf.
  - destruct (update_account_ok _ _ _ _ _ _ (so_table s Hs) Hu) as [Ht [[-> Hi] | (-> & Hnow & _)]].
    + apply write_ok; [done | done | by right |]. right. by apply (so_rows s Hs).
    + apply write_ok; [done | done | | left; by rewrite Hnow].
      intros j r' [[-> ->] | [_ Hj]]%lookup_insert_Some; [by left | by right].
  - destruct (touch_account_ok _ _ _ _ (so_table s Hs) Ht) as [Hok (r0 & Hi & ->)]. rewrite lookup_insert_eq in Hr.
    injection Hr as <-. apply write_ok; [done | done | | by left].
    intros j r' [[-> ->] | [_ Hj]]%lookup_insert_Some; [by left | by right].
  - destruct (delete_account_ok _ _ _ _ _ (so_table s Hs) Hdel) as [Ht ->].
    apply (same_threads_system (System (delete i (sy_accounts s)) (cascade_commands (sy_commands s) i) (sy_daemon s)
      (sy_running s) (sy_written s))); try done.
    split; cbn; try apply Hs; [done | |].
    + intros j r [_ Hj]%lookup_delete_Some. by apply (so_rows s Hs).
    + intros k c [Hk _]%map_lookup_filter_Some. by eapply (so_queue s Hs).
  - split; cbn; try apply Hs. unfold enqueue_command in Hq. destruct (command_check c i && _) eqn:Ec; [| done].
    injection Hq as <-. intros j c' [[-> <-] | [_ Hj]]%lookup_insert_Some; [| by eapply (so_queue s Hs)].
    cbn. by apply andb_true_iff in Ec as [? _].
  - by apply (same_threads_system s).
  - by apply (same_threads_system s).
  - by eapply turn_ok.
Qed.
Lemma reachable_ok s : reachable s -> system_ok s.
Proof.
  intros (s0 & H0 & Hrtc). apply initial_ok in H0. induction Hrtc as [| s1 s2 s3 Hst Hrtc IH]; [done |].
  apply IH. by eapply step_ok.
Qed.

(** ** The properties *)

(** A pair whose stop event is set and one of whose joins ran out of its timeout:
    its threads may still be running. *)
Definition overstays (g : group) : Prop := g_stopped g = true /\ g_joined g = false.


(** C22: One turn after any history brings the threads to the table: a turn not told
    to stop that can read the table never raises, and after it exactly the syncable
    accounts run, each with the configuration and the version of its current row;
    an account whose restart was applied runs in a pair started by this turn; and
    when the drain succeeds every claimed command is done. *)
Theorem daemon_follows_the_table s e : reachable s -> sy_running s = true ->
  told_to_stop e s = false -> te_read_ok e = true ->
  exists d q, turn cfg e (sy_daemon s) (sy_commands s) (sy_accounts s) = (d, q, true) /\
    (forall i, match list_syncable_accounts (sy_accounts s) !! i with
       | None => serving d i = None
       | Some r => exists c n, account_config_from_row r = Ok c /\ serving d i = Some (a_updated_at r, c, n) /\
           (Some i ∈ restarts <$> applied e (sy_commands s) -> (dm_next (sy_daemon s) <= n)%nat)
       end) /\
    (drain_succeeds e = true -> forall k c, sy_commands s !! k = Some c ->
       if claimable e k c then exists c', q !! k = Some c' /\ cm_state c' = Done else q !! k = Some c).
Proof.
  intros Hs%reachable_ok Hr Hst Hread. pose proof (turn_spec e s Hs Hr) as H.
  destruct (turn cfg e _ _ _) as [[d q] running]. rewrite Hst, Hread in H. destruct H as (-> & Hd & _ & _ & -> & Hm).
  eexists _, _. split; [done |]. split.
  - intros i. destruct (serving d i) as [[[u c] n] |] eqn:Esv.
    + destruct (matches_serving e s d i u c n Hs Hm Esv) as (r & -> & -> & Hc & Hn). by exists c, n.
    + specialize (Hm i). destruct (list_syncable_accounts (sy_accounts s) !! i) as [r |] eqn:El; [exfalso | done].
      destruct (settled e _ _ i r) eqn:Est.
      * apply andb_true_iff in Est as [Hb%bool_decide_eq_true _]. apply running_serving in Hb as (? & ? & Hb); [| apply Hs].
        congruence.
      * destruct Hm as (? & ? & _ & _ & ?). congruence.
  - intros Hok k c Hk. rewrite drain_queue, Hk by done. cbn. destruct (claimable e k c) eqn:Ec; [| done].
    eexists. split; [done |]. apply (so_queue s Hs) in Hk. cbn. by destruct (cm_command c), (cm_account_id c).
Qed.
End system.

(** ** A history *)
Module Example_daemon.
Definition cfg : daemon_config := DaemonConfig None true false.
Definition mail (name : pystr) : account_row :=
  AccountRow name (name ++ lit "@x.org") (lit "password") None (Some (lit "imap.x.org")) (Some 993) None None None true 1 1.
Definition t0 : accounts := <[1 := mail (lit "a")]> (<[2 := mail (lit "b")]> ∅).
Definition d0 : daemon := match start cfg ∅ true (list_syncable_accounts t0) with Ok d => d | Err _ => MkDaemon [] ∅ 0 true false 0 ∅ end.
Definition s0 : system := System t0 ∅ d0 true (map_to_list t0).
(** [a] is renamed on the server, [b] is to be restarted. *)
Definition f1 : account_fields := AccountFields None None None (Some (Some (lit "mail.x.org"))) None None None None None false.
Definition s1 : system :=
  match update_account t0 1 7 f1 with Ok (t, r) => write s0 t 1 r | Err _ => s0 end.
Definition s2 : system :=
  match enqueue_command (sy_accounts s1) ∅ 5 8 RestartAccount (Some 2) with
  | Some q => System (sy_accounts s1) q d0 true (sy_written s1) | None => s1 end.
Definition e : tick_env := TickEnv 9 true true ∅ None true true true (fun _ => true) (fun _ => true).
Definition s3 : system :=
  let '(d, q, running) := turn cfg e (sy_daemon s2) (sy_commands s2) (sy_accounts s2) in
  System (sy_accounts s2) q d running (sy_written s2).

Lemma t0_rows i r : t0 !! i = Some r -> (i = 1 /\ r = mail (lit "a")) \/ (i = 2 /\ r = mail (lit "b")).
Proof.
  unfold t0. intros Hi. apply lookup_insert_Some in Hi as [[<- <-] | [_ Hi]]; [by left |].
  apply lookup_insert_Some in Hi as [[<- <-] | [_ Hi]]; [by right |]. by rewrite lookup_empty in Hi.
Qed.
Lemma table_ok_t0 : table_ok t0.
Proof.
  split.
  - by intros i r [[-> ->] | [-> ->]]%t0_rows.
  - by intros i j r r' [[-> ->] | [-> ->]]%t0_rows [[-> ->] | [-> ->]]%t0_rows.
Qed.
Lemma s0_initial : initial cfg s0.
Proof. split_and!; [apply table_ok_t0 | done | done | intros k c Hk; cbn in Hk; by rewrite lookup_empty in Hk | exists ∅, true; by vm_compute]. Qed.
Lemma s2_reachable : reachable cfg s2.
Proof.
  exists s0. split; [apply s0_initial |]. eapply rtc_l; [| eapply rtc_l; [| apply rtc_refl]].
  - change s1 with (write s0 (sy_accounts s1) 1 (set_fields f1 7 (mail (lit "a")))).
    eapply (Step_update cfg s0 1 7 f1); [| by vm_compute].
    intros i r Hin%elem_of_map_to_list. cbn in Hin. by apply t0_rows in Hin as [[_ ->] | [_ ->]].
  - eapply (Step_enqueue cfg s1 5 8 RestartAccount (Some 2)); by vm_compute.
Qed.


(** A teardown goes on when a join runs out: the respawned account then has a
    pair told to stop that may still run beside the new one. *)
Definition late : tick_env := TickEnv 9 true true ∅ None true true true (fun _ => true) (fun _ => false).
Lemma late_join_leaves_two_pairs : exists s, reachable cfg s /\
  (exists g, dm_groups (sy_daemon s) !! 0%nat = Some g /\ g_account g = 1 /\ overstays g) /\
  (exists g, dm_groups (sy_daemon s) !! 2%nat = Some g /\ g_account g = 1 /\ g_stopped g = false).
Proof.
  destruct (turn cfg late (sy_daemon s2) (sy_commands s2) (sy_accounts s2)) as [[d q] running] eqn:Et.
  exists (System (sy_accounts s2) q d running (sy_written s2)). split.
  - destruct s2_reachable as (s & Hs & H2). exists s. split; [done |]. eapply rtc_r; [exact H2 |]. by eapply (Step_turn cfg s2 late).
  - vm_compute in Et. injection Et as <- _ _. split; eexists; (split; [by vm_compute |]); by split_and!.
Qed.
Lemma daemon_follows_the_table_witness : told_to_stop e s2 = false /\ drain_succeeds e = true /\
  exists d q, turn cfg e (sy_daemon s2) (sy_commands s2) (sy_accounts s2) = (d, q, true) /\ cm_state <$> q !! 5 = Some Done.
Proof.
  split; [by vm_compute |]. split; [by vm_compute |].
  destruct (daemon_follows_the_table cfg s2 e s2_reachable) as (d & q & Ht & _ & Hq); [by vm_compute.. |].
  exists d, q. split; [exact Ht |].
  assert (exists c, sy_commands s2 !! 5 = Some c /\ claimable e 5 c = true) as (c & Hk & Hc) by (eexists; by vm_compute).
  specialize (Hq eq_refl 5 c Hk). rewrite Hc in Hq. destruct Hq as (c' & -> & Hs). cbn. by rewrite Hs.
Defined.
End Example_daemon.
