(* ===== verification/Supervisor.v ===== *)
(** * Owning the daemon process ([serve/daemon_supervisor.py]), without orphans or
      false alarms

    The serve process may own the sync daemon as a child.  Every method body that
    holds [_lock] is one atomic instruction; [stop] releases the lock to wait, so
    its three parts are instructions of their own, and a thread is the list of
    instructions it still has to run.  Only the lifecycle thread, the closing
    lifespan, the readers and the callers of [request_*] and [status] touch a
    supervisor. *)
From S2P Require Import Prelude PyStr.

Inductive sv_state := STOPPED | STARTING | RUNNING | STOPPING | CRASHED.
#[export] Instance sv_state_eq_dec : EqDecision sv_state.
Proof. solve_decision. Defined.

(** A child process and the reader of its output: whether it is alive, whether it
    was sent a signal, whether its reader saw the end, and the lines of its run. *)
Record child := Child { ch_alive : bool; ch_signalled : bool; ch_eof : bool; ch_log : list pystr }.
Record supervisor := MkSupervisor {
  sv_state_of : sv_state; sv_proc : option nat; sv_started_at : option Z; sv_closing : bool;
  sv_log : option nat;                               (* the run whose buffer [_log] is *)
  sv_children : gmap nat child; sv_next : nat }.
Inductive instr := IStart | IStop | ISignal (p : nat) | IWait (p : nat) | IFinish | IClose.
#[export] Instance instr_eq_dec : EqDecision instr.
Proof. solve_decision. Defined.
Inductive sv_error := SupervisorUnavailable.

Module Supervisor.
Implicit Types s : supervisor.

Definition init : supervisor := MkSupervisor STOPPED None None false None ∅ 0.
Definition set_state st s := MkSupervisor st (sv_proc s) (sv_started_at s) (sv_closing s) (sv_log s) (sv_children s) (sv_next s).
Definition set_children c s := MkSupervisor (sv_state_of s) (sv_proc s) (sv_started_at s) (sv_closing s) (sv_log s) c (sv_next s).
Definition set_closing s := MkSupervisor (sv_state_of s) (sv_proc s) (sv_started_at s) true (sv_log s) (sv_children s) (sv_next s).
(** [_proc = None; _started_at = None; _state = STOPPED] *)
Definition stopped s := MkSupervisor STOPPED None None (sv_closing s) (sv_log s) (sv_children s) (sv_next s).
Definition alive s (p : nat) : bool := match sv_children s !! p with Some c => ch_alive c | None => false end.
(** [self._proc is not None and self._proc.poll() is None] *)
Definition proc_live s : bool := match sv_proc s with Some p => alive s p | None => false end.

(** [start]; [false] when [Popen] raised. *)
Definition start (now : Z) (spawn_ok : bool) s : supervisor * bool :=
  if sv_closing s then (s, true)
  else if proc_live s then (s, true)
  else
    let s := MkSupervisor STARTING (sv_proc s) (sv_started_at s) (sv_closing s) None (sv_children s) (sv_next s) in
    if spawn_ok then
      (MkSupervisor RUNNING (Some (sv_next s)) (Some now) (sv_closing s) (Some (sv_next s))
         (<[sv_next s := Child true false false []]> (sv_children s)) (S (sv_next s)), true)
    else (s, false).
(** The first part of [stop]: the child to wait for, if any. *)
Definition stop_begin s : supervisor * option nat :=
  match sv_proc s with
  | Some p => if alive s p then (set_state STOPPING s, Some p) else (stopped s, None)
  | None => (stopped s, None)
  end.
(** [send_signal] polls first and does nothing to a process that has ended. *)
Definition signal (p : nat) s : supervisor :=
  set_children (alter (fun c => Child (ch_alive c) (ch_signalled c || ch_alive c) (ch_eof c) (ch_log c)) p (sv_children s)) s.
Definition exits (p : nat) s : supervisor :=
  set_children (alter (fun c => Child false (ch_signalled c) (ch_eof c) (ch_log c)) p (sv_children s)) s.

Definition admit_lifecycle_request (in_flight : bool) s : bool := negb (sv_closing s) && negb in_flight.
(** The [request_*] methods: the new state and the body of the thread they spawn. *)
Definition request_start (in_flight : bool) s : sum sv_error (supervisor * option (list instr)) :=
  if negb (admit_lifecycle_request in_flight s) then inl SupervisorUnavailable
  else if proc_live s then inr (s, None)
  else inr (set_state STARTING s, Some [IStart]).
Definition request_stop (in_flight : bool) s : sum sv_error (supervisor * option (list instr)) :=
  if negb (admit_lifecycle_request in_flight s) then inl SupervisorUnavailable
  else if proc_live s then inr (set_state STOPPING s, Some [IStop])
  else inr (stopped s, None).
Definition request_restart (in_flight : bool) s : sum sv_error (supervisor * option (list instr)) :=
  if negb (admit_lifecycle_request in_flight s) then inl SupervisorUnavailable
  else inr (set_state STOPPING s, Some [IStop; IStart]).

(** [status]: state, pid and start, after its crash check. *)
Definition status s : supervisor * (sv_state * option nat * option Z) :=
  let s := if bool_decide (sv_state_of s = RUNNING) && bool_decide (is_Some (sv_proc s)) && negb (proc_live s)
           then set_state CRASHED s else s in
  (s, (sv_state_of s, if bool_decide (sv_state_of s = STOPPED) then None else sv_proc s, sv_started_at s)).
Definition recent_log_lines s : list pystr :=
  match sv_log s with Some p => match sv_children s !! p with Some c => ch_log c | None => [] end | None => [] end.
(** [_drain_output]: a line into the run's own ring buffer, and the end. *)
Definition drain_line (log_max_lines : nat) (p : nat) (line : pystr) s : supervisor :=
  set_children (alter (fun c => Child (ch_alive c) (ch_signalled c) (ch_eof c)
    (let l := ch_log c ++ [line] in drop (length l - log_max_lines) l)) p (sv_children s)) s.
Definition drain_eof (p : nat) s : supervisor :=
  let s := set_children (alter (fun c => Child (ch_alive c) (ch_signalled c) true (ch_log c)) p (sv_children s)) s in
  if bool_decide (sv_state_of s = RUNNING) && bool_decide (sv_proc s = Some p) then set_state CRASHED s else s.

(** One instruction of a thread that still has [rest] to run; [None] while [wait]
    blocks.  [timed_out] is whether the grace is over. *)
Definition exec (now : Z) (spawn_ok timed_out : bool) (i : instr) (rest : list instr) s : option (supervisor * list instr) :=
  match i with
  | IStart => let '(s, ok) := start now spawn_ok s in Some (s, if ok then rest else [])
  | IStop => match stop_begin s with
             | (s, Some p) => Some (s, ISignal p :: IWait p :: IFinish :: rest)
             | (s, None) => Some (s, rest)
             end
  | ISignal p => Some (signal p s, rest)
  | IWait p => if alive s p then if timed_out then Some (exits p s, rest) else None else Some (s, rest)
  | IFinish => Some (stopped s, rest)
  | IClose => Some (set_closing s, rest)
  end.

(** ** The serve process *)

(** The lifecycle thread while it is alive, and the lifespan's [close]: not called,
    running, or returned ([Some []]). *)
Record serve := Serve { sp_sv : supervisor; sp_lifecycle : option (list instr); sp_closer : option (list instr) }.
Definition spawned (t : option (list instr)) (r : sum sv_error (supervisor * option (list instr))) (y : serve) : serve :=
  match r with
  | inl _ => y
  | inr (s, None) => Serve s t (sp_closer y)
  | inr (s, Some body) => Serve s (Some body) (sp_closer y)
  end.
Definition in_flight (y : serve) : bool := bool_decide (is_Some (sp_lifecycle y)).

Inductive step (log_max_lines : nat) (y : serve) : serve -> Prop :=
| Request_start : step log_max_lines y (spawned (sp_lifecycle y) (request_start (in_flight y) (sp_sv y)) y)
| Request_stop : step log_max_lines y (spawned (sp_lifecycle y) (request_stop (in_flight y) (sp_sv y)) y)
| Request_restart : step log_max_lines y (spawned (sp_lifecycle y) (request_restart (in_flight y) (sp_sv y)) y)
| Lifecycle now ok late i l s l' : sp_lifecycle y = Some (i :: l) -> exec now ok late i l (sp_sv y) = Some (s, l') ->
    step log_max_lines y (Serve s (Some l') (sp_closer y))
| Lifecycle_exit : sp_lifecycle y = Some [] -> step log_max_lines y (Serve (sp_sv y) None (sp_closer y))
| Close : sp_closer y = None -> step log_max_lines y (Serve (sp_sv y) (sp_lifecycle y) (Some [IClose; IStop]))
| Closing now ok late i l s l' : sp_closer y = Some (i :: l) -> exec now ok late i l (sp_sv y) = Some (s, l') ->
    step log_max_lines y (Serve s (sp_lifecycle y) (Some l'))
| Status : step log_max_lines y (Serve (status (sp_sv y)).1 (sp_lifecycle y) (sp_closer y))
| Child_exit p : step log_max_lines y (Serve (exits p (sp_sv y)) (sp_lifecycle y) (sp_closer y))
| Child_line p line : step log_max_lines y (Serve (drain_line log_max_lines p line (sp_sv y)) (sp_lifecycle y) (sp_closer y))
| Child_eof p : step log_max_lines y (Serve (drain_eof p (sp_sv y)) (sp_lifecycle y) (sp_closer y)).
Definition reachable (log_max_lines : nat) (y : serve) : Prop := rtc (step log_max_lines) (Serve init None None) y.
End Supervisor.

(** ** No orphan and no false alarm *)
Import Supervisor.

(** The only live child is the one recorded, and a run shown as running or crashed
    was never sent a signal. *)
Record sup_ok (s : supervisor) : Prop := {
  sk_alive : forall p, alive s p = true -> sv_proc s = Some p;
  sk_next : forall p, is_Some (sv_children s !! p) -> (p < sv_next s)%nat;
  sk_honest : sv_state_of s = RUNNING \/ sv_state_of s = CRASHED ->
    exists p c, sv_proc s = Some p /\ sv_children s !! p = Some c /\ ch_signalled c = false;
}.
(** While a thread waits for [p], nothing else lives and the state says so. *)
Definition waiting s (p : nat) : Prop := forall q, alive s q = true -> q = p /\ sv_state_of s = STOPPING.
Definition tail (l : list instr) : Prop := l = [] \/ l = [IStart].
Definition code_ok s (l : list instr) : Prop :=
  match l with
  | [] | [IStart] => True
  | IStop :: t => tail t
  | ISignal p :: IWait q :: IFinish :: t => q = p /\ tail t /\ waiting s p
  | IWait p :: IFinish :: t => tail t /\ waiting s p
  | IFinish :: t => tail t /\ forall p, alive s p = false
  | _ => False
  end.
Definition quiet s : Prop := (forall p, alive s p = false) /\ sv_state_of s = STOPPED.
(** What other threads do to a waiting thread: nothing new lives, and the state of
    what still lives stays. *)
Definition calm s s' : Prop := forall p, alive s' p = true ->
  alive s p = true /\ (sv_state_of s = STOPPING -> sv_state_of s' = STOPPING).

Lemma alive_alter s f p q : (forall c, ch_alive (f c) = true -> ch_alive c = true) ->
  alive (set_children (alter f p (sv_children s)) s) q = true -> alive s q = true.
Proof.
  intros Hf. unfold alive. cbn. destruct (decide (q = p)) as [-> | Hne].
  - rewrite lookup_alter_eq. destruct (sv_children s !! p); [apply Hf | done].
  - by rewrite lookup_alter_ne.
Qed.
Lemma calm_code s s' l : calm s s' -> code_ok s l -> code_ok s' l.
Proof.
  intros Hc.
  assert (Hw : forall p, waiting s p -> waiting s' p).
  { intros p Hw q [Hq Hst]%Hc. destruct (Hw q Hq) as [-> ?]. auto. }
  assert (Hn : (forall p, alive s p = false) -> forall p, alive s' p = false).
  { intros Hn p. apply not_true_is_false. intros [Hp _]%Hc. by rewrite Hn in Hp. }
  destruct l as [| [| | p | p | |] [| [| | q | q | |] [| [] ?]]]; cbn; try tauto; naive_solver.
Qed.

(** Ageing a child keeps everything. *)
Lemma alter_ok s f p : (forall c, ch_alive (f c) = true -> ch_alive c = true) ->
  (forall c, sv_children s !! p = Some c -> ch_signalled (f c) = true ->
     ch_signalled c = true \/ (ch_alive c = true /\ sv_state_of s = STOPPING)) ->
  sup_ok s -> let s' := set_children (alter f p (sv_children s)) s in
  sup_ok s' /\ calm s s' /\ (quiet s -> quiet s').
Proof.
  intros Ha Hsig [H1 H2 H3] s'. assert (Hal : forall q, alive s' q = true -> alive s q = true) by (intros q; by apply alive_alter).
  split_and!.
  - split; cbn.
    + intros q Hq. by apply H1, Hal.
    + intros q. destruct (decide (q = p)) as [-> | Hne]; [rewrite lookup_alter_eq, fmap_is_Some | rewrite lookup_alter_ne by done]; apply H2.
    + intros Hst. destruct (H3 Hst) as (q & c & Hq & Hc & Hs). destruct (decide (q = p)) as [-> | Hne].
      * exists p, (f c). rewrite lookup_alter_eq, Hc. split_and!; [done | done |]. apply not_true_is_false. intros Ht.
        destruct (Hsig c Hc Ht) as [? | [_ ?]]; [congruence | destruct Hst; congruence].
      * exists q, c. by rewrite lookup_alter_ne.
  - intros q Hq. split; [by apply Hal | done].
  - intros [Hn Hst]. split; [| done]. intros q. apply not_true_is_false. intros Hq%Hal. by rewrite Hn in Hq.
Qed.
Lemma dead_when_not_live s p : sup_ok s -> proc_live s = false -> alive s p = false.
Proof.
  intros Hs Hl. apply not_true_is_false. intros Hp. pose proof (sk_alive s Hs p Hp) as Hq. unfold proc_live in Hl. rewrite Hq in Hl.
  congruence.
Qed.
Lemma stopped_ok s : sup_ok s -> (forall p, alive s p = false) -> sup_ok (stopped s) /\ quiet (stopped s).
Proof.
  intros [H1 H2 H3] Hn. split; [| by split]. split; cbn; [| done | by intros []].
  intros p Hp. change (alive s p = true) in Hp. by rewrite Hn in Hp.
Qed.
Lemma quiet_calm s s' : quiet s' -> calm s s'.
Proof. intros [Hn _] p Hp. by rewrite Hn in Hp. Qed.
Lemma set_state_ok st s : sup_ok s -> (st = RUNNING \/ st = CRASHED -> sv_state_of s = RUNNING) -> sup_ok (set_state st s).
Proof. intros [H1 H2 H3] Hst. split; cbn; [done | done |]. intros ?%Hst. apply H3. by left. Qed.
Lemma stop_begin_spec s : sup_ok s -> match stop_begin s with
  | (s', Some p) => s' = set_state STOPPING s /\ sup_ok s' /\ waiting s' p /\ calm s s' /\ alive s p = true
  | (s', None) => sup_ok s' /\ quiet s' /\ sv_closing s' = sv_closing s
  end.
Proof.
  intros Hs. unfold stop_begin. destruct (sv_proc s) as [p |] eqn:Ep; [destruct (alive s p) eqn:Ea |].
  - split_and!; [done | apply set_state_ok; [done | by intros []] | | |].
    + intros q Hq. change (alive s q = true) in Hq. apply (sk_alive s Hs) in Hq. rewrite Ep in Hq. by injection Hq as ->.
    + intros q Hq. by split.
    + done.
  - destruct (stopped_ok s Hs) as [? ?]; [| done]. intros q. apply dead_when_not_live; [done |]. unfold proc_live. by rewrite Ep.
  - destruct (stopped_ok s Hs) as [? ?]; [| done]. intros q. apply dead_when_not_live; [done |]. unfold proc_live. by rewrite Ep.
Qed.
Lemma sv_start_spec now ok s : sup_ok s -> let s' := (start now ok s).1 in
  sup_ok s' /\ sv_closing s' = sv_closing s /\ (sv_closing s = true -> s' = s).
Proof.
  intros Hs. cbn zeta. unfold start. destruct (sv_closing s) eqn:Ec; [done |]. destruct (proc_live s) eqn:El; [done |].
  assert (Hn : forall p, alive s p = false) by (intros p; by apply dead_when_not_live).
  destruct ok; cbn; (split_and!; [| done | done]); split; cbn.
  - intros p. unfold alive. cbn. destruct (decide (p = sv_next s)) as [-> | Hne]; [done |].
    rewrite lookup_insert_ne by done. intros Hp. change (alive s p = true) in Hp. by rewrite Hn in Hp.
  - intros p. destruct (decide (p = sv_next s)) as [-> | Hne]; [lia |]. rewrite lookup_insert_ne by done.
    intros ?%(sk_next s Hs). lia.
  - intros _. eexists _, _. split; [done |]. by rewrite lookup_insert_eq.
  - intros p Hp. change (alive s p = true) in Hp. by rewrite Hn in Hp.
  - apply (sk_next s Hs).
  - by intros [].
Qed.

Lemma exec_ok now ok late i l s s' l' : sup_ok s -> code_ok s (i :: l) -> exec now ok late i l s = Some (s', l') ->
  sup_ok s' /\ code_ok s' l' /\ (calm s s' \/ (sv_closing s = false /\ i = IStart)) /\
  (sv_closing s = true -> quiet s -> quiet s') /\ (l' = [] -> i = IStop \/ i = IFinish -> quiet s') /\
  sv_closing s' = sv_closing s.
Proof.
  intros Hs Hc. unfold exec. destruct i as [| | p | p | |].
  - destruct l; [| done]. destruct (sv_start_spec now ok s Hs) as (Hs' & Hcl & Hq). destruct (start now ok s) as [s1 b].
    cbn [fst] in *. intros [= <- <-]. split_and!; [done | by destruct b | | | naive_solver | done].
    + destruct (sv_closing s) eqn:E; [left; by rewrite (Hq eq_refl) | by right].
    + intros Hcs. by rewrite (Hq Hcs).
  - assert (Ht : tail l) by (destruct l as [| [] []]; cbn in Hc; by repeat (done || destruct Hc as [Hc | Hc])).
    pose proof (stop_begin_spec s Hs) as Hb. destruct (stop_begin s) as [s1 [p |]]; intros [= <- <-].
    + destruct Hb as (-> & Hs1 & Hw & Hcalm & Hp). split_and!; [done | done | by left | | done | done].
      intros _ [Hn _]. by rewrite Hn in Hp.
    + destruct Hb as (Hs1 & Hq & ->). split_and!; [done | | left; by apply quiet_calm | done | done | done].
      destruct Ht as [-> | ->]; done.
  - destruct l as [| [| | | q | |] [| [] l]]; try done. destruct Hc as (-> & Ht & Hw). intros [= <- <-].
    destruct (alter_ok s (fun c => Child (ch_alive c) (ch_signalled c || ch_alive c) (ch_eof c) (ch_log c)) p) as (H1 & H2 & H3);
      [done | | done |].
    + intros c Hp [? | ?]%orb_true_iff; [by left | right; split; [done |]]. destruct (Hw p); [| done]. unfold alive. by rewrite Hp.
    + split_and!; [done | | by left | done | done | done].
      by apply (calm_code s _ (IWait p :: IFinish :: l)).
  - destruct l as [| [] l]; try done. destruct Hc as (Ht & Hw). destruct (alive s p) eqn:Ea; [destruct late; [| done] |]; intros [= <- <-].
    + destruct (alter_ok s (fun c => Child false (ch_signalled c) (ch_eof c) (ch_log c)) p) as (H1 & H2 & H3);
        [done | naive_solver | done |].
      split_and!; [done | split; [done |] | by left | done | by intros _ [] | done].
      intros q. apply not_true_is_false. intros Hq. destruct (Hw q) as [-> _]; [by apply H2 |].
      revert Hq. unfold alive. cbn. rewrite lookup_alter_eq. by destruct (sv_children s !! p).
    + split_and!; [done | split; [done |] | by left; intros q | done | by intros _ [] | done].
      intros q. apply not_true_is_false. intros Hq. destruct (Hw q Hq) as [-> _]. congruence.
  - assert (Hn : tail l /\ forall p, alive s p = false) by by destruct l as [| [] []].
    destruct Hn as [Ht Hn]. intros [= <- <-]. destruct (stopped_ok s Hs Hn) as [H1 H2].
    split_and!; [done | by destruct Ht as [-> | ->] | left; by apply quiet_calm | done | done | done].
  - done.
Qed.

Definition life_ok (y : serve) : Prop :=
  match sp_lifecycle y with None => True | Some l => code_ok (sp_sv y) l end.
Definition closing_ok (s : supervisor) (l : list instr) : Prop :=
  sv_closing s = true /\ (IStart ∉ l) /\ code_ok s l /\ (l = [] -> quiet s).
Definition close_ok (y : serve) : Prop :=
  sp_closer y = None \/ sp_closer y = Some [IClose; IStop] \/ exists l, sp_closer y = Some l /\ closing_ok (sp_sv y) l.
Definition serve_ok (y : serve) : Prop := sup_ok (sp_sv y) /\ life_ok y /\ close_ok y.
Lemma life_calm y s' : life_ok y -> calm (sp_sv y) s' -> life_ok (Serve s' (sp_lifecycle y) (sp_closer y)).
Proof. unfold life_ok. cbn. destruct (sp_lifecycle y); [| done]. intros ??. by eapply calm_code. Qed.
Lemma closing_calm s s' l : closing_ok s l -> calm s s' -> (quiet s -> quiet s') -> sv_closing s' = sv_closing s -> closing_ok s' l.
Proof. intros (H1 & H2 & H3 & H4) Hc Hq Hcl. split_and!; [congruence | done | by eapply calm_code | auto]. Qed.

(** A step that leaves the threads alone and is calm. *)
Lemma calm_serve y s' : serve_ok y -> sup_ok s' -> calm (sp_sv y) s' ->
  (quiet (sp_sv y) -> quiet s') -> sv_closing s' = sv_closing (sp_sv y) ->
  serve_ok (Serve s' (sp_lifecycle y) (sp_closer y)).
Proof.
  intros (Hs & Hl & Hc) Hs' Hcalm Hq Hcl. split_and!; [done | by apply life_calm |].
  destruct Hc as [Hc | [Hc | (l & Hc & Hok)]]; [by left | by right; left | right; right].
  exists l. split; [done |]. by eapply closing_calm.
Qed.
Lemma request_admitted y : serve_ok y -> admit_lifecycle_request (in_flight y) (sp_sv y) = true ->
  sv_closing (sp_sv y) = false /\ sp_lifecycle y = None /\ (sp_closer y = None \/ sp_closer y = Some [IClose; IStop]).
Proof.
  intros (_ & _ & Hc) [Hcl Hf]%andb_true_iff. apply negb_true_iff in Hcl, Hf. apply bool_decide_eq_false in Hf.
  split_and!; [done | by apply eq_None_not_Some |]. destruct Hc as [Hc | [Hc | (l & _ & Hok & _)]]; [by left | by right | congruence].
Qed.
Lemma request_ok y s' t : serve_ok y -> admit_lifecycle_request (in_flight y) (sp_sv y) = true -> sup_ok s' ->
  match t with None | Some [IStart] | Some [IStop] | Some [IStop; IStart] => True | _ => False end ->
  serve_ok (spawned (sp_lifecycle y) (inr (s', t)) y).
Proof.
  intros Hy Ha Hs' Ht. destruct (request_admitted y Hy Ha) as (Hcl & Hl & Hc). destruct t as [t |]; cbn.
  - split_and!; [done | | by destruct Hc; [left | right; left]]. unfold life_ok. cbn.
    destruct t as [| [] [| [] []]]; try done; cbn; unfold tail; auto.
  - split_and!; [done | unfold life_ok; cbn; by rewrite Hl | by destruct Hc; [left | right; left]].
Qed.

(** Seeing that the child has ended. *)
Lemma crash_ok y : serve_ok y -> sv_state_of (sp_sv y) = RUNNING ->
  serve_ok (Serve (set_state CRASHED (sp_sv y)) (sp_lifecycle y) (sp_closer y)).
Proof.
  intros Hy Hr. pose proof Hy as (Hs & _). apply calm_serve; [done | by apply set_state_ok | | | done].
  - intros q Hq. split; [done |]. by rewrite Hr.
  - intros [_ ?]. congruence.
Qed.
Lemma exec_no_start now ok late i l s s' l' : IStart ∉ i :: l -> exec now ok late i l s = Some (s', l') -> IStart ∉ l'.
Proof.
  intros Hn. unfold exec. destruct i; [destruct (start now ok s) as [? []] | destruct (stop_begin s) as [? []] | | | |];
    try case_match; try case_match; intros; simplify_eq; set_solver.
Qed.
Lemma exec_ends now ok late i s s' l : code_ok s (i :: l) -> IStart ∉ i :: l ->
  exec now ok late i l s = Some (s', []) -> i = IStop \/ i = IFinish.
Proof.
  intros Hc Hn. destruct i; [set_solver | by left | | | by right | done].
  - destruct l as [| [] [| [] []]]; by cbn.
  - destruct l as [| [] []]; try done; cbn; case_match; try case_match; by intros.
Qed.

Lemma sv_step_ok n y y' : serve_ok y -> step n y y' -> serve_ok y'.
Proof.
  intros Hy Hst. pose proof Hy as (Hs & Hl & Hc).
  destruct Hst as [| | | now ok late i l s l' Hth Hex | Hth | Hcn | now ok late i l s l' Hth Hex | | p | p line | p].
  - unfold request_start. destruct (admit_lifecycle_request _ _) eqn:Ha; [| done]. cbn [negb].
    destruct (proc_live (sp_sv y)); [by apply request_ok |]. apply request_ok; [done | done | | done].
    apply set_state_ok; [done | by intros []].
  - unfold request_stop. destruct (admit_lifecycle_request _ _) eqn:Ha; [| done]. cbn [negb].
    destruct (proc_live (sp_sv y)) eqn:El; (apply request_ok; [done | done | | done]).
    + apply set_state_ok; [done | by intros []].
    + apply stopped_ok; [done |]. intros p. by apply dead_when_not_live.
  - unfold request_restart. destruct (admit_lifecycle_request _ _) eqn:Ha; [| done]. cbn [negb].
    apply request_ok; [done | done | | done]. apply set_state_ok; [done | by intros []].
  - unfold life_ok in Hl. rewrite Hth in Hl.
    destruct (exec_ok _ _ _ _ _ _ _ _ Hs Hl Hex) as (Hs' & Hc' & Hcalm & Hq & _ & Hcl). split_and!; [done | done |].
    destruct Hc as [Hc | [Hc | (c & Hc & Hok)]]; [by left | by right; left | right; right].
    exists c. split; [done |]. destruct Hcalm as [Hcalm | [Hf _]]; [| by destruct Hok; congruence].
    eapply closing_calm; [exact Hok | done | | done]. apply Hq, Hok.
  - split_and!; [done | done | exact Hc].
  - split_and!; [done | exact Hl | by right; left].
  - destruct Hc as [Hc | [Hc | (c & Hc & Hok)]]; rewrite Hth in Hc; [done | |].
    + injection Hc as -> ->. injection Hex as <- <-. split_and!; [by destruct Hs; split | |].
      * apply life_calm; [done | by intros q].
      * right; right. eexists. split; [done |]. split_and!; [done | set_solver | by left | done].
    + injection Hc as <-. destruct Hok as (H1 & H2 & H3 & _).
      destruct (exec_ok _ _ _ _ _ _ _ _ Hs H3 Hex) as (Hs' & Hc' & Hcalm & Hq & Hend & Hcl).
      destruct Hcalm as [Hcalm | [Hf _]]; [| congruence]. split_and!; [done | by apply life_calm |].
      right; right. eexists. split; [done |]. split_and!; [cbn; congruence | by eapply exec_no_start | done |].
      intros ->. apply Hend; [done |]. by eapply exec_ends.
  - unfold status. cbn [fst].
    destruct (bool_decide (sv_state_of (sp_sv y) = RUNNING) && _ && _) eqn:E; [| by destruct y].
    apply crash_ok; [done |]. by apply andb_true_iff in E as [[?%bool_decide_eq_true _]%andb_true_iff _].
  - destruct (alter_ok (sp_sv y) (fun c => Child false (ch_signalled c) (ch_eof c) (ch_log c)) p) as (H1 & H2 & H3);
      [done | naive_solver | done |]. by apply calm_serve.
  - destruct (alter_ok (sp_sv y) (fun c => Child (ch_alive c) (ch_signalled c) (ch_eof c)
      (let l := ch_log c ++ [line] in drop (length l - n) l)) p) as (H1 & H2 & H3); [done | naive_solver | done |].
    by apply calm_serve.
  - destruct (alter_ok (sp_sv y) (fun c => Child (ch_alive c) (ch_signalled c) true (ch_log c)) p) as (H1 & H2 & H3);
      [done | naive_solver | done |].
    pose proof (calm_serve y _ Hy H1 H2 H3 eq_refl) as Hy'. unfold drain_eof.
    destruct (bool_decide_reflect (sv_state_of (set_children (alter (fun c => Child (ch_alive c) (ch_signalled c) true (ch_log c)) p
      (sv_children (sp_sv y))) (sp_sv y)) = RUNNING)); [| done].
    case_match; [| done]. by apply (crash_ok (Serve _ (sp_lifecycle y) (sp_closer y))).
Qed.
Lemma sv_reachable_ok n y : reachable n y -> serve_ok y.
Proof.
  unfold reachable. intros Hr. remember (Serve init None None) as y0 eqn:E.
  assert (H0 : serve_ok y0).
  { subst. split_and!; [split | done | by left]; cbn; [done | intros p [? Hp]; by rewrite lookup_empty in Hp | by intros []]. }
  clear E. induction Hr as [| y1 y2 y3 Hst _ IH]; [done |]. apply IH. by eapply sv_step_ok.
Qed.

(** The lifespan's thread is never stuck, and has at most five instructions. *)
Definition instructions (l : list instr) : nat :=
  match l with [] => 0 | IClose :: _ => 5 | IStop :: _ => 4 | ISignal _ :: _ => 3 | IWait _ :: _ => 2 | _ => 1 end.
Lemma closer_runs n y i l : reachable n y -> sp_closer y = Some (i :: l) -> exists s l',
  step n y (Serve s (sp_lifecycle y) (Some l')) /\ (instructions l' < instructions (i :: l))%nat.
Proof.
  intros Hr%sv_reachable_ok Hc. destruct Hr as (Hs & _ & Hcl).
  enough (exists s l', exec 0 true true i l (sp_sv y) = Some (s, l') /\ (instructions l' < instructions (i :: l))%nat) as (s & l' & He & Hlt).
  { exists s, l'. split; [by eapply Closing | done]. }
  destruct Hcl as [Hcl | [Hcl | (c & Hcl & _ & Hn & Hok & _)]]; rewrite Hcl in Hc; [done | |].
  - injection Hc as <- <-. eexists _, _. split; [reflexivity | cbn; lia].
  - injection Hc as ->. destruct i; [set_solver | | | | | done]; cbn [exec].
    + assert (tail l) as Ht by by destruct l as [| [] []]. destruct Ht as [-> | ->]; [| set_solver].
      destruct (stop_begin (sp_sv y)) as [? []]; eexists _, _; (split; [reflexivity | cbn; lia]).
    + destruct l as [| [] [| [] l]]; try done. eexists _, _. split; [reflexivity | cbn; lia].
    + destruct l as [| [] l]; try done. destruct (alive _ _); eexists _, _; (split; [reflexivity | cbn; lia]).
    + assert (tail l) as Ht by (cbn in Hok; destruct l as [| [] []]; by destruct Hok || done). destruct Ht as [-> | ->]; [| set_solver]. eexists _, _. split; [reflexivity | cbn; lia].
Qed.

(** C33: However requests, the lifecycle thread, the exit of the child, its reader and
    the shutdown of the server interleave: at most one child is alive, and it is the
    recorded one; a run shown as running or crashed was never signalled, so a stop is
    not misread as a crash; and once close() has returned no child is alive and the
    state is "stopped", whatever the other threads still do. *)
Theorem no_child_outlives_close n y : reachable n y ->
  (forall p q, alive (sp_sv y) p = true -> alive (sp_sv y) q = true -> p = q /\ sv_proc (sp_sv y) = Some p) /\
  (sv_state_of (sp_sv y) = RUNNING \/ sv_state_of (sp_sv y) = CRASHED ->
     exists p c, sv_proc (sp_sv y) = Some p /\ sv_children (sp_sv y) !! p = Some c /\ ch_signalled c = false) /\
  (sp_closer y = Some [] -> forall y', rtc (step n) y y' ->
     sv_state_of (sp_sv y') = STOPPED /\ forall p, alive (sp_sv y') p = false).
Proof.
  intros Hr. pose proof (sv_reachable_ok n y Hr) as (Hs & _). split_and!.
  - intros p q Hp%(sk_alive _ Hs) Hq%(sk_alive _ Hs). split; [congruence | done].
  - apply (sk_honest _ Hs).
  - intros Hc y' Hyy'. assert (Hr' : reachable n y') by (unfold reachable in *; by etrans).
    assert (Hc' : sp_closer y' = Some []).
    { clear Hr Hr' Hs. induction Hyy' as [| y1 y2 y3 Hst _ IH]; [done |]. apply IH. clear IH.
      destruct Hst; cbn; try congruence; unfold spawned; by repeat case_match. }
    destruct (sv_reachable_ok n y' Hr') as (_ & _ & [H | [H | (l & H & _ & _ & _ & Hq)]]); [congruence.. |].
    destruct Hq as [? ?]; [congruence | done].
Qed.

(** ** A shutdown during a restart *)
Module Example_supervisor.
Definition run1 : serve := Serve (start 10 true init).1 None None.
Lemma run1_reachable : reachable 5 run1.
Proof.
  eapply rtc_l; [exact (Request_start 5 _) |]. eapply rtc_l; [by eapply (Lifecycle 5 _ 10 true false IStart []) |].
  eapply rtc_l; [by apply Lifecycle_exit |]. apply rtc_refl.
Qed.
(** A restart is asked for and has signalled the child when the server closes. *)
Definition closed : serve :=
  Serve (MkSupervisor STOPPED None None true (Some 0%nat) (<[0%nat := Child false true false []]> ∅) 1) (Some [IStart]) (Some []).
Lemma closed_reachable : reachable 5 closed.
Proof.
  unfold reachable. etrans; [exact run1_reachable |].
  eapply rtc_l; [exact (Request_restart 5 _) |].
  eapply rtc_l; [by eapply (Lifecycle 5 _ 11 true false IStop) |].
  eapply rtc_l; [by eapply (Lifecycle 5 _ 11 true false (ISignal 0)) |].
  eapply rtc_l; [by apply Close |].
  eapply rtc_l; [by eapply (Closing 5 _ 12 true false IClose) |].
  eapply rtc_l; [by eapply (Closing 5 _ 12 true false IStop) |].
  eapply rtc_l; [by eapply (Closing 5 _ 12 true false (ISignal 0)) |].
  eapply rtc_l; [by apply (Child_exit 5 _ 0) |].
  eapply rtc_l; [by eapply (Closing 5 _ 13 true false (IWait 0)) |].
  eapply rtc_l; [by eapply (Closing 5 _ 13 true false IFinish) |].
  eapply rtc_l; [by eapply (Lifecycle 5 _ 13 true false (IWait 0)) |].
  eapply rtc_l; [by eapply (Lifecycle 5 _ 13 true false IFinish) |].
  match goal with |- rtc _ ?a ?b => replace a with b by (by vm_compute) end. apply rtc_refl.
Qed.
(** The start that the restart had still to do finds the supervisor closed. *)
Definition late_start : serve := Serve (start 14 true (sp_sv closed)).1 (Some []) (Some []).
Lemma no_child_outlives_close_witness :
  step 5 closed late_start /\ sv_state_of (sp_sv late_start) = STOPPED /\ forall p, alive (sp_sv late_start) p = false.
Proof.
  assert (Hst : step 5 closed late_start) by exact (Lifecycle 5 closed 14 true false IStart [] _ [] eq_refl eq_refl).
  split; [exact Hst |].
  exact (proj2 (proj2 (no_child_outlives_close 5 closed closed_reachable)) eq_refl late_start (rtc_once _ _ Hst)).
Defined.

(** A spawn that fails leaves the state at "starting" with nothing under way. *)
Definition failed_start : serve := Serve (start 10 false (set_state STARTING init)).1 None None.
Lemma failed_spawn_reports_starting :
  reachable 5 failed_start /\ (status (sp_sv failed_start)).2 = (STARTING, None, None).
Proof.
  split; [| done]. eapply rtc_l; [exact (Request_start 5 _) |].
  eapply rtc_l; [by eapply (Lifecycle 5 _ 10 false false IStart []) |]. by apply rtc_once, Lifecycle_exit.
Qed.
End Example_supervisor.
