(* ===== verification/JsonText.v ===== *)
(** * Python's [json.dumps] and [json.loads]

    The encoder in the layouts the program uses and CPython's decoder, over the
    values of [Json].  [float()] of a JSON number is an interface, floats are not
    encoded, and the recursion limit is left out. *)
From S2P Require Import Prelude PyStr Base64 Errors Score Odict PySort Json Query Utf8.

(** [float(text)] *)
Class PyFloatText := { parse_float : pystr -> float }.

Module Json_text.

(** ** Encoding *)

(** [dumps(indent=..., separators=..., ensure_ascii=..., sort_keys=...)] *)
Record layout := Layout { ly_indent : option nat; ly_item : pystr; ly_key : pystr; ly_ascii : bool; ly_sort : bool }.
Definition hex4 (n : Z) : pystr :=
  [Hex.digit (n / 4096); Hex.digit (n / 256 mod 16); Hex.digit (n / 16 mod 16); Hex.digit (n mod 16)].
(** One character between the quotes. *)
Definition escape_char (ascii : bool) (c : Z) : pystr :=
  if c =? 34 then [92; 34] else if c =? 92 then [92; 92]
  else if c =? 10 then [92; 110] else if c =? 13 then [92; 114] else if c =? 9 then [92; 116]
  else if c =? 12 then [92; 102] else if c =? 8 then [92; 98]
  else if c <? 32 then 92 :: 117 :: hex4 c
  else if negb ascii || ((32 <=? c) && (c <=? 126)) then [c]
  else if c <? 65536 then 92 :: 117 :: hex4 c
  else let n := c - 65536 in (92 :: 117 :: hex4 (55296 + n / 1024)) ++ (92 :: 117 :: hex4 (56320 + n mod 1024)).
Definition dumps_str (ascii : bool) (s : pystr) : pystr := 34 :: flat_map (escape_char ascii) s ++ [34].
Definition newline (ly : layout) (level : nat) : pystr :=
  match ly_indent ly with Some n => 10 :: replicate (n * level) 32 | None => [] end.
(** Strings compare by code point. *)
Fixpoint str_lt (a b : pystr) : bool :=
  match a, b with
  | _, [] => false
  | [], _ :: _ => true
  | x :: a, y :: b => (x <? y) || ((x =? y) && str_lt a b)
  end.
(** [sort_keys=True] *)
Fixpoint sorted_keys (j : json) : json :=
  match j with
  | JArr l => JArr (map sorted_keys l)
  | JObj o => JObj (py_sorted (fun a b => str_lt a.1 b.1) (map (fun e => (e.1, sorted_keys e.2)) o))
  | _ => j
  end.
Definition block (ly : layout) (level : nat) (open close : Z) (items : list pystr) : pystr :=
  match items with
  | [] => [open; close]
  | _ => open :: newline ly (S level) ++ join (ly_item ly ++ newline ly (S level)) items ++ newline ly level ++ [close]
  end.
Fixpoint dumps_at (ly : layout) (level : nat) (j : json) : pystr :=
  match j with
  | JNull => lit "null"
  | JBool b => if b then lit "true" else lit "false"
  | JInt n => str_int n
  | JFloat _ => []                                   (* not encoded *)
  | JStr s => dumps_str (ly_ascii ly) s
  | JArr l => block ly level 91 93 (map (dumps_at ly (S level)) l)
  | JObj o => block ly level 123 125
      (map (fun e => dumps_str (ly_ascii ly) e.1 ++ ly_key ly ++ dumps_at ly (S level) e.2) o)
  end.
Definition dumps (ly : layout) (j : json) : pystr := dumps_at ly 0 (if ly_sort ly then sorted_keys j else j).

(** ** Decoding *)

Definition is_ws (c : Z) : bool := (c =? 32) || (c =? 9) || (c =? 10) || (c =? 13).
Definition skip : pystr -> pystr := drop_while is_ws.
Definition unhex4 (a b c d : Z) : option Z :=
  match Hex.nibble a, Hex.nibble b, Hex.nibble c, Hex.nibble d with
  | Some a, Some b, Some c, Some d => Some (a * 4096 + b * 256 + c * 16 + d)
  | _, _, _, _ => None
  end.
Definition is_high (c : Z) : bool := (55296 <=? c) && (c <=? 56319).
Definition is_low (c : Z) : bool := (56320 <=? c) && (c <=? 57343).
Definition simple_escape (c : Z) : option Z :=
  if c =? 34 then Some 34 else if c =? 92 then Some 92 else if c =? 47 then Some 47
  else if c =? 98 then Some 8 else if c =? 102 then Some 12 else if c =? 110 then Some 10
  else if c =? 114 then Some 13 else if c =? 116 then Some 9 else None.
Definition put (c : Z) (r : option (pystr * pystr)) : option (pystr * pystr) :=
  match r with Some (v, rest) => Some (c :: v, rest) | None => None end.
(** The C [scanstring], after the opening quote. *)
Fixpoint scan_string (s : pystr) : option (pystr * pystr) :=
  match s with
  | [] => None
  | c :: s =>
      if c =? 34 then Some ([], s)
      else if c <? 32 then None
      else if negb (c =? 92) then put c (scan_string s)
      else match s with
           | 117 :: a :: b :: x :: d :: s =>
               match unhex4 a b x d with
               | None => None
               | Some n =>
                   if is_high n then
                     match s with
                     | 92 :: 117 :: a2 :: b2 :: x2 :: d2 :: s2 =>
                         match unhex4 a2 b2 x2 d2 with
                         | None => None
                         | Some n2 => if is_low n2 then put (65536 + (n - 55296) * 1024 + (n2 - 56320)) (scan_string s2)
                                      else put n (scan_string s)
                         end
                     | _ => put n (scan_string s)
                     end
                   else put n (scan_string s)
               end
           | e :: s => match simple_escape e with Some c => put c (scan_string s) | None => None end
           | [] => None
           end
  end.

Section loads.
Context `{PyFloatText}.

Fixpoint take_while (p : Z -> bool) (s : pystr) : pystr :=
  match s with c :: s => if p c then c :: take_while p s else [] | [] => [] end.
Definition digits (s : pystr) : pystr * pystr := (take_while is_digit_char s, drop_while is_digit_char s).
Definition scan_frac (s : pystr) : pystr * pystr :=
  match s with
  | c :: r => if c =? 46 then match digits r with ([], _) => ([], s) | (ds, r) => (46 :: ds, r) end else ([], s)
  | [] => ([], s)
  end.
Definition scan_exp (s : pystr) : pystr * pystr :=
  match s with
  | e :: r =>
      if (e =? 101) || (e =? 69) then
        let '(sign, r) := match r with c :: r' => if (c =? 43) || (c =? 45) then ([c], r') else ([], r) | [] => ([], r) end in
        match digits r with ([], _) => ([], s) | (ds, r) => (e :: sign ++ ds, r) end
      else ([], s)
  | [] => ([], s)
  end.
(** [NUMBER_RE]: sign, digits without a leading zero, fraction, exponent; an
    integer of too many digits is a ValueError. *)
Definition sign_part (s : pystr) : bool * pystr :=
  match s with c :: r => if c =? 45 then (true, r) else (false, s) | [] => (false, s) end.
Definition int_part (s : pystr) : option (pystr * pystr) :=
  match s with
  | c :: r => if c =? 48 then Some ([48], r) else if is_digit_char c then Some (digits s) else None
  | [] => None
  end.
Definition number_of (neg : bool) (ds r : pystr) : option (json * pystr) :=
  let '(f, r) := scan_frac r in
  let '(x, r) := scan_exp r in
  match f ++ x with
  | [] => if (INT_MAX_STR_DIGITS <? length ds)%nat then None
          else Some (JInt (if neg then - dec_value ds else dec_value ds), r)
  | _ => Some (JFloat (parse_float ((if neg then [45] else []) ++ ds ++ f ++ x)), r)
  end.
Definition scan_number (s : pystr) : option (json * pystr) :=
  let '(neg, r) := sign_part s in
  match int_part r with Some (ds, r) => number_of neg ds r | None => None end.

Inductive scanned (A : Type) := Got (a : A) (rest : pystr) | Bad | Stuck.
#[global] Arguments Got {A}. #[global] Arguments Bad {A}. #[global] Arguments Stuck {A}.
Definition of_option {A} (o : option (A * pystr)) : scanned A := match o with Some (a, r) => Got a r | None => Bad end.
Definition literal (s word : pystr) (j : json) : scanned json :=
  if startswith s word then Got j (drop (length word) s) else Bad.
Definition scan_atom (s : pystr) : scanned json :=
  match s with
  | [] => Bad
  | c :: _ =>
      if c =? 110 then literal s (lit "null") JNull
      else if c =? 116 then literal s (lit "true") (JBool true)
      else if c =? 102 then literal s (lit "false") (JBool false)
      else if c =? 78 then literal s (lit "NaN") (JFloat S754_nan)
      else if c =? 73 then literal s (lit "Infinity") (JFloat (S754_infinity false))
      else match of_option (scan_number s) with
           | Got j r => Got j r
           | _ => if startswith s (lit "-Infinity") then Got (JFloat (S754_infinity true)) (drop 9 s) else Bad
           end
  end.
(** The next character, when it is [c]. *)
Definition eat (c : Z) (s : pystr) : option pystr := match s with x :: r => if x =? c then Some r else None | [] => None end.
Definition lift {A B} (f : A -> B) (x : scanned A) : scanned B := match x with Got a r => Got (f a) r | Bad => Bad | Stuck => Stuck end.
Definition bind {A B} (x : scanned A) (k : A -> pystr -> scanned B) : scanned B := match x with Got a r => k a r | Bad => Bad | Stuck => Stuck end.
(** [dict(pairs)] *)
Definition object (l : list (pystr * json)) : json := JObj (foldl (fun o e => od_set e.1 e.2 o) [] l).
(** A value; the elements of an array from its first; the members of an object
    from the first key.  [Stuck] is fuel running out. *)
Fixpoint scan (fuel : nat) (s : pystr) : scanned json :=
  match fuel with
  | O => Stuck
  | S fuel =>
      match s with
      | [] => Bad
      | c :: r =>
          if c =? 34 then lift JStr (of_option (scan_string r))
          else if c =? 91 then
            match eat 93 (skip r) with Some r => Got (JArr []) r | None => lift JArr (scan_elems fuel (skip r)) end
          else if c =? 123 then
            match eat 125 (skip r) with Some r => Got (JObj []) r | None => lift object (scan_members fuel (skip r)) end
          else scan_atom s
      end
  end
with scan_elems (fuel : nat) (s : pystr) : scanned (list json) :=
  match fuel with
  | O => Stuck
  | S fuel =>
      bind (scan fuel s) (fun j r =>
        match eat 93 (skip r), eat 44 (skip r) with
        | Some r, _ => Got [j] r
        | None, Some r => lift (cons j) (scan_elems fuel (skip r))
        | None, None => Bad
        end)
  end
with scan_members (fuel : nat) (s : pystr) : scanned (list (pystr * json)) :=
  match fuel with
  | O => Stuck
  | S fuel =>
      match eat 34 s with
      | None => Bad
      | Some r =>
          bind (of_option (scan_string r)) (fun k r =>
            match eat 58 (skip r) with
            | None => Bad
            | Some r =>
                bind (scan fuel (skip r)) (fun j r =>
                  match eat 125 (skip r), eat 44 (skip r) with
                  | Some r, _ => Got [(k, j)] r
                  | None, Some r => lift (cons (k, j)) (scan_members fuel (skip r))
                  | None, None => Bad
                  end)
            end)
      end
  end.
Definition scan_fuel (s : pystr) : nat := S (2 * length s).
(** [loads]; [None] is a ValueError. *)
Definition loads (s : pystr) : option json :=
  if bool_decide (head s = Some 65279) then None     (* a byte order mark *)
  else match scan (scan_fuel (skip s)) (skip s) with
       | Got j r => match skip r with [] => Some j | _ => None end
       | _ => None
       end.
End loads.
(** [j == n], false for strings and containers; [True] is 1 and [1.0] is 1. *)
Definition equals_int (n : Z) (j : json) : bool :=
  match j with
  | JInt m => m =? n
  | JBool b => Z.b2z b =? n
  | JFloat x => feq x (float_of_int n)
  | _ => false
  end.

(** ** Bytes for [loads]: [json.detect_encoding], then [decode(encoding, "surrogatepass")] *)

Inductive encoding := Utf8 | Utf8_sig | Utf16_be | Utf16_le | Utf32_be | Utf32_le.
(** With what is left to decode: the codecs [utf-16] and [utf-32] drop their mark. *)
Definition detect_encoding (b : list Z) : encoding * list Z :=
  match b with
  | 0 :: 0 :: 254 :: 255 :: r => (Utf32_be, r)
  | 255 :: 254 :: 0 :: 0 :: r => (Utf32_le, r)
  | 254 :: 255 :: r => (Utf16_be, r)
  | 255 :: 254 :: r => (Utf16_le, r)
  | 239 :: 187 :: 191 :: r => (Utf8_sig, r)
  | b0 :: b1 :: b2 :: b3 :: _ =>
      (if b0 =? 0 then (if b1 =? 0 then Utf32_be else Utf16_be)
       else if b1 =? 0 then (if (b2 =? 0) && (b3 =? 0) then Utf32_le else Utf16_le)
       else Utf8, b)
  | [b0; b1] => (if b0 =? 0 then Utf16_be else if b1 =? 0 then Utf16_le else Utf8, b)
  | _ => (Utf8, b)
  end.
(** UTF-8 in which a surrogate may stand in its three-byte form. *)
Fixpoint utf8_surrogatepass (bs : list Z) : option pystr :=
  match bs with
  | [] => Some []
  | b0 :: r =>
      if b0 <? 128 then cons b0 <$> utf8_surrogatepass r
      else
        match r with
        | b1 :: r =>
            if in_range 194 223 b0 && continuation b1
            then cons ((b0 - 192) * 64 + (b1 - 128)) <$> utf8_surrogatepass r
            else
              match r with
              | b2 :: r =>
                  if in_range 224 239 b0 && (if b0 =? 224 then in_range 160 191 b1 else continuation b1) && continuation b2
                  then cons ((b0 - 224) * 4096 + (b1 - 128) * 64 + (b2 - 128)) <$> utf8_surrogatepass r
                  else
                    match r with
                    | b3 :: r =>
                        if in_range 240 244 b0 && second_of_four b0 b1 && continuation b2 && continuation b3
                        then cons ((b0 - 240) * 262144 + (b1 - 128) * 4096 + (b2 - 128) * 64 + (b3 - 128)) <$> utf8_surrogatepass r
                        else None
                    | [] => None
                    end
              | [] => None
              end
        | [] => None
        end
  end.
Fixpoint units16 (be : bool) (bs : list Z) : option (list Z) :=
  match bs with
  | [] => Some []
  | a :: b :: r => cons (if be then a * 256 + b else b * 256 + a) <$> units16 be r
  | _ => None
  end.
Fixpoint join_units (us : list Z) : pystr :=
  match us with
  | [] => []
  | u :: us =>
      match us with
      | v :: r => if in_range 55296 56319 u && in_range 56320 57343 v
                  then 65536 + (u - 55296) * 1024 + (v - 56320) :: join_units r
                  else u :: join_units us
      | [] => [u]
      end
  end.
Fixpoint utf32 (be : bool) (bs : list Z) : option pystr :=
  match bs with
  | [] => Some []
  | a :: b :: c :: d :: r =>
      let n := if be then ((a * 256 + b) * 256 + c) * 256 + d else ((d * 256 + c) * 256 + b) * 256 + a in
      if n <? 1114112 then cons n <$> utf32 be r else None
  | _ => None
  end.
Definition json_text (b : list Z) : option pystr :=
  match detect_encoding b with
  | (Utf8, r) | (Utf8_sig, r) => utf8_surrogatepass r
  | (Utf16_be, r) => join_units <$> units16 true r
  | (Utf16_le, r) => join_units <$> units16 false r
  | (Utf32_be, r) => utf32 true r
  | (Utf32_le, r) => utf32 false r
  end.
End Json_text.
