(* ===== verification/JsonTextFacts.v ===== *)
(** * What is encoded is decoded *)
From S2P Require Import Prelude PyStr Base64 Errors Score Odict PySort Json Query Utf8 JsonText.
Import Json_text.

#[local] Ltac Zify.zify_post_hook ::= Z.to_euclidean_division_equations.

(** A value that is encoded and decoded without loss: no floats, integers Python
    converts, characters other than surrogates, distinct keys. *)
Definition plain (s : pystr) : Prop := Forall (fun c => code_point c /\ Query.is_surrogate c = false) s.
Fixpoint json_ok (j : json) : Prop :=
  match j with
  | JFloat _ => False
  | JInt n => (length (str_int (Z.abs n)) <= INT_MAX_STR_DIGITS)%nat
  | JStr s => plain s
  | JArr l => foldr (fun e P => json_ok e /\ P) True l
  | JObj o => NoDup o.*1 /\ foldr (fun e P => (plain e.1 /\ json_ok e.2) /\ P) True o
  | _ => True
  end.
Definition layout_ok (ly : layout) : Prop :=
  exists wi wk, ly_item ly = 44 :: wi /\ ly_key ly = 58 :: wk /\ Forall (fun c => is_ws c = true) wi /\ Forall (fun c => is_ws c = true) wk.

(** ** Strings *)

Lemma unhex4_hex4 n : 0 <= n < 65536 -> exists a b c d, hex4 n = [a; b; c; d] /\ unhex4 a b c d = Some n.
Proof.
  intros Hn. unfold hex4. eexists _, _, _, _. split; [done |]. unfold unhex4.
  rewrite !Hex.nibble_digit by lia. f_equal. lia.
Qed.
Lemma scan_string_u a b x d s n : unhex4 a b x d = Some n -> is_high n = false ->
  scan_string (92 :: 117 :: a :: b :: x :: d :: s) = put n (scan_string s).
Proof.
  intros Hu Hh. change (scan_string (92 :: 117 :: a :: b :: x :: d :: s)) with
    (match unhex4 a b x d with
     | None => None
     | Some n => if is_high n then
         match s with
         | 92 :: 117 :: a2 :: b2 :: x2 :: d2 :: s2 =>
             match unhex4 a2 b2 x2 d2 with
             | None => None
             | Some n2 => if is_low n2 then put (65536 + (n - 55296) * 1024 + (n2 - 56320)) (scan_string s2) else put n (scan_string s)
             end
         | _ => put n (scan_string s)
         end
       else put n (scan_string s)
     end). by rewrite Hu, Hh.
Qed.
Lemma scan_string_pair a b x d n a2 b2 x2 d2 n2 s : unhex4 a b x d = Some n -> is_high n = true ->
  unhex4 a2 b2 x2 d2 = Some n2 -> is_low n2 = true ->
  scan_string (92 :: 117 :: a :: b :: x :: d :: 92 :: 117 :: a2 :: b2 :: x2 :: d2 :: s) =
  put (65536 + (n - 55296) * 1024 + (n2 - 56320)) (scan_string s).
Proof.
  intros Hu Hh Hu2 Hl. change (scan_string (92 :: 117 :: a :: b :: x :: d :: 92 :: 117 :: a2 :: b2 :: x2 :: d2 :: s)) with
    (match unhex4 a b x d with
     | None => None
     | Some n => if is_high n then
         match unhex4 a2 b2 x2 d2 with
         | None => None
         | Some n2 => if is_low n2 then put (65536 + (n - 55296) * 1024 + (n2 - 56320)) (scan_string s)
                      else put n (scan_string (92 :: 117 :: a2 :: b2 :: x2 :: d2 :: s))
         end
       else put n (scan_string (92 :: 117 :: a2 :: b2 :: x2 :: d2 :: s))
     end). by rewrite Hu, Hh, Hu2, Hl.
Qed.
Lemma scan_u n t : 0 <= n < 65536 -> is_high n = false -> scan_string ((92 :: 117 :: hex4 n) ++ t) = put n (scan_string t).
Proof.
  intros Hn Hh. destruct (unhex4_hex4 n Hn) as (a & b & c & d & -> & Hu). by apply scan_string_u.
Qed.
Lemma scan_pair h l t : is_high h = true -> is_low l = true ->
  scan_string (((92 :: 117 :: hex4 h) ++ (92 :: 117 :: hex4 l)) ++ t) = put (65536 + (h - 55296) * 1024 + (l - 56320)) (scan_string t).
Proof.
  intros Hh Hl. assert (0 <= h < 65536 /\ 0 <= l < 65536) as [H1 H2] by (unfold is_high, is_low in *; zb_simpl; lia).
  destruct (unhex4_hex4 h H1) as (a & b & c & d & -> & Hu), (unhex4_hex4 l H2) as (a2 & b2 & c2 & d2 & -> & Hu2).
  by apply scan_string_pair.
Qed.
Lemma scan_plain c t : c <> 34 -> 32 <= c -> c <> 92 -> scan_string (c :: t) = put c (scan_string t).
Proof.
  intros H1 H2 H3.
  cbn [scan_string]. by rewrite (proj2 (Z.eqb_neq c 34)), (proj2 (Z.ltb_ge c 32)), (proj2 (Z.eqb_neq c 92)) by done.
Qed.
Lemma scan_escape ascii c t : code_point c -> Query.is_surrogate c = false ->
  scan_string (escape_char ascii c ++ t) = put c (scan_string t).
Proof.
  intros Hc Hs. unfold escape_char, code_point, Query.is_surrogate in *.
  assert (Hh : is_high c = false) by (unfold is_high; apply andb_false_iff in Hs; zb_simpl; destruct Hs; zb_simpl; zb).
  clear Hs.
  repeat match goal with |- context [if ?b then _ else _] => destruct b eqn:? end; zb_simpl; subst; try reflexivity.
  - apply scan_u; [lia | done].
  - by apply scan_plain.
  - apply scan_u; [lia | done].
  - rewrite scan_pair; [| unfold is_high; zb | unfold is_low; zb]. f_equal. lia.
Qed.
Lemma scan_dumps_str ascii s rest : plain s -> scan_string (flat_map (escape_char ascii) s ++ 34 :: rest) = Some (s, rest).
Proof.
  induction 1 as [| c s [Hc Hs] _ IH]; [done |]. cbn [flat_map]. rewrite <- app_assoc, scan_escape by done. by rewrite IH.
Qed.

(** ** Numbers *)

(** What may follow an integer without changing it. *)
Definition stops (rest : pystr) : Prop :=
  match rest with c :: _ => is_digit_char c = false /\ c <> 46 /\ c <> 101 /\ c <> 69 | [] => True end.
Lemma digits_app ds rest : forallb is_digit_char ds = true -> match rest with c :: _ => is_digit_char c = false | [] => True end ->
  digits (ds ++ rest) = (ds, rest).
Proof.
  intros Hd Hr. unfold digits. induction ds as [| c ds IH]; cbn [app] in *.
  - destruct rest as [| c rest]; [done |]. cbn. by rewrite Hr.
  - cbn in Hd. apply andb_true_iff in Hd as [Hc Hd]. cbn. rewrite Hc. specialize (IH Hd). injection IH as -> ->. done.
Qed.
(** No leading zero. *)
Lemma dec_digits_lead fuel n acc : 0 < n -> n < 2 ^ Z.of_nat fuel -> exists c ds, dec_digits fuel n acc = c :: ds /\ c <> 48.
Proof.
  revert n acc. induction fuel as [| fuel IH]; intros n acc Hn Hlt; [cbn in Hlt; lia |]. cbn [dec_digits].
  destruct (Z.ltb_spec n 10) as [Hs | Hs].
  - eexists _, _. split; [done |]. lia.
  - apply IH; [lia |]. replace (Z.of_nat (S fuel)) with (Z.of_nat fuel + 1) in Hlt by lia. rewrite Z.pow_add_r in Hlt by lia. lia.
Qed.
Lemma str_int_lead n : 0 < n -> exists c ds, str_int n = c :: ds /\ is_digit_char c = true /\ c <> 48.
Proof.
  intros Hn. destruct (dec_digits_lead (dec_fuel n) n []) as (c & ds & Heq & Hc); [done | |].
  { unfold dec_fuel. replace (Z.of_nat (S (Z.to_nat (Z.log2 n)))) with (Z.succ (Z.log2 n)) by (pose proof (Z.log2_nonneg n); lia).
    apply Z.log2_spec. lia. }
  assert (Hs : str_int n = c :: ds) by (unfold str_int; by rewrite (proj2 (Z.ltb_ge n 0)) by lia). exists c, ds. split_and!; [done | | done].
  assert (48 <= c <= 57) by (apply (str_int_digit n); [lia | rewrite Hs; by left]). unfold is_digit_char. zb.
Qed.

Section loads.
Context `{PyFloatText}.

Lemma scan_no_frac rest : stops rest -> scan_frac rest = ([], rest).
Proof. destruct rest as [| c rest]; [done |]. intros (_ & Hc & _). unfold scan_frac. by rewrite (proj2 (Z.eqb_neq c 46)). Qed.
Lemma scan_no_exp rest : stops rest -> scan_exp rest = ([], rest).
Proof.
  destruct rest as [| c rest]; [done |]. intros (_ & _ & H1 & H2). unfold scan_exp.
  by rewrite (proj2 (Z.eqb_neq c 101)), (proj2 (Z.eqb_neq c 69)) by done.
Qed.
(** The integer part of a printed natural number. *)
Lemma int_part_spec n rest : 0 <= n -> stops rest -> int_part (str_int n ++ rest) = Some (str_int n, rest).
Proof.
  intros Hn Hr. destruct (Z.eq_dec n 0) as [-> | Hne]; [done |].
  assert (Hd : digits (str_int n ++ rest) = (str_int n, rest)).
  { destruct (str_int_spec n Hn) as (Hd & _). apply digits_app; [destruct (str_int n); [done | exact Hd] |].
    destruct rest; [done |]. apply Hr. }
  destruct (str_int_lead n) as (c & ds & Heq & Hc & H48); [lia |]. rewrite Heq in Hd |- *. cbn [app int_part] in *.
  by rewrite (proj2 (Z.eqb_neq c 48)), Hc, Hd.
Qed.
Lemma number_of_spec neg n rest : 0 <= n -> (length (str_int n) <= INT_MAX_STR_DIGITS)%nat -> stops rest ->
  number_of neg (str_int n) rest = Some (JInt (if neg then - n else n), rest).
Proof.
  intros Hn Hl Hr. unfold number_of. rewrite scan_no_frac, scan_no_exp by done. cbn [app].
  destruct (str_int_spec n Hn) as (_ & -> & _). by rewrite (proj2 (Nat.ltb_ge _ _) Hl).
Qed.
Lemma scan_number_int n rest : (length (str_int (Z.abs n)) <= INT_MAX_STR_DIGITS)%nat -> stops rest ->
  scan_number (str_int n ++ rest) = Some (JInt n, rest).
Proof.
  intros Hl Hr. unfold scan_number. destruct (Z.ltb_spec n 0) as [Hn | Hn].
  - assert (str_int n = 45 :: str_int (- n)) as ->.
    { unfold str_int. rewrite (proj2 (Z.ltb_lt n 0)), (proj2 (Z.ltb_ge (- n) 0)) by lia. done. }
    cbn [app sign_part Z.eqb Pos.eqb]. rewrite int_part_spec by (done || lia).
    replace (Z.abs n) with (- n) in Hl by lia. rewrite number_of_spec by (done || lia). do 3 f_equal. lia.
  - replace (Z.abs n) with n in Hl by lia.
    assert (sign_part (str_int n ++ rest) = (false, str_int n ++ rest)) as ->.
    { destruct (str_int_spec n Hn) as (Hd & _). destruct (str_int n) as [| c ds] eqn:E; [done |]. cbn.
      assert (48 <= c <= 57) by (apply (str_int_digit n); [lia | rewrite E; by left]).
      by rewrite (proj2 (Z.eqb_neq c 45)) by lia. }
    rewrite int_part_spec by done. by rewrite number_of_spec.
Qed.
End loads.

(** ** Values *)
Section values.
Context `{PyFloatText}.

Definition scans (s : pystr) (j : json) (rest : pystr) : Prop := exists f, forall f', (f <= f')%nat -> scan f' s = Got j rest.
Definition scans_elems (s : pystr) (l : list json) (rest : pystr) : Prop := exists f, forall f', (f <= f')%nat -> scan_elems f' s = Got l rest.
Definition scans_members (s : pystr) (l : list (pystr * json)) (rest : pystr) : Prop :=
  exists f, forall f', (f <= f')%nat -> scan_members f' s = Got l rest.
Notation spaces := (Forall (fun c => is_ws c = true)).

Lemma skip_spaces w s : spaces w -> skip (w ++ s) = skip s.
Proof. unfold skip. induction 1 as [| c w Hc _ IH]; [done |]. cbn. by rewrite Hc. Qed.
Lemma skip_none c s : is_ws c = false -> skip (c :: s) = c :: s.
Proof. intros Hc. unfold skip. cbn. by rewrite Hc. Qed.
Lemma newline_spaces ly n : spaces (newline ly n).
Proof. unfold newline. destruct (ly_indent ly); [| done]. constructor; [done |]. by apply Forall_replicate. Qed.

Lemma json_ind' (P : json -> Prop) : P JNull -> (forall b, P (JBool b)) -> (forall n, P (JInt n)) -> (forall x, P (JFloat x)) ->
  (forall s, P (JStr s)) -> (forall l, Forall P l -> P (JArr l)) -> (forall o, Forall (fun e => P e.2) o -> P (JObj o)) -> forall j, P j.
Proof.
  intros H0 H1 H2 H3 H4 H5 H6. fix IH 1. intros [| b | n | x | s | l | o]; [done.. | |].
  - apply H5. induction l as [| j l IHl]; constructor; [apply IH | exact IHl].
  - apply H6. induction o as [| [k j] o IHo]; constructor; [apply IH | exact IHo].
Qed.
Lemma foldr_and {A} (Q : A -> Prop) l : foldr (fun e P => Q e /\ P) True l <-> Forall Q l.
Proof. induction l as [| x l IH]; cbn; [split; [constructor | done] |]. by rewrite Forall_cons, IH. Qed.

(** What an encoded value starts with. *)
Definition opens (s : pystr) : Prop := exists c t, s = c :: t /\ is_ws c = false /\ c <> 93 /\ c <> 125 /\ c < 128.
Lemma dumps_opens ly n j : json_ok j -> opens (dumps_at ly n j).
Proof.
  destruct j as [| [] | m | x | s | l | o]; cbn [json_ok dumps_at]; intros Hj; try done;
    try (eexists _, _; split_and!; [reflexivity | done | done | done | done]).
  - assert (Hc : forall k c t, 0 <= k -> str_int k = c :: t -> 48 <= c <= 57).
    { intros k c t Hk Heq. apply (str_int_digit k); [done | rewrite Heq; by left]. }
    assert (Hs : forall k, 0 <= k -> exists c t, str_int k = c :: t).
    { intros k Hk. destruct (str_int_spec k Hk) as (Hd & _). destruct (str_int k) as [| c t]; [done | by exists c, t]. }
    destruct (Z.ltb_spec m 0).
    + exists 45, (str_int (- m)). split_and!; [| done..]. unfold str_int.
      by rewrite (proj2 (Z.ltb_lt m 0)), (proj2 (Z.ltb_ge (- m) 0)) by lia.
    + destruct (Hs m) as (c & t & Heq); [done |]. exists c, t. pose proof (Hc m c t) as Hb.
      specialize (Hb ltac:(lia) Heq).
      split_and!; [done | unfold is_ws; rewrite !(proj2 (Z.eqb_neq c _)) by lia; done | lia..].
  - unfold block. destruct (map _ l); eexists _, _; (split_and!; [reflexivity | done | done | done | done]).
  - unfold block. destruct (map _ o); eexists _, _; (split_and!; [reflexivity | done | done | done | done]).
Qed.
Lemma skip_opens w s t : spaces w -> opens s -> skip (w ++ s ++ t) = s ++ t.
Proof. intros Hw (c & r & -> & Hc & _). rewrite skip_spaces by done. by apply skip_none. Qed.
Lemma eat_opens c s t : opens s -> c = 93 \/ c = 125 -> eat c (s ++ t) = None.
Proof. intros (x & r & -> & _ & H1 & H2 & _) Hc. cbn. rewrite (proj2 (Z.eqb_neq x c)); [done |]. destruct Hc; by subst. Qed.

Lemma join_cons sep (a b : pystr) l : join sep (a :: b :: l) = a ++ sep ++ join sep (b :: l).
Proof. done. Qed.
(** One encoded value followed by anything that may follow it. *)
Definition read_back (ly : layout) (j : json) : Prop := forall n rest, stops rest -> scans (dumps_at ly n j ++ rest) j rest.
Lemma elems_back ly n close l x : layout_ok ly -> json_ok x -> Forall json_ok l -> read_back ly x -> Forall (read_back ly) l ->
  forall w rest, spaces w -> close = 93 ->
  scans_elems (join (ly_item ly ++ newline ly n) (map (dumps_at ly n) (x :: l)) ++ w ++ close :: rest) (x :: l) rest.
Proof.
  intros (wi & wk & Hi & _ & Hwi & _) Hx Hl Rx Rl w rest Hw ->. revert x Hx Rx.
  induction l as [| y l IH]; intros x Hx Rx; cbn [map].
  - cbn [join]. destruct (Rx n (w ++ 93 :: rest)) as [f Hf].
    { destruct w as [| c w]; [done |]. apply Forall_cons in Hw as [Hc _]. unfold is_ws in Hc. cbn. unfold is_digit_char.
      split_and!; [zb | ..]; intros ->; done. }
    exists (S f). intros [| f'] Hle; [lia |]. cbn [scan_elems]. rewrite Hf by lia. cbn [bind].
    rewrite skip_spaces by done. by rewrite skip_none.
  - apply Forall_cons in Hl as [Hy Hl]. apply Forall_cons in Rl as [Ry Rl]. specialize (IH Hl Rl y Hy Ry) as [f2 Hf2].
    rewrite join_cons. cbn [map] in Hf2. set (tl := join _ (dumps_at ly n y :: _)) in *. rewrite <- !app_assoc, Hi. cbn [app].
    destruct (Rx n (44 :: wi ++ newline ly n ++ tl ++ w ++ 93 :: rest)) as [f Hf]; [done |].
    exists (S (f `max` f2)). intros [| f'] Hle; [lia |]. cbn [scan_elems]. rewrite Hf by lia. cbn [bind].
    rewrite skip_none by done. cbn [eat Z.eqb Pos.eqb].
    assert (Ho : opens tl).
    { destruct (dumps_opens ly n y Hy) as (c & r & Hd & ?). unfold tl. cbn [map].
      destruct (map (dumps_at ly n) l) as [| z zs]; cbn [join]; rewrite Hd; by eexists _, _. }
    rewrite app_assoc, skip_opens; [| apply Forall_app; split; [done | apply newline_spaces] | done].
    rewrite Hf2 by lia. done.
Qed.

Definition member (ly : layout) (n : nat) (e : pystr * json) : pystr :=
  dumps_str (ly_ascii ly) e.1 ++ ly_key ly ++ dumps_at ly n e.2.
Lemma member_opens ly n e : opens (member ly n e).
Proof. eexists _, _. split_and!; [reflexivity | done..]. Qed.
Lemma stops_spaces w c rest : spaces w -> is_digit_char c = false -> c <> 46 -> c <> 101 -> c <> 69 -> stops (w ++ c :: rest).
Proof.
  intros Hw H1 H2 H3 H4. destruct w as [| x w]; [done |]. apply Forall_cons in Hw as [Hx _]. unfold is_ws in Hx. cbn. unfold is_digit_char.
  split_and!; [zb | ..]; intros ->; done.
Qed.
(** The key, the colon and the value of a member. *)
Lemma member_back ly n e t : layout_ok ly -> plain e.1 -> json_ok e.2 -> read_back ly e.2 -> stops t ->
  exists f, forall f' (k : pystr -> json -> pystr -> scanned (list (pystr * json))), (f <= f')%nat ->
    match eat 34 (member ly n e ++ t) with
    | None => Bad
    | Some r => bind (of_option (scan_string r)) (fun key r =>
        match eat 58 (skip r) with None => Bad | Some r => bind (scan f' (skip r)) (k key) end)
    end = k e.1 e.2 t.
Proof.
  intros (wi & wk & _ & Hk & _ & Hwk) He Hj Rj Ht. destruct (Rj n t Ht) as [f Hf]. exists f. intros f' k Hle.
  unfold member. rewrite Hk. unfold dumps_str. rewrite <- !app_assoc. cbn [app eat Z.eqb Pos.eqb].
  rewrite <- app_assoc. cbn [app]. rewrite scan_dumps_str by done. cbn [of_option bind]. rewrite skip_none by done.
  cbn [eat Z.eqb Pos.eqb]. rewrite skip_opens by (done || by apply dumps_opens). rewrite Hf by done. done.
Qed.
Lemma members_back ly n l e : layout_ok ly -> Forall (fun e => plain e.1 /\ json_ok e.2) (e :: l) ->
  Forall (fun e => read_back ly e.2) (e :: l) -> forall w rest, spaces w ->
  scans_members (join (ly_item ly ++ newline ly n) (map (member ly n) (e :: l)) ++ w ++ 125 :: rest) (e :: l) rest.
Proof.
  intros Hly Hok Rb w rest Hw. pose proof Hly as (wi & _ & Hi & _ & Hwi & _). revert e Hok Rb.
  induction l as [| y l IH]; intros e [[Hk Hj] Hl]%Forall_cons [Rj Rl]%Forall_cons; cbn [map].
  - cbn [join]. destruct (member_back ly n e (w ++ 125 :: rest) Hly Hk Hj Rj) as [f Hf]; [by apply stops_spaces |].
    exists (S f). intros [| f'] Hle; [lia |]. cbn [scan_members]. rewrite (Hf f') by lia.
    rewrite skip_spaces by done. rewrite skip_none by done. cbn. by destruct e.
  - specialize (IH y Hl Rl) as [f2 Hf2]. rewrite join_cons. cbn [map] in Hf2. set (tl := join _ (member ly n y :: _)) in *.
    rewrite <- !app_assoc, Hi. cbn [app].
    destruct (member_back ly n e (44 :: wi ++ newline ly n ++ tl ++ w ++ 125 :: rest) Hly Hk Hj Rj) as [f Hf]; [done |].
    exists (S (f `max` f2)). intros [| f'] Hle; [lia |]. cbn [scan_members]. rewrite (Hf f') by lia.
    rewrite skip_none by done. cbn [eat Z.eqb Pos.eqb].
    assert (Ho : opens tl).
    { destruct (member_opens ly n y) as (c & r & Hd & ?). unfold tl.
      destruct (map (member ly n) l) as [| z zs]; cbn [join]; rewrite Hd; by eexists _, _. }
    rewrite app_assoc, skip_opens; [| apply Forall_app; split; [done | apply newline_spaces] | done].
    rewrite Hf2 by lia. cbn. by destruct e.
Qed.
Lemma object_nodup l : NoDup l.*1 -> object l = JObj l.
Proof.
  intros Hl. unfold object. f_equal. enough (G : forall done : list (pystr * json), NoDup (done ++ l).*1 -> foldl (fun o e => od_set e.1 e.2 o) done l = done ++ l) by by apply (G []).
  clear Hl. induction l as [| [k j] l IH]; intros done Hl; cbn [foldl]; [by rewrite app_nil_r |].
  rewrite od_set_absent.
  - rewrite IH; rewrite <- app_assoc; done.
  - apply od_get_none_keys. rewrite fmap_app in Hl. apply NoDup_app in Hl as (_ & Hd & _). intros Hin. apply (Hd k Hin). by left.
Qed.

Lemma scan_literal f s w j : scan_atom s = Got j w -> (exists c r, s = c :: r /\ c <> 34 /\ c <> 91 /\ c <> 123) -> scan (S f) s = Got j w.
Proof.
  intros Ha (c & r & -> & H1 & H2 & H3). cbn [scan]. by rewrite (proj2 (Z.eqb_neq c 34)), (proj2 (Z.eqb_neq c 91)), (proj2 (Z.eqb_neq c 123)) by done.
Qed.
Lemma values_back ly : layout_ok ly -> forall j, json_ok j -> read_back ly j.
Proof.
  intros Hly. induction j as [| b | m | x | s | l IH | o IH] using json_ind'; cbn [json_ok]; intros Hj n rest Hr; cbn [dumps_at].
  - exists 1%nat. intros [| f] Hf; [lia |]. reflexivity.
  - exists 1%nat. intros [| f] Hf; [lia |]. by destruct b.
  - exists 1%nat. intros [| f] Hf; [lia |].
    assert (Hc : exists c t, str_int m ++ rest = c :: t /\ (c = 45 \/ 48 <= c <= 57)).
    { destruct (Z.ltb_spec m 0).
      - exists 45, (str_int (- m) ++ rest). split; [| by left]. unfold str_int at 1.
        rewrite (proj2 (Z.ltb_lt m 0)) by lia. unfold str_int. by rewrite (proj2 (Z.ltb_ge (- m) 0)) by lia.
      - destruct (str_int_spec m) as (Hd & _); [done |]. destruct (str_int m) as [| c t] eqn:E; [done |]. exists c, (t ++ rest).
        split; [done | right]. apply (str_int_digit m); [done | rewrite E; by left]. }
    destruct Hc as (c & t & Heq & Hc). apply scan_literal; [| exists c, t; split; [done | lia]].
    unfold scan_atom. rewrite Heq. rewrite !(proj2 (Z.eqb_neq c _)) by lia. rewrite <- Heq, scan_number_int by done. done.
  - done.
  - exists 1%nat. intros [| f] Hf; [lia |]. unfold dumps_str. rewrite <- app_comm_cons, <- app_assoc. cbn [app scan Z.eqb Pos.eqb].
    by rewrite scan_dumps_str.
  - apply foldr_and in Hj. unfold block. destruct l as [| x l]; cbn [map].
    { exists 1%nat. intros [| f] Hf; [lia |]. reflexivity. }
    pose proof Hj as [Hx Hl]%Forall_cons. apply Forall_cons in IH as [Rx Rl].
    assert (Rl' : Forall (read_back ly) l).
    { apply Forall_forall. intros y Hy. by apply (proj1 (Forall_forall _ _) Rl y Hy), (proj1 (Forall_forall _ _) Hl y Hy). }
    destruct (elems_back ly (S n) 93 l x Hly Hx Hl (Rx Hx) Rl' (newline ly n) rest (newline_spaces ly n) eq_refl) as [f Hf].
    exists (S f). intros [| f'] Hle; [lia |]. cbn [map] in Hf. cbn [app]. rewrite <- !app_assoc. cbn [app scan Z.eqb Pos.eqb].
    assert (Ho : opens (join (ly_item ly ++ newline ly (S n)) (dumps_at ly (S n) x :: map (dumps_at ly (S n)) l))).
    { destruct (dumps_opens ly (S n) x Hx) as (c & r & Hd & ?). destruct (map (dumps_at ly (S n)) l); cbn [join]; rewrite Hd; by eexists _, _. }
    rewrite !skip_opens by (done || apply newline_spaces). rewrite eat_opens by (done || by left).
    rewrite Hf by lia. done.
  - destruct Hj as [Hn Hj]. apply foldr_and in Hj. unfold block. destruct o as [| e o].
    { exists 1%nat. intros [| f] Hf; [lia |]. reflexivity. }
    assert (Rb : Forall (fun e => read_back ly e.2) (e :: o)).
    { apply Forall_forall. intros y Hy. apply (proj1 (Forall_forall _ _) IH y Hy). by apply (proj1 (Forall_forall _ _) Hj y Hy). }
    destruct (members_back ly (S n) o e Hly Hj Rb (newline ly n) rest (newline_spaces ly n)) as [f Hf].
    exists (S f). intros [| f'] Hle; [lia |]. cbn [map] in Hf |- *. fold (member ly (S n) e). change (map (fun e0 : pystr * json => _) o) with (map (member ly (S n)) o).
    cbn [app]. rewrite <- !app_assoc. cbn [app scan Z.eqb Pos.eqb].
    assert (Ho : opens (join (ly_item ly ++ newline ly (S n)) (member ly (S n) e :: map (member ly (S n)) o))).
    { destruct (member_opens ly (S n) e) as (c & r & Hd & ?). destruct (map (member ly (S n)) o); cbn [join]; rewrite Hd; by eexists _, _. }
    rewrite !skip_opens by (done || apply newline_spaces). rewrite eat_opens by (done || by right).
    rewrite Hf by lia. cbn [lift]. by rewrite object_nodup.
Qed.

(** ** The fuel *)

Lemma skip_length s : (length (skip s) <= length s)%nat.
Proof. unfold skip. induction s as [| c s IH]; [done |]. cbn. destruct (is_ws c); cbn; lia. Qed.
Lemma eat_length c s r : eat c s = Some r -> length s = S (length r).
Proof. destruct s as [| x s]; [done |]. cbn. destruct (x =? c); [| done]. by intros [= ->]. Qed.
Lemma drop_while_shorter p (s : pystr) : (length (drop_while p s) <= length s)%nat.
Proof. induction s as [| c s IH]; [done |]. cbn. destruct (p c); cbn; lia. Qed.
Lemma scan_string_length s v r : scan_string s = Some (v, r) -> (length r < length s)%nat.
Proof.
  assert (Hput : forall c o v r, put c o = Some (v, r) -> exists v', o = Some (v', r)).
  { intros c [[v' r'] |] v0 r0; cbn; [| done]. intros [= _ <-]. by exists v'. }
  assert (G : forall n s v r, (length s <= n)%nat -> scan_string s = Some (v, r) -> (length r < length s)%nat); [| by eapply G].
  clear s v r. induction n as [| n IH]; intros [| c s] v r Hl; cbn [length] in Hl; try done; [lia |].
  intros Hs. cbn [scan_string] in Hs. cbn [length].
  repeat match type of Hs with
  | Some _ = Some _ => injection Hs as <- <-; lia
  | None = Some _ => discriminate Hs
  | put _ (scan_string _) = Some _ => let v' := fresh "v" in apply Hput in Hs as [v' Hs]; apply IH in Hs; cbn [length] in *; lia
  | (if ?b then _ else _) = _ => destruct b
  | match ?x with _ => _ end = _ => destruct x
  end.
Qed.
Lemma scan_frac_length s f r : scan_frac s = (f, r) -> (length r <= length s)%nat.
Proof.
  unfold scan_frac, digits. destruct s as [| c s]; [intros [= _ <-]; done |]. destruct (c =? 46); [| intros [= _ <-]; done].
  pose proof (drop_while_shorter is_digit_char s). destruct (take_while is_digit_char s); intros [= _ <-]; cbn; lia.
Qed.
Lemma scan_exp_length s x r : scan_exp s = (x, r) -> (length r <= length s)%nat.
Proof.
  unfold scan_exp, digits. destruct s as [| c s]; [intros [= _ <-]; done |]. destruct (_ || _); [| intros [= _ <-]; done].
  destruct (match s with c0 :: r' => if (c0 =? 43) || (c0 =? 45) then ([c0], r') else ([], s) | [] => ([], s) end) as [sg s'] eqn:E.
  assert (length s' <= length s)%nat.
  { destruct s as [| d s]; [by injection E as <- <- |]. destruct (_ || _); injection E as <- <-; cbn; lia. }
  pose proof (drop_while_shorter is_digit_char s'). destruct (take_while is_digit_char s'); intros [= _ <-]; cbn; lia.
Qed.
Lemma scan_number_length s j r : scan_number s = Some (j, r) -> (length r < length s)%nat.
Proof.
  unfold scan_number. destruct (sign_part s) as [neg s1] eqn:Es.
  assert (length s1 <= length s)%nat.
  { destruct s as [| c s]; cbn in Es; [by injection Es as _ <- |]. destruct (c =? 45); injection Es as _ <-; cbn; lia. }
  destruct (int_part s1) as [[ds s2] |] eqn:Ei; [| done].
  assert (length s2 < length s1)%nat.
  { unfold int_part, digits in Ei. destruct s1 as [| c s1]; [done |]. destruct (c =? 48); [injection Ei as _ <-; cbn; lia |].
    destruct (is_digit_char c) eqn:Ec; [| done]. injection Ei as _ <-. cbn [drop_while]. rewrite Ec.
    pose proof (drop_while_shorter is_digit_char s1). cbn. lia. }
  unfold number_of. destruct (scan_frac s2) as [f s3] eqn:Ef. apply scan_frac_length in Ef.
  destruct (scan_exp s3) as [x s4] eqn:Ex. apply scan_exp_length in Ex.
  destruct (f ++ x); [destruct (_ <? _)%nat; [done |] |]; intros [= _ <-]; lia.
Qed.
Lemma literal_length s w v j r : w <> [] -> literal s w v = Got j r -> (length r < length s)%nat.
Proof.
  unfold literal. destruct (startswith s w) eqn:E; [| done]. intros Hw [= _ <-]. apply startswith_true in E as [t ->].
  rewrite drop_app_length, length_app. destruct w; [done | cbn; lia].
Qed.
Lemma scan_atom_length s j r : scan_atom s = Got j r -> (length r < length s)%nat.
Proof.
  unfold scan_atom. destruct s as [| c s]; [done |].
  repeat match goal with |- (if ?b then literal _ _ _ else _) = _ -> _ => destruct b; [by apply literal_length |] end.
  destruct (scan_number (c :: s)) as [[j' r'] |] eqn:E; cbn [of_option].
  - intros [= <- <-]. by eapply scan_number_length.
  - destruct (startswith _ _) eqn:Es; [| done]. intros [= _ <-]. rewrite length_drop. cbn. lia.
Qed.
Lemma scan_atom_not_stuck s : scan_atom s <> Stuck.
Proof. unfold scan_atom, literal. destruct s; [done |]. destruct (scan_number _) as [[] |]; cbn; by repeat case_match. Qed.

Lemma lift_got {A B} (f : A -> B) x b r : lift f x = Got b r -> exists a, x = Got a r.
Proof. destruct x as [a r' | |]; cbn; [| done..]. intros [= _ <-]. by exists a. Qed.
Lemma bind_got {A B} (x : scanned A) (k : A -> pystr -> scanned B) b r : bind x k = Got b r -> exists a r', x = Got a r' /\ k a r' = Got b r.
Proof. destruct x as [a r' | |]; cbn; [| done..]. intros Hk. by exists a, r'. Qed.
Lemma of_option_got {A} (o : option (A * pystr)) a r : of_option o = Got a r -> o = Some (a, r).
Proof. destruct o as [[a' r'] |]; cbn; [| done]. by intros [= <- <-]. Qed.
Lemma scan_length f : (forall s j r, scan f s = Got j r -> (length r < length s)%nat) /\
  (forall s l r, scan_elems f s = Got l r -> (length r < length s)%nat) /\
  (forall s l r, scan_members f s = Got l r -> (length r < length s)%nat).
Proof.
  induction f as [| f (IH1 & IH2 & IH3)]; [done |].
  assert (Hsk : forall c s r, eat c (skip s) = Some r -> (length r < length s)%nat).
  { intros c s r He%eat_length. pose proof (skip_length s). lia. }
  split_and!; intros s j r.
  - destruct s as [| c s]; [done |]. cbn [scan length]. destruct (c =? 34).
    { intros (v & Hv%of_option_got%scan_string_length)%lift_got. lia. }
    destruct (c =? 91).
    { destruct (eat 93 (skip s)) eqn:Ee; [intros [= _ <-]; apply Hsk in Ee; lia |].
      intros (v & Hv%IH2)%lift_got. pose proof (skip_length s). lia. }
    destruct (c =? 123).
    { destruct (eat 125 (skip s)) eqn:Ee; [intros [= _ <-]; apply Hsk in Ee; lia |].
      intros (v & Hv%IH3)%lift_got. pose proof (skip_length s). lia. }
    apply scan_atom_length.
  - cbn [scan_elems]. intros (v & t & Hv%IH1 & Hk)%bind_got. destruct (eat 93 (skip t)) eqn:Ee.
    { injection Hk as _ <-. apply Hsk in Ee. lia. }
    destruct (eat 44 (skip t)) as [t' |] eqn:Ec; [| done]. apply lift_got in Hk as (v' & Hk%IH2). apply Hsk in Ec.
    pose proof (skip_length t'). lia.
  - cbn [scan_members]. destruct (eat 34 s) as [s1 |] eqn:E1; [| done]. apply eat_length in E1.
    intros (k & t & Hs%of_option_got%scan_string_length & Hk)%bind_got. destruct (eat 58 (skip t)) as [t1 |] eqn:E2; [| done].
    apply Hsk in E2. apply bind_got in Hk as (v & t2 & Hv%IH1 & Hk). pose proof (skip_length t1).
    destruct (eat 125 (skip t2)) eqn:Ee; [injection Hk as _ <-; apply Hsk in Ee; lia |].
    destruct (eat 44 (skip t2)) as [t3 |] eqn:Ec; [| done]. apply lift_got in Hk as (v' & Hk%IH3). apply Hsk in Ec.
    pose proof (skip_length t3). lia.
Qed.

Lemma lift_stuck {A B} (f : A -> B) x : lift f x = Stuck <-> x = Stuck.
Proof. by destruct x. Qed.
Lemma bind_stuck {A B} (x : scanned A) (k : A -> pystr -> scanned B) : bind x k = Stuck -> x = Stuck \/ exists a r, x = Got a r /\ k a r = Stuck.
Proof. destruct x as [a r | |]; cbn; [intros Hk; right; by exists a, r | done | by left]. Qed.
Lemma of_option_stuck {A} (o : option (A * pystr)) : of_option o <> Stuck.
Proof. by destruct o as [[] |]. Qed.
(** Two units of fuel for each character are enough. *)
Lemma scan_enough f : (forall s, (2 * length s < f)%nat -> scan f s <> Stuck) /\
  (forall s, (2 * length s + 1 < f)%nat -> scan_elems f s <> Stuck) /\
  (forall s, (2 * length s + 1 < f)%nat -> scan_members f s <> Stuck).
Proof.
  induction f as [| f (IH1 & IH2 & IH3)]; [split_and!; intros; lia |].
  assert (Hsk : forall c s r, eat c (skip s) = Some r -> (length r < length s)%nat).
  { intros c s r He%eat_length. pose proof (skip_length s). lia. }
  split_and!; intros s Hf.
  - destruct s as [| c s]; [done |]. cbn [scan length] in *. pose proof (skip_length s).
    destruct (c =? 34); [rewrite lift_stuck; apply of_option_stuck |].
    destruct (c =? 91); [destruct (eat _ _); [done |]; rewrite lift_stuck; apply IH2; lia |].
    destruct (c =? 123); [destruct (eat _ _); [done |]; rewrite lift_stuck; apply IH3; lia |].
    apply scan_atom_not_stuck.
  - cbn [scan_elems]. intros [Hs | (v & t & Hv & Hs)]%bind_stuck; [apply IH1 in Hs; [done | lia] |].
    apply scan_length in Hv. destruct (eat 93 (skip t)); [done |]. destruct (eat 44 (skip t)) as [t' |] eqn:Ec; [| done].
    apply Hsk in Ec. pose proof (skip_length t'). apply lift_stuck, IH2 in Hs; [done | lia].
  - cbn [scan_members]. destruct (eat 34 s) as [s1 |] eqn:E1; [| done]. apply eat_length in E1.
    intros [Hs%of_option_stuck | (k & t & Ht%of_option_got%scan_string_length & Hs)]%bind_stuck; [done |].
    destruct (eat 58 (skip t)) as [t1 |] eqn:E2; [| done]. apply Hsk in E2. pose proof (skip_length t1).
    apply bind_stuck in Hs as [Hs | (v & t2 & Hv & Hs)]; [apply IH1 in Hs; [done | lia] |].
    apply scan_length in Hv. destruct (eat 125 (skip t2)); [done |]. destruct (eat 44 (skip t2)) as [t3 |] eqn:Ec; [| done].
    apply Hsk in Ec. pose proof (skip_length t3). apply lift_stuck, IH3 in Hs; [done | lia].
Qed.

Lemma scan_S f c r : scan (S f) (c :: r) =
  if c =? 34 then lift JStr (of_option (scan_string r))
  else if c =? 91 then match eat 93 (skip r) with Some r => Got (JArr []) r | None => lift JArr (scan_elems f (skip r)) end
  else if c =? 123 then match eat 125 (skip r) with Some r => Got (JObj []) r | None => lift object (scan_members f (skip r)) end
  else scan_atom (c :: r).
Proof. done. Qed.
Lemma scan_elems_S f s : scan_elems (S f) s = bind (scan f s) (fun j r =>
  match eat 93 (skip r), eat 44 (skip r) with
  | Some r, _ => Got [j] r | None, Some r => lift (cons j) (scan_elems f (skip r)) | None, None => Bad end).
Proof. done. Qed.
Lemma scan_members_S f s : scan_members (S f) s = match eat 34 s with
  | None => Bad
  | Some r => bind (of_option (scan_string r)) (fun k r =>
      match eat 58 (skip r) with None => Bad | Some r => bind (scan f (skip r)) (fun j r =>
        match eat 125 (skip r), eat 44 (skip r) with
        | Some r, _ => Got [(k, j)] r | None, Some r => lift (cons (k, j)) (scan_members f (skip r)) | None, None => Bad end) end)
  end.
Proof. done. Qed.
(** More fuel changes nothing. *)
Lemma scan_more f : (forall s, scan f s <> Stuck -> scan (S f) s = scan f s) /\
  (forall s, scan_elems f s <> Stuck -> scan_elems (S f) s = scan_elems f s) /\
  (forall s, scan_members f s <> Stuck -> scan_members (S f) s = scan_members f s).
Proof.
  induction f as [| f (IH1 & IH2 & IH3)]; [done |]. split_and!; intros s.
  - destruct s as [| c s]; [done |]. rewrite !scan_S.
    destruct (c =? 34); [done |]. destruct (c =? 91).
    { destruct (eat _ _); [done |]. rewrite lift_stuck. intros Hn. by rewrite IH2. }
    destruct (c =? 123); [| done]. destruct (eat _ _); [done |]. rewrite lift_stuck. intros Hn. by rewrite IH3.
  - rewrite !scan_elems_S. intros Hn. destruct (scan f s) as [j r | |] eqn:E; [| by rewrite IH1; rewrite E | done].
    rewrite IH1 by by rewrite E. rewrite E. cbn [bind] in *. destruct (eat 93 (skip r)); [done |]. destruct (eat 44 (skip r)); [| done].
    rewrite lift_stuck in Hn. by rewrite IH2.
  - rewrite !scan_members_S. intros Hn. destruct (eat 34 s) as [s1 |]; [| done].
    destruct (of_option (scan_string s1)) as [k t | |]; [| done..].
    cbn [bind] in *. destruct (eat 58 (skip t)) as [t1 |]; [| done].
    destruct (scan f (skip t1)) as [j r | |] eqn:E; [| by rewrite IH1; rewrite E | done].
    rewrite IH1 by by rewrite E. rewrite E. cbn [bind] in *. destruct (eat 125 (skip r)); [done |]. destruct (eat 44 (skip r)); [| done].
    rewrite lift_stuck in Hn. by rewrite IH3.
Qed.
Lemma scan_le f f' s : (f <= f')%nat -> scan f s <> Stuck -> scan f' s = scan f s.
Proof. intros Hle Hn. induction Hle as [| f' Hle IH]; [done |]. rewrite (proj1 (scan_more f')); [done |]. by rewrite IH. Qed.
Lemma scans_fuel s j r : scans s j r -> scan (scan_fuel s) s = Got j r.
Proof.
  intros [f Hf]. rewrite <- (scan_le (scan_fuel s) (f `max` scan_fuel s) s); [by apply Hf; lia | lia |].
  apply scan_enough. unfold scan_fuel. lia.
Qed.

Lemma sorted_keys_ok j : json_ok j -> json_ok (sorted_keys j).
Proof.
  induction j as [| b | m | x | s | l IH | o IH] using json_ind'; cbn [json_ok sorted_keys]; try done.
  - rewrite !foldr_and. intros Hl. apply Forall_forall. intros y (x & -> & Hx)%list_elem_of_fmap.
    by apply (proj1 (Forall_forall _ _) IH x Hx), (proj1 (Forall_forall _ _) Hl x Hx).
  - rewrite !foldr_and. intros [Hn Ho]. split.
    + rewrite py_sorted_Permutation, <- list_fmap_compose. erewrite list_fmap_ext; [exact Hn |]. done.
    + rewrite py_sorted_Permutation. apply Forall_forall. intros y ([k x] & -> & Hx)%list_elem_of_fmap. cbn.
      destruct (proj1 (Forall_forall _ _) Ho _ Hx) as [? ?]. split; [done |]. by apply (proj1 (Forall_forall _ _) IH _ Hx).
Qed.
(** What [dumps] writes, [loads] reads back, whatever the layout. *)
Lemma loads_dumps ly j : layout_ok ly -> json_ok j ->
  loads (dumps ly j) = Some (if ly_sort ly then sorted_keys j else j).
Proof.
  intros Hly Hj. unfold dumps. set (j' := if ly_sort ly then sorted_keys j else j).
  assert (Hj' : json_ok j') by (unfold j'; case_match; [by apply sorted_keys_ok | done]).
  destruct (values_back ly Hly j' Hj' 0%nat [] I) as [f Hf]. rewrite app_nil_r in Hf.
  destruct (dumps_opens ly 0%nat j' Hj') as (c & t & Heq & Hc & _ & _ & Hlt). rewrite Heq in Hf |- *.
  unfold loads. rewrite bool_decide_eq_false_2 by (cbn; intros [= ->]; done). rewrite skip_none by done.
  by rewrite (scans_fuel (c :: t) j' []) by by exists f.
Qed.
End values.

(** ASCII text without NUL is read as itself; two bytes that open with a stray
    continuation byte are no text. *)
Lemma json_text_ascii bs : Forall (fun b => 0 < b < 128) bs -> json_text bs = Some bs.
Proof.
  intros Hb. unfold json_text.
  assert (Hu : utf8_surrogatepass bs = Some bs).
  { clear -Hb. induction Hb as [| b bs Hb _ IH]; [done |]. cbn [utf8_surrogatepass].
    rewrite (proj2 (Z.ltb_lt b 128)) by lia. by rewrite IH. }
  assert (detect_encoding bs = (Utf8, bs)) as ->; [| done].
  assert (Hz : forall c, 0 < c < 128 -> (c =? 0) = false) by (intros; apply Z.eqb_neq; lia).
  destruct Hb as [| b0 r H0 Hr]; [done |]. destruct Hr as [| b1 r H1 Hr].
  { cbn. repeat case_match; try done; lia. }
  destruct Hr as [| b2 r H2 Hr]; [| destruct Hr as [| b3 r H3 Hr]].
  all: unfold detect_encoding; rewrite ?(Hz b0), ?(Hz b1) by done; repeat case_match; subst; try done; lia.
Qed.
Lemma json_text_stray b c : 128 <= b < 192 -> 0 < c < 128 -> json_text [b; c] = None.
Proof.
  intros Hb Hc. unfold json_text. assert (detect_encoding [b; c] = (Utf8, [b; c])) as ->.
  { unfold detect_encoding. rewrite (proj2 (Z.eqb_neq b 0)), (proj2 (Z.eqb_neq c 0)) by lia. repeat case_match; subst; try done; lia. }
  cbn [utf8_surrogatepass]. rewrite (proj2 (Z.ltb_ge b 128)) by lia.
  unfold in_range. by rewrite (proj2 (Z.leb_gt 194 b)) by lia.
Qed.

(** A check for concrete values. *)
Definition plainb (s : pystr) : bool := forallb (fun c => (0 <=? c) && (c <? 1114112) && negb (Query.is_surrogate c)) s.
Fixpoint json_okb (j : json) : bool :=
  match j with
  | JFloat _ => false
  | JInt n => (length (str_int (Z.abs n)) <=? INT_MAX_STR_DIGITS)%nat
  | JStr s => plainb s
  | JArr l => forallb json_okb l
  | JObj o => bool_decide (NoDup o.*1) && forallb (fun e => plainb e.1 && json_okb e.2) o
  | _ => true
  end.
Lemma plainb_plain s : plainb s = true -> plain s.
Proof.
  intros Hs. apply Forall_forall. intros c Hc. apply (proj1 (forallb_forall _ _)) with (x := c) in Hs; [| by rewrite <- list_elem_of_In].
  apply andb_true_iff in Hs as [Hs Hq%negb_true_iff]. unfold code_point. zb_simpl. split; [lia | done].
Qed.
Lemma forallb_Forall_1 {A} (f : A -> bool) l : forallb f l = true -> Forall (fun x => f x = true) l.
Proof. intros Hl. apply Forall_forall. intros x Hx. apply (proj1 (forallb_forall _ _) Hl). by rewrite <- list_elem_of_In. Qed.
Lemma json_okb_ok j : json_okb j = true -> json_ok j.
Proof.
  induction j as [| b | m | x | s | l IH | o IH] using json_ind'; cbn [json_okb json_ok]; try done.
  - intros Hm. by apply Nat.leb_le.
  - apply plainb_plain.
  - intros Hl%forallb_Forall_1. apply foldr_and, Forall_forall. intros x Hx.
    by apply (proj1 (Forall_forall _ _) IH x Hx), (proj1 (Forall_forall _ _) Hl x Hx).
  - intros [Hn%bool_decide_eq_true_1 Ho%forallb_Forall_1]%andb_true_iff. split; [done |]. apply foldr_and, Forall_forall. intros e He.
    pose proof (proj1 (Forall_forall _ _) Ho e He) as [Hk Hv]%andb_true_iff. split; [by apply plainb_plain |].
    by apply (proj1 (Forall_forall _ _) IH e He).
Qed.
