(* ===== verification/Secrets.v ===== *)
(** * The secret store ([secrets_store.py], [secrets_file.py], [secrets.py])

    IMAP passwords and refresh tokens in a 0600 JSON file, replaced by rename.  The
    file system is the directory's mode, the file and the temporary file; a write is
    its sequence of system calls, any of which can fail or be the last one before
    the process is killed.  The keyring backend is third-party code. *)
From S2P Require Import Prelude PyStr Errors Score Odict Json Query JsonText.
Import Json_text.

Record secret_file := SecretFile { sf_mode : Z; sf_text : option pystr (* [None]: not UTF-8 *) }.
Record secret_dir := SecretDir { sd_mode : option Z (* [None]: no directory *); sd_file : option secret_file; sd_tmp : option secret_file }.
Inductive secret_error :=
  | SecretsFileCorrupt | InsecureSecretsFile | InsecureSecretsDirectory | StaleSecretsTempFile | Undecodable | WriteFailed.
Inductive kind := Password | RefreshToken.
#[export] Instance kind_eq_dec : EqDecision kind.
Proof. solve_decision. Defined.
#[export] Instance kind_countable : Countable kind :=
  inj_countable' (fun k => match k with Password => true | RefreshToken => false end) (fun b : bool => if b then Password else RefreshToken)
    (fun k => match k with Password => eq_refl | RefreshToken => eq_refl end).

Module Secrets.
Implicit Types (d : secret_dir) (m : list (pystr * pystr)).

(** ** [secrets_store.py] *)

Definition SECRETS_FILE_MODE : Z := 384.             (* 0o600 *)
Definition SECRETS_DIR_MODE : Z := 448.              (* 0o700 *)
Definition GROUP_AND_OTHER_BITS : Z := 63.           (* 0o077 *)
Definition GROUP_WRITE_BIT : Z := 16.
Definition OTHER_WRITE_BIT : Z := 2.
Definition SECRETS_FORMAT_VERSION : Z := 1.
Definition REFRESH_SUFFIX : pystr := lit ":refresh".
Definition refresh_username (account_name : pystr) : pystr := account_name ++ REFRESH_SUFFIX.
Definition username (account_name : pystr) (k : kind) : pystr :=
  match k with Password => account_name | RefreshToken => refresh_username account_name end.
Definition mode_is_private (mode : Z) : bool := Z.land mode GROUP_AND_OTHER_BITS =? 0.
Inductive DirectoryExposure := PRIVATE | GROUP_WRITABLE | WORLD_WRITABLE.
#[export] Instance exposure_eq_dec : EqDecision DirectoryExposure.
Proof. solve_decision. Defined.
Definition directory_exposure (mode : Z) : DirectoryExposure :=
  if negb (Z.land mode OTHER_WRITE_BIT =? 0) then WORLD_WRITABLE
  else if negb (Z.land mode GROUP_WRITE_BIT =? 0) then GROUP_WRITABLE else PRIVATE.

Definition file_layout : layout := Layout (Some 2%nat) (lit ",") (lit ": ") false true.
Definition store_json m : json :=
  JObj [(lit "version", JInt SECRETS_FORMAT_VERSION); (lit "secrets", JObj (map (fun e => (e.1, JStr e.2)) m))].
Definition serialise m : pystr := dumps file_layout (store_json m).
(** An entry of the mapping, which must be a pair of strings. *)
Definition entry (e : pystr * json) : option (pystr * pystr) :=
  match e.2 with JStr v => Some (e.1, v) | _ => None end.
Section text.
Context `{PyFloatText}.

Definition deserialise (text : pystr) : res secret_error (list (pystr * pystr)) :=
  match loads text with
  | Some (JObj data) =>
      guard! equals_int SECRETS_FORMAT_VERSION (default JNull (od_get (lit "version") data)) else SecretsFileCorrupt in
      match default JNull (od_get (lit "secrets") data) with
      | JObj o => match mapM entry o with Some m => Ok m | None => Err SecretsFileCorrupt end
      | _ => Err SecretsFileCorrupt
      end
  | _ => Err SecretsFileCorrupt
  end.

(** ** [secrets_file.py] *)

(** [_check_parent_directory], without the warning. *)
Definition check_parent_directory d : res secret_error () :=
  match sd_mode d with
  | None => Ok ()
  | Some mode => guard! negb (bool_decide (directory_exposure mode = WORLD_WRITABLE)) else InsecureSecretsDirectory in Ok ()
  end.
Definition read d : res secret_error (list (pystr * pystr)) :=
  let* _ := check_parent_directory d in
  match sd_file d with
  | None => Ok []
  | Some f =>
      guard! mode_is_private (sf_mode f) else InsecureSecretsFile in
      match sf_text f with Some t => deserialise t | None => Err Undecodable end
  end.

(** How a write ends: it runs through; the process is killed after the [n]th call,
    with [k] characters written; or the call after the [n]th raises. *)
Inductive write_end := Completes | Killed (n k : nat) | Raises (n k : nat).
Record umask_env := UmaskEnv { ue_umask : Z; ue_end : write_end }.
Definition masked (e : umask_env) (mode : Z) : Z := Z.land mode (Z.lnot (ue_umask e)).
(** The directory after [n] of the calls of [_write]: [mkdir], [open], [write] (or a
    part of it), [chmod], [replace], then the syncs. *)
Definition after_calls (e : umask_env) (text : pystr) d (n k : nat) : secret_dir :=
  let made := SecretDir (Some (default (masked e SECRETS_DIR_MODE) (sd_mode d))) (sd_file d) (sd_tmp d) in
  let temp mode t := SecretDir (sd_mode made) (sd_file d) (Some (SecretFile mode (Some t))) in
  match n with
  | 0%nat => d
  | 1%nat => made
  | 2%nat => temp (masked e SECRETS_FILE_MODE) (take k text)
  | 3%nat => temp (masked e SECRETS_FILE_MODE) text
  | 4%nat => temp SECRETS_FILE_MODE text
  | _ => SecretDir (sd_mode made) (Some (SecretFile SECRETS_FILE_MODE (Some text))) None
  end.
(** The handler: [tmp.unlink(missing_ok=True)]. *)
Definition cleanup d : secret_dir := SecretDir (sd_mode d) (sd_file d) None.
Definition encodable (s : pystr) : bool := negb (existsb Query.is_surrogate s).
(** [_write] of the text: the directory after it, and [None] when the process was
    killed. *)
Definition write_text (e : umask_env) (text : pystr) d : secret_dir * option (res secret_error ()) :=
  match ue_end e with
  | Killed 0%nat _ => (d, None)
  | Raises 0%nat _ => (d, Some (Err WriteFailed))
  | Killed 1%nat _ => (after_calls e text d 1%nat 0%nat, None)
  | _ =>
      match sd_tmp d with
      | Some _ => (after_calls e text d 1%nat 0%nat, Some (Err StaleSecretsTempFile))
      | None =>
          if encodable text then
            match ue_end e with
            | Completes => (after_calls e text d 5%nat 0%nat, Some (Ok ()))
            | Killed n k => (after_calls e text d n k, None)
            | Raises n k => ((if (n <=? 1)%nat then id else cleanup) (after_calls e text d n k), Some (Err WriteFailed))
            end
          else match ue_end e with
               | Killed n k => (after_calls e text d (n `min` 2)%nat 0%nat, None)
               | _ => (cleanup (after_calls e text d 2%nat 0%nat), Some (Err WriteFailed))      (* UnicodeEncodeError *)
               end
      end
  end.
Definition write (e : umask_env) m d : secret_dir * option (res secret_error ()) := write_text e (serialise m) d.

Definition get (username : pystr) d : res secret_error (option pystr) :=
  let* secrets := read d in Ok (od_get username secrets).
Definition set (e : umask_env) (username value : pystr) d : secret_dir * option (res secret_error ()) :=
  match read d with Ok secrets => write e (od_set username value secrets) d | Err x => (d, Some (Err x)) end.
(** [set] of a username to [None]: a mapping with a JSON null. *)
Definition null_json m (username : pystr) : json :=
  JObj [(lit "version", JInt SECRETS_FORMAT_VERSION);
        (lit "secrets", JObj (od_set username JNull (map (fun e => (e.1, JStr e.2)) m)))].
Definition set_null (e : umask_env) (username : pystr) d : secret_dir * option (res secret_error ()) :=
  match read d with
  | Ok secrets => write_text e (dumps file_layout (null_json secrets username)) d
  | Err x => (d, Some (Err x))
  end.
Definition delete (e : umask_env) (username : pystr) d : secret_dir * option (res secret_error ()) :=
  match read d with
  | Ok secrets => match od_get username secrets with
                  | None => (d, Some (Ok ()))
                  | Some _ => write e (od_del username secrets) d
                  end
  | Err x => (d, Some (Err x))
  end.
(** [secrets.py]: the password and the refresh token of an account. *)
Definition get_secret (account_name : pystr) (k : kind) d := get (username account_name k) d.
Definition change_secret (e : umask_env) (account_name : pystr) (k : kind) (value : option pystr) d :=
  match value with Some v => set e (username account_name k) v d | None => delete e (username account_name k) d end.
(** [accounts.clear_secret] *)
Definition clear_secret (e : kind -> umask_env) (account_name : pystr) d : secret_dir * option (res secret_error ()) :=
  match change_secret (e Password) account_name Password None d with
  | (d, Some (Ok _)) => change_secret (e RefreshToken) account_name RefreshToken None d
  | r => r
  end.

(** ** [secrets_migrate.py] and [cli.migrate_secrets] *)

Record MigrationItem := Item { mi_account_name : pystr; mi_username : pystr; mi_kind : kind; mi_value : option pystr }.
Record MigrationPlan := Plan { to_copy : list MigrationItem; absent : list MigrationItem }.
(** [source]: the mapping read from the keyring, a missing key as [None]. *)
Definition items (account_names : list pystr) (source : pystr -> option pystr) : list MigrationItem :=
  flat_map (fun name => map (fun k => Item name (username name k) k (source (username name k))) [Password; RefreshToken]) account_names.
Definition plan_secret_migration (account_names : list pystr) (source : pystr -> option pystr) : MigrationPlan :=
  let all := items account_names source in
  Plan (filter (fun it => is_Some (mi_value it)) all) (filter (fun it => mi_value it = None) all).
(** The copying loop; [e] is how each item's write goes. *)
Fixpoint copy (e : MigrationItem -> umask_env) (l : list MigrationItem) d : secret_dir * option (res secret_error ()) :=
  match l with
  | [] => (d, Some (Ok ()))
  | it :: l =>
      match mi_value it with
      | None => (d, Some (Err WriteFailed))                                (* ClickException, not reached *)
      | Some value => match set (e it) (mi_username it) value d with
                      | (d, Some (Ok _)) => copy e l d
                      | r => r
                      end
      end
  end.
Definition migrate_secrets (e : MigrationItem -> umask_env) (account_names : list pystr) (keyring : pystr -> option pystr) (dry_run : bool) d :=
  let plan := plan_secret_migration account_names keyring in
  if dry_run then (d, Some (Ok ())) else copy e (to_copy plan) d.
End text.

(** ** [secrets.configure] *)
Inductive backend := Keyring | FileStore (path : pystr).
(** The installed backend and whether a named config pinned it. *)
Record selection := Selection { se_store : backend; se_pinned : bool }.
Definition configure (configured : backend) (named_config : bool) (s : selection) : selection :=
  if se_pinned s && negb named_config then s else Selection configured named_config.
End Secrets.
