(* ===== verification/SecretsFacts.v ===== *)
(** * What the secret store keeps, and for whom *)
From S2P Require Import Prelude PyStr Errors Score Odict PySort Json Query Utf8 AdminAccounts JsonText JsonTextFacts Secrets.
Import Json_text Secrets.

(** ** Names *)

(** An account name as the admin service accepts it. *)
Definition account_name (a : pystr) : Prop := Admin_accounts.account_name_error a = false.
Lemma account_name_colon a : account_name a -> 58 ∉ a.
Proof.
  unfold account_name, Admin_accounts.account_name_error. rewrite !orb_false_iff. intros [_ Hc]. by apply contains_false.
Qed.
(** Names without a colon keep the secrets of all accounts apart. *)
Lemma username_inj a b k k' : account_name a -> account_name b -> username a k = username b k' -> a = b /\ k = k'.
Proof.
  intros Ha%account_name_colon Hb%account_name_colon. destruct k, k'; cbn; unfold refresh_username; intros Heq.
  - done.
  - exfalso. apply Ha. rewrite Heq. apply elem_of_app. right. by left.
  - exfalso. apply Hb. rewrite <- Heq. apply elem_of_app. right. by left.
  - split; [| done]. by apply app_inv_tail in Heq.
Qed.

Section facts.
Context `{PyFloatText}.
Implicit Types (m : list (pystr * pystr)) (d : secret_dir).

(** ** The text *)
Definition text_ok (s : pystr) : Prop := Forall code_point s.
Definition entries_are (Q : pystr -> Prop) m : Prop := NoDup m.*1 /\ Forall (fun e => Q e.1 /\ Q e.2) m.
Notation entries_ok := (entries_are text_ok).
Notation plain_entries := (entries_are plain).

Lemma encodable_plain s : text_ok s -> encodable s = true -> plain s.
Proof.
  unfold text_ok, encodable, plain. intros Hc He%negb_true_iff. apply Forall_forall. intros c Hin.
  split; [by apply (proj1 (Forall_forall _ _) Hc) |]. apply not_true_is_false. intros Hs.
  assert (existsb Query.is_surrogate s = true); [| congruence]. apply existsb_exists. exists c. by rewrite <- list_elem_of_In.
Qed.
Lemma file_layout_ok : layout_ok file_layout.
Proof. exists [], [32]. by repeat constructor. Qed.
Lemma mapping_json_ok (o : list (pystr * json)) : NoDup o.*1 -> Forall (fun e => plain e.1 /\ json_ok e.2) o ->
  json_ok (JObj [(lit "version", JInt SECRETS_FORMAT_VERSION); (lit "secrets", JObj o)]).
Proof.
  intros Hn Hm. assert (Hp : forall s : string, forallb (fun c => (0 <=? c) && (c <? 128)) (lit s) = true -> plain (lit s)).
  { intros s Hs. apply Forall_forall. intros c Hc. apply (proj1 (forallb_forall _ _)) with (x := c) in Hs; [| by rewrite <- list_elem_of_In].
    unfold code_point, Query.is_surrogate. zb. }
  cbn [json_ok foldr fmap list_fmap fst snd]. split_and!; try done.
  - by apply (bool_decide_unpack _).
  - by apply Hp.
  - apply Nat.leb_le. by vm_compute.
  - by apply Hp.
  - by apply foldr_and.
Qed.
Lemma keys_of_strings m : (map (fun e : pystr * pystr => (e.1, JStr e.2)) m).*1 = m.*1.
Proof. rewrite <- list_fmap_compose. by apply list_fmap_ext. Qed.
Lemma strings_ok m : plain_entries m ->
  Forall (fun e : pystr * json => plain e.1 /\ json_ok e.2) (map (fun e : pystr * pystr => (e.1, JStr e.2)) m).
Proof. intros [_ Hm]. apply Forall_fmap. eapply Forall_impl; [exact Hm |]. by intros []. Qed.
Lemma store_json_ok m : plain_entries m -> json_ok (store_json m).
Proof. intros Hm. apply mapping_json_ok; [rewrite keys_of_strings; apply Hm | by apply strings_ok]. Qed.
Lemma mapM_entry m : mapM entry (map (fun e : pystr * pystr => (e.1, JStr e.2)) m) = Some m.
Proof. induction m as [| [k v] m IH]; [done |]. cbn in *. by rewrite IH. Qed.
(** What was written is read back, in another order. *)
Lemma deserialise_serialise m : plain_entries m -> exists m', deserialise (serialise m) = Ok m' /\ m' ≡ₚ m.
Proof.
  intros Hm. unfold deserialise, serialise. rewrite loads_dumps by (apply file_layout_ok || by apply store_json_ok).
  set (o := map (fun e : pystr * json => (e.1, sorted_keys e.2)) (map (fun e : pystr * pystr => (e.1, JStr e.2)) m)).
  set (so := py_sorted (fun a b => str_lt a.1 b.1) o).
  assert (Hs : sorted_keys (store_json m) = JObj [(lit "secrets", JObj so); (lit "version", JInt 1)]) by done.
  cbn [ly_sort file_layout]. rewrite Hs. change (od_get (lit "version") _) with (Some (JInt 1)).
  change (od_get (lit "secrets") _) with (Some (JObj so)). cbn [from_option id equals_int].
  assert (Ho : o = map (fun e : pystr * pystr => (e.1, JStr e.2)) m) by (unfold o; rewrite map_map; by apply map_ext).
  assert (Hperm : so ≡ₚ map (fun e : pystr * pystr => (e.1, JStr e.2)) m) by (unfold so; by rewrite py_sorted_Permutation, Ho).
  destruct (Permutation_map_inv _ _ Hperm) as (m' & Heq & Hp'). exists m'. split; [| by symmetry].
  rewrite Heq. change (1 =? SECRETS_FORMAT_VERSION) with true. cbn iota. by rewrite mapM_entry.
Qed.

(** A surrogate of a name or a value shows in the text. *)
Lemma surrogate_dumps_str s : existsb Query.is_surrogate s = true -> existsb Query.is_surrogate (dumps_str false s) = true.
Proof.
  intros (c & Hin & Hs)%existsb_exists. apply existsb_exists. exists c. split; [| done].
  right. apply in_or_app. left. apply in_flat_map. exists c. split; [done |].
  unfold Query.is_surrogate in Hs. apply andb_prop in Hs as [?%Z.leb_le ?%Z.leb_le]. unfold escape_char.
  rewrite !(proj2 (Z.eqb_neq c _)) by lia. rewrite (proj2 (Z.ltb_ge _ _)) by lia. by left.
Qed.
Lemma existsb_join p sep (l : list pystr) x : x ∈ l -> existsb p x = true -> existsb p (join sep l) = true.
Proof.
  intros Hin Hx. induction l as [| y [| z l] IH]; [by apply elem_of_nil in Hin | |].
  - by apply list_elem_of_singleton in Hin as ->.
  - change (join sep (y :: z :: l)) with (y ++ sep ++ join sep (z :: l)). rewrite !existsb_app.
    apply elem_of_cons in Hin as [-> | Hin]; [by rewrite Hx |]. by rewrite (IH Hin), !orb_true_r.
Qed.
Lemma existsb_block p ly n a b (l : list pystr) x : x ∈ l -> existsb p x = true -> existsb p (block ly n a b l) = true.
Proof.
  intros Hin Hx. destruct l as [| y l]; [by apply elem_of_nil in Hin |]. cbn [block existsb].
  rewrite !existsb_app, (existsb_join p _ _ x Hin Hx). by rewrite !orb_true_r.
Qed.
Lemma surrogate_serialise m e : e ∈ m -> existsb Query.is_surrogate e.1 = true \/ existsb Query.is_surrogate e.2 = true ->
  existsb Query.is_surrogate (serialise m) = true.
Proof.
  intros Hin Hs. unfold serialise, dumps. cbn [ly_sort file_layout].
  set (so := py_sorted (fun a b => str_lt a.1 b.1) (map (fun e : pystr * json => (e.1, sorted_keys e.2)) (map (fun e : pystr * pystr => (e.1, JStr e.2)) m))).
  assert (sorted_keys (store_json m) = JObj [(lit "secrets", JObj so); (lit "version", JInt 1)]) as -> by done.
  assert (Hso : (e.1, JStr e.2) ∈ so).
  { unfold so. rewrite py_sorted_Permutation, map_map. apply list_elem_of_fmap. by exists e. }
  cbn [dumps_at]. eapply existsb_block; [by left |]. rewrite !existsb_app, !orb_true_iff. right. right.
  eapply existsb_block; [by apply list_elem_of_fmap; eexists; split; [| exact Hso] |]. cbn [fst snd dumps_at ly_ascii file_layout].
  rewrite !existsb_app, !orb_true_iff. destruct Hs; [left | right; right]; by apply surrogate_dumps_str.
Qed.
Lemma entries_plain m : entries_ok m -> encodable (serialise m) = true -> plain_entries m.
Proof.
  intros [Hn Hm] He%negb_true_iff. split; [done |]. apply Forall_forall. intros e Hin.
  destruct (proj1 (Forall_forall _ _) Hm e Hin).
  split; (apply encodable_plain; [done |]; apply negb_true_iff, not_true_is_false; intros Hs;
    enough (existsb Query.is_surrogate (serialise m) = true) by congruence; apply (surrogate_serialise m e Hin); by auto).
Qed.

Lemma plain_escape s : plain s -> existsb Query.is_surrogate (dumps_str false s) = false.
Proof.
  intros Hs. apply not_true_is_false. intros (c & Hin & Hc)%existsb_exists.
  assert (Hz : c <= 127 \/ plain [c]).
  { destruct Hin as [<- | [Hin | [<- | []]]%in_app_or]; [lia | | lia]. apply in_flat_map in Hin as (x & Hx & Hin).
    rewrite <- list_elem_of_In in Hx. pose proof (proj1 (Forall_forall _ _) Hs x Hx) as Hp. cbn beta in Hp.
    unfold escape_char, hex4, Hex.digit in Hin. destruct Hp as [Hcp Hsur]. unfold code_point in Hcp.
    repeat match type of Hin with In _ (if ?b then _ else _) => destruct b eqn:? end;
      try (cbn [In orb negb] in Hin; destruct_or? Hin; subst; try done; left; case_ifs; zb_simpl; Z.div_mod_to_equations; lia).
    cbn [In] in Hin. destruct Hin as [<- | []]. right. by apply list.Forall_singleton. }
  unfold Query.is_surrogate in Hc. destruct Hz as [Hz | Hz]; [zb |]. apply list.Forall_singleton in Hz as [_ Hn]. unfold Query.is_surrogate in Hn. congruence.
Qed.

Notation clean s := (existsb Query.is_surrogate s = false).
Lemma clean_app (a b : pystr) : clean a -> clean b -> clean (a ++ b).
Proof. intros Ha Hb. by rewrite existsb_app, Ha, Hb. Qed.
Lemma clean_join sep (l : list pystr) : clean sep -> Forall (fun s => clean s) l -> clean (join sep l).
Proof.
  intros Hs. induction 1 as [| x l Hx Hl IH]; [done |]. destruct l as [| y l]; [done |].
  change (join sep (x :: y :: l)) with (x ++ sep ++ join sep (y :: l)). by auto using clean_app.
Qed.
Lemma clean_block n a b (l : list pystr) : clean [a] -> clean [b] -> Forall (fun s => clean s) l -> clean (block file_layout n a b l).
Proof.
  intros Ha Hb Hl. assert (Hn : forall k, clean (newline file_layout k)).
  { intros k. cbn [newline ly_indent file_layout existsb]. by induction (2 * k)%nat. }
  assert (Hi : clean (ly_item file_layout)) by done.
  destruct l as [| x l]; cbn [block]; [by apply (clean_app [a] [b]) |]. apply (clean_app [a]); [done |].
  repeat apply clean_app; try done. apply clean_join; [by apply clean_app | done].
Qed.
Lemma plain_encodable m : plain_entries m -> encodable (serialise m) = true.
Proof.
  intros [_ Hm]. unfold encodable, serialise, dumps. cbn [ly_sort file_layout]. apply negb_true_iff.
  set (so := py_sorted (fun a b => str_lt a.1 b.1) (map (fun e : pystr * json => (e.1, sorted_keys e.2)) (map (fun e : pystr * pystr => (e.1, JStr e.2)) m))).
  assert (sorted_keys (store_json m) = JObj [(lit "secrets", JObj so); (lit "version", JInt 1)]) as -> by done.
  assert (Hso : Forall (fun e : pystr * json => clean (dumps_str false e.1 ++ ly_key file_layout ++ dumps_at file_layout 2 e.2)) so).
  { unfold so. rewrite py_sorted_Permutation, map_map. apply Forall_fmap. eapply Forall_impl; [exact Hm |]. intros e [Hk Hv].
    cbn [compose fst snd dumps_at sorted_keys ly_ascii file_layout]. apply clean_app; [by apply plain_escape | apply clean_app; [done | by apply plain_escape]]. }
  cbn [dumps_at]. apply clean_block; [done..|]. repeat constructor. cbn [fst snd dumps_at].
  repeat apply clean_app; [done..|]. apply clean_block; [done..|]. by apply Forall_fmap.
Qed.

(** ** What the file holds *)

(** The store can be read and holds [m], in some order. *)
Definition holds d m : Prop := exists m', read d = Ok m' /\ m' ≡ₚ m.
Lemma od_get_perm (m m' : list (pystr * pystr)) k : NoDup m.*1 -> m' ≡ₚ m -> od_get k m' = od_get k m.
Proof.
  intros Hn Hp. assert (Hn' : NoDup m'.*1) by by rewrite Hp. destruct (od_get k m') as [v |] eqn:E.
  - apply od_get_elem in E. rewrite Hp in E. by apply (od_elem_get _ _ _ Hn) in E.
  - destruct (od_get k m) as [v |] eqn:E2; [| done]. apply od_get_elem in E2. rewrite <- Hp in E2.
    apply (od_elem_get _ _ _ Hn') in E2. congruence.
Qed.
Lemma get_holds d m u : NoDup m.*1 -> holds d m -> get u d = Ok (od_get u m).
Proof. intros Hn (m' & Hr & Hp). unfold get. rewrite Hr. f_equal. by apply od_get_perm. Qed.

(** The mode of a directory the store creates lets nobody else in. *)
Lemma masked_private e mode : Z.land mode GROUP_AND_OTHER_BITS = 0 -> Z.land (masked e mode) GROUP_AND_OTHER_BITS = 0.
Proof. intros Hm. unfold masked. by rewrite <- Z.land_assoc, (Z.land_comm (Z.lnot _)), Z.land_assoc, Hm, Z.land_0_l. Qed.
Lemma private_not_exposed mode : Z.land mode GROUP_AND_OTHER_BITS = 0 -> directory_exposure mode = PRIVATE.
Proof.
  intros Hm. unfold directory_exposure.
  assert (Hb : forall b, Z.land GROUP_AND_OTHER_BITS b = b -> Z.land mode b = 0).
  { intros b Hb. rewrite <- Hb, Z.land_assoc, Hm. apply Z.land_0_l. }
  by rewrite !Hb by done.
Qed.
Lemma made_readable e d : check_parent_directory d = Ok () ->
  check_parent_directory (SecretDir (Some (default (masked e SECRETS_DIR_MODE) (sd_mode d))) (sd_file d) (sd_tmp d)) = Ok ().
Proof.
  unfold check_parent_directory. cbn. destruct (sd_mode d) as [mode |]; cbn; [done |]. intros _.
  rewrite bool_decide_eq_false_2; [done |]. by rewrite private_not_exposed by by apply masked_private.
Qed.
(** Reading looks at the directory's mode and the file only. *)
Lemma read_made e d d' : sd_mode d' = sd_mode d \/ sd_mode d' = Some (default (masked e SECRETS_DIR_MODE) (sd_mode d)) ->
  sd_file d' = sd_file d -> check_parent_directory d = Ok () -> read d' = read d.
Proof.
  intros Hm Hf Hc. unfold read. rewrite Hf, Hc. destruct Hm as [Hm | Hm].
  - unfold check_parent_directory in *. by rewrite Hm, Hc.
  - pose proof (made_readable e d Hc) as Hmade. unfold check_parent_directory in *. rewrite Hm. cbn in Hmade. by rewrite Hmade.
Qed.
Lemma holds_checked d m : holds d m -> check_parent_directory d = Ok ().
Proof. intros (m' & Hr & _). unfold read in Hr. by destruct (check_parent_directory d) as [[] |]. Qed.

Lemma after_calls_file e text d n k : (n < 5)%nat -> sd_file (after_calls e text d n k) = sd_file d.
Proof. intros Hn. do 5 (destruct n as [| n]; [done |]). lia. Qed.
Lemma after_calls_mode e text d n k : sd_mode (after_calls e text d n k) = sd_mode d \/
  sd_mode (after_calls e text d n k) = Some (default (masked e SECRETS_DIR_MODE) (sd_mode d)).
Proof. destruct n as [| n]; [by left | right]. by do 4 (destruct n as [| n]; [done |]). Qed.

(** However a write of [m'] ends, the store holds what it held or [m']; when it
    returns it holds [m'], and when it raised before the rename, what it held. *)
Lemma write_spec e m m' d : holds d m -> entries_ok m' -> let '(d', r) := write e m' d in
  (holds d' m \/ holds d' m' /\ plain_entries m') /\ (r = Some (Ok ()) -> holds d' m' /\ plain_entries m') /\
  (r <> None -> sd_tmp d = None -> sd_tmp d' = None) /\
  (ue_end e = Completes -> sd_tmp d = None -> plain_entries m' -> r = Some (Ok ())).
Proof.
  intros Hh Hm'.
  pose proof (holds_checked d m Hh) as Hc.
  assert (Hold : forall d', sd_file d' = sd_file d ->
    (sd_mode d' = sd_mode d \/ sd_mode d' = Some (default (masked e SECRETS_DIR_MODE) (sd_mode d))) -> holds d' m).
  { intros d' Hf Hmd. destruct Hh as (m0 & Hr & Hp). exists m0. split; [| done]. rewrite <- Hr. by eapply read_made. }
  assert (Hpart : forall text n k, (n < 5)%nat -> holds (after_calls e text d n k) m).
  { intros text n k Hlt. apply Hold; [by apply after_calls_file | by apply after_calls_mode]. }
  assert (Hnew : forall n k, (5 <= n)%nat -> encodable (serialise m') = true -> holds (after_calls e (serialise m') d n k) m' /\ plain_entries m').
  { intros n k Hle He.
    pose proof (entries_plain m' Hm' He) as Hp.
    split; [| done]. destruct (deserialise_serialise m' Hp) as (m0 & Hd & Hperm). exists m0. split; [| done].
    do 5 (destruct n as [| n]; [lia |]). unfold read. cbn [after_calls sd_file sd_mode].
    pose proof (made_readable e d Hc) as Hmade. unfold check_parent_directory in *. cbn [sd_mode] in *. rewrite Hmade. done. }
  assert (Hcl : forall d0 m0, holds d0 m0 -> holds (cleanup d0) m0) by done.
  assert (Hall : forall n k, encodable (serialise m') = true ->
    holds (after_calls e (serialise m') d n k) m \/ holds (after_calls e (serialise m') d n k) m' /\ plain_entries m').
  { intros n k He. destruct (decide (n < 5)%nat); [left; by apply Hpart | right; apply Hnew; [lia | done]]. }
  unfold write, write_text. destruct (sd_tmp d) as [t |] eqn:Et; destruct (encodable _) eqn:Eenc;
    destruct (ue_end e) as [| [| [| n]] k | [| n] k]; split_and!; try done; auto using Hpart with lia.
  - destruct (Hall (S n) k eq_refl) as [| []], (S n <=? 1)%nat; cbn [id]; auto.
  - intros _ _. by destruct n.
  - intros _ _ Hp%plain_encodable. congruence.
Qed.

(** ** Who can read it *)

(** No file of the store can be opened by its group or by others. *)
Definition files_private d : Prop :=
  forall f, sd_file d = Some f \/ sd_tmp d = Some f -> mode_is_private (sf_mode f) = true.
Lemma mode_private mode : Z.land mode GROUP_AND_OTHER_BITS = 0 -> mode_is_private mode = true.
Proof. intros Hm. unfold mode_is_private. by rewrite Hm. Qed.
Lemma after_calls_private e text d n k : files_private d -> files_private (after_calls e text d n k).
Proof.
  intros Hd f. assert (Hm : mode_is_private (masked e SECRETS_FILE_MODE) = true) by by apply mode_private, masked_private.
  do 5 (destruct n as [| n]; [cbn; intros [Hf | Hf]; [by apply Hd; left | by first [injection Hf as <- | apply Hd; right]] |]).
  by intros [[= <-] | [=]].
Qed.
Lemma cleanup_private d : files_private d -> files_private (cleanup d).
Proof. intros Hd f [Hf | [=]]. by apply Hd; left. Qed.
Lemma write_private e m d : files_private d -> files_private (write e m d).1.
Proof.
  intros Hd. unfold write, write_text. repeat case_match; cbn [fst id]; by auto using after_calls_private, cleanup_private.
Qed.

Lemma change_secret_private e a k v d : files_private d -> files_private (change_secret e a k v d).1.
Proof.
  intros Hd. unfold change_secret, set, Secrets.delete. repeat case_match; cbn [fst]; by auto using write_private.
Qed.

(** ** The store as a map *)

Definition update (A : gmap (pystr * kind) pystr) (a : pystr) (k : kind) (v : option pystr) :=
  match v with Some x => <[(a, k) := x]> A | None => base.delete (a, k) A end.
(** The store holds the secrets of [A], and perhaps entries of no account. *)
Definition represents d (A : gmap (pystr * kind) pystr) : Prop :=
  exists m, plain_entries m /\ holds d m /\ forall a k, account_name a -> od_get (username a k) m = A !! (a, k).
Lemma represents_get d A a k : represents d A -> account_name a -> get_secret a k d = Ok (A !! (a, k)).
Proof. intros (m & [Hn _] & Hh & HA) Ha. unfold get_secret. by rewrite (get_holds d m), HA. Qed.

Lemma plain_text s : plain s -> text_ok s.
Proof. intros Hs. eapply Forall_impl; [exact Hs |]. by intros c []. Qed.
Lemma entries_perm Q m m' : m' ≡ₚ m -> entries_are Q m -> entries_are Q m'.
Proof. intros Hp [? ?]. split; by rewrite Hp. Qed.
Lemma entries_impl (Q Q' : pystr -> Prop) m : (forall s, Q s -> Q' s) -> entries_are Q m -> entries_are Q' m.
Proof. intros HQ [Hn Hm]. split; [done |]. eapply Forall_impl; [exact Hm |]. intros x []. auto. Qed.
Lemma entries_set Q m u v : entries_are Q m -> Q u -> Q v -> entries_are Q (od_set u v m).
Proof.
  intros [Hn Hm] Hu Hv. split; [by apply od_set_nodup |]. clear Hn. induction Hm as [| [u' v'] m He Hm IH]; cbn; [by repeat constructor |].
  case_decide; by constructor.
Qed.
Lemma entries_del Q m u : entries_are Q m -> entries_are Q (od_del u m).
Proof. intros [Hn Hm]. split; [by apply od_del_nodup |]. apply Forall_forall. intros x [_ Hx]%list_elem_of_filter. by apply (proj1 (Forall_forall _ _) Hm). Qed.
Lemma username_all (P : Z -> Prop) a k : (forall c, 0 <= c < 128 -> P c) -> Forall P a -> Forall P (username a k).
Proof.
  intros HP Ha. destruct k; [done |]. apply Forall_app. split; [done |]. change REFRESH_SUFFIX with [58; 114; 101; 102; 114; 101; 115; 104].
  rewrite !list.Forall_cons. split_and!; try (apply HP; lia). by apply list.Forall_nil.
Qed.
Lemma username_text a k : text_ok a -> text_ok (username a k).
Proof. apply username_all. intros c ?. unfold code_point. lia. Qed.
Lemma username_plain a k : plain a -> plain (username a k).
Proof. apply username_all. intros c ?. unfold code_point, Query.is_surrogate. zb. Qed.

(** A change reads the store and, if there is anything to do, writes it. *)
Lemma change_secret_write e a k v d A : represents d A -> account_name a ->
  change_secret e a k v d = (d, Some (Ok ())) /\ update A a k v = A \/
  exists m m', plain_entries m /\ holds d m /\ change_secret e a k v d = write e m' d /\
    (forall Q : pystr -> Prop, entries_are Q m -> Q (username a k) -> from_option Q True v -> entries_are Q m') /\
    (forall a k, account_name a -> od_get (username a k) m = A !! (a, k)) /\
    (forall b k', account_name b -> od_get (username b k') m' = update A a k v !! (b, k')).
Proof.
  intros (m & Hm & (m0 & Hr & Hp) & HA) Ha. pose proof (entries_perm _ _ _ Hp Hm) as Hm0.
  assert (HA0 : forall a k, account_name a -> od_get (username a k) m0 = A !! (a, k)).
  { intros b k' Hb. rewrite (od_get_perm m m0); [by apply HA | apply Hm | done]. }
  destruct v as [v |]; cbn [change_secret update from_option] in *; unfold set, Secrets.delete in *; rewrite Hr.
  - right. exists m0, (od_set (username a k) v m0). split_and!; try done; [by exists m0 | by intros; apply entries_set |].
    intros b k' Hb. rewrite od_get_set. case_decide as Hu.
    + apply username_inj in Hu as [-> ->]; [| done..]. by rewrite lookup_insert_eq.
    + rewrite lookup_insert_ne by congruence. by apply HA0.
  - destruct (od_get (username a k) m0) as [x |] eqn:E.
    + right. exists m0, (od_del (username a k) m0). split_and!; try done; [by exists m0 | by intros; apply entries_del |].
      intros b k' Hb. rewrite od_get_del. case_decide as Hu.
      * apply username_inj in Hu as [-> ->]; [| done..]. by rewrite lookup_delete_eq.
      * rewrite lookup_delete_ne by congruence. by apply HA0.
    + left. split; [done |]. apply delete_id. by rewrite <- HA0.
Qed.

(** A change, as a step of the map. *)
Lemma change_secret_step e a k v d A :
  represents d A -> account_name a -> text_ok a -> from_option text_ok True v ->
  let '(d', r) := change_secret e a k v d in
  (represents d' A \/ represents d' (update A a k v)) /\
  (r = Some (Ok ()) -> represents d' (update A a k v)) /\
  (r <> None -> sd_tmp d = None -> sd_tmp d' = None) /\
  (ue_end e = Completes -> sd_tmp d = None -> plain a -> from_option plain True v -> r = Some (Ok ())).
Proof.
  intros Hd Ha Hta Hv.
  destruct (change_secret_write e a k v d A Hd Ha) as [[-> ->] | (m & m' & Hm & Hh & -> & Hm' & HA & HA')]; [by split_and!; auto |].
  assert (Hok : entries_ok m').
  { apply Hm'; [by eapply entries_impl, Hm; apply plain_text | by apply username_text | done]. }
  pose proof (write_spec e m m' d Hh Hok) as Hw. destruct (write e m' d) as [d' r]. destruct Hw as (H1 & H2 & H3 & H4).
  assert (HR : holds d' m' /\ plain_entries m' -> represents d' (update A a k v)) by (intros [? ?]; by exists m').
  split_and!; [| by intros Hr; apply HR, H2 | done |].
  - destruct H1; [left; by exists m | right; by apply HR].
  - intros He Ht Hpa Hpv. apply H4; [done.. |]. apply Hm'; [done | by apply username_plain | done].
Qed.

(** A JSON null in the mapping is refused by every read from then on. *)
Lemma null_json_ok m u : plain_entries m -> plain u -> json_ok (null_json m u).
Proof.
  intros Hm Hu. apply mapping_json_ok; [apply od_set_nodup; rewrite keys_of_strings; apply Hm |].
  induction (strings_ok m Hm) as [| [u' v'] o Ho Hos IH]; cbn [od_set]; [by repeat constructor |].
  case_decide; by constructor.
Qed.
Lemma mapM_entry_null (o : list (pystr * json)) u : (u, JNull) ∈ o -> mapM entry o = None.
Proof.
  intros Hin. destruct (mapM entry o) as [m |] eqn:E; [| done]. apply mapM_Some in E.
  apply list_elem_of_lookup in Hin as [i Hi]. destruct (Forall2_lookup_l _ _ _ _ _ E Hi) as (y & _ & [=]).
Qed.
Lemma null_unreadable m u : plain_entries m -> plain u ->
  deserialise (dumps file_layout (null_json m u)) = Err SecretsFileCorrupt.
Proof.
  intros Hm Hu. unfold deserialise. rewrite loads_dumps by (apply file_layout_ok || by apply null_json_ok).
  set (o := map (fun e : pystr * json => (e.1, sorted_keys e.2)) (od_set u JNull (map (fun e : pystr * pystr => (e.1, JStr e.2)) m))).
  set (so := py_sorted (fun a b => str_lt a.1 b.1) o).
  assert (Hs : sorted_keys (null_json m u) = JObj [(lit "secrets", JObj so); (lit "version", JInt 1)]) by done.
  cbn [ly_sort file_layout]. rewrite Hs. change (od_get (lit "version") _) with (Some (JInt 1)).
  change (od_get (lit "secrets") _) with (Some (JObj so)). cbn [from_option id equals_int].
  change (1 =? SECRETS_FORMAT_VERSION) with true. cbn iota. rewrite (mapM_entry_null so u); [done |].
  unfold so. rewrite py_sorted_Permutation. apply list_elem_of_fmap. exists (u, JNull). split; [done |].
  apply od_get_elem. by rewrite od_get_set, decide_True.
Qed.
Lemma set_null_corrupts e a k d d' A : represents d A -> plain a -> set_null e (username a k) d = (d', Some (Ok ())) ->
  forall b k', get_secret b k' d' = Err SecretsFileCorrupt.
Proof.
  intros (m & Hm & (m0 & Hr & Hp) & _) Ha Hs b k'. unfold set_null in Hs. rewrite Hr in Hs.
  assert (Hm0 : plain_entries m0) by by eapply entries_perm.
  assert (Hd : d' = after_calls e (dumps file_layout (null_json m0 (username a k))) d 5 0).
  { unfold write_text in Hs. repeat case_match; simplify_eq; done. }
  assert (Hc : check_parent_directory d = Ok ()) by by apply (holds_checked d m0); exists m0.
  pose proof (made_readable e d Hc) as Hmade. unfold check_parent_directory in Hmade. cbn [sd_mode] in Hmade.
  unfold get_secret, get, read. rewrite Hd. unfold check_parent_directory. cbn [after_calls sd_file sd_mode]. rewrite Hmade.
  cbn -[deserialise dumps]. rewrite null_unreadable; [done | done | by apply username_plain].
Qed.

(** C27: the secrets file is a map from account and kind to secret.  Every
    well-named account reads its own secrets; a change that returns changes that
    secret only; one that fails or is killed at any system call leaves the old map
    or the new one; a failure leaves no temporary file; a change nothing interrupts
    succeeds; and no file of the store is ever open to group or others. *)
Theorem secrets_refine_a_map e a k v d A :
  represents d A -> account_name a -> text_ok a -> from_option text_ok True v ->
  (forall b k', account_name b -> get_secret b k' d = Ok (A !! (b, k'))) /\
  let '(d', r) := change_secret e a k v d in
  (represents d' A \/ represents d' (update A a k v)) /\
  (r = Some (Ok ()) -> represents d' (update A a k v)) /\
  (r <> None -> sd_tmp d = None -> sd_tmp d' = None) /\
  (ue_end e = Completes -> sd_tmp d = None -> plain a -> from_option plain True v -> r = Some (Ok ())) /\
  (files_private d -> files_private d').
Proof.
  intros Hd Ha Hta Hv. split; [by intros; apply represents_get |].
  pose proof (change_secret_step e a k v d A Hd Ha Hta Hv) as Hs. pose proof (change_secret_private e a k v d) as Hp.
  destruct (change_secret e a k v d) as [d' r]. by destruct Hs as (? & ? & ? & ?).
Qed.

(** ** The migration *)

Section migration.
Context (source : pystr -> option pystr).
(** An item of the plan for a well-named account. *)
Record item_ok (it : MigrationItem) : Prop := ItemOk {
  io_username : mi_username it = username (mi_account_name it) (mi_kind it);
  io_value : mi_value it = source (mi_username it);
  io_some : is_Some (mi_value it);
  io_name : account_name (mi_account_name it);
  io_plain : plain (mi_account_name it);
  io_text : from_option plain True (mi_value it);
}.
Definition slot (it : MigrationItem) := (mi_account_name it, mi_kind it).
(** The copying loop moves some slots to the source's value and no other; when
    every write runs through it moves them all. *)
Lemma copy_spec e l d A : represents d A -> Forall item_ok l -> exists A', represents (copy e l d).1 A' /\
  (forall s, A' !! s = A !! s \/ exists it, it ∈ l /\ slot it = s /\ A' !! s = mi_value it) /\
  ((forall it, ue_end (e it) = Completes) -> sd_tmp d = None ->
    (copy e l d).2 = Some (Ok ()) /\ forall it, it ∈ l -> A' !! slot it = mi_value it).
Proof.
  intros Hd Hl. revert d A Hd. induction Hl as [| it l Hit Hl IH]; intros d A Hd.
  { exists A. split_and!; [done | by left |]. intros _ _. split; [done |]. by intros it ?%elem_of_nil. }
  destruct Hit as [Hu Hval [v Hv] Hn Hp Ht]. cbn [copy]. rewrite Hv in Ht. cbn [from_option] in Ht. rewrite Hv, Hu.
  pose proof (change_secret_step (e it) (mi_account_name it) (mi_kind it) (Some v) d A Hd Hn (plain_text _ Hp) (plain_text _ Ht)) as Hstep.
  cbn [change_secret update from_option] in Hstep.
  change (mi_account_name it, mi_kind it) with (slot it) in Hstep.
  assert (Hs1 : forall s, <[slot it := v]> A !! s = A !! s \/ exists it', it' ∈ it :: l /\ slot it' = s /\ <[slot it := v]> A !! s = mi_value it').
  { intros s. destruct (decide (slot it = s)) as [<- |]; [right; exists it | left; by rewrite lookup_insert_ne].
    split_and!; [by left | done | by rewrite lookup_insert_eq]. }
  destruct (set (e it) (username (mi_account_name it) (mi_kind it)) v d) as [d1 r] eqn:Es.
  destruct Hstep as (Heither & Hdone & Htmp & Hrun). assert (r = Some (Ok ()) \/ r <> Some (Ok ())) as [-> | Hr] by (destruct r as [[[] |] |]; by auto); cbn [fst snd].
  - destruct (IH d1 _ (Hdone eq_refl)) as (A' & HR & Hs & Hall). exists A'. split_and!; [done | |].
    + intros s. destruct (Hs s) as [-> | (it' & Hin & ? & ?)]; [by apply Hs1 |]. right. exists it'. split_and!; [by right | done | done].
    + intros Hc Ht0. destruct (Hall Hc (Htmp ltac:(done) Ht0)) as [-> Hl']. split; [done |].
      intros it' [-> | Hin]%elem_of_cons; [| by apply Hl']. destruct (Hs (slot it)) as [-> | (it' & Hin & [= Ha Hk] & ->)].
      * by rewrite lookup_insert_eq.
      * apply (proj1 (Forall_forall _ _) Hl) in Hin. rewrite (io_value _ Hin), (io_username _ Hin), Ha, Hk. congruence.
  - assert (Hno : (forall it, ue_end (e it) = Completes) -> sd_tmp d = None -> False) by (intros Hc Ht0; by apply Hr, Hrun).
    destruct Heither as [HR | HR]; [exists A | exists (<[slot it := v]> A)];
      (destruct r as [[[] |] |]; [done | |]; (split; [done | split; [by auto | intros Hc Ht0; by destruct (Hno Hc Ht0)]])).
Qed.

(** The items of the plan. *)
Lemma elem_of_items names it : it ∈ items names source <->
  mi_account_name it ∈ names /\ mi_username it = username (mi_account_name it) (mi_kind it) /\ mi_value it = source (mi_username it).
Proof.
  unfold items. rewrite list_elem_of_In, in_flat_map. split.
  - intros (n & Hn%list_elem_of_In & Hi). apply in_map_iff in Hi as (k & <- & _). done.
  - destruct it as [n u k v]. cbn. intros (Hn & -> & ->). exists n.
    split; [by apply list_elem_of_In |]. destruct k; [by left | by right; left].
Qed.
(** The names and values the keyring holds are text a file can hold. *)
Definition source_ok (names : list pystr) : Prop :=
  Forall (fun a => account_name a /\ plain a) names /\ forall u v, source u = Some v -> plain v.
Lemma to_copy_ok names : source_ok names -> Forall item_ok (to_copy (plan_secret_migration names source)).
Proof.
  intros [Hn Hv]. apply Forall_forall. intros it [[v Hs] (Ha & Hu & Hval)%elem_of_items]%list_elem_of_filter.
  destruct (proj1 (Forall_forall _ _) Hn _ Ha) as [? ?]. split; try done.
  rewrite Hs. cbn. apply (Hv (mi_username it)). congruence.
Qed.
(** What the target holds after a migration. *)
Definition migrated (names : list pystr) (A : gmap (pystr * kind) pystr) (s : pystr * kind) : option pystr :=
  if decide (s.1 ∈ names) then Sql.coalesce (source (username s.1 s.2)) (A !! s) else A !! s.
Lemma copied_migrated (names : list pystr) (A A' : gmap (pystr * kind) pystr) (s : pystr * kind) :
  (A' !! s = A !! s \/ exists it, it ∈ to_copy (plan_secret_migration names source) /\ slot it = s /\ A' !! s = mi_value it) ->
  A' !! s = A !! s \/ A' !! s = migrated names A s /\ s.1 ∈ names /\ is_Some (source (username s.1 s.2)).
Proof.
  intros [| (it & [[v Hs] (Ha & Hu & Hval)%elem_of_items]%list_elem_of_filter & <- & HA)]; [by left | right].
  unfold migrated, slot in *. cbn [fst snd]. rewrite decide_True by done. rewrite <- Hu, <- Hval, HA, Hs. by split_and!; [| | exists v].
Qed.
Lemma migrated_idle (names : list pystr) A s : ~ (s.1 ∈ names /\ is_Some (source (username s.1 s.2))) -> migrated names A s = A !! s.
Proof.
  intros Hn. unfold migrated. case_decide; [| done]. destruct (source _) as [v |] eqn:E; [| done]. destruct Hn. split; [done | by exists v].
Qed.

(** C28: a migration stopped anywhere leaves each secret of the file as it was or
    copied, and running it again, once a leftover temporary file is removed, copies
    every secret the keyring holds and keeps the others. *)
Theorem migration_is_resumable e1 e2 names d d1 A :
  source_ok names -> represents d A -> (forall it, ue_end (e2 it) = Completes) ->
  d1 = (migrate_secrets e1 names source false d).1 ->
  (forall a k, account_name a -> get_secret a k d1 = Ok (A !! (a, k)) \/ get_secret a k d1 = Ok (migrated names A (a, k))) /\
  let '(d2, r) := migrate_secrets e2 names source false (cleanup d1) in
  r = Some (Ok ()) /\ (forall a k, account_name a -> get_secret a k d2 = Ok (migrated names A (a, k))).
Proof.
  intros Hs Hd He2 ->. pose proof (to_copy_ok names Hs) as Hok. cbn [migrate_secrets].
  destruct (copy_spec e1 _ d A Hd Hok) as (A1 & HR1 & Hs1 & _). unfold migrate_secrets. set (d1 := (copy e1 _ d).1) in *. split.
  { intros a k Ha. rewrite (represents_get d1 A1) by done. destruct (copied_migrated names A A1 (a, k) (Hs1 _)) as [-> | [-> _]]; auto. }
  destruct (copy_spec e2 _ (cleanup d1) A1 HR1 Hok) as (A2 & HR2 & Hs2 & Hall). destruct (Hall He2 eq_refl) as [Hr Hv].
  destruct (copy e2 _ (cleanup d1)) as [d2 r]. cbn [fst snd] in *. split; [done |]. intros a k Ha.
  rewrite (represents_get d2 A2) by done. f_equal.
  destruct (decide (a ∈ names /\ is_Some (source (username a k)))) as [[Hin [v Hsv]] | Hn].
  - assert (Hit : Item a (username a k) k (Some v) ∈ to_copy (plan_secret_migration names source)).
    { apply list_elem_of_filter. split; [by exists v |]. by apply elem_of_items. }
    pose proof (Hv _ Hit) as Hvit. change (A2 !! (a, k) = Some v) in Hvit. rewrite Hvit. unfold migrated. cbn [fst snd]. by rewrite decide_True, Hsv.
  - rewrite migrated_idle by done.
    destruct (copied_migrated names A1 A2 (a, k) (Hs2 _)) as [-> | [_ ?]]; [| done].
    by destruct (copied_migrated names A A1 (a, k) (Hs1 _)) as [-> | [_ ?]].
Qed.
End migration.

(** ** The configured backend *)

(** A default config does not undo the backend a named one installed. *)
Lemma named_config_stays (l : list backend) c s :
  foldl (fun s c => configure c false s) (configure c true s) l = Selection c true.
Proof.
  assert (configure c true s = Selection c true) as -> by by destruct s as [? []].
  by induction l.
Qed.
End facts.

(** ** Witnesses *)

#[local] Instance Example_floats : PyFloatText := { parse_float := fun _ => float_of_int 0 }.
Definition Example_ann : pystr := lit "ann".
Definition Example_empty : secret_dir := SecretDir None None None.
Lemma Example_represents : represents Example_empty ∅.
Proof. exists []. split_and!; [by split; constructor | by exists [] | by intros]. Qed.
Lemma Example_ann_ok : account_name Example_ann /\ plain Example_ann.
Proof. split; [done |]. by repeat (apply list.Forall_cons; split; [done |]). Qed.
Definition Example_runs : umask_env := UmaskEnv 18 Completes.
Lemma secrets_refine_a_map_witness :
  let '(d', r) := change_secret Example_runs Example_ann Password (Some (lit "pw")) Example_empty in
  r = Some (Ok ()) /\ get_secret Example_ann Password d' = Ok (Some (lit "pw")) /\ get_secret Example_ann RefreshToken d' = Ok None.
Proof.
  assert (Hpw : plain (lit "pw")) by by repeat (apply list.Forall_cons; split; [done |]).
  destruct Example_ann_ok as [Ha Hp].
  pose proof (secrets_refine_a_map Example_runs Example_ann Password (Some (lit "pw")) Example_empty ∅ Example_represents Ha (plain_text _ Hp) (plain_text _ Hpw)) as [_ Hs].
  destruct (change_secret _ _ _ _ _) as [d' r]. destruct Hs as (_ & Hd & _ & Hr & _).
  assert (r = Some (Ok ())) as -> by by apply Hr. specialize (Hd eq_refl).
  split_and!; [done | by rewrite (represents_get d' _ _ _ Hd Ha) |]. by rewrite (represents_get d' _ _ _ Hd Ha).
Defined.
Definition Example_keyring (u : pystr) : option pystr := if decide (u = Example_ann) then Some (lit "pw") else None.
Lemma migration_is_resumable_witness :
  let '(d, r) := migrate_secrets (fun _ => Example_runs) [Example_ann] Example_keyring false
    (cleanup (migrate_secrets (fun _ => UmaskEnv 18 (Killed 3 0)) [Example_ann] Example_keyring false Example_empty).1) in
  r = Some (Ok ()) /\ get_secret Example_ann Password d = Ok (Some (lit "pw")).
Proof.
  destruct Example_ann_ok as [Ha Hp].
  assert (Hok : source_ok Example_keyring [Example_ann]).
  { split; [by apply list.Forall_singleton |]. intros u v. unfold Example_keyring. case_decide; [| done]. intros [= <-].
    by repeat (apply list.Forall_cons; split; [done |]). }
  pose proof (migration_is_resumable Example_keyring (fun _ => UmaskEnv 18 (Killed 3 0)) (fun _ => Example_runs) [Example_ann] Example_empty _ ∅
    Hok Example_represents (fun _ => eq_refl) eq_refl) as [_ Hs].
  destruct (migrate_secrets (fun _ => Example_runs) _ _ _ _) as [d r]. destruct Hs as [-> Hs]. split; [done |]. by rewrite Hs.
Defined.
