(* ===== verification/Workers.v ===== *)
(** * The mail threads of an account ([idle.py], [poller.py], [imap_client.py])

    The IDLE loop and the poll loop as programs over an environment that answers
    every call they make: how long it took, whether it raised, what it returned and
    whether the stop event was set meanwhile.  The environment is a list, one entry
    for each call; where it ends the thread is inside a call.  Times are in
    milliseconds, and every call is recorded with its start and end. *)
From S2P Require Import Prelude PyStr Errors Sync AdminAccounts.

Inductive call :=
  | NewClient | Keepalive | GetPassword | Login | GetRefreshToken | FreshAccessToken | OauthLogin | Logout
  | Beat (state : pystr) (folder : option pystr)
  | UpsertMailbox (name : pystr) | SelectFolder (name : pystr) | SyncMailbox (name : pystr) | ListFolders
  | IdleStart | IdleCheck (timeout : Z) | IdleDone
  | StopWait (timeout : Z).
Record outcome := Outcome {
  oc_elapsed : Z; oc_ok : bool; oc_stop : bool; oc_responses : bool; oc_secret : bool; oc_folders : list Sync.folder }.
Record event := Event { ev_call : call; ev_start : Z; ev_end : Z; ev_ok : bool; ev_stopped : bool; ev_folders : list Sync.folder }.
(** The clock, the stop event, the answers to come and the calls so far, newest
    first. *)
Record world := World { w_now : Z; w_stop : bool; w_todo : list (call -> outcome); w_trace : list event }.
Inductive result (A : Type) := Done (a : A) | Raised | Pending.
Arguments Done {A} a. Arguments Raised {A}. Arguments Pending {A}.
(** [WorkerContext] *)
Record WorkerContext := MkContext {
  cx_account : AccountConfig; cx_idle_renew_ms : Z; cx_poll_ms : Z; cx_gmail_client_secrets : bool }.

Module Workers.
Definition M (A : Type) : Type := world -> result A * world.
Definition ret {A} (a : A) : M A := fun w => (Done a, w).
Definition raise {A} : M A := fun w => (Raised, w).
Definition bind {A B} (m : M A) (k : A -> M B) : M B := fun w =>
  match m w with (Done a, w) => k a w | (Raised, w) => (Raised, w) | (Pending, w) => (Pending, w) end.
Notation "'do!' x <- m ; k" := (bind m (fun x => k)) (at level 10, x name, m at level 99, k at level 200).
Notation "'run' m ; k" := (bind m (fun _ => k)) (at level 10, m at level 99, k at level 200).
(** [try: m except Exception: h] *)
Definition catch {A} (m : M A) (h : M A) : M A := fun w => match m w with (Raised, w) => h w | r => r end.
(** [try: m finally: h] *)
Definition finally {A} (m : M A) (h : M ()) : M A := fun w =>
  match m w with
  | (Pending, w) => (Pending, w)
  | (Done a, w) => bind h (fun _ => ret a) w
  | (Raised, w) => bind h (fun _ => raise) w
  end.
(** [try: m except Exception: pass] *)
Definition swallow {A} (m : M A) : M () := catch (bind m (fun _ => ret ())) (ret ()).
Definition perform (c : call) : M outcome := fun w =>
  match w_todo w with
  | [] => (Pending, w)
  | f :: todo =>
      let o := f c in let now := w_now w + oc_elapsed o in
      (if oc_ok o then Done o else Raised,
       World now (w_stop w || oc_stop o) todo (Event c (w_now w) now (oc_ok o) (w_stop w) (oc_folders o) :: w_trace w))
  end.
Definition now : M Z := fun w => (Done (w_now w), w).
Definition stop_is_set : M bool := fun w => (Done (w_stop w), w).
(** [stop.wait(timeout)] *)
Definition stop_wait (timeout : Z) : M bool := run catch (perform (StopWait timeout)) (ret (Outcome 0 true false false false [])); stop_is_set.
(** Every turn of the loops makes a call, so the answers to come bound them. *)
Definition with_fuel {A} (m : nat -> M A) : M A := fun w => m (S (length (w_todo w))) w.
Definition out_of_fuel {A} : M A := fun w => (Pending, w).

(** ** [imap_client.open_connection] and [heartbeat.safe_heartbeat] *)

Definition safe_heartbeat (state : pystr) (folder : option pystr) : M () := swallow (perform (Beat state folder)).
Definition login (cx : WorkerContext) : M () :=
  let account := cx_account cx in
  if decide (ac_auth_method account = lit "password") then
    do! o <- perform GetPassword; if oc_secret o then run perform Login; ret () else raise
  else if decide (ac_auth_method account = lit "oauth2") then
    if decide (ac_oauth_provider account <> Some (lit "gmail")) then raise
    else if negb (cx_gmail_client_secrets cx) then raise
    else do! o <- perform GetRefreshToken;
         if oc_secret o then run perform FreshAccessToken; run perform OauthLogin; ret () else raise
  else raise.
Definition open_connection {A} (cx : WorkerContext) (body : M A) : M A :=
  run perform NewClient;
  finally (run perform Keepalive; run login cx; body) (swallow (perform Logout)).

(** ** [idle.py] *)

Definition INBOX : pystr := lit "INBOX".
Definition HEARTBEAT_MS : Z := 30000.
Definition RENEW_GUARD_MS : Z := 5000.
Definition RFC2177_IDLE_LIMIT_MS : Z := 29 * 60 * 1000.
Definition ensure_inbox_row : M () := run perform (UpsertMailbox INBOX); ret ().
Definition sync_inbox : M () := run perform (UpsertMailbox INBOX); run perform (SyncMailbox INBOX); ret ().
Definition idle_step (cx : WorkerContext) (renew_at : Z) : M Z :=
  run safe_heartbeat (lit "idle") None;
  do! t <- now;
  let budget := Z.max 1000 (renew_at - t) in
  do! o <- perform (IdleCheck (Z.min HEARTBEAT_MS budget));
  do! stopped <- stop_is_set;
  if stopped then ret renew_at
  else if oc_responses o then
    run perform IdleDone;
    run safe_heartbeat (lit "syncing") (Some INBOX);
    run sync_inbox;
    run perform IdleStart;
    do! t <- now; ret (t + cx_idle_renew_ms cx)
  else
    do! t <- now;
    if renew_at - RENEW_GUARD_MS <=? t then
      run perform IdleDone; run perform IdleStart; do! t <- now; ret (t + cx_idle_renew_ms cx)
    else ret renew_at.
Fixpoint idle_steps (fuel : nat) (cx : WorkerContext) (renew_at : Z) : M () :=
  match fuel with
  | 0%nat => out_of_fuel
  | S fuel => do! stopped <- stop_is_set;
              if stopped then ret () else do! renew_at <- idle_step cx renew_at; idle_steps fuel cx renew_at
  end.
Definition one_inbox_session (cx : WorkerContext) : M () :=
  open_connection cx (
    run safe_heartbeat (lit "connecting") None;
    run ensure_inbox_row;
    run perform (SelectFolder INBOX);
    run sync_inbox;
    run perform IdleStart;
    run safe_heartbeat (lit "idle") None;
    finally (do! t <- now; with_fuel (fun fuel => idle_steps fuel cx (t + cx_idle_renew_ms cx)))
            (swallow (perform IdleDone))).
Definition BACKOFF_INITIAL_MS : Z := 1000.
Definition BACKOFF_MAX_MS : Z := 60000.
(** The handler of both loops: the heartbeat, and whether to leave. *)
Definition crashed (backoff : Z) : M bool :=
  run safe_heartbeat (lit "reconnecting") None; stop_wait backoff.
Fixpoint inbox_idle_loop (fuel : nat) (cx : WorkerContext) (backoff : Z) : M () :=
  match fuel with
  | 0%nat => out_of_fuel
  | S fuel =>
      do! stopped <- stop_is_set;
      if stopped then ret ()
      else
        do! next <- catch (run one_inbox_session cx; ret (Some BACKOFF_INITIAL_MS))
                         (do! leave <- crashed backoff;
                          ret (if leave then None else Some (Z.min (backoff * 2) BACKOFF_MAX_MS)));
        match next with None => ret () | Some backoff => inbox_idle_loop fuel cx backoff end
  end.
Definition run_inbox_idle_loop (cx : WorkerContext) : M () :=
  with_fuel (fun fuel => inbox_idle_loop fuel cx BACKOFF_INITIAL_MS).

(** ** [poller.py] *)

Definition sync_folder (name : pystr) : M () := run perform (UpsertMailbox name); run perform (SyncMailbox name); ret ().
Fixpoint sync_selectable (l : list Sync.folder) : M () :=
  match l with
  | [] => ret ()
  | f :: l =>
      do! stopped <- stop_is_set;
      if stopped then ret ()
      else if decide (Sync.fo_name f = INBOX) then sync_selectable l
      else run safe_heartbeat (lit "syncing") (Some (Sync.fo_name f));
           run sync_folder (Sync.fo_name f); sync_selectable l
  end.
Definition one_poll_pass (cx : WorkerContext) : M () :=
  open_connection cx (
    run safe_heartbeat (lit "polling") None;
    do! o <- perform ListFolders;
    let account := cx_account cx in
    sync_selectable (Sync.folders_to_sync (oc_folders o) (Some (ac_folder_allow account))
      (Some (ac_folder_deny account)) (Some (ac_folder_deny_flags account)))).
Fixpoint wait_loop (fuel : nat) (deadline : Z) : M bool :=
  match fuel with
  | 0%nat => out_of_fuel
  | S fuel =>
      run safe_heartbeat (lit "idle") None;
      do! t <- now;
      let remaining := deadline - t in
      if remaining <=? 0 then ret false
      else do! stopped <- stop_wait (Z.min HEARTBEAT_MS remaining);
           if stopped then ret true else wait_loop fuel deadline
  end.
Definition wait_between_passes (cx : WorkerContext) : M bool :=
  do! t <- now; with_fuel (fun fuel => wait_loop fuel (t + cx_poll_ms cx)).
Fixpoint poll_loop (fuel : nat) (cx : WorkerContext) (backoff : Z) : M () :=
  match fuel with
  | 0%nat => out_of_fuel
  | S fuel =>
      do! stopped <- stop_is_set;
      if stopped then ret ()
      else
        do! crash <- catch (run one_poll_pass cx; ret None) (do! leave <- crashed backoff; ret (Some leave));
        match crash with
        | Some true => ret ()
        | Some false => poll_loop fuel cx (Z.min (backoff * 2) BACKOFF_MAX_MS)
        | None => do! leave <- wait_between_passes cx;
                  if leave then ret () else poll_loop fuel cx BACKOFF_INITIAL_MS
        end
  end.
Definition run_poll_loop (cx : WorkerContext) : M () := with_fuel (fun fuel => poll_loop fuel cx BACKOFF_INITIAL_MS).
End Workers.
