(* ===== verification/WorkersFacts.v ===== *)
(** * What the mail threads do, whatever answers they get *)
From S2P Require Import Prelude PyStr Errors Sync AdminAccounts Workers.
Import Workers.

(** ** A logic for the programs *)

Section logic.
(** What holds where a thread is found inside a call. *)
Context (G : world -> Prop).
Definition spec {A} (P : world -> Prop) (m : M A) (Q : A -> world -> Prop) (E : world -> Prop) : Prop :=
  forall w, P w -> match m w with (Done a, w') => Q a w' | (Raised, w') => E w' | (Pending, w') => G w' end.
(** The world after a call. *)
Definition after (c : call) (o : outcome) (todo : list (call -> outcome)) (w : world) : world :=
  World (w_now w + oc_elapsed o) (w_stop w || oc_stop o) todo
    (Event c (w_now w) (w_now w + oc_elapsed o) (oc_ok o) (w_stop w) (oc_folders o) :: w_trace w).

Lemma spec_pre {A} (P P' : world -> Prop) (m : M A) Q E : (forall w, P w -> P' w) -> spec P' m Q E -> spec P m Q E.
Proof. intros HP Hm w Hw. by apply Hm, HP. Qed.
Lemma spec_post {A} P (m : M A) (Q Q' : A -> world -> Prop) (E E' : world -> Prop) :
  spec P m Q E -> (forall a w, Q a w -> Q' a w) -> (forall w, E w -> E' w) -> spec P m Q' E'.
Proof. intros Hm HQ HE w Hw. specialize (Hm w Hw). destruct (m w) as [[a | |] w']; auto. Qed.
Lemma spec_ret {A} (a : A) (Q : A -> world -> Prop) E : spec (Q a) (ret a) Q E.
Proof. by intros w Hw. Qed.
Lemma spec_raise {A} (Q : A -> world -> Prop) E : spec E raise Q E.
Proof. by intros w Hw. Qed.
Lemma spec_bind {A B} P (m : M A) (k : A -> M B) R Q E :
  spec P m R E -> (forall a, spec (R a) (k a) Q E) -> spec P (bind m k) Q E.
Proof. intros Hm Hk w Hw. specialize (Hm w Hw). unfold bind. destruct (m w) as [[a | |] w']; [by apply Hk | done..]. Qed.
Lemma spec_catch {A} P (m h : M A) Q E E' : spec P m Q E' -> spec E' h Q E -> spec P (catch m h) Q E.
Proof. intros Hm Hh w Hw. specialize (Hm w Hw). unfold catch. destruct (m w) as [[a | |] w']; [done | by apply Hh | done]. Qed.
Lemma spec_finally {A} P (m : M A) h R Q E E' :
  spec P m R E' -> (forall a, spec (R a) h (fun _ => Q a) E) -> spec E' h (fun _ => E) E -> spec P (finally m h) Q E.
Proof.
  intros Hm Hh He w Hw. specialize (Hm w Hw). unfold finally. destruct (m w) as [[a | |] w'].
  - specialize (Hh a w' Hm). unfold bind. by destruct (h w') as [[] ?].
  - specialize (He w' Hm). unfold bind. by destruct (h w') as [[] ?].
  - done.
Qed.
Lemma spec_swallow {A} P (m : M A) Q E : spec P m (fun _ w => Q w) Q -> spec P (swallow m) (fun _ w => Q w) E.
Proof. intros Hm. apply (spec_catch _ _ _ _ _ Q); [eapply spec_bind; [exact Hm | by intros a w Hw] | by intros w Hw]. Qed.
Lemma spec_perform (P : world -> Prop) c (Q : outcome -> world -> Prop) E :
  (forall w, P w -> w_todo w = [] -> G w) ->
  (forall w f todo, P w -> w_todo w = f :: todo ->
     if oc_ok (f c) then Q (f c) (after c (f c) todo w) else E (after c (f c) todo w)) ->
  spec P (perform c) Q E.
Proof.
  intros HG Hs w Hw. unfold perform. destruct (w_todo w) as [| f todo] eqn:E'; [by apply HG |].
  specialize (Hs w f todo Hw E'). unfold after in Hs. by destruct (oc_ok (f c)).
Qed.
Lemma spec_read {A} (P : world -> Prop) (r : world -> A) E : spec P (fun w => (Done (r w), w)) (fun a w => P w /\ a = r w) E.
Proof. by intros w Hw. Qed.
Lemma spec_fuel {A} P (m : nat -> M A) Q E : (forall n, spec P (m n) Q E) -> spec P (with_fuel m) Q E.
Proof. intros Hm w Hw. by apply Hm. Qed.
Lemma spec_out_of_fuel {A} (P : world -> Prop) (Q : A -> world -> Prop) E : (forall w, P w -> G w) -> spec P out_of_fuel Q E.
Proof. intros HP w Hw. by apply HP. Qed.
End logic.

(** ** The connection *)

Inductive phase := Closed | Opened | Idling (since : Z) | Closing.
(** What a call does to the connection. *)
Definition next_phase (ph : phase) (ev : event) : phase :=
  match ev_call ev with
  | NewClient => if ev_ok ev then Opened else ph
  | Logout => Closed
  | IdleStart => if ev_ok ev then Idling (ev_end ev) else ph
  | IdleDone => match ph with Idling _ => Opened | _ => Closing end
  | _ => ph
  end.
Fixpoint phase_of (tr : list event) : phase :=
  match tr with [] => Closed | ev :: tr => next_phase (phase_of tr) ev end.
(** The heartbeat just before a wait allows 30 seconds, the one after a crash 60. *)
Definition beat_allows (tr : list event) : Z :=
  match tr with
  | Event (Beat state _) _ _ _ _ _ :: _ => if decide (state = lit "reconnecting") then BACKOFF_MAX_MS else HEARTBEAT_MS
  | _ => 0
  end.
(** A call that is in place: nothing but [idle_check] and DONE while an IDLE is
    open, for at most [limit]; a DONE nothing answers to is followed by the logout
    only; every wait comes right after a heartbeat; and the thread syncs its own
    folders only. *)
Definition in_place (inbox : bool) (limit : Z) (tr : list event) (ev : event) : Prop :=
  match ev_call ev with
  | NewClient => phase_of tr = Closed
  | Keepalive | Login | OauthLogin | SelectFolder _ | ListFolders | IdleStart => phase_of tr = Opened
  | SyncMailbox name => phase_of tr = Opened /\ bool_decide (name = INBOX) = inbox
  | IdleCheck timeout => (exists since, phase_of tr = Idling since /\ ev_end ev <= since + limit) /\ timeout <= beat_allows tr
  | IdleDone => match phase_of tr with Idling since => ev_start ev <= since + limit | ph => ph = Opened end
  | Logout => phase_of tr = Opened \/ phase_of tr = Closing
  | StopWait timeout => phase_of tr = Closed /\ timeout <= beat_allows tr
  | _ => True
  end.
Fixpoint disciplined (inbox : bool) (limit : Z) (tr : list event) : Prop :=
  match tr with [] => True | ev :: tr => in_place inbox limit tr ev /\ disciplined inbox limit tr end.

(** Answers that come in time: a heartbeat within [delta], a wait at most [slack]
    late. *)
Definition timely (delta slack : Z) (f : call -> outcome) : Prop :=
  forall c, 0 <= oc_elapsed (f c) /\
    match c with
    | Beat _ _ => oc_elapsed (f c) <= delta
    | IdleCheck timeout => 0 <= timeout -> oc_elapsed (f c) <= timeout + slack
    | _ => True
    end.

Section discipline.
Context (inbox : bool) (delta slack : Z) (cx : WorkerContext).
Context (Hdelta : 0 <= delta) (Hslack : 0 <= slack) (Hrenew : 0 <= cx_idle_renew_ms cx).
Definition idle_limit : Z := cx_idle_renew_ms cx + 2 * delta + 1000 + slack.
Notation limit := idle_limit.
Definition fine (w : world) : Prop := Forall (timely delta slack) (w_todo w) /\ disciplined inbox limit (w_trace w).
Definition at_phase (ph : phase) (w : world) : Prop := fine w /\ phase_of (w_trace w) = ph.
Notation spec := (spec fine).

(** The rule for a call. *)
Lemma spec_call (P : world -> Prop) c (Q : outcome -> world -> Prop) E :
  (forall w, P w -> fine w) ->
  (forall w o todo, P w -> Forall (timely delta slack) todo -> 0 <= oc_elapsed o ->
     match c with Beat _ _ => oc_elapsed o <= delta | IdleCheck timeout => 0 <= timeout -> oc_elapsed o <= timeout + slack | _ => True end ->
     let w' := after c o todo w in
     in_place inbox limit (w_trace w) (Event c (w_now w) (w_now w') (oc_ok o) (w_stop w) (oc_folders o)) /\
     (fine w' -> if oc_ok o then Q o w' else E w')) ->
  spec P (perform c) Q E.
Proof.
  intros HP Hs. apply spec_perform; [by auto |]. intros w f todo Hw Ht. pose proof (HP w Hw) as [Htl Hd].
  rewrite Ht in Htl. apply list.Forall_cons in Htl as [Hf Htl]. destruct (Hf c) as [H0 Hc].
  destruct (Hs w (f c) todo Hw Htl H0 Hc) as [Hin HQ]. apply HQ. by split.
Qed.
Lemma at_phase_fine ph w : at_phase ph w -> fine w.
Proof. by intros []. Qed.

(** Calls that do not touch the connection, and those that use it. *)
Definition neutral (c : call) : bool :=
  match c with GetPassword | GetRefreshToken | FreshAccessToken | UpsertMailbox _ => true | _ => false end.
Definition command (c : call) : bool :=
  match c with
  | Keepalive | Login | OauthLogin | SelectFolder _ | ListFolders => true
  | SyncMailbox name => bool_decide (bool_decide (name = INBOX) = inbox)
  | _ => false
  end.
Lemma spec_neutral ph c : neutral c = true -> spec (at_phase ph) (perform c) (fun _ => at_phase ph) (at_phase ph).
Proof.
  intros Hn. apply spec_call; [by intros w [] |]. intros w o todo [Hf Hp] _ _ _ w'. unfold in_place. cbn.
  by destruct c; (split; [done | intros Hf'; destruct (oc_ok o); split]).
Qed.
Lemma spec_command c : command c = true -> spec (at_phase Opened) (perform c) (fun _ => at_phase Opened) (at_phase Opened).
Proof.
  intros Hn. apply spec_call; [by intros w [] |]. intros w o todo [Hf Hp] _ _ _ w'. unfold in_place. cbn.
  destruct c; try done; (split; [try done | intros Hf'; destruct (oc_ok o); by split]).
  split; [done |]. by apply bool_decide_eq_true in Hn.
Qed.
Lemma spec_heartbeat ph x state folder E :
  spec (fun w => at_phase ph w /\ w_now w <= x) (safe_heartbeat state folder)
    (fun _ w => at_phase ph w /\ w_now w <= x + delta /\
       beat_allows (w_trace w) = if decide (state = lit "reconnecting") then BACKOFF_MAX_MS else HEARTBEAT_MS) E.
Proof.
  apply spec_swallow, spec_call; [by intros w [[] _] |]. intros w o todo [[Hf Hp] Hx] _ H0 Hc w'. cbn. split; [done |].
  intros Hf'. destruct (oc_ok o); (split_and!; [by split | lia | done]).
Qed.
Lemma spec_beat ph state folder E : spec (at_phase ph) (safe_heartbeat state folder) (fun _ => at_phase ph) E.
Proof.
  intros w Hw. pose proof (spec_heartbeat ph (w_now w) state folder E w (conj Hw (Z.le_refl _))) as Hs.
  destruct (safe_heartbeat state folder w) as [[[] | |] w']; [| done..]. by destruct Hs.
Qed.
Lemma spec_idle_start : spec (at_phase Opened) (perform IdleStart) (fun _ w => at_phase (Idling (w_now w)) w) (at_phase Opened).
Proof.
  apply spec_call; [by intros w [] |]. intros w o todo [Hf Hp] _ _ _ w'. cbn. split; [done |]. intros Hf'.
  destruct (oc_ok o) eqn:Eo; (split; [done |]); cbn; rewrite Eo; done.
Qed.
(** An IDLE that is not overdue. *)
Definition idling (since : Z) (w : world) : Prop := at_phase (Idling since) w /\ w_now w <= since + limit.
Lemma spec_idle_check since timeout : 0 <= timeout ->
  spec (fun w => at_phase (Idling since) w /\ w_now w + timeout + slack <= since + limit /\ timeout <= beat_allows (w_trace w))
    (perform (IdleCheck timeout)) (fun _ => idling since) (idling since).
Proof.
  intros Hti. apply spec_call; [by intros w [[] _] |]. intros w o todo ([Hf Hp] & Hl & Hb) _ H0 Hc w'. specialize (Hc Hti). cbn. split.
  - split; [| done]. exists since. split; [done | lia].
  - intros Hf'. destruct (oc_ok o); (split; [by split | cbn; lia]).
Qed.
Lemma spec_idle_done since : spec (idling since) (perform IdleDone) (fun _ => at_phase Opened) (at_phase Opened).
Proof.
  apply spec_call; [by intros w [[] _] |]. intros w o todo [[Hf Hp] Hl] _ _ _ w'. unfold in_place. cbn. rewrite Hp. split; [done |].
  intros Hf'. destruct (oc_ok o); (split; [done |]); cbn; by rewrite Hp.
Qed.
(** Where the IDLE part of a session may be left. *)
Definition leaving (w : world) : Prop := at_phase Opened w \/ exists since, idling since w.
Definition logging_out (w : world) : Prop := fine w /\ (phase_of (w_trace w) = Opened \/ phase_of (w_trace w) = Closing).
Lemma spec_last_done E : spec leaving (swallow (perform IdleDone)) (fun _ => logging_out) E.
Proof.
  apply spec_swallow, spec_call; [by intros w [[] | (? & [] & _)] |]. intros w o todo Hw _ _ _ w'.
  assert (Hin : match phase_of (w_trace w) with Idling since => w_now w <= since + limit | ph => ph = Opened end).
  { destruct Hw as [[_ ->] | (since & [_ ->] & ?)]; done. }
  split; [exact Hin |]. intros Hf'. destruct (oc_ok o); (split; [done |]); cbn; destruct (phase_of (w_trace w)); auto.
Qed.
Lemma spec_logout E : spec logging_out (swallow (perform Logout)) (fun _ => at_phase Closed) E.
Proof.
  apply spec_swallow, spec_call; [by intros w [] |]. intros w o todo [Hf Hp] _ _ _ w'. cbn. split; [done |].
  intros Hf'. destruct (oc_ok o); by split.
Qed.
Lemma spec_wait timeout E : 0 <= timeout ->
  spec (fun w => at_phase Closed w /\ timeout <= beat_allows (w_trace w)) (stop_wait timeout) (fun stopped w => at_phase Closed w /\ stopped = w_stop w) E.
Proof.
  intros Ht. eapply spec_bind with (R := fun _ => at_phase Closed); [| intros ?; apply (spec_read fine)].
  apply (spec_catch _ _ _ _ _ _ (at_phase Closed)); [| by intros w Hw].
  apply spec_call; [by intros w [[] _] |]. intros w o todo [[Hf Hp] Hb] _ _ _ w'. cbn. split; [done |].
  intros Hf'. destruct (oc_ok o); by split.
Qed.

(** ** The programs *)

(** A call whose result is not read. *)
Lemma spec_then {A B} P (m : M A) (k : M B) R Q E : spec P m (fun _ => R) E -> spec R k Q E -> spec P (bind m (fun _ => k)) Q E.
Proof. intros Hm Hk. by eapply spec_bind. Qed.
Lemma spec_done {A} (P : world -> Prop) (a : A) (Q : A -> world -> Prop) E : (forall w, P w -> Q a w) -> spec P (ret a) Q E.
Proof. intros HP w Hw. by apply HP. Qed.
Lemma spec_login : spec (at_phase Opened) (login cx) (fun _ => at_phase Opened) (at_phase Opened).
Proof.
  assert (Hr : forall A (Q : A -> world -> Prop), spec (at_phase Opened) raise Q (at_phase Opened)) by (intros; by intros w Hw).
  assert (Hd : spec (at_phase Opened) (ret ()) (fun _ => at_phase Opened) (at_phase Opened)) by by intros w Hw.
  unfold login. case_decide; [| case_decide; [case_decide; [done | destruct (negb _); [done |]] | done]].
  - eapply spec_bind; [by apply spec_neutral |]. intros o. cbn beta. destruct (oc_secret o); [| done].
    eapply spec_then; [by apply spec_command | done].
  - eapply spec_bind; [by apply spec_neutral |]. intros o. cbn beta. destruct (oc_secret o); [| done].
    eapply spec_then; [by apply spec_neutral |]. eapply spec_then; [by apply spec_command | done].
Qed.
Lemma spec_raises {A} P (m : M A) Q (E E' : world -> Prop) : spec P m Q E -> (forall w, E w -> E' w) -> spec P m Q E'.
Proof. intros Hm HE. by eapply spec_post. Qed.
Lemma opened_out w : at_phase Opened w -> logging_out w.
Proof. intros [? ?]. split; by auto. Qed.
Lemma spec_connection (body : M ()) : spec (at_phase Opened) body (fun _ => logging_out) logging_out ->
  spec (at_phase Closed) (open_connection cx body) (fun _ => at_phase Closed) (at_phase Closed).
Proof.
  intros Hb. eapply spec_bind with (R := fun _ => at_phase Opened).
  - apply spec_call; [by intros w [] |]. intros w o todo [Hf Hp] _ _ _ w'. cbn. split; [done |]. intros Hf'.
    destruct (oc_ok o) eqn:Eo; (split; [done |]); cbn; by rewrite Eo.
  - intros _. apply (spec_finally _ _ _ _ (fun _ => logging_out) _ _ logging_out); [| intros _; apply spec_logout | apply spec_logout].
    eapply spec_then; [eapply spec_raises; [by apply spec_command | apply opened_out] |].
    eapply spec_then; [eapply spec_raises; [by apply spec_login | apply opened_out] | done].
Qed.
Lemma spec_sync_folder name : bool_decide (name = INBOX) = inbox ->
  spec (at_phase Opened) (sync_folder name) (fun _ => at_phase Opened) (at_phase Opened).
Proof.
  intros Hn. eapply spec_then; [by apply spec_neutral |].
  eapply spec_then; [apply spec_command; by apply bool_decide_eq_true | by intros w Hw].
Qed.

(** Between two steps: the deadline is not late, and the step begins in time. *)
Definition in_step (since renew_at : Z) (w : world) : Prop :=
  at_phase (Idling since) w /\ renew_at <= since + delta + cx_idle_renew_ms cx /\
  (w_now w <= since + delta \/ w_now w < renew_at - RENEW_GUARD_MS).
Definition between (renew_at : Z) (w : world) : Prop :=
  exists since, in_step since renew_at w \/ idling since w /\ w_stop w = true.
Lemma in_step_idling since renew_at w : in_step since renew_at w -> idling since w.
Proof. intros (Hp & Hr & Ht). split; [done |]. unfold idle_limit, RENEW_GUARD_MS in *. lia. Qed.
Lemma between_leaving renew_at w : between renew_at w -> leaving w.
Proof. intros (since & [Hs | [Hs _]]); right; exists since; [by eapply in_step_idling | done]. Qed.
Lemma opened_leaving w : at_phase Opened w -> leaving w.
Proof. by left. Qed.
(** The IDLE is given up, something is done, and it is opened again. *)
Lemma spec_renew : spec (at_phase Opened) (run perform IdleStart; do! t <- now; ret (t + cx_idle_renew_ms cx)) between leaving.
Proof.
  eapply spec_then; [eapply spec_raises; [apply spec_idle_start | apply opened_leaving] |].
  eapply spec_bind; [apply (spec_read fine) |]. intros t. apply spec_done. intros w [Hp Ht]. cbn beta in Hp. rewrite Ht.
  exists (w_now w). left. split_and!; [done | lia | left; lia].
Qed.
Lemma spec_idle_step since renew_at : inbox = true ->
  spec (in_step since renew_at) (idle_step cx renew_at) between leaving.
Proof.
  intros Hin w0 (Hp0 & Hr & Ht0).
  assert (Hs : forall x, x <= since + delta \/ x < renew_at - RENEW_GUARD_MS ->
    spec (fun w => at_phase (Idling since) w /\ w_now w <= x) (idle_step cx renew_at) between leaving).
  2: { exact (Hs (w_now w0) Ht0 w0 (conj Hp0 (Z.le_refl _))). }
  clear w0 Hp0 Ht0. intros x Hx. eapply spec_then; [apply spec_heartbeat |]. eapply spec_bind; [apply (spec_read fine) |]. intros t.
  eapply spec_bind with (R := fun _ => idling since).
  - eapply spec_raises with (E := idling since); [| intros w Hw; right; by exists since].
    eapply spec_pre, spec_idle_check; [| unfold HEARTBEAT_MS; lia]. intros w [(Hp & Hn & Hb) ->]. rewrite Hb. cbn [bool_decide decide].
    split_and!; [done | unfold idle_limit, RENEW_GUARD_MS, HEARTBEAT_MS in *; lia |]. case_decide; [done | unfold HEARTBEAT_MS; lia].
  - intros o. eapply spec_bind; [apply (spec_read fine) |]. intros stopped. destruct stopped.
    { apply spec_done. intros w [Hi Hst]. exists since. right. by split. }
    destruct (oc_responses o).
    + apply (spec_pre _ _ (idling since)); [by intros w [] |].
      eapply spec_then; [eapply spec_raises; [apply spec_idle_done | apply opened_leaving] |].
      eapply spec_then; [apply spec_beat |]. eapply spec_then; [| apply spec_renew].
      eapply spec_raises; [apply spec_sync_folder; by rewrite Hin | apply opened_leaving].
    + eapply spec_bind; [apply (spec_read fine) |]. intros t'. destruct (_ <=? t') eqn:Et.
      * apply (spec_pre _ _ (idling since)); [by intros w [[] _] |].
        eapply spec_then; [eapply spec_raises; [apply spec_idle_done | apply opened_leaving] | apply spec_renew].
      * apply spec_done. intros w [[[Hp Hl] _] ->]. exists since. left. split_and!; [done | done |]. apply Z.leb_gt in Et. by right.
Qed.
Lemma spec_idle_steps fuel : inbox = true -> forall renew_at, spec (between renew_at) (idle_steps fuel cx renew_at) (fun _ => leaving) leaving.
Proof.
  intros Hin. induction fuel as [| fuel IH]; intros renew_at.
  { apply spec_out_of_fuel. intros w (since & [[[? _] _] | [[[? _] _] _]]); done. }
  cbn [idle_steps]. eapply spec_bind; [apply (spec_read fine) |]. intros stopped. destruct stopped.
  { apply spec_done. intros w [Hb _]. by eapply between_leaving. }
  eapply spec_bind with (R := between); [| intros r; apply IH].
  intros w [(since & [Hs | [_ Hst]]) Hns]; [by apply (spec_idle_step since) | congruence].
Qed.
Lemma spec_ensure : spec (at_phase Opened) ensure_inbox_row (fun _ => at_phase Opened) (at_phase Opened).
Proof. eapply spec_then; [by apply spec_neutral | by intros w Hw]. Qed.
Lemma spec_idling since E : inbox = true -> spec (at_phase (Idling since)) (safe_heartbeat (lit "idle") None) (fun _ => at_phase (Idling since)) E.
Proof. intros _. apply spec_beat. Qed.
Lemma spec_session : inbox = true -> spec (at_phase Closed) (one_inbox_session cx) (fun _ => at_phase Closed) (at_phase Closed).
Proof.
  intros Hin. apply spec_connection. eapply spec_then; [apply spec_beat |].
  eapply spec_then; [eapply spec_raises; [apply spec_ensure | apply opened_out] |].
  eapply spec_then; [eapply spec_raises; [by apply spec_command | apply opened_out] |].
  eapply spec_then; [eapply spec_raises; [apply spec_sync_folder; by rewrite Hin | apply opened_out] |].
  eapply spec_then; [eapply spec_raises; [apply spec_idle_start | apply opened_out] |].
  intros w0 Hw0.
  assert (Hs : forall since, spec (fun w => at_phase (Idling since) w /\ w_now w <= since)
    (run safe_heartbeat (lit "idle") None;
     finally (do! t <- now; with_fuel (fun fuel => idle_steps fuel cx (t + cx_idle_renew_ms cx))) (swallow (perform IdleDone)))
    (fun _ => logging_out) logging_out); [| by apply (Hs (w_now w0))].
  clear w0 Hw0. intros since. eapply spec_then; [apply spec_heartbeat |].
  apply (spec_finally _ _ _ _ (fun _ => leaving) _ _ leaving); [| intros _; apply spec_last_done | apply spec_last_done].
  eapply spec_bind; [apply (spec_read fine) |]. intros t. apply spec_fuel. intros n.
  eapply spec_pre, (spec_idle_steps n Hin). intros w [(Hp & Hn & _) Ht]. rewrite Ht. exists since. left.
  split_and!; [done | lia | by left].
Qed.

(** ** The loops *)

Definition beaten (backoff : Z) : Prop := 0 <= backoff <= BACKOFF_MAX_MS.
Lemma beaten_initial : beaten BACKOFF_INITIAL_MS.
Proof. unfold beaten, BACKOFF_INITIAL_MS, BACKOFF_MAX_MS. lia. Qed.
Lemma beaten_double b : beaten b -> beaten (Z.min (b * 2) BACKOFF_MAX_MS).
Proof. unfold beaten, BACKOFF_MAX_MS. lia. Qed.
Lemma spec_crashed backoff E : beaten backoff ->
  spec (at_phase Closed) (crashed backoff) (fun stopped w => at_phase Closed w /\ stopped = w_stop w) E.
Proof.
  intros [? Hb] w Hw. refine (spec_then _ _ _ (fun w => at_phase Closed w /\ backoff <= beat_allows (w_trace w)) _ _ _ _ w Hw).
  - intros w1 Hw1. pose proof (spec_heartbeat Closed (w_now w1) (lit "reconnecting") None E w1 (conj Hw1 (Z.le_refl _))) as Hs.
    destruct (safe_heartbeat _ _ w1) as [[[] | |] w']; [| done..]. destruct Hs as (? & _ & ->). by split; [| case_decide].
  - by apply spec_wait.
Qed.
Lemma spec_idle_loop fuel : inbox = true -> forall backoff, beaten backoff ->
  spec (at_phase Closed) (inbox_idle_loop fuel cx backoff) (fun _ => at_phase Closed) (fun _ => False).
Proof.
  intros Hin. induction fuel as [| fuel IH]; intros b Hb; [by apply spec_out_of_fuel; intros w [] |].
  cbn [inbox_idle_loop]. eapply spec_bind; [apply (spec_read fine) |]. intros stopped.
  apply (spec_pre _ _ (at_phase Closed)); [by intros w [] |]. destruct stopped; [by apply spec_done |].
  eapply spec_bind with (R := fun next w => at_phase Closed w /\ match next with Some b => beaten b | None => True end).
  - apply (spec_catch _ _ _ _ _ _ (at_phase Closed)).
    + eapply spec_then; [by apply spec_session |]. apply spec_done. intros w Hw. split; [done | apply beaten_initial].
    + eapply spec_bind; [by apply spec_crashed |]. intros leave. apply spec_done. intros w [Hw _]. split; [done |].
      destruct leave; [done | by apply beaten_double].
  - intros [b' |]; [| by apply spec_done; intros w []]. intros w [Hw Hb']. by apply (IH b').
Qed.
Lemma spec_sync_selectable l : inbox = false ->
  spec (at_phase Opened) (sync_selectable l) (fun _ => at_phase Opened) (at_phase Opened).
Proof.
  intros Hin. induction l as [| f l IH]; [by apply spec_done |]. cbn [sync_selectable].
  eapply spec_bind; [apply (spec_read fine) |]. intros stopped. apply (spec_pre _ _ (at_phase Opened)); [by intros w [] |].
  destruct stopped; [by apply spec_done |]. case_decide as Hi; [done |].
  eapply spec_then; [apply spec_beat |]. eapply spec_then; [| exact IH].
  apply spec_sync_folder. rewrite Hin. by apply bool_decide_eq_false.
Qed.
Lemma spec_pass : inbox = false -> spec (at_phase Closed) (one_poll_pass cx) (fun _ => at_phase Closed) (at_phase Closed).
Proof.
  intros Hin. apply spec_connection. eapply spec_post; [| intros ? w; apply opened_out | apply opened_out].
  eapply spec_then; [apply spec_beat |]. eapply spec_bind; [by apply spec_command |]. intros o. by apply spec_sync_selectable.
Qed.
Lemma spec_wait_loop fuel : forall deadline E,
  spec (at_phase Closed) (wait_loop fuel deadline) (fun _ => at_phase Closed) E.
Proof.
  induction fuel as [| fuel IH]; intros deadline E; [by apply spec_out_of_fuel; intros w [] |].
  cbn [wait_loop]. intros w Hw. revert w Hw.
  assert (Hs : forall x, spec (fun w => at_phase Closed w /\ w_now w <= x) (wait_loop (S fuel) deadline) (fun _ => at_phase Closed) E).
  2: { intros w Hw. exact (Hs (w_now w) w (conj Hw (Z.le_refl _))). }
  intros x. cbn [wait_loop]. eapply spec_then; [apply spec_heartbeat |]. eapply spec_bind; [apply (spec_read fine) |]. intros t.
  destruct (_ <=? 0) eqn:Er; [by apply spec_done; intros w [[? _] _] |]. apply Z.leb_gt in Er.
  eapply spec_bind; [eapply spec_pre, spec_wait; [| unfold HEARTBEAT_MS; lia] |].
  - intros w [(Hp & _ & Hb) _]. split; [done |]. rewrite Hb. case_decide; [done |]. lia.
  - intros stopped. apply (spec_pre _ _ (at_phase Closed)); [by intros w [] |]. destruct stopped; [by apply spec_done | apply IH].
Qed.
Lemma spec_poll_loop fuel : inbox = false -> forall backoff, beaten backoff ->
  spec (at_phase Closed) (poll_loop fuel cx backoff) (fun _ => at_phase Closed) (fun _ => False).
Proof.
  intros Hin. induction fuel as [| fuel IH]; intros b Hb; [by apply spec_out_of_fuel; intros w [] |].
  cbn [poll_loop]. eapply spec_bind; [apply (spec_read fine) |]. intros stopped.
  apply (spec_pre _ _ (at_phase Closed)); [by intros w [] |]. destruct stopped; [by apply spec_done |].
  eapply spec_bind with (R := fun _ => at_phase Closed).
  - apply (spec_catch _ _ _ _ _ _ (at_phase Closed)).
    + eapply spec_then; [by apply spec_pass | by apply spec_done].
    + eapply spec_bind; [by apply spec_crashed |]. intros leave. apply spec_done. by intros w [].
  - intros [[] |]; [by apply spec_done | apply IH; by apply beaten_double |].
    eapply spec_bind with (R := fun _ => at_phase Closed).
    { unfold wait_between_passes. eapply spec_bind; [apply (spec_read fine) |]. intros t. apply spec_fuel. intros n.
      eapply spec_pre, spec_wait_loop. by intros w []. }
    intros leave. destruct leave; [by apply spec_done | apply IH, beaten_initial].
Qed.
End discipline.

(** ** The folders of a poll pass *)

(** The folders an account wants synced: all that can be selected, but the inbox and
    what its three lists leave out. *)
Definition wanted (account : AccountConfig) (f : Sync.folder) : Prop :=
  Sync.fo_name f <> INBOX /\ lit "\Noselect" ∉ Sync.fo_flags f /\
  Forall (fun g => g ∉ ac_folder_deny_flags account) (Sync.fo_flags f) /\
  (ac_folder_allow account = [] \/ Sync.fo_name f ∈ ac_folder_allow account) /\ Sync.fo_name f ∉ ac_folder_deny account.
#[local] Instance wanted_dec account f : Decision (wanted account f) := _.
(** What a connection of the poll thread still has to do: nothing, list the folders,
    or sync these, in this order. *)
Inductive duty := Free | Listing | Due (names : list pystr).
Definition next_duty (cx : WorkerContext) (d : duty) (ev : event) : duty :=
  match ev_call ev with
  | Login | OauthLogin => if ev_ok ev then Listing else d
  | ListFolders => if ev_ok ev then Due (Sync.fo_name <$> filter (wanted (cx_account cx)) (ev_folders ev)) else Free
  | UpsertMailbox _ => if ev_ok ev then d else Free
  | SyncMailbox _ => if ev_ok ev then match d with Due (_ :: names) => Due names | _ => d end else Free
  | Logout => Free
  | _ => d
  end.
Fixpoint duty_of (cx : WorkerContext) (tr : list event) : duty :=
  match tr with [] => Free | ev :: tr => next_duty cx (duty_of cx tr) ev end.
(** A call that does the duty: the folder synced is the next one due, and the
    connection is given up only when all of them are done, a call of the pass has
    failed or the stop event is set. *)
Definition in_turn (d : duty) (ev : event) : Prop :=
  match ev_call ev with
  | NewClient | StopWait _ => d = Free
  | ListFolders => d = Listing
  | UpsertMailbox name | SyncMailbox name => exists names, d = Due (name :: names)
  | Logout => ev_stopped ev = true \/ d = Free \/ d = Due []
  | _ => True
  end.
Fixpoint diligent (cx : WorkerContext) (tr : list event) : Prop :=
  match tr with [] => True | ev :: tr => in_turn (duty_of cx tr) ev /\ diligent cx tr end.

Section diligence.
Context (cx : WorkerContext).
Definition dutiful (w : world) : Prop := diligent cx (w_trace w).
Definition at_duty (d : duty) (w : world) : Prop := dutiful w /\ duty_of cx (w_trace w) = d.
(** Where a pass may be left. *)
Definition may_leave (w : world) : Prop := dutiful w /\ (w_stop w = true \/ duty_of cx (w_trace w) = Free \/ duty_of cx (w_trace w) = Due []).
Notation spec := (spec dutiful).
Lemma duty_done {A} (P : world -> Prop) (a : A) (Q : A -> world -> Prop) E : (forall w, P w -> Q a w) -> spec P (ret a) Q E.
Proof. intros HP w Hw. by apply HP. Qed.
Lemma duty_call (P : world -> Prop) c (Q : outcome -> world -> Prop) E :
  (forall w, P w -> dutiful w) ->
  (forall w o todo, P w -> let w' := after c o todo w in
     in_turn (duty_of cx (w_trace w)) (Event c (w_now w) (w_now w') (oc_ok o) (w_stop w) (oc_folders o)) /\
     (dutiful w' -> if oc_ok o then Q o w' else E w')) ->
  spec P (perform c) Q E.
Proof.
  intros HP Hs. apply spec_perform; [by auto |]. intros w f todo Hw _.
  destruct (Hs w (f c) todo Hw) as [Hin HQ]. apply HQ. split; [done | by apply HP].
Qed.
(** Calls that change nothing in the duty. *)
Definition aside (c : call) : bool :=
  match c with Beat _ _ | Keepalive | GetPassword | GetRefreshToken | FreshAccessToken => true | _ => false end.
Lemma duty_aside d c : aside c = true -> spec (at_duty d) (perform c) (fun _ => at_duty d) (at_duty d).
Proof.
  intros Hc. apply duty_call; [by intros w [] |]. intros w o todo [Hf Hd] w'.
  by destruct c; (split; [done | intros Hf'; destruct (oc_ok o); split]).
Qed.
Lemma duty_beat d state folder E : spec (at_duty d) (safe_heartbeat state folder) (fun _ => at_duty d) E.
Proof. by apply spec_swallow, duty_aside. Qed.
Lemma duty_enter c : c = Login \/ c = OauthLogin ->
  spec (at_duty Free) (perform c) (fun _ => at_duty Listing) (at_duty Free).
Proof.
  intros Hc. apply duty_call; [by intros w [] |]. intros w o todo [Hf Hd] w'. destruct Hc as [-> | ->];
    (split; [done |]; intros Hf'; destruct (oc_ok o) eqn:Eo; (split; [done |]); cbn; by rewrite Eo).
Qed.
Lemma duty_free c : match c with NewClient | StopWait _ => True | _ => False end ->
  spec (at_duty Free) (perform c) (fun _ => at_duty Free) (at_duty Free).
Proof.
  intros Hc. apply duty_call; [by intros w [] |]. intros w o todo [Hf Hd] w'.
  by destruct c; try done; (split; [| intros Hf'; destruct (oc_ok o); split]).
Qed.
Lemma duty_login : spec (at_duty Free) (login cx) (fun _ => at_duty Listing) (at_duty Free).
Proof.
  assert (Hr : forall A (Q : A -> world -> Prop), spec (at_duty Free) raise Q (at_duty Free)) by (intros; by intros w Hw).
  unfold login. case_decide; [| case_decide; [case_decide; [done | destruct (negb _); [done |]] | done]].
  - eapply spec_bind; [by apply duty_aside |]. intros o. cbn beta. destruct (oc_secret o); [| done].
    eapply spec_bind; [apply duty_enter; by left | intros ?; by apply duty_done].
  - eapply spec_bind; [by apply duty_aside |]. intros o. cbn beta. destruct (oc_secret o); [| done].
    eapply spec_bind; [by apply duty_aside |]. intros ?. eapply spec_bind; [apply duty_enter; by right | intros ?; by apply duty_done].
Qed.
Lemma free_leaves w : at_duty Free w -> may_leave w.
Proof. intros [? ?]. split; by auto. Qed.
Lemma duty_connection (body : M ()) : spec (at_duty Listing) body (fun _ => may_leave) (at_duty Free) ->
  spec (at_duty Free) (open_connection cx body) (fun _ => at_duty Free) (at_duty Free).
Proof.
  assert (Ho : forall E, spec may_leave (swallow (perform Logout)) (fun _ => at_duty Free) E).
  { intros E. apply spec_swallow, duty_call; [by intros w [] |]. intros w o todo [Hf Hd] w'. split; [exact Hd |].
    intros Hf'. by destruct (oc_ok o). }
  intros Hb. eapply spec_bind; [by apply duty_free |]. intros ?.
  apply (spec_finally _ _ _ _ (fun _ => may_leave) _ _ (at_duty Free)).
  - eapply spec_bind; [by apply duty_aside |]. intros ?. by eapply spec_bind; [apply duty_login |].
  - intros ?. apply Ho.
  - eapply spec_pre, Ho. apply free_leaves.
Qed.
Lemma duty_folder name names :
  spec (at_duty (Due (name :: names))) (sync_folder name) (fun _ => at_duty (Due names)) (at_duty Free).
Proof.
  eapply spec_bind with (R := fun _ => at_duty (Due (name :: names))).
  - apply duty_call; [by intros w [] |]. intros w o todo [Hf Hd] w'. split; [by exists names |].
    intros Hf'. destruct (oc_ok o) eqn:Eo; (split; [done |]); cbn; by rewrite Eo.
  - intros ?. eapply spec_bind with (R := fun _ => at_duty (Due names)); [| intros ?; by apply duty_done].
    apply duty_call; [by intros w [] |]. intros w o todo [Hf Hd] w'. split; [by exists names |].
    intros Hf'. destruct (oc_ok o) eqn:Eo; (split; [done |]); cbn; by rewrite Eo, ?Hd.
Qed.
Definition not_inbox (f : Sync.folder) : Prop := Sync.fo_name f <> INBOX.
#[local] Instance not_inbox_dec f : Decision (not_inbox f) := _.
Lemma wanted_selected l :
  filter (wanted (cx_account cx)) l =
  filter not_inbox (Sync.folders_to_sync l (Some (ac_folder_allow (cx_account cx)))
    (Some (ac_folder_deny (cx_account cx))) (Some (ac_folder_deny_flags (cx_account cx)))).
Proof.
  unfold Sync.folders_to_sync. rewrite list_filter_filter. apply list_filter_iff. intros f. unfold wanted, not_inbox.
  apply and_iff_compat_l. unfold Sync.folder_selected. cbn [Sync.set_of default].
  case_bool_decide as H1; [by split; [intros [] |] |]. destruct (existsb _ _) eqn:H2.
  { split; [| done]. intros (_ & Hd & _). apply existsb_exists in H2 as (g & Hg%list_elem_of_In & Hin%bool_decide_eq_true).
    rewrite Forall_forall in Hd. by destruct (Hd g Hg). }
  assert (Hfl : Forall (fun g => g ∉ ac_folder_deny_flags (cx_account cx)) (Sync.fo_flags f)).
  { apply Forall_forall. intros g Hg Hin. apply not_true_iff_false in H2. apply H2, existsb_exists. exists g.
    by split; [apply list_elem_of_In | apply bool_decide_eq_true]. }
  repeat case_bool_decide; cbn; intuition congruence.
Qed.
Lemma duty_selectable l :
  spec (at_duty (Due (Sync.fo_name <$> filter not_inbox l))) (sync_selectable l) (fun _ => may_leave) (at_duty Free).
Proof.
  induction l as [| f l IH].
  { cbn [sync_selectable]. intros w [Hf Hd]. split; by auto. }
  cbn [sync_selectable]. eapply spec_bind; [apply spec_read |]. intros stopped. destruct stopped.
  { intros w [[Hf _] Hs]. split; by auto. }
  eapply spec_pre; [by intros w [Hw _]; exact Hw |]. rewrite filter_cons. case_decide as Hi; case_decide as Hn; try done.
  cbn [fmap list_fmap]. eapply spec_bind; [apply duty_beat |]. intros ?. by eapply spec_bind; [apply duty_folder |].
Qed.
Lemma duty_pass : spec (at_duty Free) (one_poll_pass cx) (fun _ => at_duty Free) (at_duty Free).
Proof.
  apply duty_connection. eapply spec_bind; [apply duty_beat |]. intros ?.
  eapply spec_bind with (R := fun o => at_duty (Due (Sync.fo_name <$> filter (wanted (cx_account cx)) (oc_folders o)))).
  - apply duty_call; [by intros w [] |]. intros w o todo [Hf Hd] w'. split; [done |].
    intros Hf'. destruct (oc_ok o) eqn:Eo; (split; [done |]); cbn; by rewrite Eo.
  - intros o. rewrite wanted_selected. apply duty_selectable.
Qed.
Lemma duty_wait timeout E : spec (at_duty Free) (stop_wait timeout) (fun _ => at_duty Free) E.
Proof.
  eapply spec_bind with (R := fun _ => at_duty Free); [| intros ?; by intros w Hw].
  apply (spec_catch _ _ _ _ _ _ (at_duty Free)); [by apply duty_free | by intros w Hw].
Qed.
Lemma duty_wait_loop fuel : forall deadline E, spec (at_duty Free) (wait_loop fuel deadline) (fun _ => at_duty Free) E.
Proof.
  induction fuel as [| fuel IH]; intros deadline E; [by apply spec_out_of_fuel; intros w [] |]. cbn [wait_loop].
  eapply spec_bind; [apply duty_beat |]. intros ?. eapply spec_bind; [apply spec_read |]. intros t. cbn zeta.
  eapply spec_pre; [by intros w [Hw _]; exact Hw |]. destruct (_ <=? 0); [by apply duty_done |].
  eapply spec_bind; [apply duty_wait |]. intros stopped. destruct stopped; [by apply duty_done | apply IH].
Qed.
Lemma duty_crashed b E : spec (at_duty Free) (crashed b) (fun _ => at_duty Free) E.
Proof. eapply spec_bind; [apply duty_beat |]. intros ?. apply duty_wait. Qed.
Lemma duty_poll_loop fuel : forall backoff, spec (at_duty Free) (poll_loop fuel cx backoff) (fun _ => at_duty Free) (at_duty Free).
Proof.
  induction fuel as [| fuel IH]; intros b; [by apply spec_out_of_fuel; intros w [] |].
  cbn [poll_loop]. eapply spec_bind; [apply spec_read |]. intros stopped.
  eapply spec_pre; [by intros w [Hw _]; exact Hw |]. destruct stopped; [by apply duty_done |].
  eapply spec_bind with (R := fun _ => at_duty Free).
  - apply (spec_catch _ _ _ _ _ _ (at_duty Free)); (eapply spec_bind; [apply duty_pass || apply duty_crashed | intros ?; by apply duty_done]).
  - intros [[] |]; [by apply duty_done | apply IH |]. eapply spec_bind with (R := fun _ => at_duty Free).
    + intros w Hw. apply duty_wait_loop with (1 := Hw).
    + intros leave. destruct leave; [by apply duty_done | apply IH].
Qed.
End diligence.

(** ** Stopping *)

(** The calls begun with the stop event set. *)
Definition late (w : world) : nat := length (List.filter ev_stopped (w_trace w)).
Definition tick (w w' : world) : Prop := exists c f todo, w_todo w = f :: todo /\ w' = after c (f c) todo w.
Lemma tick_length w w' : tick w w' -> length (w_todo w) = S (length (w_todo w')).
Proof. by intros (c & f & todo & -> & ->). Qed.
Lemma ticks_length w w' : rtc tick w w' -> (length (w_todo w') <= length (w_todo w))%nat.
Proof. induction 1 as [| w w1 w2 H1%tick_length _ IH]; lia. Qed.
Lemma tick_late w w' : tick w w' -> late w' = (late w + if w_stop w then 1 else 0)%nat.
Proof.
  intros (c & f & todo & _ & ->). unfold late. cbn [after w_trace List.filter ev_stopped].
  destruct (w_stop w); cbn; lia.
Qed.
Lemma ticks_stop w w' : rtc tick w w' -> w_stop w = true -> w_stop w' = true.
Proof. induction 1 as [| w w1 w2 (c & f & todo & _ & ->) _ IH]; [done |]. intros Hs. apply IH. cbn. by rewrite Hs. Qed.
(** Every answer after the one that sets the stop event is to a late call. *)
Lemma ticks_late w w' pre f post : rtc tick w w' -> w_todo w = pre ++ f :: post -> (forall c, oc_stop (f c) = true) -> w_todo w' = [] ->
  (length post <= late w')%nat.
Proof.
  assert (Hs : forall w w', rtc tick w w' -> w_stop w = true -> w_todo w' = [] -> (length (w_todo w) <= late w')%nat).
  { clear. intros w w' Hr Hst Ht. assert (late w + length (w_todo w) <= late w')%nat; [| lia].
    induction Hr as [w | w w1 w2 H1 Hr IH]; [rewrite Ht; cbn; lia |].
    pose proof (tick_late _ _ H1) as Hl. rewrite Hst in Hl. apply tick_length in H1 as Hlen.
    specialize (IH (ticks_stop _ _ (rtc_once _ _ H1) Hst) Ht). lia. }
  intros Hr. revert pre. induction Hr as [w | w w1 w2 H1 Hr IH]; intros pre Htodo Hf Ht.
  { rewrite Ht in Htodo. by destruct pre. }
  destruct H1 as (c & g & todo & Hg & ->). rewrite Hg in Htodo. destruct pre as [| g' pre]; injection Htodo as -> ->.
  - apply Hs in Hr; [done | | done]. cbn. rewrite Hf. apply orb_true_r.
  - by apply (IH pre).
Qed.

(** What a program does from [w]: calls, of which at most [k] are late, and none as
    long as it is not stopped; it is found inside a call only where the answers
    end. *)
Record runs_at {A} (k : nat) (m : M A) (w : world) : Prop := RunsAt {
  ra_ticks : rtc tick w (m w).2;
  ra_late : (late (m w).2 <= late w + k)%nat;
  ra_calm : w_stop (m w).2 = false -> late (m w).2 = late w;
  ra_pending : (m w).1 = Pending -> w_todo (m w).2 = [];
}.
Definition runs {A} (k : nat) (m : M A) : Prop := forall w, runs_at k m w.
Lemma runs_more {A} k k' (m : M A) w : (k <= k')%nat -> runs_at k m w -> runs_at k' m w.
Proof. intros Hk []. split; try done. lia. Qed.
Lemma runs_idle {A} k (r : world -> result A) w : r w <> Pending -> runs_at k (fun w => (r w, w)) w.
Proof. intros Hr. split; cbn [fst snd]; [apply rtc_refl | lia | done | done]. Qed.
Lemma runs_perform c : runs 1 (perform c).
Proof.
  intros w. destruct (w_todo w) as [| f todo] eqn:E.
  { assert (Hp : perform c w = (Pending, w)) by (unfold perform; by rewrite E).
    split; rewrite Hp; cbn [fst snd]; [apply rtc_refl | lia | done | done]. }
  assert (Hp : perform c w = (if oc_ok (f c) then Done (f c) else Raised, after c (f c) todo w)) by (unfold perform; by rewrite E).
  assert (Ht : tick w (after c (f c) todo w)) by by eexists _, _, _.
  pose proof (tick_late _ _ Ht) as Hl. split; rewrite Hp; cbn [fst snd].
  - by apply rtc_once.
  - destruct (w_stop w); lia.
  - cbn [w_stop after]. intros [Hs _]%orb_false_iff. rewrite Hs in Hl. lia.
  - by destruct (oc_ok (f c)).
Qed.
(** Sequencing, where what comes next may be a loop that stops at once. *)
Lemma runs_loop {A B} k1 k2 (m : M A) (c : A -> M B) w : runs_at k1 m w ->
  (forall a w', m w = (Done a, w') -> rtc tick w w' -> runs_at (if w_stop w' then k2 else k1 + k2)%nat (c a) w') ->
  runs_at (k1 + k2) (bind m c) w.
Proof.
  intros [H1 H2 H3 H4] Hc. destruct (m w) as [[a | |] w'] eqn:E; cbn [fst snd] in *.
  - assert (Hb : bind m c w = c a w') by (unfold bind; by rewrite E). destruct (Hc a w' eq_refl H1) as [C1 C2 C3 C4]. assert (Hst : w_stop (c a w').2 = false -> w_stop w' = false).
    { intros Hs. apply not_true_is_false. intros Ht. rewrite (ticks_stop _ _ C1 Ht) in Hs. done. }
    split; rewrite Hb; [by etrans | | intros Hs; rewrite C3, H3 by auto; done | done].
    destruct (w_stop w'); [lia |]. rewrite H3 in C2 by done. lia.
  - assert (Hb : bind m c w = (Raised, w')) by (unfold bind; by rewrite E). split; rewrite Hb; cbn [fst snd]; [done | lia | done | done].
  - assert (Hb : bind m c w = (Pending, w')) by (unfold bind; by rewrite E). split; rewrite Hb; cbn [fst snd]; [done | lia | done | by intros _; apply H4].
Qed.
Lemma runs_bind {A B} k1 k2 (m : M A) (c : A -> M B) w : runs_at k1 m w ->
  (forall a w', m w = (Done a, w') -> runs_at k2 (c a) w') -> runs_at (k1 + k2) (bind m c) w.
Proof.
  intros Hm Hc. apply runs_loop; [done |]. intros a w' E _. apply (runs_more k2); [destruct (w_stop w'); lia | by apply Hc].
Qed.
Lemma runs_catch {A} k1 k2 (m h : M A) w : runs_at k1 m w -> runs k2 h -> runs_at (k1 + k2) (catch m h) w.
Proof.
  intros [H1 H2 H3 H4] Hh. destruct (m w) as [[a | |] w'] eqn:E; cbn [fst snd] in *.
  - assert (Hb : catch m h w = (Done a, w')) by (unfold catch; by rewrite E). split; rewrite Hb; cbn [fst snd]; [done | lia | done | done].
  - assert (Hb : catch m h w = h w') by (unfold catch; by rewrite E). destruct (Hh w') as [C1 C2 C3 C4].
    assert (Hst : w_stop (h w').2 = false -> w_stop w' = false).
    { intros Hs. apply not_true_is_false. intros Ht. rewrite (ticks_stop _ _ C1 Ht) in Hs. done. }
    split; rewrite Hb; [by etrans | lia | intros Hs; rewrite C3, H3 by auto; done | done].
  - assert (Hb : catch m h w = (Pending, w')) by (unfold catch; by rewrite E). split; rewrite Hb; cbn [fst snd]; [done | lia | done | by intros _; apply H4].
Qed.
Lemma runs_ext {A} k (m m' : M A) w : m w = m' w -> runs_at k m w -> runs_at k m' w.
Proof. intros E []. by split; rewrite <- E. Qed.
Lemma runs_ret {A} k (a : A) : runs k (ret a).
Proof. intros w. by apply (runs_idle k (fun _ => Done a)). Qed.
Lemma runs_raise {A} k : runs k (@raise A).
Proof. intros w. by apply (runs_idle k (fun _ => Raised)). Qed.
Lemma runs_now k : runs k now.
Proof. intros w. by apply (runs_idle k (fun w => Done (w_now w))). Qed.
Lemma runs_stop_is_set k : runs k stop_is_set.
Proof. intros w. by apply (runs_idle k (fun w => Done (w_stop w))). Qed.
Lemma runs_finally {A} k1 k2 (m : M A) h w : runs_at k1 m w -> runs k2 h -> runs_at (k1 + k2) (finally m h) w.
Proof.
  intros Hm Hh.
  apply (runs_ext _ (bind (catch (bind m (fun a => ret (Some a))) (ret None))
    (fun o => bind h (fun _ => match o with Some a => ret a | None => raise end)))).
  { unfold finally, bind, catch, ret, raise. destruct (m w) as [[a | |] w']; [by destruct (h w') as [[] ?] .. | done]. }
  apply runs_bind.
  - apply (runs_more (k1 + 0 + 0)); [lia |]. apply runs_catch; [| apply runs_ret].
    apply runs_bind; [done |]. intros a w' _. apply runs_ret.
  - intros o w' _. apply (runs_more (k2 + 0)); [lia |]. apply runs_bind; [apply Hh |]. intros _ w1 _.
    destruct o; [apply runs_ret | apply runs_raise].
Qed.
Lemma runs_seq {A B} k1 k2 k (m : M A) (c : A -> M B) : runs k1 m -> (forall a, runs k2 (c a)) -> (k1 + k2 <= k)%nat -> runs k (bind m c).
Proof. intros Hm Hc Hk w. apply (runs_more (k1 + k2)); [done |]. apply runs_bind; [apply Hm | intros; apply Hc]. Qed.
Lemma runs_call {B} k (c : call) (m : outcome -> M B) : (forall o, runs k (m o)) -> runs (S k) (bind (perform c) m).
Proof. intros Hm. apply (runs_seq 1 k); [apply runs_perform | done | lia]. Qed.
Lemma runs_read {A B} k (r : M A) (m : A -> M B) : runs 0 r -> (forall o, runs k (m o)) -> runs k (bind r m).
Proof. intros Hr Hm. by apply (runs_seq 0 k). Qed.
Lemma runs_swallow {A} k (m : M A) : runs k m -> runs k (swallow m).
Proof.
  intros Hm w. apply (runs_more (k + 0 + 0)); [lia |]. apply runs_catch; [| apply runs_ret].
  apply runs_bind; [apply Hm |]. intros a w' _. apply runs_ret.
Qed.
Lemma runs_beat state folder : runs 1 (safe_heartbeat state folder).
Proof. apply runs_swallow, runs_perform. Qed.
Lemma runs_then_beat {B} k state folder (m : M B) : runs k m -> runs (S k) (bind (safe_heartbeat state folder) (fun _ => m)).
Proof. intros Hm. apply (runs_seq 1 k); [apply runs_beat | done | lia]. Qed.
Lemma runs_weaken {A} k k' (m : M A) : runs k m -> (k <= k')%nat -> runs k' m.
Proof. intros Hm Hk w. by apply (runs_more k). Qed.

Lemma runs_login cx : runs 3 (login cx).
Proof.
  unfold login. case_decide; [| case_decide; [case_decide; [| destruct (negb _)] |]]; try apply runs_raise.
  - apply runs_call. intros o. destruct (oc_secret o); [| apply runs_raise]. apply runs_call. intros ?. apply runs_ret.
  - apply runs_call. intros o. destruct (oc_secret o); [| apply runs_raise]. do 2 (apply runs_call; intros ?). apply runs_ret.
Qed.
Lemma runs_connection {A} k cx (body : M A) : runs k body -> runs (k + 6) (open_connection cx body).
Proof.
  intros Hb. apply (runs_weaken (S (4 + k + 1))); [| lia]. apply runs_call. intros _ w.
  apply runs_finally; [| apply runs_swallow, runs_perform]. apply runs_call. intros _.
  apply (runs_seq 3 k); [apply runs_login | done | lia].
Qed.
Lemma runs_sync_folder name : runs 2 (sync_folder name).
Proof. do 2 (apply runs_call; intros ?). apply runs_ret. Qed.
Lemma runs_wait timeout : runs 1 (stop_wait timeout).
Proof.
  apply (runs_seq 1 0); [| intros ?; apply runs_stop_is_set | done].
  intros w. apply (runs_more (1 + 0)); [done |]. apply runs_catch; [apply runs_perform | apply runs_ret].
Qed.
(** A step after its heartbeat. *)
Definition step_body (cx : WorkerContext) (renew_at : Z) : M Z :=
  do! t <- now;
  do! o <- perform (IdleCheck (Z.min HEARTBEAT_MS (Z.max 1000 (renew_at - t))));
  do! stopped <- stop_is_set;
  if stopped then ret renew_at
  else if oc_responses o then
    run perform IdleDone; run safe_heartbeat (lit "syncing") (Some INBOX); run sync_inbox;
    run perform IdleStart; do! t <- now; ret (t + cx_idle_renew_ms cx)
  else
    do! t <- now;
    if renew_at - RENEW_GUARD_MS <=? t then
      run perform IdleDone; run perform IdleStart; do! t <- now; ret (t + cx_idle_renew_ms cx)
    else ret renew_at.
Lemma runs_step_body cx renew_at : runs 6 (step_body cx renew_at).
Proof.
  apply runs_read; [apply runs_now |]. intros t. apply runs_call. intros o.
  apply runs_read; [apply runs_stop_is_set |]. intros stopped. destruct stopped; [apply runs_ret |]. destruct (oc_responses o).
  - apply runs_call. intros _. apply runs_then_beat. apply (runs_seq 2 1); [apply runs_sync_folder | | lia]. intros _.
    apply runs_call. intros _. apply runs_read; [apply runs_now |]. intros t'. apply runs_ret.
  - apply runs_read; [apply runs_now |]. intros t'. destruct (_ <=? t'); [| apply runs_ret].
    apply (runs_weaken 2); [| lia]. do 2 (apply runs_call; intros ?). apply runs_read; [apply runs_now |]. intros ?. apply runs_ret.
Qed.
Lemma runs_idle_step cx renew_at : runs 7 (idle_step cx renew_at).
Proof. apply runs_then_beat, runs_step_body. Qed.
Lemma runs_crashed backoff : runs 2 (crashed backoff).
Proof. apply runs_then_beat, runs_wait. Qed.

(** A turn of a loop makes a call. *)
Definition strict {A} (m : M A) : Prop :=
  forall w, match m w with (Pending, _) => True | (_, w') => (length (w_todo w') < length (w_todo w))%nat end.
Lemma strict_perform c : strict (perform c).
Proof. intros w. unfold perform. destruct (w_todo w) as [| f todo] eqn:E; [done |]. by destruct (oc_ok (f c)); cbn; lia. Qed.
Lemma runs_length {A} k (m : M A) w : runs_at k m w -> (length (w_todo (m w).2) <= length (w_todo w))%nat.
Proof. intros []. by apply ticks_length. Qed.
Lemma strict_bind {A B} k (m : M A) (c : A -> M B) : strict m -> (forall a, runs k (c a)) -> strict (bind m c).
Proof.
  intros Hm Hc w. specialize (Hm w). unfold bind. destruct (m w) as [[a | |] w']; [| done..].
  pose proof (runs_length k (c a) w' (Hc a w')). destruct (c a w') as [[b | |] w2]; cbn [snd] in *; done || lia.
Qed.
Lemma strict_catch {A} k (m h : M A) : strict m -> runs k h -> strict (catch m h).
Proof.
  intros Hm Hh w. specialize (Hm w). unfold catch. destruct (m w) as [[a | |] w']; [done | | done].
  pose proof (runs_length k h w' (Hh w')). destruct (h w') as [[b | |] w2]; cbn [snd] in *; done || lia.
Qed.
Lemma strict_beat state folder : strict (safe_heartbeat state folder).
Proof. eapply (strict_catch 0); [| apply runs_ret]. eapply (strict_bind 0); [apply strict_perform | intros ?; apply runs_ret]. Qed.
Lemma strict_done {A} (m : M A) w a w' : strict m -> m w = (Done a, w') -> (length (w_todo w') < length (w_todo w))%nat.
Proof. intros Hm E. specialize (Hm w). by rewrite E in Hm. Qed.
Lemma strict_idle_step cx renew_at : strict (idle_step cx renew_at).
Proof. apply (strict_bind 6); [apply strict_beat | intros _; apply runs_step_body]. Qed.

(** The loops, where the fuel covers the answers to come. *)
Lemma runs_fuel {A} k (m : nat -> M A) : (forall n w, (length (w_todo w) < n)%nat -> runs_at k (m n) w) -> runs k (with_fuel m).
Proof. intros Hm w. apply (runs_ext _ (m (S (length (w_todo w))))); [done |]. apply Hm. lia. Qed.
Lemma stop_done {B} (c : bool -> M B) w : bind stop_is_set c w = c (w_stop w) w.
Proof. done. Qed.
Lemma runs_idle_steps cx : forall fuel renew_at w, (length (w_todo w) < fuel)%nat ->
  runs_at (if w_stop w then 0 else 7) (idle_steps fuel cx renew_at) w.
Proof.
  induction fuel as [| fuel IH]; intros renew_at w Hf; [lia |]. eapply runs_ext; [symmetry; apply stop_done |].
  destruct (w_stop w); [apply runs_ret |]. apply (runs_loop 7 0); [apply runs_idle_step |].
  intros r w' E Ht. apply strict_done in E; [| apply strict_idle_step]. apply IH. lia.
Qed.
Definition session_body (cx : WorkerContext) : M () :=
  run safe_heartbeat (lit "connecting") None; run ensure_inbox_row; run perform (SelectFolder INBOX); run sync_inbox;
  run perform IdleStart; run safe_heartbeat (lit "idle") None;
  finally (do! t <- now; with_fuel (fun fuel => idle_steps fuel cx (t + cx_idle_renew_ms cx))) (swallow (perform IdleDone)).
Lemma runs_session_body cx : runs 15 (session_body cx).
Proof.
  apply runs_then_beat. apply (runs_seq 1 13); [apply runs_call; intros ?; apply runs_ret | | lia]. intros _.
  apply runs_call. intros _. apply (runs_seq 2 10); [apply runs_sync_folder | | lia]. intros _. apply runs_call. intros _.
  apply runs_then_beat. intros w. apply (runs_finally 7 1); [| apply runs_swallow, runs_perform].
  refine (runs_read 7 now _ (runs_now 0) _ w). intros t. apply runs_fuel. intros n w' Hn.
  eapply runs_more, runs_idle_steps; [destruct (w_stop w'); lia | done].
Qed.
Lemma strict_connection {A} k cx (body : M A) : runs k body -> strict (open_connection cx body).
Proof.
  intros Hb. apply (strict_bind (S (3 + k) + 1)); [apply strict_perform |]. intros _ w.
  apply runs_finally; [| apply runs_swallow, runs_perform]. apply runs_call. intros _.
  apply (runs_seq 3 k); [apply runs_login | done | lia].
Qed.
Lemma runs_session cx : runs 21 (one_inbox_session cx).
Proof. apply (runs_connection 15), runs_session_body. Qed.
Lemma strict_session cx : strict (one_inbox_session cx).
Proof. apply (strict_connection 15), runs_session_body. Qed.
(** A loop's turn and its handler. *)
Lemma runs_turn {A B} k b (m : M A) (f : A -> B) (g : bool -> B) : runs k m -> strict m ->
  runs (k + 2) (catch (do! a <- m; ret (f a)) (do! leave <- crashed b; ret (g leave))) /\
  strict (catch (do! a <- m; ret (f a)) (do! leave <- crashed b; ret (g leave))).
Proof.
  intros Hm Hs. assert (Hb : runs k (do! a <- m; ret (f a))) by (apply (runs_seq k 0); [done | intros; apply runs_ret | lia]).
  assert (Hh : runs 2 (do! leave <- crashed b; ret (g leave))) by (apply (runs_seq 2 0); [apply runs_crashed | intros; apply runs_ret | lia]).
  split; [intros w; by apply runs_catch |]. apply (strict_catch 2); [| done]. apply (strict_bind 0); [done | intros; apply runs_ret].
Qed.
Lemma runs_idle_loop cx : forall fuel backoff w, (length (w_todo w) < fuel)%nat ->
  runs_at (if w_stop w then 0 else 23) (inbox_idle_loop fuel cx backoff) w.
Proof.
  induction fuel as [| fuel IH]; intros b w Hf; [lia |]. eapply runs_ext; [symmetry; apply stop_done |].
  destruct (w_stop w); [apply runs_ret |].
  destruct (runs_turn 21 b (one_inbox_session cx) (fun _ => Some BACKOFF_INITIAL_MS)
    (fun leave : bool => if leave then None else Some (Z.min (b * 2) BACKOFF_MAX_MS)) (runs_session cx) (strict_session cx)) as [Hr Hs].
  apply (runs_loop 23 0); [apply Hr |]. intros next w' E Ht. apply strict_done in E; [| done].
  destruct next as [b' |]; [| by apply runs_ret]. apply IH. lia.
Qed.
Lemma runs_selectable l : forall w, runs_at (if w_stop w then 0 else 3) (sync_selectable l) w.
Proof.
  induction l as [| f l IH]; intros w; [by apply runs_ret |]. eapply runs_ext; [symmetry; apply stop_done |].
  destruct (w_stop w) eqn:Ew; [apply runs_ret |]. case_decide; [specialize (IH w); by rewrite Ew in IH |].
  eapply runs_ext; [| apply (runs_loop 3 0 (run safe_heartbeat (lit "syncing") (Some (Sync.fo_name f)); sync_folder (Sync.fo_name f)) (fun _ => sync_selectable l))].
  - unfold bind. destruct (safe_heartbeat _ _ w) as [[] ?]; [| done..]. done.
  - apply runs_then_beat, runs_sync_folder.
  - intros a w' _ _. apply IH.
Qed.
Lemma runs_pass cx : runs 11 (one_poll_pass cx) /\ strict (one_poll_pass cx).
Proof.
  assert (Hb : runs 5 (run safe_heartbeat (lit "polling") None;
    do! o <- perform ListFolders;
    sync_selectable (Sync.folders_to_sync (oc_folders o) (Some (ac_folder_allow (cx_account cx)))
      (Some (ac_folder_deny (cx_account cx))) (Some (ac_folder_deny_flags (cx_account cx)))))).
  { apply runs_then_beat, runs_call. intros o w. eapply runs_more, runs_selectable. destruct (w_stop w); lia. }
  split; [by apply (runs_connection 5) | by apply (strict_connection 5)].
Qed.
(** One turn of the wait: [None] to go on. *)
Definition wait_turn (deadline : Z) : M (option bool) :=
  run safe_heartbeat (lit "idle") None;
  do! t <- now;
  let remaining := deadline - t in
  if remaining <=? 0 then ret (Some false)
  else do! stopped <- stop_wait (Z.min HEARTBEAT_MS remaining); ret (if stopped then Some true else None).
Lemma wait_loop_turn fuel deadline w :
  bind (wait_turn deadline) (fun o => match o with Some b => ret b | None => wait_loop fuel deadline end) w = wait_loop (S fuel) deadline w.
Proof.
  cbn [wait_loop]. unfold wait_turn, bind at 1 2. unfold bind at 3. destruct (safe_heartbeat _ _ w) as [[[] | |] w1]; [| done..].
  unfold now, bind. destruct (_ <=? 0); [done |]. destruct (stop_wait _ w1) as [[[] | |] w2]; done.
Qed.
Lemma runs_wait_turn deadline : runs 2 (wait_turn deadline) /\ strict (wait_turn deadline).
Proof.
  assert (Hr : runs 1 (do! t <- now; let remaining := deadline - t in
    if remaining <=? 0 then ret (Some false)
    else do! stopped <- stop_wait (Z.min HEARTBEAT_MS remaining); ret (if stopped then Some true else None))).
  { apply runs_read; [apply runs_now |]. intros t. cbn zeta. destruct (_ <=? 0); [apply runs_ret |].
    apply (runs_seq 1 0); [apply runs_wait | intros; apply runs_ret | done]. }
  split; [by apply runs_then_beat | apply (strict_bind 1); [apply strict_beat | by intros _]].
Qed.
Lemma wait_turn_goes_on deadline w w' : wait_turn deadline w = (Done None, w') -> w_stop w' = false.
Proof.
  unfold wait_turn, bind at 1. destruct (safe_heartbeat _ _ w) as [[[] | |] w1]; [| done..].
  unfold now, bind. destruct (_ <=? 0); [done |]. unfold stop_wait, bind. destruct (catch _ _ w1) as [[o | |] w2]; [| done..].
  unfold stop_is_set, ret. destruct (w_stop w2) eqn:E; [done |]. by intros [= <-].
Qed.
Lemma runs_wait_loop : forall fuel deadline w, (length (w_todo w) < fuel)%nat -> runs_at 2 (wait_loop fuel deadline) w.
Proof.
  induction fuel as [| fuel IH]; intros deadline w Hf; [lia |]. eapply runs_ext; [apply wait_loop_turn |].
  destruct (runs_wait_turn deadline) as [Hr Hs]. apply (runs_loop 2 0); [apply Hr |]. intros o w' E _.
  destruct o as [b |]; [apply runs_ret |]. rewrite (wait_turn_goes_on _ _ _ E). apply strict_done in E; [| done]. apply IH. lia.
Qed.
Lemma runs_wait_between cx : runs 2 (wait_between_passes cx).
Proof. apply runs_read; [apply runs_now |]. intros t. apply runs_fuel. intros n w Hn. by apply runs_wait_loop. Qed.
Lemma runs_poll_loop cx : forall fuel backoff w, (length (w_todo w) < fuel)%nat ->
  runs_at (if w_stop w then 0 else 15) (poll_loop fuel cx backoff) w.
Proof.
  induction fuel as [| fuel IH]; intros b w Hf; [lia |]. eapply runs_ext; [symmetry; apply stop_done |].
  destruct (w_stop w); [apply runs_ret |]. destruct (runs_pass cx) as [Hp Hps].
  destruct (runs_turn 11 b (one_poll_pass cx) (fun _ => None) Some Hp Hps) as [Hr Hs].
  apply (runs_loop 13 2); [apply Hr |]. intros crash w' E Ht. apply strict_done in E; [| done].
  destruct crash as [[] |]; [apply runs_ret | |].
  { eapply runs_more, IH; [destruct (w_stop w'); lia | lia]. }
  assert (Hin : forall k (leave : bool) w2, (length (w_todo w2) <= length (w_todo w'))%nat -> (w_stop w2 = false -> 15 <= k)%nat ->
    runs_at k (if leave then ret () else poll_loop fuel cx BACKOFF_INITIAL_MS) w2).
  { intros k leave w2 Hl Hk. destruct leave; [apply runs_ret |]. eapply runs_more, IH; [destruct (w_stop w2); lia | lia]. }
  destruct (w_stop w') eqn:Ew.
  - apply (runs_loop 2 0); [apply runs_wait_between |]. intros leave w2 _ Ht2. rewrite (ticks_stop _ _ Ht2 Ew).
    apply Hin; [by apply ticks_length |]. intros Hn. by rewrite (ticks_stop _ _ Ht2 Ew) in Hn.
  - apply (runs_loop 15 0); [eapply runs_more, runs_wait_between; lia |]. intros leave w2 _ Ht2.
    apply Hin; [by apply ticks_length |]. intros ->. lia.
Qed.

(** The loops let no exception out. *)
Definition safe {A} (m : M A) : Prop := forall w, (m w).1 <> Raised.
Lemma no_raise_bind {A B} (m : M A) (c : A -> M B) : safe m -> (forall a, safe (c a)) -> safe (bind m c).
Proof. intros Hm Hc w. specialize (Hm w). unfold bind. destruct (m w) as [[] w']; [apply Hc | done..]. Qed.
Lemma no_raise_catch {A} (m h : M A) : safe h -> safe (catch m h).
Proof. intros Hh w. unfold catch. destruct (m w) as [[] w']; [done | apply Hh | done]. Qed.
Lemma safe_ret {A} (a : A) : safe (ret a).
Proof. done. Qed.
Lemma safe_beat state folder : safe (safe_heartbeat state folder).
Proof. apply no_raise_catch, safe_ret. Qed.
Lemma safe_wait timeout : safe (stop_wait timeout).
Proof. apply no_raise_bind; [apply no_raise_catch, safe_ret | done]. Qed.
Lemma safe_turn {A B} b (m : M A) (g : bool -> A) (c : A -> M B) : (forall a, safe (c a)) ->
  safe (bind (catch m (do! leave <- crashed b; ret (g leave))) c).
Proof.
  intros Hc. apply no_raise_bind; [| done]. apply no_raise_catch, no_raise_bind; [| done].
  apply no_raise_bind; [apply safe_beat | intros _; apply safe_wait].
Qed.
Lemma safe_idle_loop cx fuel : forall backoff, safe (inbox_idle_loop fuel cx backoff).
Proof.
  induction fuel as [| fuel IH]; intros b; [done |]. apply no_raise_bind; [done |]. intros []; [done |].
  apply (safe_turn b _ (fun leave : bool => if leave then None else Some (Z.min (b * 2) BACKOFF_MAX_MS))). by intros [].
Qed.
Lemma safe_wait_loop fuel : forall deadline, safe (wait_loop fuel deadline).
Proof.
  induction fuel as [| fuel IH]; intros d; [done |]. apply no_raise_bind; [apply safe_beat |]. intros _. apply no_raise_bind; [done |].
  intros t. cbn zeta. destruct (_ <=? 0); [done |]. apply no_raise_bind; [apply safe_wait | by intros []].
Qed.
Lemma safe_poll_loop cx fuel : forall backoff, safe (poll_loop fuel cx backoff).
Proof.
  induction fuel as [| fuel IH]; intros b; [done |]. apply no_raise_bind; [done |]. intros []; [done |].
  apply (safe_turn b _ Some). intros [[] |]; [done | done |]. apply no_raise_bind; [| by intros []].
  apply no_raise_bind; [done |]. intros t w. apply safe_wait_loop.
Qed.

(** ** The theorems *)

Definition thread_starts (t : Z) (script : list (call -> outcome)) : world := World t false script [].
Definition idle_thread cx t script := run_inbox_idle_loop cx (thread_starts t script).
Definition poll_thread cx t script := run_poll_loop cx (thread_starts t script).

(** C24: whatever the server and the database answer, in time, the threads keep
    their discipline.  While an IDLE is open nothing but [idle_check] and DONE is sent, and
    it is ended at most [idle_renew_seconds] and the delays after it began; every
    wait follows a heartbeat and is short; the IDLE thread syncs the inbox only.  The
    poll thread never syncs the inbox; on every connection it lists the folders once
    it is logged in and syncs each folder of the listing the account wants, in the
    order of the listing, and gives the connection up early only when a call of the
    pass has failed or the stop event is set. *)
Theorem workers_are_disciplined delta slack cx t script :
  0 <= delta -> 0 <= slack -> 0 <= cx_idle_renew_ms cx -> Forall (timely delta slack) script ->
  disciplined true (cx_idle_renew_ms cx + 2 * delta + 1000 + slack) (w_trace (idle_thread cx t script).2) /\
  disciplined false (cx_idle_renew_ms cx + 2 * delta + 1000 + slack) (w_trace (poll_thread cx t script).2) /\
  diligent cx (w_trace (poll_thread cx t script).2).
Proof.
  intros Hd Hs Hr Hscript.
  assert (Hin : forall inbox, at_phase inbox delta slack cx Closed (thread_starts t script)) by (intros; by split; [split |]).
  split_and!.
  - pose proof (spec_idle_loop true delta slack cx Hd Hs Hr (S (length script)) eq_refl _ beaten_initial _ (Hin true)) as Hi.
    unfold idle_thread, run_inbox_idle_loop, with_fuel. cbn [thread_starts w_todo].
    by destruct (inbox_idle_loop _ _ _ _) as [[] w1]; [destruct Hi as [[_ Hi] _] | | destruct Hi as [_ Hi]].
  - epose proof (spec_poll_loop false delta slack cx (S (length script)) eq_refl _ beaten_initial _ (Hin false)) as Hp.
    unfold poll_thread, run_poll_loop, with_fuel. cbn [thread_starts w_todo].
    by destruct (poll_loop _ _ _ _) as [[] w1]; [destruct Hp as [[_ Hp] _] | | destruct Hp as [_ Hp]].
  - pose proof (duty_poll_loop cx (S (length script)) BACKOFF_INITIAL_MS (thread_starts t script) (conj I eq_refl)) as Hp.
    unfold poll_thread, run_poll_loop, with_fuel. cbn [thread_starts w_todo].
    by destruct (poll_loop _ _ _ _) as [[] w1]; [destruct Hp as [Hp _] | destruct Hp as [Hp _] |].
Qed.

Lemma thread_stops k (m : M ()) t pre f post : safe m -> runs_at k m (thread_starts t (pre ++ f :: post)) ->
  (forall c, oc_stop (f c) = true) -> (k < length post)%nat ->
  (m (thread_starts t (pre ++ f :: post))).1 = Done () /\ (late (m (thread_starts t (pre ++ f :: post))).2 <= k)%nat.
Proof.
  intros Hs [Ht Hl _ Hp] Hf Hk. specialize (Hs (thread_starts t (pre ++ f :: post))). cbn [late thread_starts w_trace List.filter length] in Hl.
  destruct (m _) as [[[] | |] w'] eqn:E; cbn [fst snd] in *; [done | done |].
  pose proof (ticks_late _ _ pre f post Ht eq_refl Hf (Hp eq_refl)). exfalso. unfold late in *. cbn in *. lia.
Qed.
(** C25: once the stop event is set the IDLE thread returns after at most 23 more
    calls and the poll thread after at most 15, wherever the event found them and
    whatever those calls answer or raise. *)
Theorem workers_stop_promptly cx t pre f post :
  (forall c, oc_stop (f c) = true) -> (23 < length post)%nat ->
  ((idle_thread cx t (pre ++ f :: post)).1 = Done () /\ (late (idle_thread cx t (pre ++ f :: post)).2 <= 23)%nat) /\
  ((poll_thread cx t (pre ++ f :: post)).1 = Done () /\ (late (poll_thread cx t (pre ++ f :: post)).2 <= 15)%nat).
Proof.
  intros Hf Hk. split.
  - apply thread_stops; [intros w; apply safe_idle_loop | | done | done].
    apply (runs_fuel 23). intros n w Hn. eapply runs_more, runs_idle_loop; [destruct (w_stop w); lia | done].
  - apply thread_stops; [intros w; apply safe_poll_loop | | done | lia].
    apply (runs_fuel 15). intros n w Hn. eapply runs_more, runs_poll_loop; [destruct (w_stop w); lia | done].
Qed.

(** ** The backoff of the IDLE thread *)

Definition wait_of (ev : event) : option Z := match ev_call ev with StopWait timeout => Some timeout | _ => None end.
(** The waits of a thread, in order. *)
Definition waits (w : world) : list Z := rev (omap wait_of (w_trace w)).
Definition next_backoff (b : Z) : Z := Z.min (b * 2) BACKOFF_MAX_MS.
Fixpoint backoffs (n : nat) (b : Z) : list Z := match n with 0%nat => [] | S n => b :: backoffs n (next_backoff b) end.
Lemma backoffs_snoc n b : backoffs (S n) b = backoffs n b ++ [Nat.iter n next_backoff b].
Proof.
  revert b. induction n as [| n IH]; intros b; [done |]. cbn [backoffs app]. f_equal.
  change (backoffs (S n) (next_backoff b) = backoffs n (next_backoff b) ++ [Nat.iter (S n) next_backoff b]).
  by rewrite IH, Nat.iter_succ_r.
Qed.
Definition keeps {A} (m : M A) : Prop := forall w, waits (m w).2 = waits w.
Lemma keeps_perform c : wait_of (Event c 0 0 true false []) = None -> keeps (perform c).
Proof. intros Hc w. unfold perform. destruct (w_todo w); [done |]. unfold waits. cbn [snd w_trace omap list_omap]. unfold wait_of in *. cbn in *. by rewrite Hc. Qed.
Lemma keeps_ret {A} (r : world -> result A) : keeps (fun w => (r w, w)).
Proof. done. Qed.
Lemma keeps_bind {A B} (m : M A) (c : A -> M B) : keeps m -> (forall a, keeps (c a)) -> keeps (bind m c).
Proof. intros Hm Hc w. specialize (Hm w). unfold bind. destruct (m w) as [[a | |] w']; [by rewrite Hc | done..]. Qed.
Lemma keeps_catch {A} (m h : M A) : keeps m -> keeps h -> keeps (catch m h).
Proof. intros Hm Hh w. specialize (Hm w). unfold catch. destruct (m w) as [[a | |] w']; [done | by rewrite Hh | done]. Qed.
Lemma keeps_swallow {A} (m : M A) : keeps m -> keeps (swallow m).
Proof. intros Hm. apply keeps_catch; [by apply keeps_bind | done]. Qed.
Lemma keeps_finally {A} (m : M A) h : keeps m -> keeps h -> keeps (finally m h).
Proof.
  intros Hm Hh w. specialize (Hm w). unfold finally. destruct (m w) as [[a | |] w']; cbn [snd] in *; [| | done];
    (rewrite <- Hm; apply (keeps_bind h); done).
Qed.
Lemma keeps_call {B} c (m : outcome -> M B) : wait_of (Event c 0 0 true false []) = None -> (forall o, keeps (m o)) -> keeps (bind (perform c) m).
Proof. intros Hc Hm. apply keeps_bind; [by apply keeps_perform | done]. Qed.
Lemma keeps_beat {B} state folder (m : M B) : keeps m -> keeps (bind (safe_heartbeat state folder) (fun _ => m)).
Proof. intros Hm. apply keeps_bind; [apply keeps_swallow; by apply keeps_perform | done]. Qed.
Ltac keeps :=
  repeat first
    [ apply keeps_beat | apply keeps_call; [done | intros ?] | apply keeps_ret
    | apply keeps_bind; [| intros ?] | apply keeps_finally | apply keeps_swallow | apply keeps_perform; done ].
Lemma keeps_idle_step cx renew_at : keeps (idle_step cx renew_at).
Proof. unfold idle_step, sync_inbox. keeps. destruct a0; [keeps |]. destruct (oc_responses o); keeps. destruct (_ <=? _); keeps. Qed.
Lemma keeps_idle_steps cx fuel : forall renew_at, keeps (idle_steps fuel cx renew_at).
Proof.
  induction fuel as [| fuel IH]; intros r; [done |]. apply keeps_bind; [done |]. intros []; [done |].
  apply keeps_bind; [apply keeps_idle_step | done].
Qed.
Lemma keeps_session cx : keeps (one_inbox_session cx).
Proof.
  apply keeps_call; [done |]. intros _. apply keeps_finally; [| keeps]. apply keeps_call; [done |]. intros _. apply keeps_bind.
  { unfold login. repeat case_decide; try destruct (negb _); keeps; destruct (oc_secret _); keeps. }
  intros _. unfold ensure_inbox_row, sync_inbox. keeps. intros w. apply keeps_idle_steps.
Qed.
(** A session that returns was stopped: every other one ends with an exception. *)
Definition ends_stopped {A} (m : M A) : Prop := forall w, match m w with (Done _, w') => w_stop w' = true | _ => True end.
Lemma ends_bind {A B} (m : M A) (c : A -> M B) : (forall a, ends_stopped (c a)) -> ends_stopped (bind m c).
Proof. intros Hc w. unfold bind. destruct (m w) as [[a | |] w']; [apply Hc | done..]. Qed.
Lemma ends_finally {A} k (m : M A) h : ends_stopped m -> runs k h -> ends_stopped (finally m h).
Proof.
  intros Hm Hh w. specialize (Hm w). unfold finally. destruct (m w) as [[a | |] w']; [| | done].
  - pose proof (Hh w') as [Ht _ _ _]. unfold bind. destruct (h w') as [[u | |] w2]; cbn [snd ret] in *; [by eapply ticks_stop | done..].
  - unfold bind. by destruct (h w') as [[u | |] w2].
Qed.
Lemma idle_steps_stopped cx fuel : forall renew_at, ends_stopped (idle_steps fuel cx renew_at).
Proof.
  induction fuel as [| fuel IH]; intros r; [done |]. intros w. unfold idle_steps; fold idle_steps. rewrite stop_done.
  destruct (w_stop w) eqn:E; [done |]. by apply ends_bind.
Qed.
Lemma session_stopped cx : ends_stopped (one_inbox_session cx).
Proof.
  apply ends_bind. intros _. apply (ends_finally 1); [| apply runs_swallow, runs_perform]. do 7 (apply ends_bind; intros _).
  apply ends_bind. intros _. apply (ends_finally 1); [| apply runs_swallow, runs_perform]. apply ends_bind. intros t w.
  apply idle_steps_stopped.
Qed.
Lemma waits_crashed b w : let '(r, w') := crashed b w in
  (r = Done (w_stop w') \/ r = Pending) /\ (waits w' = waits w ++ [b] \/ r = Pending /\ waits w' = waits w).
Proof.
  unfold crashed, bind.
  assert (Hk : waits (safe_heartbeat (lit "reconnecting") None w).2 = waits w) by by apply keeps_swallow, keeps_perform.
  pose proof (safe_beat (lit "reconnecting") None w) as Hs. destruct (safe_heartbeat _ _ w) as [[[] | |] w1]; cbn [fst snd] in *; [| done | by split; auto].
  unfold stop_wait, bind, catch, perform. destruct (w_todo w1) as [| f todo]; [by split; auto |].
  assert (Hw : forall s td e ok l, waits (World e s td (Event (StopWait b) (w_now w1) e ok (w_stop w1) l :: w_trace w1)) = waits w ++ [b]).
  { intros. by rewrite <- Hk. }
  unfold ret, stop_is_set. destruct (oc_ok (f (StopWait b))); (split; [by left | left; apply Hw]).
Qed.
Lemma idle_loop_waits cx : forall fuel b w, exists n, waits (inbox_idle_loop fuel cx b w).2 = waits w ++ backoffs n b.
Proof.
  induction fuel as [| fuel IH]; intros b w; [exists 0%nat; by rewrite app_nil_r |]. cbn [inbox_idle_loop]. rewrite stop_done.
  destruct (w_stop w); [exists 0%nat; by rewrite app_nil_r |]. unfold bind at 1, catch. unfold bind at 1.
  pose proof (keeps_session cx w) as Hk. pose proof (session_stopped cx w) as Hst.
  destruct (one_inbox_session cx w) as [[[] | |] w1]; cbn [snd ret] in *.
  - exists 0%nat. rewrite app_nil_r. destruct fuel; cbn [inbox_idle_loop]; [done |]. by rewrite stop_done, Hst.
  - unfold bind at 1. pose proof (waits_crashed b w1) as Hc. destruct (crashed b w1) as [r w2].
    destruct Hc as [[-> | ->] [Hw | [? Hw]]]; try done; cbn [ret snd].
    + unfold ret. destruct (w_stop w2); cbn beta iota; [exists 1%nat; cbn [snd backoffs]; by rewrite Hw, Hk |].
      destruct (IH (next_backoff b) w2) as [n Hn]. exists (S n). unfold next_backoff in *. rewrite Hn, Hw, Hk. by rewrite <- app_assoc.
    + exists 1%nat. by rewrite Hw, Hk.
    + exists 0%nat. by rewrite Hw, Hk, app_nil_r.
  - exists 0%nat. by rewrite app_nil_r.
Qed.
(** Whatever the sessions in between, and however long they last, the waits before
    reconnecting only grow: 1, 2, 4, ... and then 60 seconds for ever. *)
Lemma idle_backoff_never_resets cx t script : exists n, waits (idle_thread cx t script).2 = backoffs n BACKOFF_INITIAL_MS.
Proof. apply (idle_loop_waits cx). Qed.

(** ** Witnesses *)

Definition Example_cx : WorkerContext :=
  MkContext (MkAccountConfig (lit "ann") (lit "ann@example.org") (lit "imap.example.org") 993 (lit "password") None [] [] []) 600000 300000 false.
(** An answer in time; [mail] says whether there is some, [stop] sets the event. *)
Definition Example_answer (ok stop mail : bool) (c : call) : outcome :=
  Outcome (match c with IdleCheck timeout => Z.max 0 timeout | _ => 20 end) ok stop mail true
    [Sync.Folder [] None (lit "INBOX"); Sync.Folder [] None (lit "Archive");
     Sync.Folder [lit "\Noselect"] None (lit "[Gmail]"); Sync.Folder [] None (lit "Sent")].
Lemma Example_timely ok stop mail : timely 20 0 (Example_answer ok stop mail).
Proof. intros c. destruct c; cbn; lia. Qed.
Definition Example_script : list (call -> outcome) :=
  replicate 40 (Example_answer true false false) ++ [Example_answer true false true] ++ replicate 60 (Example_answer true false false).
(** The folders synced by a thread, in order. *)
Definition synced (w : world) : list pystr :=
  rev (omap (fun ev => match ev_call ev with SyncMailbox name => Some name | _ => None end) (w_trace w)).
Lemma workers_are_disciplined_witness :
  disciplined true (cx_idle_renew_ms Example_cx + 2 * 20 + 1000 + 0) (w_trace (idle_thread Example_cx 0 Example_script).2) /\
  diligent Example_cx (w_trace (poll_thread Example_cx 0 Example_script).2) /\
  length (w_trace (idle_thread Example_cx 0 Example_script).2) = 101%nat /\
  synced (poll_thread Example_cx 0 Example_script).2 = [lit "Archive"; lit "Sent"].
Proof.
  assert (Hs : Forall (timely 20 0) Example_script).
  { unfold Example_script. repeat (apply list.Forall_app; split); try apply Forall_replicate; try apply Example_timely.
    apply list.Forall_singleton, Example_timely. }
  destruct (workers_are_disciplined 20 0 Example_cx 0 Example_script ltac:(done) ltac:(done) ltac:(done) Hs) as (Hi & _ & Hp).
  split; [exact Hi |]. split; [exact Hp |]. split; by vm_compute.
Defined.
Lemma workers_stop_promptly_witness :
  (idle_thread Example_cx 0 (replicate 40 (Example_answer true false false) ++ Example_answer true true false :: replicate 30 (Example_answer true false false))).1 = Done () /\
  (late (idle_thread Example_cx 0 (replicate 40 (Example_answer true false false) ++ Example_answer true true false :: replicate 30 (Example_answer true false false))).2 <= 23)%nat.
Proof.
  refine (proj1 (workers_stop_promptly Example_cx 0 (replicate 40 (Example_answer true false false)) (Example_answer true true false) (replicate 30 (Example_answer true false false)) _ _)).
  - done.
  - rewrite length_replicate. lia.
Defined.
