(* ===== verification/AdminWeb.v ===== *)
(** * The admin web session ([api/admin/session_tokens.py], [csrf.py],
      [oauth_state.py], [serve/admin/dependencies.py], [csrf.py], [auth_router.py])

    Cookies and state tokens are JSON in base64url with an HMAC; CSRF tokens are the
    HMAC of a user and an action.  [hmac_sha256] is an interface.  What a route does
    once the request is let through is [Admin] and the other services; the Google
    consent flow is third-party code, an argument of [complete_oauth]. *)
From S2P Require Import Prelude PyStr Base64 Errors Score Odict Json Utf8 Credentials Admin AdminAccounts JsonText Secrets.
Import Credential Auth Admin Json_text.

(** [hmac.new(key, message, sha256).digest()] *)
Class Hmac := {
  hmac_sha256 : bytes -> bytes -> bytes;
  hmac_is_bytes : forall key m, Forall is_byte (hmac_sha256 key m);
  hmac_length : forall key m, length (hmac_sha256 key m) = 32%nat;
}.
Inductive web_error :=
  | SessionTokenError | CSRFError | StateInvalid | StateExpired
  | WebValueError | WebTypeError | WebUnicodeEncodeError | WebOverflowError.
Record SessionPayload := MkPayload { sp_user_id : Z; sp_issued_at : Z; sp_exp : Z }.
Record StatePayload := MkState { st_user_id : Z; st_account_id : Z; st_nonce : pystr; st_exp : Z }.

Module Tokens.
Section tokens.
Context `{Hmac} `{PyFloatText}.

(** ** [session_tokens.py] *)

Definition CURRENT_VERSION : Z := 1.
Definition KEY_MIN : nat := 16.
(** [separators=(",", ":")], [sort_keys=True]: ASCII, its own UTF-8. *)
Definition wire_layout : layout := Layout None (lit ",") (lit ":") true true.
Definition encode_unsigned (d : json) : pystr := b64url_encode (dumps wire_layout d).
Definition sign (body_b64 : pystr) (key : bytes) : res web_error pystr :=
  if isascii body_b64 then Ok (b64url_encode (hmac_sha256 key body_b64)) else Err WebUnicodeEncodeError.
(** [hmac.compare_digest] of two strings. *)
Definition compare_digest (a b : pystr) : res web_error bool :=
  if isascii a && isascii b then Ok (bool_decide (a = b)) else Err WebTypeError.
Definition payload_json (p : SessionPayload) : json :=
  JObj [(lit "v", JInt CURRENT_VERSION); (lit "user_id", JInt (sp_user_id p));
        (lit "issued_at", JInt (sp_issued_at p)); (lit "exp", JInt (sp_exp p))].
Definition DOT : Z := 46.
Definition encode_session_token (p : SessionPayload) (key : bytes) : res web_error pystr :=
  guard! negb (length key <? KEY_MIN)%nat else WebValueError in
  let body := encode_unsigned (payload_json p) in
  let* sig := sign body key in Ok (body ++ DOT :: sig).
(** [int(x)] of a JSON value. *)
Definition trunc (s : bool) (m : positive) (e : Z) : Z :=
  let n := if 0 <=? e then Zpos m * 2 ^ e else Zpos m / 2 ^ (- e) in if s then - n else n.
Definition int_of_json (j : json) : res web_error Z :=
  match j with
  | JInt n => Ok n
  | JBool b => Ok (Z.b2z b)
  | JFloat (S754_finite s m e) => Ok (trunc s m e)
  | JFloat (S754_zero _) => Ok 0
  | JFloat (S754_infinity _) => Err WebOverflowError
  | JFloat S754_nan => Err WebValueError
  | JStr s => match py_int s with Some n => Ok n | None => Err WebValueError end
  | JNull | JArr _ | JObj _ => Err WebTypeError
  end.
(** [except (KeyError, TypeError, ValueError)] *)
Definition int_field (k : pystr) (d : list (pystr * json)) : res web_error Z :=
  match od_get k d with
  | None => Err SessionTokenError
  | Some j => match int_of_json j with
              | Err WebTypeError | Err WebValueError => Err SessionTokenError
              | r => r
              end
  end.
Definition loads_b64 (body : pystr) : option json :=
  match b64url_decode body with
  | Some bs => match json_text bs with Some t => loads t | None => None end
  | None => None
  end.
Definition decode_payload (body : pystr) (now : Z) : res web_error SessionPayload :=
  match loads_b64 body with
  | Some (JObj d) =>
      guard! equals_int CURRENT_VERSION (default JNull (od_get (lit "v") d)) else SessionTokenError in
      let* user_id := int_field (lit "user_id") d in
      let* issued_at := int_field (lit "issued_at") d in
      let* exp := int_field (lit "exp") d in
      guard! negb (exp <=? now) else SessionTokenError in Ok (MkPayload user_id issued_at exp)
  | _ => Err SessionTokenError
  end.
Definition decode_session_token (token : pystr) (key : bytes) (now : Z) : res web_error SessionPayload :=
  match split_on DOT token with
  | [body; sig] =>
      guard! negb (bool_decide (body = [])) && negb (bool_decide (sig = [])) else SessionTokenError in
      let* expected := sign body key in
      let* same := compare_digest expected sig in
      if (same : bool) then decode_payload body now else Err SessionTokenError
  | _ => Err SessionTokenError
  end.

(** ** [csrf.py] *)

Definition utf8_str (s : pystr) : res web_error bytes :=
  match mapM (fun c => match utf8_char c with Ok b => Some b | Err _ => None end) s with
  | Some bss => Ok (concat bss)
  | None => Err WebUnicodeEncodeError
  end.
Definition BIND_PREFIX : pystr := lit "v=1|u=".
Definition bind_string (user_id : Z) (action : pystr) : res web_error bytes :=
  utf8_str (BIND_PREFIX ++ str_int user_id ++ lit "|a=" ++ action).
Definition make_csrf_token (user_id : Z) (action : pystr) (key : bytes) : res web_error pystr :=
  guard! negb (length key <? KEY_MIN)%nat else WebValueError in
  let* bound := bind_string user_id action in Ok (b64url_encode (hmac_sha256 key bound)).
Definition verify_csrf_token (token : pystr) (user_id : Z) (action : pystr) (key : bytes) : res web_error () :=
  guard! negb (bool_decide (token = [])) && negb (contains DOT token) else CSRFError in
  let* expected := make_csrf_token user_id action key in
  let* same := compare_digest expected token in
  guard! same else CSRFError in Ok ().

(** ** [oauth_state.py] *)

Definition state_json (p : StatePayload) : json :=
  JObj [(lit "user_id", JInt (st_user_id p)); (lit "account_id", JInt (st_account_id p));
        (lit "nonce", JStr (st_nonce p)); (lit "exp", JInt (st_exp p))].
Definition encode_state (p : StatePayload) (key : bytes) : pystr :=
  let body_b64 := encode_unsigned (state_json p) in
  body_b64 ++ DOT :: b64url_encode (hmac_sha256 key body_b64).
(** [StatePayload( **body)] takes exactly the four fields, of any type; an object of
    [loads] has each key once. *)
Definition state_of_json (j : json) : option (json * json * json * json) :=
  match j with
  | JObj d =>
      if (length d =? 4)%nat then
        match od_get (lit "user_id") d, od_get (lit "account_id") d, od_get (lit "nonce") d, od_get (lit "exp") d with
        | Some u, Some a, Some n, Some e => Some (u, a, n, e)
        | _, _, _, _ => None
        end
      else None
  | _ => None
  end.
(** [payload.exp < int(time.time())] *)
Definition json_before (j : json) (now : Z) : res web_error bool :=
  match j with
  | JInt n => Ok (n <? now)
  | JBool b => Ok (Z.b2z b <? now)
  | JFloat x => Ok (flt x (float_of_int now))
  | _ => Err WebTypeError
  end.
(** The signed body of a token, which [consent_state.py] checks in the same way. *)
Definition open_signed (token : pystr) (key : bytes) : res web_error json :=
  match partition_at DOT token with
  | (_, None) => Err StateInvalid
  | (body_b64, Some sig_b64) =>
      guard! isascii body_b64 else WebUnicodeEncodeError in
      match (if isascii sig_b64 then b64url_decode sig_b64 else None) with
      | None => Err StateInvalid
      | Some actual_sig =>
          guard! bool_decide (hmac_sha256 key body_b64 = actual_sig) else StateInvalid in
          match loads_b64 body_b64 with Some j => Ok j | None => Err StateInvalid end
      end
  end.
Definition decode_state (token : pystr) (key : bytes) (now : Z) : res web_error (json * json * json * json) :=
  let* body := open_signed token key in
  match state_of_json body with
  | None => Err StateInvalid
  | Some (u, a, n, e) => let* late := json_before e now in guard! negb late else StateExpired in Ok (u, a, n, e)
  end.
End tokens.
End Tokens.

Module Admin_web.
Import Tokens.
Section web.
Context `{Crypto} `{Hmac} `{PyFloatText}.

(** ** [dependencies.py] *)

Record AdminUser := MkAdmin { aw_id : Z; aw_username : pystr }.
Inductive auth_kind := Cookie | Bearer.
(** What a request carries that the guards look at; absent headers are empty. *)
Record request := Request {
  rq_authorization : pystr; rq_cookie : option pystr; rq_method : pystr; rq_csrf_token : pystr }.
Inductive refusal := RedirectToLogin | HttpError (status : Z) | ServerError (e : web_error).
Definition BEARER : pystr := lit "Bearer ".
(** The key of [serve_config]: empty when the admin pages are off. *)
Definition signing_key (key : bytes) : res refusal bytes :=
  if bool_decide (key = []) then Err (ServerError WebValueError) else Ok key.
Definition admin_from_cookie (now : Z) (key : bytes) (d : admin_db) (rq : request) : res refusal AdminUser :=
  match rq_cookie rq with
  | None | Some [] => Err RedirectToLogin
  | Some token =>
      let* key := signing_key key in
      match decode_session_token token key now with
      | Err SessionTokenError => Err RedirectToLogin
      | Err e => Err (ServerError e)
      | Ok payload =>
          match run_txn (get_admin_user (sp_user_id payload) (Some (sp_issued_at payload))) d with
          | Ok (_, (i, name)) => Ok (MkAdmin i name)
          | Err NotAnAdmin => Err (HttpError 403)
          | Err _ => Err RedirectToLogin
          end
      end
  end.
Definition require_admin_session (now : Z) (key : bytes) (d : admin_db) (rq : request) : res refusal (AdminUser * auth_kind) :=
  let* admin := admin_from_cookie now key d rq in Ok (admin, Cookie).
(** With the tables after it: a bearer token that is looked up is touched. *)
Definition require_admin (now : Z) (key : bytes) (d : admin_db) (rq : request) : admin_db * res refusal (AdminUser * auth_kind) :=
  if startswith (rq_authorization rq) BEARER then
    let '(a, user) := verify_token now (ad_auth d) (drop (length BEARER) (rq_authorization rq)) in
    let d := AdminDb a (ad_accounts d) (ad_grants d) (ad_commanders d) in
    (d, match user with
        | None => Err (HttpError 401)
        | Some u => if au_is_api_key u then Err (HttpError 403)
                    else if negb (au_is_admin u) then Err (HttpError 403)
                    else Ok (MkAdmin (au_id u) (au_username u), Bearer)
        end)
  else (d, require_admin_session now key d rq).

(** ** [serve/admin/csrf.py] *)

Context (upper : pystr -> pystr).                                      (* [str.upper] *)
Definition csrf_action (method action_path : pystr) : pystr := upper method ++ lit ":" ++ action_path.
Definition check_csrf (kind : auth_kind) (key : bytes) (rq : request) (admin : AdminUser) (action : pystr) : res refusal () :=
  match kind with
  | Bearer => Ok ()
  | Cookie =>
      guard! negb (bool_decide (rq_csrf_token rq = [])) else HttpError 400 in
      let* key := signing_key key in
      match verify_csrf_token (rq_csrf_token rq) (aw_id admin) (csrf_action (rq_method rq) action) key with
      | Ok _ => Ok ()
      | Err CSRFError => Err (HttpError 400)
      | Err e => Err (ServerError e)
      end
  end.
(** A route that changes something: both guards, then its own work.  The routes of
    the HTML panels take the cookie only ([require_admin_session], [panel]), those
    of the JSON API a bearer token too ([require_admin]). *)
Definition guarded (panel : bool) (now : Z) (key : bytes) (d : admin_db) (rq : request) (action : pystr) : admin_db * res refusal AdminUser :=
  let '(d, r) := if panel then (d, require_admin_session now key d rq) else require_admin now key d rq in
  (d, let* a := r in let* _ := check_csrf a.2 key rq a.1 action in Ok a.1).

(** ** [auth_router.py] *)

Definition LOGIN_CSRF_ACTION : pystr := lit "/admin/login".
Definition LOGOUT_CSRF_ACTION : pystr := lit "/admin/logout".
Definition SESSION_TTL_SECONDS : Z := 8 * 3600.
Inductive login_response := LoginError (status : Z) | LoginCrash (e : web_error) | LoginOk (cookie : pystr).
Definition with_auth (a : auth_db) (d : admin_db) : admin_db := AdminDb a (ad_accounts d) (ad_grants d) (ad_commanders d).
Definition post_login (cfg : auth_config) (now : Z) (insert_fails : bool) (key : bytes) (d : admin_db)
    (username password csrf_token : pystr) (client_ip : option pystr) : admin_db * login_response :=
  match signing_key key with
  | Err _ => (d, LoginCrash WebValueError)
  | Ok key =>
      match verify_csrf_token csrf_token 0 LOGIN_CSRF_ACTION key with
      | Err CSRFError => (d, LoginError 400)
      | Err e => (d, LoginCrash e)
      | Ok _ =>
          match check_login_rate_limits cfg now (ad_auth d) username client_ip with
          | Err _ => (d, LoginError 429)
          | Ok _ =>
              let record o := with_auth (record_login_attempt insert_fails now (ad_auth d) username client_ip o) d in
              match run_txn (authenticate_admin username password) d with
              | Err _ => (record LoginFailure, LoginError 401)
              | Ok (_, (i, _)) =>
                  (record LoginSuccess,
                   match encode_session_token (MkPayload i now (now + SESSION_TTL_SECONDS)) key with
                   | Ok token => LoginOk token
                   | Err e => LoginCrash e
                   end)
              end
          end
      end
  end.
(** The cookie is cleared; the token it held stays valid until it expires. *)
Definition post_logout (now : Z) (key : bytes) (d : admin_db) (rq : request) : res refusal () :=
  let* a := require_admin_session now key d rq in
  let* key := signing_key key in
  match verify_csrf_token (rq_csrf_token rq) (aw_id a.1) LOGOUT_CSRF_ACTION key with
  | Ok _ => Ok ()
  | Err CSRFError => Err (HttpError 400)
  | Err e => Err (ServerError e)
  end.

(** ** [api/admin/oauth.py] *)

Definition STATE_TTL_SECONDS : Z := 900.
Inductive oauth_error := OAccount (e : account_error) | PermissionDenied | OAuthNotConfigured | OState (e : web_error) | OFetch | OSecret.
(** The state of the consent URL. *)
Definition start_oauth (now : Z) (t : accounts) (account_id admin_user_id : Z) (nonce : pystr) (key : bytes) (configured : bool)
    : res oauth_error pystr :=
  match Admin_accounts.get_account t account_id with
  | Err e => Err (OAccount e)
  | Ok account =>
      guard! bool_decide (a_auth_method account = lit "oauth2") && bool_decide (a_oauth_provider account = Some (lit "gmail"))
        else OAccount AccountFieldError in
      let state := encode_state (MkState admin_user_id account_id nonce (now + STATE_TTL_SECONDS)) key in
      guard! configured else OAuthNotConfigured in Ok state
  end.
(** [fetch_token]: [flow.fetch_token] raises, or leaves credentials with a refresh token
    or without one. *)
Definition complete_oauth (now : Z) (t : accounts) (state : pystr) (admin_user_id : Z) (key : bytes) (configured : bool)
    (fetch_token : option (option pystr)) (e : Secrets.umask_env) (dir : secret_dir) : accounts * secret_dir * res oauth_error Z :=
  match decode_state state key now with
  | Err x => (t, dir, Err (OState x))
  | Ok (u, a, _, _) =>
      if negb (equals_int admin_user_id u) then (t, dir, Err PermissionDenied)
      else
        match a with
        | JInt account_id =>
            match Admin_accounts.get_account t account_id with
            | Err x => (t, dir, Err (OAccount x))
            | Ok account =>
                if negb configured then (t, dir, Err OAuthNotConfigured)
                else
                  match fetch_token with
                  | None => (t, dir, Err OFetch)
                  | Some refresh_token =>
                      match (match refresh_token with
                             | Some token => Secrets.change_secret e (a_name account) RefreshToken (Some token) dir
                             | None => Secrets.set_null e (Secrets.username (a_name account) RefreshToken) dir
                             end) with
                      | (dir, Some (Ok _)) => match Admin_accounts.touch_account_updated_at t account_id now with
                                              | Ok t => (t, dir, Ok account_id)
                                              | Err x => (t, dir, Err (OAccount x))
                                              end
                      | (dir, _) => (t, dir, Err OSecret)
                      end
                  end
            end
        | _ => (t, dir, Err (OAccount AccountNotFound))              (* not of a minted state *)
        end
  end.
End web.
End Admin_web.
