(* ===== verification/OAuthConsent.v ===== *)
(** * OAuth clients and consent ([mcp/oauth/clients.py], [registration.py],
      [consent_state.py], [consent_forms.py], [provider.py], [serve/oauth/])

    Dynamic client registration with its cap and its sweep, the authorization request
    that becomes a signed blob, and the consent form that mints the code.  The SDK in
    front of [authorize] and [register_client] is third-party code: what it passes on
    is an argument. *)
From S2P Require Import Prelude PyStr Base64 Errors MailStore Odict Json HttpBlob Credentials OAuth JsonText AdminWeb.
Import Auth OAuth Tokens Json_text Blob_response.

(** [clients.ClientRow] *)
Record client_row := ClientRow {
  cl_client_secret_sha256 : option bytes; cl_redirect_uris : list pystr; cl_client_name : option pystr;
  cl_grant_types : option (list pystr); cl_response_types : option (list pystr);
  cl_token_endpoint_auth_method : option pystr; cl_scope : option pystr;
  cl_created_at : Z; cl_last_used_at : option Z }.
(** [auth_db] with [oauth_clients] and [oauth_registration_attempts], the latter as
    address and time. *)
Record oauth_db := OAuthDb {
  od_auth : auth_db; od_clients : gmap pystr client_row; od_registration_attempts : list (option pystr * Z) }.
Inductive store_error := UniqueViolation | ForeignKeyViolation.

Module Clients.

(** ** [clients.py] *)

(** [_register_client_sync]: no secret is ever stored. *)
Definition register_client (now : Z) (client_id : pystr) (redirect_uris : list pystr) (client_name : option pystr)
    (grant_types response_types : list pystr) (auth_method scope : option pystr) (d : oauth_db) : res store_error oauth_db :=
  guard! negb (bool_decide (is_Some (od_clients d !! client_id))) else UniqueViolation in
  Ok (OAuthDb (od_auth d)
        (<[client_id := ClientRow None redirect_uris client_name (Some grant_types) (Some response_types) auth_method scope now None]>
          (od_clients d))
        (od_registration_attempts d)).
Definition get_client (d : oauth_db) (client_id : pystr) : option client_row := od_clients d !! client_id.
Definition set_last_used (now : Z) (c : client_row) : client_row :=
  ClientRow (cl_client_secret_sha256 c) (cl_redirect_uris c) (cl_client_name c) (cl_grant_types c) (cl_response_types c)
    (cl_token_endpoint_auth_method c) (cl_scope c) (cl_created_at c) (Some now).
Definition touch_last_used (now : Z) (client_id : pystr) (d : oauth_db) : oauth_db :=
  OAuthDb (od_auth d) (alter (set_last_used now) client_id (od_clients d)) (od_registration_attempts d).
(** The [NOT EXISTS] of the sweep. *)
Definition live_refresh (now : Z) (client_id : pystr) (r : refresh_row) : Prop :=
  r_client_id r = client_id /\ now < r_expires_at r /\ r_consumed_at r = None.
#[export] Instance live_refresh_dec now client_id r : Decision (live_refresh now client_id r).
Proof. unfold live_refresh. apply _. Defined.
Definition has_live_refresh (now : Z) (d : auth_db) (client_id : pystr) : bool :=
  bool_decide (map_Exists (fun _ r => live_refresh now client_id r) (oauth_refresh_tokens d)).
Definition abandoned (now retention_s : Z) (d : oauth_db) (client_id : pystr) : bool :=
  match od_clients d !! client_id with
  | Some c => (default (cl_created_at c) (cl_last_used_at c) <? now - retention_s) && negb (has_live_refresh now (od_auth d) client_id)
  | None => false
  end.
(** The deletion of some clients: [ON DELETE CASCADE] takes their codes, refresh
    tokens and access tokens with them. *)
Definition delete_clients (gone : pystr -> bool) (d : oauth_db) : oauth_db :=
  let a := od_auth d in
  OAuthDb
    (AuthDb (api_users a)
       (filter (fun e => from_option gone false (t_oauth_client_id e.2) = false) (api_tokens a))
       (filter (fun e => gone (r_client_id e.2) = false) (oauth_refresh_tokens a))
       (filter (fun e => gone (c_client_id e.2) = false) (oauth_authorization_codes a))
       (api_login_attempts a))
    (filter (fun e => gone e.1 = false) (od_clients d)) (od_registration_attempts d).
Definition cleanup_unused (now retention_s : Z) (d : oauth_db) : oauth_db * nat :=
  let d' := delete_clients (abandoned now retention_s d) d in
  (d', (size (od_clients d) - size (od_clients d'))%nat).

(** ** [registration.py] *)

Definition set_registrations (l : list (option pystr * Z)) (d : oauth_db) : oauth_db := OAuthDb (od_auth d) (od_clients d) l.
Definition record (now : Z) (ip : option pystr) (d : oauth_db) : oauth_db :=
  set_registrations (od_registration_attempts d ++ [(ip, now)]) d.
(** [WHERE ip = %s]: never true of a NULL. *)
Definition recent_from (now window_s : Z) (ip : option pystr) (e : option pystr * Z) : Prop :=
  is_Some ip /\ e.1 = ip /\ now - window_s < e.2.
#[export] Instance recent_from_dec now window_s ip e : Decision (recent_from now window_s ip e).
Proof. unfold recent_from. apply _. Defined.
Definition count_recent (now : Z) (ip : option pystr) (window_s : Z) (d : oauth_db) : Z :=
  Z.of_nat (length (filter (recent_from now window_s ip) (od_registration_attempts d))).
Definition over_limit (now : Z) (ip : option pystr) (window_s max_n : Z) (d : oauth_db) : bool :=
  max_n <=? count_recent now ip window_s d.
(** [lock_free]: whether [pg_try_advisory_lock] gets the lock. *)
Definition sweep (lock_free : bool) (now retention_s : Z) (d : oauth_db) : oauth_db * nat :=
  if negb lock_free then (d, 0%nat)
  else
    let keep := filter (fun e => ~ e.2 < now - retention_s) (od_registration_attempts d) in
    (set_registrations keep d, (length (od_registration_attempts d) - length keep)%nat).

(** ** [registration_guard.py] *)

Record mcp_config := McpConfig {
  oauth_authorization_code_ttl_s : Z; oauth_consent_state_ttl_s : Z; oauth_require_resource_indicator : bool;
  oauth_registration_window_s : Z; oauth_registration_max : Z; oauth_client_unused_retention_s : Z }.
(** The two transactions of a POST to [/register]: the check, answered 429 when it is
    over the limit, and the record with both sweeps. *)
Definition guard_check (cfg : mcp_config) (now : Z) (ip : option pystr) (d : oauth_db) : bool :=
  over_limit now ip (oauth_registration_window_s cfg) (oauth_registration_max cfg) d.
Definition record_and_sweep (cfg : mcp_config) (lock_free : bool) (now : Z) (ip : option pystr) (d : oauth_db) : oauth_db :=
  let d := record now ip d in
  let d := (sweep lock_free now (oauth_registration_window_s cfg) d).1 in
  (cleanup_unused now (oauth_client_unused_retention_s cfg) d).1.
End Clients.

Module Consent.
Section consent.
Context `{Crypto} `{Hmac} `{PyFloatText}.

(** ** [consent_state.py] *)

Record ConsentPayload := MkConsent {
  cp_client_id : pystr; cp_redirect_uri : pystr; cp_redirect_uri_provided_explicitly : bool; cp_code_challenge : pystr;
  cp_scopes : list pystr; cp_state : option pystr; cp_exp : Z; cp_resource : option pystr }.
Definition json_opt (s : option pystr) : json := match s with Some s => JStr s | None => JNull end.
Definition consent_json (p : ConsentPayload) : json :=
  JObj [(lit "client_id", JStr (cp_client_id p)); (lit "redirect_uri", JStr (cp_redirect_uri p));
        (lit "redirect_uri_provided_explicitly", JBool (cp_redirect_uri_provided_explicitly p));
        (lit "code_challenge", JStr (cp_code_challenge p)); (lit "scopes", JArr (map JStr (cp_scopes p)));
        (lit "state", json_opt (cp_state p)); (lit "exp", JInt (cp_exp p)); (lit "resource", json_opt (cp_resource p))].
Definition encode_consent_state (p : ConsentPayload) (key : bytes) : pystr :=
  let body_b64 := encode_unsigned (consent_json p) in
  body_b64 ++ DOT :: b64url_encode (hmac_sha256 key body_b64).
(** [ConsentPayload( **body)]: the eight fields, [resource] having a default. *)
Record consent_fields := ConsentFields {
  cf_client_id : json; cf_redirect_uri : json; cf_explicit : json; cf_code_challenge : json;
  cf_scopes : json; cf_state : json; cf_exp : json; cf_resource : json }.
Definition consent_of_json (j : json) : option consent_fields :=
  match j with
  | JObj d =>
      let resource := od_get (lit "resource") d in
      if (length d =? (match resource with Some _ => 8 | None => 7 end))%nat then
        match od_get (lit "client_id") d, od_get (lit "redirect_uri") d, od_get (lit "redirect_uri_provided_explicitly") d,
              od_get (lit "code_challenge") d, od_get (lit "scopes") d, od_get (lit "state") d, od_get (lit "exp") d with
        | Some c, Some u, Some x, Some h, Some s, Some t, Some e => Some (ConsentFields c u x h s t e (default JNull resource))
        | _, _, _, _, _, _, _ => None
        end
      else None
  | _ => None
  end.
Definition decode_consent_state (token : pystr) (key : bytes) (now : Z) : res web_error consent_fields :=
  let* body := open_signed token key in
  match consent_of_json body with
  | None => Err StateInvalid
  | Some f => let* late := json_before (cf_exp f) now in guard! negb late else StateExpired in Ok f
  end.
Definition str_of_json (j : json) : option pystr := match j with JStr s => Some s | _ => None end.
Definition opt_of_json (j : json) : option (option pystr) :=
  match j with JStr s => Some (Some s) | JNull => Some None | _ => None end.
(** The types the rest relies on, which a signed body has. *)
Definition typed (f : consent_fields) : option ConsentPayload :=
  match str_of_json (cf_client_id f), str_of_json (cf_redirect_uri f), cf_explicit f, str_of_json (cf_code_challenge f) with
  | Some c, Some u, JBool x, Some h =>
      match cf_scopes f, opt_of_json (cf_state f), cf_exp f, opt_of_json (cf_resource f) with
      | JArr l, Some t, JInt e, Some r => (fun s => MkConsent c u x h s t e r) <$> mapM str_of_json l
      | _, _, _, _ => None
      end
  | _, _, _, _ => None
  end.

(** ** [consent_forms.py] *)

Record ConsentDecision := MkDecision { cd_req : pystr; cd_username : option pystr; cd_password : option pystr; cd_allow : bool }.
Inductive form_error := ConsentFormError.
Definition given (s : option pystr) : option pystr := match s with Some (_ :: _) => s | _ => None end.     (* truthy *)
Definition parse_consent_form (form : list (pystr * pystr)) : res form_error ConsentDecision :=
  match given (od_get (lit "req") form) with
  | None => Err ConsentFormError
  | Some req =>
      match od_get (lit "decision") form with
      | Some decision =>
          if bool_decide (decision = lit "deny") then Ok (MkDecision req None None false)
          else if bool_decide (decision = lit "allow") then
            match given (od_get (lit "username") form), given (od_get (lit "password") form) with
            | Some u, Some p => Ok (MkDecision req (Some u) (Some p) true)
            | _, _ => Err ConsentFormError
            end
          else Err ConsentFormError
      | None => Err ConsentFormError
      end
  end.

(** ** [provider.authorize] *)

Record authorization_params := AuthorizationParams {
  ap_redirect_uri : pystr; ap_redirect_uri_provided_explicitly : bool; ap_code_challenge : pystr;
  ap_scopes : option (list pystr); ap_state : option pystr; ap_resource : option pystr }.
Inductive authorize_error := AuthorizeError | AuthorizeIndexError | AuthorizeEncodeError.
(** [urllib.parse.urlencode]: [quote_plus] on both sides. *)
Fixpoint quote_plus (s : pystr) : res exn pystr :=
  match s with
  | [] => Ok []
  | c :: s =>
      let* h := if c =? 32 then Ok [43] else quote [c] in
      let* t := quote_plus s in Ok (h ++ t)
  end.
Fixpoint urlencode (params : list (pystr * pystr)) : res exn pystr :=
  match params with
  | [] => Ok []
  | (k, v) :: rest =>
      let* k := quote_plus k in
      let* v := quote_plus v in
      let* t := urlencode rest in
      Ok (k ++ [61] ++ v ++ match rest with [] => [] | _ => 38 :: t end)
  end.
Section authorize.
Context (canonicalize_resource : pystr -> option pystr) (accepted : list pystr) (cfg : Clients.mcp_config).
Definition authorization_payload (now : Z) (client_id : pystr) (params : authorization_params) : res authorize_error ConsentPayload :=
  match Resource_indicator.decide_resource canonicalize_resource (ap_resource params) accepted
          (Clients.oauth_require_resource_indicator cfg) with
  | None => Err AuthorizeIndexError
  | Some Resource_indicator.Rejected => Err AuthorizeError
  | Some (Resource_indicator.Bound r) =>
      Ok (MkConsent client_id (ap_redirect_uri params) (ap_redirect_uri_provided_explicitly params) (ap_code_challenge params)
            (default [] (ap_scopes params)) (ap_state params) (now + Clients.oauth_consent_state_ttl_s cfg) (Some r))
  end.
Definition authorize (now : Z) (client_id : pystr) (params : authorization_params) (key : bytes) (consent_path : pystr)
    : res authorize_error pystr :=
  let* payload := authorization_payload now client_id params in
  match urlencode [(lit "req", encode_consent_state payload key)] with
  | Ok q => Ok (consent_path ++ lit "?" ++ q)
  | Err _ => Err AuthorizeEncodeError
  end.
End authorize.

(** ** [consent_router.py] *)

(** A page, the form again, a redirect, or what escapes as a server error. *)
Inductive consent_response := ConsentPage (status : Z) | ConsentFormAgain (status : Z) | ConsentRedirect (location : pystr) | ConsentCrash.
Definition redirect_with (redirect_uri : pystr) (params : list (pystr * pystr)) : consent_response :=
  match urlencode params with
  | Ok q => ConsentRedirect (redirect_uri ++ (if contains 63 redirect_uri then lit "&" else lit "?") ++ q)
  | Err _ => ConsentCrash
  end.
(** [if payload.state]: an empty state is left out. *)
Definition state_param (p : ConsentPayload) : list (pystr * pystr) :=
  match given (cp_state p) with Some s => [(lit "state", s)] | None => [] end.
(** [get_consent]: the status of the page. *)
Definition get_consent (now : Z) (key : bytes) (req : pystr) : consent_response :=
  match decode_consent_state req key now with
  | Ok _ => ConsentFormAgain 200
  | Err StateInvalid | Err StateExpired => ConsentPage 400
  | Err _ => ConsentCrash
  end.
Definition on_auth (f : auth_db -> auth_db) (d : oauth_db) : oauth_db :=
  OAuthDb (f (od_auth d)) (od_clients d) (od_registration_attempts d).
(** [_authorize_and_mint]; the attempt is committed before the code is minted, and a
    client that is gone makes the insert fail. *)
Definition authorize_and_mint (acfg : auth_config) (cfg : Clients.mcp_config) (now : Z) (insert_fails : bool) (raw : pystr) (d : oauth_db)
    (p : ConsentPayload) (username password : pystr) (client_ip : option pystr) : oauth_db * consent_response :=
  match check_login_rate_limits acfg now (od_auth d) username client_ip with
  | Err _ => (d, ConsentPage 429)
  | Ok _ =>
      let record o := on_auth (fun a => record_login_attempt insert_fails now a username client_ip o) d in
      match find_key (named username) (api_users (od_auth d)) ≫= fun i => pair i <$> api_users (od_auth d) !! i with
      | None => (record LoginFailure, ConsentFormAgain 401)
      | Some (i, u) =>
          if verify_password password (u_password_hash u) then
            let d := record LoginSuccess in
            match Clients.get_client d (cp_client_id p) with
            | None => (d, ConsentCrash)                                     (* ForeignKeyViolation *)
            | Some _ =>
                (on_auth (fun a => mint_code now raw a (cp_client_id p) i (cp_redirect_uri p)
                            (cp_redirect_uri_provided_explicitly p) (cp_code_challenge p) (cp_scopes p)
                            (Clients.oauth_authorization_code_ttl_s cfg) (cp_resource p)) d,
                 redirect_with (cp_redirect_uri p) ((lit "code", raw) :: state_param p))
            end
          else (record LoginFailure, ConsentFormAgain 401)
      end
  end.
Definition post_consent (acfg : auth_config) (cfg : Clients.mcp_config) (now : Z) (insert_fails : bool) (raw : pystr) (key : bytes)
    (d : oauth_db) (form : list (pystr * pystr)) (client_ip : option pystr) : oauth_db * consent_response :=
  match parse_consent_form form with
  | Err _ => (d, ConsentPage 400)
  | Ok decision =>
      match decode_consent_state (cd_req decision) key now with
      | Err StateInvalid | Err StateExpired => (d, ConsentPage 400)
      | Err _ => (d, ConsentCrash)
      | Ok f =>
          match typed f with
          | None => (d, ConsentCrash)
          | Some p =>
              if negb (cd_allow decision) then (d, redirect_with (cp_redirect_uri p) ((lit "error", lit "access_denied") :: state_param p))
              else authorize_and_mint acfg cfg now insert_fails raw d p
                     (default [] (cd_username decision)) (default [] (cd_password decision)) client_ip
          end
      end
  end.
End consent.
End Consent.
