(* ===== verification/AdminWebFacts.v ===== *)
(** * Who is let into the admin pages *)
From S2P Require Import Prelude PyStr Base64 Errors Score Odict PySort Json Query Utf8 HeaderBlock Credentials Admin AdminAccounts JsonText JsonTextFacts Secrets SecretsFacts SessionFacts AdminWeb OAuthConsent.
Import Header_block Credential Auth Admin Json_text Tokens Admin_web.

(** ** The wire text *)

(** ASCII without NUL. *)
Definition wire (s : pystr) : Prop := Forall (fun c => 0 < c < 128) s.
Lemma wire_app a b : wire a -> wire b -> wire (a ++ b).
Proof. intros Ha Hb. by apply Forall_app. Qed.
Lemma hex_digit_wire n : 0 <= n < 16 -> 0 < Hex.digit n < 128.
Proof. intros Hn. unfold Hex.digit. case_ifs; zb_simpl; lia. Qed.
Lemma hex4_wire n : 0 <= n < 65536 -> wire (hex4 n).
Proof.
  intros Hn. unfold hex4, wire. repeat (apply list.Forall_cons; split; [apply hex_digit_wire; Z.div_mod_to_equations; lia |]). by apply list.Forall_nil.
Qed.
Lemma wire_escape c : code_point c -> wire (escape_char true c).
Proof.
  intros Hc. unfold code_point in Hc. unfold escape_char.
  assert (H2 : forall a b, 0 < a < 128 -> 0 < b < 128 -> wire [a; b]) by (intros; by repeat (apply list.Forall_cons; split)).
  assert (Hu : forall n, 0 <= n < 65536 -> wire (92 :: 117 :: hex4 n)) by (intros; apply (wire_app [92; 117]); [by apply H2 | by apply hex4_wire]).
  repeat match goal with |- wire (if ?b then _ else _) => destruct b eqn:?; [try (by apply H2) |] end.
  - apply Hu. zb.
  - cbn [orb negb] in *. apply list.Forall_singleton. zb.
  - apply Hu. zb.
  - cbn zeta. apply wire_app; apply Hu; zb_simpl; Z.div_mod_to_equations; lia.
Qed.
Lemma wire_str s : Forall code_point s -> wire (dumps_str true s).
Proof.
  intros Hs. unfold dumps_str. change (wire ([34] ++ flat_map (escape_char true) s ++ [34])).
  assert (wire [34]) by by apply list.Forall_singleton.
  apply wire_app; [done | apply wire_app; [| done]]. induction Hs as [| c s Hc _ IH]; [by apply list.Forall_nil |].
  cbn [flat_map]. apply wire_app; [by apply wire_escape | done].
Qed.
Lemma wire_int n : wire (str_int n).
Proof.
  assert (Hp : forall m, 0 <= m -> wire (str_int m)).
  { intros m Hm. apply Forall_forall. intros c Hc. pose proof (str_int_digit m c Hm Hc). lia. }
  destruct (Z.ltb_spec n 0); [| by apply Hp]. unfold str_int at 1. rewrite (proj2 (Z.ltb_lt n 0)) by done.
  specialize (Hp (- n) ltac:(lia)). unfold str_int in Hp. rewrite (proj2 (Z.ltb_ge (- n) 0)) in Hp by lia.
  apply list.Forall_cons. split; [done | exact Hp].
Qed.
Lemma plain_code_points s : plain s -> Forall code_point s.
Proof. intros Hs. eapply Forall_impl; [exact Hs |]. by intros c []. Qed.
Lemma wire_join sep l : wire sep -> Forall wire l -> wire (join sep l).
Proof.
  intros Hs. induction 1 as [| x l Hx Hl IH]; [by apply list.Forall_nil |]. destruct l as [| y l]; [done |].
  change (join sep (x :: y :: l)) with (x ++ sep ++ join sep (y :: l)). by repeat apply wire_app.
Qed.
Lemma wire_lit s : forallb (fun c => (0 <? c) && (c <? 128)) (lit s) = true -> wire (lit s).
Proof. intros Hs. apply Forall_forall. intros c Hc. apply (proj1 (forallb_forall _ _)) with (x := c) in Hs; [| by rewrite <- list_elem_of_In]. zb_simpl. lia. Qed.
Lemma wire_one c : 0 < c < 128 -> wire [c].
Proof. intros. by apply list.Forall_singleton. Qed.
Lemma wire_block level a b l : 0 < a < 128 -> 0 < b < 128 -> Forall wire l -> wire (block wire_layout level a b l).
Proof.
  intros Ha Hb. destruct 1 as [| x l Hx Hl]; cbn [block newline ly_indent wire_layout app].
  - by apply (wire_app [a] [b]); apply wire_one.
  - apply (wire_app [a]); [by apply wire_one |]. apply wire_app; [| by apply wire_one]. apply wire_join; [by apply wire_one | by constructor].
Qed.
Lemma wire_dumps_at j : json_ok j -> forall level, wire (dumps_at wire_layout level j).
Proof.
  induction j as [| [] | m | x | s | l IH | o IH] using json_ind'; cbn [json_ok dumps_at]; intros Hj level; try done.
  - by apply wire_lit.
  - by apply wire_lit.
  - by apply wire_lit.
  - apply wire_int.
  - by apply wire_str, plain_code_points.
  - apply foldr_and in Hj. apply wire_block; [done.. |]. apply Forall_forall. intros t (x & -> & Hx)%list_elem_of_fmap.
    by apply (proj1 (Forall_forall _ _) IH x Hx), (proj1 (Forall_forall _ _) Hj x Hx).
  - destruct Hj as [_ Hj%foldr_and]. apply wire_block; [done.. |]. apply Forall_forall. intros t ([k x] & -> & Hx)%list_elem_of_fmap.
    pose proof (proj1 (Forall_forall _ _) Hj _ Hx) as [Hk Hok]. apply wire_app; [by apply wire_str, plain_code_points |].
    apply wire_app; [by apply wire_one |]. by apply (proj1 (Forall_forall _ _) IH _ Hx).
Qed.
Lemma wire_dumps j : json_ok j -> wire (dumps wire_layout j).
Proof. intros Hj. by apply wire_dumps_at, sorted_keys_ok. Qed.
Lemma wire_bytes s : wire s -> Forall is_byte s.
Proof. intros Hs. eapply Forall_impl; [exact Hs |]. unfold is_byte. intros c ?. lia. Qed.

Section tokens.
Context `{Hmac} `{PyFloatText}.

(** base64url has neither a dot nor a bar, and is never empty here. *)
Lemma b64_char_range i : 0 <= i < 64 -> b64_char i <> 46 /\ b64_char i <> 124.
Proof. intros Hi. unfold b64_char. case_ifs; zb_simpl; lia. Qed.
Lemma b64url_no_dot bs c : Forall is_byte bs -> c ∈ b64url_encode bs -> c <> 46 /\ c <> 124.
Proof.
  intros Hb. rewrite b64url_encode_sextets by done. intros (i & -> & Hi)%list_elem_of_fmap.
  apply b64_char_range. pose proof (sextets_range bs Hb) as Hr. by apply (proj1 (Forall_forall _ _) Hr).
Qed.
Lemma b64url_nonempty bs : Forall is_byte bs -> bs <> [] -> b64url_encode bs <> [].
Proof. intros Hb Hn. rewrite b64url_encode_sextets by done. by destruct bs as [| a [| b [| c r]]]. Qed.

(** *** A signed body: the text of a JSON value in base64url *)

Lemma body_bytes j : json_ok j -> Forall is_byte (dumps wire_layout j).
Proof. intros Hj. by apply wire_bytes, wire_dumps. Qed.
Lemma body_ascii j : json_ok j -> isascii (encode_unsigned j) = true.
Proof. intros Hj. by apply b64url_encode_ascii, body_bytes. Qed.
Lemma body_chars j c : json_ok j -> c ∈ encode_unsigned j -> c <> 46 /\ c <> 124.
Proof. intros Hj. by apply b64url_no_dot, body_bytes. Qed.
Lemma body_nonempty j : json_ok j -> encode_unsigned j <> [].
Proof.
  intros Hj. apply b64url_nonempty; [by apply body_bytes |]. destruct (dumps_opens wire_layout 0 (sorted_keys j)) as (c & s & Hd & _).
  - by apply sorted_keys_ok.
  - unfold dumps. cbn [ly_sort wire_layout]. by rewrite Hd.
Qed.
Lemma body_loads j : json_ok j -> loads_b64 (encode_unsigned j) = Some (sorted_keys j).
Proof.
  intros Hj. unfold loads_b64, encode_unsigned. rewrite b64url_roundtrip by by apply body_bytes.
  rewrite json_text_ascii by by apply wire_dumps. rewrite loads_dumps; [done | by exists [], [] | done].
Qed.
Definition signature key (body : pystr) : pystr := b64url_encode (hmac_sha256 key body).
Lemma signature_no_dot key body : DOT ∉ signature key body.
Proof. intros Hd. apply b64url_no_dot in Hd as []; [done | apply hmac_is_bytes]. Qed.
Lemma body_no_dot j : json_ok j -> DOT ∉ encode_unsigned j.
Proof. intros Hj Hd. by apply body_chars in Hd as []. Qed.
Lemma signature_nonempty key m : signature key m <> [].
Proof. apply b64url_nonempty; [apply hmac_is_bytes |]. intros Hn. pose proof (hmac_length key m) as Hl. by rewrite Hn in Hl. Qed.
Definition cookie_body (cookie : pystr) : pystr := (partition_at DOT cookie).1.
Lemma cookie_body_signed j key : json_ok j -> cookie_body (encode_unsigned j ++ DOT :: signature key (encode_unsigned j)) = encode_unsigned j.
Proof. intros Hj. unfold cookie_body. by rewrite partition_at_app by by apply body_no_dot. Qed.
Lemma open_minted j key : json_ok j -> open_signed (encode_unsigned j ++ DOT :: signature key (encode_unsigned j)) key = Ok (sorted_keys j).
Proof.
  intros Hj. unfold open_signed. rewrite partition_at_app by by apply body_no_dot. rewrite body_ascii by done.
  unfold signature. rewrite b64url_encode_ascii, b64url_roundtrip by apply hmac_is_bytes.
  rewrite bool_decide_eq_true_2 by done. by rewrite body_loads.
Qed.
(** What is opened was signed. *)
Lemma opened_signed token key j : open_signed token key = Ok j ->
  exists body sig, token = body ++ DOT :: sig /\ b64url_decode sig = Some (hmac_sha256 key body) /\ loads_b64 body = Some j.
Proof.
  unfold open_signed. pose proof (partition_at_spec DOT token) as Hs. destruct (partition_at DOT token) as [body [sig |]]; [| done].
  destruct Hs as [-> _]. destruct (isascii body); [| done]. destruct (isascii sig); [| done].
  destruct (b64url_decode sig) as [bs |] eqn:Eb; [| done]. case_bool_decide as Hsig; [| done]. subst bs.
  destruct (loads_b64 body) eqn:El; [| done]. intros [= <-]. by exists body, sig.
Qed.
Lemma utf8_str_inj a b bs : Forall code_point a -> Forall code_point b -> utf8_str a = Ok bs -> utf8_str b = Ok bs -> a = b.
Proof.
  unfold utf8_str. intros Ha Hb. destruct (mapM _ a) as [bsa |] eqn:Ea; [| done]. destruct (mapM _ b) as [bsb |] eqn:Eb; [| done].
  intros [= Heq1] [= Heq2]. apply decode_raw_utf8 in Ea; [| done]. apply decode_raw_utf8 in Eb; [| done]. congruence.
Qed.

(** ** Sessions *)

(** The payload is encoded without loss. *)
Definition payload_ok (p : SessionPayload) : Prop := json_ok (payload_json p).
Definition session_body (p : SessionPayload) : pystr := encode_unsigned (payload_json p).
Lemma decode_session_body p now : payload_ok p ->
  decode_payload (session_body p) now = if sp_exp p <=? now then Err SessionTokenError else Ok p.
Proof.
  intros Hp. unfold decode_payload, session_body. rewrite body_loads by done.
  assert (sorted_keys (payload_json p) = JObj [(lit "exp", JInt (sp_exp p)); (lit "issued_at", JInt (sp_issued_at p));
    (lit "user_id", JInt (sp_user_id p)); (lit "v", JInt CURRENT_VERSION)]) as -> by reflexivity.
  destruct p as [u i e]. cbn [sp_user_id sp_issued_at sp_exp]. set (d := [_; _; _; _]).
  assert (Hv : equals_int CURRENT_VERSION (default JNull (od_get (lit "v") d)) = true) by reflexivity.
  assert (Hu : int_field (lit "user_id") d = Ok u) by reflexivity.
  assert (Hi : int_field (lit "issued_at") d = Ok i) by reflexivity.
  assert (He : int_field (lit "exp") d = Ok e) by reflexivity.
  rewrite Hv, Hu, Hi, He. cbn. by destruct (e <=? now).
Qed.
Lemma encode_session_ok p key token : payload_ok p -> encode_session_token p key = Ok token ->
  token = session_body p ++ DOT :: signature key (session_body p).
Proof.
  intros Hp. unfold encode_session_token. destruct (negb _); [| done]. unfold sign. rewrite body_ascii by done. by intros [= <-].
Qed.
(** A cookie reads back until it expires. *)
Lemma session_roundtrip p key now token : payload_ok p -> encode_session_token p key = Ok token ->
  decode_session_token token key now = if sp_exp p <=? now then Err SessionTokenError else Ok p.
Proof.
  intros Hp ->%encode_session_ok; [| done]. unfold decode_session_token, session_body.
  rewrite split_on_app, split_on_nosep by (apply signature_no_dot || by apply body_no_dot). cbn match.
  rewrite bool_decide_eq_false_2 by by apply body_nonempty. rewrite bool_decide_eq_false_2 by apply signature_nonempty.
  cbn [negb andb]. unfold sign, compare_digest, signature. rewrite body_ascii by done.
  rewrite b64url_encode_ascii by apply hmac_is_bytes. cbn [andb]. rewrite bool_decide_eq_true_2 by done. by apply decode_session_body.
Qed.

(** ** What is signed *)

Lemma str_int_chars n c : c ∈ str_int n -> c = 45 \/ 48 <= c <= 57.
Proof.
  destruct (Z.ltb_spec n 0); [| intros Hc; right; by apply (str_int_digit n)].
  unfold str_int. rewrite (proj2 (Z.ltb_lt n 0)) by done. intros [-> | Hc]%elem_of_cons; [by left | right].
  apply (str_int_digit (- n)); [lia |]. unfold str_int. by rewrite (proj2 (Z.ltb_ge (- n) 0)) by lia.
Qed.
Lemma str_int_inj a b : str_int a = str_int b -> a = b.
Proof.
  assert (Hp : forall n, 0 <= n -> str_int n = dec_digits (dec_fuel n) n [] /\ dec_value (str_int n) = n /\ (forall t, str_int n <> 45 :: t)).
  { intros n Hn. destruct (str_int_spec n Hn) as (_ & Hv & _). split_and!; [| done |].
    - unfold str_int. by rewrite (proj2 (Z.ltb_ge n 0)) by done.
    - intros t Ht. assert (48 <= 45 <= 57); [| lia]. apply (str_int_digit n); [done |]. rewrite Ht. by left. }
  assert (Hm : forall n, n < 0 -> str_int n = 45 :: str_int (- n)).
  { intros n Hn. destruct (Hp (- n)) as (-> & _); [lia |]. unfold str_int. by rewrite (proj2 (Z.ltb_lt n 0)) by done. }
  intros Heq. destruct (Z.ltb_spec a 0) as [Ha | Ha], (Z.ltb_spec b 0) as [Hb | Hb].
  - rewrite (Hm a), (Hm b) in Heq by done. injection Heq as Heq. destruct (Hp (- a)) as (_ & Hva & _); [lia |].
    destruct (Hp (- b)) as (_ & Hvb & _); [lia |]. rewrite Heq in Hva. lia.
  - rewrite (Hm a) in Heq by done. destruct (Hp b Hb) as (_ & _ & Hno). by destruct (Hno (str_int (- a))).
  - rewrite (Hm b) in Heq by done. destruct (Hp a Ha) as (_ & _ & Hno). by destruct (Hno (str_int (- b))).
  - destruct (Hp a Ha) as (_ & Hva & _), (Hp b Hb) as (_ & Hvb & _). congruence.
Qed.
Definition bind_text (user_id : Z) (action : pystr) : pystr := BIND_PREFIX ++ str_int user_id ++ lit "|a=" ++ action.
Lemma bind_text_inj u a v b : bind_text u a = bind_text v b -> u = v /\ a = b.
Proof.
  unfold bind_text. intros Heq%app_inv_head.
  assert (Hn : forall n, 124 ∉ str_int n) by (intros n [| ?]%str_int_chars; lia).
  change (lit "|a=" ++ a) with (124 :: lit "a=" ++ a) in Heq. change (lit "|a=" ++ b) with (124 :: lit "a=" ++ b) in Heq.
  apply (f_equal (partition_at 124)) in Heq. rewrite !partition_at_app in Heq by apply Hn.
  injection Heq as Hs Ha. by apply str_int_inj in Hs.
Qed.
Lemma ascii_plain s : wire s -> plain s.
Proof. intros Hs. eapply Forall_impl; [exact Hs |]. intros c Hc. cbn beta in Hc. unfold code_point, Query.is_surrogate. split; [lia |]. apply andb_false_iff. left. apply Z.leb_gt. lia. Qed.
Lemma plain_lit (s : string) : forallb (fun c => (0 <? c) && (c <? 128)) (lit s) = true -> plain (lit s).
Proof. intros. by apply ascii_plain, wire_lit. Qed.
Lemma bind_text_ok u a : Forall code_point a -> Forall code_point (bind_text u a).
Proof.
  intros Ha. assert (Hw : forall s, wire s -> Forall code_point s) by (intros s Hs; by apply plain_code_points, ascii_plain).
  unfold bind_text. repeat apply Forall_app_2; [by apply Hw, wire_lit | apply Hw, wire_int | by apply Hw, wire_lit | done].
Qed.
Lemma bind_string_inj u a v b bound : Forall code_point a -> Forall code_point b ->
  bind_string u a = Ok bound -> bind_string v b = Ok bound -> u = v /\ a = b.
Proof. intros Ha Hb Hu Hv. apply bind_text_inj. eapply utf8_str_inj; [by apply bind_text_ok .. | exact Hu | exact Hv]. Qed.

(** ** Consent states *)

Definition state_ok (p : StatePayload) : Prop := json_ok (state_json p).
Definition state_body (p : StatePayload) : pystr := encode_unsigned (state_json p).
Lemma state_reads p : state_of_json (sorted_keys (state_json p)) =
  Some (JInt (st_user_id p), JInt (st_account_id p), JStr (st_nonce p), JInt (st_exp p)).
Proof. reflexivity. Qed.
Lemma decode_state_minted p key now : state_ok p ->
  decode_state (encode_state p key) key now =
  if st_exp p <? now then Err StateExpired
  else Ok (JInt (st_user_id p), JInt (st_account_id p), JStr (st_nonce p), JInt (st_exp p)).
Proof.
  intros Hp. unfold decode_state, encode_state. fold (signature key (encode_unsigned (state_json p))).
  rewrite open_minted by done. cbn -[state_of_json sorted_keys]. rewrite state_reads. cbn. by destruct (st_exp p <? now).
Qed.
Definition consent_body (p : Consent.ConsentPayload) : pystr := encode_unsigned (Consent.consent_json p).

Lemma consent_cookie p k : json_ok (Consent.consent_json p) -> cookie_body (Consent.encode_consent_state p k) = consent_body p.
Proof. apply cookie_body_signed. Qed.

(** No message signed for one purpose is accepted for another. *)
Lemma session_needs_version j now : match sorted_keys j with JObj d => od_get (lit "v") d = None | _ => False end -> json_ok j ->
  decode_payload (encode_unsigned j) now = Err SessionTokenError.
Proof. intros Hv Hj. unfold decode_payload. rewrite body_loads by done. destruct (sorted_keys j); try done. by rewrite Hv. Qed.
Lemma bind_opens u a bound : bind_string u a = Ok bound -> exists rest, bound = BIND_PREFIX ++ rest.
Proof.
  unfold bind_string, utf8_str. intros Hb. destruct (mapM _ _) as [bss |] eqn:E; [| done]. injection Hb as <-.
  apply mapM_Some in E. change BIND_PREFIX with [118; 61; 49; 124; 117; 61] in *. cbn [app] in E.
  do 6 (inversion E as [| ? ? ? ? Hx E']; subst; clear E; rename E' into E; injection Hx as <-).
  eexists. reflexivity.
Qed.
Lemma bound_loads u a bound : bind_string u a = Ok bound -> loads_b64 bound = None.
Proof.
  intros [rest ->]%bind_opens. unfold loads_b64.
  assert (b64url_decode (BIND_PREFIX ++ rest) = Some [191; 91]) as -> by reflexivity. by rewrite json_text_stray.
Qed.
Lemma bind_no_body u a bound j : bind_string u a = Ok bound -> json_ok j -> bound <> encode_unsigned j.
Proof.
  intros [rest ->]%bind_opens Hj Heq. assert (124 ∈ encode_unsigned j) as Hc; [| by apply body_chars in Hc as []].
  rewrite <- Heq. apply elem_of_app. left. by apply (bool_decide_unpack _).
Qed.
End tokens.

(** ** What was handed out *)

Record login := Login { lg_user : Z; lg_at : Z; lg_db : admin_db; lg_username : pystr; lg_password : pystr }.
Record consent := Consented { cn_state : StatePayload; cn_at : Z; cn_accounts : accounts; cn_configured : bool }.
(** A request of an MCP client that [authorize] accepted. *)
Record asked := Asked { ak_payload : Consent.ConsentPayload; ak_at : Z; ak_cfg : Clients.mcp_config }.
(** The tables; the keys and messages whose signatures were handed out; and the
    logins, forms, mailbox consents and authorization requests they were for. *)
Record web := Web {
  wb_db : admin_db; wb_minted : list (bytes * bytes);
  wb_logins : list login; wb_forms : list (Z * pystr); wb_consents : list consent; wb_asked : list asked }.

Section web.
Context `{Crypto} `{Hmac} `{PyFloatText} (key state_key : bytes).   (* of sessions and forms; of states *)
Definition login_payload (lg : login) : SessionPayload := MkPayload (lg_user lg) (lg_at lg) (lg_at lg + SESSION_TTL_SECONDS).
Definition asked_ok (k : asked) : Prop :=
  json_ok (Consent.consent_json (ak_payload k)) /\
  exists canonicalize accepted client params,
    Consent.authorization_payload canonicalize accepted (ak_cfg k) (ak_at k) client params = Ok (ak_payload k).
(** A login that succeeds, a page that mints a CSRF token, the start of a mailbox
    consent, the authorization request of an MCP client, and anything else that
    happens to the tables. *)
Inductive web_step (w : web) : web -> Prop :=
  | Web_login cfg now insert_fails username password csrf_token ip d cookie i name d0 :
      post_login cfg now insert_fails key (wb_db w) username password csrf_token ip = (d, LoginOk cookie) ->
      run_txn (authenticate_admin username password) (wb_db w) = Ok (d0, (i, name)) ->
      payload_ok (MkPayload i now (now + SESSION_TTL_SECONDS)) ->
      web_step w (Web d ((key, cookie_body cookie) :: wb_minted w) (Login i now (wb_db w) username password :: wb_logins w)
        (wb_forms w) (wb_consents w) (wb_asked w))
  | Web_form user_id action token bound :
      make_csrf_token user_id action key = Ok token -> bind_string user_id action = Ok bound -> Forall code_point action ->
      web_step w (Web (wb_db w) ((key, bound) :: wb_minted w) (wb_logins w) ((user_id, action) :: wb_forms w) (wb_consents w) (wb_asked w))
  | Web_consent now t account_id admin_user_id nonce configured state :
      start_oauth now t account_id admin_user_id nonce state_key configured = Ok state ->
      state_ok (MkState admin_user_id account_id nonce (now + STATE_TTL_SECONDS)) ->
      web_step w (Web (wb_db w) ((state_key, cookie_body state) :: wb_minted w) (wb_logins w) (wb_forms w)
        (Consented (MkState admin_user_id account_id nonce (now + STATE_TTL_SECONDS)) now t configured :: wb_consents w) (wb_asked w))
  | Web_authorize k :
      asked_ok k ->
      web_step w (Web (wb_db w) ((state_key, cookie_body (Consent.encode_consent_state (ak_payload k) state_key)) :: wb_minted w)
        (wb_logins w) (wb_forms w) (wb_consents w) (k :: wb_asked w))
  | Web_other d : web_step w (Web d (wb_minted w) (wb_logins w) (wb_forms w) (wb_consents w) (wb_asked w)).
Definition web_starts (d : admin_db) : web := Web d [] [] [] [] [].

(** A login of the history had the password of an admin. *)
Definition login_ok (lg : login) : Prop :=
  payload_ok (login_payload lg) /\
  exists d name, run_txn (authenticate_admin (lg_username lg) (lg_password lg)) (lg_db lg) = Ok (d, (lg_user lg, name)).
(** A consent was started by the admin it names, for a Gmail account. *)
Definition consent_ok (c : consent) : Prop :=
  let p := cn_state c in
  state_ok p /\ st_exp p = cn_at c + STATE_TTL_SECONDS /\
  exists state, start_oauth (cn_at c) (cn_accounts c) (st_account_id p) (st_user_id p) (st_nonce p) state_key (cn_configured c) = Ok state.
(** What a signed message is: never of two kinds at once. *)
Inductive minted_ok (w : web) : bytes -> Prop :=
  | Minted_login lg : lg ∈ wb_logins w -> login_ok lg -> minted_ok w (session_body (login_payload lg))
  | Minted_form u a m : (u, a) ∈ wb_forms w -> bind_string u a = Ok m -> Forall code_point a -> minted_ok w m
  | Minted_consent c : c ∈ wb_consents w -> consent_ok c -> minted_ok w (state_body (cn_state c))
  | Minted_asked k : k ∈ wb_asked w -> asked_ok k -> minted_ok w (consent_body (ak_payload k)).
Definition web_ok (w : web) : Prop := Forall (fun e => minted_ok w e.2) (wb_minted w).

Lemma post_login_cookie cfg now f d0 username password csrf ip d cookie d1 i name :
  run_txn (authenticate_admin username password) d0 = Ok (d1, (i, name)) ->
  post_login cfg now f key d0 username password csrf ip = (d, LoginOk cookie) ->
  encode_session_token (MkPayload i now (now + SESSION_TTL_SECONDS)) key = Ok cookie.
Proof.
  intros Ha. unfold post_login, signing_key. case_bool_decide; [done |]. destruct (verify_csrf_token _ _ _ _) as [[] | []]; try done.
  destruct (check_login_rate_limits _ _ _ _ _); [| done]. rewrite Ha. by destruct (encode_session_token _ _) eqn:E; intros [= _ <-].
Qed.
Lemma encoded_body p cookie : payload_ok p -> encode_session_token p key = Ok cookie -> cookie_body cookie = session_body p.
Proof. intros Hp ->%encode_session_ok; [| done]. by apply cookie_body_signed. Qed.
Lemma started_body now t a u n conf state : state_ok (MkState u a n (now + STATE_TTL_SECONDS)) ->
  start_oauth now t a u n state_key conf = Ok state -> cookie_body state = state_body (MkState u a n (now + STATE_TTL_SECONDS)).
Proof.
  intros Hp. unfold start_oauth. destruct (Admin_accounts.get_account t a); [| done]. destruct (_ && _); [| done]. destruct conf; [| done].
  intros [= <-]. by apply cookie_body_signed.
Qed.
Lemma minted_grows w w' m : wb_logins w ⊆ wb_logins w' -> wb_forms w ⊆ wb_forms w' -> wb_consents w ⊆ wb_consents w' ->
  wb_asked w ⊆ wb_asked w' -> minted_ok w m -> minted_ok w' m.
Proof.
  intros Hl Hf Hc Ha [lg ? ? | u a m0 ? ? ? | c ? ? | k ? ?].
  - by apply Minted_login; [apply Hl |].
  - by apply (Minted_form _ u a); [apply Hf | ..].
  - by apply Minted_consent; [apply Hc |].
  - by apply Minted_asked; [apply Ha |].
Qed.
Lemma web_step_ok w w' : web_step w w' -> web_ok w -> web_ok w'.
Proof.
  intros Hs Hm. assert (Hgrow : wb_logins w ⊆ wb_logins w' -> wb_forms w ⊆ wb_forms w' -> wb_consents w ⊆ wb_consents w' ->
    wb_asked w ⊆ wb_asked w' -> Forall (fun e => minted_ok w' e.2) (wb_minted w)).
  { intros. eapply Forall_impl; [exact Hm |]. intros e. by apply minted_grows. }
  destruct Hs as [cfg now f username password csrf ip d cookie i name d0 Hpost Hauth Hp | u a token bound Ht Hb Ha
    | now t a u n conf state Hst Hp | k Hk | d]; unfold web_ok; cbn [wb_minted wb_logins wb_forms wb_consents wb_asked] in *;
    try (apply list.Forall_cons; split; [cbn [snd] | apply Hgrow; set_solver]).
  - rewrite (encoded_body _ _ Hp) by by eapply post_login_cookie.
    apply (Minted_login _ (Login i now (wb_db w) username password)); [by left | split; [done | by exists d0, name]].
  - apply (Minted_form _ u a); [by left | done | done].
  - rewrite (started_body now t a u n conf) by done.
    apply (Minted_consent _ (Consented (MkState u a n (now + STATE_TTL_SECONDS)) now t conf)); [by left | split_and!; [done | done | by eexists]].
  - rewrite consent_cookie by apply Hk. apply Minted_asked; [by left | done].
  - by apply Hgrow.
Qed.
Lemma web_reachable_ok d w : rtc web_step (web_starts d) w -> web_ok w.
Proof. intros Hr. assert (web_ok (web_starts d)) as Hi by by apply list.Forall_nil. induction Hr as [| w0 w1 w2 Hs _ IH]; [done |]. by apply IH, (web_step_ok w0). Qed.
Lemma minted_of w k m : web_ok w -> (k, m) ∈ wb_minted w -> minted_ok w m.
Proof. intros Hw Hin. by apply (proj1 (Forall_forall _ _) Hw _ Hin). Qed.

(** The client can show no signature it was not handed. *)
Definition unforged (w : web) (rq : request) : Prop :=
  (forall body, rq_cookie rq = Some (body ++ DOT :: b64url_encode (hmac_sha256 key body)) -> (key, body) ∈ wb_minted w) /\
  (forall m, rq_csrf_token rq = b64url_encode (hmac_sha256 key m) -> (key, m) ∈ wb_minted w).
Lemma split_two c s a b : split_on c s = [a; b] -> s = a ++ c :: b.
Proof.
  pose proof (partition_at_spec c s) as Hs. destruct (partition_at c s) as [x [y |]].
  - destruct Hs as [-> Hx]. rewrite split_on_app by done. intros [= -> Hy]. f_equal. f_equal.
    pose proof (partition_at_spec c y) as Hs. destruct (partition_at c y) as [z [t |]].
    + destruct Hs as [-> Hz]. rewrite split_on_app in Hy by done. destruct t as [| e t]; [done |]. cbn in Hy. by repeat case_match.
    + destruct Hs as [-> Hz]. rewrite split_on_nosep in Hy by done. by injection Hy.
  - destruct Hs as [-> Hx]. rewrite split_on_nosep by done. done.
Qed.
(** A cookie that is accepted carries the signature of its body. *)
Lemma accepted_cookie token now p : decode_session_token token key now = Ok p ->
  exists body, token = body ++ DOT :: b64url_encode (hmac_sha256 key body) /\ decode_payload body now = Ok p.
Proof.
  unfold decode_session_token. destruct (split_on DOT token) as [| body [| sig [| ? ?]]] eqn:E; try done. apply split_two in E as ->.
  destruct (negb _ && negb _); [| done]. unfold sign, compare_digest. destruct (isascii body); [| done]. cbn.
  destruct (_ && _); [| done]. cbn. case_bool_decide as Hs; [| done]. intros Hp. exists body. by rewrite Hs.
Qed.
Lemma accepted_csrf token u action : verify_csrf_token token u action key = Ok () ->
  exists bound, bind_string u action = Ok bound /\ token = b64url_encode (hmac_sha256 key bound).
Proof.
  unfold verify_csrf_token, make_csrf_token, compare_digest. destruct (_ && _); [| done]. destruct (negb _); [| done].
  destruct (bind_string u action) as [bound |]; [| done]. cbn. destruct (_ && _); [| done]. cbn. case_bool_decide as Hs; [| done].
  intros _. by exists bound.
Qed.
(** The admin a cookie's payload names, as the tables stand. *)
Definition active_admin (d : admin_db) (i issued_at : Z) : Prop :=
  exists u, users d !! i = Some u /\ u_is_admin u = true /\ u_disabled_at u = None /\
    match u_sessions_invalidated_at u with None => True | Some c => c <= issued_at end.
Lemma get_admin_active d i t d' j name : run_txn (get_admin_user i (Some t)) d = Ok (d', (j, name)) -> j = i /\ active_admin d i t.
Proof.
  unfold get_admin_user. cbn. destruct (users d !! i) as [u |] eqn:E; [| done]. destruct (u_disabled_at u) eqn:Ed; [done |].
  destruct (u_is_admin u) eqn:Ea; [| done]. cbn [negb]. unfold Sql.lt, Sql.cmp. destruct (u_sessions_invalidated_at u) as [c |] eqn:Es; cbn.
  - destruct (Z.ltb_spec t c); [done |]. intros [= _ <- _]. split; [done |]. exists u. by rewrite Es.
  - intros [= _ <- _]. split; [done |]. exists u. by rewrite Es.
Qed.
Lemma admin_cookie_ok now d rq admin : admin_from_cookie now key d rq = Ok admin ->
  exists token p, rq_cookie rq = Some token /\ decode_session_token token key now = Ok p /\
    aw_id admin = sp_user_id p /\ active_admin d (sp_user_id p) (sp_issued_at p).
Proof.
  unfold admin_from_cookie, signing_key. destruct (rq_cookie rq) as [[| c token] |]; [done | | done]. case_bool_decide; [done |].
  destruct (decode_session_token (c :: token) key now) as [p | []] eqn:E; try done.
  destruct (run_txn _ d) as [[d' [i name]] | []] eqn:Er; try done. intros [= <-]. apply get_admin_active in Er as [-> Ha].
  by exists (c :: token), p.
Qed.

(** A body that reads as a session was handed out by a login. *)
Lemma minted_session w m now p : minted_ok w m -> decode_payload m now = Ok p ->
  exists lg, lg ∈ wb_logins w /\ login_ok lg /\ p = login_payload lg /\ now < lg_at lg + SESSION_TTL_SECONDS.
Proof.
  intros [lg Hin Hok | u a m0 _ Hb _ | c _ Hok | k _ Hok] Hd.
  - exists lg. rewrite decode_session_body in Hd by apply Hok.
    destruct (_ <=? now) eqn:E; [done |]. injection Hd as <-. apply Z.leb_gt in E. done.
  - unfold decode_payload in Hd. by rewrite (bound_loads _ _ _ Hb) in Hd.
  - unfold state_body in Hd. by rewrite session_needs_version in Hd by (reflexivity || by apply Hok).
  - unfold consent_body in Hd. by rewrite session_needs_version in Hd by (reflexivity || by apply Hok).
Qed.
(** A bound message was handed out for that user and action. *)
Lemma minted_form w u a bound : minted_ok w bound -> Forall code_point a -> bind_string u a = Ok bound -> (u, a) ∈ wb_forms w.
Proof.
  intros [lg _ Hok | v b m Hf Hb' Hb2 | c _ Hok | k _ Hok] Ha Hb.
  - by destruct (bind_no_body _ _ _ (payload_json (login_payload lg)) Hb (proj1 Hok)).
  - by destruct (bind_string_inj _ _ _ _ _ Ha Hb2 Hb Hb') as [-> ->].
  - by destruct (bind_no_body _ _ _ (state_json (cn_state c)) Hb (proj1 Hok)).
  - by destruct (bind_no_body _ _ _ (Consent.consent_json (ak_payload k)) Hb (proj1 Hok)).
Qed.

(** C29: a changing admin request that is let through either carries the live token of
    an admin that is no API key, on a route of the JSON API, or the cookie of a login
    by that admin less than eight hours old, the admin being active still and not
    logged out everywhere since, with a form token handed out to that admin for that
    method and path; the routes of the HTML panels ([panel]) take the cookie only.
    Forms, mailbox consents and client authorizations are signed too, with the same
    key or another, and none passes for a cookie. *)
Theorem admin_requests_are_authorised upper panel d0 w now rq action admin :
  rtc web_step (web_starts d0) w -> unforged w rq -> Forall code_point (csrf_action upper (rq_method rq) action) ->
  (guarded upper panel now key (wb_db w) rq action).2 = Ok admin ->
  if negb panel && startswith (rq_authorization rq) BEARER then
    exists u, (verify_token now (ad_auth (wb_db w)) (drop (length BEARER) (rq_authorization rq))).2 = Some u /\
      au_id u = aw_id admin /\ au_is_admin u = true /\ au_is_api_key u = false
  else
    exists lg, lg ∈ wb_logins w /\ lg_user lg = aw_id admin /\ now < lg_at lg + SESSION_TTL_SECONDS /\ login_ok lg /\
      active_admin (wb_db w) (aw_id admin) (lg_at lg) /\ (aw_id admin, csrf_action upper (rq_method rq) action) ∈ wb_forms w.
Proof.
  intros Hr [Hck Hcs] Hact Hg. pose proof (web_reachable_ok d0 w Hr) as Hw. unfold guarded in Hg.
  assert (Hp : (if panel then (wb_db w, require_admin_session now key (wb_db w) rq) else require_admin now key (wb_db w) rq) =
    if negb panel && startswith (rq_authorization rq) BEARER then require_admin now key (wb_db w) rq else (wb_db w, require_admin_session now key (wb_db w) rq)).
  { destruct panel; [done |]. unfold require_admin. by destruct (startswith (rq_authorization rq) BEARER). }
  rewrite Hp in Hg. clear Hp. destruct (negb panel && _) eqn:Eb.
  - apply andb_true_iff in Eb as [_ Eb]. unfold require_admin in Hg. rewrite Eb in Hg.
    destruct (verify_token _ _ _) as [a [u |]] eqn:E; [| done]. exists u. cbn in Hg.
    destruct (au_is_api_key u) eqn:Ek; [done |]. destruct (au_is_admin u) eqn:Ea; [| done]. by injection Hg as <-.
  - clear Eb. cbn -[check_csrf] in Hg. unfold require_admin_session in Hg. destruct (admin_from_cookie now key (wb_db w) rq) as [adm |] eqn:Ec; [| done]. cbn -[check_csrf] in Hg.
    destruct (check_csrf upper Cookie key rq adm action) as [[] |] eqn:Ef; [| done]. injection Hg as <-.
    apply admin_cookie_ok in Ec as (token & p & Hq & Hd & Hid & Hact'). apply accepted_cookie in Hd as (body & -> & Hd).
    destruct (minted_session _ _ _ _ (minted_of _ _ _ Hw (Hck body Hq)) Hd) as (lg & Hlg & Hok & -> & Hnow). cbn in Hid, Hact'.
    exists lg. rewrite Hid. split_and!; try done. rewrite <- Hid.
    unfold check_csrf, signing_key in Ef. destruct (negb _); [| done]. case_bool_decide; [done |].
    destruct (verify_csrf_token _ _ _ _) as [[] | []] eqn:Ev; try done. apply accepted_csrf in Ev as (bound & Hbs & Ht).
    by apply (minted_form _ _ _ bound (minted_of _ _ _ Hw (Hcs bound Ht))).
Qed.

(** ** The consent of a mailbox *)

Definition state_unforged (w : web) (state : pystr) : Prop :=
  forall body sig, state = body ++ DOT :: sig -> b64url_decode sig = Some (hmac_sha256 state_key body) -> (state_key, body) ∈ wb_minted w.
(** What a token that opens was handed out as. *)
Lemma opened_minted w token j : web_ok w -> state_unforged w token -> open_signed token state_key = Ok j ->
  exists m sig, token = m ++ DOT :: sig /\ minted_ok w m /\ loads_b64 m = Some j.
Proof.
  intros Hw Hun (body & sig & -> & Hsig & Hl)%opened_signed. exists body, sig. split_and!; [done | | done]. by eapply minted_of, Hun.
Qed.
Lemma minted_state w m j f : minted_ok w m -> loads_b64 m = Some j -> state_of_json j = Some f ->
  exists c, c ∈ wb_consents w /\ consent_ok c /\
    f = (JInt (st_user_id (cn_state c)), JInt (st_account_id (cn_state c)), JStr (st_nonce (cn_state c)), JInt (st_exp (cn_state c))).
Proof.
  intros [lg _ Hok | u a m0 _ Hb _ | c Hin Hok | k _ Hok] Hj Hf.
  - unfold session_body in Hj. rewrite body_loads in Hj by apply Hok. apply (inj Some) in Hj; subst j. done.
  - by rewrite (bound_loads _ _ _ Hb) in Hj.
  - unfold state_body in Hj. rewrite body_loads in Hj by apply Hok. apply (inj Some) in Hj; subst j. rewrite state_reads in Hf. injection Hf as <-. by exists c.
  - unfold consent_body in Hj. rewrite body_loads in Hj by apply Hok. apply (inj Some) in Hj; subst j. done.
Qed.
Lemma accepted_state state now f : decode_state state state_key now = Ok f ->
  exists j, open_signed state state_key = Ok j /\ state_of_json j = Some f /\ json_before f.2 now = Ok false.
Proof.
  unfold decode_state. destruct (open_signed state state_key) as [j |]; [| done]. cbn -[state_of_json].
  destruct (state_of_json j) as [[[[u a] n] x] |] eqn:El; [| done].
  destruct (json_before x now) as [[] |] eqn:Ej; [done | | done]. cbn. intros [= <-]. by exists j.
Qed.
(** What a completion that succeeds has done. *)
Lemma complete_ok now t state admin conf fetch e dir t' dir' id :
  complete_oauth now t state admin state_key conf fetch e dir = (t', dir', Ok id) ->
  exists u n x r, decode_state state state_key now = Ok (u, JInt id, n, x) /\ equals_int admin u = true /\ t !! id = Some r /\
    t' = <[id := Admin_accounts.set_fields Admin_accounts.no_fields now r]> t /\
    match fetch with
    | Some (Some token) => Secrets.change_secret e (a_name r) RefreshToken (Some token) dir = (dir', Some (Ok ()))
    | Some None => Secrets.set_null e (Secrets.username (a_name r) RefreshToken) dir = (dir', Some (Ok ()))
    | None => False
    end.
Proof.
  unfold complete_oauth. destruct (decode_state state state_key now) as [[[[u a] n] x] |] eqn:Ed; [| done].
  destruct (equals_int admin u) eqn:Eu; [| done]. destruct a as [| | i | | | |]; try done. cbn [negb].
  unfold Admin_accounts.touch_account_updated_at, Admin_accounts.get_account. destruct (t !! i) as [r |] eqn:Er; [| done].
  destruct conf; [| done]. destruct fetch as [[token |] |]; [| | done]; cbn [negb].
  - destruct (Secrets.change_secret _ _ _ _ _) as [dir1 [[[] |] |]] eqn:Ec; try done. intros [= <- <- <-]. by exists u, n, x, r.
  - destruct (Secrets.set_null _ _ _) as [dir1 [[[] |] |]] eqn:Ec; try done. intros [= <- <- <-]. by exists u, n, x, r.
Qed.

(** C30: a completed consent was started by the same admin, for the same account, at
    most fifteen minutes before, when that account was a Gmail OAuth account; no
    session cookie or form token passes for its state; and the account's row is
    touched and no other changed.  When Google returned a refresh token it is stored
    as that account's and every other secret is kept.  When it returned none, the
    consent completes all the same, and from then on no secret of any account can be
    read. *)
Theorem consents_are_bound d0 w now t state admin conf fetch e dir t' dir' id :
  rtc web_step (web_starts d0) w -> state_unforged w state ->
  complete_oauth now t state admin state_key conf fetch e dir = (t', dir', Ok id) ->
  (exists c r0, c ∈ wb_consents w /\ st_user_id (cn_state c) = admin /\ st_account_id (cn_state c) = id /\
     now <= cn_at c + 900 /\ cn_accounts c !! id = Some r0 /\ a_auth_method r0 = lit "oauth2" /\ a_oauth_provider r0 = Some (lit "gmail")) /\
  exists r, t !! id = Some r /\ t' = <[id := Admin_accounts.set_fields Admin_accounts.no_fields now r]> t /\
    forall A, represents dir A -> account_name (a_name r) ->
      match fetch with
      | Some (Some token) => text_ok (a_name r) -> text_ok token -> represents dir' (<[(a_name r, RefreshToken) := token]> A)
      | Some None => plain (a_name r) -> forall name k, Secrets.get_secret name k dir' = Err SecretsFileCorrupt
      | None => False
      end.
Proof.
  intros Hr Hun Hc. pose proof (web_reachable_ok d0 w Hr) as Hw.
  apply complete_ok in Hc as (u & n & x & r & Hd & Hu & Ht & -> & Hset).
  apply accepted_state in Hd as (j & Hj & Hf & Hx). destruct (opened_minted _ _ _ Hw Hun Hj) as (m & _ & _ & Hm & Hl).
  destruct (minted_state _ _ _ _ Hm Hl Hf) as (c & Hin & (Hok & Hexp & st & Hst) & [= -> -> _ ->]).
  split.
  - unfold start_oauth, Admin_accounts.get_account in Hst. destruct (cn_accounts c !! _) as [r0 |] eqn:E0; [| done].
    destruct (_ && _) eqn:Eg; [| done]. apply andb_true_iff in Eg as [Eg1%bool_decide_eq_true_1 Eg2%bool_decide_eq_true_1]. cbn [snd json_before] in Hx. injection Hx as Hx.
    exists c, r0. apply Z.ltb_ge in Hx. cbn [equals_int] in Hu. unfold STATE_TTL_SECONDS in Hexp. zb_simpl. split_and!; try done; lia.
  - exists r. split_and!; [done | done |]. intros A HA Hn. destruct fetch as [[token |] |]; [| | done].
    2: { intros Hpl. by eapply set_null_corrupts. }
    intros Htn Htk. pose proof (change_secret_step e (a_name r) RefreshToken (Some token) dir A HA Hn Htn Htk) as Hs. rewrite Hset in Hs. by apply Hs.
Qed.
End web.

(** ** Characters outside ASCII *)

(** [hmac.compare_digest] and [encode("ascii")] raise what no guard catches: a cookie
    or a form token with such a character is a server error, not a refusal. *)
Lemma non_ascii_cookie_crashes `{Crypto} `{Hmac} `{PyFloatText} now key d rq body sig :
  key <> [] -> rq_cookie rq = Some (body ++ DOT :: sig) -> DOT ∉ body -> DOT ∉ sig -> body <> [] -> sig <> [] ->
  isascii body = false -> admin_from_cookie now key d rq = Err (ServerError WebUnicodeEncodeError).
Proof.
  intros Hk Hq Hb Hs Hb0 Hs0 Ha. unfold admin_from_cookie, signing_key. rewrite Hq.
  assert (Hd : decode_session_token (body ++ DOT :: sig) key now = Err WebUnicodeEncodeError).
  { unfold decode_session_token. rewrite split_on_app, split_on_nosep by done.
    rewrite !bool_decide_eq_false_2 by done. unfold sign. by rewrite Ha. }
  destruct (body ++ DOT :: sig) eqn:E; [by destruct body |]. rewrite bool_decide_eq_false_2 by done. cbn match. cbn -[decode_session_token].
  by rewrite Hd.
Qed.
Lemma non_ascii_form_token_crashes `{Crypto} `{Hmac} upper key rq admin action bound : (KEY_MIN <= length key)%nat ->
  bind_string (aw_id admin) (csrf_action upper (rq_method rq) action) = Ok bound ->
  rq_csrf_token rq <> [] -> contains DOT (rq_csrf_token rq) = false -> isascii (rq_csrf_token rq) = false ->
  check_csrf upper Cookie key rq admin action = Err (ServerError WebTypeError).
Proof.
  intros Hk Hb Hn Hd Ha. unfold check_csrf, signing_key. rewrite bool_decide_eq_false_2 by done.
  rewrite bool_decide_eq_false_2 by (intros ->; unfold KEY_MIN in Hk; cbn in Hk; lia). cbn -[verify_csrf_token].
  assert (verify_csrf_token (rq_csrf_token rq) (aw_id admin) (csrf_action upper (rq_method rq) action) key = Err WebTypeError) as ->; [| done].
  unfold verify_csrf_token, make_csrf_token, compare_digest. rewrite bool_decide_eq_false_2, Hd by done.
  rewrite (proj2 (Nat.ltb_ge _ _) Hk), Hb. cbn -[isascii]. by rewrite Ha, andb_false_r.
Qed.

(** A token with one dot is cut in one way. *)
Lemma one_dot a b s s' : DOT ∉ b -> DOT ∉ s' -> a ++ DOT :: s = b ++ DOT :: s' -> a = b /\ s = s'.
Proof.
  intros Hb Hs (l & [[-> Heq] | [-> Heq]])%app_eq_app.
  - destruct l as [| c l]; [injection Heq as ->; by rewrite app_nil_r |]. injection Heq as _ ->. set_solver.
  - destruct l as [| c l]; [injection Heq as ->; by rewrite app_nil_r |]. injection Heq as <- _. set_solver.
Qed.

(** ** Ann logs in, fills in a form and connects her mailbox *)
Module Example_web.
#[local] Instance plain_crypto : Crypto := Example_auth.plain_crypto.
#[local] Instance floats : PyFloatText := { parse_float := fun _ => float_of_int 0 }.
Definition action : pystr := lit "POST:/v1/admin/users".
Definition bound : bytes := lit "v=1|u=1|a=POST:/v1/admin/users".
(** A toy: only the form's message has this digest. *)
#[local] Instance toy_hmac : Hmac.
Proof.
  refine {| hmac_sha256 := fun _ m => replicate 32 (if decide (m = bound) then 1 else 0) |}.
  - intros _ m. apply Forall_replicate. by case_decide.
  - intros _ m. apply length_replicate.
Defined.
Definition key : bytes := replicate 16 7.
Definition state_key : bytes := replicate 16 9.
Definition ann : user_row := UserRow (lit "ann") (36 :: lit "secret") true false None None.
Definition db : admin_db := AdminDb (AuthDb {[ 1 := ann ]} ∅ ∅ ∅ []) ∅ ∅ ∅.
Definition zeros : pystr := b64url_encode (replicate 32 0).
Definition ones : pystr := b64url_encode (replicate 32 1).
Definition logged_in : admin_db * login_response :=
  post_login Example_auth.acfg 1000 false key db (lit "ann") (lit "secret") zeros None.
Definition cookie : pystr := match logged_in.2 with LoginOk c => c | _ => [] end.
Definition history : web :=
  Web logged_in.1 [(key, bound); (key, cookie_body cookie)] [Login 1 1000 db (lit "ann") (lit "secret")] [(1, action)] [] [].
Lemma history_reachable : rtc (web_step key state_key) (web_starts db) history.
Proof.
  eapply rtc_l; [eapply (Web_login key state_key _ Example_auth.acfg 1000 false (lit "ann") (lit "secret") zeros None logged_in.1 cookie 1 (lit "ann") db) |].
  - vm_compute. reflexivity.
  - vm_compute. reflexivity.
  - apply json_okb_ok. by vm_compute.
  - eapply rtc_l; [eapply (Web_form key state_key _ 1 action ones bound) | apply rtc_refl].
    + vm_compute. reflexivity.
    + vm_compute. reflexivity.
    + apply plain_code_points, plain_lit. by vm_compute.
Qed.
Definition rq : request := Request [] (Some cookie) (lit "POST") ones.
Lemma ones_is_bound m : ones = b64url_encode (hmac_sha256 key m) -> m = bound.
Proof.
  cbn [hmac_sha256 toy_hmac]. case_decide; [done |]. intros Hq. exfalso. revert Hq. vm_compute. discriminate.
Qed.
Lemma rq_unforged : unforged key history rq.
Proof.
  split; cbn [rq_cookie rq_csrf_token rq].
  - intros body Hb. assert (Hc : cookie = cookie_body cookie ++ DOT :: zeros) by (vm_compute; reflexivity).
    apply (inj Some) in Hb. pose proof (eq_trans (eq_sym Hb) Hc) as Hq.
    apply one_dot in Hq as [-> _]; [by right; left | by apply (bool_decide_unpack _); vm_compute ..].
  - intros m ->%ones_is_bound. by left.
Qed.
Lemma admin_requests_are_authorised_witness :
  (guarded id false 2000 key (wb_db history) rq (lit "/v1/admin/users")).2 = Ok (MkAdmin 1 (lit "ann")) /\
  exists lg, lg ∈ wb_logins history /\ lg_user lg = 1 /\ (1, action) ∈ wb_forms history.
Proof.
  assert (Hg : (guarded id false 2000 key (wb_db history) rq (lit "/v1/admin/users")).2 = Ok (MkAdmin 1 (lit "ann"))) by by vm_compute.
  split; [exact Hg |].
  assert (Ha : Forall code_point (csrf_action id (rq_method rq) (lit "/v1/admin/users"))).
  { change (Forall code_point (lit "POST:/v1/admin/users")). apply plain_code_points, plain_lit. by vm_compute. }
  destruct (admin_requests_are_authorised key state_key id false db history 2000 rq (lit "/v1/admin/users") _ history_reachable rq_unforged Ha Hg)
    as (lg & Hl & Hu & _ & _ & _ & Hf).
  exists lg. by split_and!.
Defined.

(** The consent of account 5, begun at 1000 and completed at 1500. *)
Definition mailbox : account_row := AccountRow (lit "home") (lit "ann@example.org") (lit "oauth2") (Some (lit "gmail")) None None None None None true 0 0.
Definition table : accounts := {[ 5 := mailbox ]}.
Definition consent_payload : StatePayload := MkState 1 5 (lit "n0") 1900.
Definition state : pystr := encode_state consent_payload state_key.
Definition consenting : web := Web db [(state_key, cookie_body state)] [] [] [Consented consent_payload 1000 table true] [].
Lemma consenting_reachable : rtc (web_step key state_key) (web_starts db) consenting.
Proof.
  apply rtc_once. refine (Web_consent key state_key (web_starts db) 1000 table 5 1 (lit "n0") true state _ _); [by vm_compute | apply json_okb_ok; by vm_compute].
Qed.
Definition completed := complete_oauth 1500 table state 1 state_key true (Some (Some (lit "tok"))) Example_runs Example_empty.
Lemma consents_are_bound_witness :
  completed.2 = Ok 5 /\ represents completed.1.2 {[ (lit "home", RefreshToken) := lit "tok" ]}.
Proof.
  assert (Hc : completed = (completed.1.1, completed.1.2, Ok 5)) by by vm_compute.
  split; [by rewrite Hc |].
  assert (Hun : state_unforged state_key consenting state).
  { intros body sig Hs Hd. assert (Hst : state = cookie_body state ++ DOT :: zeros) by by vm_compute.
    pose proof (eq_trans (eq_sym Hs) Hst) as Hq. apply one_dot in Hq as [-> _]; [by left | by apply (bool_decide_unpack _); vm_compute ..]. }
  destruct (consents_are_bound key state_key db consenting 1500 table state 1 true _ Example_runs Example_empty _ _ 5 consenting_reachable Hun Hc)
    as [_ (r & Hr & _ & Hs)]. assert (Hm : r = mailbox) by (change (table !! 5) with (Some mailbox) in Hr; by injection Hr). subst r.
  rewrite <- (insert_empty (lit "home", RefreshToken) (lit "tok")).
  apply (Hs ∅ Example_represents); [by vm_compute | apply plain_code_points, plain_lit; by vm_compute ..].
Defined.

(** Google leaves out the refresh token: the consent succeeds, a JSON null is stored,
    and no secret of any account can be read again. *)
Lemma null_refresh_token_corrupts_the_store :
  let dir := (Secrets.change_secret Example_runs Example_ann Password (Some (lit "pw")) Example_empty).1 in
  let '(_, dir', r) := complete_oauth 1500 table state 1 state_key true (Some None) Example_runs dir in
  r = Ok 5 /\ Secrets.get_secret Example_ann Password dir = Ok (Some (lit "pw")) /\
  forall a k, Secrets.get_secret a k dir' = Err SecretsFileCorrupt.
Proof. vm_compute. split_and!; [reflexivity.. |]. by intros a []. Qed.
End Example_web.
