(* ===== verification/OAuthConsentFacts.v ===== *)
(** * Consent and registration are bounded by what was asked *)
From S2P Require Import Prelude PyStr Base64 Errors MailStore Odict Json Utf8 HttpBlob HttpBlobFacts Credentials OAuth JsonText JsonTextFacts SessionFacts Admin AdminWeb OAuthConsent AdminWebFacts.
Import Auth OAuth Tokens Json_text Blob_response Clients Consent.

(** ** What a form redirects to *)

(** A character of a query string: nothing that ends a header or a parameter early. *)
Definition query_text (c : Z) : Prop := percent_text c \/ c = 61 \/ c = 38 \/ c = 43.
Lemma quote_plus_text s q : Forall code_point s -> quote_plus s = Ok q -> Forall query_text q.
Proof.
  intros Hs. revert q. induction Hs as [| c s Hc _ IH]; intros q; cbn [quote_plus]; [intros [= <-]; by apply list.Forall_nil |].
  destruct (if c =? 32 then Ok [43] else quote [c]) as [h |] eqn:Eh; [| done]. cbn.
  destruct (quote_plus s) as [t |]; [| done]. cbn. intros [= <-]. apply Forall_app. split; [| by apply IH].
  destruct (c =? 32); [injection Eh as <-; apply list.Forall_singleton; by do 3 right |].
  eapply Forall_impl; [eapply quote_text; [by apply list.Forall_singleton | exact Eh] |]. intros b Hb. by left.
Qed.
Lemma urlencode_text l q : Forall (fun e => Forall code_point e.1 /\ Forall code_point e.2) l -> urlencode l = Ok q -> Forall query_text q.
Proof.
  intros Hl. revert q. induction Hl as [| [k v] l [Hk Hv] _ IH]; intros q; cbn [urlencode]; [intros [= <-]; by apply list.Forall_nil |].
  destruct (quote_plus k) as [qk |] eqn:Ek; [| done]. cbn [bind]. destruct (quote_plus v) as [qv |] eqn:Ev; [| done]. cbn.
  destruct (urlencode l) as [t |]; [| done]. cbn. intros [= <-].
  apply Forall_app. split; [exact (quote_plus_text _ _ Hk Ek) |]. apply list.Forall_cons. split; [by right; left |].
  apply Forall_app. split; [exact (quote_plus_text _ _ Hv Ev) |]. destruct l; [by apply list.Forall_nil |].
  apply list.Forall_cons. split; [by do 2 right; left | by apply IH].
Qed.

(** What a client reads off a query string, as [parse_qsl] does: [&] between the
    parameters, the first [=] of each, [+] and percent escapes, in UTF-8. *)
Definition hex_value (c : Z) : Z := if c <=? 57 then c - 48 else if c <=? 70 then c - 55 else c - 87.
Fixpoint unquote_plus (s : pystr) : bytes :=
  match s with
  | 37 :: a :: b :: s => 16 * hex_value a + hex_value b :: unquote_plus s
  | c :: s => (if c =? 43 then 32 else c) :: unquote_plus s
  | [] => []
  end.
Definition query_field (s : pystr) : pystr * pystr :=
  let '(k, v) := partition_at 61 s in (utf8_replace (unquote_plus k), utf8_replace (unquote_plus (default [] v))).
Definition query_params (q : pystr) : list (pystr * pystr) := map query_field (split_on 38 q).

Lemma hex_value_digit n : 0 <= n < 16 -> hex_value (hex_digit n) = n.
Proof. intros Hn. unfold hex_value, hex_digit. destruct (Z.ltb_spec n 10); case_ifs; zb_simpl; lia. Qed.
Lemma unquote_other c s : c <> 37 -> c <> 43 -> unquote_plus (c :: s) = c :: unquote_plus s.
Proof.
  intros H1 H2. destruct (Z.eqb_spec c 43) as [| Hne]; [done |].
  assert (Hp : unquote_plus (c :: s) = (if c =? 43 then 32 else c) :: unquote_plus s); [| by rewrite Hp, (proj2 (Z.eqb_neq c 43) Hne)].
  destruct c as [| c | c]; try done. do 6 (destruct c as [c | c |]; try done).
Qed.
Lemma unreserved_not c : unreserved c = true -> c <> 37 /\ c <> 38 /\ c <> 43 /\ c <> 61.
Proof. intros Hc. split_and!; intros ->; revert Hc; vm_compute; discriminate. Qed.
Lemma unquote_byte b r : 0 <= b < 256 -> unquote_plus (quote_byte b ++ r) = b :: unquote_plus r.
Proof.
  intros Hb. unfold quote_byte. destruct (unreserved b) eqn:E.
  - apply unreserved_not in E as (? & _ & ? & _). by apply unquote_other.
  - cbn [app unquote_plus]. rewrite !hex_value_digit by (Z.div_mod_to_equations; lia). f_equal. Z.div_mod_to_equations; lia.
Qed.
Lemma unquote_bytes bs r : Forall (fun b => 0 <= b < 256) bs -> unquote_plus (concat (quote_byte <$> bs) ++ r) = bs ++ unquote_plus r.
Proof.
  induction 1 as [| b bs Hb _ IH]; [done |]. cbn [fmap list_fmap concat]. rewrite <- app_assoc, unquote_byte by done.
  cbn [app]. by f_equal.
Qed.
(** A value is read back as it was, and no character of it ends it. *)
Lemma quote_plus_reads s : plain s -> exists q, quote_plus s = Ok q /\ utf8_replace (unquote_plus q) = s /\ 38 ∉ q /\ 61 ∉ q.
Proof.
  induction 1 as [| c s [Hc Hsur] _ (t & Ht & Hr & H38 & H61)]; [exists []; split_and!; [done | done | apply not_elem_of_nil ..] |].
  cbn [quote_plus]. rewrite Ht. destruct (Z.eqb_spec c 32) as [-> | H32].
  { exists (43 :: t). split_and!; [done | change (32 :: utf8_replace (unquote_plus t) = 32 :: s); by f_equal | |]; apply not_elem_of_cons; by split. }
  assert (Hu : exists bs, utf8_char c = Ok bs) by (unfold utf8_char; rewrite Hsur; by eexists). destruct Hu as [bs Hu].
  pose proof (utf8_bytes c bs Hc Hu) as Hbs. exists (concat (quote_byte <$> bs) ++ t). cbn [quote]. rewrite Hu. cbn [bind].
  assert (Hno : forall x, x = 38 \/ x = 61 -> x ∉ concat (quote_byte <$> bs)).
  { intros x Hx Hin. assert (Hp : Forall percent_text (concat (quote_byte <$> bs))).
    { apply Forall_concat, Forall_fmap. eapply Forall_impl; [exact Hbs |]. intros b Hb. by apply quote_byte_text. }
    destruct (proj1 (Forall_forall _ _) Hp x Hin) as [Hun%unreserved_not |]; lia. }
  split_and!; [by rewrite app_nil_r | | apply not_elem_of_app; split; [apply Hno; by left | done] | apply not_elem_of_app; split; [apply Hno; by right | done]].
  rewrite unquote_bytes by done. rewrite (utf8_replace_char c bs) by done. by rewrite Hr.
Qed.
Lemma urlencode_reads l : Forall (fun e => plain e.1 /\ plain e.2) l -> l <> [] -> exists q, urlencode l = Ok q /\ query_params q = l.
Proof.
  induction 1 as [| [k v] l [Hk Hv] _ IH]; [done |]. intros _. cbn [fst snd] in *.
  destruct (quote_plus_reads k Hk) as (qk & Ek & Rk & K38 & K61). destruct (quote_plus_reads v Hv) as (qv & Ev & Rv & V38 & _).
  assert (Hf : query_field (qk ++ [61] ++ qv) = (k, v)).
  { unfold query_field. cbn [app]. rewrite partition_at_app by done. cbn [default from_option id]. by rewrite Rk, Rv. }
  assert (H38 : 38 ∉ qk ++ [61] ++ qv) by (rewrite !elem_of_app, list_elem_of_singleton; intros [? | [? |?]]; done).
  cbn [urlencode]. rewrite Ek, Ev. cbn [bind]. destruct l as [| e l].
  - exists (qk ++ [61] ++ qv ++ []). split; [done |]. rewrite app_nil_r. unfold query_params. rewrite split_on_nosep by done. cbn [map]. by rewrite Hf.
  - destruct IH as (q & Eq & Rq); [done |]. rewrite Eq. cbn [bind]. eexists. split; [done |]. unfold query_params.
    replace (qk ++ [61] ++ qv ++ 38 :: q) with ((qk ++ [61] ++ qv) ++ 38 :: q) by by rewrite <- !app_assoc.
    rewrite split_on_app by done. cbn [map]. rewrite Hf. by f_equal.
Qed.

Section consent.
Context `{Crypto} `{Hmac} `{PyFloatText} (key state_key : bytes).

Lemma consent_reads p : exists f, consent_of_json (sorted_keys (consent_json p)) = Some f /\ typed f = Some p /\ cf_exp f = JInt (cp_exp p).
Proof.
  destruct p as [c u x h s t e r].
  exists (ConsentFields (JStr c) (JStr u) (JBool x) (JStr h) (JArr (map sorted_keys (map JStr s))) (json_opt t) (JInt e) (json_opt r)).
  split; [destruct t, r; reflexivity |]. split; [| done].
  assert (Hs : mapM str_of_json (map sorted_keys (map JStr s)) = Some s).
  { clear. induction s as [| y s IH]; [done |]. cbn in *. by rewrite IH. }
  assert (Ho : forall o, opt_of_json (json_opt o) = Some o) by by intros [].
  unfold typed. cbn [cf_client_id cf_redirect_uri cf_explicit cf_code_challenge cf_scopes cf_state cf_exp cf_resource str_of_json].
  by rewrite !Ho, Hs.
Qed.
(** What a consent blob that is accepted was handed out for. *)
Lemma minted_asked w m j f : minted_ok state_key w m -> loads_b64 m = Some j -> consent_of_json j = Some f ->
  exists k, k ∈ wb_asked w /\ asked_ok k /\ typed f = Some (ak_payload k) /\ cf_exp f = JInt (cp_exp (ak_payload k)) /\ m = consent_body (ak_payload k).
Proof.
  intros [lg _ Hok | u a m0 _ Hb _ | c Hin Hok | k Hin Hok] Hj Hf.
  - unfold session_body in Hj. rewrite body_loads in Hj by apply Hok. apply (inj Some) in Hj; subst j. done.
  - by rewrite (bound_loads _ _ _ Hb) in Hj.
  - unfold state_body in Hj. rewrite body_loads in Hj by apply Hok. apply (inj Some) in Hj; subst j. done.
  - unfold consent_body in Hj. rewrite body_loads in Hj by apply Hok. apply (inj Some) in Hj; subst j.
    destruct (consent_reads (ak_payload k)) as (f' & Hf' & Ht & He). rewrite Hf in Hf'. apply (inj Some) in Hf'. subst f'. by exists k.
Qed.
Lemma accepted_blob w token now f : web_ok state_key w -> state_unforged state_key w token ->
  decode_consent_state token state_key now = Ok f ->
  exists k sig, k ∈ wb_asked w /\ asked_ok k /\ typed f = Some (ak_payload k) /\ now <= ak_at k + oauth_consent_state_ttl_s (ak_cfg k) /\
    token = consent_body (ak_payload k) ++ DOT :: sig.
Proof.
  intros Hw Hun. unfold decode_consent_state. destruct (open_signed token state_key) as [j |] eqn:Ej; [| done]. cbn -[consent_of_json].
  destruct (consent_of_json j) as [f0 |] eqn:Ef; [| done]. destruct (opened_minted _ _ _ _ Hw Hun Ej) as (m & sig & Htok & Hm & Hl).
  destruct (minted_asked _ _ _ _ Hm Hl Ef) as (k & Hin & Hok & Ht & He & ->). rewrite He. cbn.
  destruct (Z.ltb_spec (cp_exp (ak_payload k)) now) as [| Hle]; [done |]. intros [= <-]. exists k, sig. split_and!; try done.
  destruct Hok as [_ (canon & acc & cl & ps & Ha)]. unfold authorization_payload in Ha.
  destruct (Resource_indicator.decide_resource _ _ _ _) as [[] |]; try done. injection Ha as Ha. by rewrite <- Ha in Hle.
Qed.

Lemma parsed_form form dec : parse_consent_form form = Ok dec ->
  od_get (lit "req") form = Some (cd_req dec) /\
  (if cd_allow dec then od_get (lit "decision") form = Some (lit "allow") /\ od_get (lit "username") form = cd_username dec /\
     od_get (lit "password") form = cd_password dec /\ is_Some (cd_username dec) /\ is_Some (cd_password dec)
   else od_get (lit "decision") form = Some (lit "deny")).
Proof.
  assert (Hg : forall s t, given s = Some t -> s = Some t) by (intros [[| ? ?] |] t; done).
  unfold parse_consent_form. destruct (given (od_get (lit "req") form)) as [req |] eqn:Er; [| done]. apply Hg in Er.
  destruct (od_get (lit "decision") form) as [dcs |] eqn:Ed; [| done]. case_bool_decide as Hdeny; [subst dcs; by intros [= <-] |].
  case_bool_decide as Hallow; [subst dcs | done]. destruct (given (od_get (lit "username") form)) as [u |] eqn:Eu; [| done].
  destruct (given (od_get (lit "password") form)) as [p |] eqn:Ep; [| done]. apply Hg in Eu, Ep. intros [= <-].
  split; [exact Er |]. split_and!; [done | exact Eu | exact Ep | by eexists | by eexists].
Qed.
Notation codes d := (oauth_authorization_codes (od_auth d)).
(** The row a consent adds. *)
Definition code_of (cfg : mcp_config) (now : Z) (p : ConsentPayload) (user_id : Z) : code_row :=
  CodeRow (cp_client_id p) user_id (cp_redirect_uri p) (cp_redirect_uri_provided_explicitly p) (cp_code_challenge p) (cp_scopes p)
    now (now + oauth_authorization_code_ttl_s cfg) (cp_resource p).
(** The user typed the password of an account that may log in, within the limits. *)
Definition vouched acfg now (d : oauth_db) username password client_ip i : Prop :=
  check_login_rate_limits acfg now (od_auth d) username client_ip = Ok () /\
  exists u, api_users (od_auth d) !! i = Some u /\ named username i u /\ verify_password password (u_password_hash u) = true.
Lemma mint_spec acfg cfg now fl raw d p username password ip d' r :
  authorize_and_mint acfg cfg now fl raw d p username password ip = (d', r) ->
  (codes d' = codes d /\ (forall loc, r <> ConsentRedirect loc)) \/
  (exists i, vouched acfg now d username password ip i /\ is_Some (od_clients d !! cp_client_id p) /\
     codes d' = <[hash_token raw := code_of cfg now p i]> (codes d)) /\
  r = redirect_with (cp_redirect_uri p) ((lit "code", raw) :: state_param p).
Proof.
  unfold authorize_and_mint. destruct (check_login_rate_limits acfg now (od_auth d) username ip) as [[] |] eqn:El; [| intros [= <- <-]; by left].
  assert (Hrec : forall o, codes (on_auth (fun a => record_login_attempt fl now a username ip o) d) = codes d).
  { intros o. unfold on_auth, record_login_attempt. by destruct fl. }
  destruct (find_key (named username) (api_users (od_auth d))) as [i |] eqn:Ei; cbn; [| intros [= <- <-]; left; by rewrite Hrec].
  apply find_key_some in Ei as (u & Hu & Hn). rewrite Hu. cbn.
  destruct (verify_password password (u_password_hash u)) eqn:Ev; [| intros [= <- <-]; left; by rewrite Hrec].
  unfold get_client. cbn [od_clients on_auth]. destruct (od_clients d !! cp_client_id p) as [c |] eqn:Ec; [| intros [= <- <-]; left; by rewrite Hrec].
  intros [= <- <-]. right. split; [| done]. exists i. split_and!; [split; [done | by exists u] | by eexists |].
  unfold mint_code, set_codes. cbn [on_auth od_auth oauth_authorization_codes]. f_equal. apply Hrec.
Qed.
(** The state of a request that has one. *)
Definition echoed (p : ConsentPayload) : list (pystr * pystr) :=
  match cp_state p with None | Some [] => [] | Some s => [(lit "state", s)] end.
(** The browser is sent to the redirect URI of [p], whose client reads [params] there
    and the state of [p]. *)
Definition sent_back (p : ConsentPayload) (params : list (pystr * pystr)) (r : consent_response) : Prop :=
  exists q, r = ConsentRedirect (cp_redirect_uri p ++ (if contains 63 (cp_redirect_uri p) then lit "&" else lit "?") ++ q) /\
    Forall query_text q /\ query_params q = params ++ echoed p.
Lemma echoed_plain p : json_ok (consent_json p) -> Forall (fun e : pystr * pystr => plain e.1 /\ plain e.2) (echoed p).
Proof.
  intros [_ Hp]. apply foldr_and in Hp. unfold echoed. destruct (cp_state p) as [[| c s] |] eqn:Es; [by apply list.Forall_nil | | by apply list.Forall_nil].
  apply list.Forall_singleton. split; [by apply plain_lit; vm_compute |].
  rewrite !list.Forall_cons in Hp. destruct Hp as (_ & _ & _ & _ & _ & [_ Hj] & _). exact Hj.
Qed.
Lemma redirect_sent p n v : json_ok (consent_json p) -> plain n -> plain v ->
  sent_back p [(n, v)] (redirect_with (cp_redirect_uri p) ((n, v) :: state_param p)).
Proof.
  intros Hp Hn Hv. assert (He : state_param p = echoed p) by (unfold state_param, echoed; by destruct (cp_state p) as [[] |]).
  assert (Hl : Forall (fun e : pystr * pystr => plain e.1 /\ plain e.2) ((n, v) :: echoed p)) by (apply list.Forall_cons; split; [done | by apply echoed_plain]).
  rewrite He. destruct (urlencode_reads _ Hl ltac:(done)) as (q & Eq & Rq). unfold redirect_with. rewrite Eq. exists q. split_and!; [done | | done].
  eapply urlencode_text; [| exact Eq]. eapply Forall_impl; [exact Hl |]. intros e []. split; by apply plain_code_points.
Qed.

(** C31: an authorization code appears only for a request the server itself accepted
    at most its state's lifetime before, the very request whose signed blob the form
    carries, when someone typed the password of an account that may log in, within
    the limits on guessing, and pressed allow; it carries that request's client,
    redirect URI, challenge, scopes and resource.  The browser then goes to that
    request's redirect URI with this code and that request's state; when deny is
    pressed it goes there with the refusal and the state; otherwise no code appears
    and it goes nowhere. *)
Theorem consent_codes_are_authorised d0 w acfg cfg now insert_fails raw d form client_ip d' r :
  rtc (web_step key state_key) (web_starts d0) w ->
  (forall req, od_get (lit "req") form = Some req -> state_unforged state_key w req) -> plain raw ->
  post_consent acfg cfg now insert_fails raw state_key d form client_ip = (d', r) ->
  (codes d' = codes d /\ forall loc, r <> ConsentRedirect loc) \/
  exists k sig, k ∈ wb_asked w /\ asked_ok k /\ now <= ak_at k + oauth_consent_state_ttl_s (ak_cfg k) /\
    od_get (lit "req") form = Some (consent_body (ak_payload k) ++ DOT :: sig) /\
    ((od_get (lit "decision") form = Some (lit "deny") /\ codes d' = codes d /\
      sent_back (ak_payload k) [(lit "error", lit "access_denied")] r) \/
     (exists i username password, od_get (lit "decision") form = Some (lit "allow") /\
        od_get (lit "username") form = Some username /\ od_get (lit "password") form = Some password /\
        vouched acfg now d username password client_ip i /\ is_Some (od_clients d !! cp_client_id (ak_payload k)) /\
        codes d' = <[hash_token raw := code_of cfg now (ak_payload k) i]> (codes d) /\
        sent_back (ak_payload k) [(lit "code", raw)] r)).
Proof.
  intros Hr Hun Hraw. pose proof (web_reachable_ok _ _ _ _ Hr) as Hw. unfold post_consent.
  destruct (parse_consent_form form) as [dec |] eqn:Ep; [| intros [= <- <-]; by left].
  apply parsed_form in Ep as [Hreq Hdec].
  destruct (decode_consent_state (cd_req dec) state_key now) as [f | []] eqn:Ed; try (intros [= <- <-]; by left).
  destruct (accepted_blob _ _ _ _ Hw (Hun _ Hreq) Ed) as (k & sig & Hin & Hok & -> & Hnow & Hblob). rewrite Hblob in Hreq.
  pose proof (proj1 Hok) as Hj. destruct (cd_allow dec); cbn [negb].
  - destruct Hdec as (Hd & Hu & Hp & [username Eu] & [password Epw]). rewrite Eu in Hu |- *. rewrite Epw in Hp |- *.
    cbn [default from_option id]. intros Hm.
    apply mint_spec in Hm as [Hno | [(i & Hv & Hcl & Hc) ->]]; [by left | right].
    exists k, sig. split_and!; [done.. |]. right. exists i, username, password. split_and!; try done.
    apply redirect_sent; [done | by apply plain_lit; vm_compute | done].
  - intros [= <- <-]. right. exists k, sig. split_and!; [done.. |]. left. split_and!; [done | done |].
    apply redirect_sent; [done | by apply plain_lit; vm_compute ..].
Qed.
End consent.

(** ** The registration guard *)

(** The tables, the addresses whose request passed the check and is not recorded yet,
    the requests let through so far, and the clock. *)
Record guarding := Guarding { gd_db : oauth_db; gd_pending : list (option pystr); gd_admitted : list (option pystr * Z); gd_now : Z }.
Section guard.
Context (cfg : mcp_config) (workers : nat).
Notation window := (oauth_registration_window_s cfg).
Notation pending_of ip l := (length (filter (fun p => p = ip) l)).
(** Requests overlap between their two transactions, [workers] of one address at
    most; everything else leaves the attempts alone. *)
Inductive guard_step (s : guarding) : guarding -> Prop :=
  | Guard_check now ip :
      gd_now s <= now -> guard_check cfg now ip (gd_db s) = false -> (pending_of ip (gd_pending s) < workers)%nat ->
      guard_step s (Guarding (gd_db s) (ip :: gd_pending s) (gd_admitted s) now)
  | Guard_refuse now ip : gd_now s <= now -> guard_check cfg now ip (gd_db s) = true -> guard_step s (Guarding (gd_db s) (gd_pending s) (gd_admitted s) now)
  | Guard_record now ip lock_free rest :
      gd_now s <= now -> gd_pending s ≡ₚ ip :: rest ->
      guard_step s (Guarding (record_and_sweep cfg lock_free now ip (gd_db s)) rest ((ip, now) :: gd_admitted s) now)
  | Guard_other now d :
      gd_now s <= now -> od_registration_attempts d = od_registration_attempts (gd_db s) ->
      guard_step s (Guarding d (gd_pending s) (gd_admitted s) now).
Definition guard_starts (d : oauth_db) (now : Z) : guarding := Guarding d [] [] now.

(** The requests of an address since [t - window], and those up to [t] of them. *)
Definition since (ip : option pystr) (t : Z) (l : list (option pystr * Z)) : nat := length (filter (fun e => e.1 = ip /\ t - window < e.2) l).
Definition within (ip : option pystr) (t : Z) (l : list (option pystr * Z)) : nat :=
  length (filter (fun e => e.1 = ip /\ t - window < e.2 /\ e.2 <= t) l).
Definition cap : Z := Z.max 0 (oauth_registration_max cfg - 1 + Z.of_nat workers).
Lemma filter_length_le {A} (P Q : A -> Prop) `{!forall x, Decision (P x), !forall x, Decision (Q x)} l :
  (forall x, P x -> Q x) -> (length (filter P l) <= length (filter Q l))%nat.
Proof.
  intros HPQ. induction l as [| x l IH]; [done |]. rewrite !filter_cons. do 2 case_decide; cbn [length]; [lia | naive_solver | lia..].
Qed.
Lemma since_le ip t t' l : t <= t' -> (since ip t' l <= since ip t l)%nat.
Proof. intros Ht. apply filter_length_le. intros e [? ?]. split; [done | lia]. Qed.
Lemma within_since ip t l : (within ip t l <= since ip t l)%nat.
Proof. apply filter_length_le. by intros e (? & ? & _). Qed.
Lemma since_cons ip t e l : since ip t (e :: l) = Nat.add (Nat.b2n (bool_decide (e.1 = ip /\ t - window < e.2))) (since ip t l).
Proof. unfold since. rewrite filter_cons. case_decide; [by rewrite bool_decide_eq_true_2 | by rewrite bool_decide_eq_false_2]. Qed.
(** Recording keeps the attempts any later window counts, and adds its own. *)
Lemma since_recorded ip t lock_free now jp d : now <= t ->
  since ip t (od_registration_attempts (record_and_sweep cfg lock_free now jp d)) = since ip t ((jp, now) :: od_registration_attempts d).
Proof.
  intros Ht. assert (Ha : since ip t (od_registration_attempts d ++ [(jp, now)]) = since ip t ((jp, now) :: od_registration_attempts d)).
  { unfold since. apply Permutation_length. by rewrite (Permutation_app_comm _ [_]). }
  rewrite <- Ha. unfold record_and_sweep, cleanup_unused, delete_clients. cbn [fst od_registration_attempts]. unfold sweep, record.
  destruct lock_free; cbn [negb fst set_registrations od_registration_attempts]; [| done].
  unfold since. rewrite list_filter_filter. f_equal. apply list_filter_iff. intros e. split; [by intros [? _] |]. intros [? ?]. split; [done | lia].
Qed.

Record guard_ok (s : guarding) : Prop := GuardOk {
  go_past : Forall (fun e => e.2 <= gd_now s) (gd_admitted s);
  go_kept : forall ip t, gd_now s <= t -> (since ip t (gd_admitted s) <= since ip t (od_registration_attempts (gd_db s)))%nat;
  go_open : forall ip t, is_Some ip -> gd_now s <= t -> Z.of_nat (since ip t (gd_admitted s) + pending_of ip (gd_pending s)) <= cap;
  go_cap : forall ip t, is_Some ip -> Z.of_nat (within ip t (gd_admitted s)) <= cap;
}.
Lemma guard_waits s now d : guard_ok s -> gd_now s <= now -> od_registration_attempts d = od_registration_attempts (gd_db s) ->
  guard_ok (Guarding d (gd_pending s) (gd_admitted s) now).
Proof.
  intros [Hp Hk Ho Hc] Hn Hd. split; cbn [gd_db gd_pending gd_admitted gd_now].
  - eapply Forall_impl; [exact Hp |]. intros e He. cbn beta in *. lia.
  - intros ip t Ht. rewrite Hd. apply Hk. lia.
  - intros ip t Hip Ht. apply Ho; [done | lia].
  - done.
Qed.
Lemma within_cons ip t e l : within ip t (e :: l) = Nat.add (Nat.b2n (bool_decide (e.1 = ip /\ t - window < e.2 /\ e.2 <= t))) (within ip t l).
Proof. unfold within. rewrite filter_cons. case_decide; [by rewrite bool_decide_eq_true_2 | by rewrite bool_decide_eq_false_2]. Qed.
Lemma pending_cons (ip jp : option pystr) l : pending_of ip (jp :: l) = Nat.add (Nat.b2n (bool_decide (jp = ip))) (pending_of ip l).
Proof. rewrite filter_cons. case_decide; [by rewrite bool_decide_eq_true_2 | by rewrite bool_decide_eq_false_2]. Qed.
Lemma guard_checked s now ip : guard_ok s -> gd_now s <= now -> guard_check cfg now ip (gd_db s) = false ->
  (pending_of ip (gd_pending s) < workers)%nat -> guard_ok (Guarding (gd_db s) (ip :: gd_pending s) (gd_admitted s) now).
Proof.
  intros Hs Hn Hg Hw. destruct (guard_waits s now (gd_db s) Hs Hn eq_refl) as [Hp Hk Ho Hc]. split; cbn [gd_db gd_pending gd_admitted gd_now] in *; [done | done | | done].
  intros jp t Hjp Ht. rewrite pending_cons. specialize (Ho jp t Hjp Ht). case_bool_decide as Heq; cbn [Nat.b2n]; [subst jp | lia].
  apply Z.leb_gt in Hg. unfold count_recent in Hg. specialize (Hk ip now ltac:(lia)). pose proof (since_le ip now t (gd_admitted s) Ht).
  assert (Hr : since ip now (od_registration_attempts (gd_db s)) = length (filter (recent_from now window ip) (od_registration_attempts (gd_db s)))).
  { unfold since. f_equal. apply list_filter_iff. intros e. unfold recent_from. split; [by intros [? ?] | by intros (_ & ? & ?)]. }
  unfold cap. lia.
Qed.
Lemma guard_recorded s now ip lock_free rest : guard_ok s -> gd_now s <= now -> gd_pending s ≡ₚ ip :: rest ->
  guard_ok (Guarding (record_and_sweep cfg lock_free now ip (gd_db s)) rest ((ip, now) :: gd_admitted s) now).
Proof.
  intros Hs Hn Hperm. destruct (guard_waits s now (gd_db s) Hs Hn eq_refl) as [Hp Hk Ho Hc]. cbn [gd_db gd_pending gd_admitted gd_now] in *.
  assert (Hopen : forall jp t, is_Some jp -> now <= t -> Z.of_nat (since jp t ((ip, now) :: gd_admitted s) + pending_of jp rest) <= cap).
  { intros jp t Hjp Ht. specialize (Ho jp t Hjp Ht). assert (Hl : pending_of jp (gd_pending s) = pending_of jp (ip :: rest)) by by rewrite Hperm.
    rewrite Hl, pending_cons in Ho. rewrite since_cons. cbn [fst snd]. do 2 case_bool_decide; cbn [Nat.b2n] in *; first [lia | tauto]. }
  split; cbn [gd_db gd_pending gd_admitted gd_now].
  - by apply list.Forall_cons.
  - intros jp t Ht. rewrite since_recorded, !since_cons by done. specialize (Hk jp t Ht). lia.
  - exact Hopen.
  - intros jp t Hjp. destruct (Z.le_gt_cases now t) as [Ht | Ht].
    + pose proof (within_since jp t ((ip, now) :: gd_admitted s)). specialize (Hopen jp t Hjp Ht). lia.
    + rewrite within_cons. cbn [fst snd]. rewrite bool_decide_eq_false_2 by lia. apply (Hc jp t Hjp).
Qed.
Lemma guard_step_ok s s' : guard_step s s' -> guard_ok s -> guard_ok s'.
Proof.
  intros [now ip Hn Hg Hw | now ip Hn _ | now ip lf rest Hn Hp | now d Hn Hd] Hs;
    [by apply guard_checked | by apply guard_waits | by apply guard_recorded | by apply guard_waits].
Qed.
Lemma guard_starts_ok d now : guard_ok (guard_starts d now).
Proof. split; cbn; [by apply list.Forall_nil | intros; lia | intros; unfold cap; lia | intros; unfold cap; lia]. Qed.

(** A client keeps its row and everything it was given. *)
Definition spared (id : pystr) (d d' : oauth_db) : Prop :=
  let a := od_auth d in let a' := od_auth d' in
  od_clients d' !! id = od_clients d !! id /\
  (forall h r, oauth_refresh_tokens a !! h = Some r -> r_client_id r = id -> oauth_refresh_tokens a' !! h = Some r) /\
  (forall h c, oauth_authorization_codes a !! h = Some c -> c_client_id c = id -> oauth_authorization_codes a' !! h = Some c) /\
  (forall h x, api_tokens a !! h = Some x -> t_oauth_client_id x = Some id -> api_tokens a' !! h = Some x).
Lemma live_client_spared lock_free now ip d id : has_live_refresh now (od_auth d) id = true ->
  spared id d (record_and_sweep cfg lock_free now ip d).
Proof.
  intros Hl. set (d1 := (sweep lock_free now window (record now ip d)).1).
  assert (Ha : od_auth d1 = od_auth d /\ od_clients d1 = od_clients d) by (unfold d1, sweep, record; by destruct lock_free).
  destruct Ha as [Ha Hc]. assert (Hg : abandoned now (oauth_client_unused_retention_s cfg) d1 id = false).
  { unfold abandoned. destruct (od_clients d1 !! id); [| done]. by rewrite Ha, Hl, andb_false_r. }
  unfold record_and_sweep. fold d1. unfold cleanup_unused, delete_clients. cbn [fst]. split_and!; cbn [od_auth od_clients]; rewrite ?Ha, ?Hc.
  - destruct (od_clients d !! id) as [c |] eqn:E; [by apply map_lookup_filter_Some |]. apply map_lookup_filter_None. by left.
  - intros h r Hr Hid. apply map_lookup_filter_Some. split; [done |]. cbn [snd]. by rewrite Hid.
  - intros h c Hr Hid. apply map_lookup_filter_Some. split; [done |]. cbn [snd]. by rewrite Hid.
  - intros h x Hr Hid. apply map_lookup_filter_Some. split; [done |]. cbn [snd]. by rewrite Hid.
Qed.

(** C32: however registration requests overlap, at most [workers] of one address at a
    time, no window of the configured length lets more of them through than the
    maximum and the overlap allow (the maximum, when they come one at a time); and the
    sweep each of them runs takes nothing from a client with a live refresh token. *)
Theorem registrations_are_bounded d now s ip t :
  rtc guard_step (guard_starts d now) s -> is_Some ip ->
  Z.of_nat (within ip t (gd_admitted s)) <= cap /\
  forall lock_free later jp id, has_live_refresh later (od_auth (gd_db s)) id = true ->
    spared id (gd_db s) (record_and_sweep cfg lock_free later jp (gd_db s)).
Proof.
  intros Hr Hip. split; [| intros; by apply live_client_spared].
  assert (Hs : guard_ok s); [| by apply (go_cap _ Hs)].
  pose proof (guard_starts_ok d now) as Hi. induction Hr as [| s0 s1 s2 Hst _ IH]; [done |]. by apply IH, (guard_step_ok s0).
Qed.
End guard.

(** ** A client registers, asks, and Ann allows it *)
Module Example_consent.
#[local] Instance plain_crypto : Crypto := Example_auth.plain_crypto.
#[local] Instance floats : PyFloatText := { parse_float := fun _ => Score.float_of_int 0 }.
#[local] Instance toy_hmac : Hmac := Example_web.toy_hmac.
Import Example_web.
Definition mcfg : mcp_config := McpConfig 60 300 false 3600 1 86400.
Definition canonical (s : pystr) : option pystr := Some s.
Definition payload : ConsentPayload :=
  MkConsent (lit "app") (lit "http://127.0.0.1/cb") true (lit "chal") [lit "mail"] (Some (lit "s&1")) 1300 (Some (lit "res")).
Definition request1 : asked := Asked payload 1000 mcfg.
Definition blob : pystr := encode_consent_state payload state_key.
Definition asking : web := Web db [(state_key, cookie_body blob)] [] [] [] [request1].
Lemma asking_reachable : rtc (web_step key state_key) (web_starts db) asking.
Proof.
  apply rtc_once. refine (Web_authorize key state_key (web_starts db) request1 _). split; [apply json_okb_ok; by vm_compute |].
  exists canonical, [lit "res"], (lit "app"),
    (AuthorizationParams (lit "http://127.0.0.1/cb") true (lit "chal") (Some [lit "mail"]) (Some (lit "s&1")) None). by vm_compute.
Qed.
Definition store : oauth_db :=
  OAuthDb (ad_auth db) {[ lit "app" := ClientRow None [lit "http://127.0.0.1/cb"] None None None None None 900 None ]} [].
Definition form : list (pystr * pystr) :=
  [(lit "req", blob); (lit "decision", lit "allow"); (lit "username", lit "ann"); (lit "password", lit "secret")].
Definition allowed := post_consent Example_auth.acfg mcfg 1100 false (lit "c0de") state_key store form None.
Lemma blob_unforged req : od_get (lit "req") form = Some req -> state_unforged state_key asking req.
Proof.
  intros Hreq. change (od_get (lit "req") form) with (Some blob) in Hreq. injection Hreq as <-. intros body sig Hs Hd.
  assert (Hb : blob = cookie_body blob ++ DOT :: zeros) by by vm_compute. pose proof (eq_trans (eq_sym Hs) Hb) as Hq.
  apply one_dot in Hq as [-> _]; [by left | by apply (bool_decide_unpack _); vm_compute ..].
Qed.
Lemma consent_codes_are_authorised_witness :
  allowed.2 = ConsentRedirect (lit "http://127.0.0.1/cb?code=c0de&state=s%261") /\
  exists k, k ∈ wb_asked asking /\ asked_ok k /\ 1100 <= ak_at k + oauth_consent_state_ttl_s (ak_cfg k) /\
    (exists sig, blob = consent_body (ak_payload k) ++ DOT :: sig) /\ sent_back (ak_payload k) [(lit "code", lit "c0de")] allowed.2.
Proof.
  split; [by vm_compute |].
  assert (Hraw : plain (lit "c0de")) by (apply plain_lit; by vm_compute).
  destruct (consent_codes_are_authorised key state_key db asking Example_auth.acfg mcfg 1100 false (lit "c0de") store form None _ _
    asking_reachable blob_unforged Hraw (surjective_pairing allowed))
    as [[_ Hno] | (k & sig & Hin & Hok & Hnow & Hb & [(Hd & _) | (i & u & pw & _ & _ & _ & _ & _ & _ & Hsent)])].
  - exfalso. eapply (Hno (lit "http://127.0.0.1/cb?code=c0de&state=s%261")). by vm_compute.
  - exfalso. revert Hd. vm_compute. discriminate.
  - exists k. split_and!; try done. exists sig. change (od_get (lit "req") form) with (Some blob) in Hb. by injection Hb.
Defined.

(** One registration an hour: the second request of the hour is refused. *)
Definition home : option pystr := Some (lit "10.0.0.9").
Definition registered : guarding := Guarding (record_and_sweep mcfg true 1001 home store) [] [(home, 1001)] 1001.
Lemma registered_reachable : rtc (guard_step mcfg 1) (guard_starts store 1000) registered.
Proof.
  eapply rtc_l; [refine (Guard_check mcfg 1 (guard_starts store 1000) 1000 home _ _ _); [done | by vm_compute | by vm_compute; lia] |].
  apply rtc_once. refine (Guard_record mcfg 1 _ 1001 home true [] _ _); [done | reflexivity].
Qed.
Lemma registrations_are_bounded_witness :
  guard_check mcfg 1002 home (gd_db registered) = true /\ within mcfg home 1500 (gd_admitted registered) = 1%nat /\
  Z.of_nat (within mcfg home 1500 (gd_admitted registered)) <= 1.
Proof.
  split; [by vm_compute |]. split; [by vm_compute |].
  exact (proj1 (registrations_are_bounded mcfg 1 store 1000 registered home 1500 registered_reachable ltac:(by eexists))).
Defined.

(** A client swept away between its request and the user's answer: the insert of the
    code fails, and the user sees a server error. *)
Lemma consent_of_swept_client_crashes :
  let swept := record_and_sweep mcfg true 90000 home store in
  od_clients swept = ∅ /\
  (post_consent Example_auth.acfg mcfg 1100 false (lit "c0de") state_key swept form None).2 = ConsentCrash.
Proof. by vm_compute. Qed.
End Example_consent.
