(* ===== verification/Extractor.v ===== *)
(** * Extracting text from an attachment ([search/extractor.py], [ocr_policy.py])

    The value every extraction ends in, the choice of a parser, what each parser's
    answer becomes, and the guarded use of docling.  The parsers themselves are
    third-party code: a [parsers] and a [docling] record hold what their calls answer
    or raise.  An exception is an object in a heap of objects linked by cause and
    context, as [iter_exc_chain] walks it; messages and log lines are dropped. *)
From S2P Require Import Prelude PyStr Errors Utf8 Score MailStore Query HeaderBlock Chunking ExtractQueue.
Import Attachment_kind Extract_worker.

(** ** Exceptions *)
Inductive raised := ExtractorError | Transient | ExtractorConfigurationError.
#[export] Instance raised_eq_dec : EqDecision raised.
Proof. solve_decision. Defined.
(** A class: one of this module's, or another with what the worker takes it for,
    whether it is an [ImportError], and its module. *)
Inductive py_class := Ours (k : raised) | Foreign (c : exc_class) (import_error : bool) (module : pystr).
Record exc_object := ExcObject {
  eo_class : py_class; eo_cause : option nat; eo_context : option nat; eo_suppress_context : bool }.
Record exception := Exception { ex_objects : gmap nat exc_object; ex_top : nat }.

Module Extractor.
(** [raise X(...)], and [raise X(...) from exc] in the handler of [exc]. *)
Definition raise_new (k : raised) : exception := Exception {[ O := ExcObject (Ours k) None None false ]} O.
Definition next_id (h : gmap nat exc_object) : nat := S (max_list (map_to_list h).*1).
Definition raise_from (k : raised) (x : exception) : exception :=
  let n := next_id (ex_objects x) in
  Exception (<[n := ExcObject (Ours k) (Some (ex_top x)) (Some (ex_top x)) true]> (ex_objects x)) n.

(** [iter_exc_chain] *)
Definition next_exc (o : exc_object) : option nat :=
  match eo_cause o with
  | Some c => Some c
  | None => if eo_suppress_context o then None else eo_context o
  end.
Fixpoint chain (fuel : nat) (h : gmap nat exc_object) (seen : list nat) (cur : option nat) : list exc_object :=
  match fuel, cur with
  | S fuel, Some i =>
      if bool_decide (i ∈ seen) then []
      else match h !! i with
           | Some o => o :: chain fuel h (i :: seen) (next_exc o)
           | None => []
           end
  | _, _ => []
  end.
Definition iter_exc_chain (x : exception) : list exc_object :=
  chain (S (size (ex_objects x))) (ex_objects x) [] (Some (ex_top x)).
(** What the worker sees of an exception. *)
Definition worker_class (o : exc_object) : exc_class :=
  match eo_class o with
  | Ours ExtractorError => OtherError (lit "ExtractorError")
  | Ours _ => TransientExtractorError
  | Foreign c _ _ => c
  end.
Definition exc_of (x : exception) : exc := worker_class <$> iter_exc_chain x.

Definition module_of (o : exc_object) : pystr :=
  match eo_class o with Ours _ => lit "localmail.search.extractor" | Foreign _ _ m => m end.
Definition is_import_error (o : exc_object) : bool := match eo_class o with Foreign _ i _ => i | Ours _ => false end.
Definition is_configuration (o : exc_object) : bool :=
  match eo_class o with Ours ExtractorConfigurationError => true | _ => false end.
Definition TRANSIENT_THIRD_PARTY_MODULES : list pystr :=
  [lit "requests"; lit "httpx"; lit "huggingface_hub"; lit "urllib3"; lit "aiohttp"].
Definition exc_chain_has_transient_module (x : exception) : bool :=
  existsb (fun o => bool_decide ((partition_at DOT (module_of o)).1 ∈ TRANSIENT_THIRD_PARTY_MODULES)) (iter_exc_chain x).
Definition exc_chain_has_import_error (x : exception) : bool := existsb is_import_error (iter_exc_chain x).

(** [except ExtractorConfigurationError], [except ImportError] of the exception itself. *)
Definition top_is (f : exc_object -> bool) (x : exception) : bool :=
  match ex_objects x !! ex_top x with Some o => f o | None => false end.
(** [except Exception as exc: raise K(...) from exc], and only for [ImportError]. *)
Definition wrap {A} (k : raised) (r : res exception A) : res exception A :=
  match r with Ok a => Ok a | Err x => Err (raise_from k x) end.
Definition wrap_import {A} (k : raised) (r : res exception A) : res exception A :=
  match r with Err x => if top_is is_import_error x then Err (raise_from k x) else Err x | Ok a => Ok a end.

(** ** The result ([ExtractedText.__post_init__]) *)
Definition normal_text (text : pystr) : pystr :=
  let text := Pgtext.strip_nuls text in if Chunking.is_blank text then [] else text.
Definition extracted_text (text : pystr) (page_count : option Z) (extractor : pystr) : ExtractedText :=
  MkText (normal_text text) page_count extractor.

(** ** Third-party parsers *)
(** A blob's file: its bytes, or what reading it raises. *)
Notation file := (res exception bytes).
Record pdf_reader := PdfReader {
  pr_is_encrypted : res exception bool; pr_page_texts : res exception (list (option pystr)); pr_len : res exception Z }.
(** A shape's text where it has a text frame; the notes frame, where there are notes. *)
Record slide := Slide { sl_shapes : list (option pystr); sl_notes : option (option pystr) }.
Record ics_value := IcsValue { iv_true : bool; iv_str : pystr }.
Inductive attendees := OneAttendee (v : ics_value) | ManyAttendees (vs : list ics_value).
Record component := Component {
  co_name : pystr; co_get : pystr -> option ics_value;
  co_dtstart : option (bool * res exception pystr);          (* whether it is true, [str(dtstart.dt)] *)
  co_attendee : attendees }.
(** An opened document answers what iterating over it answers or raises. *)
Record parsers := Parsers {
  ps_import : pystr -> option exception;
  ps_pypdf : file -> res exception pdf_reader;
  ps_docx : file -> res exception (res exception (list pystr));
  ps_openpyxl : bytes -> res exception (res exception (list (list (list (option pystr)))));
  ps_pptx : file -> res exception (res exception (list slide));
  ps_chardet : bytes -> res exception (option pystr * option float);
  ps_codec : pystr -> bytes -> res exception pystr;           (* [decode(encoding, "replace")] *)
  ps_html2text : pystr -> res exception pystr;
  ps_striprtf : pystr -> res exception pystr;
  ps_odf : file -> res exception (res exception (list (list (option pystr))));
  ps_icalendar : bytes -> res exception (res exception (list component)) }.

Record extractor_config := ExtractorConfig {
  extractor_chardet_confidence_min : float; extractor_ocr_engine : pystr;
  extractor_ocr_languages : list pystr; extractor_docling_max_pages : Z }.

(** ** Which parser ([LightweightExtractor.extract]) *)
Inductive format := Pdf | Docx | Xlsx | Pptx | Txt | Md | Html | Csv | Rtf | Odt | Ics.
#[export] Instance format_eq_dec : EqDecision format.
Proof. solve_decision. Defined.

Definition MIME_ALLOWLIST : list pystr :=
  [lit "application/pdf";
   lit "application/vnd.openxmlformats-officedocument.wordprocessingml.document";
   lit "application/vnd.openxmlformats-officedocument.spreadsheetml.sheet";
   lit "application/vnd.openxmlformats-officedocument.presentationml.presentation";
   lit "application/vnd.oasis.opendocument.text"; lit "application/rtf"; lit "text/plain"; lit "text/markdown";
   lit "text/html"; lit "text/csv"; lit "text/calendar"].
Definition EXTENSION_ALLOWLIST : list pystr :=
  [lit ".pdf"; lit ".docx"; lit ".xlsx"; lit ".pptx"; lit ".odt"; lit ".rtf"; lit ".txt"; lit ".md"; lit ".html";
   lit ".htm"; lit ".csv"; lit ".ics"].

Definition has_sub (sub s : pystr) : bool := bool_decide (is_Some (find_sub sub s)).
(** The tests of [extract] on the lowered MIME type and the extension, in order. *)
Definition ROUTES (mt ext : pystr) : list (bool * format) :=
  [(str_eqb mt (lit "application/pdf") || str_eqb ext (lit ".pdf"), Pdf);
   (has_sub (lit "wordprocessingml") mt || str_eqb ext (lit ".docx"), Docx);
   (has_sub (lit "spreadsheetml") mt || str_eqb ext (lit ".xlsx"), Xlsx);
   (has_sub (lit "presentationml") mt || str_eqb ext (lit ".pptx"), Pptx);
   (str_eqb mt (lit "text/plain") || str_eqb ext (lit ".txt"), Txt);
   (str_eqb mt (lit "text/markdown") || str_eqb ext (lit ".md"), Md);
   (str_eqb mt (lit "text/html") || bool_decide (ext ∈ [lit ".html"; lit ".htm"]), Html);
   (str_eqb mt (lit "text/csv") || str_eqb ext (lit ".csv"), Csv);
   (str_eqb mt (lit "application/rtf") || str_eqb ext (lit ".rtf"), Rtf);
   (has_sub (lit "opendocument.text") mt || str_eqb ext (lit ".odt"), Odt);
   (str_eqb mt (lit "text/calendar") || str_eqb ext (lit ".ics"), Ics)].
Definition route (mt ext : pystr) : option format :=
  snd <$> head (filter (fun r => r.1 = true) (ROUTES mt ext)).
Section dispatch.
Context `{PyUnicode}.
Definition supports (mime_type filename : option pystr) : bool :=
  (match mime_type with Some ((_ :: _) as m) => bool_decide (lower m ∈ MIME_ALLOWLIST) | _ => false end)
  || bool_decide (extension_of (default [] filename) ∈ EXTENSION_ALLOWLIST).
Definition dispatch (mime_type filename : option pystr) : option format :=
  route (lower (default [] mime_type)) (extension_of (default [] filename)).
End dispatch.

(** ** Text files *)
(** [raw.decode("utf-8")] *)
Fixpoint utf8_strict (bs : bytes) : option pystr :=
  match bs with
  | [] => Some []
  | b0 :: r =>
      if b0 <? 128 then cons b0 <$> utf8_strict r
      else
        match r with
        | b1 :: r =>
            if in_range 194 223 b0 && continuation b1
            then cons ((b0 - 192) * 64 + (b1 - 128)) <$> utf8_strict r
            else
              match r with
              | b2 :: r =>
                  if in_range 224 239 b0 && second_of_three b0 b1 && continuation b2
                  then cons ((b0 - 224) * 4096 + (b1 - 128) * 64 + (b2 - 128)) <$> utf8_strict r
                  else
                    match r with
                    | b3 :: r =>
                        if in_range 240 244 b0 && second_of_four b0 b1 && continuation b2 && continuation b3
                        then cons ((b0 - 240) * 262144 + (b1 - 128) * 4096 + (b2 - 128) * 64 + (b3 - 128)) <$> utf8_strict r
                        else None
                    | [] => None
                    end
              | [] => None
              end
        | [] => None
        end
  end.
Definition latin_1 (raw : bytes) : pystr := raw.
(** The newline translation of a file opened for text. *)
Fixpoint universal_newlines (s : pystr) : pystr :=
  match s with
  | [] => []
  | c :: r =>
      if c =? 13 then
        match r with
        | d :: _ => if d =? 10 then universal_newlines r else 10 :: universal_newlines r
        | [] => [10]
        end
      else c :: universal_newlines r
  end.
(** The lines of a file opened with [newline=""], terminators included. *)
Definition continue_line (c : Z) (lines : list pystr) : list pystr :=
  match lines with l :: ls => (c :: l) :: ls | [] => [[c]] end.
Fixpoint file_lines (s : pystr) : list pystr :=
  match s with
  | [] => []
  | c :: r =>
      if c =? 10 then [c] :: file_lines r
      else if c =? 13 then
        match r with
        | d :: _ => if d =? 10 then continue_line c (file_lines r) else [c] :: file_lines r
        | [] => [[c]]
        end
      else continue_line c (file_lines r)
  end.

(** [csv.reader] with the default dialect. *)
Inductive csv_state := START_RECORD | START_FIELD | IN_FIELD | IN_QUOTED_FIELD | QUOTE_IN_QUOTED_FIELD | EAT_CRNL.
#[export] Instance csv_state_eq_dec : EqDecision csv_state.
Proof. solve_decision. Defined.
Record csv := CsvReader { cs_state : csv_state; cs_field : pystr; cs_fields : list pystr }.
Definition FIELD_LIMIT : Z := 131072.
Definition csv_start : csv := CsvReader START_RECORD [] [].
Definition add_char (c : Z) (st : csv_state) (r : csv) : option csv :=
  if FIELD_LIMIT <=? Z.of_nat (length (cs_field r)) then None
  else Some (CsvReader st (cs_field r ++ [c]) (cs_fields r)).
Definition save_field (st : csv_state) (r : csv) : option csv := Some (CsvReader st [] (cs_fields r ++ [cs_field r])).
Definition goto (st : csv_state) (r : csv) : option csv := Some (CsvReader st (cs_field r) (cs_fields r)).
Definition QUOTE : Z := 34.
Definition DELIMITER : Z := 44.
Definition is_crnl (c : Z) : bool := (c =? 10) || (c =? 13).
(** A character, and the end of a line, in each state. *)
Definition field_start (c : Z) (r : csv) : option csv :=
  if is_crnl c then save_field EAT_CRNL r
  else if c =? QUOTE then goto IN_QUOTED_FIELD r
  else if c =? DELIMITER then save_field START_FIELD r
  else add_char c IN_FIELD r.
Definition csv_char (c : Z) (r : csv) : option csv :=
  match cs_state r with
  | START_RECORD => if is_crnl c then goto EAT_CRNL r else field_start c r
  | START_FIELD => field_start c r
  | IN_FIELD =>
      if is_crnl c then save_field EAT_CRNL r
      else if c =? DELIMITER then save_field START_FIELD r
      else add_char c IN_FIELD r
  | IN_QUOTED_FIELD => if c =? QUOTE then goto QUOTE_IN_QUOTED_FIELD r else add_char c IN_QUOTED_FIELD r
  | QUOTE_IN_QUOTED_FIELD =>
      if c =? QUOTE then add_char c IN_QUOTED_FIELD r
      else if c =? DELIMITER then save_field START_FIELD r
      else if is_crnl c then save_field EAT_CRNL r
      else add_char c IN_FIELD r
  | EAT_CRNL => if is_crnl c then Some r else None
  end.
Definition csv_eol (r : csv) : option csv :=
  match cs_state r with
  | START_RECORD | IN_QUOTED_FIELD => Some r
  | START_FIELD | IN_FIELD | QUOTE_IN_QUOTED_FIELD => save_field START_RECORD r
  | EAT_CRNL => goto START_RECORD r
  end.
Definition csv_line (line : pystr) (r : csv) : option csv :=
  r ← foldl (fun r c => r ← r; csv_char c r) (Some r) line; csv_eol r.
(** The rows the reader yields; [None] where it raises [csv.Error]. *)
Fixpoint csv_rows (r : csv) (lines : list pystr) : option (list (list pystr)) :=
  match lines with
  | [] =>
      Some (if bool_decide (cs_field r <> []) || bool_decide (cs_state r = IN_QUOTED_FIELD)
            then [cs_fields r ++ [cs_field r]] else [])
  | line :: lines =>
      r ← csv_line line r;
      if bool_decide (cs_state r = START_RECORD)
      then cons (cs_fields r) <$> csv_rows csv_start lines
      else csv_rows r lines
  end.
Definition csv_error : exception :=
  Exception {[ O := ExcObject (Foreign (OtherError (lit "Error")) false (lit "_csv")) None None false ]} O.

(** ** The lightweight extractor *)
Definition LIGHTWEIGHT_ID : pystr := lit "lightweight@1.0".
Section lightweight.
Context `{PyUnicode} (ps : parsers) (cfg : extractor_config).

Definition importing {A} (name : pystr) (k : res exception A) : res exception A :=
  match ps_import ps name with Some x => Err x | None => k end.
(** The text of every method but two: joined parts, trimmed. *)
Definition joined (parts : list pystr) (page_count : option Z) : ExtractedText :=
  extracted_text (strip (join [Chunking.NL] parts)) page_count LIGHTWEIGHT_ID.
Definition non_empty (s : pystr) : bool := bool_decide (s <> []).
Definition of_char_data (p : list (option pystr)) : pystr := concat (omap id p).
Definition read_text (f : file) : res exception pystr :=
  let* bs := f in Ok (universal_newlines (utf8_replace bs)).

Definition extract_pdf (f : file) : res exception ExtractedText :=
  importing (lit "pypdf") (
  let* reader := wrap ExtractorError (ps_pypdf ps f) in
  let* encrypted := pr_is_encrypted reader in
  if encrypted : bool then Err (raise_new ExtractorError)
  else
    let* pages := wrap ExtractorError (pr_page_texts reader) in
    let* n := pr_len reader in
    Ok (joined (default [] <$> pages) (Some n))).
Definition extract_docx (f : file) : res exception ExtractedText :=
  importing (lit "docx") (
  let* d := wrap ExtractorError (ps_docx ps f) in
  let* paragraphs := d in
  Ok (joined (filter (fun p => non_empty p = true) paragraphs) None)).
Definition row_text (row : list (option pystr)) : pystr := join [32] (omap id row).
Definition extract_xlsx (f : file) : res exception ExtractedText :=
  importing (lit "openpyxl") (
  let* wb := wrap ExtractorError (let* bs := f in ps_openpyxl ps bs) in
  let* worksheets := wb in
  Ok (joined (filter (fun t => non_empty t = true) (row_text <$> concat worksheets)) None)).
Definition slide_parts (s : slide) : list pystr :=
  filter (fun t => non_empty t = true) (strip <$> omap id (sl_shapes s)) ++
  match sl_notes s with Some (Some ((_ :: _) as notes)) => [notes] | _ => [] end.
Definition extract_pptx (f : file) : res exception ExtractedText :=
  importing (lit "pptx") (
  let* prs := wrap ExtractorError (ps_pptx ps f) in
  let* slides := prs in
  Ok (joined (flat_map slide_parts slides) None)).
(** [det.get("encoding")] when its confidence suffices, else [latin-1]. *)
Definition fallback_encoding (det : option pystr * option float) : pystr :=
  let conf := default fzero det.2 in
  let enc := if flt conf (extractor_chardet_confidence_min cfg) || is_nan conf
                || is_nan (extractor_chardet_confidence_min cfg) then None else det.1 in
  match enc with Some ((_ :: _) as e) => e | _ => lit "latin-1" end.
Definition decode_replace (encoding : pystr) (raw : bytes) : res exception pystr :=
  if str_eqb encoding (lit "latin-1") then Ok (latin_1 raw) else ps_codec ps encoding raw.
Definition extract_txt (f : file) : res exception ExtractedText :=
  importing (lit "chardet") (
  let* raw := f in
  let* text := match utf8_strict raw with
               | Some text => Ok text
               | None =>
                   let* det := ps_chardet ps raw in
                   wrap ExtractorError (decode_replace (fallback_encoding det) raw)
               end in
  Ok (extracted_text (strip text) None LIGHTWEIGHT_ID)).
Definition extract_html (f : file) : res exception ExtractedText :=
  importing (lit "html2text") (
  let* html := wrap ExtractorError (read_text f) in
  let* text := ps_html2text ps html in
  Ok (extracted_text (strip text) None LIGHTWEIGHT_ID)).
Definition extract_csv (f : file) : res exception ExtractedText :=
  let* rows := wrap ExtractorError (
    let* bs := f in
    match csv_rows csv_start (file_lines (utf8_replace bs)) with
    | Some rows => Ok (join [32] <$> rows)
    | None => Err csv_error
    end) in
  Ok (joined rows None).
Definition extract_rtf (f : file) : res exception ExtractedText :=
  importing (lit "striprtf") (
  let* raw := wrap ExtractorError (read_text f) in
  let* text := wrap ExtractorError (ps_striprtf ps raw) in
  Ok (extracted_text (strip text) None LIGHTWEIGHT_ID)).
Definition extract_odt (f : file) : res exception ExtractedText :=
  importing (lit "odf") (
  let* doc := wrap ExtractorError (ps_odf ps f) in
  let* paragraphs := doc in
  Ok (joined (of_char_data <$> paragraphs) None)).
Definition EVENT_FIELDS : list pystr := [lit "SUMMARY"; lit "DESCRIPTION"; lit "LOCATION"].
Definition shown (v : ics_value) : list pystr := if iv_true v then [iv_str v] else [].
Definition event_parts (c : component) : res exception (list pystr) :=
  let* start := match co_dtstart c with
                | Some (true, dt) => let* dt := dt in Ok [dt]
                | _ => Ok []
                end in
  Ok (flat_map shown (omap (co_get c) EVENT_FIELDS) ++ start ++
      match co_attendee c with
      | OneAttendee v => shown v
      | ManyAttendees vs => iv_str <$> vs
      end).
Definition extract_ics (f : file) : res exception ExtractedText :=
  importing (lit "icalendar") (
  let* cal := wrap ExtractorError (let* bs := f in ps_icalendar ps bs) in
  let* components := cal in
  let events := filter (fun c => str_eqb (co_name c) (lit "VEVENT") = true) components in
  let* parts := mapM event_parts events in
  Ok (joined (concat parts) match events with [] => None | _ => Some (Z.of_nat (length events)) end)).

Definition extract_as (k : format) : file -> res exception ExtractedText :=
  match k with
  | Pdf => extract_pdf | Docx => extract_docx | Xlsx => extract_xlsx | Pptx => extract_pptx
  | Txt | Md => extract_txt | Html => extract_html | Csv => extract_csv | Rtf => extract_rtf
  | Odt => extract_odt | Ics => extract_ics
  end.
Definition lightweight_extract (f : file) (mime_type filename : option pystr) : res exception ExtractedText :=
  match dispatch mime_type filename with
  | Some k => extract_as k f
  | None => Err (raise_new ExtractorError)
  end.
End lightweight.

(** ** OCR ([ocr_policy.py]) *)
Definition OCR_AUTO : pystr := lit "auto".
Definition OCR_DISABLED : pystr := lit "none".
Record OcrPlan := MkPlan { do_ocr : bool; engine_kind : option pystr }.
Definition plan_ocr `{PyUnicode} (engine : pystr) : OcrPlan :=
  let kind := lower (strip engine) in
  if bool_decide (kind ∈ [[]; OCR_DISABLED]) then MkPlan false None else MkPlan true (Some kind).

(** ** Docling *)
(** What the docling package answers; [None] of an import is success. *)
Record docling := Docling {
  dk_options : Type; dk_converter : Type; dk_document : Type;
  dk_find_spec : res exception bool;
  dk_import_converter : option exception;
  dk_import_classes : option exception;               (* InputFormat, PdfFormatOption *)
  dk_import_pipeline : option exception;              (* PdfPipelineOptions *)
  dk_ocr_factory : res exception (res exception (list pystr));   (* the factory, its registered kinds *)
  dk_create_options : pystr -> list pystr -> res exception dk_options;
  dk_import_ocr_mode : option exception;
  dk_full_page : dk_options -> res exception dk_options;         (* [options.mode = OcrMode.FULL_PAGE] *)
  (* [DocumentConverter] for PDF alone, with [PdfPipelineOptions(do_ocr, ocr_options)] *)
  dk_pdf_converter : bool -> option dk_options -> res exception dk_converter;
  dk_version : option pystr;
  dk_convert : dk_converter -> file -> Z -> res exception dk_document;
  dk_export_to_markdown : dk_document -> res exception (option pystr);
  dk_pages : dk_document -> option Z }.

Section docling.
Context `{PyUnicode} (dk : docling) (cfg : extractor_config).
Definition ok_unless (x : option exception) : res exception () := match x with Some x => Err x | None => Ok () end.

(** [_try_import_docling]: [false] when docling is not installed. *)
Definition try_import_docling : res exception bool :=
  wrap ExtractorConfigurationError (
    let* installed := dk_find_spec dk in
    if installed : bool then let* _ := ok_unless (dk_import_converter dk) in Ok true else Ok false).

Definition ocr_the_whole_page (options : dk_options dk) : res exception (dk_options dk) :=
  let* _ := wrap_import ExtractorConfigurationError (ok_unless (dk_import_ocr_mode dk)) in
  dk_full_page dk options.
Definition resolve_ocr_options (plan : OcrPlan) (languages : list pystr) : res exception (option (dk_options dk)) :=
  match engine_kind plan with
  | None => Ok None
  | Some kind =>
      let* factory := wrap ExtractorConfigurationError (dk_ocr_factory dk) in
      let* known := factory in
      if bool_decide (kind ∈ known) then
        let* options := dk_create_options dk kind languages in
        let* options := ocr_the_whole_page options in
        Ok (Some options)
      else Err (raise_new ExtractorConfigurationError)
  end.
(** The arguments of [PdfPipelineOptions]. *)
Definition build_pdf_pipeline_options : res exception (bool * option (dk_options dk)) :=
  let* _ := wrap_import ExtractorConfigurationError (ok_unless (dk_import_pipeline dk)) in
  let plan := plan_ocr (extractor_ocr_engine cfg) in
  let* options := resolve_ocr_options plan (extractor_ocr_languages cfg) in
  Ok (do_ocr plan, options).
(** [DocumentConverter( **_converter_kwargs(cfg))]: for PDF alone, with that pipeline. *)
Definition pdf_converter : res exception (dk_converter dk) :=
  let* _ := wrap_import ExtractorConfigurationError (ok_unless (dk_import_classes dk)) in
  let* pipeline := build_pdf_pipeline_options in
  dk_pdf_converter dk pipeline.1 pipeline.2.
Definition configured_converter : res exception (dk_converter dk) :=
  match pdf_converter with
  | Err x => if top_is is_configuration x then Err x else Err (raise_from ExtractorConfigurationError x)
  | Ok c => Ok c
  end.
Definition DEFAULT_VERSION : pystr := lit "1.0".
(** [converter.convert], and what an exception of it is taken for. *)
Definition convert_failure (x : exception) : exception :=
  if exc_chain_has_import_error x then raise_from ExtractorConfigurationError x
  else if exc_chain_has_transient_module x then raise_from Transient x
  else raise_from ExtractorError x.
Definition docling_extract (f : file) : res exception ExtractedText :=
  let* available := try_import_docling in
  if negb available then Err (raise_new ExtractorError)
  else
    let* converter := configured_converter in
    match dk_convert dk converter f (extractor_docling_max_pages cfg) with
    | Err x => Err (convert_failure x)
    | Ok document =>
        let* text := wrap ExtractorError (dk_export_to_markdown dk document) in
        Ok (extracted_text (strip (default [] text)) (dk_pages dk document)
              (lit "docling@" ++ default DEFAULT_VERSION (dk_version dk)))
    end.
End docling.

(** ** The worker's extractors *)
(** What one sweep meets: each blob's file, its parsers, and docling at the worker's
    own check and inside [DoclingExtractor.extract]. *)
Record world := World {
  wd_file : bytes -> file; wd_parsers : bytes -> parsers;
  wd_docling_check : bytes -> docling; wd_docling : bytes -> docling }.
Definition seen_by_worker {A} (r : res exception A) : res exc A :=
  match r with Ok a => Ok a | Err x => Err (exc_of x) end.
Definition with_extractors `{PyUnicode} (xcfg : extractor_config) (w : world) (d : queue_db) (e : env) : env :=
  let mime sha := attachment_blobs d !! sha ≫= b_mime_type in
  Env (scan e) (locked e) (blob_filenames e)
    (fun sha filename => seen_by_worker (lightweight_extract (wd_parsers w sha) xcfg (wd_file w sha) (mime sha) filename))
    (fun sha => seen_by_worker (try_import_docling (wd_docling_check w sha)))
    (fun sha _ => seen_by_worker (docling_extract (wd_docling w sha) xcfg (wd_file w sha)))
    (insert_fails e) (clear_fails e) (log_fails e).
(** [run_extract_worker_once] with the extractors of this file. *)
Definition extract_sweep `{PyUnicode} (xcfg : extractor_config) (cfg : search_config) (w : world) (e : env)
    (d : queue_db) : queue_db :=
  (run_extract_worker_once (with_extractors xcfg w d e) cfg d).1.

(** [localmail retry-failed-extractions] ([cli.py]) *)
Definition retry_failed_extractions (sha256 : option bytes) (d : queue_db) : queue_db :=
  match sha256 with
  | Some ((_ :: _) as sha) => set_transient (delete sha (transient_extractions d)) (set_failed_x (delete sha (failed_extractions d)) d)
  | _ => set_transient ∅ (set_failed_x ∅ d)
  end.
End Extractor.
