(* ===== verification/ExtractorFacts.v ===== *)
(** * What extraction guarantees

    The walk of an exception's chain ends; every text is ready for the chunker; an
    admitted blob has a parser; and a docling that will not run fails no document. *)
From S2P Require Import Prelude PyStr Errors Utf8 Score MailStore Query HeaderBlock Chunking ChunkFacts.
From S2P Require Import ExtractQueue ExtractFacts Extractor.
Import Attachment_kind Extract_worker Extractor.

(** ** The chain of an exception *)
Section chains.
Implicit Types (h : gmap nat exc_object) (x : exception).

(** Every turn meets an object not met before, so one turn more than there are
    objects is enough. *)
Lemma chain_fuel h f g seen cur :
  (size (dom h ∖ list_to_set seen) < f)%nat -> (size (dom h ∖ list_to_set seen) < g)%nat ->
  chain f h seen cur = chain g h seen cur.
Proof.
  revert g seen cur. induction f as [| f IH]; intros [| g] seen cur Hf Hg; [lia | lia | lia |].
  cbn. destruct cur as [i |]; [| done]. case_bool_decide as Hi; [done |].
  destruct (h !! i) as [o |] eqn:Eo; [| done]. f_equal.
  assert (Hlt : (size (dom h ∖ list_to_set (i :: seen)) < size (dom h ∖ list_to_set seen))%nat).
  { apply subset_size. split; [set_solver |]. intros Hs. specialize (Hs i).
    apply elem_of_dom_2 in Eo. set_solver. }
  apply IH; lia.
Qed.
Lemma chain_seen f h s1 s2 cur : (forall i, i ∈ s1 <-> i ∈ s2) -> chain f h s1 cur = chain f h s2 cur.
Proof.
  revert s1 s2 cur. induction f as [| f IH]; intros s1 s2 cur Hs; [done |]. cbn. destruct cur as [i |]; [| done].
  rewrite (bool_decide_ext _ _ (Hs i)). case_bool_decide; [done |]. destruct (h !! i); [| done].
  f_equal. apply IH. set_solver.
Qed.
Lemma chain_insert f h n o seen cur :
  h !! n = None -> chain f (<[n := o]> h) (n :: seen) cur = chain f h seen cur.
Proof.
  intros Hn. revert seen cur. induction f as [| f IH]; intros seen cur; [done |]. cbn. destruct cur as [i |]; [| done].
  destruct (decide (i = n)) as [-> | Hne].
  - rewrite bool_decide_eq_true_2 by set_solver. rewrite Hn. by case_bool_decide.
  - rewrite lookup_insert_ne, (bool_decide_ext (i ∈ n :: seen) (i ∈ seen)) by set_solver.
    case_bool_decide; [done |]. destruct (h !! i) as [o' |]; [| done]. f_equal.
    rewrite <- IH. apply chain_seen. set_solver.
Qed.
Lemma next_id_fresh h : h !! next_id h = None.
Proof.
  apply eq_None_not_Some. intros [o Ho]. unfold next_id in Ho.
  assert (S (max_list (map_to_list h).*1) ∈ (map_to_list h).*1) as Hin.
  { apply list_elem_of_fmap. exists (S (max_list (map_to_list h).*1), o). split; [done |]. by apply elem_of_map_to_list. }
  apply max_list_elem_of_le in Hin. lia.
Qed.

Lemma chain_turn f h seen i : chain (S f) h seen (Some i) =
  if bool_decide (i ∈ seen) then [] else
  match h !! i with Some o => o :: chain f h (i :: seen) (next_exc o) | None => [] end.
Proof. done. Qed.

(** What is raised in a handler stands before what it handles. *)
Lemma chain_raise_from k x :
  iter_exc_chain (raise_from k x) =
  ExcObject (Ours k) (Some (ex_top x)) (Some (ex_top x)) true :: iter_exc_chain x.
Proof.
  unfold iter_exc_chain, raise_from. cbn [ex_objects ex_top]. set (h := ex_objects x). set (n := next_id h).
  rewrite map_size_insert_None by apply next_id_fresh.
  rewrite (chain_turn (S (size h)) _ [] n).
  rewrite bool_decide_eq_false_2 by set_solver. rewrite lookup_insert_eq. f_equal. cbn [next_exc eo_cause].
  apply chain_insert, next_id_fresh.
Qed.
Lemma exc_of_raise_from k x : exc_of (raise_from k x) = worker_class (ExcObject (Ours k) None None true) :: exc_of x.
Proof. unfold exc_of. by rewrite chain_raise_from. Qed.
Lemma raise_from_transient k x : k <> ExtractorError -> is_transient (exc_of (raise_from k x)) = true.
Proof. intros Hk. rewrite exc_of_raise_from. by destruct k. Qed.
Lemma configuration_transient x : top_is is_configuration x = true -> is_transient (exc_of x) = true.
Proof.
  unfold top_is, exc_of, iter_exc_chain. cbn. rewrite bool_decide_eq_false_2 by set_solver.
  destruct (ex_objects x !! ex_top x) as [o |]; [| done]. cbn. unfold is_configuration, worker_class.
  by destruct (eo_class o) as [[] |].
Qed.
(** No object is met twice. *)
Lemma iter_exc_chain_enough f x : (size (ex_objects x) < f)%nat ->
  chain f (ex_objects x) [] (Some (ex_top x)) = iter_exc_chain x.
Proof. intros Hf. apply chain_fuel; cbn [list_to_set]; rewrite difference_empty_L, size_dom; lia. Qed.
End chains.

(** ** The text of an extraction *)
Definition indexable (text : pystr) : Prop := 0 ∉ text /\ (text = [] \/ Chunking.is_blank text = false).
Lemma normal_text_indexable text : indexable (normal_text text).
Proof.
  unfold normal_text. destruct (Chunking.is_blank _) eqn:Eb; split; [set_solver | by left | | by right].
  intros [Hc _]%list_elem_of_filter. done.
Qed.
(** What cannot be chunked to anything is the empty sentinel. *)
Lemma indexable_chunks `{Tokenizer} text ccfg cs :
  indexable text -> Chunking.chunk_attachment_text text ccfg = Ok cs -> text = [] \/ cs <> [].
Proof. intros [_ [-> | Hb]] Hc; [by left |]. right. rewrite chunked_to_nothing_iff_blank by done. congruence. Qed.

Section extractors.
Context `{PyUnicode} (ps : parsers) (cfg : extractor_config).
Definition good (r : res exception ExtractedText) : Prop := forall t, r = Ok t -> indexable (et_text t).
Lemma good_text text n e : good (Ok (extracted_text text n e)).
Proof. intros t [= <-]. apply normal_text_indexable. Qed.
Lemma good_bind {A} (r : res exception A) k : (forall a, good (k a)) -> good (let* a := r in k a).
Proof. intros Hk. by destruct r. Qed.
Lemma good_err x : good (Err x).
Proof. done. Qed.
Lemma good_import name k : good k -> good (importing ps name k).
Proof. intros Hk. unfold importing. by destruct (ps_import ps name). Qed.
Hint Resolve good_text good_err good_import : core.
Ltac good_steps := repeat first [apply good_import | apply good_bind; intros ? | apply good_text | case_match].
Lemma lightweight_good f mime name : good (lightweight_extract ps cfg f mime name).
Proof.
  unfold lightweight_extract. destruct (dispatch mime name) as [[] |]; cbn [extract_as]; [.. | done];
    unfold extract_pdf, extract_docx, extract_xlsx, extract_pptx, extract_txt, extract_html, extract_csv, extract_rtf,
      extract_odt, extract_ics, joined; good_steps; done.
Qed.
Lemma docling_good (dk : docling) f : good (docling_extract dk cfg f).
Proof. unfold docling_extract. good_steps; done. Qed.
End extractors.

(** ** Where the rows of a sweep come from *)
Section rows.
Context `{PyUnicode} (e : env) (P : ExtractedText -> Prop).
Context (sentinels : forall name, P (sentinel name)).
Context (lightweights : forall s name t, lw_extract e s name = Ok t -> P t).
Context (doclings : forall s name t, dl_extract e s name = Ok t -> P t).
Definition grows (d d' : queue_db) : Prop :=
  forall s t, attachment_text d' !! s = Some t -> attachment_text d !! s = Some t \/ P t.
Lemma grows_refl d : grows d d.
Proof. intros s t. by left. Qed.
Lemma same_text_grows d d' : attachment_text d' = attachment_text d -> grows d d'.
Proof. intros Ht s t. rewrite Ht. by left. Qed.
Lemma grows_trans d1 d2 d3 : grows d1 d2 -> grows d2 d3 -> grows d1 d3.
Proof. intros H1 H2 s t [Ht%H1 | ?]%H2; tauto. Qed.
Lemma insert_grows d s t d' : P t -> insert_attachment_text e d s t = Ok d' -> grows d d'.
Proof.
  intros Ht. unfold insert_attachment_text. destruct (insert_fails e s); [done |].
  destruct (attachment_text d !! s) eqn:Es; intros [= <-]; [apply grows_refl |].
  intros s' t' Hs. cbn in Hs. destruct (decide (s' = s)) as [-> | Hne].
  - rewrite lookup_insert_eq in Hs. injection Hs as <-. by right.
  - rewrite lookup_insert_ne in Hs by done. by left.
Qed.
Lemma write_grows d s t d' wrote : P t -> write e d s t = Ok (d', wrote) -> grows d d'.
Proof.
  intros Ht. unfold write. destruct (insert_attachment_text e d s t) eqn:Ei; [| done]. intros [= <- _].
  by eapply insert_grows.
Qed.
Lemma failure_grows d s name x : grows d (record_failure_safely e d s name x).1.
Proof. unfold record_failure_safely. by destruct (log_fails e s); apply same_text_grows. Qed.
Lemma fail_grows d s name x d' wrote : fail e d s name x = Ok (d', wrote) -> grows d d'.
Proof. unfold fail. destruct (is_transient x); [done |]. intros [= <- _]. apply failure_grows. Qed.
Lemma verdict_grows d s lw d' wrote : lightweight_verdict e d s lw = Ok (d', wrote) -> grows d d'.
Proof. destruct lw; [by apply write_grows | apply fail_grows]. Qed.
Lemma process_blob_grows d s b cfg name d' wrote : process_blob e d s b cfg name = Ok (d', wrote) -> grows d d'.
Proof.
  unfold process_blob, docling_fallback. destruct (_ <? _); [by apply write_grows |].
  pose proof (fun lw => verdict_grows d s lw d' wrote) as Hv.
  pose proof (fun t => write_grows d s t d' wrote) as Hw.
  destruct (lw_extract e s name) as [[[| c l] n x] | x] eqn:El; [| by apply Hw, (lightweights s name) |];
    (destruct (if is_pdf _ _ then _ else _) as [av |]; [| done]; destruct (is_pdf _ _ && av); [| by apply Hv];
     destruct (dl_extract e s name) as [[[| c' l'] n' x'] | x'] eqn:Ed;
       [by apply Hv | by apply Hw, (doclings s name) | apply fail_grows]).
Qed.
Lemma on_exception_grows d n s x d' n' : on_exception e d n s x = (d', n') -> grows d d'.
Proof.
  unfold on_exception, record_transient_safely. destruct (is_transient x).
  - by destruct (log_fails e s); intros [= <- _]; apply same_text_grows.
  - pose proof (failure_grows d s (lit "unexpected") x). destruct (record_failure_safely e d s _ x). by intros [= <- _].
Qed.
Lemma sweep_blob_grows cfg d n s d' n' : sweep_blob e cfg (d, n) s = Ok (d', n') -> grows d d'.
Proof.
  unfold sweep_blob. destruct (attachment_blobs d !! s) as [b |]; [| by intros [= <- _]; apply grows_refl].
  destruct (negb _).
  { destruct (insert_attachment_text e d s _) eqn:Ei; [| done]. intros [= <- _]. by eapply insert_grows. }
  destruct (process_blob _ _ _ _ _ _) as [[d1 wrote] | x] eqn:Ep; [| by intros [= Hx]; eapply on_exception_grows].
  apply process_blob_grows in Ep. destruct (wrote && _); [| by intros [= <- _]].
  unfold clear_transient. destruct (clear_fails e s); [by intros [= Hx]; eapply on_exception_grows |].
  by intros [= <- _].
Qed.
Lemma sweep_grows cfg d : grows d (run_extract_worker_once e cfg d).1.
Proof.
  unfold run_extract_worker_once. destruct (negb _); [apply grows_refl |].
  destruct (foldM _ _ _) as [[d' n] | x] eqn:Ef; [| apply grows_refl]. cbn.
  refine (foldM_invariant _ (fun _ st => grows d st.1) _ (d, 0) (d', n) (grows_refl d) _ Ef).
  intros _ s [d0 n0] [d1 n1] _ Hd Hs. eapply grows_trans; [done |]. by eapply sweep_blob_grows.
Qed.
End rows.

(** ** Stored texts *)
(** The table's life: sweeps of the worker, and whatever else adds no text but the
    empty one. *)
Inductive text_step `{PyUnicode} (xcfg : extractor_config) (d : queue_db) : queue_db -> Prop :=
  | Swept cfg w e : text_step xcfg d (extract_sweep xcfg cfg w e d)
  | Others d' : grows (fun t => et_text t = []) d d' -> text_step xcfg d d'.

(** C35: whatever the parsers and docling answer, every text the extraction worker
    ever stores holds no NUL and is either the empty sentinel or yields at least one
    chunk, so no stored text comes back to the chunking queue sweep after sweep. *)
Theorem stored_texts_are_indexable `{PyUnicode} `{Tokenizer} xcfg d0 d s t :
  attachment_text d0 = ∅ -> rtc (text_step xcfg) d0 d -> attachment_text d !! s = Some t ->
  0 ∉ et_text t /\
  (et_text t = [] \/ forall ccfg cs, Chunking.chunk_attachment_text (et_text t) ccfg = Ok cs -> cs <> []).
Proof.
  intros Hempty Hr. revert s t.
  cut (forall s t, attachment_text d !! s = Some t -> indexable (et_text t)).
  { intros Hi s t Ht. destruct (Hi s t Ht) as [Hn [He | Hb]]; split; [done | by left | done |].
    right. intros ccfg cs Hc. rewrite chunked_to_nothing_iff_blank by done. congruence. }
  refine (rtc_ind_r (fun d => forall s t, attachment_text d !! s = Some t -> indexable (et_text t)) d0 _ _ d Hr);
    [by rewrite Hempty |]. intros d1 d2 _ Hs IH s t Ht.
  assert (Hg : grows (fun t => indexable (et_text t)) d1 d2).
  { destruct Hs as [cfg w e | d2 Ho].
    - apply sweep_grows; cbn.
      + intros name. split; [set_solver | by left].
      + intros s' name t'. unfold seen_by_worker. destruct (lightweight_extract _ _ _ _ _) eqn:El; [| done].
        intros [= <-]. by eapply lightweight_good.
      + intros s' name t'. unfold seen_by_worker. destruct (docling_extract _ _ _) eqn:El; [| done].
        intros [= <-]. by eapply docling_good.
    - intros s' t' [? | ->]%Ho; [by left | right]. split; [set_solver | by left]. }
  destruct (Hg s t Ht) as [Ht' |]; [by eapply IH | done].
Qed.

(** ** A docling that will not run *)
Section held.
Context `{PyUnicode}.

(** The turn of one claimed blob within a sweep: its rows are those the sweep began
    with before it, and those the sweep ends with after it. *)
Lemma sweep_turn e cfg d l d' n s :
  NoDup l -> Forall (fun s => claims cfg d s = true) l -> foldM (sweep_blob e cfg) (d, 0) l = Ok (d', n) -> s ∈ l ->
  exists d1 n1 d2 n2, sweep_blob e cfg (d1, n1) s = Ok (d2, n2) /\ attachment_blobs d1 = attachment_blobs d /\
    rows_of d1 s = rows_of d s /\ rows_of d' s = rows_of d2 s.
Proof.
  intros Hn Hc Hf Hs. rewrite Forall_forall in Hc.
  refine (proj2 (foldM_invariant _ (fun fin st => NoDup fin -> (attachment_blobs st.1 = attachment_blobs d /\
    forall s', s' ∉ fin -> rows_of st.1 s' = rows_of d s') /\
    (s ∈ fin -> exists d1 n1 d2 n2, sweep_blob e cfg (d1, n1) s = Ok (d2, n2) /\
      attachment_blobs d1 = attachment_blobs d /\ rows_of d1 s = rows_of d s /\ rows_of st.1 s = rows_of d2 s))
    l (d, 0) (d', n) _ _ Hf Hn) Hs).
  { intros _. split; [done |]. by intros ?%elem_of_nil. }
  intros fin s0 [d0 n0] [d1 n1] Hs0 HI Hstep [Hn1 [Hn2 _]]%NoDup_app. cbn [fst] in *.
  destruct (HI Hn1) as [[Hb Hout] Hin]. assert (Hf0 : s0 ∉ fin) by set_solver.
  destruct (claims_spec _ _ _ (Hc s0 Hs0)) as [Hblob Ht].
  pose proof (rows_of_eq _ _ _ (Hout s0 Hf0)) as (Ht0 & _).
  destruct (sweep_blob_spec e cfg d0 n0 s0 d1 n1) as [[Hb1 Ho] _]; [by rewrite Hb | congruence | done |].
  split; [split; [congruence |]; intros s' Hs'; rewrite Ho by set_solver; apply Hout; set_solver |].
  intros [Hs' | ->%list_elem_of_singleton]%elem_of_app; [| by exists d0, n0, d1, n1; split_and!; try apply Hout].
  destruct (Hin Hs') as (x1 & m1 & x2 & m2 & ? & ? & ? & Hx). exists x1, m1, x2, m2. split_and!; try done.
  rewrite <- Hx. apply Ho. by intros ->.
Qed.

(** A sweep that answers every attempt on [s] with a transient failure. *)
Definition put_off (e : env) (cfg : search_config) (s : bytes) (b : blob) : Prop :=
  let names := blob_filenames e s in
  is_allowlisted (b_mime_type b) names (extractor_mime_allowlist cfg) (extractor_extension_allowlist cfg) = true /\
  forall d, exists x, process_blob e d s b cfg (preferred_filename names (extractor_extension_allowlist cfg)) = Err x /\
    is_transient x = true.
Lemma put_off_sweep e cfg d s b :
  NoDup (scan e) -> attachment_blobs d !! s = Some b -> put_off e cfg s b ->
  let d' := (run_extract_worker_once e cfg d).1 in
  attachment_blobs d' !! s = Some b /\ attachment_text d' !! s = attachment_text d !! s /\
  failed_extractions d' !! s = failed_extractions d !! s.
Proof.
  intros Hscan Hb [Hal Hp] d'. destruct (run_extract_worker_once e cfg d) as [d0 r] eqn:Er. subst d'. cbn [fst].
  destruct (sweep_accounts e cfg d d0 r Hscan Er) as (Hblobs & _ & Hout & Herr & _). rewrite Hblobs. split; [done |].
  destruct (decide (s ∈ claim_batch e cfg d)) as [Hs | Hs].
  2: { by destruct (rows_of_eq _ _ _ (Hout s Hs)) as (-> & -> & _). }
  revert Er. unfold run_extract_worker_once. destruct (negb _); [by intros [= <- _] |].
  destruct (foldM _ _ _) as [[d1 n] | x] eqn:Ef; intros [= <- _]; [| done].
  destruct (sweep_turn e cfg d _ d1 n s (claim_batch_nodup e cfg d Hscan)) as (x1 & n1 & x2 & n2 & Hsw & Hb1 & Hr1 & Hr2);
    [| done | done |].
  { apply Forall_forall. intros s' Hs'. by apply (claim_batch_spec e cfg d s'). }
  destruct (rows_of_eq _ _ _ Hr1) as (Ht & Hfx & _), (rows_of_eq _ _ _ Hr2) as (-> & -> & _). rewrite <- Ht, <- Hfx.
  revert Hsw. unfold sweep_blob. rewrite Hb1, Hb, Hal. cbn [negb]. destruct (Hp x1) as (x & -> & Hx).
  unfold on_exception. rewrite Hx. unfold record_transient_safely. by destruct (log_fails e s); intros [= <- _].
Qed.

Lemma process_blob_put_off e d s b cfg name :
  (extractor_max_blob_bytes cfg <? b_size_bytes b) = false -> is_pdf (b_mime_type b) name = true ->
  (forall t, lw_extract e s name = Ok t -> et_text t = []) ->
  match ExtractQueue.Extract_worker.try_import_docling e s with Ok av => av = true | Err x => is_transient x = true end ->
  (exists x, dl_extract e s name = Err x /\ is_transient x = true) ->
  exists x, process_blob e d s b cfg name = Err x /\ is_transient x = true.
Proof.
  intros Hsz Hpdf Hlw Hav (x & Hdl & Hx). unfold process_blob, docling_fallback, fail. rewrite Hsz, Hpdf, Hdl, Hx.
  destruct (lw_extract e s name) as [[[| c t] ? ?] | y]; [| by specialize (Hlw _ eq_refl) |];
    (destruct (ExtractQueue.Extract_worker.try_import_docling e s) as [av | z]; [subst av; cbn; eauto | eauto]).
Qed.

(** Docling is installed and its import, its configuration, or a module its conversion
    of [f] asks for, fails; or the network does. *)
Definition docling_broken (dk : docling) (xcfg : extractor_config) (f : file) : Prop :=
  match try_import_docling dk with
  | Err _ => True
  | Ok false => False
  | Ok true =>
      match configured_converter dk xcfg with
      | Err _ => True
      | Ok converter =>
          match dk_convert dk converter f (extractor_docling_max_pages xcfg) with
          | Ok _ => False
          | Err x => exc_chain_has_import_error x || exc_chain_has_transient_module x = true
          end
      end
  end.
Lemma wrap_transient {A} k (r : res exception A) x :
  k <> ExtractorError -> wrap k r = Err x -> is_transient (exc_of x) = true.
Proof. intros Hk. destruct r; [done |]. intros [= <-]. by apply raise_from_transient. Qed.
Lemma try_import_transient (dk : docling) x : try_import_docling dk = Err x -> is_transient (exc_of x) = true.
Proof. by apply wrap_transient. Qed.
Lemma configured_transient (dk : docling) xcfg x : configured_converter dk xcfg = Err x -> is_transient (exc_of x) = true.
Proof.
  unfold configured_converter. destruct (pdf_converter dk xcfg) as [| y]; [done |].
  destruct (top_is _ y) eqn:Et; intros [= <-]; [by apply configuration_transient | by apply raise_from_transient].
Qed.
Lemma broken_is_transient (dk : docling) xcfg f :
  docling_broken dk xcfg f -> exists x, docling_extract dk xcfg f = Err x /\ is_transient (exc_of x) = true.
Proof.
  unfold docling_broken, docling_extract. destruct (try_import_docling dk) as [[] | x] eqn:Ei; [| done |].
  2: { intros _. exists x. split; [done |]. by apply (try_import_transient dk). }
  cbn [negb]. destruct (configured_converter dk xcfg) as [c | x] eqn:Ec.
  2: { intros _. exists x. split; [done |]. by eapply configured_transient. }
  destruct (dk_convert _ _ _ _) as [| x]; [done |]. intros Hx. eexists. split; [done |].
  unfold convert_failure. destruct (exc_chain_has_import_error x); [by apply raise_from_transient |].
  rewrite orb_false_l in Hx. rewrite Hx. by apply raise_from_transient.
Qed.

(** What happens to the tables while docling is broken for the PDF [s]: sweeps, and
    whatever leaves the rows of [s] alone. *)
Inductive broken_step (xcfg : extractor_config) (cfg : search_config) (s : bytes) (b : blob) (d : queue_db) : queue_db -> Prop :=
  | Broken_sweep w e (name := preferred_filename (blob_filenames e s) (extractor_extension_allowlist cfg)) :
      NoDup (scan e) ->
      is_allowlisted (b_mime_type b) (blob_filenames e s) (extractor_mime_allowlist cfg) (extractor_extension_allowlist cfg) = true ->
      is_pdf (b_mime_type b) name = true ->
      (forall t, lightweight_extract (wd_parsers w s) xcfg (wd_file w s) (b_mime_type b) name = Ok t -> et_text t = []) ->
      try_import_docling (wd_docling_check w s) <> Ok false -> docling_broken (wd_docling w s) xcfg (wd_file w s) ->
      broken_step xcfg cfg s b d (extract_sweep xcfg cfg w e d)
  | Elsewhere d' :
      attachment_blobs d' !! s = attachment_blobs d !! s -> attachment_text d' !! s = attachment_text d !! s ->
      failed_extractions d' !! s = failed_extractions d !! s -> broken_step xcfg cfg s b d d'.

Lemma broken_step_rows xcfg cfg s b d d' :
  (extractor_max_blob_bytes cfg <? b_size_bytes b) = false -> attachment_blobs d !! s = Some b ->
  broken_step xcfg cfg s b d d' ->
  attachment_blobs d' !! s = Some b /\ attachment_text d' !! s = attachment_text d !! s /\
  failed_extractions d' !! s = failed_extractions d !! s.
Proof.
  intros Hsz Hb. destruct 1 as [w e name Hn Hal Hpdf Hlw Hav Hbr | d' Hb' ? ?]; [| by split_and!; [rewrite Hb' | |]].
  apply put_off_sweep; [done | done |]. split; [done |]. intros d1. apply process_blob_put_off; cbn; [done | done | ..].
  - intros t. rewrite Hb. cbn. unfold seen_by_worker. destruct (lightweight_extract _ _ _ _ _) eqn:El; [| done].
    intros [= <-]. by apply Hlw.
  - unfold seen_by_worker. destruct (try_import_docling _) as [[] | x] eqn:Ei; [done | done |]. by eapply try_import_transient.
  - destruct (broken_is_transient _ _ _ Hbr) as (x & Hx & Ht). rewrite Hx. by eexists.
Qed.
Lemma unfailed_claims cfg d s :
  is_Some (attachment_blobs d !! s) -> attachment_text d !! s = None -> failed_extractions d !! s = None ->
  transient_extractions d !! s = None -> claims cfg d s = true.
Proof. intros [b Hb] Ht Hf Hx. unfold claims, Extract_queue.queue_row_of. by rewrite Hb, Ht, Hf, Hx. Qed.
End held.

(** C36: a docling that is installed but will not import, cannot be configured, or lacks
    a module or the network while it converts, fails no document: however many sweeps
    meet it, a PDF the lightweight parser has no text for keeps no text row and no new
    failure, and once the operator clears the holds the worker claims it again. *)
Theorem broken_docling_fails_no_pdf `{PyUnicode} xcfg cfg (s : bytes) b d0 d :
  attachment_blobs d0 !! s = Some b -> attachment_text d0 !! s = None ->
  (extractor_max_blob_bytes cfg <? b_size_bytes b) = false -> s <> [] ->
  rtc (broken_step xcfg cfg s b) d0 d ->
  attachment_text d !! s = None /\ failed_extractions d !! s = failed_extractions d0 !! s /\
  claims cfg (retry_failed_extractions None d) s = true /\ claims cfg (retry_failed_extractions (Some s) d) s = true.
Proof.
  intros Hb Ht Hsz Hs Hr.
  enough (attachment_blobs d !! s = Some b /\ attachment_text d !! s = None /\
    failed_extractions d !! s = failed_extractions d0 !! s) as (Hb' & Ht' & Hf).
  { split_and!; [done | done | by apply unfailed_claims; rewrite ?Hb' |].
    destruct s as [| c s]; [done |]. apply unfailed_claims; cbn; [by eexists | done | |]; apply lookup_delete_eq. }
  refine (rtc_ind_r (fun d => attachment_blobs d !! s = Some b /\ attachment_text d !! s = None /\
    failed_extractions d !! s = failed_extractions d0 !! s) d0 _ _ d Hr); [done |].
  intros d1 d2 _ Hstep (Hb1 & Ht1 & Hf1). cbn beta.
  destruct (broken_step_rows xcfg cfg s b d1 d2 Hsz Hb1 Hstep) as (? & Ht2 & Hf2).
  split_and!; [done | congruence | congruence].
Qed.

(** ** Every admitted blob has a parser *)
Section routes.
Context `{PyUnicode}.
Lemma route_some mt ext : existsb fst (ROUTES mt ext) = true -> is_Some (route mt ext).
Proof.
  unfold route. generalize (ROUTES mt ext). intros l. induction l as [| [[] k] l IH]; [done | by eexists | exact IH].
Qed.
Ltac first_route := cbn [existsb fst];
  repeat first [apply orb_true_iff; left; apply orb_true_iff; first [left; vm_compute; reflexivity | right; vm_compute; reflexivity]
               | apply orb_true_iff; right].
(** A route is taken by its MIME test or its extension test alone. *)
Lemma mime_routed mt ext : mt ∈ MIME_ALLOWLIST -> is_Some (route mt ext).
Proof.
  intros Hm. apply route_some.
  refine (proj1 (Forall_forall (fun mt => existsb fst (ROUTES mt ext) = true) MIME_ALLOWLIST) _ mt Hm).
  unfold MIME_ALLOWLIST, ROUTES.
  repeat apply list.Forall_cons_2; [.. | apply list.Forall_nil_2]; first_route.
Qed.
Lemma extension_routed mt ext : ext ∈ EXTENSION_ALLOWLIST -> is_Some (route mt ext).
Proof.
  intros Hm. apply route_some.
  refine (proj1 (Forall_forall (fun ext => existsb fst (ROUTES mt ext) = true) EXTENSION_ALLOWLIST) _ ext Hm).
  unfold EXTENSION_ALLOWLIST, ROUTES.
  repeat apply list.Forall_cons_2; [.. | apply list.Forall_nil_2]; first_route.
Qed.
Lemma lower_allowlist l : forallb (fun m => isascii m && str_eqb (ascii_lower m) m) l = true -> lower <$> l = l.
Proof.
  intros Hl. rewrite <- (list_fmap_id l) at 2. apply list_fmap_ext. intros i m Hm%list_elem_of_lookup_2.
  rewrite forallb_forall in Hl. specialize (Hl m (proj1 (list_elem_of_In _ _) Hm)).
  apply andb_true_iff in Hl as [Ha He%bool_decide_eq_true]. by rewrite lower_ascii.
Qed.
Lemma supported_is_dispatched mime name : supports mime name = true -> is_Some (dispatch mime name).
Proof.
  unfold supports, dispatch. rewrite orb_true_iff, bool_decide_eq_true.
  intros [Hm | He]; [| by apply extension_routed]. destruct mime as [[| c m] |]; [done | | done].
  apply mime_routed. by apply bool_decide_eq_true in Hm.
Qed.
(** With the default allow-lists a blob the worker admits never fails for want of a
    parser, whichever name it is handed under; and the gate in front of docling lets
    through exactly the blobs that went to the PDF parser. *)
Lemma admitted_blobs_are_dispatched mime names :
  is_allowlisted mime names MIME_ALLOWLIST EXTENSION_ALLOWLIST = true ->
  is_Some (dispatch mime (preferred_filename names EXTENSION_ALLOWLIST)).
Proof.
  unfold is_allowlisted, dispatch, preferred_filename.
  rewrite !lower_allowlist by by vm_compute. rewrite orb_true_iff, bool_decide_eq_true, existsb_exists.
  intros [Hm | (n & Hn%list_elem_of_In & He%bool_decide_eq_true)]; [by apply mime_routed |].
  destruct (filter _ names) as [| n' l] eqn:Ef.
  - assert (n ∈ filter (fun n => extension_of n ∈ EXTENSION_ALLOWLIST) names) as Hin by by apply list_elem_of_filter.
    rewrite Ef in Hin. by apply elem_of_nil in Hin.
  - assert (n' ∈ filter (fun n => extension_of n ∈ EXTENSION_ALLOWLIST) names) as Hin by (rewrite Ef; set_solver).
    apply list_elem_of_filter in Hin as [Hin _]. by apply extension_routed.
Qed.
Lemma docling_gate_is_the_pdf_route mime name : is_pdf mime name = bool_decide (dispatch mime name = Some Pdf).
Proof.
  unfold is_pdf, dispatch, route, ROUTES.
  set (mt := lower _). set (ext := extension_of _). rewrite filter_cons. cbn [fst].
  destruct (str_eqb mt (lit "application/pdf") || str_eqb ext (lit ".pdf")) eqn:Ep.
  - rewrite decide_True by done. cbn. by rewrite bool_decide_eq_true_2.
  - rewrite decide_False by done. symmetry. apply bool_decide_eq_false. intros Hd.
    assert (Pdf ∈ (filter (fun r => r.1 = true) (tail (ROUTES mt ext))).*2) as Hin.
    { unfold ROUTES. cbn [tail]. destruct (filter _ _) as [| [b k] l]; [done |]. injection Hd as ->. set_solver. }
    apply list_elem_of_fmap in Hin as ([b k] & [= <-] & [_ Hin]%list_elem_of_filter).
    unfold ROUTES in Hin. cbn [tail] in Hin.
    repeat (apply elem_of_cons in Hin as [Hin | Hin]; [discriminate Hin |]). by apply elem_of_nil in Hin.
Qed.
End routes.

(** ** A CSV file of a reasonable size is read *)
Fixpoint eol_last (l : pystr) : Prop :=
  match l with [] => True | c :: l => (is_crnl c = true -> Forall (fun c => is_crnl c = true) l) /\ eol_last l end.
Lemma eols_last l : Forall (fun c => is_crnl c = true) l -> eol_last l.
Proof. induction 1; done. Qed.
Lemma file_lines_spec s : concat (file_lines s) = s /\ Forall eol_last (file_lines s).
Proof.
  induction s as [| c s [IHc IHe]]; [done |]. cbn [file_lines].
  assert (Hcont : is_crnl c = false ->
    concat (continue_line c (file_lines s)) = c :: s /\ Forall eol_last (continue_line c (file_lines s))).
  { intros Hc. unfold continue_line. destruct (file_lines s) as [| l ls]; cbn in IHc |- *.
    - subst s. split; [done |]. by repeat constructor.
    - rewrite <- IHc. split; [done |]. inversion IHe; subst. constructor; [| done]. cbn. by rewrite Hc. }
  destruct (c =? 10) eqn:E10; [cbn; rewrite IHc; split; [done |]; by repeat constructor |].
  destruct (c =? 13) eqn:E13; [| apply Hcont; unfold is_crnl; by rewrite E10, E13].
  destruct s as [| d s]; [split; [done |]; by repeat constructor |].
  destruct (d =? 10) eqn:Ed; [| cbn [concat app]; rewrite IHc; split; [done |]; by repeat constructor].
  cbn [file_lines] in IHc, IHe |- *. rewrite Ed in *. cbn [continue_line concat app] in *. rewrite IHc. split; [done |].
  inversion IHe; subst. repeat constructor; [| done]. unfold is_crnl. by rewrite Ed.
Qed.
Lemma csv_char_ok c r :
  Z.of_nat (length (cs_field r)) < FIELD_LIMIT -> (cs_state r = EAT_CRNL -> is_crnl c = true) ->
  exists r', csv_char c r = Some r' /\ (length (cs_field r') <= S (length (cs_field r)))%nat /\
    (cs_state r' = EAT_CRNL -> is_crnl c = true).
Proof.
  intros Hl He. unfold csv_char, field_start, add_char, save_field, goto.
  rewrite (proj2 (Z.leb_gt _ _) Hl).
  destruct (cs_state r) eqn:Es, (is_crnl c) eqn:Ec; repeat case_match; try (by specialize (He eq_refl));
    eexists; (split; [done |]); cbn; rewrite ?length_app; cbn; (split; [lia |]); try done; congruence.
Qed.
Lemma csv_line_ok l : forall r,
  Z.of_nat (length (cs_field r) + length l) <= FIELD_LIMIT -> eol_last l ->
  (cs_state r = EAT_CRNL -> Forall (fun c => is_crnl c = true) l) ->
  exists r', csv_line l r = Some r' /\ (length (cs_field r') <= length (cs_field r) + length l)%nat /\
    (cs_state r' = START_RECORD \/ cs_state r' = IN_QUOTED_FIELD).
Proof.
  induction l as [| c l IH]; intros r Hl Hlast He.
  - unfold csv_line. cbn. unfold csv_eol, save_field, goto.
    destruct (cs_state r) eqn:Es; eexists; (split; [done |]); cbn; rewrite ?Es; (split; [lia |]); auto.
  - cbn [length] in Hl. destruct Hlast as [Hc Hlast].
    destruct (csv_char_ok c r) as (r1 & Hr1 & Hl1 & He1); [lia | by intros ?%He; inversion 1 || (inversion H; subst) |].
    destruct (IH r1) as (r2 & Hr2 & Hl2 & Hs2); [lia | done | by intros ?%He1%Hc |].
    exists r2. split; [| split; [cbn; lia | done]]. unfold csv_line in *. cbn [foldl]. cbn [mbind option_bind]. by rewrite Hr1.
Qed.
(** The only way [csv.reader] raises on a file is a field beyond its limit. *)
Lemma csv_rows_ok ls : forall r,
  Z.of_nat (length (cs_field r) + length (concat ls)) <= FIELD_LIMIT -> Forall eol_last ls -> cs_state r <> EAT_CRNL ->
  is_Some (csv_rows r ls).
Proof.
  induction ls as [| l ls IH]; intros r Hl Hlast Hs; [by eexists |]. inversion Hlast as [| ? ? Hl1 Hls]; subst.
  cbn [concat] in Hl. rewrite length_app in Hl.
  destruct (csv_line_ok l r) as (r1 & Hr1 & Hlen & Hst); [lia | done | done |]. cbn [csv_rows].
  rewrite Hr1. cbn. case_bool_decide as Hb.
  - apply fmap_is_Some. apply IH; [cbn; lia | done | done].
  - destruct Hst as [? | Hq]; [done |]. apply IH; [lia | done | congruence].
Qed.
Lemma csv_is_read s : Z.of_nat (length s) <= FIELD_LIMIT -> is_Some (csv_rows csv_start (file_lines s)).
Proof. intros Hl. destruct (file_lines_spec s) as [Hc He]. apply csv_rows_ok; [by rewrite Hc | done | done]. Qed.

(** ** Plain text is kept *)
Lemma utf8_strict_char c bs r :
  code_point c -> utf8_char c = Ok bs -> utf8_strict (bs ++ r) = cons c <$> utf8_strict r.
Proof.
  intros [Hc Hmax]. unfold utf8_char. destruct (Query.is_surrogate c) eqn:Es; [done |].
  apply surrogate_false in Es. intros [= <-].
  destruct (Z.ltb_spec c 128); [cbn; destruct (Z.ltb_spec c 128); [done | lia] |].
  assert (Hm : 0 <= c mod 64 < 64 /\ 0 <= c / 64 mod 64 < 64 /\ 0 <= c / 4096 mod 64 < 64)
    by (Z.div_mod_to_equations; lia).
  destruct (Z.ltb_spec c 2048); [| destruct (Z.ltb_spec c 65536)]; cbn [app utf8_strict].
  - rewrite (proj2 (Z.ltb_ge _ _)), in_range_true by (Z.div_mod_to_equations; lia).
    unfold continuation. rewrite in_range_true by lia. cbn [andb]. do 2 f_equal. Z.div_mod_to_equations; lia.
  - rewrite (proj2 (Z.ltb_ge _ _)), (in_range_false 194) by (Z.div_mod_to_equations; lia). cbn [andb].
    rewrite (in_range_true 224) by (Z.div_mod_to_equations; lia).
    assert (second_of_three (224 + c / 4096) (128 + c / 64 mod 64) = true) as ->.
    { unfold second_of_three, continuation.
      repeat case_match; zb_simpl; apply in_range_true; Z.div_mod_to_equations; lia. }
    unfold continuation. rewrite in_range_true by lia. cbn [andb]. do 2 f_equal. Z.div_mod_to_equations; lia.
  - rewrite (proj2 (Z.ltb_ge _ _)), (in_range_false 194) by (Z.div_mod_to_equations; lia). cbn [andb].
    rewrite (in_range_false 224) by (Z.div_mod_to_equations; lia). cbn [andb]. rewrite (in_range_true 240) by (Z.div_mod_to_equations; lia).
    assert (second_of_four (240 + c / 262144) (128 + c / 4096 mod 64) = true) as ->.
    { unfold second_of_four, continuation.
      repeat case_match; zb_simpl; apply in_range_true; Z.div_mod_to_equations; lia. }
    unfold continuation. rewrite !in_range_true by lia. cbn [andb]. do 2 f_equal. Z.div_mod_to_equations; lia.
Qed.
Lemma utf8_strict_encode s bss : Forall code_point s -> mapM utf8_char s = Ok bss -> utf8_strict (concat bss) = Some s.
Proof.
  intros Hs. revert bss. induction Hs as [| c s Hc Hs IH]; intros bss; cbn; [by intros [= <-] |].
  destruct (utf8_char c) as [bs |] eqn:Ec; [| done]. cbn. destruct (mapM utf8_char s) as [l |]; [| done]. intros [= <-].
  cbn [concat]. rewrite (utf8_strict_char c) by done. by rewrite (IH l).
Qed.
(** A UTF-8 text file is stored as it was written, without its NULs and the blank
    around it, whatever chardet would say; no file is refused for its encoding unless
    a codec chardet names is missing. *)
Lemma plain_text_is_kept ps cfg s bss :
  ps_import ps (lit "chardet") = None -> Forall code_point s -> mapM utf8_char s = Ok bss ->
  extract_txt ps cfg (Ok (concat bss)) = Ok (extracted_text (strip s) None LIGHTWEIGHT_ID).
Proof. intros Hi Hs Hb. unfold extract_txt, importing. by rewrite Hi, (utf8_strict_encode s bss). Qed.
Lemma unsure_text_is_latin_1 ps cfg raw det :
  ps_import ps (lit "chardet") = None -> utf8_strict raw = None -> ps_chardet ps raw = Ok det ->
  flt (default fzero det.2) (extractor_chardet_confidence_min cfg) = true ->
  extract_txt ps cfg (Ok raw) = Ok (extracted_text (strip raw) None LIGHTWEIGHT_ID).
Proof.
  intros Hi Hs Hd Hf. unfold extract_txt, importing, fallback_encoding. rewrite Hi, Hs, Hd, Hf. done.
Qed.
(** A lone surrogate, which is no more storable than a NUL, is kept. *)
Lemma surrogate_is_not_stripped : Query.storable (normal_text [104; 55357; 105]) = false.
Proof. by vm_compute. Qed.

(** ** A sweep over a text file and a scanned PDF *)
Module Example_extract.
#[local] Existing Instance Query.ascii_unicode.
#[local] Existing Instance ChunkFacts.Example_chunks.chars.

Definition no_parser {A} : res exception A := Err csv_error.
(** The PDF opens and its one page has no text. *)
Definition sample_parsers : parsers := {|
  ps_import _ := None;
  ps_pypdf _ := Ok (PdfReader (Ok false) (Ok [None]) (Ok 1));
  ps_docx _ := no_parser; ps_openpyxl _ := no_parser; ps_pptx _ := no_parser; ps_chardet _ := no_parser;
  ps_codec _ _ := no_parser; ps_html2text _ := no_parser; ps_striprtf _ := no_parser; ps_odf _ := no_parser;
  ps_icalendar _ := no_parser |}.
(** [ocrmac] is missing: docling's own error is raised from the [ImportError]. *)
Definition missing_engine : exception :=
  Exception {[ 1%nat := ExcObject (Foreign (OtherError (lit "ConversionError")) false (lit "docling.exceptions")) (Some 2%nat) None true;
               2%nat := ExcObject (Foreign (OtherError (lit "ImportError")) true (lit "builtins")) None (Some 1%nat) false ]} 1.
Definition sample_docling : docling := {|
  dk_options := pystr; dk_converter := option pystr; dk_document := pystr;
  dk_find_spec := Ok true; dk_import_converter := None; dk_import_classes := None; dk_import_pipeline := None;
  dk_ocr_factory := Ok (Ok [lit "auto"; lit "ocrmac"]); dk_create_options kind _ := Ok kind; dk_import_ocr_mode := None;
  dk_full_page o := Ok o; dk_pdf_converter _ o := Ok o; dk_version := Some (lit "2.141");
  dk_convert _ _ _ := Err missing_engine; dk_export_to_markdown d := Ok (Some d); dk_pages _ := None |}.
Definition sample_config : extractor_config := ExtractorConfig fzero (lit " Auto ") [lit "iso:en"] 200.
Definition sample_world : world :=
  World (fun _ => Ok [32; 0; 104; 105; 0; 10]) (fun _ => sample_parsers) (fun _ => sample_docling) (fun _ => sample_docling).
Definition note : bytes := [1].
Definition scan_ : bytes := [2].
Definition tables : queue_db :=
  QueueDb {[ note := Blob (lit "b/1") (Some (lit "text/plain")) 6 1; scan_ := Blob (lit "b/2") None 6 2 ]} ∅ ∅ ∅.
Definition worker_config : search_config := SearchConfig true 10 3 5 1000 MIME_ALLOWLIST EXTENSION_ALLOWLIST.
Definition sample_env : env :=
  Env [note; scan_] (fun _ => false) (fun s => if bool_decide (s = scan_) then [lit "scan.PDF"] else [])
    (fun _ _ => Err []) (fun _ => Err []) (fun _ _ => Err []) (fun _ => None) (fun _ => None) (fun _ => false).
Definition swept : queue_db := extract_sweep sample_config worker_config sample_world sample_env tables.

(** The note is stored trimmed and without its NULs; the scan is put off, once. *)
Example swept_tables :
  map_to_list (attachment_text swept) = [(note, MkText (lit "hi") None (lit "lightweight@1.0"))] /\
  map_to_list (failed_extractions swept) = [] /\
  (tx_count <$> transient_extractions swept !! scan_) = Some 1.
Proof. by vm_compute. Qed.
(** An engine docling does not know is a configuration error as well. *)
Example unknown_engine :
  exists x, configured_converter sample_docling (ExtractorConfig fzero (lit "easyocr") [] 200) = Err x /\
    top_is is_configuration x = true.
Proof. eexists. by vm_compute. Qed.
Example csv_cells :
  csv_rows csv_start (file_lines (lit "a,b c" ++ [13; 10] ++ lit "x" ++ [34; 44] ++ lit "y" ++ [10; 34] ++ lit "p" ++ [34; 34; 10] ++ lit "q" ++ [34; 44])) =
  Some [[lit "a"; lit "b c"]; [lit "x" ++ [34]; lit "y"]; [lit "p" ++ [34; 10] ++ lit "q"; []]].
Proof. by vm_compute. Qed.

Lemma stored_texts_are_indexable_witness :
  0 ∉ lit "hi" /\ forall ccfg cs, Chunking.chunk_attachment_text (lit "hi") ccfg = Ok cs -> cs <> [].
Proof.
  assert (attachment_text swept !! note = Some (MkText (lit "hi") None (lit "lightweight@1.0"))) as Ht by by vm_compute.
  destruct (stored_texts_are_indexable sample_config tables swept note _ eq_refl
    (rtc_once _ _ (Swept sample_config tables worker_config sample_world sample_env)) Ht) as [Hn [He | Hc]];
    [done | by split].
Defined.
Lemma broken_docling_fails_no_pdf_witness :
  attachment_text swept !! scan_ = None /\ claims worker_config (retry_failed_extractions None swept) scan_ = true.
Proof.
  destruct (broken_docling_fails_no_pdf sample_config worker_config scan_ (Blob (lit "b/2") None 6 2) tables swept)
    as (Ht & _ & Hc & _); [by vm_compute | by vm_compute | by vm_compute | done | | by split].
  apply rtc_once, Broken_sweep; [by refine (bool_decide_unpack _ _); vm_compute | by vm_compute | by vm_compute | | by vm_compute | by vm_compute].
  intros t Ht. vm_compute in Ht. by injection Ht as <-.
Defined.
End Example_extract.
